(* ===== verification/_CoqProject ===== *)
-Q . S2P
Prelude.v
Types.v
Bits.v
TickLadder.v
SideIndex.v
PriceQueues.v
MatchingBook.v
BookRep.v
BookOps.v
BookReads.v
BookSpec.v
MatchingEngine.v
EngineSpec.v
Directory.v
EngineWf.v
EngineRefine.v
EngineMatch.v
EngineProcess.v
EngineRefinement.v
EngineFacts.v
EngineTheorems.v
EngineClaims.v
MapSums.v
Ledger.v
LedgerSpec.v
LedgerSim.v
LedgerSolvent.v
LedgerMatch.v
Risk.v
Venue.v
LedgerClaims.v
ByteIO.v
CommandCodec.v
Journal.v
MarketDataCodec.v
OrderEntryCodec.v
BytesClaims.v
TraderBook.v
TraderBookSpec.v
SequenceValidator.v
TraderBooks.v
FeedReplay.v
FeedPublisher.v
FeedCommands.v
FeedHistory.v
FeedBooks.v
Packet.v
FeedRecovery.v
FeedMirror.v
FeedClaims.v
MpscQueue.v
SpscQueue.v
MarketDataRouter.v
UdpListener.v
Pipeline.v
PipelineClaims.v
LatencyTracer.v
GatewayReports.v
Oms.v
OmsMirror.v
OmsDesk.v
OrderEntryClient.v
CommandLine.v
Positions.v
TraderRisk.v
UiGateway.v
UiClaims.v
FillReports.v
TraderDesk.v
Strategies.v
StrategyFacts.v
Applications.v
OmsClaims.v
TraderClaims.v
StrategyClaims.v
Gateway.v
GatewayThreads.v
GatewayFacts.v
GatewayRuns.v
GatewayClaims.v
