(* ===== verification/Prelude.v ===== *)
(** * mdh: a verified model of the simulated exchange

    The program is a simulated securities exchange and the trading side that
    talks to it.  Client messages arrive over TCP at the order-entry gateway
    (src/exchange/gateway), are queued to one matching thread
    (include/common/mpsc_queue.hpp, src/exchange/sequencing), checked against
    the account's ledger (src/exchange/risk, src/exchange/ledger), matched
    (src/exchange/matching) and answered by events: private reports back
    through the gateway, public book events through the market-data feed
    (src/exchange/market_data, src/protocol, src/net/packet.cpp).  Commands
    can be journalled and replayed (src/exchange/persistence).  The trading
    side rebuilds books from the feed (src/book, src/replay,
    src/trader/market_data), keeps its own view of its orders
    (src/trader/oms), positions and profit (src/trader/positions) behind a
    risk gate of its own (src/trader/risk), and runs strategies on the books
    (src/trader/strategies); an HTTP gateway (src/ui_gateway) shows a browser
    the books and lets it trade through demo sessions.

    ** Conventions

    Machine integers are [Z] with their wrap-around written out ([u8] to
    [u64], [s64]); signed overflow, undefined in C++, is two's complement, as
    the machine has it.  The outer [option] of an operation is [None] where
    the C++ throws or is undefined; every theorem about a reached state also
    says that no such operation occurs, unless throwing is the point.  Bytes
    are [Z] in [0, 256); a file or a socket is the bytes in it.  A std::map or
    unordered_map is a [gmap]; std::list iterators are names.  Where
    order_management_system.cpp reads through an iterator that inserting may
    have invalidated, the operation of Oms.v is the one where it did not, and
    a run of the browser's gateway, where the map's answer is an argument,
    ends at one where it did.  Loops that are not structural carry fuel, and a theorem says that the fuel given
    suffices.  Atomics are sequentially consistent, one access per step; a
    section under a mutex is one step, or a state in which others wait.

    ** Files

    Prelude.v          integers, the option bind, list lemmas, hints
    Types.v            include/exchange/core: commands, events, enums;
                       include/exchange/matching/resting_order.hpp
    Bits.v, TickLadder.v, SideIndex.v, PriceQueues.v
                       matching_book.cpp, one side: the three-level bitmap of
                       occupied ticks, the ladder, the overflow map
    MatchingBook.v     matching_book.cpp: the slab, its free list, the
                       intrusive queues, every operation
    BookRep.v, BookOps.v, BookReads.v, BookSpec.v
                       the representation invariant, what each operation
                       does to it, the walks' termination; [BookLaws], the
                       class by which the engine knows its book
    MatchingEngine.v   matching_engine.cpp: the order directory, matching,
                       commands, snapshot
    EngineSpec.v       the abstract machine: price-time priority lists
    Directory.v, EngineWf.v, EngineRefine.v, EngineMatch.v, EngineProcess.v,
    EngineRefinement.v, EngineFacts.v, EngineTheorems.v
                       the engine refines the machine; facts about both
    MapSums.v, Ledger.v, LedgerSpec.v, LedgerSim.v, LedgerSolvent.v,
    LedgerMatch.v
                       ledger.cpp and an exact ledger over unbounded
                       integers; conservation, solvency, holds = orders
    Risk.v, Venue.v    risk_engine.cpp, risk_gated_engine.cpp; the composed
                       venue and its invariant
    ByteIO.v, CommandCodec.v, MarketDataCodec.v, OrderEntryCodec.v
                       byte_io.hpp and the three wire formats
    Journal.v          the command journal, its replay, the state hash's bytes
    TraderBook.v, TraderBookSpec.v, TraderBooks.v
                       src/book: the trader's book and book manager; the feed
                       snapshot file
    SequenceValidator.v, FeedPublisher.v, FeedReplay.v, Packet.v
                       sequence checks, publisher, replay, datagrams and the
                       subscriber that receives them
    FeedCommands.v, FeedHistory.v, FeedBooks.v, FeedRecovery.v,
    FeedMirror.v
                       the feed of a command, of a history; recovery; mirrors
    MpscQueue.v, Pipeline.v
                       the command queue, the sequencer and the matching
                       pipeline as threads
    SpscQueue.v, MarketDataRouter.v
                       spsc_queue.hpp; dropping_queue.hpp and the router's
                       publishing and routing threads
    UdpListener.v      udp_listener.cpp: its producer and consumer threads
    LatencyTracer.v    latency_tracer.hpp: its operations as programs of single
                       accesses to atomics, alone and interleaved
    GatewayReports.v, Gateway.v, GatewayThreads.v, GatewayFacts.v,
    GatewayRuns.v
                       order_entry_gateway.cpp: translation, sessions, the
                       I/O thread and route_event as steps
    Oms.v, OmsMirror.v, OmsDesk.v
                       order_management_system.cpp and a desk at its exchange
    OrderEntryClient.v order_entry_client.cpp: writing whole messages, framing
                       what is read
    CommandLine.v      std::stoull and its kin on decimal text; the argument
                       loops of the programs in apps/
    UiGateway.v        ui_gateway.cpp: sessions, books, event streams, handlers
    Positions.v, TraderRisk.v, FillReports.v, TraderDesk.v
                       src/trader/positions and src/trader/risk; the fills a
                       trader is told of against the exchange's ledger
    Strategies.v, StrategyFacts.v
                       src/trader/strategies and what its orders obey
    Applications.v     apps/feed_generator and apps/udp_sender whole; the
                       market simulator's configurations and counters
    *Claims.v          the properties below, each with a witness where it has
                       hypotheses

    ** Properties

    The exchange.  Every admissible run is a run of the abstract machine,
      event for event (C1); books are never crossed (C2); directory and books
      agree (C3); what a new order does, fill-or-kill included (C18), cancel
      and replace (C19, C20); a replace onto any live id orphans that order
      (C39, a defect).
    The money.  The risk-gated venue never overdraws an account, as long as
      no order's value leaves 64 bits (C4), the
      holds are exactly the resting orders and the reservations their sums
      (C5), every admissible action completes (C6), each answer of the
      new-order check is exact (C21).
    The trader.  Once reports are handled, a desk's live orders are its
      account's orders in the book (C7), and its cash and positions are the
      ledger's (C8); its risk gate agrees with the exchange's where their size
      caps do (C22); its
      profit is exactly its trading cash flow and marked positions (C23).
    The threads.  Under every interleaving the pipeline is one thread
      processing the admitted commands in order (C9), a stop drains it within
      a bound (C35), with the states in which its races lose (C40, defects);
      until both of the gateway's threads push to its dirty queue at once (a
      defect), a session reads only its account's reports, in order, and its
      commands name its account (C10); a client hears exactly the messages sent to it, however the
      stream is cut (C11); the router hands on every published message it has
      not counted as dropped, in order, unless it is stopped just past an empty
      pop (C15); the two-threaded listener is a
      file replay of the frames its queue kept (C16); the tracer's samples
      (C33).
    The feed.  Cut into datagrams in any way it rebuilds the exchange's books
      (C12), recovery repairs a gap (C13), the trader's books refine priority
      lists (C24), snapshot files round-trip (C25), gaps are reported exactly
      (C26); what the feed tools generate and send, from their command lines
      on, is what a replay and a subscriber rebuild (C17).
    Bytes.  Replaying a journal reproduces the session (C14), a torn tail
      loses one record (C34); the three codecs accept exactly their encodings
      (C27), and nothing an admissible history says is narrowed on the wire
      (C28).
    The strategies.  A momentum order is within its configuration (C36); a
      ladder never sends through itself, nor through what it has resting while
      its threshold is small enough and its sends succeed (C37); a refused replace leaves a
      quote stuck (C38, a defect).
    The browser.  Its books follow the feed, less the message that shows a
      gap (C29); its sessions are private to their accounts (C30); what
      becomes of a submitted order (C31); event streams give latest values
      once, and may starve a topic (C32).

    Further theorems that are not in this list stand in the same files:
    price-time priority, conservation and fill-or-kill one by one, gapless
    event numbers, canonical snapshots, event files and packets, registration,
    conservation by each event, the codecs one by one, the termination of the
    replay loop, what the hashed bytes determine, and for each program's
    arguments that printing and parsing them gives them back.

    ** Bounds

    Admissible commands ([command_ok]) name a non-negative instrument, keep
    prices a ladder's width below 2^63 and quantities below 2^64, leave room
    in the slab, keep the liquidity a fill-or-kill order looks at below 2^64,
    and replace onto an id that is free.  The venue's actions ([act_ok])
    further keep notionals below 2^63 and all deposits together below 2^63
    cash and 2^64 units; an order worth more may overdraw an account
    ([overflowing_value_overdraws]).  The profit tracker is exact while quantities times
    twice the open notional stay below 2^63; a ladder's prices stay within
    2^62 and strategies issue fewer than 2^64 - 1 order ids.  Queue capacities are at most 2^63, beyond which
    next_power_of_two does not end.  The feed generator is given a round
    with an add in every window of rounds, windows times orders at most 2^50,
    and the sender at most 29 frames to a datagram.  The fuel of a matching or walking loop
    is the size of the slab, that of a bit scan the word width, that of a
    decoder its input's length; the refinement and termination theorems show
    that it is enough.

    ** Not modelled

    Operating-system calls (src/net sockets and pollers, thread pinning,
    clocks) are answers from outside, and so are the JSON and HTTP libraries
    the browser's gateway calls and the random engine of the feed generator:
    their behaviour is not in src/.  Starting, joining and naming threads,
    condition variables' wake-ups and the pollers' self-pipe are left out, so
    nothing is claimed about how long a report waits.  Of the trading server,
    the simulator, the live demo and the replay tool only the arguments (and
    the simulator's configurations and counters) are modelled; what is left
    wires the components above together, polls over HTTP and prints.
    Benchmarks and test workloads have no behaviour of their own to state.
    The class comments' performance claims
    and weak-memory behaviour are out of scope.  A failing allocation or file
    write is not modelled. *)
From Stdlib Require Export ZArith Lia.
From stdpp Require Export base option list gmap sorting.

#[global] Open Scope Z_scope.

(** ** Machine integers

    Unsigned integers are [Z] in [0, 2^w); the wrap-around of the C++ types
    is written with [u32], [u64] and, for the signed 64-bit type, [s64]. *)
Abbreviation two32 := 4294967296 (only parsing).
Abbreviation two63 := 9223372036854775808 (only parsing).
Abbreviation two64 := 18446744073709551616 (only parsing).

Definition u8 (z : Z) : Z := z mod 256.
Definition u16 (z : Z) : Z := z mod 65536.
Definition u32 (z : Z) : Z := z mod two32.
Definition u64 (z : Z) : Z := z mod two64.
(** [static_cast<std::int64_t>] of a 64-bit pattern (two's complement). *)
Definition s64 (z : Z) : Z := (z + two63) mod two64 - two63.

Lemma u8_small z : 0 <= z < 256 -> u8 z = z.
Proof. intros; unfold u8; apply Z.mod_small; lia. Qed.
Lemma u16_small z : 0 <= z < 65536 -> u16 z = z.
Proof. intros; unfold u16; apply Z.mod_small; lia. Qed.
Lemma u32_small z : 0 <= z < two32 -> u32 z = z.
Proof. intros; unfold u32; apply Z.mod_small; lia. Qed.
Lemma u64_small z : 0 <= z < two64 -> u64 z = z.
Proof. intros; unfold u64; apply Z.mod_small; lia. Qed.
Lemma s64_small z : - two63 <= z < two63 -> s64 z = z.
Proof. intros; unfold s64; rewrite Z.mod_small; lia. Qed.
Lemma u32_range z : 0 <= u32 z < two32.
Proof. unfold u32; apply Z.mod_pos_bound; lia. Qed.
Lemma u64_range z : 0 <= u64 z < two64.
Proof. unfold u64; apply Z.mod_pos_bound; lia. Qed.
Lemma s64_range z : - two63 <= s64 z < two63.
Proof. unfold s64; pose proof (Z.mod_pos_bound (z + two63) two64); lia. Qed.
Lemma s64_u64 z : s64 (u64 z) = s64 z.
Proof. unfold s64, u64. rewrite Z.add_mod_idemp_l by lia. reflexivity. Qed.
Lemma u64_s64 z : u64 (s64 z) = u64 z.
Proof.
  unfold s64, u64. rewrite Zminus_mod_idemp_l. f_equal. lia.
Qed.
Lemma u64_add_idemp_l a b : u64 (u64 a + b) = u64 (a + b).
Proof. unfold u64. apply Z.add_mod_idemp_l. lia. Qed.
Lemma u64_add_idemp_r a b : u64 (a + u64 b) = u64 (a + b).
Proof. unfold u64. apply Z.add_mod_idemp_r. lia. Qed.

Create HintDb mdh.
Create Rewrite HintDb mdh.
#[export] Hint Rewrite u64_add_idemp_l u64_add_idemp_r s64_u64 u64_s64 : mdh.
#[export] Hint Resolve u32_range u64_range s64_range : mdh.

(** ** Options

    The outer [option] of a model function is [None] where the C++ would be
    undefined (a null dereference, an index past the end, a step past the
    end of a map) or where it would throw. *)
Declare Scope mdh_scope.
Notation "'let*' p ':=' e 'in' k" := (match e with Some p => k | None => None end)
  (at level 200, p pattern, e at level 200, k at level 200, right associativity) : mdh_scope.
#[global] Open Scope mdh_scope.

(** Take apart a chain of successful binds in a hypothesis. *)
Ltac simplify_bind :=
  repeat match goal with
  | H : (match ?e with Some _ => _ | None => None end) = Some _ |- _ =>
      let v := fresh "v" in let E := fresh "E" in
      destruct e as [v|] eqn:E; [|discriminate H]
  | H : (let (_, _) := ?e in _) = Some _ |- _ => destruct e
  | H : Some _ = Some _ |- _ => injection H as H
  end.

(** ** Lists *)
Lemma filter_all {A} (P : A -> Prop) `{!forall x, Decision (P x)} (l : list A) :
  (forall x, x ∈ l -> P x) -> filter P l = l.
Proof.
  induction l as [|x l IH]; intros Hl; [done|]. rewrite filter_cons_True by (apply Hl; by left).
  rewrite IH; [done|]. intros y Hy. apply Hl. by right.
Qed.
Lemma Forall_filter_keep {A} (P Q : A -> Prop) `{!forall x, Decision (P x)} (l : list A) :
  Forall Q l -> Forall Q (filter P l).
Proof. rewrite !Forall_forall. intros Hl x [_ Hx]%list_elem_of_filter. auto. Qed.
Lemma filter_none {A} (P : A -> Prop) `{!forall x, Decision (P x)} (l : list A) :
  (forall x, x ∈ l -> ~ P x) -> filter P l = [].
Proof.
  induction l as [|x l IH]; intros Hl; [done|]. rewrite filter_cons_False by (apply Hl; by left).
  apply IH. intros y Hy. apply Hl. by right.
Qed.
Lemma StronglySorted_filter {A} (R : A -> A -> Prop) (P : A -> Prop) `{!forall x, Decision (P x)} (l : list A) :
  StronglySorted R l -> StronglySorted R (filter P l).
Proof.
  induction 1 as [|x l Hs IH Hx]; [constructor|]. rewrite filter_cons. case_decide; [|done].
  constructor; [done|]. by apply Forall_filter_keep.
Qed.
