(* ===== verification/Types.v ===== *)
(** * Domain vocabulary: include/common/types.hpp, include/exchange/core/ and
    include/exchange/matching/{resting_order,state_snapshot}.hpp

    The enums, command structs, event structs and resting-order structs of
    the exchange, with the source's constructors and fields (a field is
    prefixed by its struct's initials because Rocq record fields share one
    name space). *)
From S2P Require Import Prelude.

(** ** Primitive types

    Sequence, Timestamp, OrderId, AccountId, ClientOrderId, ExchangeOrderId,
    CommandSequence, EventSequence and Quantity are [std::uint64_t];
    InstrumentId is [std::uint32_t]; Price is [std::int64_t].  They are [Z];
    where a definition can leave the width, the wrap-around is written out. *)
Abbreviation Sequence := Z (only parsing).
Abbreviation Timestamp := Z (only parsing).
Abbreviation OrderId := Z (only parsing).
Abbreviation InstrumentId := Z (only parsing).
Abbreviation Price := Z (only parsing).
Abbreviation Quantity := Z (only parsing).
Abbreviation AccountId := Z (only parsing).
Abbreviation ClientOrderId := Z (only parsing).
Abbreviation ExchangeOrderId := Z (only parsing).
Abbreviation CommandSequence := Z (only parsing).
Abbreviation EventSequence := Z (only parsing).

Inductive Side := Buy | Sell.
#[export] Instance Side_eq_dec : EqDecision Side.
Proof. solve_decision. Defined.

Inductive OrderType := Limit.
#[export] Instance OrderType_eq_dec : EqDecision OrderType.
Proof. solve_decision. Defined.

Inductive TimeInForce := GTC | IOC | FOK.
#[export] Instance TimeInForce_eq_dec : EqDecision TimeInForce.
Proof. solve_decision. Defined.

Module RejectReason.
Inductive t :=
| None
| InvalidPrice
| InvalidQuantity
| DuplicateOrderId
| UnknownOrderId
| InvalidInstrument
| InsufficientLiquidity
| InvalidReplacement
| InternalError
| InsufficientFunds
| InsufficientPosition
| OrderTooLarge
| AccountMismatch.
End RejectReason.
#[export] Instance RejectReason_eq_dec : EqDecision RejectReason.t.
Proof. solve_decision. Defined.

(** ** Commands: include/exchange/core/commands.hpp *)
Record NewOrderCommand := {
  noc_command_sequence : CommandSequence;
  noc_account_id : AccountId;
  noc_client_order_id : ClientOrderId;
  noc_instrument_id : InstrumentId;
  noc_side : Side;
  noc_price : Price;
  noc_quantity : Quantity;
  noc_order_type : OrderType;
  noc_time_in_force : TimeInForce;
}.

Record CancelOrderCommand := {
  coc_command_sequence : CommandSequence;
  coc_account_id : AccountId;
  coc_client_order_id : ClientOrderId;
  coc_instrument_id : InstrumentId;
}.

Record ReplaceOrderCommand := {
  roc_command_sequence : CommandSequence;
  roc_account_id : AccountId;
  roc_original_client_order_id : ClientOrderId;
  roc_new_client_order_id : ClientOrderId;
  roc_instrument_id : InstrumentId;
  roc_new_price : Price;
  roc_new_quantity : Quantity;
}.

Inductive ExchangeCommand :=
| CmdNewOrder (c : NewOrderCommand)
| CmdCancelOrder (c : CancelOrderCommand)
| CmdReplaceOrder (c : ReplaceOrderCommand).

(** ** Events: include/exchange/core/events.hpp *)
Record OrderAccepted := {
  oa_event_sequence : EventSequence;
  oa_command_sequence : CommandSequence;
  oa_account_id : AccountId;
  oa_client_order_id : ClientOrderId;
  oa_exchange_order_id : ExchangeOrderId;
  oa_instrument_id : InstrumentId;
  oa_side : Side;
  oa_price : Price;
  oa_quantity : Quantity;
  oa_order_type : OrderType;
  oa_time_in_force : TimeInForce;
}.

Record OrderRejected := {
  orj_event_sequence : EventSequence;
  orj_command_sequence : CommandSequence;
  orj_account_id : AccountId;
  orj_client_order_id : ClientOrderId;
  orj_instrument_id : InstrumentId;
  orj_reason : RejectReason.t;
}.

Record OrderCancelled := {
  ocn_event_sequence : EventSequence;
  ocn_command_sequence : CommandSequence;
  ocn_account_id : AccountId;
  ocn_client_order_id : ClientOrderId;
  ocn_exchange_order_id : ExchangeOrderId;
  ocn_instrument_id : InstrumentId;
}.

Record OrderReplaced := {
  orp_event_sequence : EventSequence;
  orp_command_sequence : CommandSequence;
  orp_account_id : AccountId;
  orp_original_client_order_id : ClientOrderId;
  orp_new_client_order_id : ClientOrderId;
  orp_exchange_order_id : ExchangeOrderId;
  orp_instrument_id : InstrumentId;
  orp_new_price : Price;
  orp_new_quantity : Quantity;
}.

Record TradeCounterparty := {
  tcp_account_id : AccountId;
  tcp_client_order_id : ClientOrderId;
  tcp_exchange_order_id : ExchangeOrderId;
  tcp_remaining_quantity : Quantity;
}.

Record TradeExecuted := {
  te_event_sequence : EventSequence;
  te_command_sequence : CommandSequence;
  te_instrument_id : InstrumentId;
  te_price : Price;
  te_quantity : Quantity;
  te_aggressor_side : Side;
  te_buyer : TradeCounterparty;
  te_seller : TradeCounterparty;
}.

Record BookOrderAdded := {
  boa_event_sequence : EventSequence;
  boa_instrument_id : InstrumentId;
  boa_exchange_order_id : ExchangeOrderId;
  boa_side : Side;
  boa_price : Price;
  boa_quantity : Quantity;
}.

Record BookOrderReduced := {
  bor_event_sequence : EventSequence;
  bor_instrument_id : InstrumentId;
  bor_exchange_order_id : ExchangeOrderId;
  bor_side : Side;
  bor_price : Price;
  bor_new_remaining_quantity : Quantity;
}.

Record BookOrderRemoved := {
  bom_event_sequence : EventSequence;
  bom_instrument_id : InstrumentId;
  bom_exchange_order_id : ExchangeOrderId;
  bom_side : Side;
  bom_price : Price;
}.

Inductive ExchangeEvent :=
| EvOrderAccepted (e : OrderAccepted)
| EvOrderRejected (e : OrderRejected)
| EvOrderCancelled (e : OrderCancelled)
| EvOrderReplaced (e : OrderReplaced)
| EvTradeExecuted (e : TradeExecuted)
| EvBookOrderAdded (e : BookOrderAdded)
| EvBookOrderReduced (e : BookOrderReduced)
| EvBookOrderRemoved (e : BookOrderRemoved).

(** ** Resting orders: include/exchange/matching/resting_order.hpp *)
Record ExchangeRestingOrder := {
  ero_exchange_order_id : ExchangeOrderId;
  ero_client_order_id : ClientOrderId;
  ero_account_id : AccountId;
  ero_price : Price;
  ero_original_quantity : Quantity;
  ero_remaining_quantity : Quantity;
  ero_order_sequence : Z;
  ero_instrument_id : InstrumentId;
  ero_side : Side;
  ero_time_in_force : TimeInForce;
}.

Record BookOrder := {
  bo_exchange_order_id : ExchangeOrderId;
  bo_client_order_id : ClientOrderId;
  bo_account_id : AccountId;
  bo_price : Price;
  bo_remaining_quantity : Quantity;
  bo_side : Side;
  bo_time_in_force : TimeInForce;
}.
#[export] Instance BookOrder_eq_dec : EqDecision BookOrder.
Proof. solve_decision. Defined.

(** In-place stores to one field of a resting order. *)
Definition bo_set_remaining (o : BookOrder) (q : Quantity) : BookOrder :=
  {| bo_exchange_order_id := bo_exchange_order_id o;
     bo_client_order_id := bo_client_order_id o;
     bo_account_id := bo_account_id o;
     bo_price := bo_price o;
     bo_remaining_quantity := q;
     bo_side := bo_side o;
     bo_time_in_force := bo_time_in_force o |}.

Definition bo_set_client_order_id (o : BookOrder) (c : ClientOrderId) : BookOrder :=
  {| bo_exchange_order_id := bo_exchange_order_id o;
     bo_client_order_id := c;
     bo_account_id := bo_account_id o;
     bo_price := bo_price o;
     bo_remaining_quantity := bo_remaining_quantity o;
     bo_side := bo_side o;
     bo_time_in_force := bo_time_in_force o |}.

(** ** Snapshots: include/exchange/matching/state_snapshot.hpp *)
Record InstrumentBookSnapshot := {
  ibs_instrument_id : InstrumentId;
  ibs_bids : list ExchangeRestingOrder;
  ibs_asks : list ExchangeRestingOrder;
}.

Record EngineStateSnapshot := { ess_instruments : list InstrumentBookSnapshot }.

(** ** Price priority

    [better_eq s p q]: at side [s], price [p] has at least the priority of
    [q] (higher first for bids, lower first for asks). *)
Definition contra_side (s : Side) : Side := match s with Buy => Sell | Sell => Buy end.
Definition better_eq (s : Side) (p q : Price) : bool :=
  match s with Buy => q <=? p | Sell => p <=? q end.
Definition better (s : Side) (p q : Price) : bool :=
  match s with Buy => q <? p | Sell => p <? q end.

Lemma better_eq_refl s p : better_eq s p p = true.
Proof. destruct s; cbn; lia. Qed.
Lemma better_eq_trans s p q r :
  better_eq s p q = true -> better_eq s q r = true -> better_eq s p r = true.
Proof. destruct s; cbn; lia. Qed.
Lemma better_eq_total s p q : better_eq s p q = false -> better s q p = true.
Proof. destruct s; cbn; lia. Qed.
Lemma better_better_eq s p q : better s p q = true <-> better_eq s p q = true /\ p <> q.
Proof. destruct s; cbn; lia. Qed.
Lemma contra_side_involutive s : contra_side (contra_side s) = s.
Proof. destruct s; reflexivity. Qed.
#[export] Hint Rewrite contra_side_involutive : mdh.
