(* ===== verification/Bits.v ===== *)
(** * 64-bit word scanning

    The anonymous-namespace helpers at the top of
    src/exchange/matching/matching_book.cpp ([highest_bit], [lowest_bit],
    [mask_below], [mask_above]) over the standard [std::countl_zero] and
    [std::countr_zero], with their specifications in terms of [Z.testbit],
    and the vector-of-words access the occupancy bitmap uses. *)
From S2P Require Import Prelude.

(** ** <bit>: std::countl_zero and std::countr_zero on std::uint64_t *)
Definition countl_zero (word : Z) : Z := if word =? 0 then 64 else 63 - Z.log2 word.

Fixpoint pos_trailing_zeros (p : positive) : Z :=
  match p with
  | xO q => 1 + pos_trailing_zeros q
  | _ => 0
  end.
Definition countr_zero (word : Z) : Z :=
  match word with Zpos p => pos_trailing_zeros p | _ => 64 end.

(** ** The helpers of matching_book.cpp *)
Definition highest_bit (word : Z) : Z := 63 - countl_zero word.
Definition lowest_bit (word : Z) : Z := countr_zero word.

Definition all_ones : Z := 18446744073709551615. (* ~0ULL *)
Definition mask_below (bit : Z) : Z :=
  if bit =? 0 then 0 else Z.shiftr all_ones (64 - bit).
Definition mask_above (bit : Z) : Z :=
  if 63 <=? bit then 0 else u64 (Z.shiftl all_ones (bit + 1)).

(** ** Specifications *)
Definition word64 (w : Z) : Prop := 0 <= w < two64.

Lemma word64_log2 w : word64 w -> w <> 0 -> 0 <= Z.log2 w < 64.
Proof.
  intros [H1 H2] Hne. split; [apply Z.log2_nonneg|].
  apply Z.log2_lt_pow2; [lia|]. change (2 ^ 64) with two64. lia.
Qed.

Lemma word64_testbit_high w i : word64 w -> 64 <= i -> Z.testbit w i = false.
Proof.
  intros [H1 H2] Hi. destruct (Z.eq_dec w 0) as [->|Hne]; [apply Z.bits_0|].
  apply Z.bits_above_log2; [lia|]. pose proof (word64_log2 w (conj H1 H2) Hne). lia.
Qed.

Lemma word_nonzero_bit w : word64 w -> w <> 0 -> exists i, 0 <= i < 64 /\ Z.testbit w i = true.
Proof.
  intros Hw Hne. exists (Z.log2 w). split; [by apply word64_log2|].
  apply Z.bit_log2. destruct Hw; lia.
Qed.

Lemma testbit_nonzero w i : Z.testbit w i = true -> w <> 0.
Proof. intros H ->. by rewrite Z.bits_0 in H. Qed.

(** [w ≠ 0] as a bit fact usable by [lia]. *)
Lemma word64_of_bits w :
  (forall i, 64 <= i -> Z.testbit w i = false) -> 0 <= w -> word64 w.
Proof.
  intros H Hw. split; [done|].
  destruct (Z.eq_dec w 0) as [->|Hne]; [lia|].
  destruct (Z.lt_ge_cases (Z.log2 w) 64) as [Hlt|Hge].
  - apply Z.log2_lt_pow2 in Hlt; [|lia]. exact Hlt.
  - apply H in Hge. rewrite Z.bit_log2 in Hge by lia. discriminate.
Qed.

Lemma highest_bit_spec w : word64 w -> w <> 0 ->
  0 <= highest_bit w < 64 /\ Z.testbit w (highest_bit w) = true /\
  forall i, Z.testbit w i = true -> i <= highest_bit w.
Proof.
  intros Hw Hne. unfold highest_bit, countl_zero.
  destruct (Z.eqb_spec w 0) as [|_]; [done|].
  replace (63 - (63 - Z.log2 w)) with (Z.log2 w) by lia.
  pose proof (word64_log2 w Hw Hne). split; [done|]. split.
  - apply Z.bit_log2. destruct Hw; lia.
  - intros i Hi. destruct (Z.le_gt_cases i (Z.log2 w)) as [|Hgt]; [done|].
    rewrite Z.bits_above_log2 in Hi; [done|destruct Hw; lia|lia].
Qed.

Lemma pos_trailing_zeros_spec p :
  0 <= pos_trailing_zeros p /\ Z.testbit (Zpos p) (pos_trailing_zeros p) = true /\
  forall i, Z.testbit (Zpos p) i = true -> pos_trailing_zeros p <= i.
Proof.
  induction p as [p IH|p IH|].
  - cbn. split; [lia|]. split; [done|]. intros [|i|i] Hi; [lia|lia|done].
  - destruct IH as (H0 & H1 & H2).
    cbn [pos_trailing_zeros]. rewrite (Pos2Z.inj_xO p). split; [lia|].
    replace (1 + pos_trailing_zeros p) with (Z.succ (pos_trailing_zeros p)) by lia.
    split; [by rewrite Z.double_bits_succ|].
    intros i Hi. destruct (Z.eq_dec i 0) as [->|Hne]; [by rewrite Z.testbit_even_0 in Hi|].
    replace i with (Z.succ (Z.pred i)) in Hi by lia.
    rewrite Z.double_bits_succ in Hi. apply H2 in Hi. lia.
  - cbn. split; [lia|]. split; [done|]. intros [|i|i] Hi; [lia|lia|done].
Qed.

Lemma lowest_bit_spec w : word64 w -> w <> 0 ->
  0 <= lowest_bit w < 64 /\ Z.testbit w (lowest_bit w) = true /\
  forall i, Z.testbit w i = true -> lowest_bit w <= i.
Proof.
  intros Hw Hne. destruct w as [|p|p]; [done| |destruct Hw; lia].
  unfold lowest_bit, countr_zero.
  destruct (pos_trailing_zeros_spec p) as (H0 & H1 & H2). repeat split; try done.
  destruct (Z.lt_ge_cases (pos_trailing_zeros p) 64) as [|Hge]; [done|].
  rewrite (word64_testbit_high _ _ Hw Hge) in H1. discriminate.
Qed.

Lemma all_ones_testbit i : Z.testbit all_ones i = (0 <=? i) && (i <? 64).
Proof.
  change all_ones with (Z.ones 64). apply eq_true_iff_eq.
  rewrite andb_true_iff, Z.leb_le, Z.ltb_lt. apply Z.ones_spec_iff. lia.
Qed.

Lemma mask_below_testbit b i : 0 <= b < 64 ->
  Z.testbit (mask_below b) i = (0 <=? i) && (i <? b).
Proof.
  intros Hb. unfold mask_below. destruct (Z.eqb_spec b 0) as [->|Hne].
  - rewrite Z.bits_0. lia.
  - destruct (Z.lt_ge_cases i 0) as [Hneg|Hpos].
    + rewrite Z.testbit_neg_r by done. lia.
    + rewrite Z.shiftr_spec, all_ones_testbit by done. lia.
Qed.

Lemma mask_above_testbit b i : 0 <= b < 64 ->
  Z.testbit (mask_above b) i = (b <? i) && (i <? 64).
Proof.
  intros Hb. unfold mask_above. destruct (Z.leb_spec 63 b) as [Hge|Hlt].
  - rewrite Z.bits_0. lia.
  - unfold u64. change two64 with (2 ^ 64).
    destruct (Z.lt_ge_cases i 0) as [Hneg|Hpos]; [rewrite Z.testbit_neg_r by done; lia|].
    destruct (Z.lt_ge_cases i 64) as [Hi|Hi].
    + rewrite Z.mod_pow2_bits_low, Z.shiftl_spec, all_ones_testbit by lia. lia.
    + rewrite Z.mod_pow2_bits_high by lia. lia.
Qed.

Lemma land_word64 w m : word64 w -> word64 (Z.land w m).
Proof.
  intros Hw. apply word64_of_bits.
  - intros i Hi. by rewrite Z.land_spec, (word64_testbit_high w i).
  - apply Z.land_nonneg. destruct Hw; lia.
Qed.

Lemma ldiff_word64 w m : word64 w -> word64 (Z.ldiff w m).
Proof.
  intros Hw. apply word64_of_bits.
  - intros i Hi. by rewrite Z.ldiff_spec, (word64_testbit_high w i).
  - apply Z.ldiff_nonneg. destruct Hw; lia.
Qed.

Lemma bit_testbit b i : 0 <= b -> Z.testbit (Z.shiftl 1 b) i = (i =? b).
Proof.
  intros Hb. rewrite Z.shiftl_1_l, Z.pow2_bits_eqb by done. apply Z.eqb_sym.
Qed.

Lemma lor_bit_word64 w b : word64 w -> 0 <= b < 64 -> word64 (Z.lor w (Z.shiftl 1 b)).
Proof.
  intros Hw Hb. apply word64_of_bits.
  - intros i Hi. rewrite Z.lor_spec, (word64_testbit_high w i), bit_testbit by (done || lia).
    apply Z.eqb_neq. lia.
  - apply Z.lor_nonneg. split; [destruct Hw; lia|]. apply Z.shiftl_nonneg. lia.
Qed.

Lemma lor_bit_nonzero w b : 0 <= b -> Z.lor w (Z.shiftl 1 b) <> 0.
Proof.
  intros Hb. apply (testbit_nonzero _ b).
  rewrite Z.lor_spec, bit_testbit, Z.eqb_refl by done. apply orb_true_r.
Qed.

(** ** Index arithmetic: [tick >> 6], [tick & 63], [(word << 6) | bit] *)
Lemma shiftr_6 t : Z.shiftr t 6 = t / 64.
Proof. rewrite Z.shiftr_div_pow2 by lia. reflexivity. Qed.
Lemma land_63 t : Z.land t 63 = t mod 64.
Proof. change 63 with (Z.ones 6). rewrite Z.land_ones by lia. reflexivity. Qed.
Lemma lor_shiftl_6 w b : 0 <= b < 64 -> Z.lor (Z.shiftl w 6) b = w * 64 + b.
Proof.
  intros Hb.
  assert (Hz : Z.land (Z.shiftl w 6) b = 0).
  { apply Z.bits_inj'. intros i Hi. rewrite Z.land_spec, Z.bits_0.
    destruct (Z.lt_ge_cases i 6) as [Hl|Hl]; [by rewrite Z.shiftl_spec_low|].
    rewrite <- (Z.mod_small b (2 ^ 6)) by (change (2 ^ 6) with 64; lia).
    rewrite Z.mod_pow2_bits_high by lia. apply andb_false_r. }
  rewrite <- Z.lxor_lor, <- Z.add_nocarry_lxor by done.
  rewrite Z.shiftl_mul_pow2 by lia. reflexivity.
Qed.

(** ** A vector of words, read with [operator[]] and updated in place *)
Definition word_at (l : list Z) (i : Z) : Z := default 0 (l !! Z.to_nat i).
Definition set_word (l : list Z) (i w : Z) : list Z := <[Z.to_nat i := w]> l.

Lemma word_at_set l i j w : 0 <= i < Z.of_nat (length l) -> 0 <= j ->
  word_at (set_word l i w) j = if j =? i then w else word_at l j.
Proof.
  intros Hi Hj. unfold word_at, set_word. destruct (Z.eqb_spec j i) as [->|Hne].
  - rewrite list_lookup_insert_eq by lia. reflexivity.
  - rewrite list_lookup_insert_ne by lia. reflexivity.
Qed.

Lemma word_at_word64 l i : Forall word64 l -> word64 (word_at l i).
Proof.
  intros Hl. unfold word_at. destruct (l !! Z.to_nat i) as [w|] eqn:E; cbn.
  - rewrite Forall_lookup in Hl. eauto.
  - unfold word64. lia.
Qed.

Lemma word_at_nonzero_lt l i : 0 <= i -> word_at l i <> 0 -> i < Z.of_nat (length l).
Proof.
  unfold word_at. intros Hi Hne. destruct (l !! Z.to_nat i) eqn:E; [|done].
  apply lookup_lt_Some in E. lia.
Qed.

Lemma word_at_replicate n i : word_at (replicate n 0) i = 0.
Proof.
  unfold word_at. destruct (replicate n 0 !! Z.to_nat i) eqn:E; [|done].
  apply lookup_replicate in E. cbn. tauto.
Qed.

Lemma set_word_Forall l i w : Forall word64 l -> word64 w -> Forall word64 (set_word l i w).
Proof. intros. by apply Forall_insert. Qed.
Lemma length_set_word l i w : length (set_word l i w) = length l.
Proof. apply length_insert. Qed.
#[export] Hint Rewrite length_set_word shiftr_6 land_63 : mdh.
#[export] Hint Resolve word_at_word64 set_word_Forall land_word64 ldiff_word64 lor_bit_word64 : mdh.
