(* ===== verification/TickLadder.v ===== *)
(** * MatchingBook::SideIndex -- the tick ladder and its occupancy bitmap

    include/exchange/matching/matching_book.hpp (class SideIndex) and
    src/exchange/matching/matching_book.cpp, lines 50-287: one side's price
    index.  Prices in a band around an anchor are array cells with a
    three-level occupancy bitmap; prices outside it live in an ordered map.

    This file models the data and every bitmap operation, and proves the
    bitmap correct: the four scans return the extremal occupied tick. *)
From S2P Require Import Prelude Types Bits.

#[local] Ltac Zify.zify_post_hook ::= Z.to_euclidean_division_equations.

(** ** Data *)
Definition kNil : Z := 4294967295. (* ~0U *)
Definition kMaxBandTicks : Z := 8192.
Definition kMinBandTicks : Z := 1024.

Record LevelSlot := { ls_head : Z; ls_tail : Z }.
Definition LevelSlot_default : LevelSlot := {| ls_head := kNil; ls_tail := kNil |}.

(** [si_ladder] is the [unique_ptr<LevelSlot[]>]: [None] is the null pointer,
    [Some m] an array of [si_band_ticks] cells of which [m] holds those ever
    written; the others still hold their default member initialisers. *)
Record SideIndex := {
  si_side : Side;
  si_band_ticks : Z;
  si_base : Price;
  si_anchored : bool;
  si_ladder : option (gmap Z LevelSlot);
  si_occupancy : list Z;
  si_mid_summary : list Z;
  si_summary : Z;
  si_overflow : gmap Z LevelSlot;
}.

Definition SideIndex_new (side : Side) (band_ticks : Z) : SideIndex :=
  {| si_side := side; si_band_ticks := band_ticks; si_base := 0; si_anchored := false;
     si_ladder := None; si_occupancy := []; si_mid_summary := []; si_summary := 0;
     si_overflow := ∅ |}.

Definition si_empty (si : SideIndex) : bool :=
  (si_summary si =? 0) && bool_decide (si_overflow si = ∅).

Definition words_for (ticks : Z) : Z := u32 (ticks + 63) / 64.

(** [static_cast<std::uint64_t>(price - base_) < band_ticks_] *)
Definition in_band (si : SideIndex) (price : Price) : bool :=
  si_anchored si && (u64 (price - si_base si) <? si_band_ticks si).
Definition tick_of (si : SideIndex) (price : Price) : Z := u32 (price - si_base si).
Definition price_of (si : SideIndex) (tick : Z) : Price := s64 (si_base si + tick).

(** Stores to the bitmap, the ladder and the overflow map. *)
Definition si_with_bitmap (si : SideIndex) (occ mid : list Z) (sum : Z) : SideIndex :=
  {| si_side := si_side si; si_band_ticks := si_band_ticks si; si_base := si_base si;
     si_anchored := si_anchored si; si_ladder := si_ladder si;
     si_occupancy := occ; si_mid_summary := mid; si_summary := sum;
     si_overflow := si_overflow si |}.
Definition si_with_ladder (si : SideIndex) (l : option (gmap Z LevelSlot)) : SideIndex :=
  {| si_side := si_side si; si_band_ticks := si_band_ticks si; si_base := si_base si;
     si_anchored := si_anchored si; si_ladder := l;
     si_occupancy := si_occupancy si; si_mid_summary := si_mid_summary si;
     si_summary := si_summary si; si_overflow := si_overflow si |}.
Definition si_with_overflow (si : SideIndex) (m : gmap Z LevelSlot) : SideIndex :=
  {| si_side := si_side si; si_band_ticks := si_band_ticks si; si_base := si_base si;
     si_anchored := si_anchored si; si_ladder := si_ladder si;
     si_occupancy := si_occupancy si; si_mid_summary := si_mid_summary si;
     si_summary := si_summary si; si_overflow := m |}.

(** ** Operations on the bitmap *)
Definition anchor (si : SideIndex) (price : Price) : SideIndex :=
  let fresh := match si_ladder si with None => true | Some _ => false end in
  let occ := if fresh then replicate (Z.to_nat (words_for (si_band_ticks si))) 0
             else si_occupancy si in
  {| si_side := si_side si; si_band_ticks := si_band_ticks si;
     si_base := s64 (price - si_band_ticks si / 2);
     si_anchored := true;
     si_ladder := if fresh then Some ∅ else si_ladder si;
     si_occupancy := occ;
     si_mid_summary :=
       if fresh then replicate (Z.to_nat (words_for (Z.of_nat (length occ)))) 0
       else si_mid_summary si;
     si_summary := si_summary si;
     si_overflow := si_overflow si |}.

Definition set_occupied (si : SideIndex) (tick : Z) : SideIndex :=
  let word := Z.shiftr tick 6 in
  let occ := si_occupancy si in
  let mid := si_mid_summary si in
  si_with_bitmap si
    (set_word occ word (Z.lor (word_at occ word) (Z.shiftl 1 (Z.land tick 63))))
    (set_word mid (Z.shiftr word 6)
       (Z.lor (word_at mid (Z.shiftr word 6)) (Z.shiftl 1 (Z.land word 63))))
    (Z.lor (si_summary si) (Z.shiftl 1 (Z.shiftr word 6))).

Definition clear_occupied (si : SideIndex) (tick : Z) : SideIndex :=
  let word := Z.shiftr tick 6 in
  let occ := set_word (si_occupancy si) word
               (Z.ldiff (word_at (si_occupancy si) word) (Z.shiftl 1 (Z.land tick 63))) in
  if negb (word_at occ word =? 0)
  then si_with_bitmap si occ (si_mid_summary si) (si_summary si)
  else
    let m := Z.shiftr word 6 in
    let mid := set_word (si_mid_summary si) m
                 (Z.ldiff (word_at (si_mid_summary si) m) (Z.shiftl 1 (Z.land word 63))) in
    if word_at mid m =? 0
    then si_with_bitmap si occ mid (Z.ldiff (si_summary si) (Z.shiftl 1 m))
    else si_with_bitmap si occ mid (si_summary si).

Definition is_occupied (si : SideIndex) (tick : Z) : bool :=
  negb (Z.land (word_at (si_occupancy si) (Z.shiftr tick 6))
               (Z.shiftl 1 (Z.land tick 63)) =? 0).

Definition highest_occupied (si : SideIndex) : Z :=
  if si_summary si =? 0 then si_band_ticks si
  else
    let mid := highest_bit (si_summary si) in
    let word := Z.lor (Z.shiftl mid 6) (highest_bit (word_at (si_mid_summary si) mid)) in
    Z.lor (Z.shiftl word 6) (highest_bit (word_at (si_occupancy si) word)).

Definition lowest_occupied (si : SideIndex) : Z :=
  if si_summary si =? 0 then si_band_ticks si
  else
    let mid := lowest_bit (si_summary si) in
    let word := Z.lor (Z.shiftl mid 6) (lowest_bit (word_at (si_mid_summary si) mid)) in
    Z.lor (Z.shiftl word 6) (lowest_bit (word_at (si_occupancy si) word)).

Definition highest_occupied_below (si : SideIndex) (tick : Z) : Z :=
  if (si_summary si =? 0) || (tick =? 0) then si_band_ticks si
  else
    let word := Z.shiftr tick 6 in
    let rest := Z.land (word_at (si_occupancy si) word) (mask_below (Z.land tick 63)) in
    if negb (rest =? 0) then Z.lor (Z.shiftl word 6) (highest_bit rest)
    else
      let mid := Z.shiftr word 6 in
      let rest := Z.land (word_at (si_mid_summary si) mid) (mask_below (Z.land word 63)) in
      if negb (rest =? 0)
      then let word := Z.lor (Z.shiftl mid 6) (highest_bit rest) in
           Z.lor (Z.shiftl word 6) (highest_bit (word_at (si_occupancy si) word))
      else
        let rest := Z.land (si_summary si) (mask_below mid) in
        if rest =? 0 then si_band_ticks si
        else
          let mid := highest_bit rest in
          let word := Z.lor (Z.shiftl mid 6) (highest_bit (word_at (si_mid_summary si) mid)) in
          Z.lor (Z.shiftl word 6) (highest_bit (word_at (si_occupancy si) word)).

Definition lowest_occupied_above (si : SideIndex) (tick : Z) : Z :=
  if (si_summary si =? 0) || (si_band_ticks si <=? u32 (tick + 1)) then si_band_ticks si
  else
    let word := Z.shiftr tick 6 in
    let rest := Z.land (word_at (si_occupancy si) word) (mask_above (Z.land tick 63)) in
    if negb (rest =? 0) then Z.lor (Z.shiftl word 6) (lowest_bit rest)
    else
      let mid := Z.shiftr word 6 in
      let rest := Z.land (word_at (si_mid_summary si) mid) (mask_above (Z.land word 63)) in
      if negb (rest =? 0)
      then let word := Z.lor (Z.shiftl mid 6) (lowest_bit rest) in
           Z.lor (Z.shiftl word 6) (lowest_bit (word_at (si_occupancy si) word))
      else
        let rest := Z.land (si_summary si) (mask_above mid) in
        if rest =? 0 then si_band_ticks si
        else
          let mid := lowest_bit rest in
          let word := Z.lor (Z.shiftl mid 6) (lowest_bit (word_at (si_mid_summary si) mid)) in
          Z.lor (Z.shiftl word 6) (lowest_bit (word_at (si_occupancy si) word)).

(** ** The bitmap invariant

    [occupied si t]: bit [t] of the bottom level is set.  The two summary
    levels mirror "the word below is non-zero"; every word is 64 bits and
    occupied ticks lie inside the band. *)
Definition occupied (si : SideIndex) (t : Z) : Prop :=
  0 <= t /\ Z.testbit (word_at (si_occupancy si) (t / 64)) (t mod 64) = true.

Definition mirrors (lo hi : list Z) : Prop :=
  forall w, 0 <= w -> Z.testbit (word_at hi (w / 64)) (w mod 64) = negb (word_at lo w =? 0).

(** A band the two summary levels can cover: at most 64*64*64 ticks. *)
Definition band_ok (b : Z) : Prop := 0 <= b <= 262144.

Record bitmap_wf (si : SideIndex) : Prop := {
  bw_band : band_ok (si_band_ticks si);
  bw_occ_len : Z.of_nat (length (si_occupancy si)) * 64 >= si_band_ticks si;
  bw_mid_len : Z.of_nat (length (si_mid_summary si)) * 64 >= Z.of_nat (length (si_occupancy si));
  bw_mid_top : Z.of_nat (length (si_mid_summary si)) <= 64;
  bw_occ_words : Forall word64 (si_occupancy si);
  bw_mid_words : Forall word64 (si_mid_summary si);
  bw_sum_word : word64 (si_summary si);
  bw_mid : mirrors (si_occupancy si) (si_mid_summary si);
  bw_sum : forall m, 0 <= m ->
    Z.testbit (si_summary si) m = negb (word_at (si_mid_summary si) m =? 0);
  bw_in_band : forall t, occupied si t -> t < si_band_ticks si;
}.
#[export] Hint Resolve bw_occ_words bw_mid_words bw_sum_word bw_band : mdh.

Lemma nonzero_negb (w : Z) : w <> 0 <-> negb (w =? 0) = true.
Proof. destruct (Z.eqb_spec w 0); cbn; naive_solver. Qed.

Lemma is_occupied_testbit si t :
  is_occupied si t = Z.testbit (word_at (si_occupancy si) (t / 64)) (t mod 64).
Proof.
  unfold is_occupied. rewrite shiftr_6, land_63.
  set (w := word_at _ _). set (b := t mod 64).
  assert (Hb : 0 <= b) by (subst b; lia).
  destruct (Z.testbit w b) eqn:E.
  - apply nonzero_negb, (testbit_nonzero _ b). by rewrite Z.land_spec, E, bit_testbit, Z.eqb_refl.
  - apply negb_false_iff, Z.eqb_eq, Z.bits_inj'. intros i Hi.
    rewrite Z.land_spec, bit_testbit, Z.bits_0 by done.
    destruct (Z.eqb_spec i b) as [->|]; [by rewrite E|apply andb_false_r].
Qed.

Lemma is_occupied_true si t : 0 <= t -> is_occupied si t = true <-> occupied si t.
Proof. intros Ht. rewrite is_occupied_testbit. unfold occupied. tauto. Qed.

Section Scans.
Context (si : SideIndex) (W : bitmap_wf si).

Lemma occupied_word t : occupied si t -> word_at (si_occupancy si) (t / 64) <> 0.
Proof. intros [_ H]. by eapply testbit_nonzero. Qed.

(** Every occupied tick shows in all three levels. *)
Lemma occupied_levels t : occupied si t ->
  Z.testbit (word_at (si_mid_summary si) (t / 64 / 64)) (t / 64 mod 64) = true /\
  Z.testbit (si_summary si) (t / 64 / 64) = true.
Proof.
  intros Ht. pose proof (occupied_word t Ht) as Hw. destruct Ht as [Ht _].
  assert (Hm : Z.testbit (word_at (si_mid_summary si) (t / 64 / 64)) (t / 64 mod 64) = true).
  { rewrite (bw_mid _ W) by lia. by apply nonzero_negb. }
  split; [done|]. rewrite (bw_sum _ W) by lia. apply nonzero_negb.
  by eapply testbit_nonzero.
Qed.

(** Descending from a set summary bit: the word it names is non-zero. *)
Lemma summary_mid m : 0 <= m -> Z.testbit (si_summary si) m = true ->
  word_at (si_mid_summary si) m <> 0.
Proof. intros Hm H. rewrite (bw_sum _ W) in H by done. by apply nonzero_negb. Qed.
Lemma mid_word m b : 0 <= m -> 0 <= b < 64 ->
  Z.testbit (word_at (si_mid_summary si) m) b = true ->
  word_at (si_occupancy si) (m * 64 + b) <> 0.
Proof.
  intros Hm Hb H. pose proof (bw_mid _ W (m * 64 + b) ltac:(lia)) as HM.
  replace ((m * 64 + b) / 64) with m in HM by lia.
  replace ((m * 64 + b) mod 64) with b in HM by lia.
  rewrite H in HM. by apply nonzero_negb.
Qed.
Lemma word_tick w b : 0 <= w -> 0 <= b < 64 ->
  Z.testbit (word_at (si_occupancy si) w) b = true -> occupied si (w * 64 + b).
Proof.
  intros Hw Hb H. split; [lia|].
  replace ((w * 64 + b) / 64) with w by lia. by replace ((w * 64 + b) mod 64) with b by lia.
Qed.

Lemma summary_zero : si_summary si = 0 -> forall t, ~ occupied si t.
Proof.
  intros Hz t Ht. destruct (occupied_levels t Ht) as [_ H]. by rewrite Hz, Z.bits_0 in H.
Qed.
Lemma summary_nonzero : si_summary si <> 0 -> exists t, occupied si t.
Proof.
  intros Hz. destruct (highest_bit_spec _ (bw_sum_word _ W) Hz) as (Hm & Hm1 & _).
  pose proof (summary_mid _ (proj1 Hm) Hm1) as Hmw.
  destruct (word_nonzero_bit _ (word_at_word64 _ _ (bw_mid_words _ W)) Hmw) as (b & Hb & Hb1).
  pose proof (mid_word _ _ (proj1 Hm) Hb Hb1) as How.
  destruct (word_nonzero_bit _ (word_at_word64 _ _ (bw_occ_words _ W)) How) as (c & Hc & Hc1).
  exists ((highest_bit (si_summary si) * 64 + b) * 64 + c).
  apply word_tick; [lia|done|exact Hc1].
Qed.

(** One level down, scanning from the top ([hi]) or the bottom ([lo]). *)
Lemma word_hi w rest : 0 <= w -> word64 rest -> rest <> 0 ->
  (forall b, Z.testbit rest b = true -> Z.testbit (word_at (si_occupancy si) w) b = true) ->
  let r := Z.lor (Z.shiftl w 6) (highest_bit rest) in
  occupied si r /\ r / 64 = w /\ Z.testbit rest (r mod 64) = true /\
  forall t, 0 <= t -> t / 64 = w -> Z.testbit rest (t mod 64) = true -> t <= r.
Proof.
  intros Hw Hr Hne Hsub r. destruct (highest_bit_spec rest Hr Hne) as (Hb & Hb1 & Hmax).
  subst r. rewrite lor_shiftl_6 by done.
  split; [apply word_tick; auto|]. split; [lia|].
  split; [by replace ((w * 64 + highest_bit rest) mod 64) with (highest_bit rest) by lia|].
  intros t Ht Htw Htb. apply Hmax in Htb. lia.
Qed.
Lemma word_lo w rest : 0 <= w -> word64 rest -> rest <> 0 ->
  (forall b, Z.testbit rest b = true -> Z.testbit (word_at (si_occupancy si) w) b = true) ->
  let r := Z.lor (Z.shiftl w 6) (lowest_bit rest) in
  occupied si r /\ r / 64 = w /\ Z.testbit rest (r mod 64) = true /\
  forall t, 0 <= t -> t / 64 = w -> Z.testbit rest (t mod 64) = true -> r <= t.
Proof.
  intros Hw Hr Hne Hsub r. destruct (lowest_bit_spec rest Hr Hne) as (Hb & Hb1 & Hmin).
  subst r. rewrite lor_shiftl_6 by done.
  split; [apply word_tick; auto|]. split; [lia|].
  split; [by replace ((w * 64 + lowest_bit rest) mod 64) with (lowest_bit rest) by lia|].
  intros t Ht Htw Htb. apply Hmin in Htb. lia.
Qed.

(** Two levels down, from a middle word [rest] is a sub-word of. *)
Lemma mid_hi m rest : 0 <= m -> word64 rest -> rest <> 0 ->
  (forall b, Z.testbit rest b = true -> Z.testbit (word_at (si_mid_summary si) m) b = true) ->
  let w := Z.lor (Z.shiftl m 6) (highest_bit rest) in
  let r := Z.lor (Z.shiftl w 6) (highest_bit (word_at (si_occupancy si) w)) in
  occupied si r /\ r / 64 / 64 = m /\ Z.testbit rest (r / 64 mod 64) = true /\
  forall t, occupied si t -> t / 64 / 64 = m -> Z.testbit rest (t / 64 mod 64) = true -> t <= r.
Proof.
  intros Hm Hr Hne Hsub w r. destruct (highest_bit_spec rest Hr Hne) as (Hb & Hb1 & Hmax).
  assert (Hw : w = m * 64 + highest_bit rest) by (subst w; by rewrite lor_shiftl_6).
  assert (How : word_at (si_occupancy si) w <> 0).
  { rewrite Hw. apply mid_word; auto. }
  destruct (word_hi w (word_at (si_occupancy si) w)) as (H1 & H2 & H3 & H4);
    [lia|auto with mdh|done|done|]. fold r in H1, H2, H3, H4.
  split; [done|]. split; [lia|]. split; [by replace (r / 64 mod 64) with (highest_bit rest) by lia|].
  intros t Ht Htm Htb. apply Hmax in Htb.
  destruct (Z.eq_dec (t / 64) w) as [Heq|Hneq]; [|lia].
  destruct Ht as [Ht0 Htbit]. apply H4; [done|done|]. by rewrite Heq in Htbit.
Qed.
Lemma mid_lo m rest : 0 <= m -> word64 rest -> rest <> 0 ->
  (forall b, Z.testbit rest b = true -> Z.testbit (word_at (si_mid_summary si) m) b = true) ->
  let w := Z.lor (Z.shiftl m 6) (lowest_bit rest) in
  let r := Z.lor (Z.shiftl w 6) (lowest_bit (word_at (si_occupancy si) w)) in
  occupied si r /\ r / 64 / 64 = m /\ Z.testbit rest (r / 64 mod 64) = true /\
  forall t, occupied si t -> t / 64 / 64 = m -> Z.testbit rest (t / 64 mod 64) = true -> r <= t.
Proof.
  intros Hm Hr Hne Hsub w r. destruct (lowest_bit_spec rest Hr Hne) as (Hb & Hb1 & Hmin).
  assert (Hw : w = m * 64 + lowest_bit rest) by (subst w; by rewrite lor_shiftl_6).
  assert (How : word_at (si_occupancy si) w <> 0).
  { rewrite Hw. apply mid_word; auto. }
  destruct (word_lo w (word_at (si_occupancy si) w)) as (H1 & H2 & H3 & H4);
    [lia|auto with mdh|done|done|]. fold r in H1, H2, H3, H4.
  split; [done|]. split; [lia|]. split; [by replace (r / 64 mod 64) with (lowest_bit rest) by lia|].
  intros t Ht Htm Htb. apply Hmin in Htb.
  destruct (Z.eq_dec (t / 64) w) as [Heq|Hneq]; [|lia].
  destruct Ht as [Ht0 Htbit]. apply H4; [done|done|]. by rewrite Heq in Htbit.
Qed.

(** Three levels down, from a sub-word of the summary. *)
Lemma sum_hi rest : word64 rest -> rest <> 0 ->
  (forall b, Z.testbit rest b = true -> Z.testbit (si_summary si) b = true) ->
  let m := highest_bit rest in
  let w := Z.lor (Z.shiftl m 6) (highest_bit (word_at (si_mid_summary si) m)) in
  let r := Z.lor (Z.shiftl w 6) (highest_bit (word_at (si_occupancy si) w)) in
  occupied si r /\ Z.testbit rest (r / 64 / 64) = true /\
  forall t, occupied si t -> Z.testbit rest (t / 64 / 64) = true -> t <= r.
Proof.
  intros Hr Hne Hsub m w r. destruct (highest_bit_spec rest Hr Hne) as (Hb & Hb1 & Hmax).
  destruct (mid_hi m (word_at (si_mid_summary si) m)) as (H1 & H2 & H3 & H4);
    [lia|auto with mdh|by apply summary_mid; auto; lia|done|].
  fold w in H1, H2, H3, H4. fold r in H1, H2, H3, H4.
  split; [done|]. split; [by rewrite H2|].
  intros t Ht Htb. apply Hmax in Htb.
  destruct (Z.eq_dec (t / 64 / 64) m) as [Heq|Hneq]; [|subst m; lia].
  apply H4; [done|done|]. rewrite <- Heq. by apply occupied_levels.
Qed.
Lemma sum_lo rest : word64 rest -> rest <> 0 ->
  (forall b, Z.testbit rest b = true -> Z.testbit (si_summary si) b = true) ->
  let m := lowest_bit rest in
  let w := Z.lor (Z.shiftl m 6) (lowest_bit (word_at (si_mid_summary si) m)) in
  let r := Z.lor (Z.shiftl w 6) (lowest_bit (word_at (si_occupancy si) w)) in
  occupied si r /\ Z.testbit rest (r / 64 / 64) = true /\
  forall t, occupied si t -> Z.testbit rest (t / 64 / 64) = true -> r <= t.
Proof.
  intros Hr Hne Hsub m w r. destruct (lowest_bit_spec rest Hr Hne) as (Hb & Hb1 & Hmin).
  destruct (mid_lo m (word_at (si_mid_summary si) m)) as (H1 & H2 & H3 & H4);
    [lia|auto with mdh|by apply summary_mid; auto; lia|done|].
  fold w in H1, H2, H3, H4. fold r in H1, H2, H3, H4.
  split; [done|]. split; [by rewrite H2|].
  intros t Ht Htb. apply Hmin in Htb.
  destruct (Z.eq_dec (t / 64 / 64) m) as [Heq|Hneq]; [|subst m; lia].
  apply H4; [done|done|]. rewrite <- Heq. by apply occupied_levels.
Qed.
End Scans.

(** What a scan returns: the extremal tick satisfying [S], or the band width
    when there is none. *)
Definition scan_max (band : Z) (S : Z -> Prop) (r : Z) : Prop :=
  (r = band /\ forall t, ~ S t) \/ (r < band /\ S r /\ forall t, S t -> t <= r).
Definition scan_min (band : Z) (S : Z -> Prop) (r : Z) : Prop :=
  (r = band /\ forall t, ~ S t) \/ (r < band /\ S r /\ forall t, S t -> r <= t).

Lemma scan_max_unique band S r r' :
  (forall t, S t -> t < band) -> scan_max band S r -> scan_max band S r' -> r = r'.
Proof.
  intros Hb [[H1 H2]|(H1 & H2 & H3)] [[H1' H2']|(H1' & H2' & H3')]; [lia| | |].
  - by destruct (H2 r').
  - by destruct (H2' r).
  - apply H3 in H2'. apply H3' in H2. lia.
Qed.

(** Scan results respect equivalent sets of ticks. *)
#[export] Instance scan_max_proper band :
  Proper (pointwise_relation Z iff ==> eq ==> iff) (scan_max band).
Proof.
  intros S S' HS r r' <-. unfold scan_max, pointwise_relation in *.
  split; (intros [[? H]|(? & ? & H)]; [left|right]); (repeat split; try done; try by apply HS);
    intros t; [rewrite <- HS|rewrite <- HS|rewrite HS|rewrite HS]; apply H.
Qed.
#[export] Instance scan_min_proper band :
  Proper (pointwise_relation Z iff ==> eq ==> iff) (scan_min band).
Proof.
  intros S S' HS r r' <-. unfold scan_min, pointwise_relation in *.
  split; (intros [[? H]|(? & ? & H)]; [left|right]); (repeat split; try done; try by apply HS);
    intros t; [rewrite <- HS|rewrite <- HS|rewrite HS|rewrite HS]; apply H.
Qed.

Section ScanTheorems.
Context (si : SideIndex) (W : bitmap_wf si).

Lemma highest_occupied_max : scan_max (si_band_ticks si) (occupied si) (highest_occupied si).
Proof.
  unfold highest_occupied. destruct (Z.eqb_spec (si_summary si) 0) as [Hz|Hz].
  - left. split; [done|]. by apply summary_zero.
  - right. destruct (sum_hi si W (si_summary si)) as (H1 & H2 & H3);
      [auto with mdh|done|done|].
    split; [by eapply bw_in_band|]. split; [done|].
    intros t Ht. apply H3; [done|]. by apply occupied_levels.
Qed.

Lemma lowest_occupied_min : scan_min (si_band_ticks si) (occupied si) (lowest_occupied si).
Proof.
  unfold lowest_occupied. destruct (Z.eqb_spec (si_summary si) 0) as [Hz|Hz].
  - left. split; [done|]. by apply summary_zero.
  - right. destruct (sum_lo si W (si_summary si)) as (H1 & H2 & H3);
      [auto with mdh|done|done|].
    split; [by eapply bw_in_band|]. split; [done|].
    intros t Ht. apply H3; [done|]. by apply occupied_levels.
Qed.

(** A tick below [tick] differs from it first in its bit, its word, or its
    middle word; the three masked scans look for it in that order. *)
Lemma below_mask t b : 0 <= t -> 0 <= b < 64 -> Z.testbit (mask_below b) (t mod 64) = (t mod 64 <? b).
Proof. intros. rewrite mask_below_testbit by lia. lia. Qed.
Lemma above_mask t b : 0 <= t -> 0 <= b < 64 -> Z.testbit (mask_above b) (t mod 64) = (b <? t mod 64).
Proof. intros. rewrite mask_above_testbit by lia. lia. Qed.


Context (tick : Z) (Htick : 0 <= tick < si_band_ticks si).

Lemma sub_land w m b : Z.testbit (Z.land w m) b = true -> Z.testbit w b = true.
Proof. rewrite Z.land_spec. by intros [? _]%andb_true_iff. Qed.

Lemma tick_bounds : 0 <= tick / 64 /\ 0 <= tick / 64 / 64 < 64.
Proof. pose proof (bw_band _ W) as Hb. unfold band_ok in Hb. lia. Qed.

(** The masked words, as seen from an occupied tick. *)
Lemma masked_word_below t : occupied si t -> t / 64 = tick / 64 ->
  Z.testbit (Z.land (word_at (si_occupancy si) (tick / 64)) (mask_below (tick mod 64))) (t mod 64)
  = (t <? tick).
Proof.
  intros [Ht Hb] Heq. rewrite Z.land_spec, below_mask, <- Heq, Hb by lia. cbn. lia.
Qed.
Lemma masked_word_above t : occupied si t -> t / 64 = tick / 64 ->
  Z.testbit (Z.land (word_at (si_occupancy si) (tick / 64)) (mask_above (tick mod 64))) (t mod 64)
  = (tick <? t).
Proof.
  intros [Ht Hb] Heq. rewrite Z.land_spec, above_mask, <- Heq, Hb by lia. cbn. lia.
Qed.
Lemma masked_mid_below t : occupied si t -> t / 64 / 64 = tick / 64 / 64 ->
  Z.testbit (Z.land (word_at (si_mid_summary si) (tick / 64 / 64)) (mask_below (tick / 64 mod 64)))
    (t / 64 mod 64) = (t / 64 <? tick / 64).
Proof.
  intros Ht Heq. destruct (occupied_levels si W t Ht) as [Hm _]. pose proof (proj1 Ht).
  rewrite Z.land_spec, below_mask, <- Heq, Hm by lia. cbn. lia.
Qed.
Lemma masked_mid_above t : occupied si t -> t / 64 / 64 = tick / 64 / 64 ->
  Z.testbit (Z.land (word_at (si_mid_summary si) (tick / 64 / 64)) (mask_above (tick / 64 mod 64)))
    (t / 64 mod 64) = (tick / 64 <? t / 64).
Proof.
  intros Ht Heq. destruct (occupied_levels si W t Ht) as [Hm _]. pose proof (proj1 Ht).
  rewrite Z.land_spec, above_mask, <- Heq, Hm by lia. cbn. lia.
Qed.
Lemma masked_sum_below t : occupied si t ->
  Z.testbit (Z.land (si_summary si) (mask_below (tick / 64 / 64))) (t / 64 / 64)
  = (t / 64 / 64 <? tick / 64 / 64).
Proof.
  intros Ht. destruct (occupied_levels si W t Ht) as [_ Hs]. pose proof (proj1 Ht).
  pose proof tick_bounds. rewrite Z.land_spec, Hs, mask_below_testbit by lia. cbn. lia.
Qed.
Lemma masked_sum_above t : occupied si t ->
  Z.testbit (Z.land (si_summary si) (mask_above (tick / 64 / 64))) (t / 64 / 64)
  = (tick / 64 / 64 <? t / 64 / 64).
Proof.
  intros Ht. destruct (occupied_levels si W t Ht) as [_ Hs]. pose proof (proj1 Ht).
  pose proof (bw_in_band _ W t Ht). pose proof (bw_band _ W) as Hb. unfold band_ok in Hb.
  pose proof tick_bounds. rewrite Z.land_spec, Hs, mask_above_testbit by lia. cbn. lia.
Qed.

Lemma zero_no_bit w b : w = 0 -> Z.testbit w b = false.
Proof. intros ->. apply Z.bits_0. Qed.

Definition closest_below (r : Z) : Prop :=
  occupied si r /\ r < tick /\ forall t, occupied si t -> t < tick -> t <= r.
Abbreviation word_below := (Z.land (word_at (si_occupancy si) (tick / 64)) (mask_below (tick mod 64))).
Abbreviation mid_below := (Z.land (word_at (si_mid_summary si) (tick / 64 / 64)) (mask_below (tick / 64 mod 64))).
Abbreviation sum_below := (Z.land (si_summary si) (mask_below (tick / 64 / 64))).

Lemma other_word_below t : word_below = 0 -> occupied si t -> t < tick -> t / 64 < tick / 64.
Proof.
  intros E Ht Hlt. pose proof (proj1 Ht).
  destruct (Z.eq_dec (t / 64) (tick / 64)) as [Heq|]; [|lia].
  pose proof (zero_no_bit _ (t mod 64) E) as E'. rewrite masked_word_below in E' by done. lia.
Qed.
Lemma other_mid_below t : word_below = 0 -> mid_below = 0 -> occupied si t -> t < tick ->
  t / 64 / 64 < tick / 64 / 64.
Proof.
  intros E E2 Ht Hlt. pose proof (other_word_below t E Ht Hlt). pose proof (proj1 Ht).
  destruct (Z.eq_dec (t / 64 / 64) (tick / 64 / 64)) as [Heq|]; [|lia].
  pose proof (zero_no_bit _ (t / 64 mod 64) E2) as E'. rewrite masked_mid_below in E' by done. lia.
Qed.

Lemma below_in_word : word_below <> 0 ->
  closest_below (Z.lor (Z.shiftl (tick / 64) 6) (highest_bit word_below)).
Proof.
  intros E. pose proof tick_bounds as [Hw Hm].
  destruct (word_hi si (tick / 64) word_below) as (H1 & H2 & H3 & H4);
    [lia|auto with mdh|done|intros b; apply sub_land|].
  rewrite masked_word_below in H3 by done. split; [done|]. split; [lia|].
  intros t Ht Hlt. pose proof (proj1 Ht).
  destruct (Z.eq_dec (t / 64) (tick / 64)) as [Heq|]; [|lia].
  apply H4; [done|done|]. rewrite masked_word_below by done. lia.
Qed.
Lemma below_in_mid : word_below = 0 -> mid_below <> 0 ->
  closest_below (let word := Z.lor (Z.shiftl (tick / 64 / 64) 6) (highest_bit mid_below) in
                Z.lor (Z.shiftl word 6) (highest_bit (word_at (si_occupancy si) word))).
Proof.
  intros E E2. pose proof tick_bounds as [Hw Hm].
  destruct (mid_hi si W (tick / 64 / 64) mid_below) as (H1 & H2 & H3 & H4);
    [lia|auto with mdh|done|intros b; apply sub_land|].
  rewrite masked_mid_below in H3 by done. split; [done|]. split; [cbn zeta; lia|].
  intros t Ht Hlt. pose proof (other_word_below t E Ht Hlt). pose proof (proj1 Ht).
  destruct (Z.eq_dec (t / 64 / 64) (tick / 64 / 64)) as [Heq|]; [|cbn zeta; lia].
  apply H4; [done|done|]. rewrite masked_mid_below by done. lia.
Qed.
Lemma below_in_summary : word_below = 0 -> mid_below = 0 -> sum_below <> 0 ->
  closest_below (let mid := highest_bit sum_below in
                let word := Z.lor (Z.shiftl mid 6) (highest_bit (word_at (si_mid_summary si) mid)) in
                Z.lor (Z.shiftl word 6) (highest_bit (word_at (si_occupancy si) word))).
Proof.
  intros E E2 E3.
  destruct (sum_hi si W sum_below) as (H1 & H2 & H3); [auto with mdh|done|intros b; apply sub_land|].
  rewrite masked_sum_below in H2 by done. split; [done|]. split; [cbn zeta; lia|].
  intros t Ht Hlt. apply H3; [done|]. rewrite masked_sum_below by done.
  pose proof (other_mid_below t E E2 Ht Hlt). lia.
Qed.
Lemma none_below t : word_below = 0 -> mid_below = 0 -> sum_below = 0 -> occupied si t -> ~ t < tick.
Proof.
  intros E E2 E3 Ht Hlt. pose proof (other_mid_below t E E2 Ht Hlt).
  pose proof (zero_no_bit _ (t / 64 / 64) E3) as E'. rewrite masked_sum_below in E' by done. lia.
Qed.

Definition closest_above (r : Z) : Prop :=
  occupied si r /\ tick < r /\ forall t, occupied si t -> tick < t -> r <= t.
Abbreviation word_above := (Z.land (word_at (si_occupancy si) (tick / 64)) (mask_above (tick mod 64))).
Abbreviation mid_above := (Z.land (word_at (si_mid_summary si) (tick / 64 / 64)) (mask_above (tick / 64 mod 64))).
Abbreviation sum_above := (Z.land (si_summary si) (mask_above (tick / 64 / 64))).

Lemma other_word_above t : word_above = 0 -> occupied si t -> tick < t -> tick / 64 < t / 64.
Proof.
  intros E Ht Hlt. pose proof (proj1 Ht).
  destruct (Z.eq_dec (t / 64) (tick / 64)) as [Heq|]; [|lia].
  pose proof (zero_no_bit _ (t mod 64) E) as E'. rewrite masked_word_above in E' by done. lia.
Qed.
Lemma other_mid_above t : word_above = 0 -> mid_above = 0 -> occupied si t -> tick < t ->
  tick / 64 / 64 < t / 64 / 64.
Proof.
  intros E E2 Ht Hlt. pose proof (other_word_above t E Ht Hlt). pose proof (proj1 Ht).
  destruct (Z.eq_dec (t / 64 / 64) (tick / 64 / 64)) as [Heq|]; [|lia].
  pose proof (zero_no_bit _ (t / 64 mod 64) E2) as E'. rewrite masked_mid_above in E' by done. lia.
Qed.

Lemma above_in_word : word_above <> 0 ->
  closest_above (Z.lor (Z.shiftl (tick / 64) 6) (lowest_bit word_above)).
Proof.
  intros E. pose proof tick_bounds as [Hw Hm].
  destruct (word_lo si (tick / 64) word_above) as (H1 & H2 & H3 & H4);
    [lia|auto with mdh|done|intros b; apply sub_land|].
  rewrite masked_word_above in H3 by done. split; [done|]. split; [lia|].
  intros t Ht Hlt. pose proof (proj1 Ht).
  destruct (Z.eq_dec (t / 64) (tick / 64)) as [Heq|]; [|lia].
  apply H4; [done|done|]. rewrite masked_word_above by done. lia.
Qed.
Lemma above_in_mid : word_above = 0 -> mid_above <> 0 ->
  closest_above (let word := Z.lor (Z.shiftl (tick / 64 / 64) 6) (lowest_bit mid_above) in
                Z.lor (Z.shiftl word 6) (lowest_bit (word_at (si_occupancy si) word))).
Proof.
  intros E E2. pose proof tick_bounds as [Hw Hm].
  destruct (mid_lo si W (tick / 64 / 64) mid_above) as (H1 & H2 & H3 & H4);
    [lia|auto with mdh|done|intros b; apply sub_land|].
  rewrite masked_mid_above in H3 by done. split; [done|]. split; [cbn zeta; lia|].
  intros t Ht Hlt. pose proof (other_word_above t E Ht Hlt). pose proof (proj1 Ht).
  destruct (Z.eq_dec (t / 64 / 64) (tick / 64 / 64)) as [Heq|]; [|cbn zeta; lia].
  apply H4; [done|done|]. rewrite masked_mid_above by done. lia.
Qed.
Lemma above_in_summary : word_above = 0 -> mid_above = 0 -> sum_above <> 0 ->
  closest_above (let mid := lowest_bit sum_above in
                let word := Z.lor (Z.shiftl mid 6) (lowest_bit (word_at (si_mid_summary si) mid)) in
                Z.lor (Z.shiftl word 6) (lowest_bit (word_at (si_occupancy si) word))).
Proof.
  intros E E2 E3.
  destruct (sum_lo si W sum_above) as (H1 & H2 & H3); [auto with mdh|done|intros b; apply sub_land|].
  rewrite masked_sum_above in H2 by done. split; [done|]. split; [cbn zeta; lia|].
  intros t Ht Hlt. apply H3; [done|]. rewrite masked_sum_above by done.
  pose proof (other_mid_above t E E2 Ht Hlt). lia.
Qed.
Lemma none_above t : word_above = 0 -> mid_above = 0 -> sum_above = 0 -> occupied si t -> ~ tick < t.
Proof.
  intros E E2 E3 Ht Hlt. pose proof (other_mid_above t E E2 Ht Hlt).
  pose proof (zero_no_bit _ (t / 64 / 64) E3) as E'. rewrite masked_sum_above in E' by done. lia.
Qed.

Theorem highest_occupied_below_max :
  scan_max (si_band_ticks si) (fun t => occupied si t /\ t < tick) (highest_occupied_below si tick).
Proof.
  unfold highest_occupied_below. rewrite !shiftr_6, !land_63.
  destruct (Z.eqb_spec (si_summary si) 0) as [Hz|Hz]; cbn [orb].
  { left. split; [done|]. intros t [Ht _]. by eapply summary_zero. }
  destruct (Z.eqb_spec tick 0) as [Ht0|Ht0].
  { left. split; [done|]. intros t [[Ht _] ?]. lia. }
  assert (Hdone : forall r, closest_below r ->
    scan_max (si_band_ticks si) (fun t => occupied si t /\ t < tick) r).
  { intros r (Hr & Hlt & Hmax). right. split; [by apply bw_in_band|]. naive_solver. }
  destruct (Z.eqb_spec word_below 0) as [E1|E1]; cbn [negb]; [|by apply Hdone, below_in_word].
  destruct (Z.eqb_spec mid_below 0) as [E2|E2]; cbn [negb]; [|by apply Hdone, below_in_mid].
  destruct (Z.eqb_spec sum_below 0) as [E3|E3]; [|by apply Hdone, below_in_summary].
  left. split; [done|]. intros t [Ht Hlt]. by eapply none_below.
Qed.

Theorem lowest_occupied_above_min :
  scan_min (si_band_ticks si) (fun t => occupied si t /\ tick < t) (lowest_occupied_above si tick).
Proof.
  unfold lowest_occupied_above. rewrite !shiftr_6, !land_63.
  destruct (Z.eqb_spec (si_summary si) 0) as [Hz|Hz]; cbn [orb].
  { left. split; [done|]. intros t [Ht _]. by eapply summary_zero. }
  pose proof (bw_band _ W) as Hband. unfold band_ok in Hband. rewrite u32_small by lia.
  destruct (Z.leb_spec (si_band_ticks si) (tick + 1)) as [Ht0|Ht0].
  { left. split; [done|]. intros t [Ht ?]. pose proof (bw_in_band _ W t Ht). lia. }
  assert (Hdone : forall r, closest_above r ->
    scan_min (si_band_ticks si) (fun t => occupied si t /\ tick < t) r).
  { intros r (Hr & Hlt & Hmax). right. split; [by apply bw_in_band|]. naive_solver. }
  destruct (Z.eqb_spec word_above 0) as [E1|E1]; cbn [negb]; [|by apply Hdone, above_in_word].
  destruct (Z.eqb_spec mid_above 0) as [E2|E2]; cbn [negb]; [|by apply Hdone, above_in_mid].
  destruct (Z.eqb_spec sum_above 0) as [E3|E3]; [|by apply Hdone, above_in_summary].
  left. split; [done|]. intros t [Ht Hlt]. by eapply none_above.
Qed.
End ScanTheorems.

(** ** Updates of the bitmap *)
Section Updates.
Context (si : SideIndex) (W : bitmap_wf si) (t : Z) (Ht : 0 <= t < si_band_ticks si).

Lemma tick_in_occ : 0 <= t / 64 < Z.of_nat (length (si_occupancy si)).
Proof. pose proof (bw_occ_len _ W). lia. Qed.
Lemma tick_in_mid : 0 <= t / 64 / 64 < Z.of_nat (length (si_mid_summary si)).
Proof. pose proof (bw_occ_len _ W). pose proof (bw_mid_len _ W). lia. Qed.

Lemma set_occupied_occupied u :
  occupied (set_occupied si t) u <-> u = t \/ occupied si u.
Proof.
  pose proof tick_in_occ as Hr. unfold occupied, set_occupied; cbn. rewrite !shiftr_6, !land_63.
  destruct (Z.lt_ge_cases u 0) as [Hneg|Hu]; [lia|].
  rewrite word_at_set by lia. destruct (Z.eqb_spec (u / 64) (t / 64)) as [Heq|Hne].
  - rewrite Z.lor_spec, bit_testbit, Heq, orb_true_iff, Z.eqb_eq by lia.
    assert (u mod 64 = t mod 64 <-> u = t) by lia. tauto.
  - assert (u <> t) by congruence. tauto.
Qed.

Lemma set_occupied_wf : bitmap_wf (set_occupied si t).
Proof.
  pose proof tick_in_occ as Hr. pose proof tick_in_mid as Hm.
  pose proof (bw_mid_top _ W) as Htop.
  pose proof set_occupied_occupied as Hset.
  destruct W as [B1 B2 B3 B4 B5 B6 B7 B8 B9 B10].
  unfold set_occupied in *; constructor; cbn in *; rewrite ?shiftr_6, ?land_63, ?length_set_word in *; try done.
  - apply set_word_Forall; [done|]. apply lor_bit_word64; [auto with mdh|lia].
  - apply set_word_Forall; [done|]. apply lor_bit_word64; [auto with mdh|lia].
  - apply lor_bit_word64; [done|lia].
  - intros w Hw. rewrite !word_at_set by lia.
    destruct (Z.eqb_spec w (t / 64)) as [->|Hne].
    + rewrite Z.eqb_refl, Z.lor_spec, bit_testbit, Z.eqb_refl, orb_true_r by lia.
      symmetry. apply nonzero_negb, lor_bit_nonzero. lia.
    + rewrite <- (B8 w Hw). destruct (Z.eqb_spec (w / 64) (t / 64 / 64)) as [Heq|]; [|done].
      rewrite Z.lor_spec, bit_testbit, Heq by lia.
      rewrite (proj2 (Z.eqb_neq _ _)), orb_false_r by lia. done.
  - intros m Hm0. rewrite word_at_set, Z.lor_spec, bit_testbit, B9 by lia.
    destruct (Z.eqb_spec m (t / 64 / 64)) as [->|]; [|apply orb_false_r].
    rewrite orb_true_r. symmetry. apply nonzero_negb, lor_bit_nonzero. lia.
  - intros u Hu. apply Hset in Hu as [->|Hu]; [lia|by apply B10].
Qed.

(** [clear_occupied] touches the summaries only when a word empties; the
    result is the same as recomputing them. *)
Lemma clear_occupied_occupied u :
  occupied (clear_occupied si t) u <-> u <> t /\ occupied si u.
Proof.
  pose proof tick_in_occ as Hr.
  assert (Hocc : si_occupancy (clear_occupied si t) = set_word (si_occupancy si) (t / 64)
    (Z.ldiff (word_at (si_occupancy si) (t / 64)) (Z.shiftl 1 (t mod 64)))).
  { unfold clear_occupied. rewrite !shiftr_6, !land_63.
    destruct (negb _); [done|]. destruct (_ =? 0); done. }
  unfold occupied. rewrite Hocc. destruct (Z.lt_ge_cases u 0) as [Hneg|Hu]; [lia|].
  rewrite word_at_set by lia. destruct (Z.eqb_spec (u / 64) (t / 64)) as [Heq|Hne].
  - rewrite Z.ldiff_spec, bit_testbit, Heq, andb_true_iff, negb_true_iff, Z.eqb_neq by lia.
    assert (u mod 64 = t mod 64 <-> u = t) by lia. tauto.
  - assert (u <> t) by congruence. tauto.
Qed.

Lemma clear_bit_mirrors (hi : list Z) (w b : Z) (i : Z) : 0 <= b -> 0 <= w < Z.of_nat (length hi) -> 0 <= i ->
  Z.testbit (word_at (set_word hi w (Z.ldiff (word_at hi w) (Z.shiftl 1 b))) (i / 64)) (i mod 64)
  = Z.testbit (word_at hi (i / 64)) (i mod 64) && negb ((i / 64 =? w) && (i mod 64 =? b)).
Proof.
  intros Hb Hw Hi. rewrite word_at_set by lia.
  destruct (Z.eqb_spec (i / 64) w) as [->|]; cbn; [|by rewrite andb_true_r].
  by rewrite Z.ldiff_spec, bit_testbit.
Qed.

Lemma clear_occupied_wf : bitmap_wf (clear_occupied si t).
Proof.
  pose proof tick_in_occ as Hr. pose proof tick_in_mid as Hm.
  pose proof clear_occupied_occupied as Hclear.
  assert (Hin : forall u, occupied (clear_occupied si t) u -> u < si_band_ticks si).
  { intros u Hu. apply Hclear in Hu as [_ Hu]. by apply (bw_in_band _ W). }
  clear Hclear. destruct W as [B1 B2 B3 B4 B5 B6 B7 B8 B9 B10].
  unfold clear_occupied in *. rewrite !shiftr_6, !land_63 in *.
  set (v := Z.ldiff (word_at (si_occupancy si) (t / 64)) _) in *.
  set (v2 := Z.ldiff (word_at (si_mid_summary si) (t / 64 / 64)) _) in *.
  assert (Hv : word64 v) by (subst v; auto with mdh).
  assert (Hv2 : word64 v2) by (subst v2; auto with mdh).
  rewrite !word_at_set, !Z.eqb_refl in * by lia.
  destruct (Z.eqb_spec v 0) as [Ev|Ev]; cbn [negb] in *; [destruct (Z.eqb_spec v2 0) as [Ev2|Ev2]|];
    constructor; cbn; rewrite ?length_set_word; auto with mdh.
  - intros w Hw. rewrite !word_at_set by lia. subst v2.
    pose proof (clear_bit_mirrors (si_mid_summary si) (t / 64 / 64) (t / 64 mod 64) w) as Hc.
    rewrite word_at_set in Hc by lia. rewrite Hc, B8 by lia.
    destruct (Z.eqb_spec w (t / 64)) as [->|]; [by rewrite Ev, !Z.eqb_refl, andb_false_r|].
    replace ((w / 64 =? t / 64 / 64) && (w mod 64 =? t / 64 mod 64)) with false by lia.
    apply andb_true_r.
  - intros m Hm0. rewrite Z.ldiff_spec, bit_testbit, B9, word_at_set by lia.
    destruct (Z.eqb_spec m (t / 64 / 64)) as [->|]; [by rewrite Ev2, andb_false_r|apply andb_true_r].
  - intros w Hw. rewrite !word_at_set by lia. subst v2.
    pose proof (clear_bit_mirrors (si_mid_summary si) (t / 64 / 64) (t / 64 mod 64) w) as Hc.
    rewrite word_at_set in Hc by lia. rewrite Hc, B8 by lia.
    destruct (Z.eqb_spec w (t / 64)) as [->|]; [by rewrite Ev, !Z.eqb_refl, andb_false_r|].
    replace ((w / 64 =? t / 64 / 64) && (w mod 64 =? t / 64 mod 64)) with false by lia.
    apply andb_true_r.
  - intros m Hm0. rewrite B9, word_at_set by lia.
    destruct (Z.eqb_spec m (t / 64 / 64)) as [->|]; [|done].
    rewrite (proj2 (Z.eqb_neq _ _) Ev2). apply nonzero_negb.
    intros Hz. apply Ev2. unfold v2. rewrite Hz. apply Z.ldiff_0_l.
  - intros w Hw. rewrite word_at_set, B8 by lia.
    destruct (Z.eqb_spec w (t / 64)) as [->|]; [|done].
    rewrite (proj2 (Z.eqb_neq _ _) Ev). apply nonzero_negb.
    intros Hz. apply Ev. unfold v. rewrite Hz. apply Z.ldiff_0_l.
Qed.
End Updates.

(** A freshly allocated bitmap is all zero and well formed. *)
Lemma words_for_spec b : band_ok b ->
  0 <= words_for b <= 4096 /\ words_for b * 64 >= b /\ (b <= 4096 -> words_for b <= 64).
Proof. unfold band_ok, words_for. intros Hb. rewrite u32_small by lia. lia. Qed.

Lemma anchor_fresh_wf si price : band_ok (si_band_ticks si) -> si_ladder si = None ->
  si_summary si = 0 -> bitmap_wf (anchor si price) /\ forall t, ~ occupied (anchor si price) t.
Proof.
  intros Hb Hl Hs. destruct (words_for_spec _ Hb) as (H1 & H2 & _).
  assert (Hno : forall t, ~ occupied (anchor si price) t).
  { intros t [_ Hbit]. unfold anchor in Hbit. rewrite Hl in Hbit. cbn in Hbit.
    by rewrite word_at_replicate, Z.bits_0 in Hbit. }
  split; [|done].
  assert (Hlen : Z.of_nat (length (replicate (Z.to_nat (words_for (si_band_ticks si))) 0)) = words_for (si_band_ticks si))
    by (rewrite length_replicate; lia).
  unfold anchor in *. rewrite Hl, Hlen in *.
  destruct (words_for_spec (words_for (si_band_ticks si))) as (H3 & H4 & H5); [unfold band_ok; lia|].
  constructor; cbn in *; rewrite ?Hlen, ?length_replicate; try lia.
  - done.
  - apply Forall_replicate. unfold word64. lia.
  - apply Forall_replicate. unfold word64. lia.
  - rewrite Hs. unfold word64. lia.
  - intros w _. by rewrite !word_at_replicate, Z.bits_0.
  - intros m _. by rewrite Hs, word_at_replicate, Z.bits_0.
  - intros t Hoc. by destruct (Hno t).
Qed.
