(* ===== verification/SideIndex.v ===== *)
(** * MatchingBook::SideIndex -- the price index as a finite map of levels

    src/exchange/matching/matching_book.cpp, lines 161-287: level creation,
    lookup, erasure, the best price and the step to the next price, over the
    bitmap of TickLadder.v and the overflow map.

    The theorems say that a side is a finite map from price to level, that
    [best_price] is its best key and that [next_price] is the successor in
    priority order, whichever of the two structures a price lives in. *)
From S2P Require Import Prelude Types Bits TickLadder.

(** ** std::map<Price, LevelSlot>: its ordered traversal *)
Definition map_keys (m : gmap Z LevelSlot) : list Z := (map_to_list m).*1.
Definition opt_max (k : Z) (o : option Z) : option Z :=
  Some (match o with Some a => Z.max k a | None => k end).
Definition opt_min (k : Z) (o : option Z) : option Z :=
  Some (match o with Some a => Z.min k a | None => k end).
(** [begin()->first], [std::prev(end())->first]; [None] when empty. *)
Definition map_first (m : gmap Z LevelSlot) : option Z := foldr opt_min None (map_keys m).
Definition map_last (m : gmap Z LevelSlot) : option Z := foldr opt_max None (map_keys m).
(** [std::prev(lower_bound(p))->first] and [upper_bound(p)->first]. *)
Definition map_last_below (m : gmap Z LevelSlot) (p : Price) : option Z :=
  foldr opt_max None (filter (fun k => k < p) (map_keys m)).
Definition map_first_above (m : gmap Z LevelSlot) (p : Price) : option Z :=
  foldr opt_min None (filter (fun k => p < k) (map_keys m)).

(** ** Cells of the ladder array: [None] on a null array or an index past
    the end. *)
Definition ladder_cell (si : SideIndex) (tick : Z) : option LevelSlot :=
  let* m := si_ladder si in
  if (0 <=? tick) && (tick <? si_band_ticks si) then Some (default LevelSlot_default (m !! tick)) else None.
Definition store_cell (si : SideIndex) (tick : Z) (lv : LevelSlot) : option SideIndex :=
  let* m := si_ladder si in
  if (0 <=? tick) && (tick <? si_band_ticks si)
  then Some (si_with_ladder si (Some (<[tick := lv]> m))) else None.

(** ** Operations *)

(** Returns the side with the level created, and the level's contents; the
    C++ returns a reference, stores through which are [set_level]. *)
Definition level_for (si : SideIndex) (price : Price) : option (SideIndex * LevelSlot) :=
  let si := if negb (si_band_ticks si =? 0) && (negb (si_anchored si) || si_empty si)
            then anchor si price else si in
  if negb (in_band si price)
  then match si_overflow si !! price with
       | Some lv => Some (si, lv)
       | None => Some (si_with_overflow si (<[price := LevelSlot_default]> (si_overflow si)),
                       LevelSlot_default)
       end
  else
    let tick := tick_of si price in
    let* si := (if negb (is_occupied si tick)
          then store_cell (set_occupied si tick) tick LevelSlot_default
          else Some si) in
    let* lv := ladder_cell si tick in
    Some (si, lv).

(** [None] is the null pointer. *)
Definition find_level (si : SideIndex) (price : Price) : option LevelSlot :=
  if in_band si price
  then let tick := tick_of si price in
       if is_occupied si tick then ladder_cell si tick else None
  else si_overflow si !! price.

Definition erase_level (si : SideIndex) (price : Price) : SideIndex :=
  if in_band si price
  then clear_occupied si (tick_of si price)
  else si_with_overflow si (delete price (si_overflow si)).

(** Precondition [!empty()]; [None] where the C++ would step before the
    beginning of an empty map. *)
Definition best_price (si : SideIndex) : option Price :=
  let spill := match si_side si with Buy => map_last (si_overflow si) | Sell => map_first (si_overflow si) end in
  let tick := match si_side si with Buy => highest_occupied si | Sell => lowest_occupied si end in
  if tick =? si_band_ticks si then spill
  else if bool_decide (si_overflow si = ∅) then Some (price_of si tick)
  else
    let laddered := price_of si tick in
    let* spilled := spill in
    match si_side si with
    | Buy => Some (if spilled <? laddered then laddered else spilled)
    | Sell => Some (if laddered <? spilled then laddered else spilled)
    end.

(** Precondition: a level rests at this price. *)
Definition level_at (si : SideIndex) (price : Price) : option LevelSlot :=
  if in_band si price then ladder_cell si (tick_of si price) else si_overflow si !! price.

(** A store through the reference [level_for], [find_level] or [level_at]
    returned. *)
Definition set_level (si : SideIndex) (price : Price) (lv : LevelSlot) : option SideIndex :=
  if in_band si price then store_cell si (tick_of si price) lv
  else match si_overflow si !! price with
       | Some _ => Some (si_with_overflow si (<[price := lv]> (si_overflow si)))
       | None => None
       end.

Definition next_price (si : SideIndex) (price : Price) : option Price :=
  let laddered :=
    if si_anchored si && negb (si_summary si =? 0) then
      let first := si_base si in
      let last := s64 (si_base si + si_band_ticks si - 1) in
      let tick :=
        match si_side si with
        | Buy => if last <? price then highest_occupied si
                 else if price <=? first then si_band_ticks si
                 else highest_occupied_below si (tick_of si price)
        | Sell => if price <? first then lowest_occupied si
                  else if last <=? price then si_band_ticks si
                  else lowest_occupied_above si (tick_of si price)
        end in
      if negb (tick =? si_band_ticks si) then Some (price_of si tick) else None
    else None in
  let spilled :=
    match si_side si with
    | Buy => map_last_below (si_overflow si) price
    | Sell => map_first_above (si_overflow si) price
    end in
  match laddered, spilled with
  | None, _ => spilled
  | _, None => laddered
  | Some l, Some s =>
      match si_side si with
      | Buy => if s <? l then laddered else spilled
      | Sell => if l <? s then laddered else spilled
      end
  end.

(** [sizeof(LevelSlot)] is 8 (two 32-bit indices). *)
Definition bit_floor (z : Z) : Z := if z =? 0 then 0 else 2 ^ Z.log2 z.
Definition band_for (instrument_count byte_budget : Z) : Z :=
  if instrument_count =? 0 then kMaxBandTicks
  else
    let ticks := byte_budget / instrument_count / (2 * 8) in
    if ticks <? kMinBandTicks then 0
    else u32 (bit_floor (Z.min ticks kMaxBandTicks)).

(** ** Ordered-map lemmas *)
Lemma foldr_opt_max_spec l :
  match foldr opt_max None l with
  | Some k => k ∈ l /\ forall x, x ∈ l -> x <= k
  | None => l = []
  end.
Proof.
  induction l as [|x l IH]; [done|]. cbn. destruct (foldr opt_max None l) as [k|]; cbn.
  - destruct IH as [IH1 IH2]. destruct (Z.max_spec x k) as [[? ->]|[? ->]]; (split; [set_solver|]);
      intros y [->|Hy]%elem_of_cons; try lia; specialize (IH2 y Hy); lia.
  - subst l. split; [set_solver|]. intros y Hy. assert (y = x) by set_solver. lia.
Qed.
Lemma foldr_opt_min_spec l :
  match foldr opt_min None l with
  | Some k => k ∈ l /\ forall x, x ∈ l -> k <= x
  | None => l = []
  end.
Proof.
  induction l as [|x l IH]; [done|]. cbn. destruct (foldr opt_min None l) as [k|]; cbn.
  - destruct IH as [IH1 IH2]. destruct (Z.min_spec x k) as [[? ->]|[? ->]]; (split; [set_solver|]);
      intros y [->|Hy]%elem_of_cons; try lia; specialize (IH2 y Hy); lia.
  - subst l. split; [set_solver|]. intros y Hy. assert (y = x) by set_solver. lia.
Qed.
Lemma elem_of_map_keys m k : k ∈ map_keys m <-> is_Some (m !! k).
Proof.
  unfold map_keys. rewrite list_elem_of_fmap. split.
  - intros ([k' v] & -> & Hin). apply elem_of_map_to_list in Hin. eauto.
  - intros [v Hv]. exists (k, v). split; [done|]. by apply elem_of_map_to_list.
Qed.

(** ** Well-formed sides *)
Definition price_ok (p : Price) : Prop := 0 < p < two63 - kMaxBandTicks.

Record si_wf (si : SideIndex) : Prop := {
  sw_band : 0 <= si_band_ticks si <= kMaxBandTicks;
  sw_ladder : if si_anchored si
              then is_Some (si_ladder si) /\ bitmap_wf si /\
                   - kMaxBandTicks <= si_base si < two63 - kMaxBandTicks
              else si_ladder si = None /\ si_summary si = 0 /\
                   (si_band_ticks si = 0 \/ si_overflow si = ∅);
  sw_occ : forall t, si_anchored si = true -> occupied si t -> price_ok (si_base si + t);
  sw_over : forall p, is_Some (si_overflow si !! p) -> price_ok p /\ in_band si p = false;
}.

Definition has_level (si : SideIndex) (p : Price) : Prop := is_Some (find_level si p).

Lemma SideIndex_new_wf s b : 0 <= b <= kMaxBandTicks -> si_wf (SideIndex_new s b).
Proof.
  intros Hb. constructor; cbn; [done|by auto|done|].
  intros p [v Hv]. by rewrite lookup_empty in Hv.
Qed.

Section Wf.
Context (si : SideIndex) (W : si_wf si).

Lemma anchored_inv : si_anchored si = true ->
  bitmap_wf si /\ is_Some (si_ladder si) /\ - kMaxBandTicks <= si_base si < two63 - kMaxBandTicks.
Proof. intros Ha. pose proof (sw_ladder _ W) as H. rewrite Ha in H. tauto. Qed.

Lemma in_band_iff p : price_ok p ->
  in_band si p = true <-> si_anchored si = true /\ si_base si <= p < si_base si + si_band_ticks si.
Proof.
  unfold price_ok, kMaxBandTicks. intros Hp. unfold in_band. rewrite andb_true_iff, Z.ltb_lt.
  destruct (si_anchored si) eqn:Ha; [|naive_solver].
  destruct (anchored_inv Ha) as (_ & _ & Hbase). pose proof (sw_band _ W) as Hb.
  unfold kMaxBandTicks in *.
  destruct (Z.lt_ge_cases p (si_base si)) as [Hlt|Hge].
  - unfold u64. rewrite <- (Z_mod_plus_full _ 1), Z.mod_small by lia. lia.
  - rewrite u64_small by lia. lia.
Qed.

Lemma tick_of_eq p : price_ok p -> in_band si p = true ->
  tick_of si p = p - si_base si /\ 0 <= tick_of si p < si_band_ticks si.
Proof.
  intros Hp Hin. apply in_band_iff in Hin as [Ha Hr]; [|done].
  pose proof (sw_band _ W) as Hb. unfold kMaxBandTicks in Hb.
  unfold tick_of. rewrite u32_small by lia. lia.
Qed.

Lemma price_of_eq t : si_anchored si = true -> 0 <= t < si_band_ticks si ->
  price_of si t = si_base si + t.
Proof.
  intros Ha Ht. destruct (anchored_inv Ha) as (_ & _ & Hbase).
  pose proof (sw_band _ W) as Hb. unfold kMaxBandTicks in *.
  unfold price_of. apply s64_small. lia.
Qed.

Lemma ladder_cell_Some t : si_anchored si = true -> 0 <= t < si_band_ticks si ->
  exists m, si_ladder si = Some m /\ ladder_cell si t = Some (default LevelSlot_default (m !! t)).
Proof.
  intros Ha Ht. destruct (anchored_inv Ha) as (_ & [m Hm] & _). exists m. split; [done|].
  unfold ladder_cell. rewrite Hm. cbn.
  by rewrite (proj2 (Z.leb_le _ _)), (proj2 (Z.ltb_lt _ _)) by lia.
Qed.

(** A price has a level iff its tick is occupied or the overflow map has it. *)
Lemma has_level_iff p : price_ok p ->
  has_level si p <->
  (in_band si p = true /\ occupied si (p - si_base si)) \/ is_Some (si_overflow si !! p).
Proof.
  intros Hp. unfold has_level, find_level. destruct (in_band si p) eqn:Hin.
  - destruct (tick_of_eq p Hp Hin) as [Ht Hr].
    pose proof Hin as [Ha _]%in_band_iff; [|done].
    destruct (ladder_cell_Some _ Ha Hr) as (m & _ & Hc). rewrite Hc.
    rewrite <- Ht, <- is_occupied_true by lia.
    destruct (is_occupied si (tick_of si p)).
    + split; [naive_solver|eauto].
    + split; [by intros [? ?]|]. intros [[_ ?]|Ho]; [done|].
      apply (sw_over _ W) in Ho as [_ Ho]. congruence.
  - naive_solver.
Qed.

Lemma has_level_occupied t : si_anchored si = true -> occupied si t -> has_level si (si_base si + t).
Proof.
  intros Ha Ht. pose proof (sw_occ _ W t Ha Ht) as Hp.
  destruct (anchored_inv Ha) as (Wb & _ & _). pose proof (bw_in_band _ Wb t Ht) as Hlt.
  apply has_level_iff; [done|]. left.
  split; [|by replace (si_base si + t - si_base si) with t by lia].
  apply in_band_iff; [done|]. split; [done|]. destruct Ht. lia.
Qed.
Lemma has_level_overflow p : is_Some (si_overflow si !! p) -> has_level si p.
Proof. intros H. apply has_level_iff; [by apply (sw_over _ W)|by right]. Qed.
End Wf.

(** ** Reading: emptiness, best price, next price *)
Section Reading.
Context (si : SideIndex) (W : si_wf si).

Lemma not_anchored_unoccupied : si_anchored si = false -> si_summary si = 0.
Proof. intros Ha. pose proof (sw_ladder _ W) as H. rewrite Ha in H. tauto. Qed.

Lemma si_empty_true : si_empty si = true -> forall p, price_ok p -> ~ has_level si p.
Proof.
  unfold si_empty. intros [Hs%Z.eqb_eq Ho%bool_decide_eq_true]%andb_true_iff p Hp Hl.
  apply has_level_iff in Hl as [[Hin Hocc]|Hov]; [| |done|done].
  - apply in_band_iff in Hin as [Ha _]; [|done|done].
    destruct (anchored_inv si W Ha) as (Wb & _). by eapply summary_zero.
  - rewrite Ho in Hov. destruct Hov as [v Hv]. by rewrite lookup_empty in Hv.
Qed.

Lemma map_nonempty_key (m : gmap Z LevelSlot) : m <> ∅ -> exists p, is_Some (m !! p).
Proof. intros Hne. destruct (map_choose m Hne) as (p & v & Hv). eauto. Qed.

Lemma si_empty_false : si_empty si = false -> exists p, price_ok p /\ has_level si p.
Proof.
  unfold si_empty. intros [Hs%Z.eqb_neq|Ho%bool_decide_eq_false]%andb_false_iff.
  - destruct (si_anchored si) eqn:Ha; [|by rewrite not_anchored_unoccupied in Hs].
    destruct (anchored_inv si W Ha) as (Wb & _). destruct (summary_nonzero si Wb Hs) as [t Ht].
    exists (si_base si + t). split; [by apply (sw_occ _ W)|by apply has_level_occupied].
  - destruct (map_nonempty_key _ Ho) as [p Hp].
    exists p. split; [by apply (sw_over _ W)|by apply has_level_overflow].
Qed.

(** The ladder's own candidates, as prices. *)
Lemma ladder_split p : price_ok p -> has_level si p ->
  (si_anchored si = true /\ occupied si (p - si_base si)) \/ is_Some (si_overflow si !! p).
Proof.
  intros Hp Hl. apply has_level_iff in Hl as [[Hin Hocc]|Hov]; [| |done|done]; [left|by right].
  apply in_band_iff in Hin as [Ha _]; done.
Qed.

Lemma highest_scan : si_anchored si = true -> scan_max (si_band_ticks si) (occupied si) (highest_occupied si).
Proof. intros Ha. destruct (anchored_inv si W Ha) as (Wb & _). by apply highest_occupied_max. Qed.
Lemma lowest_scan : si_anchored si = true -> scan_min (si_band_ticks si) (occupied si) (lowest_occupied si).
Proof. intros Ha. destruct (anchored_inv si W Ha) as (Wb & _). by apply lowest_occupied_min. Qed.
End Reading.

(** [is_best s S q]: [q] is in [S] and has priority over all of it. *)
Definition is_best (s : Side) (S : Price -> Prop) (q : Price) : Prop :=
  S q /\ forall r, S r -> better_eq s q r = true.

Definition opt_best (s : Side) (S : Price -> Prop) (o : option Price) : Prop :=
  match o with Some q => is_best s S q | None => forall q, ~ S q end.

(** Two candidate sets, each with its best; the merge takes the better. *)
Definition merge_best (s : Side) (l o : option Price) : option Price :=
  match l, o with
  | None, _ => o
  | _, None => l
  | Some a, Some b => if better s a b then l else o
  end.
Lemma merge_best_spec s S1 S2 l o :
  opt_best s S1 l -> opt_best s S2 o -> opt_best s (fun q => S1 q \/ S2 q) (merge_best s l o).
Proof.
  intros H1 H2. destruct l as [a|], o as [b|]; cbn in *; [| | |naive_solver].
  - destruct H1 as [Ha H1], H2 as [Hb H2]. destruct (better s a b) eqn:E; (split; [auto|]);
      intros r [Hr|Hr]; (apply H1 in Hr || apply H2 in Hr); destruct s; cbn in *; lia.
  - destruct H1 as [Ha H1]. split; [auto|]. naive_solver.
  - destruct H2 as [Hb H2]. split; [auto|]. naive_solver.
Qed.
Lemma opt_best_iff s S S' o : (forall q, S q <-> S' q) -> opt_best s S o -> opt_best s S' o.
Proof. intros HS. destruct o; cbn; unfold is_best; naive_solver. Qed.

Lemma map_last_spec m : opt_best Buy (fun p => is_Some (m !! p)) (map_last m).
Proof.
  pose proof (foldr_opt_max_spec (map_keys m)) as H. unfold map_last, opt_best, is_best.
  destruct (foldr opt_max None (map_keys m)) as [k|]; setoid_rewrite <- elem_of_map_keys.
  - cbn. setoid_rewrite Z.leb_le. tauto.
  - rewrite H. set_solver.
Qed.
Lemma map_first_spec m : opt_best Sell (fun p => is_Some (m !! p)) (map_first m).
Proof.
  pose proof (foldr_opt_min_spec (map_keys m)) as H. unfold map_first, opt_best, is_best.
  destruct (foldr opt_min None (map_keys m)) as [k|]; setoid_rewrite <- elem_of_map_keys.
  - cbn. setoid_rewrite Z.leb_le. tauto.
  - rewrite H. set_solver.
Qed.
Lemma map_last_below_spec m p :
  opt_best Buy (fun q => is_Some (m !! q) /\ q < p) (map_last_below m p).
Proof.
  unfold map_last_below. set (l := filter _ _).
  pose proof (foldr_opt_max_spec l) as H. unfold opt_best, is_best.
  assert (Hl : forall q, is_Some (m !! q) /\ q < p <-> q ∈ l).
  { intros q. unfold l. rewrite list_elem_of_filter, elem_of_map_keys. tauto. }
  destruct (foldr opt_max None l) as [k|]; setoid_rewrite Hl.
  - cbn. setoid_rewrite Z.leb_le. tauto.
  - rewrite H. set_solver.
Qed.
Lemma map_first_above_spec m p :
  opt_best Sell (fun q => is_Some (m !! q) /\ p < q) (map_first_above m p).
Proof.
  unfold map_first_above. set (l := filter _ _).
  pose proof (foldr_opt_min_spec l) as H. unfold opt_best, is_best.
  assert (Hl : forall q, is_Some (m !! q) /\ p < q <-> q ∈ l).
  { intros q. unfold l. rewrite list_elem_of_filter, elem_of_map_keys. tauto. }
  destruct (foldr opt_min None l) as [k|]; setoid_rewrite Hl.
  - cbn. setoid_rewrite Z.leb_le. tauto.
  - rewrite H. set_solver.
Qed.

(** [best_price] and [next_price] as one merge of two candidates. *)
Definition ladder_prices (si : SideIndex) (S : Z -> Prop) : Price -> Prop :=
  fun q => si_anchored si = true /\ occupied si (q - si_base si) /\ S q.

Lemma scan_best si (W : si_wf si) s S t : si_anchored si = true ->
  match s with
  | Buy => scan_max (si_band_ticks si) (fun t => occupied si t /\ S (si_base si + t)) t
  | Sell => scan_min (si_band_ticks si) (fun t => occupied si t /\ S (si_base si + t)) t
  end ->
  opt_best s (ladder_prices si S) (if negb (t =? si_band_ticks si) then Some (price_of si t) else None).
Proof.
  intros Ha Hscan.
  assert (Hcase : (t = si_band_ticks si /\ forall u, ~ (occupied si u /\ S (si_base si + u))) \/
    (t < si_band_ticks si /\ (occupied si t /\ S (si_base si + t)) /\
     forall u, occupied si u /\ S (si_base si + u) -> match s with Buy => u <= t | Sell => t <= u end)).
  { destruct s, Hscan as [?|?]; [left|right|left|right]; tauto. }
  destruct Hcase as [[-> Hno]|(Hlt & [Hocc HS] & Hbest)].
  - rewrite Z.eqb_refl. cbn. intros q (_ & Hq & HSq). apply (Hno (q - si_base si)).
    by replace (si_base si + (q - si_base si)) with q by lia.
  - rewrite (proj2 (Z.eqb_neq _ _)) by lia. cbn. unfold is_best, ladder_prices.
    rewrite price_of_eq by (done || destruct Hocc; lia).
    replace (si_base si + t - si_base si) with t by lia. split; [done|].
    intros r (_ & Hr & HSr). specialize (Hbest (r - si_base si)).
    replace (si_base si + (r - si_base si)) with r in Hbest by lia.
    specialize (Hbest (conj Hr HSr)). destruct s; cbn; lia.
Qed.

Section BestNext.
Context (si : SideIndex) (W : si_wf si).

Lemma not_anchored_scans : si_anchored si = false ->
  highest_occupied si = si_band_ticks si /\ lowest_occupied si = si_band_ticks si.
Proof.
  intros Ha. unfold highest_occupied, lowest_occupied.
  by rewrite not_anchored_unoccupied.
Qed.

Lemma has_level_sets (S : Price -> Prop) (q : Price) :
  (price_ok q /\ has_level si q /\ S q) <->
  ladder_prices si S q \/ (is_Some (si_overflow si !! q) /\ S q).
Proof.
  unfold ladder_prices. split.
  - intros (Hp & Hl & HS). destruct (ladder_split si W q Hp Hl); tauto.
  - intros [(Ha & Hocc & HS)|[Hov HS]].
    + pose proof (has_level_occupied si W _ Ha Hocc) as Hl. pose proof (sw_occ _ W _ Ha Hocc) as Hp.
      by replace (si_base si + (q - si_base si)) with q in * by lia.
    + pose proof (has_level_overflow si W q Hov). pose proof (sw_over _ W q Hov). tauto.
Qed.

Definition scan_of (s : Side) : Z :=
  match s with Buy => highest_occupied si | Sell => lowest_occupied si end.
Definition laddered_best : option Price :=
  if negb (scan_of (si_side si) =? si_band_ticks si) then Some (price_of si (scan_of (si_side si))) else None.
Definition spilled_best : option Price :=
  match si_side si with Buy => map_last (si_overflow si) | Sell => map_first (si_overflow si) end.

Lemma best_price_merge : best_price si = merge_best (si_side si) laddered_best spilled_best.
Proof.
  unfold best_price, laddered_best, spilled_best, scan_of.
  destruct (si_side si).
  - destruct (Z.eqb_spec (highest_occupied si) (si_band_ticks si)); cbn [negb]; [done|].
    pose proof (map_last_spec (si_overflow si)) as Hm.
    case_bool_decide as Ho; [by rewrite Ho|].
    destruct (map_last (si_overflow si)) as [k|]; cbn; [by destruct (k <? _)|].
    destruct (map_nonempty_key _ Ho) as [p Hp]. by destruct (Hm p).
  - destruct (Z.eqb_spec (lowest_occupied si) (si_band_ticks si)); cbn [negb]; [done|].
    pose proof (map_first_spec (si_overflow si)) as Hm.
    case_bool_decide as Ho; [by rewrite Ho|].
    destruct (map_first (si_overflow si)) as [k|]; cbn; [by destruct (_ <? k)|].
    destruct (map_nonempty_key _ Ho) as [p Hp]. by destruct (Hm p).
Qed.

Lemma laddered_best_spec : opt_best (si_side si) (ladder_prices si (fun _ => True)) laddered_best.
Proof.
  unfold laddered_best. destruct (si_anchored si) eqn:Ha.
  - apply scan_best; [done|done|].
    destruct (si_side si); cbn [scan_of];
      [pose proof (highest_scan si W Ha) as H|pose proof (lowest_scan si W Ha) as H];
      destruct H; [left|right|left|right]; naive_solver.
  - assert (scan_of (si_side si) = si_band_ticks si) as ->
      by (destruct (not_anchored_scans Ha); by destruct (si_side si)).
    rewrite Z.eqb_refl. cbn. unfold ladder_prices. rewrite Ha. naive_solver.
Qed.

Lemma spilled_best_spec : opt_best (si_side si) (fun q => is_Some (si_overflow si !! q)) spilled_best.
Proof.
  unfold spilled_best. destruct (si_side si); [apply map_last_spec|apply map_first_spec].
Qed.

(** The best price of a side is the best key of the map. *)
Theorem best_price_spec :
  opt_best (si_side si) (fun q => price_ok q /\ has_level si q) (best_price si).
Proof.
  rewrite best_price_merge.
  eapply opt_best_iff; [|exact (merge_best_spec _ _ _ _ _ laddered_best_spec spilled_best_spec)].
  intros q. pose proof (has_level_sets (fun _ => True) q). cbn. tauto.
Qed.

(** The ladder candidate of [next_price]. *)
Definition next_scan (price : Price) : Z :=
  let last := s64 (si_base si + si_band_ticks si - 1) in
  match si_side si with
  | Buy => if last <? price then highest_occupied si
           else if price <=? si_base si then si_band_ticks si
           else highest_occupied_below si (tick_of si price)
  | Sell => if price <? si_base si then lowest_occupied si
            else if last <=? price then si_band_ticks si
            else lowest_occupied_above si (tick_of si price)
  end.
Definition laddered_next (price : Price) : option Price :=
  if si_anchored si && negb (si_summary si =? 0)
  then if negb (next_scan price =? si_band_ticks si) then Some (price_of si (next_scan price)) else None
  else None.
Definition spilled_next (price : Price) : option Price :=
  match si_side si with
  | Buy => map_last_below (si_overflow si) price
  | Sell => map_first_above (si_overflow si) price
  end.

Lemma next_price_merge p : next_price si p = merge_best (si_side si) (laddered_next p) (spilled_next p).
Proof.
  unfold next_price, laddered_next, spilled_next, next_scan, merge_best, better.
  destruct (si_side si); reflexivity.
Qed.

Lemma spilled_next_spec p :
  opt_best (si_side si) (fun q => is_Some (si_overflow si !! q) /\ better (si_side si) p q = true) (spilled_next p).
Proof.
  unfold spilled_next. destruct (si_side si); cbn [better].
  - eapply opt_best_iff; [|apply map_last_below_spec]. intros q; cbn. by rewrite Z.ltb_lt.
  - eapply opt_best_iff; [|apply map_first_above_spec]. intros q; cbn. by rewrite Z.ltb_lt.
Qed.

Lemma laddered_next_spec p : price_ok p ->
  opt_best (si_side si) (ladder_prices si (fun q => better (si_side si) p q = true)) (laddered_next p).
Proof.
  intros Hp. unfold laddered_next. destruct (si_anchored si) eqn:Ha; cbn [andb]; cycle 1.
  { cbn. unfold ladder_prices. rewrite Ha. naive_solver. }
  destruct (anchored_inv si W Ha) as (Wb & _ & Hbase).
  pose proof (sw_band _ W) as Hband. unfold kMaxBandTicks, price_ok in *.
  destruct (Z.eqb_spec (si_summary si) 0) as [Hs|Hs]; cbn [negb].
  { intros q (_ & Hq & _). by eapply summary_zero. }
  apply scan_best; [done|done|].
  unfold next_scan. rewrite s64_small by (unfold kMaxBandTicks in *; lia).
  assert (Hr : forall t, occupied si t -> 0 <= t < si_band_ticks si)
    by (intros t Ht; pose proof (bw_in_band _ Wb t Ht); destruct Ht; lia).
  destruct (si_side si); cbn [better]; setoid_rewrite Z.ltb_lt.
  - destruct (Z.ltb_spec (si_base si + si_band_ticks si - 1) p) as [Hl|Hl].
    { destruct (highest_scan si W Ha) as [[? ?]|(? & ? & ?)]; [left|right]; [naive_solver|].
      split; [done|]. split; [|naive_solver]. split; [done|]. specialize (Hr (highest_occupied si)). naive_solver lia. }
    destruct (Z.leb_spec p (si_base si)) as [Hl2|Hl2].
    { left. split; [done|]. intros t [Ht ?]. specialize (Hr t Ht). lia. }
    destruct (tick_of_eq si W p) as [Ht Htr]; [done|by apply in_band_iff; [done|done|split; [done|lia]]|].
    destruct (highest_occupied_below_max si Wb (tick_of si p) Htr) as [[? Hno]|(? & [? ?] & Hmax)]; [left|right].
    + split; [done|]. intros t [? ?]. apply (Hno t). split; [done|lia].
    + split; [done|]. split; [split; [done|lia]|]. intros t [? ?]. apply Hmax. split; [done|lia].
  - destruct (Z.ltb_spec p (si_base si)) as [Hl|Hl].
    { destruct (lowest_scan si W Ha) as [[? ?]|(? & ? & ?)]; [left|right]; [naive_solver|].
      split; [done|]. split; [|naive_solver]. split; [done|]. specialize (Hr (lowest_occupied si)). naive_solver lia. }
    destruct (Z.leb_spec (si_base si + si_band_ticks si - 1) p) as [Hl2|Hl2].
    { left. split; [done|]. intros t [Ht ?]. specialize (Hr t Ht). lia. }
    destruct (tick_of_eq si W p) as [Ht Htr]; [done|by apply in_band_iff; [done|done|split; [done|lia]]|].
    destruct (lowest_occupied_above_min si Wb (tick_of si p) Htr) as [[? Hno]|(? & [? ?] & Hmin)]; [left|right].
    + split; [done|]. intros t [? ?]. apply (Hno t). split; [done|lia].
    + split; [done|]. split; [split; [done|lia]|]. intros t [? ?]. apply Hmin. split; [done|lia].
Qed.

(** [next_price p] is the best level strictly worse than [p]. *)
Theorem next_price_spec p : price_ok p ->
  opt_best (si_side si)
    (fun q => price_ok q /\ has_level si q /\ better (si_side si) p q = true) (next_price si p).
Proof.
  intros Hp. rewrite next_price_merge.
  eapply opt_best_iff; [|exact (merge_best_spec _ _ _ _ _ (laddered_next_spec p Hp) (spilled_next_spec p))].
  intros q. pose proof (has_level_sets (fun q => better (si_side si) p q = true) q). cbn. tauto.
Qed.
End BestNext.

(** ** Updates: a side is a finite map of levels *)
Definition same_elsewhere (p : Price) (si si' : SideIndex) : Prop :=
  forall q, price_ok q -> q <> p -> find_level si' q = find_level si q.

(** Equality of the in-band view when only the ladder's contents or bitmap
    differ. *)
Lemma find_level_in_band si (W : si_wf si) p : price_ok p -> in_band si p = true ->
  find_level si p =
  if is_occupied si (p - si_base si)
  then (fun m => default LevelSlot_default (m !! (p - si_base si))) <$> si_ladder si else None.
Proof.
  intros Hp Hin. unfold find_level. rewrite Hin.
  destruct (tick_of_eq si W p Hp Hin) as [-> Hr].
  pose proof Hin as [Ha _]%in_band_iff; [|done|done].
  destruct (ladder_cell_Some si W _ Ha Hr) as (m & -> & ->). reflexivity.
Qed.

Lemma is_occupied_false si t : 0 <= t -> is_occupied si t = false <-> ~ occupied si t.
Proof. intros Ht. rewrite <- (is_occupied_true si t Ht). by destruct (is_occupied si t). Qed.

Lemma is_occupied_ext si si' t u : 0 <= t -> 0 <= u ->
  (occupied si' u <-> occupied si t) -> is_occupied si' u = is_occupied si t.
Proof.
  intros Ht Hu Hiff. apply eq_true_iff_eq. by rewrite !is_occupied_true.
Qed.

Section InBandUpdates.
Context (si : SideIndex) (W : si_wf si) (p : Price) (Hp : price_ok p) (Hin : in_band si p = true).

Lemma in_band_facts : si_anchored si = true /\ 0 <= p - si_base si < si_band_ticks si /\
  tick_of si p = p - si_base si.
Proof.
  destruct (tick_of_eq si W p Hp Hin) as [Ht Hr]. rewrite Ht in Hr.
  pose proof Hin as [Ha _]%in_band_iff; done.
Qed.

(** Replacing the bitmap by one that differs at most at [p]'s tick keeps
    the side well formed. *)
Lemma rebuild_wf si' :
  si_band_ticks si' = si_band_ticks si -> si_base si' = si_base si ->
  si_anchored si' = si_anchored si -> si_overflow si' = si_overflow si ->
  is_Some (si_ladder si') -> bitmap_wf si' ->
  (forall t, occupied si' t -> occupied si t \/ t = p - si_base si) -> si_wf si'.
Proof.
  intros Hb Hbase Ha Hov Hl Hbw Hocc. destruct in_band_facts as (Hanch & Hr & _).
  destruct (anchored_inv si W Hanch) as (_ & _ & Hbr).
  constructor.
  - rewrite Hb. apply (sw_band _ W).
  - rewrite Ha, Hanch, Hbase. done.
  - rewrite Hbase. intros t _ [Ht| ->]%Hocc; [by apply (sw_occ _ W)|].
    by replace (si_base si + (p - si_base si)) with p by lia.
  - rewrite Hov. intros q Hq. destruct (sw_over _ W q Hq) as [Hq1 Hq2]. split; [done|].
    revert Hq2. unfold in_band. by rewrite Ha, Hb, Hbase.
Qed.

Lemma store_cell_spec lv : exists si', store_cell si (p - si_base si) lv = Some si' /\ si_wf si' /\
  (is_occupied si (p - si_base si) = true -> find_level si' p = Some lv) /\
  same_elsewhere p si si' /\ si_side si' = si_side si /\ si_band_ticks si' = si_band_ticks si.
Proof.
  destruct in_band_facts as (Ha & Hr & _).
  destruct (ladder_cell_Some si W _ Ha Hr) as (m & Hm & _).
  unfold store_cell. rewrite Hm. cbn [mbind option_bind].
  rewrite (proj2 (Z.leb_le _ _)), (proj2 (Z.ltb_lt _ _)) by lia. cbn [andb].
  eexists. split; [reflexivity|].
  assert (W' : si_wf (si_with_ladder si (Some (<[p - si_base si:=lv]> m)))).
  { apply rebuild_wf; try done; [destruct (anchored_inv si W Ha) as ([] & _); by constructor|].
    intros t Ht. by left. }
  split; [done|]. split; [|split; [|done]].
  - intros Ho. rewrite find_level_in_band by done.
    change (is_occupied (si_with_ladder _ _)) with (is_occupied si). cbn.
    by rewrite Ho, lookup_insert_eq.
  - intros q Hq Hne. destruct (in_band si q) eqn:Hinq.
    + rewrite !find_level_in_band by done. cbn [si_with_ladder si_base si_ladder].
      change (is_occupied (si_with_ladder _ _)) with (is_occupied si).
      rewrite Hm. cbn. by rewrite lookup_insert_ne by lia.
    + unfold find_level. change (in_band (si_with_ladder _ _)) with (in_band si). by rewrite Hinq.
Qed.

Lemma bitmap_update_elsewhere si' :
  si_wf si' -> si_band_ticks si' = si_band_ticks si -> si_base si' = si_base si ->
  si_anchored si' = si_anchored si -> si_overflow si' = si_overflow si -> si_ladder si' = si_ladder si ->
  (forall t, t <> p - si_base si -> occupied si' t <-> occupied si t) -> same_elsewhere p si si'.
Proof.
  intros W' Hb Hbase Ha Hov Hl Hocc q Hq Hne.
  assert (Hib : in_band si' q = in_band si q) by (unfold in_band; by rewrite Ha, Hb, Hbase).
  destruct (in_band si q) eqn:Hinq.
  - rewrite !find_level_in_band by done. rewrite Hbase, Hl.
    destruct (tick_of_eq si W q Hq Hinq) as [Ht Hr]. rewrite Ht in Hr.
    rewrite (is_occupied_ext si si' (q - si_base si)) by (done || lia || (apply Hocc; lia)). done.
  - unfold find_level. by rewrite Hib, Hinq, Hov.
Qed.

Lemma set_occupied_side : si_wf (set_occupied si (p - si_base si)) /\
  same_elsewhere p si (set_occupied si (p - si_base si)) /\
  is_occupied (set_occupied si (p - si_base si)) (p - si_base si) = true.
Proof.
  destruct in_band_facts as (Ha & Hr & _). destruct (anchored_inv si W Ha) as (Wb & Hl & _).
  assert (Hocc := set_occupied_occupied si Wb _ Hr).
  assert (W' : si_wf (set_occupied si (p - si_base si))).
  { apply rebuild_wf; try done; [by apply set_occupied_wf|]. intros t Ht%Hocc. tauto. }
  split; [done|]. split.
  - apply bitmap_update_elsewhere; try done. intros t Hne. rewrite Hocc. tauto.
  - apply is_occupied_true; [lia|]. apply Hocc. by left.
Qed.

Lemma clear_occupied_side : let si' := clear_occupied si (p - si_base si) in
  si_wf si' /\ same_elsewhere p si si' /\ find_level si' p = None /\ si_side si' = si_side si /\
  si_band_ticks si' = si_band_ticks si.
Proof.
  intros si'. destruct in_band_facts as (Ha & Hr & _). destruct (anchored_inv si W Ha) as (Wb & Hl & _).
  assert (Hocc := clear_occupied_occupied si Wb _ Hr). fold si' in Hocc.
  assert (Hf : si_band_ticks si' = si_band_ticks si /\ si_base si' = si_base si /\
    si_anchored si' = si_anchored si /\ si_overflow si' = si_overflow si /\
    si_ladder si' = si_ladder si /\ si_side si' = si_side si).
  { subst si'. unfold clear_occupied. destruct (negb _); [done|]. by destruct (_ =? 0). }
  destruct Hf as (F1 & F2 & F3 & F4 & F5 & F6).
  assert (W' : si_wf si').
  { apply rebuild_wf; try done; [by rewrite F5|by apply clear_occupied_wf|]. intros t Ht%Hocc. tauto. }
  split; [done|]. split; [|split; [|done]].
  - apply bitmap_update_elsewhere; try done. intros t Hne. rewrite Hocc. tauto.
  - rewrite find_level_in_band; [|done|done|].
    + rewrite F2. replace (is_occupied si' (p - si_base si)) with false; [done|].
      symmetry. apply is_occupied_false; [lia|]. rewrite Hocc. tauto.
    + unfold in_band. rewrite F1, F2, F3. exact Hin.
Qed.
End InBandUpdates.

Section OverflowUpdates.
Context (si : SideIndex) (W : si_wf si) (p : Price) (Hp : price_ok p) (Hout : in_band si p = false).

Lemma overflow_update_wf m : (si_anchored si = false -> si_band_ticks si = 0 \/ m = ∅) ->
  (forall q, is_Some (m !! q) -> q = p \/ is_Some (si_overflow si !! q)) ->
  si_wf (si_with_overflow si m).
Proof.
  intros Hna Hm. destruct W as [B1 B2 B3 B4]. constructor; cbn; try done.
  - destruct (si_anchored si); [|naive_solver].
    destruct B2 as (? & [] & ?). split; [done|]. split; [by constructor|done].
  - intros q [->|Hq]%Hm; [done|by apply B4].
Qed.

Lemma overflow_insert lv : (si_anchored si = false -> si_band_ticks si = 0) ->
  let si' := si_with_overflow si (<[p := lv]> (si_overflow si)) in
  si_wf si' /\ find_level si' p = Some lv /\ same_elsewhere p si si'.
Proof.
  intros Hna si'. split; [|split].
  - apply overflow_update_wf; [by intros ?%Hna; left|].
    intros q. rewrite lookup_insert. case_decide; [by left|by right].
  - unfold find_level. change (in_band si') with (in_band si). rewrite Hout. apply lookup_insert_eq.
  - intros q Hq Hne. unfold find_level. change (in_band si') with (in_band si).
    destruct (in_band si q); [done|]. by apply lookup_insert_ne.
Qed.

Lemma overflow_delete :
  let si' := si_with_overflow si (delete p (si_overflow si)) in
  si_wf si' /\ find_level si' p = None /\ same_elsewhere p si si'.
Proof.
  intros si'. split; [|split].
  - apply overflow_update_wf.
    + intros Ha. pose proof (sw_ladder _ W) as H. rewrite Ha in H.
      destruct H as (_ & _ & [H|H]); [by left|right]. rewrite H. apply delete_empty.
    + intros q. rewrite lookup_delete. case_decide; [by intros [? ?]|by right].
  - unfold find_level. change (in_band si') with (in_band si). rewrite Hout. apply lookup_delete_eq.
  - intros q Hq Hne. unfold find_level. change (in_band si') with (in_band si).
    destruct (in_band si q); [done|]. by apply lookup_delete_ne.
Qed.
End OverflowUpdates.

(** ** The operations as updates of the finite map *)
Section MapSpecs.
Context (si : SideIndex) (W : si_wf si) (p : Price) (Hp : price_ok p).

Lemma level_at_spec lv : find_level si p = Some lv -> level_at si p = Some lv.
Proof.
  unfold find_level, level_at. destruct (in_band si p); [|done]. by destruct (is_occupied _ _).
Qed.

Theorem erase_level_spec :
  si_wf (erase_level si p) /\ find_level (erase_level si p) p = None /\
  same_elsewhere p si (erase_level si p) /\ si_side (erase_level si p) = si_side si /\
  si_band_ticks (erase_level si p) = si_band_ticks si.
Proof.
  unfold erase_level. destruct (in_band si p) eqn:Hin.
  - destruct (in_band_facts si W p Hp Hin) as (_ & _ & ->).
    destruct (clear_occupied_side si W p Hp Hin) as (H1 & H2 & H3 & H4 & H5). done.
  - destruct (overflow_delete si W p Hp Hin) as (H1 & H2 & H3). done.
Qed.

Theorem set_level_spec old lv : find_level si p = Some old ->
  exists si', set_level si p lv = Some si' /\ si_wf si' /\ find_level si' p = Some lv /\
    same_elsewhere p si si' /\ si_side si' = si_side si /\ si_band_ticks si' = si_band_ticks si.
Proof.
  intros Hf. unfold set_level. destruct (in_band si p) eqn:Hin.
  - destruct (in_band_facts si W p Hp Hin) as (_ & _ & Ht). rewrite Ht.
    destruct (store_cell_spec si W p Hp Hin lv) as (si' & -> & H1 & H2 & H3 & H4 & H5).
    exists si'. split; [done|]. split; [done|]. split; [|done]. apply H2.
    unfold find_level in Hf. rewrite Hin, Ht in Hf. by destruct (is_occupied _ _).
  - unfold find_level in Hf. rewrite Hin in Hf. rewrite Hf.
    eexists. split; [reflexivity|].
    destruct (overflow_insert si W p Hp Hin lv) as (H1 & H2 & H3); [|done].
    intros Ha. pose proof (sw_ladder _ W) as H. rewrite Ha in H.
    destruct H as (_ & _ & [H|H]); [done|]. by rewrite H in Hf.
Qed.

Definition maybe_anchor : SideIndex :=
  if negb (si_band_ticks si =? 0) && (negb (si_anchored si) || si_empty si) then anchor si p else si.

(** Re-anchoring happens only on an empty side, so it moves no level. *)
Lemma maybe_anchor_spec :
  si_wf maybe_anchor /\ (forall q, price_ok q -> find_level maybe_anchor q = find_level si q) /\
  (si_anchored maybe_anchor = false -> si_band_ticks si = 0) /\
  si_side maybe_anchor = si_side si /\ si_band_ticks maybe_anchor = si_band_ticks si.
Proof.
  unfold maybe_anchor. pose proof (sw_band _ W) as Hband. unfold kMaxBandTicks in Hband.
  destruct (Z.eqb_spec (si_band_ticks si) 0) as [Hb|Hb]; cbn [negb andb]; [done|].
  destruct (negb (si_anchored si) || si_empty si) eqn:E; [|].
  2: { apply orb_false_iff in E as [Ha%negb_false_iff _]. by rewrite Ha. }
  assert (Hno : forall q, price_ok q -> ~ has_level si q).
  { apply orb_true_iff in E as [Ha%negb_true_iff|He]; [|by apply si_empty_true].
    intros q Hq Hl. pose proof (sw_ladder _ W) as H. rewrite Ha in H.
    destruct H as (_ & _ & [?|Ho]); [done|].
    apply ladder_split in Hl as [[? _]|Hl]; [congruence| |done|done].
    rewrite Ho in Hl. destruct Hl as [v Hv]. by rewrite lookup_empty in Hv. }
  assert (Hov : si_overflow si = ∅).
  { apply map_eq. intros q. rewrite lookup_empty. apply eq_None_not_Some. intros Hq.
    apply (Hno q); [by apply (sw_over _ W)|by apply has_level_overflow]. }
  unfold price_ok, kMaxBandTicks in Hp.
  assert (Hbw : is_Some (si_ladder (anchor si p)) /\ bitmap_wf (anchor si p) /\ forall t, ~ occupied (anchor si p) t).
  { destruct (si_anchored si) eqn:Ha.
    - destruct (anchored_inv si W Ha) as ([] & [m Hm] & _). unfold anchor. rewrite Hm.
      split; [by eexists|]. split; [by constructor|].
      intros t Ht. apply (Hno (si_base si + t)); [by apply (sw_occ _ W)|by apply has_level_occupied].
    - pose proof (sw_ladder _ W) as H. rewrite Ha in H. destruct H as (Hl & Hs & _).
      split; [unfold anchor; rewrite Hl; by eexists|]. apply anchor_fresh_wf; try done. unfold band_ok. lia. }
  destruct Hbw as (Hl & Hbw & Hnocc).
  assert (W' : si_wf (anchor si p)).
  { constructor; [exact Hband| | |].
    - cbn [anchor si_anchored]. split; [done|]. split; [done|]. cbn.
      assert (0 <= si_band_ticks si / 2 <= 4096)
        by (split; [apply Z.div_pos; lia|apply Z.div_le_upper_bound; lia]).
      unfold kMaxBandTicks. rewrite s64_small by lia. lia.
    - intros t _ Ht. by destruct (Hnocc t).
    - intros q [v Hv]. cbn in Hv. by rewrite Hov, lookup_empty in Hv. }
  split; [done|]. split; [|done].
  intros q Hq. transitivity (@None LevelSlot).
  - apply eq_None_not_Some. intros Hx. destruct (ladder_split _ W' q Hq Hx) as [[_ Hx2]|Hx2].
    + by apply Hnocc in Hx2.
    + cbn in Hx2. rewrite Hov in Hx2. destruct Hx2 as [v Hv]. by rewrite lookup_empty in Hv.
  - symmetry. apply eq_None_not_Some. by apply Hno.
Qed.

Theorem level_for_spec :
  exists si', level_for si p = Some (si', default LevelSlot_default (find_level si p)) /\ si_wf si' /\
    find_level si' p = Some (default LevelSlot_default (find_level si p)) /\
    same_elsewhere p si si' /\ si_side si' = si_side si /\ si_band_ticks si' = si_band_ticks si.
Proof.
  unfold level_for. fold maybe_anchor.
  destruct maybe_anchor_spec as (W' & Hsame & Hna & Hside & Hbt).
  rewrite <- (Hsame p Hp), <- Hside, <- Hbt.
  assert (Hgo : forall si', same_elsewhere p maybe_anchor si' -> same_elsewhere p si si').
  { intros si' H q Hq Hne. rewrite <- Hsame by done. by apply H. }
  destruct (in_band maybe_anchor p) eqn:Hin; cbn [negb]; cycle 1.
  - unfold find_level. rewrite Hin. destruct (si_overflow maybe_anchor !! p) as [lv|] eqn:Ho.
    + exists maybe_anchor. split; [done|]. split; [done|]. split; [by rewrite Hin|]. split; [|done].
      apply Hgo. by intros q _ _.
    + destruct (overflow_insert maybe_anchor W' p Hp Hin LevelSlot_default) as (H1 & H2 & H3).
      { intros ?%Hna. congruence. }
      eexists. split; [reflexivity|]. split; [done|]. split; [exact H2|]. split; [by apply Hgo|done].
  - destruct (in_band_facts maybe_anchor W' p Hp Hin) as (Ha & Hr & Ht). rewrite Ht.
    destruct (ladder_cell_Some maybe_anchor W' _ Ha Hr) as (m & Hm & Hc).
    assert (Hfl : find_level maybe_anchor p = if is_occupied maybe_anchor (p - si_base maybe_anchor)
      then ladder_cell maybe_anchor (p - si_base maybe_anchor) else None).
    { unfold find_level. by rewrite Hin, Ht. }
    destruct (is_occupied maybe_anchor (p - si_base maybe_anchor)) eqn:Ho; cbn [negb].
    + cbn [mbind option_bind]. rewrite Hfl, Hc. cbn. exists maybe_anchor. split; [done|]. split; [done|].
      split; [by rewrite Hfl|]. split; [|done]. apply Hgo. by intros q _ _.
    + destruct (set_occupied_side maybe_anchor W' p Hp Hin) as (W2 & Hse & Ho2).
      destruct (store_cell_spec _ W2 p Hp Hin LevelSlot_default) as (si' & Hst & W3 & Hf & Hse2 & Hs & Hb).
      change (si_base (set_occupied _ _)) with (si_base maybe_anchor) in Hst, Hf.
      rewrite Hst. cbn [mbind option_bind].
      exists si'. rewrite (Hf Ho2), Hfl.
      assert (Hlc : ladder_cell si' (p - si_base maybe_anchor) = Some LevelSlot_default).
      { unfold store_cell in Hst. change (si_ladder (set_occupied _ _)) with (si_ladder maybe_anchor) in Hst.
        change (si_band_ticks (set_occupied _ _)) with (si_band_ticks maybe_anchor) in Hst.
        rewrite Hm in Hst. cbn in Hst. rewrite (proj2 (Z.leb_le _ _)), (proj2 (Z.ltb_lt _ _)) in Hst by lia.
        injection Hst as <-. unfold ladder_cell. cbn.
        rewrite (proj2 (Z.leb_le _ _)), (proj2 (Z.ltb_lt _ _)) by lia. cbn. by rewrite lookup_insert_eq. }
      rewrite Hlc. cbn. split; [done|]. split; [done|]. split; [done|]. split; [|done].
      apply Hgo. intros q Hq Hne. rewrite Hse2 by done. by apply Hse.
Qed.
End MapSpecs.
