(* ===== verification/PriceQueues.v ===== *)
(** * Price-ordered queues: the abstract side of a book

    The specification the book is proved against.  One side of a book is a
    list of entries (a handle and its order) in price-time priority: better
    prices first, and arrival order within a price.  A finite map from price
    to a FIFO of slots, listed by best price first, is such a list; this
    file relates updates of the map to updates of the list. *)
From S2P Require Import Prelude Types.

(** ** Sorted keys of a map of queues *)
Definition prio_rel (s : Side) (p q : Price) : Prop := better_eq s p q = true.
#[export] Instance prio_rel_dec s p q : Decision (prio_rel s p q).
Proof. unfold prio_rel. apply _. Defined.
#[export] Instance prio_rel_total s : Total (prio_rel s).
Proof. intros p q. unfold prio_rel. destruct s; cbn; lia. Qed.
#[export] Instance prio_rel_trans s : Transitive (prio_rel s).
Proof. intros p q r. unfold prio_rel. apply better_eq_trans. Qed.
#[export] Instance prio_rel_antisym s : AntiSymm (=) (prio_rel s).
Proof. intros p q. unfold prio_rel. destruct s; cbn; lia. Qed.

Section Queues.
Context {A : Type} (s : Side).
Implicit Types (m : gmap Z (list A)) (ks : list Z).

Definition sorted_keys (m : gmap Z (list A)) : list Z :=
  merge_sort (prio_rel s) (map_to_list m).*1.
Definition queue_at (m : gmap Z (list A)) (p : Price) : list A := default [] (m !! p).
Definition flatten_keys (m : gmap Z (list A)) (ks : list Z) : list A := mjoin (queue_at m <$> ks).
Definition queue_list (m : gmap Z (list A)) : list A := flatten_keys m (sorted_keys m).

Lemma elem_of_sorted_keys m p : p ∈ sorted_keys m <-> is_Some (m !! p).
Proof.
  unfold sorted_keys. rewrite merge_sort_Permutation, list_elem_of_fmap. split.
  - intros ([k v] & -> & Hin). apply elem_of_map_to_list in Hin. eauto.
  - intros [v Hv]. exists (p, v). split; [done|]. by apply elem_of_map_to_list.
Qed.
Lemma sorted_keys_sorted m : StronglySorted (prio_rel s) (sorted_keys m).
Proof. apply (StronglySorted_merge_sort _). Qed.
Lemma sorted_keys_NoDup m : NoDup (sorted_keys m).
Proof. unfold sorted_keys. rewrite merge_sort_Permutation. apply NoDup_fst_map_to_list. Qed.

(** A sorted duplicate-free list of the same keys is the same list. *)
Lemma sorted_keys_unique m ks :
  StronglySorted (prio_rel s) ks -> NoDup ks -> (forall p, p ∈ ks <-> is_Some (m !! p)) ->
  sorted_keys m = ks.
Proof.
  intros Hs Hn Hin. apply (StronglySorted_unique (prio_rel s)).
  - apply sorted_keys_sorted.
  - done.
  - apply NoDup_Permutation; [apply sorted_keys_NoDup|done|].
    intros p. by rewrite elem_of_sorted_keys, Hin.
Qed.

(** Splitting the sorted keys around a price. *)
Lemma split_keys ks p : StronglySorted (prio_rel s) ks ->
  exists k1 k2, ks = k1 ++ k2 /\ (forall q, q ∈ k1 -> better s q p = true) /\
                (forall q, q ∈ k2 -> better_eq s p q = true).
Proof.
  induction 1 as [|q ks Hs (k1 & k2 & -> & H1 & H2) Hall].
  - exists [], []. set_solver.
  - destruct (better s q p) eqn:E.
    + exists (q :: k1), k2. split; [done|]. set_solver.
    + exists [], (q :: k1 ++ k2). split; [done|]. split; [set_solver|].
      assert (Hq : better_eq s p q = true) by (destruct s; cbn in *; lia).
      intros r [->|Hr]%elem_of_cons; [done|].
      rewrite Forall_forall in Hall. eapply better_eq_trans; [done|]. by apply Hall.
Qed.

Lemma StronglySorted_app_l (R : Z -> Z -> Prop) k1 k2 : StronglySorted R (k1 ++ k2) ->
  StronglySorted R k1 /\ StronglySorted R k2 /\ (forall a b, a ∈ k1 -> b ∈ k2 -> R a b).
Proof.
  induction k1 as [|a k1 IH]; cbn; [intros; repeat split; [constructor|done|set_solver]|].
  inversion 1 as [|? ? Hs Hall]; subst. destruct (IH Hs) as (H1 & H2 & H3).
  apply Forall_app in Hall as [Ha1 Ha2]. rewrite Forall_forall in Ha2. split; [by constructor|].
  split; [done|]. intros x b [->|Hx]%elem_of_cons Hb; [by apply Ha2|by apply H3].
Qed.
Lemma StronglySorted_app_r (R : Z -> Z -> Prop) k1 k2 :
  StronglySorted R k1 -> StronglySorted R k2 -> (forall a b, a ∈ k1 -> b ∈ k2 -> R a b) ->
  StronglySorted R (k1 ++ k2).
Proof.
  induction 1 as [|a k1 Hs IH Hall]; cbn; [done|]. intros H2 H3. constructor.
  - apply IH; set_solver.
  - apply Forall_app. split; [done|]. apply Forall_forall. set_solver.
Qed.

Lemma flatten_keys_app m k1 k2 : flatten_keys m (k1 ++ k2) = flatten_keys m k1 ++ flatten_keys m k2.
Proof. unfold flatten_keys. by rewrite fmap_app, join_app. Qed.
Lemma flatten_keys_cons m p ks : flatten_keys m (p :: ks) = queue_at m p ++ flatten_keys m ks.
Proof. done. Qed.
Lemma flatten_keys_ext m m' ks : (forall p, p ∈ ks -> m' !! p = m !! p) ->
  flatten_keys m' ks = flatten_keys m ks.
Proof.
  intros H. unfold flatten_keys. f_equal. apply list_fmap_ext. intros i p Hi.
  unfold queue_at. rewrite H; [done|]. by eapply list_elem_of_lookup_2.
Qed.
Lemma elem_of_flatten_keys m ks x : x ∈ flatten_keys m ks <-> exists p, p ∈ ks /\ x ∈ queue_at m p.
Proof.
  unfold flatten_keys. rewrite list_elem_of_join. setoid_rewrite list_elem_of_fmap. naive_solver.
Qed.
Lemma elem_of_queue_list m x : x ∈ queue_list m <-> exists p q, m !! p = Some q /\ x ∈ q.
Proof.
  unfold queue_list. rewrite elem_of_flatten_keys. setoid_rewrite elem_of_sorted_keys.
  unfold queue_at, is_Some. split.
  - intros (p & [q Hq] & Hx). rewrite Hq in Hx. eauto.
  - intros (p & q & Hq & Hx). exists p. rewrite Hq. eauto.
Qed.

(** The keys of a map around one price: those better, the price itself
    (when present), those worse. *)
Lemma around m p : exists k1 k2,
  sorted_keys m = k1 ++ (if decide (is_Some (m !! p)) then [p] else []) ++ k2 /\
  (forall q, q ∈ k1 -> better s q p = true) /\ (forall q, q ∈ k2 -> better s p q = true).
Proof.
  destruct (split_keys (sorted_keys m) p (sorted_keys_sorted m)) as (k1 & k2 & Hk & H1 & H2).
  pose proof (sorted_keys_sorted m) as Hs. pose proof (sorted_keys_NoDup m) as Hn.
  rewrite Hk in Hs, Hn. apply NoDup_app in Hn as (Hn1 & Hn12 & Hn2).
  destruct (StronglySorted_app_l _ _ _ Hs) as (_ & Hs2 & _).
  assert (Hp1 : p ∉ k1) by (intros Hp%H1; destruct s; cbn in Hp; lia).
  case_decide as Hd.
  - assert (Hp : p ∈ k2).
    { apply elem_of_sorted_keys in Hd. rewrite Hk in Hd. set_solver. }
    destruct k2 as [|q k2]; [set_solver|].
    assert (q = p) as ->.
    { apply elem_of_cons in Hp as [->|Hp]; [done|].
      inversion Hs2 as [|? ? _ Hall]; subst. rewrite Forall_forall in Hall.
      pose proof (Hall p Hp) as Hqp. pose proof (H2 q ltac:(set_solver)) as Hpq.
      unfold prio_rel in Hqp. destruct s; cbn in *; lia. }
    exists k1, k2. split; [done|]. split; [done|]. intros r Hr.
    apply better_better_eq. split; [set_solver|]. intros <-. inversion Hn2; subst. done.
  - exists k1, k2. split; [done|]. split; [done|]. intros r Hr.
    apply better_better_eq. split; [set_solver|]. intros <-. apply Hd, elem_of_sorted_keys. rewrite Hk. set_solver.
Qed.

(** The keys after changing the map at one price only. *)
Lemma around_update m m' p k1 k2 mid :
  sorted_keys m = k1 ++ mid ++ k2 ->
  (forall q, q ∈ k1 -> better s q p = true) -> (forall q, q ∈ k2 -> better s p q = true) ->
  (forall q, q ∈ mid -> q = p) -> (forall q, q <> p -> m' !! q = m !! q) ->
  sorted_keys m' = k1 ++ (if decide (is_Some (m' !! p)) then [p] else []) ++ k2.
Proof.
  intros Hk H1 H2 Hmid Hsame.
  pose proof (sorted_keys_sorted m) as Hs. pose proof (sorted_keys_NoDup m) as Hn. rewrite Hk in Hs, Hn.
  destruct (StronglySorted_app_l _ _ _ Hs) as (Hs1 & Hs' & Hs12).
  destruct (StronglySorted_app_l _ _ _ Hs') as (_ & Hs2 & _).
  apply NoDup_app in Hn as (Hn1 & Hn12 & Hn'). apply NoDup_app in Hn' as (_ & _ & Hn2).
  set (mid' := if decide _ then _ else _).
  assert (Hmid' : forall q, q ∈ mid' <-> q = p /\ is_Some (m' !! p)).
  { intros q. subst mid'. case_decide; set_solver. }
  assert (Hne1 : forall q, q ∈ k1 -> q <> p) by (intros q Hq%H1 ->; destruct s; cbn in Hq; lia).
  assert (Hne2 : forall q, q ∈ k2 -> q <> p) by (intros q Hq%H2 ->; destruct s; cbn in Hq; lia).
  apply sorted_keys_unique.
  - apply StronglySorted_app_r; [done| |].
    + apply StronglySorted_app_r; [subst mid'; case_decide; repeat constructor|done|].
      intros a b [-> _]%Hmid' Hb. by apply better_better_eq, H2.
    + intros a b Ha [[-> _]%Hmid'|Hb]%elem_of_app; [by apply better_better_eq, H1|].
      apply Hs12; set_solver.
  - apply NoDup_app. split; [done|]. split; [|apply NoDup_app; split; [|split; [|done]]].
    + intros q Hq1 [[-> _]%Hmid'|Hq2]%elem_of_app; [by apply (Hne1 p)|].
      apply (Hn12 q); [done|]. set_solver.
    + subst mid'. case_decide; [apply NoDup_singleton|apply NoDup_nil; done].
    + intros q [-> _]%Hmid' Hq2. by apply (Hne2 p).
  - intros q. rewrite !elem_of_app, Hmid'. destruct (Z.eq_dec q p) as [->|Hne].
    + split; [|tauto].
      intros [Hq|[[_ Hq]|Hq]]; [by destruct (Hne1 p Hq)|exact Hq|by destruct (Hne2 p Hq)].
    + rewrite (Hsame q Hne), <- (elem_of_sorted_keys m q), Hk, !elem_of_app.
      specialize (Hmid q). tauto.
Qed.

(** Everything at one price sits in one block; updating the map at that
    price only replaces the block. *)
Lemma queue_list_block m p : exists l1 l2,
  (forall m', (forall q, q <> p -> m' !! q = m !! q) -> queue_list m' = l1 ++ queue_at m' p ++ l2) /\
  (forall x, x ∈ l1 -> exists q qu, m !! q = Some qu /\ x ∈ qu /\ better s q p = true) /\
  (forall x, x ∈ l2 -> exists q qu, m !! q = Some qu /\ x ∈ qu /\ better s p q = true).
Proof.
  destruct (around m p) as (k1 & k2 & Hk & H1 & H2).
  exists (flatten_keys m k1), (flatten_keys m k2).
  assert (Hin : forall q, q ∈ k1 \/ q ∈ k2 -> q <> p).
  { intros q [Hq%H1|Hq%H2] ->; destruct s; cbn in Hq; lia. }
  split; [|split].
  - intros m' Hsame. unfold queue_list.
    rewrite (around_update m m' p k1 k2 _ Hk H1 H2); [|intros q; case_decide; set_solver|done].
    rewrite !flatten_keys_app. f_equal; [|f_equal].
    + apply flatten_keys_ext. intros q Hq. apply Hsame, Hin. auto.
    + unfold flatten_keys, queue_at. destruct (decide (is_Some (m' !! p))) as [Hd|Hd]; cbn; [by rewrite app_nil_r|].
      apply eq_None_not_Some in Hd. by rewrite Hd.
    + apply flatten_keys_ext. intros q Hq. apply Hsame, Hin. auto.
  - intros x (q & Hq & Hx)%elem_of_flatten_keys.
    assert (Hs : is_Some (m !! q)) by (apply elem_of_sorted_keys; rewrite Hk; set_solver).
    destruct Hs as [qu Hqu]. unfold queue_at in Hx. rewrite Hqu in Hx. cbn in Hx. exists q, qu. auto.
  - intros x (q & Hq & Hx)%elem_of_flatten_keys.
    assert (Hs : is_Some (m !! q)) by (apply elem_of_sorted_keys; rewrite Hk; set_solver).
    destruct Hs as [qu Hqu]. unfold queue_at in Hx. rewrite Hqu in Hx. cbn in Hx. exists q, qu. auto.
Qed.

Lemma queue_list_empty m : m = ∅ -> queue_list m = [].
Proof. intros ->. unfold queue_list, sorted_keys. by rewrite map_to_list_empty. Qed.
End Queues.

(** ** Entries in price-time priority

    An entry is a handle with the order it names. *)
Abbreviation entry := (Z * BookOrder)%type (only parsing).
Definition entry_price (e : Z * BookOrder) : Price := bo_price e.2.

(** Behind every entry whose price has at least its priority. *)
Fixpoint insert_prio (s : Side) (x : entry) (l : list entry) : list entry :=
  match l with
  | [] => [x]
  | y :: l' => if better_eq s (entry_price y) (entry_price x) then y :: insert_prio s x l' else x :: l
  end.
Definition remove_handle (h : Z) (l : list entry) : list entry := filter (fun e => e.1 <> h) l.
Definition update_handle (h : Z) (f : BookOrder -> BookOrder) (l : list entry) : list entry :=
  (fun e => if decide (e.1 = h) then (h, f e.2) else e) <$> l.

Lemma insert_prio_split s x l1 l2 :
  (forall y, y ∈ l1 -> better_eq s (entry_price y) (entry_price x) = true) ->
  (forall y, y ∈ l2 -> better s (entry_price x) (entry_price y) = true) ->
  insert_prio s x (l1 ++ l2) = l1 ++ x :: l2.
Proof.
  intros H1 H2. induction l1 as [|y l1 IH]; cbn.
  - destruct l2 as [|y l2]; [done|]. cbn. pose proof (H2 y ltac:(set_solver)) as Hy.
    replace (better_eq s (entry_price y) (entry_price x)) with false; [done|]. destruct s; cbn in *; lia.
  - rewrite H1 by set_solver. rewrite IH; [done|]. set_solver.
Qed.
Lemma insert_prio_Permutation s x l : insert_prio s x l ≡ₚ x :: l.
Proof.
  induction l as [|y l IH]; cbn; [done|]. destruct (better_eq _ _ _); [|done].
  rewrite IH. apply Permutation_swap.
Qed.
Lemma remove_handle_app h l1 l2 : remove_handle h (l1 ++ l2) = remove_handle h l1 ++ remove_handle h l2.
Proof. apply filter_app. Qed.
Lemma remove_handle_notin h l : h ∉ l.*1 -> remove_handle h l = l.
Proof.
  unfold remove_handle. induction l as [|e l IH]; [done|]. rewrite fmap_cons, not_elem_of_cons.
  intros [Hne Hh]. rewrite filter_cons_True by done. by rewrite IH.
Qed.
Lemma remove_handle_mid h o l1 l2 : NoDup (l1 ++ (h, o) :: l2).*1 ->
  remove_handle h (l1 ++ (h, o) :: l2) = l1 ++ l2.
Proof.
  rewrite fmap_app, fmap_cons. intros (_ & H1 & [H2 _]%NoDup_cons)%NoDup_app.
  rewrite remove_handle_app. unfold remove_handle at 2. rewrite filter_cons. cbn.
  rewrite decide_False by tauto. fold (remove_handle h l2).
  rewrite !remove_handle_notin; [done|done|]. intros Hin. apply (H1 h Hin). set_solver.
Qed.
Lemma update_handle_notin h f l : h ∉ l.*1 -> update_handle h f l = l.
Proof.
  intros Hh. unfold update_handle. rewrite <- (list_fmap_id l) at 2. apply list_fmap_ext.
  intros i e Hi. case_decide as He; [|done]. exfalso. apply Hh, list_elem_of_fmap.
  exists e. split; [done|]. by eapply list_elem_of_lookup_2.
Qed.
Lemma update_handle_fst h f l : (update_handle h f l).*1 = l.*1.
Proof.
  unfold update_handle. rewrite <- list_fmap_compose. apply list_fmap_ext.
  intros i e _. cbn. by case_decide.
Qed.

(** A list is in price priority: no entry is behind a strictly worse one. *)
Definition prio_sorted (s : Side) (l : list entry) : Prop :=
  StronglySorted (fun x y => better_eq s (entry_price x) (entry_price y) = true) l.

Lemma prio_sorted_insert s x l : prio_sorted s l -> prio_sorted s (insert_prio s x l).
Proof.
  unfold prio_sorted. induction 1 as [|y l Hs IH Hall]; cbn; [by repeat constructor|].
  destruct (better_eq s (entry_price y) (entry_price x)) eqn:E.
  - constructor; [done|]. rewrite insert_prio_Permutation. by constructor.
  - apply better_eq_total, better_better_eq in E as [E _].
    constructor; [by constructor|]. constructor; [done|].
    eapply Forall_impl; [done|]. intros z Hz. by eapply better_eq_trans.
Qed.
Lemma prio_sorted_remove s h l : prio_sorted s l -> prio_sorted s (remove_handle h l).
Proof.
  unfold prio_sorted, remove_handle. induction 1 as [|y l Hs IH Hall]; [constructor|].
  rewrite filter_cons. case_decide; [|done]. constructor; [done|].
  rewrite Forall_forall in *. intros z [_ Hz]%list_elem_of_filter. auto.
Qed.
Lemma prio_sorted_update s h f l : (forall o, bo_price (f o) = bo_price o) ->
  prio_sorted s l -> prio_sorted s (update_handle h f l).
Proof.
  intros Hf. unfold prio_sorted, update_handle.
  assert (Hp : forall e, entry_price (if decide (e.1 = h) then (h, f e.2) else e) = entry_price e).
  { intros [h' o]. case_decide; cbn; [apply Hf|done]. }
  induction 1 as [|y l Hs IH Hall]; cbn; [constructor|]. constructor; [done|].
  apply Forall_fmap. eapply Forall_impl; [done|]. intros z Hz. cbn. by rewrite !Hp.
Qed.
