(* ===== verification/MatchingBook.v ===== *)
(** * MatchingBook -- one instrument's order book

    include/exchange/matching/matching_book.hpp and
    src/exchange/matching/matching_book.cpp, lines 289-472: the slab of
    resting orders, the intrusive per-level queues linked by slot index, the
    free list, and every public operation.

    A handle is a slot index.  An operation returns [None] where the C++ has
    undefined behaviour: a slot past the end of the slab, a null level, a
    best price of an empty side. *)
From S2P Require Import Prelude Types Bits TickLadder SideIndex.

(** ** Data *)
Record SlabOrder := { so_order : BookOrder; so_next : Z; so_prev : Z }.

Record MatchingBook := {
  mb_slab : list SlabOrder;
  mb_live_count : Z;
  mb_slab_capacity : Z;
  mb_free_head : Z;
  mb_bids : SideIndex;
  mb_asks : SideIndex;
}.

(** The constructor; [expected_resting_orders] only reserves memory. *)
Definition MatchingBook_new (expected_resting_orders band_ticks : Z) : MatchingBook :=
  {| mb_slab := []; mb_live_count := 0; mb_slab_capacity := 0; mb_free_head := kNil;
     mb_bids := SideIndex_new Buy band_ticks; mb_asks := SideIndex_new Sell band_ticks |}.

Definition side_of (bk : MatchingBook) (s : Side) : SideIndex :=
  match s with Buy => mb_bids bk | Sell => mb_asks bk end.

(** Stores to one member. *)
Definition mb_with_slab (bk : MatchingBook) (sl : list SlabOrder) : MatchingBook :=
  {| mb_slab := sl; mb_live_count := mb_live_count bk; mb_slab_capacity := mb_slab_capacity bk;
     mb_free_head := mb_free_head bk; mb_bids := mb_bids bk; mb_asks := mb_asks bk |}.
Definition mb_with_free (bk : MatchingBook) (f : Z) : MatchingBook :=
  {| mb_slab := mb_slab bk; mb_live_count := mb_live_count bk; mb_slab_capacity := mb_slab_capacity bk;
     mb_free_head := f; mb_bids := mb_bids bk; mb_asks := mb_asks bk |}.
Definition mb_with_live (bk : MatchingBook) (n : Z) : MatchingBook :=
  {| mb_slab := mb_slab bk; mb_live_count := n; mb_slab_capacity := mb_slab_capacity bk;
     mb_free_head := mb_free_head bk; mb_bids := mb_bids bk; mb_asks := mb_asks bk |}.
Definition mb_with_side (bk : MatchingBook) (s : Side) (si : SideIndex) : MatchingBook :=
  {| mb_slab := mb_slab bk; mb_live_count := mb_live_count bk; mb_slab_capacity := mb_slab_capacity bk;
     mb_free_head := mb_free_head bk;
     mb_bids := match s with Buy => si | Sell => mb_bids bk end;
     mb_asks := match s with Buy => mb_asks bk | Sell => si end |}.

(** [slab_[slot]] as an lvalue. *)
Definition slab_at (sl : list SlabOrder) (slot : Z) : option SlabOrder := sl !! Z.to_nat slot.
Definition slab_store (sl : list SlabOrder) (slot : Z) (f : SlabOrder -> SlabOrder) : option (list SlabOrder) :=
  let* so := slab_at sl slot in Some (<[Z.to_nat slot := f so]> sl).
Definition so_set_next (n : Z) (so : SlabOrder) : SlabOrder :=
  {| so_order := so_order so; so_next := n; so_prev := so_prev so |}.
Definition so_set_prev (p : Z) (so : SlabOrder) : SlabOrder :=
  {| so_order := so_order so; so_next := so_next so; so_prev := p |}.
Definition so_set_order (o : BookOrder) (so : SlabOrder) : SlabOrder :=
  {| so_order := o; so_next := so_next so; so_prev := so_prev so |}.

(** ** Slots *)
Definition acquire_slot (bk : MatchingBook) (order : BookOrder) : option (Z * MatchingBook) :=
  if negb (mb_free_head bk =? kNil) then
    let slot := mb_free_head bk in
    let* so := slab_at (mb_slab bk) slot in
    let bk := mb_with_free bk (so_next so) in
    let* sl := slab_store (mb_slab bk) slot (so_set_order order) in
    Some (slot, mb_with_slab bk sl)
  else
    let sl := mb_slab bk ++ [{| so_order := order; so_next := kNil; so_prev := kNil |}] in
    let n := Z.of_nat (length sl) in
    Some (u32 (n - 1),
      {| mb_slab := sl; mb_live_count := mb_live_count bk; mb_slab_capacity := n;
         mb_free_head := mb_free_head bk; mb_bids := mb_bids bk; mb_asks := mb_asks bk |}).

Definition release_slot (bk : MatchingBook) (slot : Z) : option MatchingBook :=
  let* sl := slab_store (mb_slab bk) slot (so_set_next (mb_free_head bk)) in
  Some (mb_with_free (mb_with_slab bk sl) slot).

(** ** Queues: the level and the slab are updated together. *)
Definition link_back (sl : list SlabOrder) (level : LevelSlot) (slot : Z)
    : option (list SlabOrder * LevelSlot) :=
  let* sl := slab_store sl slot (so_set_next kNil) in
  let* sl := slab_store sl slot (so_set_prev (ls_tail level)) in
  if ls_tail level =? kNil
  then Some (sl, {| ls_head := slot; ls_tail := slot |})
  else let* sl := slab_store sl (ls_tail level) (so_set_next slot) in
       Some (sl, {| ls_head := ls_head level; ls_tail := slot |}).

Definition unlink (sl : list SlabOrder) (level : LevelSlot) (slot : Z)
    : option (list SlabOrder * LevelSlot) :=
  let* so := slab_at sl slot in
  let next := so_next so in
  let prev := so_prev so in
  let* (sl, level) := (if prev =? kNil
                  then Some (sl, {| ls_head := next; ls_tail := ls_tail level |})
                  else let* sl := slab_store sl prev (so_set_next next) in Some (sl, level)) in
  if next =? kNil
  then Some (sl, {| ls_head := ls_head level; ls_tail := prev |})
  else let* sl := slab_store sl next (so_set_prev prev) in Some (sl, level).

(** ** Public operations *)
Definition add (bk : MatchingBook) (order : BookOrder) : option (Z * MatchingBook) :=
  let* (slot, bk) := acquire_slot bk order in
  let* (si, level) := level_for (side_of bk (bo_side order)) (bo_price order) in
  let* (sl, level) := link_back (mb_slab bk) level slot in
  let* si := set_level si (bo_price order) level in
  let bk := mb_with_side (mb_with_slab bk sl) (bo_side order) si in
  Some (slot, mb_with_live bk (u64 (mb_live_count bk + 1))).

Definition remove_at (bk : MatchingBook) (handle : Z) : option (BookOrder * MatchingBook) :=
  let* so := slab_at (mb_slab bk) handle in
  let removed := so_order so in
  let side := side_of bk (bo_side removed) in
  let* level := find_level side (bo_price removed) in
  let* (sl, level) := unlink (mb_slab bk) level handle in
  let* side := set_level side (bo_price removed) level in
  let side := if ls_head level =? kNil then erase_level side (bo_price removed) else side in
  let* bk := release_slot (mb_with_side (mb_with_slab bk sl) (bo_side removed) side) handle in
  Some (removed, mb_with_live bk (u64 (mb_live_count bk - 1))).

Definition reduce_at (bk : MatchingBook) (handle : Z) (new_remaining_quantity : Quantity) : option MatchingBook :=
  let* sl := slab_store (mb_slab bk) handle
         (fun so => so_set_order (bo_set_remaining (so_order so) new_remaining_quantity) so) in
  Some (mb_with_slab bk sl).

Definition set_client_order_id_at (bk : MatchingBook) (handle : Z) (new_client_order_id : ClientOrderId)
    : option MatchingBook :=
  let* sl := slab_store (mb_slab bk) handle
         (fun so => so_set_order (bo_set_client_order_id (so_order so) new_client_order_id) so) in
  Some (mb_with_slab bk sl).

Definition book_at (bk : MatchingBook) (handle : Z) : option BookOrder :=
  so_order <$> slab_at (mb_slab bk) handle.

(** [std::optional<Price>]: [Some None] is [nullopt]. *)
Definition best_bid_price (bk : MatchingBook) : option (option Price) :=
  if si_empty (mb_bids bk) then Some None else Some <$> best_price (mb_bids bk).
Definition best_ask_price (bk : MatchingBook) : option (option Price) :=
  if si_empty (mb_asks bk) then Some None else Some <$> best_price (mb_asks bk).

(** [Some None] is the null pointer. *)
Definition front_of_best (bk : MatchingBook) (book_side : Side) : option (option BookOrder) :=
  let side := side_of bk book_side in
  if si_empty side then Some None
  else
    let* p := best_price side in
    let* level := level_at side p in
    let* so := slab_at (mb_slab bk) (ls_head level) in
    Some (Some (so_order so)).

Definition reduce_front (bk : MatchingBook) (book_side : Side) (new_remaining_quantity : Quantity)
    : option MatchingBook :=
  let side := side_of bk book_side in
  let* p := best_price side in
  let* level := level_at side p in
  let* sl := slab_store (mb_slab bk) (ls_head level)
         (fun so => so_set_order (bo_set_remaining (so_order so) new_remaining_quantity) so) in
  Some (mb_with_slab bk sl).

Definition remove_front (bk : MatchingBook) (book_side : Side) : option MatchingBook :=
  let side := side_of bk book_side in
  let* price := best_price side in
  let* level := level_at side price in
  let head := ls_head level in
  let* (sl, level) := unlink (mb_slab bk) level head in
  let* side := set_level side price level in
  let* bk := release_slot (mb_with_side (mb_with_slab bk sl) book_side side) head in
  let bk := mb_with_live bk (u64 (mb_live_count bk - 1)) in
  if ls_head level =? kNil
  then Some (mb_with_side bk book_side (erase_level side price))
  else Some bk.

(** ** Walks.  Fuel [S (length slab)] bounds both loops: every level holds an
    order and every order is a slot of the slab. *)
Definition walk_fuel (bk : MatchingBook) : nat := S (length (mb_slab bk)).

(** The inner loop of crossable_quantity: [true] when it returned. *)
Fixpoint cross_level (fuel : nat) (sl : list SlabOrder) (slot : Z) (total quantity : Quantity)
    : option (Quantity * bool) :=
  match fuel with
  | O => None
  | S fuel =>
      if slot =? kNil then Some (total, false)
      else
        let* so := slab_at sl slot in
        let total := u64 (total + bo_remaining_quantity (so_order so)) in
        if quantity <=? total then Some (total, true)
        else cross_level fuel sl (so_next so) total quantity
  end.

Fixpoint cross_levels (fuel : nat) (bk : MatchingBook) (book_side : Side) (price : Price)
    (quantity : Quantity) (level_price : option Price) (total : Quantity) : option Quantity :=
  match fuel with
  | O => None
  | S fuel =>
      match level_price with
      | None => Some total
      | Some lp =>
          if (match book_side with Buy => lp <? price | Sell => price <? lp end) then Some total
          else
            let* level := level_at (side_of bk book_side) lp in
            match cross_level (walk_fuel bk) (mb_slab bk) (ls_head level) total quantity with
            | None => None
            | Some (total, true) => Some total
            | Some (total, false) =>
                cross_levels fuel bk book_side price quantity (next_price (side_of bk book_side) lp) total
            end
      end
  end.

Definition crossable_quantity (bk : MatchingBook) (book_side : Side) (price : Price) (quantity : Quantity)
    : option Quantity :=
  let side := side_of bk book_side in
  if si_empty side then Some 0
  else let* p := best_price side in
       cross_levels (walk_fuel bk) bk book_side price quantity (Some p) 0.

(** The slots of one level, head to tail. *)
Fixpoint walk_level (fuel : nat) (sl : list SlabOrder) (slot : Z) : option (list Z) :=
  match fuel with
  | O => None
  | S fuel =>
      if slot =? kNil then Some []
      else let* so := slab_at sl slot in
           let* rest := walk_level fuel sl (so_next so) in
           Some (slot :: rest)
  end.

Fixpoint walk_levels (fuel : nat) (bk : MatchingBook) (book_side : Side) (level_price : option Price)
    : option (list Z) :=
  match fuel with
  | O => None
  | S fuel =>
      match level_price with
      | None => Some []
      | Some lp =>
          let* level := level_at (side_of bk book_side) lp in
          let* here := walk_level (walk_fuel bk) (mb_slab bk) (ls_head level) in
          let* rest := walk_levels fuel bk book_side (next_price (side_of bk book_side) lp) in
          Some (here ++ rest)
      end
  end.

(** The slots [all_of] visits, in order, and the orders it returns. *)
Definition slots_of (bk : MatchingBook) (book_side : Side) : option (list Z) :=
  let side := side_of bk book_side in
  if si_empty side then Some []
  else let* p := best_price side in
       walk_levels (walk_fuel bk) bk book_side (Some p).

Definition all_of (bk : MatchingBook) (book_side : Side) : option (list BookOrder) :=
  let* slots := slots_of bk book_side in
  mapM (fun slot => so_order <$> slab_at (mb_slab bk) slot) slots.

Definition all_bids (bk : MatchingBook) : option (list BookOrder) := all_of bk Buy.
Definition all_asks (bk : MatchingBook) : option (list BookOrder) := all_of bk Sell.

Definition out_of_band_levels (bk : MatchingBook) : Z :=
  Z.of_nat (size (si_overflow (mb_bids bk))) + Z.of_nat (size (si_overflow (mb_asks bk))).

Definition out_of_band_orders (bk : MatchingBook) : option Z :=
  let count (si : SideIndex) : option Z := foldr (fun kv acc =>
        let* n := acc in
        let* slots := walk_level (walk_fuel bk) (mb_slab bk) (ls_head kv.2) in
        Some (n + Z.of_nat (length slots))) (Some 0) (map_to_list (si_overflow si)) in
  let* b := count (mb_bids bk) in
  let* a := count (mb_asks bk) in
  Some (b + a).

(** ** Executable examples *)
Definition ex_order (id : Z) (s : Side) (p q : Z) : BookOrder :=
  {| bo_exchange_order_id := id; bo_client_order_id := id; bo_account_id := 1; bo_price := p;
     bo_remaining_quantity := q; bo_side := s; bo_time_in_force := GTC |}.
Example ex_all_of :
  (let* b := add (MatchingBook_new 0 1024) (ex_order 1 Buy 100 5) in
   let* b := add b.2 (ex_order 2 Buy 5000 7) in
   let* b := add b.2 (ex_order 3 Buy 100 9) in
   let* r := remove_at b.2 0 in
   let* b := add r.2 (ex_order 4 Buy 101 9) in
   let* l := all_of b.2 Buy in Some (bo_exchange_order_id <$> l)) = Some [2; 4; 3].
Proof. vm_compute. reflexivity. Qed.
