(* ===== verification/BookRep.v ===== *)
(** * The slab's doubly-linked queues

    [acquire_slot], [release_slot], [link_back] and [unlink] of
    matching_book.cpp, proved against lists of slots: a queue is the list of
    its slots from head to tail, [link_back] appends and [unlink] removes
    from any position, and neither touches any other queue or any order. *)
From S2P Require Import Prelude Types Bits TickLadder SideIndex PriceQueues MatchingBook.

Implicit Types (sl : list SlabOrder).

(** ** Slab cells *)
Definition valid_slot sl (i : Z) : Prop := 0 <= i < Z.of_nat (length sl).

Lemma slab_at_valid sl i : valid_slot sl i -> exists so, slab_at sl i = Some so.
Proof. intros [H1 H2]. unfold slab_at. apply lookup_lt_is_Some. lia. Qed.
Lemma slab_at_Some_lt sl i so : 0 <= i -> slab_at sl i = Some so -> valid_slot sl i.
Proof. unfold slab_at. intros Hi H%lookup_lt_Some. split; [done|]. lia. Qed.

(** [touches D sl sl']: same length, same orders, and only the links of the
    slots in [D] may differ. *)
Record touches (D : list Z) sl sl' : Prop := {
  tc_len : length sl' = length sl;
  tc_order : forall i, 0 <= i -> so_order <$> slab_at sl' i = so_order <$> slab_at sl i;
  tc_same : forall i, 0 <= i -> i ∉ D -> slab_at sl' i = slab_at sl i;
}.

Lemma touches_refl D sl : touches D sl sl.
Proof. constructor; done. Qed.
Lemma touches_trans D sl1 sl2 sl3 : touches D sl1 sl2 -> touches D sl2 sl3 -> touches D sl1 sl3.
Proof.
  intros [A1 A2 A3] [B1 B2 B3]. constructor; [congruence| |]; intros.
  - rewrite B2 by done. by apply A2.
  - rewrite B3 by done. by apply A3.
Qed.
Lemma touches_weaken D D' sl sl' : (forall i, i ∈ D -> i ∈ D') -> touches D sl sl' -> touches D' sl sl'.
Proof. intros H [A1 A2 A3]. constructor; [done|done|]. intros i Hi Hn. apply A3; [done|]. auto. Qed.
Lemma touches_valid D sl sl' i : touches D sl sl' -> valid_slot sl i -> valid_slot sl' i.
Proof. intros [A1 _ _]. unfold valid_slot. by rewrite A1. Qed.

Lemma slab_store_spec sl i f so : 0 <= i -> slab_at sl i = Some so ->
  exists sl', slab_store sl i f = Some sl' /\ length sl' = length sl /\ slab_at sl' i = Some (f so) /\
    forall j, 0 <= j -> j <> i -> slab_at sl' j = slab_at sl j.
Proof.
  intros Hi Hs. unfold slab_store. rewrite Hs. eexists. split; [done|].
  pose proof (slab_at_Some_lt _ _ _ Hi Hs) as Hv. unfold valid_slot, slab_at in *.
  split; [apply length_insert|]. split; [apply list_lookup_insert_eq; lia|].
  intros j Hj Hne. apply list_lookup_insert_ne. lia.
Qed.

Lemma slab_store_touches sl i f so : 0 <= i -> slab_at sl i = Some so -> so_order (f so) = so_order so ->
  exists sl', slab_store sl i f = Some sl' /\ touches [i] sl sl' /\ slab_at sl' i = Some (f so).
Proof.
  intros Hi Hs Ho. destruct (slab_store_spec sl i f so Hi Hs) as (sl' & H1 & H2 & H3 & H4).
  exists sl'. split; [done|]. split; [|done]. constructor; [done| |].
  - intros j Hj. destruct (Z.eq_dec j i) as [->|Hne]; [rewrite H3, Hs; cbn; by rewrite Ho|by rewrite H4].
  - intros j Hj Hn. apply H4; [done|]. set_solver.
Qed.

(** ** Segments of a doubly-linked queue *)
Fixpoint dseg sl (prev : Z) (q : list Z) (nxt : Z) : Prop :=
  match q with
  | [] => True
  | s :: q' => 0 <= s /\ (exists so, slab_at sl s = Some so /\ so_prev so = prev /\ so_next so = List.hd nxt q') /\
               dseg sl s q' nxt
  end.
Definition lastd (d : Z) (q : list Z) : Z := List.last q d.
Definition level_of (q : list Z) : LevelSlot := {| ls_head := List.hd kNil q; ls_tail := lastd kNil q |}.

Lemma lastd_cons d x q : lastd d (x :: q) = lastd x q.
Proof.
  unfold lastd. revert x d. induction q as [|a q IH]; intros x d; [done|].
  cbn in *. destruct q; [done|apply IH].
Qed.
Lemma lastd_app d q1 q2 : lastd d (q1 ++ q2) = lastd (lastd d q1) q2.
Proof. revert d. induction q1 as [|a q1 IH]; intros d; [done|]. cbn [app]. by rewrite !lastd_cons. Qed.

Lemma dseg_app sl prev q1 q2 nxt :
  dseg sl prev (q1 ++ q2) nxt <-> dseg sl prev q1 (List.hd nxt q2) /\ dseg sl (lastd prev q1) q2 nxt.
Proof.
  revert prev. induction q1 as [|s q1 IH]; intros prev; cbn [app dseg]; [cbn; tauto|].
  rewrite IH, lastd_cons. assert (Hh : List.hd nxt (q1 ++ q2) = List.hd (List.hd nxt q2) q1) by (by destruct q1).
  rewrite Hh. tauto.
Qed.

Lemma dseg_frame sl sl' prev q nxt : (forall s, s ∈ q -> slab_at sl' s = slab_at sl s) ->
  dseg sl prev q nxt -> dseg sl' prev q nxt.
Proof.
  revert prev. induction q as [|s q IH]; intros prev Hs; cbn; [done|].
  intros (H0 & H1 & H2). split; [done|]. split; [rewrite Hs by set_solver; done|].
  apply IH; [|done]. intros x Hx. apply Hs. set_solver.
Qed.
Lemma dseg_nonneg sl prev q nxt s : dseg sl prev q nxt -> s ∈ q -> 0 <= s.
Proof. revert prev. induction q as [|a q IH]; intros prev; cbn; [set_solver|]. set_solver. Qed.
Lemma dseg_touches sl sl' D prev q nxt : touches D sl sl' -> (forall s, s ∈ q -> s ∉ D) ->
  dseg sl prev q nxt -> dseg sl' prev q nxt.
Proof.
  intros T Hd Hq. eapply dseg_frame; [|done]. intros s Hs. apply (tc_same _ _ _ T); [|auto].
  by eapply dseg_nonneg.
Qed.
Lemma dseg_valid sl prev q nxt s : dseg sl prev q nxt -> s ∈ q -> valid_slot sl s.
Proof.
  revert prev. induction q as [|a q IH]; intros prev; cbn; [set_solver|].
  intros (H0 & (so & H1 & _) & H2) [->|Hs]%elem_of_cons; [by eapply slab_at_Some_lt|by eapply IH].
Qed.

Lemma lastd_snoc d q s : lastd d (q ++ [s]) = s.
Proof. unfold lastd. apply List.last_last. Qed.
Lemma hd_snoc (d s : Z) (q : list Z) : List.hd d (q ++ [s]) = List.hd s q.
Proof. by destruct q. Qed.

(** Redirecting the last [next] and the first [prev] of a segment. *)
Lemma set_last_next sl prev q x nxt nxt' : NoDup (q ++ [x]) -> dseg sl prev (q ++ [x]) nxt ->
  exists sl', slab_store sl x (so_set_next nxt') = Some sl' /\ touches [x] sl sl' /\
    dseg sl' prev (q ++ [x]) nxt'.
Proof.
  intros Hn. rewrite dseg_app. cbn. intros [H1 (H0 & (so & Hs & Hp & Hnx) & _)].
  destruct (slab_store_touches sl x (so_set_next nxt') so H0 Hs eq_refl) as (sl' & Hst & T & Hx).
  exists sl'. split; [done|]. split; [done|]. apply dseg_app. cbn. split.
  - eapply dseg_touches; [done| |done]. apply NoDup_app in Hn as (_ & Hn & _). set_solver.
  - split; [done|]. split; [|done]. by exists (so_set_next nxt' so).
Qed.
Lemma set_first_prev sl prev prev' q x nxt : NoDup (x :: q) -> dseg sl prev (x :: q) nxt ->
  exists sl', slab_store sl x (so_set_prev prev') = Some sl' /\ touches [x] sl sl' /\
    dseg sl' prev' (x :: q) nxt.
Proof.
  intros [Hn _]%NoDup_cons. cbn. intros (H0 & (so & Hs & Hp & Hnx) & H1).
  destruct (slab_store_touches sl x (so_set_prev prev') so H0 Hs eq_refl) as (sl' & Hst & T & Hx).
  exists sl'. split; [done|]. split; [done|]. split; [done|]. split; [by exists (so_set_prev prev' so)|].
  eapply dseg_touches; [done| |done]. set_solver.
Qed.

Lemma not_nil_slot sl s : Z.of_nat (length sl) <= kNil -> valid_slot sl s -> (s =? kNil) = false.
Proof. unfold valid_slot. lia. Qed.

(** ** [link_back] appends *)
Theorem link_back_spec sl q slot : Z.of_nat (length sl) <= kNil -> valid_slot sl slot ->
  NoDup (q ++ [slot]) -> dseg sl kNil q kNil ->
  exists sl', link_back sl (level_of q) slot = Some (sl', level_of (q ++ [slot])) /\
    touches (q ++ [slot]) sl sl' /\ dseg sl' kNil (q ++ [slot]) kNil.
Proof.
  intros Hlen Hv Hn Hq. unfold link_back. destruct (slab_at_valid sl slot Hv) as [so Hso].
  pose proof Hn as (_ & Hnq & _)%NoDup_app.
  destruct (slab_store_touches sl slot (so_set_next kNil) so (proj1 Hv) Hso eq_refl) as (sl1 & -> & T1 & H1).
  destruct (slab_store_touches sl1 slot (so_set_prev (ls_tail (level_of q))) _ (proj1 Hv) H1 eq_refl)
    as (sl2 & -> & T2 & H2).
  assert (T12 : touches [slot] sl sl2) by (by eapply touches_trans).
  assert (Hq2 : dseg sl2 kNil q kNil).
  { eapply dseg_touches; [done| |done]. set_solver. }
  destruct q as [|a q0 _] using rev_ind.
  - cbn. exists sl2. split; [done|]. split; [done|].
    split; [apply Hv|]. split; [|done]. by eexists.
  - unfold level_of in *. cbn [ls_head ls_tail] in *. rewrite lastd_snoc in *.
    assert (Ha : valid_slot sl2 a) by (eapply dseg_valid; [done|set_solver]).
    rewrite (not_nil_slot sl2) by (rewrite ?(tc_len _ _ _ T12); done).
    apply NoDup_app in Hn as (Hna & _ & _).
    destruct (set_last_next sl2 kNil q0 a kNil slot Hna Hq2) as (sl3 & -> & T3 & Hq3).
    exists sl3. rewrite !lastd_snoc. split; [by destruct q0|]. split.
    + eapply touches_trans; (eapply touches_weaken; [|done]); set_solver.
    + apply dseg_app. split; [done|]. rewrite lastd_snoc. cbn. split; [apply Hv|]. split; [|done].
      exists (so_set_prev a (so_set_next kNil so)). split; [|done]. rewrite (tc_same _ _ _ T3); [exact H2|apply Hv|].
      intros ->%list_elem_of_singleton. apply (Hnq a); set_solver.
Qed.

(** ** [unlink] removes from any position *)
Theorem unlink_spec sl q1 slot q2 : Z.of_nat (length sl) <= kNil ->
  NoDup (q1 ++ slot :: q2) -> dseg sl kNil (q1 ++ slot :: q2) kNil ->
  exists sl', unlink sl (level_of (q1 ++ slot :: q2)) slot = Some (sl', level_of (q1 ++ q2)) /\
    touches (q1 ++ q2) sl sl' /\ dseg sl' kNil (q1 ++ q2) kNil.
Proof.
  intros Hlen Hn Hq. pose proof Hq as Hq0. rewrite dseg_app in Hq. cbn in Hq.
  destruct Hq as (Hq1 & Hs0 & (so & Hso & Hp & Hnx) & Hq2).
  apply NoDup_app in Hn as (Hn1 & Hn12 & [Hns Hn2]%NoDup_cons).
  assert (Hvalid : forall x, x ∈ q1 ++ slot :: q2 -> valid_slot sl x) by (intros; by eapply dseg_valid).
  unfold unlink. rewrite Hso, Hp, Hnx.
  (* first store: the predecessor's next, or the head *)
  set (nx := List.hd kNil q2).
  assert (Hstep1 : exists sl1 h, (if lastd kNil q1 =? kNil
      then Some (sl, {| ls_head := nx; ls_tail := ls_tail (level_of (q1 ++ slot :: q2)) |})
      else let* s' := slab_store sl (lastd kNil q1) (so_set_next nx) in Some (s', level_of (q1 ++ slot :: q2)))
      = Some (sl1, {| ls_head := h; ls_tail := lastd kNil (q1 ++ slot :: q2) |}) /\
      h = List.hd kNil (q1 ++ q2) /\ touches q1 sl sl1 /\ dseg sl1 kNil q1 nx /\ dseg sl1 slot q2 kNil).
  { destruct q1 as [|a q1' _] using rev_ind.
    - exists sl, nx. cbn. split; [done|]. split; [done|]. split; [apply touches_refl|done].
    - rewrite lastd_snoc in *. rewrite (not_nil_slot sl) by (done || apply Hvalid; set_solver).
      destruct (set_last_next sl kNil q1' a slot nx Hn1 Hq1) as (sl1 & -> & T & Hd).
      exists sl1, (List.hd kNil ((q1' ++ [a]) ++ slot :: q2)). split; [done|].
      split; [by destruct q1'|]. split; [eapply touches_weaken; [|done]; set_solver|]. split; [done|].
      eapply dseg_touches; [done| |done]. set_solver. }
  destruct Hstep1 as (sl1 & h & -> & -> & T1 & Hd1 & Hd2).
  (* second store: the successor's prev, or the tail *)
  cbn [ls_head ls_tail]. subst nx. destruct q2 as [|b q2']; cbn [List.hd] in *.
  - rewrite Z.eqb_refl. exists sl1. rewrite app_nil_r. unfold level_of. split; [done|]. done.
  - rewrite (not_nil_slot sl1); [|by rewrite (tc_len _ _ _ T1)|eapply dseg_valid; [exact Hd2|set_solver]].
    destruct (set_first_prev sl1 slot (lastd kNil q1) q2' b kNil Hn2 Hd2) as (sl2 & -> & T2 & Hd3).
    exists sl2. split; [|split].
    + f_equal. f_equal. unfold level_of. f_equal. by rewrite !lastd_app, !lastd_cons.
    + eapply touches_trans; (eapply touches_weaken; [|done]); set_solver.
    + apply dseg_app. split; [|done]. cbn. eapply dseg_touches; [done| |done]. set_solver.
Qed.

(** ** The book's representation invariant

    A [MatchingBook] represents a ghost state: per side a finite map from
    price to the FIFO of slots resting there, and the list of free slots.
    [rep] says that the price index, the linked queues, the free list and
    the counters all agree with it, and that every slot of the slab is either
    live in exactly one queue or free. *)

(** ** The free list *)
Fixpoint free_chain (sl : list SlabOrder) (head : Z) (fl : list Z) : Prop :=
  match fl with
  | [] => head = kNil
  | s :: fl' => head = s /\ exists so, slab_at sl s = Some so /\ free_chain sl (so_next so) fl'
  end.

Lemma free_chain_frame sl sl' head fl : (forall i, i ∈ fl -> slab_at sl' i = slab_at sl i) ->
  free_chain sl head fl -> free_chain sl' head fl.
Proof.
  revert head. induction fl as [|s fl IH]; intros head Hs; [done|]. cbn.
  intros [-> (so & Hso & Hc)]. split; [done|]. exists so. rewrite Hs by set_solver. split; [done|].
  apply IH; [|done]. intros i Hi. apply Hs. set_solver.
Qed.

(** Live slots and free slots partition the slab. *)
Record slots_ok (sl : list SlabOrder) (head : Z) (live fl : list Z) : Prop := {
  sk_perm : live ++ fl ≡ₚ seqZ 0 (Z.of_nat (length sl));
  sk_len : Z.of_nat (length sl) <= kNil;
  sk_free : free_chain sl head fl;
}.

Section Slots.
Context (sl : list SlabOrder) (head : Z) (live fl : list Z) (H : slots_ok sl head live fl).

Lemma slots_NoDup : NoDup (live ++ fl).
Proof. rewrite (sk_perm _ _ _ _ H). apply NoDup_seqZ. Qed.
Lemma live_NoDup : NoDup live.
Proof. pose proof slots_NoDup as Hn. by apply NoDup_app in Hn as (? & _). Qed.
Lemma live_not_free i : i ∈ live -> i ∉ fl.
Proof. pose proof slots_NoDup as Hn. apply NoDup_app in Hn as (_ & Hd & _). apply Hd. Qed.
Lemma slot_valid i : i ∈ live ++ fl -> valid_slot sl i.
Proof. rewrite (sk_perm _ _ _ _ H), elem_of_seqZ. unfold valid_slot. lia. Qed.
Lemma live_valid i : i ∈ live -> valid_slot sl i.
Proof. intros Hi. apply slot_valid. set_solver. Qed.
Lemma slots_count : Z.of_nat (length live) + Z.of_nat (length fl) = Z.of_nat (length sl).
Proof.
  pose proof (Permutation_length (sk_perm _ _ _ _ H)) as Hl.
  rewrite length_app, length_seqZ in Hl. lia.
Qed.

(** Permuting the live slots, or changing links of live slots only. *)
Lemma slots_ok_perm live' : live' ≡ₚ live -> slots_ok sl head live' fl.
Proof. intros Hp. destruct H. constructor; [by rewrite Hp|done|done]. Qed.
Lemma slots_ok_touches D sl' : touches D sl sl' -> (forall i, i ∈ D -> i ∈ live) ->
  slots_ok sl' head live fl.
Proof.
  intros T HD. destruct H as [A1 A2 A3]. constructor; rewrite ?(tc_len _ _ _ T); [done|done|].
  eapply free_chain_frame; [|done]. intros i Hi. apply (tc_same _ _ _ T).
  - assert (valid_slot sl i) as [? _] by (apply slot_valid; set_solver). done.
  - intros Hd%HD. by eapply live_not_free.
Qed.
End Slots.

(** ** [acquire_slot] and [release_slot] *)
Lemma acquire_slot_spec bk o live fl :
  slots_ok (mb_slab bk) (mb_free_head bk) live fl -> Z.of_nat (length live) < kNil ->
  exists slot bk' fl', acquire_slot bk o = Some (slot, bk') /\
    slots_ok (mb_slab bk') (mb_free_head bk') (slot :: live) fl' /\ slot ∉ live /\
    (forall i, i ∈ live -> slab_at (mb_slab bk') i = slab_at (mb_slab bk) i) /\
    book_at bk' slot = Some o /\ (forall s, side_of bk' s = side_of bk s) /\
    mb_live_count bk' = mb_live_count bk.
Proof.
  intros H Hlt. pose proof (slots_count _ _ _ _ H) as Hcount. pose proof (slots_NoDup _ _ _ _ H) as Hnd.
  pose proof (sk_len _ _ _ _ H) as Hlen. pose proof (sk_free _ _ _ _ H) as Hfree.
  unfold acquire_slot. destruct fl as [|slot fl].
  - cbn in Hfree. rewrite Hfree, Z.eqb_refl. cbn [negb].
    set (n := Z.of_nat (length (mb_slab bk))) in *. rewrite length_app. cbn [length].
    assert (Hn : u32 (Z.of_nat (length (mb_slab bk) + 1) - 1) = n).
    { subst n. unfold kNil in *. cbn in Hcount. rewrite u32_small by lia. lia. }
    rewrite Hn. eexists n, _, []. split; [reflexivity|]. cbn.
    assert (Hlive : forall i, i ∈ live -> 0 <= i < n) by (intros i Hi; by apply (live_valid _ _ _ _ H)).
    split; [constructor|split; [intros Hi%Hlive; lia|split; [|split]]].
    + cbn. rewrite app_nil_r. pose proof (sk_perm _ _ _ _ H) as Hp. rewrite app_nil_r in Hp.
      rewrite Hp, length_app. cbn [length]. fold n.
      replace (Z.of_nat (length (mb_slab bk) + 1)) with (n + 1) by lia.
      rewrite seqZ_app by lia. rewrite Permutation_app_comm. cbn. by rewrite Z.add_0_l.
    + cbn. rewrite length_app. cbn in *. lia.
    + done.
    + intros i Hi%Hlive. unfold slab_at. rewrite lookup_app_l by lia. done.
    + unfold book_at, slab_at. cbn. rewrite lookup_app_r by lia.
      replace (Z.to_nat n - length (mb_slab bk))%nat with 0%nat by lia. done.
    + by split; [intros []|].
  - cbn in Hfree. destruct Hfree as [Hh (so & Hso & Hchain)]. rewrite Hh.
    assert (Hv : valid_slot (mb_slab bk) slot) by (apply (slot_valid _ _ _ _ H); set_solver).
    rewrite (not_nil_slot (mb_slab bk)) by done. cbn [negb]. rewrite Hso.
    destruct (slab_store_spec (mb_slab bk) slot (so_set_order o) so (proj1 Hv) Hso) as (sl' & Hst & Hl & Hs' & Hsame).
    cbn [mb_with_free mb_slab]. rewrite Hst. eexists slot, _, fl. split; [reflexivity|]. cbn.
    apply NoDup_app in Hnd as (_ & Hd & [Hnf Hnd]%NoDup_cons).
    assert (Hpos : forall i, i ∈ live ++ slot :: fl -> 0 <= i) by (intros i Hi; by apply (slot_valid _ _ _ _ H)).
    split; [constructor|split; [intros Hi; apply (Hd slot Hi); set_solver|split; [|split]]].
    + rewrite Hl, <- (sk_perm _ _ _ _ H). by rewrite <- Permutation_middle.
    + by rewrite Hl.
    + cbn. eapply free_chain_frame; [|done]. intros i Hi. apply Hsame; [apply Hpos; set_solver|]. by intros ->.
    + intros i Hi. apply Hsame; [apply Hpos; set_solver|]. intros ->. apply (Hd slot Hi). set_solver.
    + unfold book_at. cbn. by rewrite Hs'.
    + by split; [intros []|].
Qed.

Lemma release_slot_spec bk slot live fl :
  slots_ok (mb_slab bk) (mb_free_head bk) (slot :: live) fl ->
  exists bk', release_slot bk slot = Some bk' /\
    slots_ok (mb_slab bk') (mb_free_head bk') live (slot :: fl) /\
    (forall i, i ∈ live -> slab_at (mb_slab bk') i = slab_at (mb_slab bk) i) /\
    (forall s, side_of bk' s = side_of bk s) /\ mb_live_count bk' = mb_live_count bk.
Proof.
  intros H. assert (Hv : valid_slot (mb_slab bk) slot) by (apply (live_valid _ _ _ _ H); set_solver).
  destruct (slab_at_valid _ _ Hv) as [so Hso].
  destruct (slab_store_spec (mb_slab bk) slot (so_set_next (mb_free_head bk)) so (proj1 Hv) Hso)
    as (sl' & Hst & Hl & Hs' & Hsame).
  unfold release_slot. rewrite Hst. eexists. split; [reflexivity|]. cbn.
  pose proof (slots_NoDup _ _ _ _ H) as Hnd. cbn in Hnd. apply NoDup_cons in Hnd as [Hns _].
  assert (Hpos : forall i, i ∈ live ++ fl -> 0 <= i).
  { intros i Hi. apply (slot_valid _ _ _ _ H). set_solver. }
  assert (Hne : forall i, i ∈ live ++ fl -> slab_at sl' i = slab_at (mb_slab bk) i).
  { intros i Hi. apply Hsame; [auto|]. by intros ->. }
  split; [constructor|split; [|by split; [intros []|]]].
  - rewrite Hl, <- (sk_perm _ _ _ _ H). cbn. by rewrite <- Permutation_middle.
  - rewrite Hl. apply (sk_len _ _ _ _ H).
  - cbn. split; [done|]. eexists. split; [done|]. cbn.
    eapply free_chain_frame; [|apply (sk_free _ _ _ _ H)]. intros i Hi. apply Hne. set_solver.
  - intros i Hi. apply Hne. set_solver.
Qed.

(** ** Queues of one side *)
Definition put_queue (m : gmap Z (list Z)) (p : Price) (q : list Z) : gmap Z (list Z) :=
  match q with [] => delete p m | _ => <[p := q]> m end.
Lemma put_queue_ne m p q r : r <> p -> put_queue m p q !! r = m !! r.
Proof. intros Hne. destruct q; cbn; [by apply lookup_delete_ne|by apply lookup_insert_ne]. Qed.
Lemma put_queue_eq m p q : put_queue m p q !! p = match q with [] => None | _ => Some q end.
Proof. destruct q; cbn; [apply lookup_delete_eq|apply lookup_insert_eq]. Qed.
Lemma queue_at_put m p q : queue_at (put_queue m p q) p = q.
Proof. unfold queue_at. rewrite put_queue_eq. by destruct q. Qed.

(** The queue at one price: linked through the slab, holding orders of that
    side and price. *)
Definition queue_ok (sl : list SlabOrder) (s : Side) (p : Price) (q : list Z) : Prop :=
  price_ok p /\ dseg sl kNil q kNil /\
  forall i, i ∈ q -> exists so, slab_at sl i = Some so /\ bo_side (so_order so) = s /\ bo_price (so_order so) = p.
Definition queues_ok (sl : list SlabOrder) (s : Side) (m : gmap Z (list Z)) : Prop :=
  forall p q, m !! p = Some q -> q <> [] /\ queue_ok sl s p q.

Lemma queue_ok_frame sl sl' s p q : (forall i, i ∈ q -> slab_at sl' i = slab_at sl i) ->
  queue_ok sl s p q -> queue_ok sl' s p q.
Proof.
  intros Hs (Hp & Hd & Ho). split; [done|]. split; [by eapply dseg_frame|].
  intros i Hi. rewrite Hs by done. by apply Ho.
Qed.

Lemma queues_ok_frame sl sl' s m : (forall i, i ∈ queue_list s m -> slab_at sl' i = slab_at sl i) ->
  queues_ok sl s m -> queues_ok sl' s m.
Proof.
  intros Hs Hm p q Hq. destruct (Hm p q Hq) as [Hne Hok]. split; [done|].
  eapply queue_ok_frame; [|done]. intros i Hi. apply Hs, elem_of_queue_list. eauto.
Qed.

(** [queue_list] around the queue at [p], as one equation per map. *)
Lemma queue_list_put s m p : exists l1 l2, queue_list s m = l1 ++ queue_at m p ++ l2 /\
  (forall q, queue_list s (put_queue m p q) = l1 ++ q ++ l2) /\
  (forall r q, r <> p -> m !! r = Some q -> forall i, i ∈ q -> i ∈ l1 ++ l2) /\
  (forall x, x ∈ l1 -> exists r qu, m !! r = Some qu /\ x ∈ qu /\ better s r p = true) /\
  (forall x, x ∈ l2 -> exists r qu, m !! r = Some qu /\ x ∈ qu /\ better s p r = true).
Proof.
  destruct (queue_list_block s m p) as (l1 & l2 & Hb & H1 & H2). exists l1, l2.
  split; [by apply Hb|]. split; [|split; [|done]].
  - intros q. rewrite Hb by (intros; by apply put_queue_ne). by rewrite queue_at_put.
  - intros r q Hne Hq i Hi. specialize (Hb (put_queue m p []) ltac:(intros; by apply put_queue_ne)).
    rewrite queue_at_put in Hb. cbn in Hb. rewrite <- Hb. apply elem_of_queue_list.
    exists r, q. split; [|done]. rewrite <- Hq. by apply lookup_delete_ne.
Qed.

Lemma queues_ok_put sl sl' s m p q :
  queues_ok sl s m -> (q <> [] -> queue_ok sl' s p q) ->
  (forall r q', r <> p -> m !! r = Some q' -> forall i, i ∈ q' -> slab_at sl' i = slab_at sl i) ->
  queues_ok sl' s (put_queue m p q).
Proof.
  intros Hm Hq Hsame r q' Hr. destruct (Z.eq_dec r p) as [->|Hne].
  - rewrite put_queue_eq in Hr. destruct q as [|x q]; [done|]. injection Hr as <-. auto.
  - rewrite put_queue_ne in Hr by done. destruct (Hm r q' Hr) as [Hn Hok]. split; [done|].
    eapply queue_ok_frame; [|done]. by eapply Hsame.
Qed.

(** ** The representation *)
Record ghost := { g_bids : gmap Z (list Z); g_asks : gmap Z (list Z); g_free : list Z }.
Definition g_q (g : ghost) (s : Side) : gmap Z (list Z) := match s with Buy => g_bids g | Sell => g_asks g end.
Definition g_live (g : ghost) : list Z := queue_list Buy (g_bids g) ++ queue_list Sell (g_asks g).
Definition g_put (g : ghost) (s : Side) (p : Price) (q fl : list Z) : ghost :=
  match s with
  | Buy => {| g_bids := put_queue (g_bids g) p q; g_asks := g_asks g; g_free := fl |}
  | Sell => {| g_bids := g_bids g; g_asks := put_queue (g_asks g) p q; g_free := fl |}
  end.

Record rep (bk : MatchingBook) (g : ghost) : Prop := {
  rp_wf : forall s, si_wf (side_of bk s);
  rp_side : forall s, si_side (side_of bk s) = s;
  rp_level : forall s p, price_ok p -> find_level (side_of bk s) p = level_of <$> (g_q g s !! p);
  rp_queues : forall s, queues_ok (mb_slab bk) s (g_q g s);
  rp_slots : slots_ok (mb_slab bk) (mb_free_head bk) (g_live g) (g_free g);
  rp_live : mb_live_count bk = Z.of_nat (length (g_live g));
}.

Lemma rep_new e b : 0 <= b <= kMaxBandTicks ->
  rep (MatchingBook_new e b) {| g_bids := ∅; g_asks := ∅; g_free := [] |}.
Proof.
  intros Hb. assert (Hl : g_live {| g_bids := ∅; g_asks := ∅; g_free := [] |} = []).
  { unfold g_live. cbn. by rewrite !queue_list_empty. }
  constructor; rewrite ?Hl; cbn; try done.
  - intros []; by apply SideIndex_new_wf.
  - by intros [].
  - intros s p _. replace (g_q _ s) with (∅ : gmap Z (list Z)) by (by destruct s).
    rewrite lookup_empty. cbn. unfold find_level. by destruct s.
  - intros s p q. replace (g_q _ s) with (∅ : gmap Z (list Z)) by (by destruct s). by rewrite lookup_empty.
Qed.
