(* ===== verification/BookOps.v ===== *)
(** * The book's operations preserve the representation

    Each mutation of MatchingBook.v, run on a represented book, never hits
    undefined behaviour and yields the book representing the updated ghost
    state. *)
From S2P Require Import Prelude Types Bits TickLadder SideIndex PriceQueues MatchingBook BookRep.

Lemma g_q_put_eq g s p q fl : g_q (g_put g s p q fl) s = put_queue (g_q g s) p q.
Proof. by destruct s. Qed.
Lemma g_q_put_ne g s s' p q fl : s' <> s -> g_q (g_put g s p q fl) s' = g_q g s'.
Proof. by destruct s, s'. Qed.

(** The live slots of [g_put], against those of [g]. *)
Lemma g_live_split g s p : exists l,
  g_live g ≡ₚ queue_at (g_q g s) p ++ l /\
  (forall q fl, g_live (g_put g s p q fl) ≡ₚ q ++ l) /\
  (forall r q, r <> p -> g_q g s !! r = Some q -> forall i, i ∈ q -> i ∈ l) /\
  (forall s' r q, s' <> s -> g_q g s' !! r = Some q -> forall i, i ∈ q -> i ∈ l).
Proof.
  destruct (queue_list_put s (g_q g s) p) as (l1 & l2 & H1 & H2 & H3 & _).
  assert (Hother : forall s' r q, g_q g s' !! r = Some q -> forall i, i ∈ q -> i ∈ queue_list s' (g_q g s')).
  { intros s' r q Hq i Hi. apply elem_of_queue_list. eauto. }
  exists (l1 ++ l2 ++ queue_list (contra_side s) (g_q g (contra_side s))).
  assert (Hp : forall q m1 m2, queue_list s m1 = l1 ++ q ++ l2 ->
    m2 = queue_list (contra_side s) (g_q g (contra_side s)) ->
    queue_list s m1 ++ m2 ≡ₚ q ++ l1 ++ l2 ++ m2).
  { intros q m1 m2 -> _. rewrite <- !app_assoc. by rewrite !(Permutation_app_swap_app l1 q). }
  split; [|split; [|split]].
  - rewrite <- Hp; [|done|done]. unfold g_live. destruct s; [done|]. apply Permutation_app_comm.
  - intros q fl. rewrite <- Hp; [|apply H2|done]. unfold g_live. destruct s; [done|].
    apply Permutation_app_comm.
  - intros r q Hne Hq i Hi. pose proof (H3 r q Hne Hq i Hi). set_solver.
  - intros s' r q Hne Hq i Hi. assert (s' = contra_side s) as -> by (by destruct s, s').
    pose proof (Hother _ _ _ Hq i Hi). set_solver.
Qed.

(** Queue contents are live slots, and pairwise disjoint. *)
Lemma queue_live bk g s p q i : rep bk g -> g_q g s !! p = Some q -> i ∈ q -> i ∈ g_live g.
Proof.
  intros _ Hq Hi. unfold g_live. rewrite elem_of_app.
  destruct s; [left|right]; apply elem_of_queue_list; eauto.
Qed.

(** The generic update: a new slab, free list and side index that agree with
    replacing the queue at [p]. *)
Lemma rep_put bk g s p q fl bk' si' :
  rep bk g -> price_ok p ->
  mb_bids bk' = match s with Buy => si' | Sell => mb_bids bk end ->
  mb_asks bk' = match s with Buy => mb_asks bk | Sell => si' end ->
  si_wf si' -> si_side si' = s ->
  (forall r, price_ok r -> find_level si' r = level_of <$> (put_queue (g_q g s) p q !! r)) ->
  (q <> [] -> queue_ok (mb_slab bk') s p q) ->
  (forall s' r q', (s' <> s \/ r <> p) -> g_q g s' !! r = Some q' ->
     forall i, i ∈ q' -> slab_at (mb_slab bk') i = slab_at (mb_slab bk) i) ->
  slots_ok (mb_slab bk') (mb_free_head bk') (g_live (g_put g s p q fl)) fl ->
  mb_live_count bk' = Z.of_nat (length (g_live (g_put g s p q fl))) ->
  rep bk' (g_put g s p q fl).
Proof.
  intros R Hp Hb Ha Hw Hs Hl Hq Hsame Hok Hlc.
  assert (Hside : forall s', side_of bk' s' = if decide (s' = s) then si' else side_of bk s').
  { intros []; cbn; rewrite ?Hb, ?Ha; by destruct s. }
  constructor; [| | | | |done].
  - intros s'. rewrite Hside. case_decide; [done|]. apply (rp_wf _ _ R).
  - intros s'. rewrite Hside. case_decide; [congruence|]. apply (rp_side _ _ R).
  - intros s' r Hr. rewrite Hside. case_decide as Hd.
    + subst. rewrite g_q_put_eq. by apply Hl.
    + rewrite g_q_put_ne by done. by apply (rp_level _ _ R).
  - intros s'. destruct (decide (s' = s)) as [->|Hd].
    + rewrite g_q_put_eq. eapply queues_ok_put; [apply (rp_queues _ _ R)|done|].
      intros r q' Hne Hq'. eapply Hsame; [by right|done].
    + rewrite g_q_put_ne by done. eapply queues_ok_frame; [|apply (rp_queues _ _ R)].
      intros i (r & q' & Hq' & Hi)%elem_of_queue_list. eapply Hsame; [by left|done|done].
  - destruct g, s; exact Hok.
Qed.

Lemma level_of_default m p : default LevelSlot_default (level_of <$> (m !! p)) = level_of (queue_at m p).
Proof. unfold queue_at. by destruct (m !! p). Qed.

Lemma g_q_queue_ok bk g s p : rep bk g -> price_ok p -> queue_ok (mb_slab bk) s p (queue_at (g_q g s) p).
Proof.
  intros R Hp. unfold queue_at. destruct (g_q g s !! p) as [q|] eqn:E; cbn.
  - by apply (rp_queues _ _ R) in E as [_ ?].
  - split; [done|]. split; [done|]. set_solver.
Qed.

(** ** add *)
Theorem add_rep bk g o : rep bk g -> price_ok (bo_price o) -> Z.of_nat (length (g_live g)) < kNil ->
  exists slot bk' fl', add bk o = Some (slot, bk') /\
    rep bk' (g_put g (bo_side o) (bo_price o) (queue_at (g_q g (bo_side o)) (bo_price o) ++ [slot]) fl') /\
    slot ∉ g_live g /\ book_at bk' slot = Some o /\
    (forall i, i ∈ g_live g -> book_at bk' i = book_at bk i).
Proof.
  intros R Hp Hroom. set (s := bo_side o). set (p := bo_price o) in *. set (q := queue_at (g_q g s) p).
  destruct (acquire_slot_spec bk o _ _ (rp_slots _ _ R) Hroom)
    as (slot & bk1 & fl' & Hacq & Hok & Hfresh & Hsame & Hat & Hsides & Hlc).
  destruct (level_for_spec (side_of bk s) (rp_wf _ _ R s) p Hp) as (si1 & Hlf & W1 & Hf1 & Hse1 & Hs1 & _).
  rewrite (rp_level _ _ R), level_of_default in Hlf, Hf1 by done. fold q in Hlf, Hf1.
  destruct (g_live_split g s p) as (l & Hl1 & Hl2 & Hl3 & Hl4). fold q in Hl1.
  assert (Hqlive : forall i, i ∈ q -> i ∈ g_live g) by (intros i Hi; rewrite Hl1; set_solver).
  pose proof (live_NoDup _ _ _ _ Hok) as Hnd1. rewrite Hl1 in Hnd1.
  assert (Hnd : NoDup (q ++ [slot])).
  { rewrite app_comm_cons in Hnd1. apply NoDup_app in Hnd1 as (Hnd1 & _).
    rewrite (Permutation_app_comm q [slot]). done. }
  assert (Hq1 : queue_ok (mb_slab bk1) s p q).
  { eapply queue_ok_frame; [|by apply g_q_queue_ok]. intros i Hi. apply Hsame. auto. }
  assert (Hv : valid_slot (mb_slab bk1) slot) by (eapply live_valid; [done|set_solver]).
  destruct (link_back_spec (mb_slab bk1) q slot (sk_len _ _ _ _ Hok) Hv Hnd (proj1 (proj2 Hq1)))
    as (sl' & Hlb & T & Hd).
  destruct (set_level_spec si1 W1 p Hp _ (level_of (q ++ [slot])) Hf1) as (si2 & Hsl & W2 & Hf2 & Hse2 & Hs2 & _).
  exists slot. unfold add. rewrite Hacq. fold s p. rewrite Hsides, Hlf, Hlb, Hsl.
  eexists _, fl'. split; [reflexivity|]. cbn [mb_with_live mb_with_side mb_with_slab].
  assert (HTlive : forall i, i ∈ slot :: g_live g -> book_at (mb_with_slab bk1 sl') i = book_at bk1 i).
  { intros i Hi. unfold book_at. cbn. apply (tc_order _ _ _ T). by eapply live_valid. }
  split; [|split; [done|split]].
  - assert (Hperm : g_live (g_put g s p (q ++ [slot]) fl') ≡ₚ slot :: g_live g).
    { rewrite Hl2, Hl1, <- app_assoc. cbn. by rewrite <- Permutation_middle. }
    assert (Hother : forall s' r q', (s' <> s \/ r <> p) -> g_q g s' !! r = Some q' -> forall i, i ∈ q' -> i ∈ l).
    { intros s' r q' [Hne|Hne] Hq' i Hi; [by eapply Hl4|].
      destruct (decide (s' = s)) as [->|Hne']; [by eapply Hl3|by eapply Hl4]. }
    eapply (rep_put bk g s p (q ++ [slot]) fl' _ si2); cbn.
    + done.
    + done.
    + destruct s; [done|]. apply (Hsides Buy).
    + destruct s; [|done]. apply (Hsides Sell).
    + done.
    + rewrite Hs2, Hs1. apply (rp_side _ _ R).
    + intros r Hr. destruct (Z.eq_dec r p) as [->|Hne].
      * rewrite Hf2, put_queue_eq. by destruct q.
      * rewrite put_queue_ne, Hse2, Hse1 by done. by apply (rp_level _ _ R).
    + intros _. split; [done|]. split; [done|]. intros i Hi.
      assert (Hi2 : i ∈ slot :: g_live g) by (apply elem_of_app in Hi as [Hi|Hi]; set_solver).
      apply HTlive in Hi2. unfold book_at in Hi2. cbn in Hi2.
      apply elem_of_app in Hi as [Hi| ->%list_elem_of_singleton].
      * destruct (proj2 (proj2 Hq1) i Hi) as (so & Hso & Ho). rewrite Hso in Hi2.
        apply fmap_Some in Hi2 as (so' & Hso' & Heq). exists so'. by rewrite <- Heq.
      * unfold book_at in Hat. rewrite Hat in Hi2.
        apply fmap_Some in Hi2 as (so' & Hso' & Heq). exists so'. by rewrite <- Heq.
    + intros s' r q' Hne Hq' i Hi. pose proof (Hother s' r q' Hne Hq' i Hi) as Hil.
      rewrite (tc_same _ _ _ T); [apply Hsame; rewrite Hl1; set_solver| |].
      * eapply live_valid; [done|]. rewrite Hl1. set_solver.
      * apply NoDup_cons in Hnd1 as [Hsl1 (_ & Hdis & _)%NoDup_app].
        rewrite elem_of_app, list_elem_of_singleton. intros [Hiq| ->]; [by apply (Hdis i)|set_solver].
    + eapply slots_ok_perm; [|exact Hperm]. eapply slots_ok_touches; [done|done|]. set_solver.
    + rewrite Hlc, (rp_live _ _ R), Hperm. cbn [length].
      pose proof (sk_len _ _ _ _ Hok). unfold kNil in *. rewrite u64_small; lia.
  - rewrite <- Hat. apply (HTlive slot). set_solver.
  - intros i Hi. transitivity (book_at bk1 i); [apply (HTlive i); set_solver|].
    unfold book_at. by rewrite Hsame.
Qed.

(** ** Removal from any position *)
Lemma head_not_nil sl q : Z.of_nat (length sl) <= kNil -> dseg sl kNil q kNil ->
  (ls_head (level_of q) =? kNil) = match q with [] => true | _ => false end.
Proof.
  intros Hl Hd. destruct q as [|a q]; [by rewrite Z.eqb_refl|].
  cbn. apply (not_nil_slot sl); [done|]. eapply dseg_valid; [exact Hd|set_solver].
Qed.

(** Writing a level and erasing it when it emptied, as the index sees it. *)
Lemma shrink_level si m p lv q : si_wf si -> price_ok p ->
  (forall r, price_ok r -> find_level si r = level_of <$> (m !! r)) -> find_level si p = Some lv ->
  exists si1, set_level si p (level_of q) = Some si1 /\ si_side si1 = si_side si /\
    let si2 := match q with [] => erase_level si1 p | _ => si1 end in
    si_wf si2 /\ si_side si2 = si_side si /\
    forall r, price_ok r -> find_level si2 r = level_of <$> (put_queue m p q !! r).
Proof.
  intros W Hp Hm Hlv.
  destruct (set_level_spec si W p Hp lv (level_of q) Hlv) as (si1 & Hs & W1 & Hf & Hse & Hsd & _).
  exists si1. split; [done|]. split; [done|].
  destruct (erase_level_spec si1 W1 p Hp) as (W2 & Hf2 & Hse2 & Hsd2 & _).
  destruct q as [|a q].
  - split; [done|]. split; [congruence|]. intros r Hr. destruct (Z.eq_dec r p) as [->|Hne].
    + by rewrite Hf2, put_queue_eq.
    + by rewrite Hse2, Hse, put_queue_ne, Hm.
  - split; [done|]. split; [done|]. intros r Hr. destruct (Z.eq_dec r p) as [->|Hne].
    + by rewrite Hf, put_queue_eq.
    + by rewrite Hse, put_queue_ne, Hm.
Qed.

Section Removal.
Context (bk : MatchingBook) (g : ghost) (R : rep bk g) (s : Side) (p : Price) (q1 q2 : list Z) (slot : Z)
  (Hq : g_q g s !! p = Some (q1 ++ slot :: q2)).

Lemma removal_price : price_ok p.
Proof. by apply (rp_queues _ _ R) in Hq as (_ & ? & _). Qed.

Lemma removal_order : exists so, slab_at (mb_slab bk) slot = Some so /\
  bo_side (so_order so) = s /\ bo_price (so_order so) = p.
Proof. apply (rp_queues _ _ R) in Hq as (_ & _ & _ & H). apply H. set_solver. Qed.

Lemma removal_live : exists l, g_live g ≡ₚ slot :: q1 ++ q2 ++ l /\
  (forall fl, g_live (g_put g s p (q1 ++ q2) fl) ≡ₚ q1 ++ q2 ++ l) /\
  (forall s' r q', (s' <> s \/ r <> p) -> g_q g s' !! r = Some q' -> forall i, i ∈ q' -> i ∈ l).
Proof.
  destruct (g_live_split g s p) as (l & H1 & H2 & H3 & H4). exists l. split; [|split].
  - rewrite H1. unfold queue_at. rewrite Hq. cbn. rewrite <- app_assoc. cbn.
    symmetry. apply Permutation_middle.
  - intros fl. by rewrite H2, app_assoc.
  - intros s' r q' [Hne|Hne] Hq' i Hi; [by eapply H4|].
    destruct (decide (s' = s)) as [->|Hne']; [by eapply H3|by eapply H4].
Qed.

(** What [remove_at] and [remove_front] have in common: unlink the slot,
    write the level back, release the slot. *)
Lemma removal_core : exists sl' si1 bk2,
  unlink (mb_slab bk) (level_of (q1 ++ slot :: q2)) slot = Some (sl', level_of (q1 ++ q2)) /\
  set_level (side_of bk s) p (level_of (q1 ++ q2)) = Some si1 /\
  (ls_head (level_of (q1 ++ q2)) =? kNil) = match q1 ++ q2 with [] => true | _ => false end /\
  (forall si', release_slot (mb_with_side (mb_with_slab bk sl') s si') slot =
               Some (mb_with_side bk2 s si')) /\
  mb_live_count bk2 = mb_live_count bk /\
  let si2 := match q1 ++ q2 with [] => erase_level si1 p | _ => si1 end in
  let bk' := mb_with_live (mb_with_side bk2 s si2) (u64 (mb_live_count bk - 1)) in
  rep bk' (g_put g s p (q1 ++ q2) (slot :: g_free g)) /\
  (forall i, i ∈ g_live g -> i <> slot -> book_at bk' i = book_at bk i).
Proof.
  pose proof removal_price as Hp. destruct removal_live as (l & Hl1 & Hl2 & Hl3).
  pose proof (rp_slots _ _ R) as Hok. pose proof (sk_len _ _ _ _ Hok) as Hlen.
  pose proof (rp_queues _ _ R _ _ _ Hq) as (_ & _ & Hd & Ho).
  pose proof (live_NoDup _ _ _ _ Hok) as Hnd. rewrite Hl1 in Hnd.
  assert (Hndq : NoDup (q1 ++ slot :: q2)).
  { rewrite <- Permutation_middle. cbn in Hnd. rewrite app_assoc, app_comm_cons in Hnd. by apply NoDup_app in Hnd as (? & _). }
  destruct (unlink_spec (mb_slab bk) q1 slot q2 Hlen Hndq Hd) as (sl' & Hu & T & Hd').
  destruct (shrink_level (side_of bk s) (g_q g s) p (level_of (q1 ++ slot :: q2)) (q1 ++ q2))
    as (si1 & Hsl & Hs1 & W2 & Hs2 & Hf2);
    [apply (rp_wf _ _ R)|done|apply (rp_level _ _ R)|by rewrite (rp_level _ _ R), Hq|].
  assert (Hok1 : slots_ok sl' (mb_free_head bk) (slot :: q1 ++ q2 ++ l) (g_free g)).
  { apply (slots_ok_perm _ _ (g_live g)); [|by symmetry].
    eapply slots_ok_touches; [exact Hok|exact T|]. intros i Hi. rewrite Hl1. set_solver. }
  destruct (release_slot_spec (mb_with_slab bk sl') slot _ _ Hok1) as (bk2 & Hr & Hok2 & Hsame2 & Hsides2 & Hlc2).
  cbn in Hsame2, Hlc2. exists sl', si1, bk2. split; [done|]. split; [done|].
  split; [apply (head_not_nil sl'); [by rewrite (tc_len _ _ _ T)|done]|].
  split.
  { intros si'. unfold release_slot in *. cbn in *. destruct (slab_store sl' slot _); [|done].
    injection Hr as <-. done. }
  split; [done|]. intros si2 bk'.
  assert (Hrest : forall i, i ∈ q1 ++ q2 ++ l -> book_at bk' i = book_at bk i).
  { intros i Hi. unfold book_at. cbn. rewrite Hsame2 by done. apply (tc_order _ _ _ T).
    eapply (live_valid _ _ _ _ Hok). rewrite Hl1. set_solver. }
  split.
  2: { intros i Hi Hne. apply Hrest. rewrite Hl1 in Hi. set_solver. }
  apply (rep_put bk g s p (q1 ++ q2) (slot :: g_free g) bk' si2); try done.
  - subst bk'. cbn. destruct s; [done|]. apply (Hsides2 Buy).
  - subst bk'. cbn. destruct s; [|done]. apply (Hsides2 Sell).
  - subst si2. rewrite Hs2. apply (rp_side _ _ R).
  - intros _. split; [done|]. split.
    + eapply dseg_frame; [|exact Hd']. intros i Hi. cbn. apply Hsame2. set_solver.
    + intros i Hi. destruct (Ho i) as (so & Hso & Hos); [set_solver|].
      pose proof (Hrest i ltac:(set_solver)) as Hb. unfold book_at in Hb. rewrite Hso in Hb.
      apply fmap_Some in Hb as (so' & Hso' & Heq). exists so'. by rewrite <- Heq.
  - intros s' r q' Hne Hq' i Hi. pose proof (Hl3 s' r q' Hne Hq' i Hi) as Hil. cbn.
    rewrite Hsame2 by set_solver. apply (tc_same _ _ _ T).
    + eapply (live_valid _ _ _ _ Hok). rewrite Hl1. set_solver.
    + apply NoDup_cons in Hnd as [_ Hnd]. rewrite app_assoc in Hnd.
      apply NoDup_app in Hnd as (_ & Hdis & _). intros Hin. by apply (Hdis i).
  - eapply slots_ok_perm; [|by rewrite Hl2]. done.
  - cbn. rewrite (rp_live _ _ R), Hl1, Hl2. cbn [length].
    pose proof (slots_count _ _ _ _ Hok) as Hc. rewrite Hl1 in Hc. cbn [length] in Hc.
    unfold kNil in *. rewrite u64_small; lia.
Qed.

Theorem remove_at_rep : exists o bk' fl', remove_at bk slot = Some (o, bk') /\
  book_at bk slot = Some o /\ rep bk' (g_put g s p (q1 ++ q2) fl') /\
  (forall i, i ∈ g_live g -> i <> slot -> book_at bk' i = book_at bk i).
Proof.
  destruct removal_order as (so & Hso & Hs & Hpr). pose proof removal_price as Hp.
  destruct removal_core as (sl' & si1 & bk2 & Hu & Hsl & Hh & Hrel & Hlc & R' & Hsame).
  unfold remove_at. rewrite Hso, Hs, Hpr, (rp_level _ _ R), Hq by done. cbn [fmap option_fmap option_map].
  rewrite Hu, Hsl, Hh, Hrel. cbn [mb_with_side mb_live_count]. rewrite Hlc.
  eexists _, _, _. split; [reflexivity|]. split; [by unfold book_at; rewrite Hso|].
  destruct (q1 ++ q2); done.
Qed.
End Removal.

(** ** Changing an order in place *)

(** [same_links sl sl']: the slabs differ in orders only, and every order
    keeps its side and price. *)
Definition same_links (sl sl' : list SlabOrder) : Prop :=
  length sl' = length sl /\
  forall i so, slab_at sl i = Some so -> exists so', slab_at sl' i = Some so' /\
    so_next so' = so_next so /\ so_prev so' = so_prev so /\
    bo_side (so_order so') = bo_side (so_order so) /\ bo_price (so_order so') = bo_price (so_order so).

Lemma dseg_same_links sl sl' prev q nxt : same_links sl sl' -> dseg sl prev q nxt -> dseg sl' prev q nxt.
Proof.
  intros [_ Hl]. revert prev. induction q as [|a q IH]; intros prev; cbn; [done|].
  intros (H0 & (so & Hso & Hp & Hn) & Hq). split; [done|]. split; [|by apply IH].
  destruct (Hl _ _ Hso) as (so' & Hso' & Hn' & Hp' & _). exists so'. by rewrite Hn', Hp'.
Qed.
Lemma free_chain_same_links sl sl' h fl : same_links sl sl' -> free_chain sl h fl -> free_chain sl' h fl.
Proof.
  intros [_ Hl]. revert h. induction fl as [|a fl IH]; intros h; cbn; [done|].
  intros (-> & so & Hso & Hc). split; [done|]. destruct (Hl _ _ Hso) as (so' & Hso' & Hn' & _).
  exists so'. split; [done|]. rewrite Hn'. by apply IH.
Qed.
Lemma rep_same_links bk g sl' : rep bk g -> same_links (mb_slab bk) sl' -> rep (mb_with_slab bk sl') g.
Proof.
  intros [A1 A2 A3 A4 A5 A6] Hl. pose proof Hl as [Hlen Hat].
  assert (Hside : forall s, side_of (mb_with_slab bk sl') s = side_of bk s) by (by intros []).
  constructor; try done; try (intros s; rewrite Hside; auto).
  - intros s p q Hq. destruct (A4 _ _ _ Hq) as (Hne & Hp & Hd & Ho). split; [done|]. split; [done|].
    split; [by eapply dseg_same_links|]. intros i Hi. destruct (Ho i Hi) as (so & Hso & Hs & Hpr).
    destruct (Hat _ _ Hso) as (so' & Hso' & _ & _ & Hs' & Hpr'). exists so'. split; [done|]. split; congruence.
  - destruct A5 as [B1 B2 B3]. constructor; cbn; rewrite ?Hlen; [done|done|]. by eapply free_chain_same_links.
Qed.

(** The two in-place stores of the book. *)
Lemma store_order_rep bk g slot f : rep bk g -> slot ∈ g_live g ->
  (forall o, bo_side (f o) = bo_side o /\ bo_price (f o) = bo_price o) ->
  exists sl' o, slab_store (mb_slab bk) slot (fun so => so_set_order (f (so_order so)) so) = Some sl' /\
    rep (mb_with_slab bk sl') g /\ book_at bk slot = Some o /\
    book_at (mb_with_slab bk sl') slot = Some (f o) /\
    (forall i, i ∈ g_live g -> i <> slot -> book_at (mb_with_slab bk sl') i = book_at bk i).
Proof.
  intros R Hin Hf. pose proof (live_valid _ _ _ _ (rp_slots _ _ R) _ Hin) as Hv.
  destruct (slab_at_valid _ _ Hv) as [so Hso].
  destruct (slab_store_spec _ slot (fun so => so_set_order (f (so_order so)) so) so (proj1 Hv) Hso)
    as (sl' & Hst & Hlen & Hat & Hne).
  exists sl', (so_order so). split; [done|]. split; [|split; [|split]].
  - apply rep_same_links; [done|]. split; [done|]. intros i si Hi.
    destruct (Z.eq_dec (Z.max 0 i) slot) as [Heq|Hd].
    + assert (Hi' : forall sl, slab_at sl i = slab_at sl slot).
      { intros sl. unfold slab_at. f_equal. lia. }
      rewrite Hi' in *. rewrite Hso in Hi. injection Hi as <-. eexists. split; [exact Hat|]. cbn.
      destruct (Hf (so_order so)). done.
    + assert (Hi' : forall sl, slab_at sl i = slab_at sl (Z.max 0 i)).
      { intros sl. unfold slab_at. f_equal. lia. }
      exists si. by rewrite Hi', Hne, <- Hi' by lia.
  - unfold book_at. by rewrite Hso.
  - unfold book_at. cbn. by rewrite Hat.
  - intros i Hi Hd. unfold book_at. cbn. rewrite Hne; [done| |done].
    by apply (live_valid _ _ _ _ (rp_slots _ _ R)).
Qed.
