(* ===== verification/BookReads.v ===== *)
(** * What the book's reads return

    On a represented book the best price and the walk over the levels follow
    the sorted keys of the ghost maps, so [front_of_best], [slots_of],
    [all_of], [crossable_quantity] and the out-of-band gauges are functions
    of the ghost queues; every walk ends within its fuel. *)
From S2P Require Import Prelude Types Bits TickLadder SideIndex PriceQueues MatchingBook BookRep BookOps.

(** ** Best elements of sorted lists *)
Lemma opt_best_unique s S o o' : opt_best s S o -> opt_best s S o' -> o = o'.
Proof.
  destruct o as [a|], o' as [b|]; cbn; [|by intros [H _] Hn; destruct (Hn a)|by intros Hn [H _]; destruct (Hn b)|done].
  intros [Ha H1] [Hb H2]. specialize (H1 b Hb). specialize (H2 a Ha). f_equal. destruct s; cbn in *; lia.
Qed.
Lemma head_best s ks : StronglySorted (prio_rel s) ks -> opt_best s (fun p => p ∈ ks) (head ks).
Proof.
  inversion 1 as [|p ks' Hs Hall]; cbn; [set_solver|]. split; [set_solver|].
  rewrite Forall_forall in Hall. intros r [->|Hr]%elem_of_cons; [apply better_eq_refl|by apply Hall].
Qed.

Section Reads.
Context (bk : MatchingBook) (g : ghost) (R : rep bk g) (s : Side).
Let m := g_q g s.
Let si := side_of bk s.

Lemma keys_ok p : p ∈ sorted_keys s m -> price_ok p.
Proof. rewrite elem_of_sorted_keys. intros [q Hq]. by apply (rp_queues _ _ R) in Hq as (_ & ? & _). Qed.
Lemma has_level_key p : price_ok p /\ has_level si p <-> p ∈ sorted_keys s m.
Proof.
  split.
  - intros [Hp Hl]. unfold has_level, si in Hl. rewrite (rp_level _ _ R) in Hl by done.
    apply elem_of_sorted_keys. by apply fmap_is_Some in Hl.
  - intros Hp. pose proof (keys_ok p Hp) as Hok. split; [done|].
    unfold has_level, si. rewrite (rp_level _ _ R) by done. apply fmap_is_Some.
    by apply elem_of_sorted_keys in Hp.
Qed.

Lemma best_price_rep : best_price si = head (sorted_keys s m).
Proof.
  pose proof (best_price_spec si (rp_wf _ _ R s)) as Hb. unfold si in Hb at 1.
  rewrite (rp_side _ _ R) in Hb. eapply opt_best_unique; [|apply head_best, sorted_keys_sorted].
  eapply opt_best_iff; [|exact Hb]. intros q. apply has_level_key.
Qed.

Lemma si_empty_rep : si_empty si = match sorted_keys s m with [] => true | _ => false end.
Proof.
  destruct (si_empty si) eqn:E.
  - destruct (sorted_keys s m) as [|p ks] eqn:Hk; [done|]. exfalso.
    assert (Hp : p ∈ sorted_keys s m) by (rewrite Hk; set_solver). apply has_level_key in Hp as [Hp Hl].
    by apply (si_empty_true si (rp_wf _ _ R s) E p Hp).
  - destruct (si_empty_false si (rp_wf _ _ R s) E) as (p & Hp & Hl).
    assert (Hin : p ∈ sorted_keys s m) by (by apply has_level_key).
    destruct (sorted_keys s m); [set_solver|done].
Qed.

Lemma next_price_rep k1 p k2 : sorted_keys s m = k1 ++ p :: k2 -> next_price si p = head k2.
Proof.
  intros Hk. assert (Hp : price_ok p) by (apply keys_ok; rewrite Hk; set_solver).
  pose proof (next_price_spec si (rp_wf _ _ R s) p Hp) as Hb. unfold si in Hb at 1 3.
  rewrite (rp_side _ _ R) in Hb. pose proof (sorted_keys_sorted s m) as Hs. pose proof (sorted_keys_NoDup s m) as Hn.
  rewrite Hk in Hs, Hn. apply StronglySorted_app_l in Hs as (Hs1 & Hs2 & Hs12).
  apply NoDup_app in Hn as (_ & _ & [Hpn _]%NoDup_cons).
  inversion Hs2 as [|? ? Hs3 Hall]; subst. rewrite Forall_forall in Hall.
  eapply opt_best_unique; [|apply head_best, Hs3].
  eapply opt_best_iff; [|exact Hb]. intros q. cbn.
  transitivity (q ∈ sorted_keys s m /\ better s p q = true); [rewrite <- has_level_key; tauto|].
  rewrite Hk, elem_of_app, elem_of_cons. split.
  - intros [[Hq|[->|Hq]] Hbt]; [exfalso|exfalso; destruct s; cbn in Hbt; lia|done].
    specialize (Hs12 q p Hq ltac:(set_solver)). unfold prio_rel in Hs12. destruct s; cbn in *; lia.
  - intros Hq. split; [by auto|]. apply better_better_eq. split; [by apply Hall|]. by intros <-.
Qed.

Lemma level_at_rep p q : m !! p = Some q -> level_at si p = Some (level_of q).
Proof.
  intros Hq. apply level_at_spec. unfold si. rewrite (rp_level _ _ R).
  - unfold m in Hq. by rewrite Hq.
  - by apply (rp_queues _ _ R) in Hq as (_ & ? & _).
Qed.

Lemma key_queue p : p ∈ sorted_keys s m -> exists a q, m !! p = Some (a :: q) /\ queue_at m p = a :: q.
Proof.
  rewrite elem_of_sorted_keys. intros [q Hq]. pose proof (rp_queues _ _ R _ _ _ Hq) as [Hne _].
  destruct q as [|a q]; [done|]. exists a, q. split; [done|]. unfold queue_at. by rewrite Hq.
Qed.

(** ** The front of the best level *)
Lemma queue_list_head : match sorted_keys s m with
  | [] => queue_list s m = []
  | p :: _ => exists a q l, m !! p = Some (a :: q) /\ queue_list s m = a :: q ++ l
  end.
Proof.
  unfold queue_list, flatten_keys. destruct (sorted_keys s m) as [|p ks] eqn:Hk; [done|].
  destruct (key_queue p) as (a & q & Hq & Hqa); [rewrite Hk; set_solver|].
  exists a, q, (mjoin (queue_at m <$> ks)). split; [done|]. cbn. by rewrite Hqa.
Qed.

Theorem front_of_best_rep :
  front_of_best bk s = match queue_list s m with
                       | [] => Some None
                       | slot :: _ => Some <$> book_at bk slot
                       end.
Proof.
  unfold front_of_best. fold si. rewrite si_empty_rep, best_price_rep.
  pose proof queue_list_head as Hh. destruct (sorted_keys s m) as [|p ks] eqn:Hk; [by rewrite Hh|].
  destruct Hh as (a & q & l & Hq & ->). cbn. rewrite (level_at_rep p _ Hq). cbn.
  unfold book_at. by destruct (slab_at _ _).
Qed.
End Reads.

(** ** The front operations are operations on the head of the queue *)
Lemma remove_front_rep bk g s p slot q2 :
  rep bk g -> g_q g s !! p = Some (slot :: q2) -> head (sorted_keys s (g_q g s)) = Some p ->
  exists bk' fl', remove_front bk s = Some bk' /\ rep bk' (g_put g s p q2 fl') /\
    (forall i, i ∈ g_live g -> i <> slot -> book_at bk' i = book_at bk i).
Proof.
  intros R Hq Hb. destruct (removal_core bk g R s p [] q2 slot Hq)
    as (sl' & si1 & bk2 & Hu & Hsl & Hh & Hrel & Hlc & R' & Hsame). cbn [app] in *.
  unfold remove_front. rewrite (best_price_rep bk g R), Hb, (level_at_rep bk g R s p _ Hq).
  change (ls_head (level_of (slot :: q2))) with slot. rewrite Hu, Hsl, Hrel, Hh.
  cbn [mb_with_side mb_live_count]. rewrite Hlc. destruct q2, s; (eexists _, _; split; [reflexivity|]; split; [exact R'|exact Hsame]).
Qed.

(** ** The book's walks terminate and list the queues

    The nested loops of [all_of] and [crossable_quantity] visit exactly the
    represented side, best level first and in arrival order within a level,
    and the fuel of MatchingBook.v is enough for both. *)

Implicit Types (sl : list SlabOrder).

(** ** One level *)
Lemma walk_level_dseg sl fuel prev q : Z.of_nat (length sl) <= kNil -> dseg sl prev q kNil ->
  (length q < fuel)%nat -> walk_level fuel sl (hd kNil q) = Some q.
Proof.
  intros Hlen. revert fuel prev. induction q as [|a q IH]; intros [|fuel] prev Hd Hf; cbn [length] in Hf; try lia.
  - done.
  - cbn [walk_level hd]. rewrite (not_nil_slot sl) by (done || (eapply dseg_valid; [exact Hd|set_solver])).
    destruct Hd as (_ & (so & -> & _ & Hn) & Hd). rewrite Hn, (IH fuel a) by (done || lia). done.
Qed.

(** The accumulation of [crossable_quantity] over the quantities it meets:
    the running u64 total, and whether it reached the wanted quantity. *)
Fixpoint cross_sum (qs : list Quantity) (total quantity : Quantity) : Quantity * bool :=
  match qs with
  | [] => (total, false)
  | q :: qs => let total := u64 (total + q) in
               if quantity <=? total then (total, true) else cross_sum qs total quantity
  end.

(** The orders stored at a list of slots, with their slots as handles. *)
Definition entries (bk : MatchingBook) (q : list Z) : list entry :=
  omap (fun i => pair i <$> book_at bk i) q.
#[global] Arguments entries : simpl never.

Lemma entries_app bk q1 q2 : entries bk (q1 ++ q2) = entries bk q1 ++ entries bk q2.
Proof. apply omap_app. Qed.
Lemma entries_cons bk i q o : book_at bk i = Some o -> entries bk (i :: q) = (i, o) :: entries bk q.
Proof. intros H. unfold entries. cbn. by rewrite H. Qed.
Lemma entries_ext bk bk' q : (forall i, i ∈ q -> book_at bk' i = book_at bk i) -> entries bk' q = entries bk q.
Proof.
  unfold entries. induction q as [|i q IH]; intros H; [done|]. cbn. rewrite H by set_solver.
  rewrite IH; [done|]. intros j Hj. apply H. set_solver.
Qed.
Lemma entries_fst bk q : (forall i, i ∈ q -> is_Some (book_at bk i)) -> (entries bk q).*1 = q.
Proof.
  induction q as [|i q IH]; intros H; [done|]. destruct (H i ltac:(set_solver)) as [o Ho].
  rewrite (entries_cons _ _ _ _ Ho), fmap_cons, IH; [done|]. intros j Hj. apply H. set_solver.
Qed.
Lemma elem_of_entries bk q e : e ∈ entries bk q <-> e.1 ∈ q /\ book_at bk e.1 = Some e.2.
Proof.
  unfold entries. rewrite list_elem_of_omap. destruct e as [h o]. cbn. split.
  - intros (i & Hi & He). destruct (book_at bk i) eqn:E; cbn in He; [|done]. injection He as -> ->. done.
  - intros [Hh Ho]. exists h. by rewrite Ho.
Qed.

Lemma cross_level_dseg bk fuel prev q total quantity :
  Z.of_nat (length (mb_slab bk)) <= kNil -> dseg (mb_slab bk) prev q kNil -> (length q < fuel)%nat ->
  cross_level fuel (mb_slab bk) (hd kNil q) total quantity =
    Some (cross_sum (bo_remaining_quantity <$> (entries bk q).*2) total quantity).
Proof.
  intros Hlen. revert fuel prev total. induction q as [|a q IH]; intros [|fuel] prev total Hd Hf; cbn [length] in Hf; try lia.
  - done.
  - cbn [cross_level hd]. rewrite (not_nil_slot (mb_slab bk)) by (done || (eapply dseg_valid; [exact Hd|set_solver])).
    destruct Hd as (_ & (so & Hso & _ & Hn) & Hd).
    rewrite (entries_cons bk a q (so_order so)) by (unfold book_at; by rewrite Hso).
    rewrite Hso. cbn. destruct (quantity <=? _); [done|]. rewrite Hn. apply (IH fuel a); [done|lia].
Qed.

(** ** The whole side *)
Section Walk.
Context (bk : MatchingBook) (g : ghost) (R : rep bk g) (s : Side).
Let m := g_q g s.

Lemma slab_len : Z.of_nat (length (mb_slab bk)) <= kNil.
Proof. apply (sk_len _ _ _ _ (rp_slots _ _ R)). Qed.

Lemma side_length : (length (queue_list s m) <= length (mb_slab bk))%nat.
Proof.
  pose proof (slots_count _ _ _ _ (rp_slots _ _ R)) as Hc.
  assert (length (queue_list s m) <= length (g_live g))%nat; [|lia].
  unfold g_live. rewrite length_app. subst m. destruct s; cbn; lia.
Qed.
Lemma flatten_length k1 k2 : sorted_keys s m = k1 ++ k2 ->
  (length (flatten_keys m k2) <= length (mb_slab bk))%nat /\ (length k2 <= length (mb_slab bk))%nat.
Proof.
  intros Hk. pose proof side_length as Hl. unfold queue_list in Hl. rewrite Hk, flatten_keys_app, length_app in Hl.
  assert (Hk2 : forall p, p ∈ k2 -> p ∈ sorted_keys s m) by (intros p Hp; rewrite Hk; set_solver).
  split; [lia|]. enough (length k2 <= length (flatten_keys m k2))%nat by lia. clear Hl Hk.
  induction k2 as [|p k2 IH]; [done|]. rewrite flatten_keys_cons, length_app.
  destruct (key_queue bk g R s p) as (a & q & _ & Hq); [apply Hk2; set_solver|]. unfold m in *. rewrite Hq.
  specialize (IH ltac:(intros; apply Hk2; set_solver)). cbn [length]. lia.
Qed.

(** One level of the walk. *)
Lemma level_facts k1 p k2 : sorted_keys s m = k1 ++ p :: k2 -> exists q,
  m !! p = Some q /\ flatten_keys m (p :: k2) = q ++ flatten_keys m k2 /\
  dseg (mb_slab bk) kNil q kNil /\ (length q < walk_fuel bk)%nat.
Proof.
  intros Hk. destruct (key_queue bk g R s p) as (a & q & Hq & Hqa).
  { unfold m in Hk. rewrite Hk. set_solver. }
  exists (a :: q). split; [done|].
  assert (Hf : flatten_keys m (p :: k2) = (a :: q) ++ flatten_keys m k2).
  { rewrite flatten_keys_cons. unfold m. by rewrite Hqa. }
  split; [done|]. split; [by apply (rp_queues _ _ R) in Hq as (_ & _ & ? & _)|].
  destruct (flatten_length k1 (p :: k2) Hk) as [Hlen _]. rewrite Hf, length_app in Hlen.
  unfold walk_fuel. lia.
Qed.

Lemma walk_levels_rep fuel k1 k2 : sorted_keys s m = k1 ++ k2 -> (length k2 < fuel)%nat ->
  walk_levels fuel bk s (head k2) = Some (flatten_keys m k2).
Proof.
  revert fuel k1. induction k2 as [|p k2 IH]; intros [|fuel] k1 Hk Hf; cbn [length] in Hf; try lia; [done|].
  cbn [walk_levels head]. destruct (level_facts k1 p k2 Hk) as (q & Hq & -> & Hd & Hlen).
  rewrite (level_at_rep bk g R s p q Hq). cbn [level_of ls_head].
  rewrite (walk_level_dseg _ _ kNil q) by (done || apply slab_len).
  rewrite (next_price_rep bk g R s k1 p k2 Hk), (IH fuel (k1 ++ [p])); [done|by rewrite <- app_assoc|lia].
Qed.

Theorem slots_of_rep : slots_of bk s = Some (queue_list s m).
Proof.
  unfold slots_of. rewrite (si_empty_rep bk g R), (best_price_rep bk g R). fold m.
  pose proof (walk_levels_rep (walk_fuel bk) [] (sorted_keys s m) eq_refl) as Hw. unfold queue_list.
  destruct (flatten_length [] (sorted_keys s m) eq_refl) as [_ Hl].
  destruct (sorted_keys s m) as [|p ks]; [done|]. cbn [head] in *. apply Hw. unfold walk_fuel. lia.
Qed.

(** ** The side as a list of entries *)
Lemma live_order i : i ∈ queue_list s m -> exists o, book_at bk i = Some o /\ bo_side o = s.
Proof.
  intros (p & q & Hq & Hi)%elem_of_queue_list. apply (rp_queues _ _ R) in Hq as (_ & _ & _ & Ho).
  destruct (Ho i Hi) as (so & Hso & Hs & _). exists (so_order so). unfold book_at. by rewrite Hso.
Qed.

Lemma entries_price p q e : m !! p = Some q -> e ∈ entries bk q -> entry_price e = p.
Proof.
  intros Hq [Hi Ho]%elem_of_entries. apply (rp_queues _ _ R) in Hq as (_ & _ & _ & Hq).
  destruct (Hq _ Hi) as (so & Hso & _ & Hp). unfold book_at in Ho. rewrite Hso in Ho.
  cbn in Ho. injection Ho as Ho. unfold entry_price. by rewrite <- Ho.
Qed.
End Walk.

(** ** The book as two priority lists

    [book_view bk s] is side [s] of a book as a list of entries in price-time
    priority.  On a well-formed book every operation is an operation on these
    lists: [add] inserts behind equal prices, [remove_at] deletes one entry,
    [reduce_at] and [set_client_order_id_at] edit one in place,
    [front_of_best] is the head, [crossable_quantity] a bounded sum and
    [all_of] the list itself. *)

Definition book_view (bk : MatchingBook) (s : Side) : list entry := entries bk (default [] (slots_of bk s)).
Definition book_wf (bk : MatchingBook) : Prop := exists g, rep bk g.

(** The specification of [crossable_quantity]. *)
Fixpoint crossable (s : Side) (price : Price) (quantity : Quantity) (l : list entry) (total : Quantity) : Quantity :=
  match l with
  | [] => total
  | e :: l => if better s price (entry_price e) then total
              else let total := u64 (total + bo_remaining_quantity e.2) in
                   if quantity <=? total then total else crossable s price quantity l total
  end.

Lemma crossable_block s price quantity p b l total :
  (forall e, e ∈ b -> entry_price e = p) -> better s price p = false ->
  crossable s price quantity (b ++ l) total =
    let r := cross_sum (bo_remaining_quantity <$> b.*2) total quantity in
    if r.2 then r.1 else crossable s price quantity l r.1.
Proof.
  intros Hb Hp. revert total. induction b as [|e b IH]; intros total; [done|]. cbn.
  rewrite (Hb e), Hp by set_solver. destruct (quantity <=? _); [done|]. apply IH. set_solver.
Qed.

Section View.
Context (bk : MatchingBook) (g : ghost) (R : rep bk g).

Lemma book_view_rep s : book_view bk s = entries bk (queue_list s (g_q g s)).
Proof. unfold book_view. by rewrite (slots_of_rep bk g R). Qed.

Lemma view_fst s : (book_view bk s).*1 = queue_list s (g_q g s).
Proof.
  rewrite book_view_rep. apply entries_fst. intros i Hi.
  destruct (live_order bk g R s i Hi) as (o & -> & _). done.
Qed.
Lemma live_perm s : g_live g ≡ₚ (book_view bk s).*1 ++ (book_view bk (contra_side s)).*1.
Proof. rewrite !view_fst. unfold g_live. destruct s; [done|]. apply Permutation_app_comm. Qed.
Lemma view_fst_app s : (book_view bk s ++ book_view bk (contra_side s)).*1 ≡ₚ g_live g.
Proof. rewrite fmap_app. symmetry. apply live_perm. Qed.
Lemma elem_of_view s e : e ∈ book_view bk s <-> e.1 ∈ queue_list s (g_q g s) /\ book_at bk e.1 = Some e.2.
Proof. rewrite book_view_rep. apply elem_of_entries. Qed.

Lemma view_sorted s : prio_sorted s (book_view bk s).
Proof.
  rewrite book_view_rep. unfold queue_list, prio_sorted.
  pose proof (sorted_keys_sorted s (g_q g s)) as Hs.
  assert (Hk : forall p, p ∈ sorted_keys s (g_q g s) -> is_Some (g_q g s !! p)) by (intros p; apply elem_of_sorted_keys).
  assert (Hpr : forall ks e, (forall p, p ∈ ks -> is_Some (g_q g s !! p)) ->
    e ∈ entries bk (flatten_keys (g_q g s) ks) -> entry_price e ∈ ks).
  { intros ks e Hks [Hi He]%elem_of_entries. apply elem_of_flatten_keys in Hi as (p & Hp & Hi).
    destruct (Hks p Hp) as [q Hq]. unfold queue_at in Hi. rewrite Hq in Hi. cbn in Hi.
    rewrite (entries_price bk g R s p q e Hq); [done|]. by apply elem_of_entries. }
  induction Hs as [|p ks Hs IH Hall]; [constructor|].
  rewrite flatten_keys_cons, entries_app. destruct (Hk p ltac:(set_solver)) as [q Hq].
  assert (Hqp : forall e, e ∈ entries bk q -> entry_price e = p) by (intros e; by apply (entries_price bk g R s)).
  unfold queue_at at 1. rewrite Hq. cbn [default from_option id].
  specialize (IH ltac:(set_solver)). rewrite Forall_forall in Hall. clear Hq.
  induction (entries bk q) as [|e l IHl]; cbn; [done|]. constructor; [apply IHl; set_solver|].
  apply Forall_forall. intros x Hx. rewrite (Hqp e) by set_solver.
  apply elem_of_app in Hx as [Hx|Hx]; [rewrite (Hqp x) by set_solver; apply better_eq_refl|].
  apply Hall. eapply Hpr; [|done]. set_solver.
Qed.

Lemma view_front s : front_of_best bk s = Some (snd <$> head (book_view bk s)).
Proof.
  rewrite (front_of_best_rep bk g R), book_view_rep.
  pose proof (live_order bk g R s) as Hl. destruct (queue_list s (g_q g s)) as [|i q]; [done|].
  destruct (Hl i ltac:(set_solver)) as (o & Ho & _). by rewrite Ho, (entries_cons _ _ _ _ Ho).
Qed.

Lemma view_all_of s : all_of bk s = Some (book_view bk s).*2.
Proof.
  unfold all_of. rewrite (slots_of_rep bk g R), book_view_rep.
  pose proof (live_order bk g R s) as Hl. induction (queue_list s (g_q g s)) as [|i q IH]; [done|].
  destruct (Hl i ltac:(set_solver)) as (o & Ho & _). rewrite (entries_cons _ _ _ _ Ho), fmap_cons.
  unfold book_at in Ho. cbn. rewrite Ho. cbn. unfold book_at in IH. rewrite IH; [done|]. set_solver.
Qed.

Lemma cross_levels_rep s price quantity fuel k1 k2 total :
  sorted_keys s (g_q g s) = k1 ++ k2 -> (length k2 < fuel)%nat ->
  cross_levels fuel bk s price quantity (head k2) total =
    Some (crossable s price quantity (entries bk (flatten_keys (g_q g s) k2)) total).
Proof.
  revert fuel k1 total. induction k2 as [|p k2 IH]; intros [|fuel] k1 total Hk Hf; cbn [length] in Hf; try lia; [done|].
  cbn [cross_levels head]. destruct (level_facts bk g R s k1 p k2 Hk) as (q & Hq & Hfl & Hd & Hlen).
  pose proof (entries_price bk g R s p q) as Hpr. specialize (fun e => Hpr e Hq).
  change (match s with Buy => p <? price | Sell => price <? p end) with (better s price p).
  rewrite Hfl, entries_app. destruct (better s price p) eqn:Hb.
  - destruct (key_queue bk g R s p) as (a & q' & Hq' & _); [rewrite Hk; set_solver|].
    rewrite Hq in Hq'. injection Hq' as ->. destruct (live_order bk g R s a) as (o & Ho & _).
    { apply elem_of_queue_list. exists p, (a :: q'). split; [done|]. set_solver. }
    rewrite (entries_cons _ _ _ _ Ho) in *. cbn. by rewrite (Hpr (a, o)), Hb by set_solver.
  - rewrite (level_at_rep bk g R s p q Hq). cbn [level_of ls_head].
    rewrite (cross_level_dseg bk _ kNil q) by (done || by apply (slab_len bk g R)).
    rewrite (crossable_block s price quantity p) by done. cbn zeta.
    destruct (cross_sum _ _ _) as [t []]; cbn; [done|].
    rewrite (next_price_rep bk g R s k1 p k2 Hk). apply (IH fuel (k1 ++ [p])); [by rewrite <- app_assoc|lia].
Qed.

Lemma view_crossable s price quantity :
  crossable_quantity bk s price quantity = Some (crossable s price quantity (book_view bk s) 0).
Proof.
  unfold crossable_quantity. rewrite (si_empty_rep bk g R), (best_price_rep bk g R), book_view_rep.
  pose proof (cross_levels_rep s price quantity (walk_fuel bk) [] (sorted_keys s (g_q g s)) 0 eq_refl) as Hw.
  unfold queue_list. destruct (flatten_length bk g R s [] (sorted_keys s (g_q g s)) eq_refl) as [_ Hl].
  destruct (sorted_keys s (g_q g s)) as [|p ks]; [done|]. cbn [head] in *. apply Hw. unfold walk_fuel. lia.
Qed.
End View.
