(* ===== verification/BookSpec.v ===== *)
(** * The interface of a book

    [BookImpl] is the set of operations the engine calls on a book;
    [BookLaws] is what the book promises about them, in terms of the two
    priority lists.  The engine is defined and proved against these classes;
    [MatchingBook_laws] discharges the promises for the ladder, slab and
    linked queues of the source. *)
From S2P Require Import Prelude Types Bits TickLadder SideIndex PriceQueues MatchingBook BookRep BookOps BookReads.

Class BookImpl (B : Type) := {
  bk_new : Z -> Z -> B;
  bk_add : B -> BookOrder -> option (Z * B);
  bk_remove_at : B -> Z -> option (BookOrder * B);
  bk_reduce_at : B -> Z -> Quantity -> option B;
  bk_set_client_order_id_at : B -> Z -> ClientOrderId -> option B;
  bk_at : B -> Z -> option BookOrder;
  bk_front_of_best : B -> Side -> option (option BookOrder);
  bk_reduce_front : B -> Side -> Quantity -> option B;
  bk_remove_front : B -> Side -> option B;
  bk_crossable_quantity : B -> Side -> Price -> Quantity -> option Quantity;
  bk_all_of : B -> Side -> option (list BookOrder);
  bk_live_order_count : B -> Z;
  bk_slab_capacity : B -> Z;
  bk_out_of_band_levels : B -> Z;
  bk_out_of_band_orders : B -> option Z;
}.

(** Number of resting orders of a pair of sides. *)
Definition count_sides (v : Side -> list entry) : Z := Z.of_nat (length (v Buy) + length (v Sell)).

(** [v'] is [v] with side [s] replaced. *)
Definition side_update (v v' : Side -> list entry) (s : Side) (l : list entry) : Prop :=
  v' s = l /\ v' (contra_side s) = v (contra_side s).

Class BookLaws (B : Type) `{BookImpl B} := {
  bk_wf : B -> Prop;
  bk_view : B -> Side -> list entry;

  law_entry : forall b s e, bk_wf b -> e ∈ bk_view b s -> bo_side e.2 = s /\ price_ok (entry_price e);
  law_sorted : forall b s, bk_wf b -> prio_sorted s (bk_view b s);
  law_NoDup : forall b, bk_wf b -> NoDup (bk_view b Buy ++ bk_view b Sell).*1;
  law_count : forall b, bk_wf b -> bk_live_order_count b = count_sides (bk_view b);

  law_new : forall e n, 0 <= n <= kMaxBandTicks -> bk_wf (bk_new e n) /\ forall s, bk_view (bk_new e n) s = [];
  law_add : forall b o, bk_wf b -> price_ok (bo_price o) -> count_sides (bk_view b) < kNil ->
    exists h b', bk_add b o = Some (h, b') /\ bk_wf b' /\
      h ∉ (bk_view b Buy ++ bk_view b Sell).*1 /\
      side_update (bk_view b) (bk_view b') (bo_side o) (insert_prio (bo_side o) (h, o) (bk_view b (bo_side o)));
  law_remove_at : forall b s h o, bk_wf b -> (h, o) ∈ bk_view b s ->
    exists b', bk_remove_at b h = Some (o, b') /\ bk_wf b' /\
      side_update (bk_view b) (bk_view b') s (remove_handle h (bk_view b s));
  law_reduce_at : forall b s h o q, bk_wf b -> (h, o) ∈ bk_view b s ->
    exists b', bk_reduce_at b h q = Some b' /\ bk_wf b' /\
      side_update (bk_view b) (bk_view b') s (update_handle h (fun o => bo_set_remaining o q) (bk_view b s));
  law_set_client_order_id_at : forall b s h o c, bk_wf b -> (h, o) ∈ bk_view b s ->
    exists b', bk_set_client_order_id_at b h c = Some b' /\ bk_wf b' /\
      side_update (bk_view b) (bk_view b') s (update_handle h (fun o => bo_set_client_order_id o c) (bk_view b s));
  law_at : forall b s h o, bk_wf b -> (h, o) ∈ bk_view b s -> bk_at b h = Some o;
  law_front_of_best : forall b s, bk_wf b -> bk_front_of_best b s = Some (snd <$> head (bk_view b s));
  law_reduce_front : forall b s h o l q, bk_wf b -> bk_view b s = (h, o) :: l ->
    exists b', bk_reduce_front b s q = Some b' /\ bk_wf b' /\
      side_update (bk_view b) (bk_view b') s ((h, bo_set_remaining o q) :: l);
  law_remove_front : forall b s h o l, bk_wf b -> bk_view b s = (h, o) :: l ->
    exists b', bk_remove_front b s = Some b' /\ bk_wf b' /\
      side_update (bk_view b) (bk_view b') s l;
  law_crossable : forall b s price quantity, bk_wf b ->
    bk_crossable_quantity b s price quantity = Some (crossable s price quantity (bk_view b s) 0);
  law_all_of : forall b s, bk_wf b -> bk_all_of b s = Some (bk_view b s).*2;
}.

#[export] Instance MatchingBook_impl : BookImpl MatchingBook := {
  bk_new := MatchingBook_new;
  bk_add := add;
  bk_remove_at := remove_at;
  bk_reduce_at := reduce_at;
  bk_set_client_order_id_at := set_client_order_id_at;
  bk_at := book_at;
  bk_front_of_best := front_of_best;
  bk_reduce_front := reduce_front;
  bk_remove_front := remove_front;
  bk_crossable_quantity := crossable_quantity;
  bk_all_of := all_of;
  bk_live_order_count := mb_live_count;
  bk_slab_capacity := mb_slab_capacity;
  bk_out_of_band_levels := out_of_band_levels;
  bk_out_of_band_orders := out_of_band_orders;
}.

(** ** Updating the ghost queue at one price, seen in the views *)
Section Put.
Context (bk bk' : MatchingBook) (g : ghost) (R : rep bk g) (s : Side) (p : Price).
Let old := queue_at (g_q g s) p.

Lemma view_blocks : exists v1 v2,
  book_view bk s = v1 ++ entries bk old ++ v2 /\
  (forall e, e ∈ v1 -> better s (entry_price e) p = true) /\
  (forall e, e ∈ v2 -> better s p (entry_price e) = true) /\
  (forall q fl, rep bk' (g_put g s p q fl) ->
    (forall i, i ∈ g_live g -> i ∉ old -> book_at bk' i = book_at bk i) ->
    side_update (book_view bk) (book_view bk') s (v1 ++ entries bk' q ++ v2)).
Proof.
  destruct (queue_list_put s (g_q g s) p) as (l1 & l2 & H1 & H2 & _ & Hl1 & Hl2). fold old in H1.
  pose proof (live_NoDup _ _ _ _ (rp_slots _ _ R)) as Hnd.
  rewrite (live_perm bk g R s), !(view_fst bk g R), H1 in Hnd.
  exists (entries bk l1), (entries bk l2). split; [|split; [|split]].
  - by rewrite (book_view_rep bk g R), H1, !entries_app.
  - intros e He. pose proof He as [Hi Ho]%elem_of_entries. destruct (Hl1 _ Hi) as (r & qu & Hqu & Hx & Hc).
    rewrite (entries_price bk g R s r qu e Hqu); [done|]. by apply elem_of_entries.
  - intros e He. pose proof He as [Hi Ho]%elem_of_entries. destruct (Hl2 _ Hi) as (r & qu & Hqu & Hx & Hc).
    rewrite (entries_price bk g R s r qu e Hqu); [done|]. by apply elem_of_entries.
  - intros q fl R' Hsame.
    assert (Hin : forall i, i ∈ l1 \/ i ∈ l2 \/ i ∈ queue_list (contra_side s) (g_q g (contra_side s)) ->
                  book_at bk' i = book_at bk i).
    { intros i Hi. apply Hsame.
      - rewrite (live_perm bk g R s), !(view_fst bk g R), H1. set_solver.
      - apply NoDup_app in Hnd as (Hnd1 & Hnd2 & _). apply NoDup_app in Hnd1 as (_ & Hd1 & Hnd1).
        apply NoDup_app in Hnd1 as (_ & Hd2 & _). intros Hio.
        destruct Hi as [Hi|[Hi|Hi]]; [apply (Hd1 i Hi)|by apply (Hd2 i Hio)|apply (Hnd2 i)]; set_solver. }
    split; rewrite !(book_view_rep _ _ R'), ?(book_view_rep _ _ R).
    + rewrite g_q_put_eq, H2, !entries_app. f_equal; [|f_equal]; apply entries_ext; intros i Hi; apply Hin; auto.
    + rewrite g_q_put_ne by (by destruct s). apply entries_ext. intros i Hi. apply Hin. auto.
Qed.
End Put.

(** ** The laws, for [MatchingBook] *)
Section Laws.
Context (bk : MatchingBook) (g : ghost) (R : rep bk g).

Lemma view_entry s e : e ∈ book_view bk s ->
  exists p q, g_q g s !! p = Some q /\ e.1 ∈ q /\ bo_side e.2 = s /\ entry_price e = p /\ price_ok p.
Proof.
  intros [Hi Ho]%(elem_of_view bk g R). pose proof (live_order bk g R s _ Hi) as (o & Ho' & Hs).
  rewrite Ho in Ho'. injection Ho' as <-. apply elem_of_queue_list in Hi as (p & q & Hq & Hi).
  exists p, q. split; [done|]. split; [done|]. split; [done|].
  split; [|by apply (rp_queues _ _ R) in Hq as (_ & ? & _)].
  eapply (entries_price bk g R s p q); [done|]. by apply elem_of_entries.
Qed.

Lemma view_NoDup s : NoDup (book_view bk s ++ book_view bk (contra_side s)).*1.
Proof. rewrite (view_fst_app bk g R). apply (live_NoDup _ _ _ _ (rp_slots _ _ R)). Qed.
Lemma view_count : mb_live_count bk = count_sides (book_view bk).
Proof.
  rewrite (rp_live _ _ R), <- (view_fst_app bk g R Buy), length_fmap, length_app. done.
Qed.

Lemma book_add_law o : price_ok (bo_price o) -> count_sides (book_view bk) < kNil ->
  exists h b', add bk o = Some (h, b') /\ book_wf b' /\
    h ∉ (book_view bk Buy ++ book_view bk Sell).*1 /\
    side_update (book_view bk) (book_view b') (bo_side o)
      (insert_prio (bo_side o) (h, o) (book_view bk (bo_side o))).
Proof.
  intros Hp Hc. rewrite <- view_count, (rp_live _ _ R) in Hc.
  destruct (add_rep bk g o R Hp Hc) as (h & b' & fl & Hadd & R' & Hfresh & Hat & Hsame).
  exists h, b'. split; [done|]. split; [by eexists|].
  split; [by rewrite (view_fst_app bk g R Buy)|].
  destruct (view_blocks bk b' g R (bo_side o) (bo_price o)) as (v1 & v2 & Hv & H1 & H2 & Hup).
  specialize (Hup _ _ R' (fun i Hi _ => Hsame i Hi)). rewrite Hv, app_assoc.
  set (old := queue_at (g_q g (bo_side o)) (bo_price o)) in *.
  assert (Hold : entries b' old = entries bk old).
  { apply entries_ext. intros i Hi. apply Hsame. unfold old, queue_at in Hi.
    destruct (g_q g (bo_side o) !! bo_price o) as [q|] eqn:Hq; [|set_solver].
    by apply (queue_live bk g (bo_side o) (bo_price o) q). }
  rewrite insert_prio_split.
  - rewrite entries_app, Hold, (entries_cons b' h [] o Hat) in Hup.
    by rewrite <- !app_assoc in *.
  - intros e [He|He]%elem_of_app; [by apply better_better_eq, H1|].
    unfold old, queue_at in He. destruct (g_q g (bo_side o) !! bo_price o) as [q|] eqn:Hq; [|cbn in He; set_solver].
    cbn in He. rewrite (entries_price bk g R _ _ _ _ Hq He). apply better_eq_refl.
  - intros e He. by apply H2.
Qed.

Lemma split_at s h o : (h, o) ∈ book_view bk s -> exists p q1 q2,
  g_q g s !! p = Some (q1 ++ h :: q2) /\ book_at bk h = Some o /\ h ∈ g_live g.
Proof.
  intros He. pose proof He as (p & q & Hq & Hi & _)%view_entry. cbn in Hi.
  apply (elem_of_view bk g R) in He as [_ Ho]. pose proof (queue_live bk g s p q h R Hq Hi).
  apply list_elem_of_split in Hi as (q1 & q2 & ->). eauto 6.
Qed.

(** Dropping one slot from its queue. *)
Lemma view_drop b' s p q1 h q2 fl : g_q g s !! p = Some (q1 ++ h :: q2) ->
  rep b' (g_put g s p (q1 ++ q2) fl) -> (forall i, i ∈ g_live g -> i <> h -> book_at b' i = book_at bk i) ->
  side_update (book_view bk) (book_view b') s (remove_handle h (book_view bk s)).
Proof.
  intros Hq R' Hsame. destruct (view_blocks bk b' g R s p) as (v1 & v2 & Hv & _ & _ & Hup).
  unfold queue_at in Hv, Hup. rewrite Hq in Hv, Hup. cbn in Hv, Hup.
  assert (Hlive : forall i, i ∈ q1 ++ h :: q2 -> i ∈ g_live g) by (intros i; by apply (queue_live bk g s p)).
  specialize (Hup _ _ R').
  assert (Hsame' : forall i, i ∈ g_live g -> i ∉ q1 ++ h :: q2 -> book_at b' i = book_at bk i).
  { intros i Hi Hn. apply Hsame; [done|]. intros ->. apply Hn. set_solver. }
  specialize (Hup Hsame'). pose proof (view_NoDup s) as Hnd. rewrite fmap_app in Hnd.
  apply NoDup_app in Hnd as (Hnd & _). rewrite Hv in Hnd |- *.
  destruct (live_order bk g R s h) as (o & Ho & _).
  { apply elem_of_queue_list. exists p, (q1 ++ h :: q2). split; [done|]. set_solver. }
  rewrite entries_app, (entries_cons _ _ _ _ Ho) in Hnd |- *.
  rewrite entries_app in Hup.
  assert (Hne : forall l, (forall x, x ∈ l -> x ∈ q1 ++ h :: q2) -> h ∉ l -> entries b' l = entries bk l).
  { intros l Hl Hn. apply entries_ext. intros i Hi. apply Hsame; [auto|]. by intros ->. }
  pose proof (rp_slots _ _ R) as Hsl. apply live_NoDup in Hsl.
  assert (Hndq : NoDup (q1 ++ h :: q2)).
  { destruct (g_live_split g s p) as (l & Hl & _). unfold queue_at in Hl. rewrite Hq in Hl. cbn in Hl.
    rewrite Hl in Hsl. by apply NoDup_app in Hsl as (? & _). }
  apply NoDup_app in Hndq as (_ & Hd & [Hn2 _]%NoDup_cons).
  rewrite !Hne in Hup by (done || set_solver).
  replace (v1 ++ (entries bk q1 ++ (h, o) :: entries bk q2) ++ v2)
    with ((v1 ++ entries bk q1) ++ (h, o) :: entries bk q2 ++ v2) in Hnd |- * by (by rewrite <- !app_assoc).
  rewrite remove_handle_mid by done. by rewrite <- !app_assoc in *.
Qed.

Lemma book_remove_at_law s h o : (h, o) ∈ book_view bk s ->
  exists b', remove_at bk h = Some (o, b') /\ book_wf b' /\
    side_update (book_view bk) (book_view b') s (remove_handle h (book_view bk s)).
Proof.
  intros He. destruct (split_at s h o He) as (p & q1 & q2 & Hq & Ho & _).
  destruct (remove_at_rep bk g R s p q1 q2 h Hq) as (o' & b' & fl & Hrem & Ho' & R' & Hsame).
  rewrite Ho in Ho'. injection Ho' as <-. exists b'. split; [done|]. split; [by eexists|].
  by eapply view_drop.
Qed.

(** Storing into one order. *)
Lemma view_store b' f s h o : rep b' g -> h ∈ g_live g -> book_at bk h = Some o ->
  book_at b' h = Some (f o) -> (h, o) ∈ book_view bk s ->
  (forall i, i ∈ g_live g -> i <> h -> book_at b' i = book_at bk i) ->
  side_update (book_view bk) (book_view b') s (update_handle h f (book_view bk s)).
Proof.
  intros R' Hh Ho Ho' Hin Hsame. rewrite !(book_view_rep bk g R).
  assert (Hu : forall l, (forall i, i ∈ l -> i ∈ g_live g) -> entries b' l = update_handle h f (entries bk l)).
  { induction l as [|i l IH]; intros Hl; [done|].
    assert (Hi : is_Some (book_at bk i)).
    { unfold book_at. apply fmap_is_Some. destruct (slab_at_valid (mb_slab bk) i) as [so ->]; [|done].
      apply (live_valid _ _ _ _ (rp_slots _ _ R)). apply Hl. set_solver. }
    destruct Hi as [oi Hi]. rewrite (entries_cons _ _ _ _ Hi). unfold update_handle. rewrite fmap_cons. cbn [fst snd].
    case_decide as Hd.
    - subst i. rewrite Ho in Hi. injection Hi as <-. rewrite (entries_cons _ _ _ _ Ho'), IH; [done|]. set_solver.
    - rewrite (entries_cons b' i l oi), IH; [done|set_solver|]. rewrite Hsame; [done| |done]. apply Hl. set_solver. }
  assert (Hlive : forall s' i, i ∈ queue_list s' (g_q g s') -> i ∈ g_live g).
  { intros s' i Hi. rewrite (live_perm bk g R s'), !(view_fst bk g R). set_solver. }
  unfold side_update. rewrite !(book_view_rep b' g R'), (book_view_rep bk g R). split; [apply Hu, Hlive|].
  rewrite Hu by apply Hlive. apply update_handle_notin.
  pose proof (view_NoDup s) as Hnd. rewrite fmap_app in Hnd. apply NoDup_app in Hnd as (_ & Hd & _).
  rewrite <- (book_view_rep bk g R). apply Hd. apply list_elem_of_fmap. by exists (h, o).
Qed.

Lemma book_store_law s h o f : (h, o) ∈ book_view bk s ->
  (forall o, bo_side (f o) = bo_side o /\ bo_price (f o) = bo_price o) ->
  exists sl', slab_store (mb_slab bk) h (fun so => so_set_order (f (so_order so)) so) = Some sl' /\
    book_wf (mb_with_slab bk sl') /\
    side_update (book_view bk) (book_view (mb_with_slab bk sl')) s (update_handle h f (book_view bk s)).
Proof.
  intros He Hf. destruct (split_at s h o He) as (_ & _ & _ & _ & Ho & Hl).
  destruct (store_order_rep bk g h f R Hl Hf) as (sl' & o' & Hst & R' & Ho' & Hat & Hsame).
  rewrite Ho in Ho'. injection Ho' as <-. exists sl'. split; [done|]. split; [by eexists|].
  by apply (view_store _ f s h o).
Qed.

(** The head of the view is the head of the best level. *)
Lemma view_head s h o l : book_view bk s = (h, o) :: l ->
  exists p q, g_q g s !! p = Some (h :: q) /\ head (sorted_keys s (g_q g s)) = Some p.
Proof.
  intros Hv. pose proof (view_fst bk g R s) as Hf. rewrite Hv, fmap_cons in Hf. cbn in Hf.
  pose proof (queue_list_head bk g R s) as Hh. destruct (sorted_keys s (g_q g s)) as [|p ks]; [by rewrite Hh in Hf|].
  destruct Hh as (a & q & l' & Hq & Hl). rewrite Hl in Hf. injection Hf as -> _. eauto.
Qed.
Lemma view_head_NoDup s h o l : book_view bk s = (h, o) :: l -> h ∉ l.*1.
Proof.
  intros Hv. pose proof (view_NoDup s) as Hnd. rewrite Hv, fmap_app, fmap_cons in Hnd.
  apply NoDup_app in Hnd as (Hnd & _). by apply NoDup_cons in Hnd as [? _].
Qed.

Lemma book_reduce_front_law s h o l q : book_view bk s = (h, o) :: l ->
  exists b', reduce_front bk s q = Some b' /\ book_wf b' /\
    side_update (book_view bk) (book_view b') s ((h, bo_set_remaining o q) :: l).
Proof.
  intros Hv. destruct (view_head s h o l Hv) as (p & qu & Hq & Hb).
  destruct (book_store_law s h o (fun o => bo_set_remaining o q)) as (sl' & Hst & W & Hup);
    [rewrite Hv; set_solver|done|].
  exists (mb_with_slab bk sl'). unfold reduce_front. rewrite (best_price_rep bk g R), Hb, (level_at_rep bk g R s p _ Hq).
  cbn [level_of ls_head hd]. rewrite Hst. split; [done|]. split; [done|].
  rewrite Hv in Hup. unfold update_handle in Hup. rewrite fmap_cons in Hup. cbn [fst snd] in Hup.
  rewrite decide_True in Hup by done. fold (update_handle h (fun o => bo_set_remaining o q) l) in Hup.
  rewrite update_handle_notin in Hup; [done|by eapply view_head_NoDup].
Qed.

Lemma book_remove_front_law s h o l : book_view bk s = (h, o) :: l ->
  exists b', remove_front bk s = Some b' /\ book_wf b' /\ side_update (book_view bk) (book_view b') s l.
Proof.
  intros Hv. destruct (view_head s h o l Hv) as (p & qu & Hq & Hb).
  destruct (remove_front_rep bk g s p h qu R Hq Hb) as (b' & fl & Hrem & R' & Hsame).
  exists b'. split; [done|]. split; [by eexists|].
  pose proof (view_drop b' s p [] h qu fl Hq R' Hsame) as Hup. rewrite Hv in Hup.
  unfold remove_handle in Hup. rewrite filter_cons_False in Hup by (cbn; tauto).
  fold (remove_handle h l) in Hup. rewrite remove_handle_notin in Hup; [done|by eapply view_head_NoDup].
Qed.
End Laws.

Lemma book_new_law e n : 0 <= n <= kMaxBandTicks ->
  book_wf (MatchingBook_new e n) /\ forall s, book_view (MatchingBook_new e n) s = [].
Proof.
  intros Hn. pose proof (rep_new e n Hn) as R. split; [by eexists|]. intros s.
  rewrite (book_view_rep _ _ R). by destruct s.
Qed.

#[export] Program Instance MatchingBook_laws : BookLaws MatchingBook :=
  { bk_wf := book_wf; bk_view := book_view }.
Next Obligation. intros b s e [g R] (p & q & _ & _ & Hs & <- & Hp)%(view_entry b g R). done. Qed.
Next Obligation. intros b s [g R]. by apply (view_sorted b g). Qed.
Next Obligation. intros b [g R]. apply (view_NoDup b g R Buy). Qed.
Next Obligation. intros b [g R]. by apply (view_count b g). Qed.
Next Obligation. intros e n Hn. by apply book_new_law. Qed.
Next Obligation. intros b o [g R]. by apply (book_add_law b g). Qed.
Next Obligation. intros b s h o [g R]. by apply (book_remove_at_law b g). Qed.
Next Obligation.
  intros b s h o q [g R] He.
  destruct (book_store_law b g R s h o (fun o => bo_set_remaining o q) He) as (sl' & Hst & W & Hup); [done|].
  exists (mb_with_slab b sl'). split; [|done]. cbn. unfold reduce_at. by rewrite Hst.
Qed.
Next Obligation.
  intros b s h o c [g R] He.
  destruct (book_store_law b g R s h o (fun o => bo_set_client_order_id o c) He) as (sl' & Hst & W & Hup); [done|].
  exists (mb_with_slab b sl'). split; [|done]. cbn. unfold set_client_order_id_at. by rewrite Hst.
Qed.
Next Obligation. intros b s h o [g R] He. by apply (split_at b g R) in He as (_ & _ & _ & _ & ? & _). Qed.
Next Obligation. intros b s [g R]. by apply (view_front b g). Qed.
Next Obligation. intros b s h o l q [g R]. by apply (book_reduce_front_law b g). Qed.
Next Obligation. intros b s h o l [g R]. by apply (book_remove_front_law b g). Qed.
Next Obligation. intros b s p q [g R]. by apply (view_crossable b g). Qed.
Next Obligation. intros b s [g R]. by apply (view_all_of b g). Qed.
