(* ===== verification/MatchingEngine.v ===== *)
(** * MatchingEngine -- the authoritative matching engine

    include/exchange/matching/matching_engine.hpp and
    src/exchange/matching/matching_engine.cpp.  The engine is defined over
    any book implementation ([BookImpl]); the source's is [MatchingBook].

    An operation takes the engine and returns the engine and the events it
    gave to the sink, in order.  [None] is a throw ([orders_.at]), undefined
    behaviour inside a book, or a loop out of fuel. *)
From S2P Require Import Prelude Types Bits TickLadder SideIndex PriceQueues MatchingBook BookSpec.

(** ** Data *)
Definition kNoSlot : Z := 4294967295. (* ~0U *)
Definition kMaxInstrumentId : InstrumentId := 4194303. (* (1U << 22) - 1 *)
Definition kLadderByteBudget : Z := 8388608. (* 8U << 20 *)

Record OrderRef := {
  ref_original_quantity : Quantity;
  ref_order_sequence : Z;
  ref_handle : Z;
  ref_instrument_id : InstrumentId;
}.

(** [LiveKey]: (account_id, client_order_id). *)
Abbreviation LiveKey := (Z * Z)%type (only parsing).

Record MatchingEngine (B : Type) := {
  me_slot_of_id : list Z;
  me_books : list B;
  me_expected_orders_per_book : Z;
  me_band_ticks : Z;
  me_by_id : list (InstrumentId * Z);
  me_orders : gmap LiveKey OrderRef;
  me_resting_orders : Z;
  me_next_exchange_order_id : ExchangeOrderId;
  me_next_event_sequence : EventSequence;
  me_next_priority : Z;
}.
Arguments me_slot_of_id {B} _.
Arguments me_books {B} _.
Arguments me_expected_orders_per_book {B} _.
Arguments me_band_ticks {B} _.
Arguments me_by_id {B} _.
Arguments me_orders {B} _.
Arguments me_resting_orders {B} _.
Arguments me_next_exchange_order_id {B} _.
Arguments me_next_event_sequence {B} _.
Arguments me_next_priority {B} _.

(** ** Stores *)
Section Stores.
Context {B : Type} (e : MatchingEngine B).
Definition me_with_books (v : list B) : MatchingEngine B :=
  {| me_slot_of_id := me_slot_of_id e; me_books := v;
     me_expected_orders_per_book := me_expected_orders_per_book e; me_band_ticks := me_band_ticks e;
     me_by_id := me_by_id e; me_orders := me_orders e; me_resting_orders := me_resting_orders e;
     me_next_exchange_order_id := me_next_exchange_order_id e;
     me_next_event_sequence := me_next_event_sequence e; me_next_priority := me_next_priority e |}.
Definition me_with_orders (m : gmap LiveKey OrderRef) (resting : Z) : MatchingEngine B :=
  {| me_slot_of_id := me_slot_of_id e; me_books := me_books e;
     me_expected_orders_per_book := me_expected_orders_per_book e; me_band_ticks := me_band_ticks e;
     me_by_id := me_by_id e; me_orders := m; me_resting_orders := resting;
     me_next_exchange_order_id := me_next_exchange_order_id e;
     me_next_event_sequence := me_next_event_sequence e; me_next_priority := me_next_priority e |}.
Definition me_with_counters (xid seq prio : Z) : MatchingEngine B :=
  {| me_slot_of_id := me_slot_of_id e; me_books := me_books e;
     me_expected_orders_per_book := me_expected_orders_per_book e; me_band_ticks := me_band_ticks e;
     me_by_id := me_by_id e; me_orders := me_orders e; me_resting_orders := me_resting_orders e;
     me_next_exchange_order_id := xid; me_next_event_sequence := seq; me_next_priority := prio |}.

(** [next_event_sequence_++], [next_exchange_order_id_++], [next_priority_++]. *)
Definition bump_event_sequence : MatchingEngine B :=
  me_with_counters (me_next_exchange_order_id e) (u64 (me_next_event_sequence e + 1)) (me_next_priority e).
Definition bump_exchange_order_id : MatchingEngine B :=
  me_with_counters (u64 (me_next_exchange_order_id e + 1)) (me_next_event_sequence e) (me_next_priority e).
Definition bump_priority : MatchingEngine B :=
  me_with_counters (me_next_exchange_order_id e) (me_next_event_sequence e) (u64 (me_next_priority e + 1)).

(** [sink(event)] with [event_sequence = next_event_sequence_++]. *)
Definition emit (f : EventSequence -> ExchangeEvent) : MatchingEngine B * ExchangeEvent :=
  (bump_event_sequence, f (me_next_event_sequence e)).
End Stores.

Section Engine.
Context {B : Type} `{BookImpl B}.

(** ** Registry *)
Definition knows_instrument (e : MatchingEngine B) (instrument_id : InstrumentId) : bool :=
  match me_slot_of_id e !! Z.to_nat instrument_id with
  | Some slot => negb (slot =? kNoSlot)
  | None => false
  end.

(** [by_id_.insert(lower_bound(...), {instrument_id, slot})]. *)
Fixpoint insert_by_id (id : InstrumentId) (slot : Z) (l : list (InstrumentId * Z)) : list (InstrumentId * Z) :=
  match l with
  | [] => [(id, slot)]
  | x :: l' => if x.1 <? id then x :: insert_by_id id slot l' else (id, slot) :: l
  end.

Definition register_instrument (e : MatchingEngine B) (instrument_id : InstrumentId) : bool * MatchingEngine B :=
  if (kMaxInstrumentId <? instrument_id) || knows_instrument e instrument_id then (false, e)
  else
    let table := if Z.of_nat (length (me_slot_of_id e)) <=? instrument_id
                 then me_slot_of_id e ++
                      replicate (Z.to_nat (instrument_id + 1) - length (me_slot_of_id e)) kNoSlot
                 else me_slot_of_id e in
    let slot := u32 (Z.of_nat (length (me_books e))) in
    let band := Z.min (me_band_ticks e)
                  (band_for (Z.of_nat (length (me_books e)) + 1) kLadderByteBudget) in
    (true,
     {| me_slot_of_id := <[Z.to_nat instrument_id := slot]> table;
        me_books := me_books e ++ [bk_new (me_expected_orders_per_book e) band];
        me_expected_orders_per_book := me_expected_orders_per_book e;
        me_band_ticks := band;
        me_by_id := insert_by_id instrument_id slot (me_by_id e);
        me_orders := me_orders e; me_resting_orders := me_resting_orders e;
        me_next_exchange_order_id := me_next_exchange_order_id e;
        me_next_event_sequence := me_next_event_sequence e;
        me_next_priority := me_next_priority e |}).

Definition MatchingEngine_new (universe : list InstrumentId) (expected_resting_orders : Z) : MatchingEngine B :=
  let widest := foldl (fun w id => if id <=? kMaxInstrumentId then Z.max w id else w) 0 universe in
  let n := Z.of_nat (length universe) in
  let empty := match universe with [] => true | _ => false end in
  let e0 :=
    {| me_slot_of_id := if empty then [] else replicate (Z.to_nat (widest + 1)) kNoSlot;
       me_books := [];
       me_expected_orders_per_book := if empty then 0 else expected_resting_orders / n;
       me_band_ticks := if empty then kMaxBandTicks else band_for n kLadderByteBudget;
       me_by_id := []; me_orders := ∅; me_resting_orders := 0;
       me_next_exchange_order_id := 1; me_next_event_sequence := 1; me_next_priority := 1 |} in
  foldl (fun e id => (register_instrument e id).2) e0 universe.

(** [books_[slot_of_id_[instrument_id]]], as an index and as a value. *)
Definition slot_for (e : MatchingEngine B) (instrument_id : InstrumentId) : option nat :=
  Z.to_nat <$> me_slot_of_id e !! Z.to_nat instrument_id.
Definition book_for (e : MatchingEngine B) (instrument_id : InstrumentId) : option B :=
  let* slot := slot_for e instrument_id in me_books e !! slot.
Definition store_book (e : MatchingEngine B) (instrument_id : InstrumentId) (b : B) : option (MatchingEngine B) :=
  let* slot := slot_for e instrument_id in Some (me_with_books e (<[slot := b]> (me_books e))).

(** ** Snapshot and gauges *)
Definition compose (e : MatchingEngine B) (order : BookOrder) (instrument_id : InstrumentId) : option ExchangeRestingOrder :=
  let* ref := me_orders e !! (bo_account_id order, bo_client_order_id order) in
  Some {| ero_exchange_order_id := bo_exchange_order_id order;
          ero_client_order_id := bo_client_order_id order;
          ero_account_id := bo_account_id order;
          ero_price := bo_price order;
          ero_original_quantity := ref_original_quantity ref;
          ero_remaining_quantity := bo_remaining_quantity order;
          ero_order_sequence := ref_order_sequence ref;
          ero_instrument_id := instrument_id;
          ero_side := bo_side order;
          ero_time_in_force := bo_time_in_force order |}.

Fixpoint snapshot_from (e : MatchingEngine B) (ids : list (InstrumentId * Z)) : option (list InstrumentBookSnapshot) :=
  match ids with
  | [] => Some []
  | (instrument_id, slot) :: ids =>
      let* b := me_books e !! Z.to_nat slot in
      let* bid_orders := bk_all_of b Buy in
      let* ask_orders := bk_all_of b Sell in
      let* bids := mapM (fun o => compose e o instrument_id) bid_orders in
      let* asks := mapM (fun o => compose e o instrument_id) ask_orders in
      let* rest := snapshot_from e ids in
      match bids, asks with
      | [], [] => Some rest
      | _, _ => Some ({| ibs_instrument_id := instrument_id; ibs_bids := bids; ibs_asks := asks |} :: rest)
      end
  end.
Definition snapshot (e : MatchingEngine B) : option EngineStateSnapshot :=
  let* l := snapshot_from e (me_by_id e) in Some {| ess_instruments := l |}.

Definition engine_out_of_band_levels (e : MatchingEngine B) : Z :=
  foldl (fun total b => u64 (total + bk_out_of_band_levels b)) 0 (me_books e).
Definition engine_out_of_band_orders (e : MatchingEngine B) : option Z :=
  foldl (fun total b => let* t := total in let* n := bk_out_of_band_orders b in Some (u64 (t + n)))
        (Some 0) (me_books e).
(** [BookMemoryStats]: (live_orders, slab_capacity). *)
Definition book_memory_stats (e : MatchingEngine B) : Z * Z :=
  foldl (fun st b => (u64 (st.1 + bk_live_order_count b), u64 (st.2 + bk_slab_capacity b))) (0, 0) (me_books e).

(** ** Rejections *)
Definition rejected (cseq : CommandSequence) (account : AccountId) (coid : ClientOrderId)
    (instrument_id : InstrumentId) (reason : RejectReason.t) (seq : EventSequence) : ExchangeEvent :=
  EvOrderRejected {| orj_event_sequence := seq; orj_command_sequence := cseq; orj_account_id := account;
                     orj_client_order_id := coid; orj_instrument_id := instrument_id; orj_reason := reason |}.

Definition reject_new_order (e : MatchingEngine B) (command : NewOrderCommand) (reason : RejectReason.t)
    : MatchingEngine B * ExchangeEvent :=
  emit e (rejected (noc_command_sequence command) (noc_account_id command) (noc_client_order_id command)
                   (noc_instrument_id command) reason).
Definition reject_replace_order (e : MatchingEngine B) (command : ReplaceOrderCommand) (reason : RejectReason.t)
    : MatchingEngine B * ExchangeEvent :=
  emit e (rejected (roc_command_sequence command) (roc_account_id command)
                   (roc_original_client_order_id command) (roc_instrument_id command) reason).
Definition reject_cancel (e : MatchingEngine B) (command : CancelOrderCommand) (reason : RejectReason.t)
    : MatchingEngine B * ExchangeEvent :=
  emit e (rejected (coc_command_sequence command) (coc_account_id command) (coc_client_order_id command)
                   (coc_instrument_id command) reason).

(** ** Matching *)
Definition engine_crossable_quantity (e : MatchingEngine B) (instrument_id : InstrumentId) (incoming_side : Side)
    (price : Price) (quantity : Quantity) : option Quantity :=
  let* b := book_for e instrument_id in
  bk_crossable_quantity b (contra_side incoming_side) price quantity.

Definition ero_set_remaining (o : ExchangeRestingOrder) (q : Quantity) : ExchangeRestingOrder :=
  {| ero_exchange_order_id := ero_exchange_order_id o; ero_client_order_id := ero_client_order_id o;
     ero_account_id := ero_account_id o; ero_price := ero_price o;
     ero_original_quantity := ero_original_quantity o; ero_remaining_quantity := q;
     ero_order_sequence := ero_order_sequence o; ero_instrument_id := ero_instrument_id o;
     ero_side := ero_side o; ero_time_in_force := ero_time_in_force o |}.

Definition crosses (side : Side) (price contra_price : Price) : bool :=
  match side with Buy => contra_price <=? price | Sell => price <=? contra_price end.

(** The events of one fill.  [rem_in] and [rem_contra] are the quantities
    left after it. *)
Definition trade_event (incoming : ExchangeRestingOrder) (contra : BookOrder) (cseq : CommandSequence)
    (trade_qty rem_in rem_contra : Quantity) (seq : EventSequence) : ExchangeEvent :=
  let aggressor_cp := {| tcp_account_id := ero_account_id incoming;
                         tcp_client_order_id := ero_client_order_id incoming;
                         tcp_exchange_order_id := ero_exchange_order_id incoming;
                         tcp_remaining_quantity := rem_in |} in
  let resting_cp := {| tcp_account_id := bo_account_id contra;
                       tcp_client_order_id := bo_client_order_id contra;
                       tcp_exchange_order_id := bo_exchange_order_id contra;
                       tcp_remaining_quantity := rem_contra |} in
  EvTradeExecuted
    {| te_event_sequence := seq; te_command_sequence := cseq;
       te_instrument_id := ero_instrument_id incoming;
       te_price := bo_price contra; te_quantity := trade_qty; te_aggressor_side := ero_side incoming;
       te_buyer := match ero_side incoming with Buy => aggressor_cp | Sell => resting_cp end;
       te_seller := match ero_side incoming with Buy => resting_cp | Sell => aggressor_cp end |}.
Definition book_removed (instrument_id : InstrumentId) (o : BookOrder) (seq : EventSequence) : ExchangeEvent :=
  EvBookOrderRemoved {| bom_event_sequence := seq; bom_instrument_id := instrument_id;
                        bom_exchange_order_id := bo_exchange_order_id o;
                        bom_side := bo_side o; bom_price := bo_price o |}.
Definition book_reduced (instrument_id : InstrumentId) (o : BookOrder) (q : Quantity) (seq : EventSequence)
    : ExchangeEvent :=
  EvBookOrderReduced {| bor_event_sequence := seq; bor_instrument_id := instrument_id;
                        bor_exchange_order_id := bo_exchange_order_id o;
                        bor_side := bo_side o; bor_price := bo_price o; bor_new_remaining_quantity := q |}.

(** The loop of match_and_rest.  [incoming] carries its remaining quantity. *)
Fixpoint match_loop (fuel : nat) (e : MatchingEngine B) (incoming : ExchangeRestingOrder) (cseq : CommandSequence)
    : option (MatchingEngine B * ExchangeRestingOrder * list ExchangeEvent) :=
  match fuel with
  | O => None
  | S fuel =>
      if ero_remaining_quantity incoming =? 0 then Some (e, incoming, [])
      else
        let* b := book_for e (ero_instrument_id incoming) in
        let contra_side := contra_side (ero_side incoming) in
        let* front := bk_front_of_best b contra_side in
        match front with
        | None => Some (e, incoming, [])
        | Some contra =>
            if negb (crosses (ero_side incoming) (ero_price incoming) (bo_price contra))
            then Some (e, incoming, [])
            else
              let trade_qty := Z.min (ero_remaining_quantity incoming) (bo_remaining_quantity contra) in
              let incoming := ero_set_remaining incoming (u64 (ero_remaining_quantity incoming - trade_qty)) in
              let contra_remaining_after := u64 (bo_remaining_quantity contra - trade_qty) in
              let (e, trade) := emit e (trade_event incoming contra cseq trade_qty
                                          (ero_remaining_quantity incoming) contra_remaining_after) in
              if contra_remaining_after =? 0 then
                let* b := bk_remove_front b contra_side in
                let* e := store_book e (ero_instrument_id incoming) b in
                let e := me_with_orders e (delete (bo_account_id contra, bo_client_order_id contra) (me_orders e))
                           (u64 (me_resting_orders e - 1)) in
                let (e, removed) := emit e (book_removed (ero_instrument_id incoming) contra) in
                let* (e, incoming, evs) := match_loop fuel e incoming cseq in
                Some (e, incoming, trade :: removed :: evs)
              else
                let* b := bk_reduce_front b contra_side contra_remaining_after in
                let* e := store_book e (ero_instrument_id incoming) b in
                let (e, reduced) := emit e (book_reduced (ero_instrument_id incoming) contra contra_remaining_after) in
                let* (e, incoming, evs) := match_loop fuel e incoming cseq in
                Some (e, incoming, trade :: reduced :: evs)
        end
  end.

(** Every iteration but the last two removes an order from the book. *)
Definition match_and_rest (e : MatchingEngine B) (incoming : ExchangeRestingOrder) (cseq : CommandSequence)
    : option (MatchingEngine B * ExchangeRestingOrder * list ExchangeEvent) :=
  let* b := book_for e (ero_instrument_id incoming) in
  match_loop (S (Z.to_nat (bk_live_order_count b))) e incoming cseq.

Definition book_order_of (order : ExchangeRestingOrder) : BookOrder :=
  {| bo_exchange_order_id := ero_exchange_order_id order; bo_client_order_id := ero_client_order_id order;
     bo_account_id := ero_account_id order; bo_price := ero_price order;
     bo_remaining_quantity := ero_remaining_quantity order; bo_side := ero_side order;
     bo_time_in_force := ero_time_in_force order |}.

Definition rest_remainder_if_applicable (e : MatchingEngine B) (order : ExchangeRestingOrder)
    : option (MatchingEngine B * list ExchangeEvent) :=
  if negb (bool_decide (ero_time_in_force order = GTC)) || (ero_remaining_quantity order =? 0)
  then Some (e, [])
  else
    let* b := book_for e (ero_instrument_id order) in
    let* (handle, b) := bk_add b (book_order_of order) in
    let* e := store_book e (ero_instrument_id order) b in
    let ref := {| ref_original_quantity := ero_original_quantity order;
                  ref_order_sequence := ero_order_sequence order;
                  ref_handle := handle; ref_instrument_id := ero_instrument_id order |} in
    let e := me_with_orders e (<[(ero_account_id order, ero_client_order_id order) := ref]> (me_orders e))
               (u64 (me_resting_orders e + 1)) in
    let (e, added) := emit e (fun seq => EvBookOrderAdded
          {| boa_event_sequence := seq; boa_instrument_id := ero_instrument_id order;
             boa_exchange_order_id := ero_exchange_order_id order; boa_side := ero_side order;
             boa_price := ero_price order; boa_quantity := ero_remaining_quantity order |}) in
    Some (e, [added]).

(** Both calls, as process_new_order and process_replace end. *)
Definition match_then_rest (e : MatchingEngine B) (order : ExchangeRestingOrder) (cseq : CommandSequence)
    : option (MatchingEngine B * list ExchangeEvent) :=
  let* (e, order, fills) := match_and_rest e order cseq in
  let* (e, rested) := rest_remainder_if_applicable e order in
  Some (e, fills ++ rested).

(** ** Commands *)
Definition process_new_order (e : MatchingEngine B) (cmd : NewOrderCommand) : option (MatchingEngine B * list ExchangeEvent) :=
  let reject (reason : RejectReason.t) := let (e, ev) := reject_new_order e cmd reason in Some (e, [ev]) in
  if negb (knows_instrument e (noc_instrument_id cmd)) then reject RejectReason.InvalidInstrument
  else if noc_price cmd <=? 0 then reject RejectReason.InvalidPrice
  else if noc_quantity cmd =? 0 then reject RejectReason.InvalidQuantity
  else if bool_decide (is_Some (me_orders e !! (noc_account_id cmd, noc_client_order_id cmd)))
  then reject RejectReason.DuplicateOrderId
  else
    let* killed := (if bool_decide (noc_time_in_force cmd = FOK)
                    then let* available := engine_crossable_quantity e (noc_instrument_id cmd) (noc_side cmd)
                                             (noc_price cmd) (noc_quantity cmd) in
                         Some (available <? noc_quantity cmd)
                    else Some false) in
    if (killed : bool) then reject RejectReason.InsufficientLiquidity
    else
      let exchange_order_id := me_next_exchange_order_id e in
      let e := bump_exchange_order_id e in
      let order :=
        {| ero_exchange_order_id := exchange_order_id; ero_client_order_id := noc_client_order_id cmd;
           ero_account_id := noc_account_id cmd; ero_price := noc_price cmd;
           ero_original_quantity := noc_quantity cmd; ero_remaining_quantity := noc_quantity cmd;
           ero_order_sequence := me_next_priority e; ero_instrument_id := noc_instrument_id cmd;
           ero_side := noc_side cmd; ero_time_in_force := noc_time_in_force cmd |} in
      let e := bump_priority e in
      let (e, accepted) := emit e (fun seq => EvOrderAccepted
            {| oa_event_sequence := seq; oa_command_sequence := noc_command_sequence cmd;
               oa_account_id := noc_account_id cmd; oa_client_order_id := noc_client_order_id cmd;
               oa_exchange_order_id := exchange_order_id; oa_instrument_id := noc_instrument_id cmd;
               oa_side := noc_side cmd; oa_price := noc_price cmd; oa_quantity := noc_quantity cmd;
               oa_order_type := noc_order_type cmd; oa_time_in_force := noc_time_in_force cmd |}) in
      let* (e, evs) := match_then_rest e order (noc_command_sequence cmd) in
      Some (e, accepted :: evs).

Definition process_cancel (e : MatchingEngine B) (cmd : CancelOrderCommand) : option (MatchingEngine B * list ExchangeEvent) :=
  let reject (reason : RejectReason.t) := let (e, ev) := reject_cancel e cmd reason in Some (e, [ev]) in
  if negb (knows_instrument e (coc_instrument_id cmd)) then reject RejectReason.InvalidInstrument
  else
    let key := (coc_account_id cmd, coc_client_order_id cmd) in
    match me_orders e !! key with
    | None => reject RejectReason.UnknownOrderId
    | Some ref =>
        if negb (ref_instrument_id ref =? coc_instrument_id cmd) then reject RejectReason.UnknownOrderId
        else
          let e := me_with_orders e (delete key (me_orders e)) (u64 (me_resting_orders e - 1)) in
          let* b := book_for e (coc_instrument_id cmd) in
          let* (removed, b) := bk_remove_at b (ref_handle ref) in
          let* e := store_book e (coc_instrument_id cmd) b in
          let (e, cancelled) := emit e (fun seq => EvOrderCancelled
                {| ocn_event_sequence := seq; ocn_command_sequence := coc_command_sequence cmd;
                   ocn_account_id := coc_account_id cmd; ocn_client_order_id := coc_client_order_id cmd;
                   ocn_exchange_order_id := bo_exchange_order_id removed;
                   ocn_instrument_id := coc_instrument_id cmd |}) in
          let (e, gone) := emit e (book_removed (coc_instrument_id cmd) removed) in
          Some (e, [cancelled; gone])
    end.

Definition replaced (cmd : ReplaceOrderCommand) (exchange_order_id : ExchangeOrderId) (seq : EventSequence)
    : ExchangeEvent :=
  EvOrderReplaced {| orp_event_sequence := seq; orp_command_sequence := roc_command_sequence cmd;
                     orp_account_id := roc_account_id cmd;
                     orp_original_client_order_id := roc_original_client_order_id cmd;
                     orp_new_client_order_id := roc_new_client_order_id cmd;
                     orp_exchange_order_id := exchange_order_id;
                     orp_instrument_id := roc_instrument_id cmd;
                     orp_new_price := roc_new_price cmd; orp_new_quantity := roc_new_quantity cmd |}.

(** The priority-preserving path: edit in place and re-key. *)
Definition replace_in_place (e : MatchingEngine B) (cmd : ReplaceOrderCommand) (ref : OrderRef) (resting : BookOrder) (b : B)
    : option (MatchingEngine B * list ExchangeEvent) :=
  let* b := bk_reduce_at b (ref_handle ref) (roc_new_quantity cmd) in
  let* b := bk_set_client_order_id_at b (ref_handle ref) (roc_new_client_order_id cmd) in
  let* e := store_book e (roc_instrument_id cmd) b in
  let e := me_with_orders e
             (<[(roc_account_id cmd, roc_new_client_order_id cmd) := ref]>
                (delete (roc_account_id cmd, roc_original_client_order_id cmd) (me_orders e)))
             (me_resting_orders e) in
  let (e, rep) := emit e (replaced cmd (bo_exchange_order_id resting)) in
  let (e, red) := emit e (book_reduced (roc_instrument_id cmd) resting (roc_new_quantity cmd)) in
  Some (e, [rep; red]).

(** The priority-losing path: cancel, then a new order. *)
Definition replace_cancel_new (e : MatchingEngine B) (cmd : ReplaceOrderCommand) (ref : OrderRef) (resting : BookOrder) (b : B)
    : option (MatchingEngine B * list ExchangeEvent) :=
  let* (_, b) := bk_remove_at b (ref_handle ref) in
  let* e := store_book e (roc_instrument_id cmd) b in
  let e := me_with_orders e (delete (roc_account_id cmd, roc_original_client_order_id cmd) (me_orders e))
             (u64 (me_resting_orders e - 1)) in
  let new_exchange_order_id := me_next_exchange_order_id e in
  let e := bump_exchange_order_id e in
  let (e, rep) := emit e (replaced cmd new_exchange_order_id) in
  let (e, gone) := emit e (book_removed (roc_instrument_id cmd) resting) in
  let new_order :=
    {| ero_exchange_order_id := new_exchange_order_id; ero_client_order_id := roc_new_client_order_id cmd;
       ero_account_id := roc_account_id cmd; ero_price := roc_new_price cmd;
       ero_original_quantity := roc_new_quantity cmd; ero_remaining_quantity := roc_new_quantity cmd;
       ero_order_sequence := me_next_priority e; ero_instrument_id := roc_instrument_id cmd;
       ero_side := bo_side resting; ero_time_in_force := bo_time_in_force resting |} in
  let e := bump_priority e in
  let* (e, evs) := match_then_rest e new_order (roc_command_sequence cmd) in
  Some (e, rep :: gone :: evs).

Definition process_replace (e : MatchingEngine B) (cmd : ReplaceOrderCommand) : option (MatchingEngine B * list ExchangeEvent) :=
  let reject (reason : RejectReason.t) := let (e, ev) := reject_replace_order e cmd reason in Some (e, [ev]) in
  if negb (knows_instrument e (roc_instrument_id cmd)) then reject RejectReason.InvalidInstrument
  else if (roc_new_price cmd <=? 0) || (roc_new_quantity cmd =? 0) then reject RejectReason.InvalidReplacement
  else
    match me_orders e !! (roc_account_id cmd, roc_original_client_order_id cmd) with
    | None => reject RejectReason.UnknownOrderId
    | Some ref =>
        if negb (ref_instrument_id ref =? roc_instrument_id cmd) then reject RejectReason.UnknownOrderId
        else
          let* b := book_for e (roc_instrument_id cmd) in
          let* resting := bk_at b (ref_handle ref) in
          if (roc_new_price cmd =? bo_price resting) &&
             (roc_new_quantity cmd <=? bo_remaining_quantity resting)
          then replace_in_place e cmd ref resting b
          else replace_cancel_new e cmd ref resting b
    end.

Definition process (e : MatchingEngine B) (command : ExchangeCommand) : option (MatchingEngine B * list ExchangeEvent) :=
  match command with
  | CmdNewOrder cmd => process_new_order e cmd
  | CmdCancelOrder cmd => process_cancel e cmd
  | CmdReplaceOrder cmd => process_replace e cmd
  end.

(** A run: commands in order, events concatenated. *)
Fixpoint run (e : MatchingEngine B) (cmds : list ExchangeCommand) : option (MatchingEngine B * list ExchangeEvent) :=
  match cmds with
  | [] => Some (e, [])
  | c :: cmds => let* (e, evs) := process e c in
                 let* (e, evs') := run e cmds in
                 Some (e, evs ++ evs')
  end.
End Engine.
