(* ===== verification/EngineSpec.v ===== *)
(** * The exchange's specification: a textbook limit order book

    The abstract machine the matching engine is proved to implement: per
    instrument two plain lists of resting orders in price-time priority, and
    three counters.  No ladder, no slab, no handles, no directory; every
    function is total.  The facts about matching that users of an exchange
    care about (priority, conservation, no crossed book, fill-or-kill) are
    proved here, on lists. *)
From S2P Require Import Prelude Types MatchingEngine.

(** ** State *)
Record SpecBook := { sb_bids : list ExchangeRestingOrder; sb_asks : list ExchangeRestingOrder }.
Definition sb_side (sb : SpecBook) (s : Side) : list ExchangeRestingOrder :=
  match s with Buy => sb_bids sb | Sell => sb_asks sb end.
Definition sb_set (sb : SpecBook) (s : Side) (l : list ExchangeRestingOrder) : SpecBook :=
  match s with
  | Buy => {| sb_bids := l; sb_asks := sb_asks sb |}
  | Sell => {| sb_bids := sb_bids sb; sb_asks := l |}
  end.

Record Spec := {
  sp_books : gmap InstrumentId SpecBook;
  sp_next_exchange_order_id : Z;
  sp_next_event_sequence : Z;
  sp_next_priority : Z;
}.

Definition ero_key (r : ExchangeRestingOrder) : LiveKey := (ero_account_id r, ero_client_order_id r).
Definition sp_side (st : Spec) (i : InstrumentId) (s : Side) : list ExchangeRestingOrder :=
  match sp_books st !! i with Some sb => sb_side sb s | None => [] end.
Definition all_live (st : Spec) : list ExchangeRestingOrder :=
  mjoin ((fun kv => sb_bids kv.2 ++ sb_asks kv.2) <$> map_to_list (sp_books st)).
Definition key_live (st : Spec) (k : LiveKey) : bool := bool_decide (Exists (fun r => ero_key r = k) (all_live st)).

Definition sp_set_side (st : Spec) (i : InstrumentId) (s : Side) (l : list ExchangeRestingOrder) : Spec :=
  {| sp_books := alter (fun sb => sb_set sb s l) i (sp_books st);
     sp_next_exchange_order_id := sp_next_exchange_order_id st;
     sp_next_event_sequence := sp_next_event_sequence st; sp_next_priority := sp_next_priority st |}.
Definition sp_set_counters (st : Spec) (xid seq prio : Z) : Spec :=
  {| sp_books := sp_books st; sp_next_exchange_order_id := xid;
     sp_next_event_sequence := seq; sp_next_priority := prio |}.
Definition sp_bump_seq (st : Spec) : Spec :=
  sp_set_counters st (sp_next_exchange_order_id st) (u64 (sp_next_event_sequence st + 1)) (sp_next_priority st).
Definition sp_bump_xid (st : Spec) : Spec :=
  sp_set_counters st (u64 (sp_next_exchange_order_id st + 1)) (sp_next_event_sequence st) (sp_next_priority st).
Definition sp_bump_prio (st : Spec) : Spec :=
  sp_set_counters st (sp_next_exchange_order_id st) (sp_next_event_sequence st) (u64 (sp_next_priority st + 1)).

(** ** Matching on lists *)

(** What an incoming order at [price] with [rem] left does to the contra
    list: the fills (the resting order as it was, and the quantity traded),
    the quantity left, and the contra list after. *)
Fixpoint spec_fill (side : Side) (price : Price) (rem : Quantity) (l : list ExchangeRestingOrder)
    : list (ExchangeRestingOrder * Quantity) * Quantity * list ExchangeRestingOrder :=
  match l with
  | [] => ([], rem, [])
  | r :: l' =>
      if (rem =? 0) || negb (crosses side price (ero_price r)) then ([], rem, l)
      else
        let t := Z.min rem (ero_remaining_quantity r) in
        let after := ero_remaining_quantity r - t in
        if after =? 0
        then let '(fills, rem', l'') := spec_fill side price (rem - t) l' in ((r, t) :: fills, rem', l'')
        else ([(r, t)], rem - t, ero_set_remaining r after :: l')
  end.

(** The two events of each fill. *)
Fixpoint fill_events (incoming : ExchangeRestingOrder) (cseq : CommandSequence) (rem : Quantity)
    (fills : list (ExchangeRestingOrder * Quantity)) (seq : EventSequence) : list ExchangeEvent :=
  match fills with
  | [] => []
  | (r, t) :: fills =>
      let o := book_order_of r in
      let after := ero_remaining_quantity r - t in
      trade_event incoming o cseq t (rem - t) after seq
      :: (if after =? 0 then book_removed (ero_instrument_id incoming) o (u64 (seq + 1))
          else book_reduced (ero_instrument_id incoming) o after (u64 (seq + 1)))
      :: fill_events incoming cseq (rem - t) fills (u64 (seq + 2))
  end.

(** Behind every order whose price has at least its priority. *)
Fixpoint spec_insert (s : Side) (x : ExchangeRestingOrder) (l : list ExchangeRestingOrder)
    : list ExchangeRestingOrder :=
  match l with
  | [] => [x]
  | y :: l' => if better_eq s (ero_price y) (ero_price x) then y :: spec_insert s x l' else x :: l
  end.

(** Quantity resting at prices the incoming order accepts. *)
Fixpoint liquidity (side : Side) (price : Price) (l : list ExchangeRestingOrder) : Z :=
  match l with
  | [] => 0
  | r :: l => (if crosses side price (ero_price r) then ero_remaining_quantity r else 0) + liquidity side price l
  end.

(** The event counter after [fills]: two events each. *)
Fixpoint seq_after {A} (fills : list A) (seq : EventSequence) : EventSequence :=
  match fills with [] => seq | _ :: fills => seq_after fills (u64 (seq + 2)) end.

(** An order meets the contra side of its book. *)
Definition spec_match (st : Spec) (x : ExchangeRestingOrder) (cseq : CommandSequence)
    : Spec * ExchangeRestingOrder * list ExchangeEvent :=
  let i := ero_instrument_id x in
  let c := contra_side (ero_side x) in
  let '(fills, rem, l) := spec_fill (ero_side x) (ero_price x) (ero_remaining_quantity x) (sp_side st i c) in
  (sp_set_counters (sp_set_side st i c l) (sp_next_exchange_order_id st)
     (seq_after fills (sp_next_event_sequence st)) (sp_next_priority st),
   ero_set_remaining x rem,
   fill_events x cseq (ero_remaining_quantity x) fills (sp_next_event_sequence st)).

(** What is left of it rests, if it may. *)
Definition spec_rest (st : Spec) (x : ExchangeRestingOrder) : Spec * list ExchangeEvent :=
  let i := ero_instrument_id x in
  let s := ero_side x in
  if negb (bool_decide (ero_time_in_force x = GTC)) || (ero_remaining_quantity x =? 0) then (st, [])
  else
    (sp_bump_seq (sp_set_side st i s (spec_insert s x (sp_side st i s))),
     [EvBookOrderAdded {| boa_event_sequence := sp_next_event_sequence st; boa_instrument_id := i;
                          boa_exchange_order_id := ero_exchange_order_id x; boa_side := s;
                          boa_price := ero_price x; boa_quantity := ero_remaining_quantity x |}]).

Definition spec_match_then_rest (st : Spec) (x : ExchangeRestingOrder) (cseq : CommandSequence)
    : Spec * list ExchangeEvent :=
  let '(st, x, fills) := spec_match st x cseq in
  let '(st, rested) := spec_rest st x in
  (st, fills ++ rested).

(** ** Commands *)
Definition spec_reject (st : Spec) (ev : EventSequence -> ExchangeEvent) : Spec * list ExchangeEvent :=
  (sp_bump_seq st, [ev (sp_next_event_sequence st)]).

Definition spec_new_order (st : Spec) (cmd : NewOrderCommand) : Spec * list ExchangeEvent :=
  let reject r := spec_reject st (rejected (noc_command_sequence cmd) (noc_account_id cmd)
                                    (noc_client_order_id cmd) (noc_instrument_id cmd) r) in
  if negb (bool_decide (is_Some (sp_books st !! noc_instrument_id cmd))) then reject RejectReason.InvalidInstrument
  else if noc_price cmd <=? 0 then reject RejectReason.InvalidPrice
  else if noc_quantity cmd =? 0 then reject RejectReason.InvalidQuantity
  else if key_live st (noc_account_id cmd, noc_client_order_id cmd) then reject RejectReason.DuplicateOrderId
  else if bool_decide (noc_time_in_force cmd = FOK) &&
          (liquidity (noc_side cmd) (noc_price cmd)
             (sp_side st (noc_instrument_id cmd) (contra_side (noc_side cmd))) <? noc_quantity cmd)
  then reject RejectReason.InsufficientLiquidity
  else
    let x :=
      {| ero_exchange_order_id := sp_next_exchange_order_id st; ero_client_order_id := noc_client_order_id cmd;
         ero_account_id := noc_account_id cmd; ero_price := noc_price cmd;
         ero_original_quantity := noc_quantity cmd; ero_remaining_quantity := noc_quantity cmd;
         ero_order_sequence := sp_next_priority st; ero_instrument_id := noc_instrument_id cmd;
         ero_side := noc_side cmd; ero_time_in_force := noc_time_in_force cmd |} in
    let accepted := EvOrderAccepted
      {| oa_event_sequence := sp_next_event_sequence st; oa_command_sequence := noc_command_sequence cmd;
         oa_account_id := noc_account_id cmd; oa_client_order_id := noc_client_order_id cmd;
         oa_exchange_order_id := sp_next_exchange_order_id st; oa_instrument_id := noc_instrument_id cmd;
         oa_side := noc_side cmd; oa_price := noc_price cmd; oa_quantity := noc_quantity cmd;
         oa_order_type := noc_order_type cmd; oa_time_in_force := noc_time_in_force cmd |} in
    let (st, evs) := spec_match_then_rest (sp_bump_seq (sp_bump_prio (sp_bump_xid st))) x (noc_command_sequence cmd) in
    (st, accepted :: evs).

(** The order with this key resting on instrument [i]. *)
Definition find_order (st : Spec) (i : InstrumentId) (k : LiveKey) : option ExchangeRestingOrder :=
  List.find (fun r => bool_decide (ero_key r = k)) (sp_side st i Buy ++ sp_side st i Sell).
Definition drop_key (k : LiveKey) (l : list ExchangeRestingOrder) : list ExchangeRestingOrder :=
  filter (fun r => ero_key r <> k) l.
Definition spec_drop (st : Spec) (r : ExchangeRestingOrder) (i : InstrumentId) : Spec :=
  sp_set_side st i (ero_side r) (drop_key (ero_key r) (sp_side st i (ero_side r))).

Definition spec_cancel (st : Spec) (cmd : CancelOrderCommand) : Spec * list ExchangeEvent :=
  let i := coc_instrument_id cmd in
  let reject r := spec_reject st (rejected (coc_command_sequence cmd) (coc_account_id cmd)
                                    (coc_client_order_id cmd) i r) in
  if negb (bool_decide (is_Some (sp_books st !! i))) then reject RejectReason.InvalidInstrument
  else
    match find_order st i (coc_account_id cmd, coc_client_order_id cmd) with
    | None => reject RejectReason.UnknownOrderId
    | Some r =>
        let seq := sp_next_event_sequence st in
        (sp_bump_seq (sp_bump_seq (spec_drop st r i)),
         [EvOrderCancelled {| ocn_event_sequence := seq; ocn_command_sequence := coc_command_sequence cmd;
                              ocn_account_id := coc_account_id cmd; ocn_client_order_id := coc_client_order_id cmd;
                              ocn_exchange_order_id := ero_exchange_order_id r; ocn_instrument_id := i |};
          book_removed i (book_order_of r) (u64 (seq + 1))])
    end.

(** The same order under a new client order id and a smaller quantity. *)
Definition ero_amend (c : ClientOrderId) (q : Quantity) (r : ExchangeRestingOrder) : ExchangeRestingOrder :=
  {| ero_exchange_order_id := ero_exchange_order_id r; ero_client_order_id := c;
     ero_account_id := ero_account_id r; ero_price := ero_price r;
     ero_original_quantity := ero_original_quantity r; ero_remaining_quantity := q;
     ero_order_sequence := ero_order_sequence r; ero_instrument_id := ero_instrument_id r;
     ero_side := ero_side r; ero_time_in_force := ero_time_in_force r |}.
Definition amend_key (k : LiveKey) (c : ClientOrderId) (q : Quantity) (l : list ExchangeRestingOrder)
    : list ExchangeRestingOrder :=
  (fun r => if decide (ero_key r = k) then ero_amend c q r else r) <$> l.

Definition spec_replace (st : Spec) (cmd : ReplaceOrderCommand) : Spec * list ExchangeEvent :=
  let i := roc_instrument_id cmd in
  let k := (roc_account_id cmd, roc_original_client_order_id cmd) in
  let seq := sp_next_event_sequence st in
  let reject r := spec_reject st (rejected (roc_command_sequence cmd) (roc_account_id cmd)
                                    (roc_original_client_order_id cmd) i r) in
  if negb (bool_decide (is_Some (sp_books st !! i))) then reject RejectReason.InvalidInstrument
  else if (roc_new_price cmd <=? 0) || (roc_new_quantity cmd =? 0) then reject RejectReason.InvalidReplacement
  else
    match find_order st i k with
    | None => reject RejectReason.UnknownOrderId
    | Some r =>
        if (roc_new_price cmd =? ero_price r) && (roc_new_quantity cmd <=? ero_remaining_quantity r)
        then
          (sp_bump_seq (sp_bump_seq (sp_set_side st i (ero_side r)
             (amend_key k (roc_new_client_order_id cmd) (roc_new_quantity cmd) (sp_side st i (ero_side r))))),
           [replaced cmd (ero_exchange_order_id r) seq;
            book_reduced i (book_order_of r) (roc_new_quantity cmd) (u64 (seq + 1))])
        else
          let xid := sp_next_exchange_order_id st in
          let st := sp_bump_seq (sp_bump_seq (sp_bump_xid (spec_drop st r i))) in
          let x :=
            {| ero_exchange_order_id := xid; ero_client_order_id := roc_new_client_order_id cmd;
               ero_account_id := roc_account_id cmd; ero_price := roc_new_price cmd;
               ero_original_quantity := roc_new_quantity cmd; ero_remaining_quantity := roc_new_quantity cmd;
               ero_order_sequence := sp_next_priority st; ero_instrument_id := i;
               ero_side := ero_side r; ero_time_in_force := ero_time_in_force r |} in
          let (st, evs) := spec_match_then_rest (sp_bump_prio st) x (roc_command_sequence cmd) in
          (st, replaced cmd xid seq :: book_removed i (book_order_of r) (u64 (seq + 1)) :: evs)
    end.

Definition spec_process (st : Spec) (c : ExchangeCommand) : Spec * list ExchangeEvent :=
  match c with
  | CmdNewOrder cmd => spec_new_order st cmd
  | CmdCancelOrder cmd => spec_cancel st cmd
  | CmdReplaceOrder cmd => spec_replace st cmd
  end.

Fixpoint spec_run (st : Spec) (cmds : list ExchangeCommand) : Spec * list ExchangeEvent :=
  match cmds with
  | [] => (st, [])
  | c :: cmds => let (st, evs) := spec_process st c in
                 let (st, evs') := spec_run st cmds in (st, evs ++ evs')
  end.
