(* ===== verification/Directory.v ===== *)
(** * The order directory against the books

    [orders_] maps (account, client order id) to the handle of a resting
    order.  [dir_wf v m] says that the directory [m] and the views [v] of the
    books describe the same orders: each entry of one names exactly one entry
    of the other.  The four ways the engine changes both at once -- drop,
    edit, re-key, insert -- preserve it. *)
From S2P Require Import Prelude Types PriceQueues MatchingEngine.

Definition views := InstrumentId -> Side -> list entry.
Definition bo_key (o : BookOrder) : LiveKey := (bo_account_id o, bo_client_order_id o).
Definition handles (v : views) (i : InstrumentId) : list Z := (v i Buy ++ v i Sell).*1.

(** [v] with one side of one instrument replaced. *)
Definition set_view (v : views) (i : InstrumentId) (s : Side) (l : list entry) : views :=
  fun j s' => if decide (j = i /\ s' = s) then l else v j s'.

Lemma set_view_eq v i s l : set_view v i s l i s = l.
Proof. unfold set_view. by rewrite decide_True. Qed.
Lemma set_view_ne v i s l j s' : (j <> i \/ s' <> s) -> set_view v i s l j s' = v j s'.
Proof. intros Hne. unfold set_view. rewrite decide_False; [done|]. naive_solver. Qed.

Record dir_wf (v : views) (m : gmap LiveKey OrderRef) : Prop := {
  dw_ref : forall k ref, m !! k = Some ref -> 0 <= ref_instrument_id ref /\
    exists s o, (ref_handle ref, o) ∈ v (ref_instrument_id ref) s /\ bo_key o = k;
  dw_entry : forall i s h o, 0 <= i -> (h, o) ∈ v i s ->
    exists ref, m !! bo_key o = Some ref /\ ref_handle ref = h /\ ref_instrument_id ref = i;
  dw_NoDup : forall i, 0 <= i -> NoDup (handles v i);
}.

Lemma dir_wf_ext v v' m : (forall i s, 0 <= i -> v' i s = v i s) -> dir_wf v m -> dir_wf v' m.
Proof.
  intros Hv [H1 H2 H3]. constructor.
  - intros k ref Hk. destruct (H1 k ref Hk) as (Hi & s & o & Ho & Hkey). split; [done|]. exists s, o. by rewrite Hv.
  - intros i s h o Hi Hin. rewrite Hv in Hin by done. by eapply H2.
  - intros i Hi. unfold handles. rewrite !Hv by done. by apply H3.
Qed.

Lemma handles_side v i s : handles v i ≡ₚ (v i s ++ v i (contra_side s)).*1.
Proof. unfold handles. destruct s; [done|]. by rewrite Permutation_app_comm. Qed.

Section Dir.
Context (v : views) (m : gmap LiveKey OrderRef) (D : dir_wf v m).

(** An entry is determined by its handle, and by its key. *)
Lemma entry_unique i s s' h o o' : 0 <= i -> (h, o) ∈ v i s -> (h, o') ∈ v i s' -> s = s' /\ o = o'.
Proof.
  intros Hi H1 H2. pose proof (dw_NoDup _ _ D i Hi) as Hnd. rewrite (handles_side v i s), fmap_app in Hnd.
  apply NoDup_app in Hnd as (Hnd & Hd & _). destruct (decide (s' = s)) as [->|Hne].
  - split; [done|]. apply list_elem_of_lookup in H1 as [n1 H1], H2 as [n2 H2].
    assert (n1 = n2) as ->; [|congruence].
    eapply NoDup_lookup; [exact Hnd| |]; rewrite list_lookup_fmap; [by rewrite H1|by rewrite H2].
  - exfalso. assert (s' = contra_side s) as -> by (by destruct s, s').
    apply (Hd h); apply list_elem_of_fmap; [by exists (h, o)|by exists (h, o')].
Qed.
Lemma key_unique i s h o i' s' h' o' : 0 <= i -> 0 <= i' -> (h, o) ∈ v i s -> (h', o') ∈ v i' s' ->
  bo_key o = bo_key o' -> i = i' /\ h = h' /\ s = s' /\ o = o'.
Proof.
  intros Hi Hi' H1 H2 Hk. destruct (dw_entry _ _ D _ _ _ _ Hi H1) as (r & Hr & Hh & Hri).
  destruct (dw_entry _ _ D _ _ _ _ Hi' H2) as (r' & Hr' & Hh' & Hri').
  assert (r = r') as <- by congruence. subst. split; [done|]. split; [done|].
  by eapply entry_unique.
Qed.
Lemma handle_in_side i s : 0 <= i -> NoDup (v i s).*1.
Proof.
  intros Hi. pose proof (dw_NoDup _ _ D i Hi) as Hnd. rewrite (handles_side v i s), fmap_app in Hnd.
  by apply NoDup_app in Hnd as (? & _).
Qed.

(** Looking a key up: live on instrument [i], or not. *)
Lemma lookup_live i s h o : 0 <= i -> (h, o) ∈ v i s -> exists ref,
  m !! bo_key o = Some ref /\ ref_handle ref = h /\ ref_instrument_id ref = i.
Proof. apply (dw_entry _ _ D). Qed.
Lemma lookup_dead k i s h o : m !! k = None -> 0 <= i -> (h, o) ∈ v i s -> bo_key o <> k.
Proof. intros Hk Hi Hin <-. destruct (dw_entry _ _ D _ _ _ _ Hi Hin) as (r & Hr & _). congruence. Qed.

(** ** Dropping one entry *)
Lemma dir_drop i s h o : 0 <= i -> (h, o) ∈ v i s ->
  dir_wf (set_view v i s (remove_handle h (v i s))) (delete (bo_key o) m) /\
  (forall j s' h' o', 0 <= j -> (h', o') ∈ set_view v i s (remove_handle h (v i s)) j s' ->
     (h', o') ∈ v j s' /\ bo_key o' <> bo_key o).
Proof.
  intros Hi Hin. set (v' := set_view _ _ _ _).
  assert (Hsub : forall j s' h' o', 0 <= j -> (h', o') ∈ v' j s' -> (h', o') ∈ v j s' /\ bo_key o' <> bo_key o).
  { intros j s' h' o' Hj Hin'. unfold v', set_view in Hin'. case_decide as Hd.
    - destruct Hd as [-> ->]. apply list_elem_of_filter in Hin' as [Hne Hin']. split; [done|].
      intros Hk. apply Hne. cbn. by destruct (key_unique i s h' o' i s h o) as (_ & ? & _).
    - split; [done|]. intros Hk. destruct (key_unique j s' h' o' i s h o) as (? & _ & ? & _); try done. auto. }
  split; [|done]. constructor.
  - intros k ref Hk. apply lookup_delete_Some in Hk as [Hne Hk].
    destruct (dw_ref _ _ D _ _ Hk) as (Hri & s' & o' & Ho' & Hkey). split; [done|]. exists s', o'. split; [|done].
    unfold v', set_view. case_decide as Hd; [|done]. destruct Hd as [Hd1 ->].
    apply list_elem_of_filter. rewrite Hd1 in Ho'. split; [|done].
    cbn. intros He. rewrite He in Ho'. destruct (entry_unique i s s h o o') as [_ ->]; congruence.
  - intros j s' h' o' Hj [Hin' Hne]%Hsub; [|done].
    destruct (dw_entry _ _ D _ _ _ _ Hj Hin') as (ref & Hr & Hh & Hri). exists ref.
    rewrite lookup_delete_ne by done. done.
  - intros j Hj. assert (Hs : forall s', sublist (v' j s').*1 (v j s').*1).
    { intros s'. unfold v', set_view. case_decide as Hd; [|done]. destruct Hd as [-> ->].
      apply fmap_sublist. unfold remove_handle. apply sublist_filter. }
    eapply sublist_NoDup; [apply (dw_NoDup _ _ D j Hj)|]. unfold handles. rewrite !fmap_app.
    by apply sublist_app.
Qed.

(** ** Editing one entry in place, under the same or a fresh key *)
Lemma dir_edit i s h o f ref : 0 <= i -> (h, o) ∈ v i s -> m !! bo_key o = Some ref ->
  (bo_key (f o) = bo_key o \/ m !! bo_key (f o) = None) ->
  dir_wf (set_view v i s (update_handle h f (v i s))) (<[bo_key (f o) := ref]> (delete (bo_key o) m)) /\
  (forall j s' h' o', 0 <= j -> (h', o') ∈ set_view v i s (update_handle h f (v i s)) j s' ->
     (j = i /\ s' = s /\ h' = h /\ o' = f o) \/
     ((h', o') ∈ v j s' /\ bo_key o' <> bo_key o /\ bo_key o' <> bo_key (f o))).
Proof.
  intros Hi Hin Href Hfresh. set (v' := set_view _ _ _ _).
  destruct (dw_entry _ _ D _ _ _ _ Hi Hin) as (ref' & Hr' & Hh & Hri). rewrite Href in Hr'. injection Hr' as <-.
  assert (Hin' : (h, f o) ∈ v' i s).
  { unfold v'. rewrite set_view_eq. apply list_elem_of_fmap. exists (h, o). split; [|done]. cbn. by rewrite decide_True. }
  assert (Hkeep : forall j s' h' o', 0 <= j -> (h', o') ∈ v j s' -> bo_key o' <> bo_key o -> (h', o') ∈ v' j s').
  { intros j s' h' o' Hj Hin1 Hne. unfold v', set_view. case_decide as Hd; [|done]. destruct Hd as [-> ->].
    apply list_elem_of_fmap. exists (h', o'). split; [|done]. cbn. rewrite decide_False; [done|].
    intros ->. by destruct (entry_unique i s s h o' o) as [_ ->]. }
  assert (Hsub : forall j s' h' o', 0 <= j -> (h', o') ∈ v' j s' ->
     (j = i /\ s' = s /\ h' = h /\ o' = f o) \/
     ((h', o') ∈ v j s' /\ bo_key o' <> bo_key o /\ bo_key o' <> bo_key (f o))).
  { intros j s' h' o' Hj Hin1.
    assert (Hc : (j = i /\ s' = s /\ h' = h /\ o' = f o) \/ ((h', o') ∈ v j s' /\ bo_key o' <> bo_key o)).
    { unfold v', set_view in Hin1. case_decide as Hd.
      - destruct Hd as [-> ->]. apply list_elem_of_fmap in Hin1 as ([h1 o1] & He & Hin1). cbn in He.
        case_decide as Hd; injection He as -> ->.
        + subst h1. left. destruct (entry_unique i s s h o1 o) as [_ ->]; done.
        + right. split; [done|]. intros Hk. by destruct (key_unique i s h1 o1 i s h o) as (_ & ? & _).
      - right. split; [done|]. intros Hk. destruct (key_unique j s' h' o' i s h o) as (? & _ & ? & _); auto. }
    destruct Hc as [?|[Hin2 Hne]]; [by left|]. right. split; [done|]. split; [done|].
    destruct Hfresh as [Hf|Hf]; [by rewrite Hf|]. intros Hk. rewrite <- Hk in Hf. by eapply lookup_dead. }
  split; [|done]. constructor.
  - intros k r Hk. apply lookup_insert_Some in Hk as [[<- <-]|[Hne Hk]].
    + rewrite Hri, Hh. eauto 6.
    + apply lookup_delete_Some in Hk as [Hne' Hk]. destruct (dw_ref _ _ D _ _ Hk) as (Hri' & s' & o' & Ho' & Hkey).
      split; [done|]. exists s', o'. split; [|done]. apply Hkeep; [done|done|congruence].
  - intros j s' h' o' Hj [(-> & -> & -> & ->)|(Hin1 & Hne1 & Hne2)]%Hsub; [|..|done].
    + exists ref. by rewrite lookup_insert_eq.
    + destruct (dw_entry _ _ D _ _ _ _ Hj Hin1) as (r & Hr & ? & ?). exists r.
      by rewrite lookup_insert_ne, lookup_delete_ne by done.
  - intros j Hj. assert (Hs : forall s', (v' j s').*1 = (v j s').*1).
    { intros s'. unfold v', set_view. case_decide as Hd; [|done]. destruct Hd as [-> ->]. apply update_handle_fst. }
    unfold handles. rewrite fmap_app, !Hs, <- fmap_app. by apply (dw_NoDup _ _ D j).
Qed.

(** ** Inserting a fresh order *)
Lemma dir_insert i s h o ref : 0 <= i -> m !! bo_key o = None -> h ∉ handles v i ->
  ref_handle ref = h -> ref_instrument_id ref = i ->
  dir_wf (set_view v i s (insert_prio s (h, o) (v i s))) (<[bo_key o := ref]> m) /\
  (forall j s' h' o', 0 <= j -> (h', o') ∈ set_view v i s (insert_prio s (h, o) (v i s)) j s' ->
     (j = i /\ s' = s /\ h' = h /\ o' = o) \/ ((h', o') ∈ v j s' /\ bo_key o' <> bo_key o)).
Proof.
  intros Hi Hk Hfresh Hh Hri. set (v' := set_view _ _ _ _).
  assert (Hsub : forall j s' h' o', 0 <= j -> (h', o') ∈ v' j s' ->
     (j = i /\ s' = s /\ h' = h /\ o' = o) \/ ((h', o') ∈ v j s' /\ bo_key o' <> bo_key o)).
  { intros j s' h' o' Hj Hin. assert (Hc : (j = i /\ s' = s /\ h' = h /\ o' = o) \/ (h', o') ∈ v j s').
    { unfold v', set_view in Hin. case_decide as Hd; [|by right]. destruct Hd as [-> ->].
      rewrite insert_prio_Permutation in Hin. apply elem_of_cons in Hin as [He|Hin]; [|by right].
      injection He as -> ->. by left. }
    destruct Hc as [?|Hin']; [by left|]. right. split; [done|]. by eapply lookup_dead. }
  assert (Hnew : (h, o) ∈ v' i s).
  { unfold v'. rewrite set_view_eq, insert_prio_Permutation. set_solver. }
  assert (Hold : forall j s' e, e ∈ v j s' -> e ∈ v' j s').
  { intros j s' e He. unfold v', set_view. case_decide as Hd; [|done]. destruct Hd as [-> ->].
    rewrite insert_prio_Permutation. set_solver. }
  split; [|done]. constructor.
  - intros k r Hr. apply lookup_insert_Some in Hr as [[<- <-]|[Hne Hr]].
    + rewrite Hri, Hh. eauto.
    + destruct (dw_ref _ _ D _ _ Hr) as (? & s' & o' & Ho' & Hkey). split; [done|]. exists s', o'. auto.
  - intros j s' h' o' Hj [(-> & -> & -> & ->)|[Hin Hne]]%Hsub; [|..|done].
    + exists ref. by rewrite lookup_insert_eq.
    + destruct (dw_entry _ _ D _ _ _ _ Hj Hin) as (r & Hr & ? & ?). exists r. by rewrite lookup_insert_ne.
  - intros j Hj. pose proof (dw_NoDup _ _ D j Hj) as Hnd.
    destruct (decide (j = i)) as [->|Hne].
    + rewrite (handles_side v' i s). unfold v'. rewrite set_view_eq, set_view_ne by (right; by destruct s).
      rewrite insert_prio_Permutation. cbn. rewrite (handles_side v i s) in Hnd, Hfresh.
      apply NoDup_cons. split; [done|exact Hnd].
    + unfold handles, v'. by rewrite !set_view_ne by auto.
Qed.
End Dir.
