(* ===== verification/EngineWf.v ===== *)
(** * Well-formed engines and what they stand for

    [engine_wf] is the engine's invariant: the registry is a bijection
    between registered instruments and books, every book is well formed, the
    directory and the books describe the same orders, and no book is
    crossed.  [refines e st] reads a well-formed engine as a state of the
    specification. *)
From S2P Require Import Prelude Types TickLadder SideIndex PriceQueues MatchingBook BookReads BookSpec MatchingEngine EngineSpec Directory.

(** Bids below asks, stated from either side. *)
Definition no_cross (s : Side) (x y : entry) : Prop :=
  match s with Buy => entry_price x < entry_price y | Sell => entry_price y < entry_price x end.
Definition order_ok (o : BookOrder) : Prop := 0 < bo_remaining_quantity o < two64 /\ bo_time_in_force o = GTC.

Section Wf.
Context {B : Type} `{BookLaws B}.

Definition iview (e : MatchingEngine B) : views := fun i s =>
  match book_for e i with Some b => bk_view b s | None => [] end.

(** ** The registry *)
Record registry_wf (e : MatchingEngine B) : Prop := {
  rg_slot : forall i n, 0 <= i -> me_slot_of_id e !! Z.to_nat i = Some n -> n = kNoSlot \/ (i, n) ∈ me_by_id e;
  rg_by_id : forall i n, (i, n) ∈ me_by_id e -> 0 <= i <= kMaxInstrumentId /\
    me_slot_of_id e !! Z.to_nat i = Some n /\ 0 <= n < Z.of_nat (length (me_books e));
  rg_sorted : StronglySorted Z.lt (me_by_id e).*1;
  rg_slots : NoDup (me_by_id e).*2;
  rg_len : length (me_by_id e) = length (me_books e);
  rg_band : 0 <= me_band_ticks e <= kMaxBandTicks;
}.

Lemma sorted_lt_NoDup (l : list Z) : StronglySorted Z.lt l -> NoDup l.
Proof.
  induction 1 as [|x l Hs IH Hall]; constructor; [|done]. rewrite Forall_forall in Hall.
  intros Hx%Hall. lia.
Qed.

Section Registry.
Context (e : MatchingEngine B) (G : registry_wf e).

Lemma books_bound : Z.of_nat (length (me_books e)) <= 4194304.
Proof.
  rewrite <- (rg_len _ G). rewrite <- (length_fmap fst).
  assert (Hle : (length (me_by_id e).*1 <= length (seqZ 0 4194304))%nat).
  { apply submseteq_length, NoDup_submseteq; [apply sorted_lt_NoDup, (rg_sorted _ G)|].
    intros i ([i' n] & -> & Hin)%list_elem_of_fmap. apply (rg_by_id _ G) in Hin as [Hi _].
    apply elem_of_seqZ. unfold kMaxInstrumentId in Hi. cbn in *. lia. }
  rewrite length_seqZ in Hle. lia.
Qed.

Lemma by_id_inj i j n : (i, n) ∈ me_by_id e -> (j, n) ∈ me_by_id e -> i = j.
Proof.
  intros [k1 H1]%list_elem_of_lookup [k2 H2]%list_elem_of_lookup.
  assert (k1 = k2) as ->; [|congruence].
  eapply NoDup_lookup; [exact (rg_slots _ G)| |]; rewrite list_lookup_fmap; [by rewrite H1|by rewrite H2].
Qed.

Lemma book_for_Some i b : 0 <= i -> book_for e i = Some b ->
  exists n, me_slot_of_id e !! Z.to_nat i = Some n /\ (i, n) ∈ me_by_id e /\
            me_books e !! Z.to_nat n = Some b /\ knows_instrument e i = true.
Proof.
  intros Hi. unfold book_for, slot_for, knows_instrument.
  destruct (me_slot_of_id e !! Z.to_nat i) as [n|] eqn:Hn; cbn; [|done]. intros Hb.
  destruct (rg_slot _ G i n Hi Hn) as [->|Hin].
  - pose proof books_bound. apply lookup_lt_Some in Hb. unfold kNoSlot in Hb. lia.
  - exists n. split; [done|]. split; [done|]. split; [done|].
    apply (rg_by_id _ G) in Hin as (_ & _ & Hr). pose proof books_bound. unfold kNoSlot. lia.
Qed.
Lemma known_book i : 0 <= i -> knows_instrument e i = true -> exists b, book_for e i = Some b.
Proof.
  intros Hi. unfold book_for, slot_for, knows_instrument.
  destruct (me_slot_of_id e !! Z.to_nat i) as [n|] eqn:Hn; cbn; [|done].
  intros Hne%negb_true_iff. destruct (rg_slot _ G i n Hi Hn) as [->|Hin]; [unfold kNoSlot in Hne; lia|].
  apply (rg_by_id _ G) in Hin as (_ & _ & Hr). apply lookup_lt_is_Some. lia.
Qed.
Lemma unknown_view i s : 0 <= i -> knows_instrument e i = false -> iview e i s = [].
Proof.
  intros Hi Hk. unfold iview. destruct (book_for e i) as [b|] eqn:Hb; [|done].
  apply book_for_Some in Hb as (n & _ & _ & _ & Hk'); [|done]. congruence.
Qed.

(** Storing a book changes that instrument's book only. *)
Lemma store_book_spec i b b' : 0 <= i -> book_for e i = Some b -> exists e1,
  store_book e i b' = Some e1 /\ book_for e1 i = Some b' /\
  (forall j, 0 <= j -> j <> i -> book_for e1 j = book_for e j) /\
  (exists bs, e1 = me_with_books e bs) /\ registry_wf e1 /\
  (forall j, knows_instrument e1 j = knows_instrument e j).
Proof.
  intros Hi Hb. destruct (book_for_Some i b Hi Hb) as (n & Hn & Hin & Hbn & Hk).
  unfold store_book, slot_for. rewrite Hn. cbn. eexists. split; [reflexivity|].
  split; [|split; [|split; [by eexists|split; [|done]]]].
  - unfold book_for, slot_for. cbn. rewrite Hn. cbn.
    apply list_lookup_insert_eq. by eapply lookup_lt_Some.
  - intros j Hj Hne. unfold book_for, slot_for. cbn.
    destruct (me_slot_of_id e !! Z.to_nat j) as [n'|] eqn:Hn'; cbn; [|done].
    apply list_lookup_insert_ne. intros Heq. apply (rg_by_id _ G) in Hin as Hr.
    destruct (rg_slot _ G j n' Hj Hn') as [->|Hin'].
    + pose proof books_bound. unfold kNoSlot in Heq. lia.
    + apply (rg_by_id _ G) in Hin' as Hr'. assert (n' = n) as -> by lia.
      apply Hne. by eapply by_id_inj.
  - destruct G. constructor; cbn; try rewrite length_insert; done.
Qed.
End Registry.

(** ** The engine's invariant *)
Record engine_wf (e : MatchingEngine B) : Prop := {
  ew_registry : registry_wf e;
  ew_book : forall i b, 0 <= i -> book_for e i = Some b -> bk_wf b;
  ew_dir : dir_wf (iview e) (me_orders e);
  ew_resting : me_resting_orders e = u64 (Z.of_nat (size (me_orders e)));
  ew_order : forall i s x, 0 <= i -> x ∈ iview e i s -> order_ok x.2;
  ew_uncrossed : forall i s x y, 0 <= i -> x ∈ iview e i s -> y ∈ iview e i (contra_side s) -> no_cross s x y;
}.

Lemma no_cross_sym s x y : no_cross (contra_side s) y x <-> no_cross s x y.
Proof. by destruct s. Qed.

(** ** What an engine stands for *)
Definition ero_of (m : gmap LiveKey OrderRef) (i : InstrumentId) (o : BookOrder) : ExchangeRestingOrder :=
  let ref := m !! bo_key o in
  {| ero_exchange_order_id := bo_exchange_order_id o; ero_client_order_id := bo_client_order_id o;
     ero_account_id := bo_account_id o; ero_price := bo_price o;
     ero_original_quantity := default 0 (ref_original_quantity <$> ref);
     ero_remaining_quantity := bo_remaining_quantity o;
     ero_order_sequence := default 0 (ref_order_sequence <$> ref);
     ero_instrument_id := i; ero_side := bo_side o; ero_time_in_force := bo_time_in_force o |}.
Definition abs_side (m : gmap LiveKey OrderRef) (i : InstrumentId) (l : list entry) : list ExchangeRestingOrder :=
  (fun x => ero_of m i x.2) <$> l.
Definition abs_book (e : MatchingEngine B) (i : InstrumentId) : SpecBook :=
  {| sb_bids := abs_side (me_orders e) i (iview e i Buy); sb_asks := abs_side (me_orders e) i (iview e i Sell) |}.

Record refines (e : MatchingEngine B) (st : Spec) : Prop := {
  rf_books : forall i, 0 <= i -> sp_books st !! i = if knows_instrument e i then Some (abs_book e i) else None;
  rf_neg : forall i, i < 0 -> sp_books st !! i = None;
  rf_xid : sp_next_exchange_order_id st = me_next_exchange_order_id e;
  rf_seq : sp_next_event_sequence st = me_next_event_sequence e;
  rf_prio : sp_next_priority st = me_next_priority e;
}.

Lemma abs_side_ext m m' i l : (forall x, x ∈ l -> m' !! bo_key x.2 = m !! bo_key x.2) ->
  abs_side m' i l = abs_side m i l.
Proof.
  intros Hm. unfold abs_side. apply list_fmap_ext. intros n x Hx. unfold ero_of.
  rewrite Hm; [done|]. by eapply list_elem_of_lookup_2.
Qed.

Lemma refines_side e st i s : registry_wf e -> refines e st -> 0 <= i ->
  sp_side st i s = abs_side (me_orders e) i (iview e i s).
Proof.
  intros G R Hi. unfold sp_side. rewrite (rf_books _ _ R) by done.
  destruct (knows_instrument e i) eqn:Hk; [by destruct s|]. by rewrite (unknown_view e G i s Hi Hk).
Qed.

(** ** One change of one side of one book, with its directory change *)
Section Update.
Context (e : MatchingEngine B) (W : engine_wf e) (i : InstrumentId) (Hi : 0 <= i)
  (b b' : B) (Hb : book_for e i = Some b) (Wb : bk_wf b')
  (s : Side) (l : list entry) (Hup : side_update (bk_view b) (bk_view b') s l)
  (m : gmap LiveKey OrderRef).

Lemma update_view : exists e1, store_book e i b' = Some e1 /\ book_for e1 i = Some b' /\
  (forall j s', 0 <= j -> iview e1 j s' = set_view (iview e) i s l j s') /\
  (exists bs, e1 = me_with_books e bs) /\ registry_wf e1 /\
  (forall j, knows_instrument e1 j = knows_instrument e j) /\
  (forall j b0, 0 <= j -> book_for e1 j = Some b0 -> bk_wf b0).
Proof.
  destruct (store_book_spec e (ew_registry _ W) i b b' Hi Hb) as (e1 & Hst & Hb1 & Hne & Hbs & G1 & Hk).
  exists e1. split; [done|]. split; [done|]. split; [|split; [done|split; [done|split; [done|]]]].
  - intros j s' Hj. unfold set_view, iview. case_decide as Hd.
    + destruct Hd as [-> ->]. rewrite Hb1. apply Hup.
    + destruct (decide (j = i)) as [->|Hji].
      * rewrite Hb1, Hb. assert (s' = contra_side s) as -> by (destruct s, s'; naive_solver). apply Hup.
      * by rewrite Hne.
  - intros j b0 Hj Hb0. destruct (decide (j = i)) as [->|Hji]; [by rewrite Hb1 in Hb0; injection Hb0 as <-|].
    rewrite Hne in Hb0 by done. by eapply (ew_book _ W).
Qed.

Context (Hdir : dir_wf (set_view (iview e) i s l) m) (Hok : forall x, x ∈ l -> order_ok x.2)
  (Hnc : forall x y, x ∈ l -> y ∈ iview e i (contra_side s) -> no_cross s x y).

Lemma update_wf : exists e1, store_book e i b' = Some e1 /\ book_for e1 i = Some b' /\
  (forall j s', 0 <= j -> iview e1 j s' = set_view (iview e) i s l j s') /\
  (exists bs, e1 = me_with_books e bs) /\
  engine_wf (me_with_orders e1 m (u64 (Z.of_nat (size m)))) /\
  (forall st, refines e st ->
    (forall j s' x, 0 <= j -> (j <> i \/ s' <> s) -> x ∈ iview e j s' ->
       m !! bo_key x.2 = me_orders e !! bo_key x.2) ->
    refines (me_with_orders e1 m (u64 (Z.of_nat (size m)))) (sp_set_side st i s (abs_side m i l))).
Proof.
  destruct update_view as (e1 & Hst & Hb1 & Hv & [bs ->] & G1 & Hk & Hwf). eexists. split; [done|].
  split; [done|]. split; [done|]. split; [by eexists|].
  set (e1 := me_with_books e bs) in *. set (e2 := me_with_orders e1 _ _).
  assert (Hv2 : forall j s', 0 <= j -> iview e2 j s' = set_view (iview e) i s l j s').
  { intros j s' Hj. by rewrite <- Hv. }
  split.
  - constructor.
    + destruct G1. by constructor.
    + intros j b0. apply Hwf.
    + by eapply dir_wf_ext; [|exact Hdir].
    + done.
    + intros j s' x Hj Hx. rewrite Hv2 in Hx by done. unfold set_view in Hx.
      case_decide; [by apply Hok|]. by eapply (ew_order _ W j s').
    + intros j s' x y Hj Hx Hy. rewrite Hv2 in Hx, Hy by done.
      destruct (decide (j = i)) as [->|Hne].
      2: { rewrite set_view_ne in Hx, Hy by auto. by apply (ew_uncrossed _ W j). }
      destruct (decide (s' = s)) as [->|Hne].
      * rewrite set_view_eq in Hx. rewrite set_view_ne in Hy by (right; by destruct s). by apply Hnc.
      * assert (s' = contra_side s) as -> by (by destruct s, s'). rewrite contra_side_involutive in Hy.
        rewrite set_view_eq in Hy. rewrite set_view_ne in Hx by auto. apply no_cross_sym. by apply Hnc.
  - intros st R Hm. constructor; cbn; try apply R.
    + intros j Hj. change (knows_instrument e2 j) with (knows_instrument e1 j). rewrite Hk.
      assert (Hother : forall s', (j <> i \/ s' <> s) ->
        abs_side m j (iview e2 j s') = abs_side (me_orders e) j (iview e j s')).
      { intros s' Hne. rewrite Hv2, set_view_ne by done. apply abs_side_ext. intros x. by apply Hm. }
      destruct (decide (j = i)) as [->|Hne].
      * rewrite lookup_alter_eq, (rf_books _ _ R) by done. destruct (knows_instrument e i); [|done]. cbn.
        f_equal. unfold abs_book. cbn [me_orders e2 me_with_orders].
        pose proof (Hv2 i s Hi) as Hvs. rewrite set_view_eq in Hvs.
        destruct s; cbn; rewrite Hvs; f_equal; symmetry; apply Hother; auto.
      * rewrite lookup_alter_ne, (rf_books _ _ R) by done. destruct (knows_instrument e j); [|done].
        f_equal. unfold abs_book. cbn [me_orders e2 me_with_orders]. f_equal; symmetry; apply Hother; auto.
    + intros j Hj. rewrite lookup_alter_ne by lia. by apply (rf_neg _ _ R).
Qed.
End Update.

(** The counters are not part of the invariant. *)
Lemma counters_wf e xid seq prio : engine_wf e -> engine_wf (me_with_counters e xid seq prio).
Proof. intros [[] ? ? ? ? ?]. split; [by split|done..]. Qed.
Lemma counters_refines e st xid seq prio : refines e st ->
  refines (me_with_counters e xid seq prio) (sp_set_counters st xid seq prio).
Proof. intros []. by constructor. Qed.
End Wf.
