(* ===== verification/EngineRefine.v ===== *)
(** * The engine implements its specification

    A forward simulation: from a well-formed engine that stands for a
    specification state, every admissible command is processed without
    throwing, hitting undefined behaviour or running out of fuel, emits
    exactly the specification's events, and ends in a well-formed engine
    standing for the specification's next state. *)
From S2P Require Import Prelude Types TickLadder SideIndex PriceQueues MatchingBook BookReads BookSpec MatchingEngine EngineSpec Directory EngineWf.

(** ** Stores of the specification *)
Lemma sp_set_side_twice st i s l l' : sp_set_side (sp_set_side st i s l) i s l' = sp_set_side st i s l'.
Proof.
  unfold sp_set_side. cbn. f_equal. apply map_eq. intros j. destruct (decide (j = i)) as [->|Hne].
  - rewrite !lookup_alter_eq. destruct (sp_books st !! i); cbn; [by destruct s|done].
  - by rewrite !lookup_alter_ne.
Qed.
Lemma sp_set_side_id st i s l : sp_side st i s = l -> sp_set_side st i s l = st.
Proof.
  intros <-. destruct st as [bs x q p]. unfold sp_set_side. cbn. f_equal. apply alter_id.
  intros sb Hsb. unfold sp_side. cbn. rewrite Hsb. by destruct sb, s.
Qed.
Lemma sp_side_set_ne st i s l : sp_side (sp_set_side st i s l) i (contra_side s) = sp_side st i (contra_side s).
Proof. unfold sp_side. cbn. rewrite lookup_alter_eq. destruct (sp_books st !! i); [by destruct s|done]. Qed.

Lemma find_unique {A} (P : A -> bool) (l : list A) x :
  x ∈ l -> P x = true -> (forall y, y ∈ l -> P y = true -> y = x) -> List.find P l = Some x.
Proof.
  intros Hx Px Hu. destruct (List.find P l) as [y|] eqn:E.
  - apply find_some in E as [Hy Py]. f_equal. apply Hu; [|done]. by apply list_elem_of_In.
  - exfalso. apply list_elem_of_In in Hx. pose proof (find_none _ _ E x Hx). congruence.
Qed.

Section Refine.
Context {B : Type} `{BookLaws B}.
Implicit Types (i : InstrumentId).

Lemma iview_book (e : MatchingEngine B) i b s : book_for e i = Some b -> iview e i s = bk_view b s.
Proof. unfold iview. by intros ->. Qed.
Lemma book_order_of_ero m i o : book_order_of (ero_of m i o) = o.
Proof. by destruct o. Qed.
Lemma ero_key_of m i o : ero_key (ero_of m i o) = bo_key o.
Proof. done. Qed.

(** ** Dropping an order *)
Section Drop.
Context (e : MatchingEngine B) (W : engine_wf e) (i : InstrumentId) (Hi : 0 <= i)
  (b b' : B) (Hb : book_for e i = Some b) (Wb : bk_wf b') (s : Side) (h : Z) (o : BookOrder)
  (Hin : (h, o) ∈ bk_view b s)
  (Hup : side_update (bk_view b) (bk_view b') s (remove_handle h (bk_view b s))).

Lemma drop_in_view : (h, o) ∈ iview e i s.
Proof. by rewrite (iview_book e i b). Qed.

Lemma drop_resting : u64 (me_resting_orders e - 1) = u64 (Z.of_nat (size (delete (bo_key o) (me_orders e)))).
Proof.
  destruct (dw_entry _ _ (ew_dir _ W) i s h o Hi drop_in_view) as (ref & Hr & _).
  rewrite (ew_resting _ W), map_size_delete, Hr. unfold u64. rewrite Zminus_mod_idemp_l. f_equal.
  assert (size (me_orders e) <> 0%nat); [|lia]. eapply map_size_ne_0_lookup_2. eauto.
Qed.

Lemma abs_remove : abs_side (me_orders e) i (remove_handle h (bk_view b s)) =
  drop_key (bo_key o) (abs_side (me_orders e) i (bk_view b s)).
Proof.
  pose proof drop_in_view as Hv.
  assert (Hk : forall x, x ∈ bk_view b s -> x.1 = h <-> bo_key x.2 = bo_key o).
  { intros [h' o'] Hx. rewrite <- (iview_book e i b s Hb) in Hx. cbn. split.
    - intros ->. by destruct (entry_unique _ _ (ew_dir _ W) i s s h o o') as [_ ->].
    - intros Hk. by destruct (key_unique _ _ (ew_dir _ W) i s h' o' i s h o) as (_ & ? & _). }
  unfold remove_handle, drop_key, abs_side. clear Hin Hup Hb Hv.
  induction (bk_view b s) as [|x l IH]; [done|]. rewrite filter_cons, fmap_cons, filter_cons, ero_key_of.
  specialize (Hk x ltac:(set_solver)) as Hkx.
  rewrite (decide_ext (x.1 <> h) (bo_key x.2 <> bo_key o)) by tauto.
  case_decide; [rewrite fmap_cons; f_equal|]; apply IH; intros y Hy; apply Hk; set_solver.
Qed.

Lemma engine_drop : exists e1, store_book e i b' = Some e1 /\
  (exists bs, e1 = me_with_books e bs) /\
  let e2 := me_with_orders e1 (delete (bo_key o) (me_orders e1)) (u64 (me_resting_orders e1 - 1)) in
  engine_wf e2 /\ book_for e2 i = Some b' /\
  (forall j s', 0 <= j -> iview e2 j s' = set_view (iview e) i s (remove_handle h (bk_view b s)) j s') /\
  (forall st, refines e st -> refines e2
     (sp_set_side st i s (abs_side (me_orders e) i (remove_handle h (bk_view b s))))).
Proof.
  pose proof drop_in_view as Hv.
  destruct (dir_drop _ _ (ew_dir _ W) i s h o Hi Hv) as [Hdir Hsub].
  rewrite (iview_book e i b s Hb) in Hdir, Hsub.
  assert (Hl : forall x, x ∈ remove_handle h (bk_view b s) -> x ∈ iview e i s).
  { intros x [_ Hx]%list_elem_of_filter. by rewrite (iview_book e i b). }
  destruct (update_wf e W i Hi b b' Hb Wb s _ Hup _ Hdir) as (e1 & Hst & Hb1 & Hv1 & [bs ->] & W2 & R2).
  { intros x Hx%Hl. by apply (ew_order _ W i s). }
  { intros x y Hx%Hl. by apply (ew_uncrossed _ W i). }
  exists (me_with_books e bs). split; [done|]. split; [by eexists|]. cbn [me_orders me_resting_orders me_with_books].
  rewrite drop_resting. cbn zeta. split; [done|]. split; [done|]. split; [done|].
  intros st R. rewrite <- (abs_side_ext _ (delete (bo_key o) (me_orders e))).
  - apply R2; [done|]. intros j s' [h' o'] Hj Hne Hx. apply lookup_delete_ne. intros Hk.
    apply (Hsub j s' h' o' Hj); [by rewrite set_view_ne|done].
  - intros [h' o'] Hx. apply lookup_delete_ne. intros Hk.
    apply (Hsub i s h' o' Hi); [by rewrite set_view_eq|done].
Qed.
End Drop.

(** ** Editing an order in place *)
Section Edit.
Context (e : MatchingEngine B) (W : engine_wf e) (i : InstrumentId) (Hi : 0 <= i)
  (b b' : B) (Hb : book_for e i = Some b) (Wb : bk_wf b') (s : Side) (h : Z) (o : BookOrder)
  (Hin : (h, o) ∈ bk_view b s) (f : BookOrder -> BookOrder)
  (Hup : side_update (bk_view b) (bk_view b') s (update_handle h f (bk_view b s)))
  (ref : OrderRef) (Href : me_orders e !! bo_key o = Some ref)
  (Hprice : bo_price (f o) = bo_price o) (Hok : order_ok (f o))
  (Hkey : bo_key (f o) = bo_key o \/ me_orders e !! bo_key (f o) = None).
Let m' := <[bo_key (f o) := ref]> (delete (bo_key o) (me_orders e)).

Lemma edit_size : size m' = size (me_orders e).
Proof.
  unfold m'. rewrite map_size_insert, map_size_delete, Href.
  assert (size (me_orders e) <> 0%nat) by (eapply map_size_ne_0_lookup_2; eauto).
  destruct Hkey as [->|Hn]; [rewrite lookup_delete_eq; lia|].
  rewrite lookup_delete_ne, Hn by congruence. lia.
Qed.

Lemma engine_edit : exists e1, store_book e i b' = Some e1 /\
  (exists bs, e1 = me_with_books e bs) /\
  let e2 := me_with_orders e1 m' (me_resting_orders e1) in
  engine_wf e2 /\ book_for e2 i = Some b' /\
  (forall j s', 0 <= j -> iview e2 j s' = set_view (iview e) i s (update_handle h f (bk_view b s)) j s') /\
  (forall st, refines e st -> refines e2
     (sp_set_side st i s (abs_side m' i (update_handle h f (bk_view b s))))).
Proof.
  assert (Hv : (h, o) ∈ iview e i s) by (by rewrite (iview_book e i b)).
  destruct (dir_edit _ _ (ew_dir _ W) i s h o f ref Hi Hv Href Hkey) as [Hdir Hsub].
  rewrite (iview_book e i b s Hb) in Hdir, Hsub. fold m' in Hdir.
  assert (Hl : forall x, x ∈ update_handle h f (bk_view b s) ->
    x.2 = f o \/ x ∈ iview e i s).
  { intros [h' o'] Hx. rewrite <- (set_view_eq (iview e) i s (update_handle h f (bk_view b s))) in Hx.
    destruct (Hsub i s h' o' Hi Hx) as [(_ & _ & _ & ->)|[? _]]; auto. }
  destruct (update_wf e W i Hi b b' Hb Wb s _ Hup _ Hdir) as (e1 & Hst & Hb1 & Hv1 & [bs ->] & W2 & R2).
  { intros x [->|Hx]%Hl; [done|]. by apply (ew_order _ W i s). }
  { intros x y [Hx|Hx]%Hl; [|by apply (ew_uncrossed _ W i)]. intros Hy.
    pose proof (ew_uncrossed _ W i s (h, o) y Hi Hv Hy) as Hc. unfold no_cross, entry_price in *.
    rewrite Hx, Hprice. done. }
  rewrite edit_size, <- (ew_resting _ W) in W2, R2.
  exists (me_with_books e bs). split; [done|]. split; [by eexists|]. cbn [me_resting_orders me_with_books].
  split; [done|]. split; [done|]. split; [done|]. intros st R. apply R2; [done|].
  intros j s' [h' o'] Hj Hne Hx. cbn [snd].
  destruct (Hsub j s' h' o' Hj) as [(-> & -> & _)|(_ & Hn1 & Hn2)]; [by rewrite set_view_ne|by destruct Hne|].
  unfold m'. by rewrite lookup_insert_ne, lookup_delete_ne by done.
Qed.
End Edit.

(** The head of a side, reduced. *)
Lemma update_handle_head h f o l : NoDup ((h, o) :: l).*1 -> update_handle h f ((h, o) :: l) = (h, f o) :: l.
Proof.
  rewrite fmap_cons. intros [Hn _]%NoDup_cons. unfold update_handle. rewrite fmap_cons. cbn [fst snd].
  rewrite decide_True by done. f_equal. by apply update_handle_notin.
Qed.
Lemma remove_handle_head h o l : NoDup ((h, o) :: l).*1 -> remove_handle h ((h, o) :: l) = l.
Proof. intros Hn. by apply (remove_handle_mid h o [] l). Qed.

(** ** Bumping the event counter *)
Lemma bump_seq_wf (e : MatchingEngine B) : engine_wf e -> engine_wf (bump_event_sequence e).
Proof. apply counters_wf. Qed.
Lemma bump_seq_refines e st : refines e st -> refines (bump_event_sequence e) (sp_bump_seq st).
Proof.
  intros R. pose proof (rf_xid _ _ R) as Hx. pose proof (rf_seq _ _ R) as Hs. pose proof (rf_prio _ _ R) as Hp.
  unfold sp_bump_seq. rewrite Hx, Hs, Hp. by apply counters_refines.
Qed.
Lemma bump_xid_refines e st : refines e st -> refines (bump_exchange_order_id e) (sp_bump_xid st).
Proof.
  intros R. pose proof (rf_xid _ _ R) as Hx. pose proof (rf_seq _ _ R) as Hs. pose proof (rf_prio _ _ R) as Hp.
  unfold sp_bump_xid. rewrite Hx, Hs, Hp. by apply counters_refines.
Qed.
Lemma bump_prio_refines e st : refines e st -> refines (bump_priority e) (sp_bump_prio st).
Proof.
  intros R. pose proof (rf_xid _ _ R) as Hx. pose proof (rf_seq _ _ R) as Hs. pose proof (rf_prio _ _ R) as Hp.
  unfold sp_bump_prio. rewrite Hx, Hs, Hp. by apply counters_refines.
Qed.
End Refine.
