(* ===== verification/EngineMatch.v ===== *)
(** * The matching loop and the resting step, simulated

    [match_and_rest] consumes the contra side exactly as [spec_fill] does,
    within the fuel its caller gives it, and [rest_remainder_if_applicable]
    inserts what is left. *)
From S2P Require Import Prelude Types TickLadder SideIndex PriceQueues MatchingBook BookReads BookSpec MatchingEngine EngineSpec Directory EngineWf EngineRefine.

Lemma sp_side_set_eq st i s l : is_Some (sp_books st !! i) -> sp_side (sp_set_side st i s l) i s = l.
Proof. intros [sb Hsb]. unfold sp_side. cbn. rewrite lookup_alter_eq, Hsb. by destruct s. Qed.
Lemma ero_set_remaining_id x : ero_set_remaining x (ero_remaining_quantity x) = x.
Proof. by destruct x. Qed.
Lemma sp_two_bumps st i s l :
  sp_bump_seq (sp_set_side (sp_bump_seq st) i s l) =
  sp_set_counters (sp_set_side st i s l) (sp_next_exchange_order_id st)
    (u64 (sp_next_event_sequence st + 2)) (sp_next_priority st).
Proof. unfold sp_bump_seq, sp_set_counters, sp_set_side. cbn. f_equal. rewrite u64_add_idemp_l. f_equal. lia. Qed.

Lemma fill_events_remaining x q cseq rem fills seq :
  fill_events (ero_set_remaining x q) cseq rem fills seq = fill_events x cseq rem fills seq.
Proof. revert rem seq. induction fills as [|[r t] fills IH]; intros rem seq; [done|]. cbn. by rewrite IH. Qed.

(** In priority order, nothing behind a non-crossing order crosses. *)
Lemma crosses_better s price p q : crosses s price p = false -> better_eq (contra_side s) p q = true ->
  crosses s price q = false.
Proof. destruct s; cbn; lia. Qed.
Lemma no_crossing_tail s price e l : prio_sorted (contra_side s) (e :: l) ->
  crosses s price (entry_price e) = false -> forall y, y ∈ e :: l -> crosses s price (entry_price y) = false.
Proof.
  intros Hs Hc y Hy. inversion Hs as [|? ? _ Hall]; subst. rewrite Forall_forall in Hall.
  apply elem_of_cons in Hy as [->|Hy]; [done|]. eapply crosses_better; [done|]. by apply Hall.
Qed.

Section Match.
Context {B : Type} `{BookLaws B}.
Implicit Types (i : InstrumentId).

Lemma refines_known (e : MatchingEngine B) st i b :
  engine_wf e -> refines e st -> 0 <= i -> book_for e i = Some b -> is_Some (sp_books st !! i).
Proof.
  intros W R Hi Hb. rewrite (rf_books _ _ R) by done.
  destruct (book_for_Some e (ew_registry _ W) i b Hi Hb) as (_ & _ & _ & _ & ->). eauto.
Qed.
Lemma refines_view (e : MatchingEngine B) st i b s : engine_wf e -> refines e st -> 0 <= i -> book_for e i = Some b ->
  sp_side st i s = abs_side (me_orders e) i (bk_view b s).
Proof.
  intros W R Hi Hb. rewrite (refines_side e st i s (ew_registry _ W) R Hi). by rewrite (iview_book e i b).
Qed.

Section Step.
Context (e : MatchingEngine B) (W : engine_wf e) (i : InstrumentId) (Hi : 0 <= i)
  (b : B) (Hb : book_for e i = Some b) (c : Side) (h : Z) (o : BookOrder) (l : list entry)
  (Hv : bk_view b c = (h, o) :: l).

Lemma step_wf : bk_wf b.
Proof. by apply (ew_book _ W i). Qed.
Lemma step_NoDup : NoDup ((h, o) :: l).*1.
Proof.
  rewrite <- Hv, <- (iview_book e i b c Hb). by apply (handle_in_side _ _ (ew_dir _ W)).
Qed.
Lemma step_order : order_ok o /\ bo_side o = c.
Proof.
  split.
  - apply (ew_order _ W i c (h, o)); [done|]. rewrite (iview_book e i b c Hb), Hv. set_solver.
  - apply (law_entry b c (h, o) step_wf). rewrite Hv. set_solver.
Qed.

Context (st : Spec) (R : refines e st).

(** A full fill: trade, remove the front, erase its key. *)
Lemma step_full : exists b1 e1, bk_remove_front b c = Some b1 /\
  store_book (bump_event_sequence e) i b1 = Some e1 /\
  me_orders e1 = me_orders e /\ me_next_event_sequence e1 = u64 (me_next_event_sequence e + 1) /\
  side_update (bk_view b) (bk_view b1) c l /\
  let e2 := bump_event_sequence (me_with_orders e1 (delete (bo_key o) (me_orders e1)) (u64 (me_resting_orders e1 - 1))) in
  engine_wf e2 /\ book_for e2 i = Some b1 /\
  refines e2 (sp_set_counters (sp_set_side st i c (abs_side (me_orders e) i l)) (sp_next_exchange_order_id st)
                (u64 (sp_next_event_sequence st + 2)) (sp_next_priority st)).
Proof.
  destruct (law_remove_front b c h o l step_wf Hv) as (b1 & Hrem & Wb & Hup).
  assert (Hup' : side_update (bk_view b) (bk_view b1) c (remove_handle h (bk_view b c))).
  { rewrite Hv, remove_handle_head; [done|apply step_NoDup]. }
  destruct (engine_drop (bump_event_sequence e) (bump_seq_wf e W) i Hi b b1 Hb Wb c h o) as
    (e1 & Hst & [bs ->] & W2 & Hb2 & _ & R2); [rewrite Hv; set_solver|done|].
  exists b1, (me_with_books (bump_event_sequence e) bs). split; [done|]. split; [done|].
  split; [done|]. split; [done|]. split; [done|]. split; [by apply bump_seq_wf|]. split; [done|].
  rewrite <- sp_two_bumps. apply bump_seq_refines.
  specialize (R2 _ (bump_seq_refines e st R)). by rewrite Hv, remove_handle_head in R2 by apply step_NoDup.
Qed.

(** A partial fill: trade, reduce the front. *)
Lemma step_partial q : 0 < q < two64 -> exists b1 e1, bk_reduce_front b c q = Some b1 /\
  store_book (bump_event_sequence e) i b1 = Some e1 /\
  me_orders e1 = me_orders e /\ me_next_event_sequence e1 = u64 (me_next_event_sequence e + 1) /\
  side_update (bk_view b) (bk_view b1) c ((h, bo_set_remaining o q) :: l) /\
  let e2 := bump_event_sequence e1 in
  engine_wf e2 /\ book_for e2 i = Some b1 /\
  refines e2 (sp_set_counters
                (sp_set_side st i c (ero_set_remaining (ero_of (me_orders e) i o) q :: abs_side (me_orders e) i l))
                (sp_next_exchange_order_id st) (u64 (sp_next_event_sequence st + 2)) (sp_next_priority st)).
Proof.
  intros Hq. destruct (law_reduce_front b c h o l q step_wf Hv) as (b1 & Hred & Wb & Hup).
  pose proof step_NoDup as Hnd. destruct step_order as [[Hr Ht] _].
  assert (Hin : (h, o) ∈ iview e i c) by (rewrite (iview_book e i b c Hb), Hv; set_solver).
  destruct (dw_entry _ _ (ew_dir _ W) i c h o Hi Hin) as (ref & Href & _).
  assert (Hup' : side_update (bk_view b) (bk_view b1) c (update_handle h (fun o => bo_set_remaining o q) (bk_view b c))).
  { by rewrite Hv, update_handle_head. }
  destruct (engine_edit (bump_event_sequence e) (bump_seq_wf e W) i Hi b b1 Hb Wb c h o) with
    (f := fun o => bo_set_remaining o q) (ref := ref) as (e1 & Hst & [bs ->] & W2 & Hb2 & _ & R2);
    try done; [rewrite Hv; set_solver|by left|].
  assert (Hm : <[bo_key (bo_set_remaining o q) := ref]> (delete (bo_key o) (me_orders e)) = me_orders e).
  { rewrite insert_delete_eq. by apply insert_id. }
  exists b1, (me_with_books (bump_event_sequence e) bs). split; [done|]. split; [done|].
  split; [done|]. split; [done|]. split; [done|].
  cbn [me_orders bump_event_sequence me_with_counters me_with_books me_resting_orders] in W2, R2.
  rewrite Hm in W2, R2. split; [by apply bump_seq_wf|]. split; [done|].
  rewrite <- sp_two_bumps. apply bump_seq_refines.
  specialize (R2 _ (bump_seq_refines e st R)). by rewrite Hv, update_handle_head in R2.
Qed.
End Step.

(** What the loop leaves behind, besides refining the specification. *)
Record loop_post (e : MatchingEngine B) (b : B) (i : InstrumentId) (s : Side) (price : Price)
    (e' : MatchingEngine B) (rem' : Quantity) : Prop := {
  lp_wf : engine_wf e';
  lp_book : exists b', book_for e' i = Some b' /\ bk_view b' s = bk_view b s /\
    (length (bk_view b' (contra_side s)) <= length (bk_view b (contra_side s)))%nat /\
    (rem' = 0 \/ forall y, y ∈ bk_view b' (contra_side s) -> crosses s price (entry_price y) = false);
  lp_keys : forall k, me_orders e !! k = None -> me_orders e' !! k = None;
  lp_rem : 0 <= rem' < two64;
}.

Lemma loop_stop e b i s price rem : engine_wf e -> book_for e i = Some b -> 0 <= rem < two64 ->
  (rem = 0 \/ forall y, y ∈ bk_view b (contra_side s) -> crosses s price (entry_price y) = false) ->
  loop_post e b i s price e rem.
Proof. intros W Hb Hr Hstop. constructor; [done| |done|done]. exists b. done. Qed.
Lemma loop_chain e b i s price e1 b1 e' rem' :
  bk_view b1 s = bk_view b s -> (length (bk_view b1 (contra_side s)) <= length (bk_view b (contra_side s)))%nat ->
  (forall k, me_orders e !! k = None -> me_orders e1 !! k = None) ->
  loop_post e1 b1 i s price e' rem' -> loop_post e b i s price e' rem'.
Proof.
  intros Hs Hl Hk [W (b' & Hb' & Hs' & Hl' & Hstop) Hk' Hr]. constructor; [done| |auto|done].
  exists b'. split; [done|]. split; [congruence|]. split; [lia|done].
Qed.

(** One iteration, in its three outcomes. *)
Lemma iter_stop fuel e (x : ExchangeRestingOrder) b cseq : engine_wf e -> 0 <= ero_instrument_id x ->
  book_for e (ero_instrument_id x) = Some b ->
  (ero_remaining_quantity x = 0 \/
   match bk_view b (contra_side (ero_side x)) with
   | [] => True | y :: _ => crosses (ero_side x) (ero_price x) (entry_price y) = false end) ->
  match_loop (S fuel) e x cseq = Some (e, x, []).
Proof.
  intros W Hi Hb Hstop. cbn [match_loop]. destruct (ero_remaining_quantity x =? 0) eqn:Hz; [done|].
  rewrite Hb, (law_front_of_best b) by (by apply (ew_book _ W _ _ Hi)).
  destruct Hstop as [Hs|Hs]; [lia|].
  destruct (bk_view b _) as [|[h o] l]; [done|]. cbn. unfold entry_price in Hs. cbn in Hs. by rewrite Hs.
Qed.

Section Iterate.
Context (e : MatchingEngine B) (W : engine_wf e) (x : ExchangeRestingOrder) (cseq : CommandSequence) (b : B)
  (h : Z) (o : BookOrder) (l : list entry).
Let i := ero_instrument_id x.
Let s := ero_side x.
Let t := Z.min (ero_remaining_quantity x) (bo_remaining_quantity o).
Let x1 := ero_set_remaining x (ero_remaining_quantity x - t).
Let after := bo_remaining_quantity o - t.
Context (Hi : 0 <= i) (Hb : book_for e i = Some b) (Hv : bk_view b (contra_side s) = (h, o) :: l)
  (Hx : 0 < ero_remaining_quantity x < two64) (Ho : 0 < bo_remaining_quantity o < two64)
  (Hc : crosses s (ero_price x) (bo_price o) = true).

Lemma iter_full fuel b1 e1 : after = 0 -> bk_remove_front b (contra_side s) = Some b1 ->
  store_book (bump_event_sequence e) i b1 = Some e1 ->
  me_next_event_sequence e1 = u64 (me_next_event_sequence e + 1) ->
  match_loop (S fuel) e x cseq =
    let* (e', x', evs) := match_loop fuel (bump_event_sequence (me_with_orders e1 (delete (bo_key o) (me_orders e1))
                             (u64 (me_resting_orders e1 - 1)))) x1 cseq in
    Some (e', x', trade_event x o cseq t (ero_remaining_quantity x - t) after (me_next_event_sequence e)
                  :: book_removed i o (u64 (me_next_event_sequence e + 1)) :: evs).
Proof.
  intros Ha Hop Hst Hq. cbn [match_loop]. fold i s. rewrite (proj2 (Z.eqb_neq _ 0)) by lia.
  rewrite Hb, (law_front_of_best b) by (by apply (ew_book _ W _ _ Hi)). rewrite Hv. cbn [head fmap option_fmap option_map snd].
  rewrite Hc. cbn [negb]. fold t. rewrite (u64_small (ero_remaining_quantity x - t)), (u64_small (bo_remaining_quantity o - t)) by lia.
  fold after. rewrite Ha. cbn [emit Z.eqb]. rewrite Hop.
  change (ero_instrument_id (ero_set_remaining _ _)) with i. rewrite Hst.
  cbn [me_with_orders me_next_event_sequence]. by rewrite Hq.
Qed.

Lemma iter_partial fuel b1 e1 : after <> 0 -> bk_reduce_front b (contra_side s) after = Some b1 ->
  store_book (bump_event_sequence e) i b1 = Some e1 ->
  me_next_event_sequence e1 = u64 (me_next_event_sequence e + 1) ->
  match_loop (S fuel) e x cseq =
    let* (e', x', evs) := match_loop fuel (bump_event_sequence e1) x1 cseq in
    Some (e', x', trade_event x o cseq t (ero_remaining_quantity x - t) after (me_next_event_sequence e)
                  :: book_reduced i o after (u64 (me_next_event_sequence e + 1)) :: evs).
Proof.
  intros Ha Hop Hst Hq. cbn [match_loop]. fold i s. rewrite (proj2 (Z.eqb_neq _ 0)) by lia.
  rewrite Hb, (law_front_of_best b) by (by apply (ew_book _ W _ _ Hi)). rewrite Hv. cbn [head fmap option_fmap option_map snd].
  rewrite Hc. cbn [negb]. fold t. rewrite (u64_small (ero_remaining_quantity x - t)), (u64_small (bo_remaining_quantity o - t)) by lia.
  fold after. rewrite (proj2 (Z.eqb_neq after 0)) by done. cbn [emit]. rewrite Hop.
  change (ero_instrument_id (ero_set_remaining _ _)) with i. rewrite Hst.
  cbn [me_with_orders me_next_event_sequence]. by rewrite Hq.
Qed.
End Iterate.

(** [spec_fill], unfolded along the same outcomes. *)
Lemma spec_fill_stop s price rem l :
  (rem = 0 \/ match l with [] => True | r :: _ => crosses s price (ero_price r) = false end) ->
  spec_fill s price rem l = ([], rem, l).
Proof.
  intros Hs. destruct l as [|r l]; [done|]. cbn. destruct Hs as [->|Hs]; [done|]. rewrite Hs. by rewrite orb_true_r.
Qed.
Lemma spec_fill_cross s price rem r l : rem <> 0 -> crosses s price (ero_price r) = true ->
  let t := Z.min rem (ero_remaining_quantity r) in
  spec_fill s price rem (r :: l) =
    if ero_remaining_quantity r - t =? 0
    then let '(fills, rem', l') := spec_fill s price (rem - t) l in ((r, t) :: fills, rem', l')
    else ([(r, t)], rem - t, ero_set_remaining r (ero_remaining_quantity r - t) :: l).
Proof. intros Hr Hc. cbn. rewrite Hc. by rewrite (proj2 (Z.eqb_neq rem 0)). Qed.

(** What is proved of the loop on [x], from [e] standing for [st]. *)
Definition loop_ok (fuel : nat) (e : MatchingEngine B) (st : Spec) (x : ExchangeRestingOrder) (b : B)
    (cseq : CommandSequence) : Prop :=
  let i := ero_instrument_id x in
  let c := contra_side (ero_side x) in
  let '(fills, rem', l') := spec_fill (ero_side x) (ero_price x) (ero_remaining_quantity x) (sp_side st i c) in
  exists e', match_loop fuel e x cseq =
      Some (e', ero_set_remaining x rem', fill_events x cseq (ero_remaining_quantity x) fills (sp_next_event_sequence st)) /\
    loop_post e b i (ero_side x) (ero_price x) e' rem' /\
    refines e' (sp_set_counters (sp_set_side st i c l') (sp_next_exchange_order_id st)
                  (seq_after fills (sp_next_event_sequence st)) (sp_next_priority st)).

Section Loop.
Context (fuel : nat) (e : MatchingEngine B) (st : Spec) (x : ExchangeRestingOrder) (b : B) (cseq : CommandSequence).
Let i := ero_instrument_id x.
Let s := ero_side x.
Let c := contra_side s.
Context (W : engine_wf e) (R : refines e st) (Hi : 0 <= i) (Hb : book_for e i = Some b)
  (Hrem : 0 <= ero_remaining_quantity x < two64).

Lemma loop_done : ero_remaining_quantity x = 0 \/
    match bk_view b c with [] => True | y :: _ => crosses s (ero_price x) (entry_price y) = false end ->
  loop_ok (S fuel) e st x b cseq.
Proof.
  intros Hs. pose proof (refines_view e st i b c W R Hi Hb) as Hside.
  pose proof (law_sorted b c (ew_book _ W i b Hi Hb)) as Hsort.
  unfold loop_ok. fold i s c. rewrite spec_fill_stop.
  2: { destruct Hs as [?|Hs]; [by left|]. right. rewrite Hside. by destruct (bk_view b c). }
  exists e. rewrite ero_set_remaining_id, (iter_stop fuel e x b cseq) by done. split; [done|]. split.
  - apply loop_stop; try done. destruct Hs as [?|Hs]; [by left|]. right. fold c.
    destruct (bk_view b c) as [|y l]; [set_solver|]. by apply no_crossing_tail.
  - rewrite sp_set_side_id by done. by destruct st.
Qed.

Context (h : Z) (o : BookOrder) (l : list entry) (Hv : bk_view b c = (h, o) :: l)
  (Hz : ero_remaining_quantity x <> 0) (Hc : crosses s (ero_price x) (bo_price o) = true)
  (IH : forall e st x b cseq, engine_wf e -> refines e st -> 0 <= ero_instrument_id x ->
     book_for e (ero_instrument_id x) = Some b -> 0 <= ero_remaining_quantity x < two64 ->
     (length (bk_view b (contra_side (ero_side x))) < fuel)%nat \/
       (ero_remaining_quantity x = 0 /\ (0 < fuel)%nat) -> loop_ok fuel e st x b cseq)
  (Hf : (length l < fuel)%nat).
Let t := Z.min (ero_remaining_quantity x) (bo_remaining_quantity o).

Lemma loop_side : sp_side st i c = ero_of (me_orders e) i o :: abs_side (me_orders e) i l.
Proof. rewrite (refines_view e st i b c W R Hi Hb), Hv. done. Qed.

(** The specification after one fill, then the rest. *)
Lemma sp_side_after lnew seq' l' f :
  sp_set_counters (sp_set_side (sp_set_counters (sp_set_side st i c lnew) (sp_next_exchange_order_id st) seq'
                     (sp_next_priority st)) i c l') (sp_next_exchange_order_id st) f (sp_next_priority st) =
  sp_set_counters (sp_set_side st i c l') (sp_next_exchange_order_id st) f (sp_next_priority st).
Proof.
  change (sp_set_side (sp_set_counters ?a ?x ?y ?z) i c l') with (sp_set_counters (sp_set_side a i c l') x y z).
  by rewrite sp_set_side_twice.
Qed.

Lemma loop_full : bo_remaining_quantity o - t = 0 -> loop_ok (S fuel) e st x b cseq.
Proof.
  intros Ha. destruct (step_order e W i Hi b Hb c h o l Hv) as [[Hro _] Hso].
  destruct (step_full e W i Hi b Hb c h o l Hv st R) as
    (b1 & e1 & Hop & Hst & Ho1 & Hq1 & [Hup1 Hup2] & W2 & Hb2 & R2).
  pose proof (sp_side_set_eq st i c (abs_side (me_orders e) i l) (refines_known e st i b W R Hi Hb)) as Hs2.
  specialize (IH _ _ (ero_set_remaining x (ero_remaining_quantity x - t)) b1 cseq W2 R2 Hi Hb2).
  unfold loop_ok in IH |- *.
  cbn [ero_set_remaining ero_instrument_id ero_side ero_price ero_remaining_quantity] in IH.
  fold i s c in IH |- *. rewrite Hup1 in IH. specialize (IH ltac:(lia) (or_introl Hf)).
  unfold sp_side in IH, Hs2 at 1. cbn [sp_set_counters sp_books sp_next_event_sequence sp_next_exchange_order_id sp_next_priority] in IH.
  rewrite Hs2 in IH. rewrite loop_side, spec_fill_cross by done.
  change (ero_remaining_quantity (ero_of (me_orders e) i o)) with (bo_remaining_quantity o). fold t.
  rewrite Ha. cbn [Z.eqb]. destruct (spec_fill _ _ (ero_remaining_quantity x - t) _) as [[fills rem'] l'].
  destruct IH as (e' & Hl & Hpost & R'). exists e'.
  rewrite (iter_full e W x cseq b h o l Hi Hb Hv ltac:(lia) Hro Hc fuel b1 e1 Ha Hop Hst Hq1). fold t.
  rewrite Hl. split; [|split].
  - cbn [fill_events]. change (ero_remaining_quantity (ero_of (me_orders e) i o)) with (bo_remaining_quantity o).
    rewrite Ha. cbn [Z.eqb]. by rewrite (rf_seq _ _ R), book_order_of_ero, fill_events_remaining.
  - eapply loop_chain; [| | |exact Hpost].
    + by rewrite <- (contra_side_involutive s).
    + fold c. rewrite Hup1, Hv. cbn. lia.
    + intros k Hk. cbn. rewrite Ho1. rewrite lookup_delete_None. auto.
  - cbn [seq_after]. by rewrite sp_side_after in R'.
Qed.

Lemma loop_partial : bo_remaining_quantity o - t <> 0 -> loop_ok (S fuel) e st x b cseq.
Proof.
  intros Ha. destruct (step_order e W i Hi b Hb c h o l Hv) as [[Hro _] Hso].
  assert (Ht : t = Z.min (ero_remaining_quantity x) (bo_remaining_quantity o)) by done.
  remember (bo_remaining_quantity o - t) as q eqn:Hq.
  destruct (step_partial e W i Hi b Hb c h o l Hv st R q) as
    (b1 & e1 & Hop & Hst & Ho1 & Hq1 & [Hup1 Hup2] & W2 & Hb2 & R2); [lia|].
  set (lnew := ero_set_remaining _ q :: _) in R2.
  pose proof (sp_side_set_eq st i c lnew (refines_known e st i b W R Hi Hb)) as Hs2.
  specialize (IH _ _ (ero_set_remaining x (ero_remaining_quantity x - t)) b1 cseq W2 R2 Hi Hb2).
  unfold loop_ok in IH |- *.
  cbn [ero_set_remaining ero_instrument_id ero_side ero_price ero_remaining_quantity] in IH.
  fold i s c in IH |- *. assert (Hr0 : ero_remaining_quantity x - t = 0) by lia.
  assert (Hf0 : (0 < fuel)%nat) by lia.
  specialize (IH ltac:(lia) (or_intror (conj Hr0 Hf0))).
  rewrite spec_fill_stop in IH by auto.
  unfold sp_side in IH, Hs2 at 1. cbn [sp_set_counters sp_books sp_next_event_sequence sp_next_exchange_order_id sp_next_priority] in IH.
  rewrite Hs2 in IH. rewrite loop_side, spec_fill_cross by done.
  change (ero_remaining_quantity (ero_of (me_orders e) i o)) with (bo_remaining_quantity o). fold t. rewrite <- Hq.
  rewrite (proj2 (Z.eqb_neq q 0)) by done.
  destruct IH as (e' & Hl & Hpost & R'). exists e'.
  pose proof Ha as Ha'. rewrite Hq in Ha', Hop.
  rewrite (iter_partial e W x cseq b h o l Hi Hb Hv ltac:(lia) Hro Hc fuel b1 e1 Ha' Hop Hst Hq1).
  fold t. rewrite <- Hq.
  rewrite Hl. split; [|split].
  - cbn [fill_events]. change (ero_remaining_quantity (ero_of (me_orders e) i o)) with (bo_remaining_quantity o).
    rewrite <- Hq, (proj2 (Z.eqb_neq q 0)) by done. by rewrite (rf_seq _ _ R), book_order_of_ero.
  - eapply loop_chain; [| | |exact Hpost].
    + by rewrite <- (contra_side_involutive s).
    + fold c. by rewrite Hup1, Hv.
    + intros k Hk. cbn. by rewrite Ho1.
  - cbn [seq_after fill_events] in *. by rewrite sp_side_after in R'.
Qed.
End Loop.

Lemma match_loop_refines fuel : forall e st x b cseq, engine_wf e -> refines e st -> 0 <= ero_instrument_id x ->
  book_for e (ero_instrument_id x) = Some b -> 0 <= ero_remaining_quantity x < two64 ->
  (length (bk_view b (contra_side (ero_side x))) < fuel)%nat \/ (ero_remaining_quantity x = 0 /\ (0 < fuel)%nat) ->
  loop_ok fuel e st x b cseq.
Proof.
  induction fuel as [|fuel IH]; intros e st x b cseq W R Hi Hb Hrem Hf; [lia|].
  destruct (decide (ero_remaining_quantity x = 0)) as [Hz|Hz]; [apply loop_done; auto|].
  destruct Hf as [Hf|[Hf _]]; [|done].
  destruct (bk_view b (contra_side (ero_side x))) as [|[h o] l] eqn:Hv; [apply loop_done; auto; by rewrite Hv; right|].
  destruct (crosses (ero_side x) (ero_price x) (bo_price o)) eqn:Hc; [|apply loop_done; auto; by rewrite Hv; right].
  cbn [length] in Hf.
  destruct (decide (bo_remaining_quantity o - Z.min (ero_remaining_quantity x) (bo_remaining_quantity o) = 0)).
  - eapply loop_full; try done. lia.
  - eapply loop_partial; try done. lia.
Qed.
End Match.
