(* ===== verification/EngineProcess.v ===== *)
(** * Every command, simulated

    The resting step, then new order, cancel and replace, each against the
    specification; [process_refines] and [run_refines] at the end are the
    refinement of the whole engine. *)
From S2P Require Import Prelude Types TickLadder SideIndex PriceQueues MatchingBook BookReads BookSpec MatchingEngine EngineSpec Directory EngineWf EngineRefine EngineMatch.

Section Process.
Context {B : Type} `{BookLaws B}.
Implicit Types (i : InstrumentId).

Lemma match_and_rest_refines e st x b cseq : engine_wf e -> refines e st -> 0 <= ero_instrument_id x ->
  book_for e (ero_instrument_id x) = Some b -> 0 <= ero_remaining_quantity x < two64 ->
  let '(st', x', evs) := spec_match st x cseq in
  exists e', match_and_rest e x cseq = Some (e', x', evs) /\ refines e' st' /\
    loop_post e b (ero_instrument_id x) (ero_side x) (ero_price x) e' (ero_remaining_quantity x').
Proof.
  intros W R Hi Hb Hx. unfold match_and_rest, spec_match. rewrite Hb.
  pose proof (law_count b (ew_book _ W _ _ Hi Hb)) as Hc. rewrite Hc. unfold count_sides.
  pose proof (match_loop_refines (S (Z.to_nat (Z.of_nat (length (bk_view b Buy) + length (bk_view b Sell)))))
    e st x b cseq W R Hi Hb Hx) as Hl.
  unfold loop_ok in Hl. destruct (spec_fill _ _ _ _) as [[fills rem'] l'].
  destruct Hl as (e' & Hm & Hpost & R'); [left; destruct (ero_side x); cbn; lia|]. eauto.
Qed.

(** ** Resting *)
Lemma abs_insert m i s h o l :
  abs_side m i (insert_prio s (h, o) l) = spec_insert s (ero_of m i o) (abs_side m i l).
Proof.
  induction l as [|y l IH]; [done|]. cbn [insert_prio].
  change (abs_side m i (y :: l)) with (ero_of m i y.2 :: abs_side m i l). cbn [spec_insert].
  change (ero_price (ero_of m i y.2)) with (entry_price y).
  change (ero_price (ero_of m i o)) with (entry_price (h, o)).
  destruct (better_eq s _ _); [|done]. cbn. f_equal. apply IH.
Qed.
Lemma ero_of_book_order m x h : m !! ero_key x = Some {| ref_original_quantity := ero_original_quantity x;
    ref_order_sequence := ero_order_sequence x; ref_handle := h; ref_instrument_id := ero_instrument_id x |} ->
  ero_of m (ero_instrument_id x) (book_order_of x) = x.
Proof.
  intros Hx. unfold ero_of. change (bo_key (book_order_of x)) with (ero_key x). rewrite Hx. by destruct x.
Qed.

Section Rest.
Context (e : MatchingEngine B) (st : Spec) (W : engine_wf e) (R : refines e st) (x : ExchangeRestingOrder) (b : B).
Let i := ero_instrument_id x.
Let s := ero_side x.
Context (Hi : 0 <= i) (Hb : book_for e i = Some b) (Hp : price_ok (ero_price x))
  (Hrem : 0 <= ero_remaining_quantity x < two64) (Hkey : me_orders e !! ero_key x = None)
  (Hroom : count_sides (bk_view b) < kNil)
  (Hstop : ero_remaining_quantity x = 0 \/
           forall y, y ∈ bk_view b (contra_side s) -> crosses s (ero_price x) (entry_price y) = false).

Definition new_ref (h : Z) : OrderRef :=
  {| ref_original_quantity := ero_original_quantity x; ref_order_sequence := ero_order_sequence x;
     ref_handle := h; ref_instrument_id := i |}.

Lemma engine_insert : ero_remaining_quantity x <> 0 -> ero_time_in_force x = GTC ->
  exists h b1 e1, bk_add b (book_order_of x) = Some (h, b1) /\ store_book e i b1 = Some e1 /\
    let e2 := me_with_orders e1 (<[ero_key x := new_ref h]> (me_orders e1)) (u64 (me_resting_orders e1 + 1)) in
    me_next_event_sequence e2 = me_next_event_sequence e /\
    engine_wf e2 /\ refines e2 (sp_set_side st i s (spec_insert s x (sp_side st i s))).
Proof.
  intros Hz Ht. pose proof (ew_book _ W i b Hi Hb) as Wb.
  destruct (law_add b (book_order_of x) Wb Hp Hroom) as (h & b1 & Hadd & Wb1 & Hfresh & Hup).
  change (bo_side (book_order_of x)) with s in Hup.
  assert (Hh : handles (iview e) i = (bk_view b Buy ++ bk_view b Sell).*1).
  { unfold handles. by rewrite !(iview_book e i b). }
  rewrite <- Hh in Hfresh.
  destruct (dir_insert _ _ (ew_dir _ W) i s h (book_order_of x) (new_ref h) Hi Hkey Hfresh eq_refl eq_refl) as [Hdir Hsub].
  rewrite (iview_book e i b s Hb) in Hdir, Hsub.
  change (bo_key (book_order_of x)) with (ero_key x) in Hdir, Hsub.
  assert (Hl : forall y, y ∈ insert_prio s (h, book_order_of x) (bk_view b s) ->
     y = (h, book_order_of x) \/ y ∈ iview e i s).
  { intros y Hy. rewrite insert_prio_Permutation in Hy. rewrite (iview_book e i b s Hb). by apply elem_of_cons. }
  destruct (update_wf e W i Hi b b1 Hb Wb1 s _ Hup _ Hdir) as (e1 & Hst & Hb1 & Hv1 & [bs ->] & W2 & R2).
  { intros y [->|Hy]%Hl; [split; [cbn; lia|done]|]. by apply (ew_order _ W i s). }
  { intros y z [->|Hy]%Hl Hz'; [|by apply (ew_uncrossed _ W i)].
    rewrite (iview_book e i b _ Hb) in Hz'. destruct Hstop as [|Hs]; [done|].
    specialize (Hs z Hz'). unfold no_cross. cbn. unfold entry_price in *. cbn. destruct s; cbn in *; lia. }
  assert (Hsize : u64 (me_resting_orders e + 1) = u64 (Z.of_nat (size (<[ero_key x := new_ref h]> (me_orders e))))).
  { rewrite (ew_resting _ W), map_size_insert, Hkey, u64_add_idemp_l. f_equal. lia. }
  exists h, b1, (me_with_books e bs). split; [done|]. split; [done|].
  cbn [me_orders me_resting_orders me_with_books]. rewrite Hsize. split; [done|]. split; [done|].
  rewrite (refines_view e st i b s W R Hi Hb).
  assert (Hx : ero_of (<[ero_key x := new_ref h]> (me_orders e)) i (book_order_of x) = x).
  { apply (ero_of_book_order _ _ h). apply lookup_insert_eq. }
  assert (Hne : forall j s' z, 0 <= j -> z ∈ iview e j s' -> bo_key z.2 <> ero_key x).
  { intros j s' [h' o'] Hj Hz'. by apply (lookup_dead _ _ (ew_dir _ W) _ j s' h' o' Hkey). }
  assert (Hold : abs_side (me_orders e) i (bk_view b s) =
                 abs_side (<[ero_key x := new_ref h]> (me_orders e)) i (bk_view b s)).
  { symmetry. apply abs_side_ext. intros z Hz'. apply lookup_insert_ne, not_eq_sym.
    eapply (Hne i s); [done|]. by rewrite (iview_book e i b). }
  assert (Hins : spec_insert s x (abs_side (me_orders e) i (bk_view b s)) =
    abs_side (<[ero_key x := new_ref h]> (me_orders e)) i (insert_prio s (h, book_order_of x) (bk_view b s))).
  { by rewrite Hold, abs_insert, Hx. }
  rewrite Hins. apply R2; [done|].
  intros j s' z Hj _ Hz'. apply lookup_insert_ne, not_eq_sym. by eapply Hne.
Qed.

Lemma rest_refines : let '(st', evs) := spec_rest st x in
  exists e', rest_remainder_if_applicable e x = Some (e', evs) /\ engine_wf e' /\ refines e' st'.
Proof.
  unfold spec_rest, rest_remainder_if_applicable. fold i s.
  destruct (negb _ || _) eqn:E; [by exists e|].
  apply orb_false_iff in E as [Et%negb_false_iff%bool_decide_eq_true Ez%Z.eqb_neq].
  destruct (engine_insert Ez Et) as (h & b1 & e1 & Hadd & Hst & Hq & W2 & R2).
  rewrite Hb, Hadd, Hst. eexists. split; [|split; [by apply bump_seq_wf|by apply bump_seq_refines]].
  unfold ero_key in Hq. cbn [emit]. rewrite (rf_seq _ _ R). f_equal. f_equal. f_equal. by rewrite <- Hq.
Qed.
End Rest.

Lemma match_then_rest_refines e st x b cseq : engine_wf e -> refines e st -> 0 <= ero_instrument_id x ->
  book_for e (ero_instrument_id x) = Some b -> price_ok (ero_price x) -> 0 <= ero_remaining_quantity x < two64 ->
  me_orders e !! ero_key x = None -> count_sides (bk_view b) < kNil ->
  let '(st', evs) := spec_match_then_rest st x cseq in
  exists e', match_then_rest e x cseq = Some (e', evs) /\ engine_wf e' /\ refines e' st'.
Proof.
  intros W R Hi Hb Hp Hrem Hkey Hroom. unfold spec_match_then_rest, match_then_rest.
  pose proof (match_and_rest_refines e st x b cseq W R Hi Hb Hrem) as Hm.
  assert (Hx' : forall st' x' evs, spec_match st x cseq = (st', x', evs) ->
    x' = ero_set_remaining x (ero_remaining_quantity x')).
  { intros st' x' evs. unfold spec_match. destruct (spec_fill _ _ _ _) as [[? ?] ?]. by intros [= _ <- _]. }
  destruct (spec_match st x cseq) as [[st1 x1] evs] eqn:E. specialize (Hx' _ _ _ eq_refl).
  destruct Hm as (e1 & -> & R1 & [W1 (b1 & Hb1 & Hs1 & Hl1 & Hstop) Hk1 Hr1]).
  assert (Hroom1 : count_sides (bk_view b1) < kNil).
  { revert Hroom. unfold count_sides. destruct (ero_side x); cbn in *; rewrite Hs1; lia. }
  pose proof (rest_refines e1 st1 W1 R1 x1 b1) as Hrest. rewrite Hx' in Hrest.
  cbn [ero_set_remaining ero_instrument_id ero_side ero_price ero_remaining_quantity] in Hrest.
  specialize (Hrest Hi Hb1 Hp Hr1 (Hk1 _ Hkey) Hroom1 Hstop). rewrite <- Hx' in Hrest.
  destruct (spec_rest st1 x1) as [st2 evs2]. destruct Hrest as (e2 & -> & W2 & R2). eauto.
Qed.

(** ** The directory, read off the specification *)
Lemma elem_of_all_live st r : r ∈ all_live st <->
  exists i sb, sp_books st !! i = Some sb /\ (r ∈ sb_bids sb \/ r ∈ sb_asks sb).
Proof.
  unfold all_live. rewrite list_elem_of_join. split.
  - intros (l & Hr & ([i sb] & -> & Hin)%list_elem_of_fmap). apply elem_of_map_to_list in Hin.
    exists i, sb. split; [done|]. by apply elem_of_app.
  - intros (i & sb & Hsb & Hr). exists (sb_bids sb ++ sb_asks sb). rewrite elem_of_app. split; [done|].
    apply list_elem_of_fmap. exists (i, sb). split; [done|]. by apply elem_of_map_to_list.
Qed.
Lemma elem_of_abs_side m i l r : r ∈ abs_side m i l <-> exists h o, (h, o) ∈ l /\ r = ero_of m i o.
Proof.
  unfold abs_side. rewrite list_elem_of_fmap. split.
  - intros ([h o] & -> & Hin). eauto.
  - intros (h & o & Hin & ->). by exists (h, o).
Qed.

Section Lookups.
Context (e : MatchingEngine B) (st : Spec) (W : engine_wf e) (R : refines e st).

Lemma live_view_known i s x : 0 <= i -> x ∈ iview e i s -> knows_instrument e i = true.
Proof.
  intros Hi Hx. destruct (knows_instrument e i) eqn:E; [done|].
  rewrite (unknown_view e (ew_registry _ W)) in Hx by done. set_solver.
Qed.

Lemma key_live_dir k : key_live st k = bool_decide (is_Some (me_orders e !! k)).
Proof.
  unfold key_live. apply bool_decide_ext. rewrite Exists_exists. split.
  - intros (r & (i & sb & Hsb & Hr)%elem_of_all_live & Hk).
    destruct (Z.lt_ge_cases i 0) as [Hneg|Hi]; [by rewrite (rf_neg _ _ R) in Hsb|].
    rewrite (rf_books _ _ R) in Hsb by done. destruct (knows_instrument e i); [|done]. injection Hsb as <-.
    assert (Hs : exists s h o, (h, o) ∈ iview e i s /\ r = ero_of (me_orders e) i o).
    { cbn in Hr. rewrite !elem_of_abs_side in Hr. naive_solver. }
    destruct Hs as (s & h & o & Hin & ->). rewrite ero_key_of in Hk. subst k.
    destruct (dw_entry _ _ (ew_dir _ W) _ _ _ _ Hi Hin) as (ref & Hr' & _). eauto.
  - intros [ref Hr]. destruct (dw_ref _ _ (ew_dir _ W) _ _ Hr) as (Hi & s & o & Hin & Hk).
    exists (ero_of (me_orders e) (ref_instrument_id ref) o). split; [|done].
    apply elem_of_all_live. exists (ref_instrument_id ref), (abs_book e (ref_instrument_id ref)). split.
    + rewrite (rf_books _ _ R) by done. by rewrite (live_view_known _ s _ Hi Hin).
    + destruct s; [left|right]; apply elem_of_abs_side; eauto.
Qed.

Lemma sides_abs i : 0 <= i ->
  sp_side st i Buy ++ sp_side st i Sell = abs_side (me_orders e) i (iview e i Buy ++ iview e i Sell).
Proof.
  intros Hi. rewrite !(refines_side e st i _ (ew_registry _ W) R Hi). unfold abs_side. by rewrite fmap_app.
Qed.

Lemma find_order_some i k ref : 0 <= i -> me_orders e !! k = Some ref -> ref_instrument_id ref = i ->
  exists s o, (ref_handle ref, o) ∈ iview e i s /\ bo_key o = k /\
    find_order st i k = Some (ero_of (me_orders e) i o).
Proof.
  intros Hi Hr Hri. destruct (dw_ref _ _ (ew_dir _ W) _ _ Hr) as (_ & s & o & Hin & Hk). rewrite Hri in Hin.
  exists s, o. split; [done|]. split; [done|]. unfold find_order. rewrite sides_abs by done.
  apply find_unique.
  - apply elem_of_abs_side. exists (ref_handle ref), o. split; [|done]. rewrite elem_of_app. destruct s; auto.
  - apply bool_decide_eq_true. by rewrite ero_key_of.
  - intros y (h' & o' & Hin' & ->)%elem_of_abs_side Hy%bool_decide_eq_true. rewrite ero_key_of in Hy.
    assert (Hs' : exists s', (h', o') ∈ iview e i s') by (rewrite elem_of_app in Hin'; destruct Hin'; eauto).
    destruct Hs' as [s' Hs'].
    by destruct (key_unique _ _ (ew_dir _ W) i s' h' o' i s (ref_handle ref) o) as (_ & _ & _ & ->);
      [..|rewrite Hk|].
Qed.
Lemma find_order_none i k : 0 <= i -> (forall ref, me_orders e !! k = Some ref -> ref_instrument_id ref <> i) ->
  find_order st i k = None.
Proof.
  intros Hi Hno. unfold find_order. rewrite sides_abs by done.
  destruct (List.find _ _) as [y|] eqn:E; [|done]. exfalso.
  apply find_some in E as [Hy Hk]. apply bool_decide_eq_true in Hk.
  apply list_elem_of_In, elem_of_abs_side in Hy as (h & o & Hin & ->). rewrite ero_key_of in Hk.
  assert (Hs : exists s, (h, o) ∈ iview e i s) by (rewrite elem_of_app in Hin; destruct Hin; eauto).
  destruct Hs as [s Hs]. destruct (dw_entry _ _ (ew_dir _ W) _ _ _ _ Hi Hs) as (ref & Hr & _ & Hri).
  rewrite Hk in Hr. by apply (Hno ref).
Qed.
Lemma known_spec i : 0 <= i -> bool_decide (is_Some (sp_books st !! i)) = knows_instrument e i.
Proof.
  intros Hi. rewrite (rf_books _ _ R) by done. destruct (knows_instrument e i); [|done].
  by apply bool_decide_eq_true.
Qed.
End Lookups.

(** ** Fill-or-kill: the bounded sum against the liquidity *)
Lemma liquidity_cons side price m i h o l : liquidity side price (abs_side m i ((h, o) :: l)) =
  (if crosses side price (bo_price o) then bo_remaining_quantity o else 0) + liquidity side price (abs_side m i l).
Proof. done. Qed.
Lemma liquidity_none side price m i l :
  (forall y, y ∈ l -> crosses side price (entry_price y) = false) -> liquidity side price (abs_side m i l) = 0.
Proof.
  induction l as [|[h o] l IH]; intros Hl; [done|]. rewrite liquidity_cons.
  pose proof (Hl (h, o) ltac:(set_solver)) as Ho. unfold entry_price in Ho. cbn in Ho. rewrite Ho, IH; [done|]. set_solver.
Qed.

Lemma crossable_liquidity side price quantity m i l total :
  prio_sorted (contra_side side) l -> (forall x, x ∈ l -> order_ok x.2) ->
  0 <= total < quantity -> total + liquidity side price (abs_side m i l) < two64 ->
  (crossable (contra_side side) price quantity l total <? quantity) =
  (total + liquidity side price (abs_side m i l) <? quantity).
Proof.
  intros Hs. revert total. induction l as [|[h o] l IH]; intros total Hok Ht Hsum.
  { cbn. f_equal. lia. }
  destruct (crosses side price (bo_price o)) eqn:Hc.
  - rewrite liquidity_cons, Hc in Hsum |- *. cbn [crossable].
    assert (Hb : better (contra_side side) price (entry_price (h, o)) = false).
    { unfold entry_price. cbn. destruct side; cbn in *; lia. }
    rewrite Hb. cbn [snd]. destruct (Hok (h, o)) as [Hr _]; [set_solver|]. cbn in Hr.
    assert (Hl : 0 <= liquidity side price (abs_side m i l)).
    { clear - Hok. induction l as [|[h' o'] l IH]; [done|]. rewrite liquidity_cons.
      destruct (Hok (h', o')) as [Hr _]; [set_solver|]. cbn in Hr.
      assert (0 <= liquidity side price (abs_side m i l)); [|destruct (crosses _ _ _); lia].
      apply IH. intros x Hx. apply Hok. set_solver. }
    rewrite u64_small by lia. inversion Hs; subst. destruct (quantity <=? _) eqn:Hq; [lia|].
    rewrite IH; [f_equal; lia|done|set_solver|lia|lia].
  - rewrite liquidity_none by (by apply no_crossing_tail). cbn [crossable].
    assert (Hb : better (contra_side side) price (entry_price (h, o)) = true).
    { unfold entry_price. cbn. destruct side; cbn in *; lia. }
    rewrite Hb. f_equal. lia.
Qed.

(** ** Admissible commands *)

(** Room for one more order on the instrument's book. *)
Definition room (st : Spec) (i : InstrumentId) : Prop :=
  Z.of_nat (length (sp_side st i Buy) + length (sp_side st i Sell)) < kNil.
Definition command_ok (st : Spec) (c : ExchangeCommand) : Prop :=
  match c with
  | CmdNewOrder c =>
      0 <= noc_instrument_id c /\ noc_price c < two63 - kMaxBandTicks /\ 0 <= noc_quantity c < two64 /\
      room st (noc_instrument_id c) /\
      (noc_time_in_force c = FOK ->
       liquidity (noc_side c) (noc_price c) (sp_side st (noc_instrument_id c) (contra_side (noc_side c))) < two64)
  | CmdCancelOrder c => 0 <= coc_instrument_id c
  | CmdReplaceOrder c =>
      0 <= roc_instrument_id c /\ roc_new_price c < two63 - kMaxBandTicks /\ 0 <= roc_new_quantity c < two64 /\
      room st (roc_instrument_id c) /\
      (roc_new_client_order_id c = roc_original_client_order_id c \/
       key_live st (roc_account_id c, roc_new_client_order_id c) = false)
  end.

Lemma room_book e st i b : engine_wf e -> refines e st -> 0 <= i -> book_for e i = Some b ->
  room st i -> count_sides (bk_view b) < kNil.
Proof.
  intros W R Hi Hb. unfold room, count_sides. rewrite !(refines_view e st i b _ W R Hi Hb).
  unfold abs_side. by rewrite !length_fmap.
Qed.

(** The statement proved of each command. *)
Definition simulates (e : MatchingEngine B) (r : option (MatchingEngine B * list ExchangeEvent))
    (sp : Spec * list ExchangeEvent) : Prop :=
  exists e', r = Some (e', sp.2) /\ engine_wf e' /\ refines e' sp.1.

Lemma reject_simulates e st (ev : EventSequence -> ExchangeEvent) : engine_wf e -> refines e st ->
  simulates e (let (e, ev) := emit e ev in Some (e, [ev])) (spec_reject st ev).
Proof.
  intros W R. cbn. eexists. rewrite <- (rf_seq _ _ R). split; [done|].
  split; [by apply bump_seq_wf|by apply bump_seq_refines].
Qed.

Lemma process_new_order_refines e st cmd : engine_wf e -> refines e st -> command_ok st (CmdNewOrder cmd) ->
  simulates e (process_new_order e cmd) (spec_new_order st cmd).
Proof.
  intros W R (Hi & Hp & Hq & Hroom & Hfok). unfold process_new_order, spec_new_order, reject_new_order.
  rewrite (known_spec e st R) by done.
  destruct (knows_instrument e (noc_instrument_id cmd)) eqn:Hk; cbn [negb]; [|by apply reject_simulates].
  destruct (noc_price cmd <=? 0) eqn:Hp0; [by apply reject_simulates|].
  destruct (noc_quantity cmd =? 0) eqn:Hq0; [by apply reject_simulates|].
  rewrite <- (key_live_dir e st W R). destruct (key_live st _) eqn:Hlive; [by apply reject_simulates|].
  rewrite (key_live_dir e st W R) in Hlive. apply bool_decide_eq_false, eq_None_not_Some in Hlive.
  destruct (known_book e (ew_registry _ W) _ Hi Hk) as [b Hb]. pose proof (ew_book _ W _ b Hi Hb) as Wb.
  assert (Hkill : (if bool_decide (noc_time_in_force cmd = FOK)
      then let* available := engine_crossable_quantity e (noc_instrument_id cmd) (noc_side cmd)
                               (noc_price cmd) (noc_quantity cmd) in Some (available <? noc_quantity cmd)
      else Some false) = Some (bool_decide (noc_time_in_force cmd = FOK) &&
        (liquidity (noc_side cmd) (noc_price cmd)
           (sp_side st (noc_instrument_id cmd) (contra_side (noc_side cmd))) <? noc_quantity cmd))).
  { destruct (bool_decide _) eqn:Ht; [|done]. apply bool_decide_eq_true in Ht. specialize (Hfok Ht).
    unfold engine_crossable_quantity. rewrite Hb, (law_crossable b _ _ _ Wb). cbn [andb]. f_equal.
    rewrite (refines_view e st _ b _ W R Hi Hb) in Hfok |- *.
    apply (crossable_liquidity _ _ _ _ _ _ 0); [by apply law_sorted| |lia|done].
    intros x Hx. apply (ew_order _ W (noc_instrument_id cmd) (contra_side (noc_side cmd))); [done|].
    by rewrite (iview_book e _ b). }
  rewrite Hkill. destruct (_ && _); [by apply reject_simulates|]. clear Hkill.
  cbn [emit]. set (x := {| ero_exchange_order_id := _ |}). set (y := {| ero_exchange_order_id := sp_next_exchange_order_id st |}).
  assert (Hxy : x = y).
  { unfold x, y. cbn. by rewrite (rf_xid _ _ R), (rf_prio _ _ R). }
  pose proof (match_then_rest_refines _ _ y b (noc_command_sequence cmd)
    (bump_seq_wf _ (counters_wf _ _ _ _ (counters_wf _ _ _ _ W)))
    (bump_seq_refines _ _ (bump_prio_refines _ _ (bump_xid_refines _ _ R))) Hi Hb) as Hm.
  specialize (Hm ltac:(unfold price_ok; cbn; lia) ltac:(cbn; lia) Hlive (room_book e st _ b W R Hi Hb Hroom)).
  rewrite Hxy. destruct (spec_match_then_rest _ y _) as [st' evs]. destruct Hm as (e' & Hm & W' & R').
  unfold bump_exchange_order_id, bump_priority, bump_event_sequence in Hm |- *.
  cbn [me_with_counters me_next_event_sequence me_next_exchange_order_id me_next_priority] in Hm |- *.
  rewrite Hm. eexists. split; [|done]. cbn. by rewrite (rf_seq _ _ R), (rf_xid _ _ R).
Qed.
End Process.
