(* ===== verification/EngineRefinement.v ===== *)
(** * The refinement theorem

    Cancel and replace complete the simulation of EngineProcess.v; the
    theorems at the end are about whole commands and whole runs. *)
From S2P Require Import Prelude Types TickLadder SideIndex PriceQueues MatchingBook BookReads BookSpec MatchingEngine EngineSpec Directory EngineWf EngineRefine EngineMatch EngineProcess.

Section Refinement.
Context {B : Type} `{BookLaws B}.
Implicit Types (i : InstrumentId).

(** A looked-up order, as the book holds it. *)
Lemma looked_up (e : MatchingEngine B) st i k ref : engine_wf e -> refines e st -> 0 <= i -> knows_instrument e i = true ->
  me_orders e !! k = Some ref -> ref_instrument_id ref = i ->
  exists s o b, (ref_handle ref, o) ∈ bk_view b s /\ bo_key o = k /\ bo_side o = s /\ book_for e i = Some b /\
    bk_wf b /\ find_order st i k = Some (ero_of (me_orders e) i o).
Proof.
  intros W R Hi Hk Hr Hri. destruct (known_book e (ew_registry _ W) i Hi Hk) as [b Hb].
  destruct (find_order_some e st W R i k ref Hi Hr Hri) as (s & o & Hin & Hkey & Hf).
  rewrite (iview_book e i b s Hb) in Hin. pose proof (ew_book _ W i b Hi Hb) as Wb.
  exists s, o, b. destruct (law_entry b s _ Wb Hin) as [Hs _]. done.
Qed.
Lemma order_missing (e : MatchingEngine B) st i k : engine_wf e -> refines e st -> 0 <= i ->
  (forall ref, me_orders e !! k = Some ref -> ref_instrument_id ref <> i) -> find_order st i k = None.
Proof. intros W R. by apply find_order_none. Qed.

(** [spec_drop] of a live order is dropping its handle. *)
Lemma spec_drop_abs (e : MatchingEngine B) st i b s h o : engine_wf e -> refines e st -> 0 <= i -> book_for e i = Some b ->
  (h, o) ∈ bk_view b s -> bo_side o = s ->
  spec_drop st (ero_of (me_orders e) i o) i =
    sp_set_side st i s (abs_side (me_orders e) i (remove_handle h (bk_view b s))).
Proof.
  intros W R Hi Hb Hin Hs. unfold spec_drop. change (ero_side (ero_of (me_orders e) i o)) with (bo_side o).
  rewrite Hs, (refines_view e st i b s W R Hi Hb), ero_key_of.
  f_equal. symmetry. by apply (abs_remove e W i Hi b b Hb (ew_book _ W i b Hi Hb)).
Qed.

Lemma process_cancel_refines e st cmd : engine_wf e -> refines e st -> command_ok st (CmdCancelOrder cmd) ->
  simulates e (process_cancel e cmd) (spec_cancel st cmd).
Proof.
  intros W R Hi. cbn in Hi. unfold process_cancel, spec_cancel, reject_cancel.
  rewrite (known_spec e st R) by done.
  destruct (knows_instrument e (coc_instrument_id cmd)) eqn:Hk; cbn [negb]; [|by apply reject_simulates].
  set (i := coc_instrument_id cmd) in *. set (k := (coc_account_id cmd, coc_client_order_id cmd)).
  destruct (me_orders e !! k) as [ref|] eqn:Hr.
  2: { rewrite (order_missing e st i k W R Hi) by congruence. by apply reject_simulates. }
  destruct (ref_instrument_id ref =? i) eqn:Hri; cbn [negb].
  2: { rewrite (order_missing e st i k W R Hi) by (intros r Hr'; assert (r = ref) as -> by congruence; lia).
       by apply reject_simulates. }
  apply Z.eqb_eq in Hri.
  destruct (looked_up e st i k ref W R Hi Hk Hr Hri) as (s & o & b & Hin & Hkey & Hs & Hb & Wb & Hf).
  rewrite Hf. destruct (law_remove_at b s _ o Wb Hin) as (b1 & Hrem & Wb1 & Hup).
  destruct (engine_drop e W i Hi b b1 Hb Wb1 s _ o Hin Hup) as (e1 & Hst & [bs ->] & W2 & Hb2 & _ & R2).
  specialize (R2 st R). rewrite <- (spec_drop_abs e st i b s _ o W R Hi Hb Hin Hs) in R2.
  change (book_for (me_with_orders e _ _) i) with (book_for e i). rewrite Hb, Hrem.
  assert (Hst' : store_book (me_with_orders e (delete k (me_orders e)) (u64 (me_resting_orders e - 1))) i b1 =
    Some (me_with_orders (me_with_books e bs) (delete k (me_orders e)) (u64 (me_resting_orders e - 1)))).
  { revert Hst. unfold store_book. change (slot_for (me_with_orders e _ _) i) with (slot_for e i).
    destruct (slot_for e i); [|done]. intros [= <-]. done. }
  rewrite Hst'. rewrite Hkey in W2, R2. cbn [emit]. eexists.
  split; [cbn; by rewrite (rf_seq _ _ R)|]. split; [by do 2 apply bump_seq_wf|by do 2 apply bump_seq_refines].
Qed.

(** ** Replace *)
Definition amend (c : ClientOrderId) (q : Quantity) (o : BookOrder) : BookOrder :=
  bo_set_client_order_id (bo_set_remaining o q) c.

Lemma update_handle_twice h f g l : update_handle h g (update_handle h f l) = update_handle h (fun o => g (f o)) l.
Proof.
  unfold update_handle. rewrite <- list_fmap_compose. apply list_fmap_ext. intros n [h' o'] _. cbn.
  destruct (decide (h' = h)) as [->|Hd]; cbn; [by rewrite decide_True|by rewrite decide_False].
Qed.

(** Editing by handle is amending by key. *)
Lemma abs_amend (e : MatchingEngine B) i b s h o c q ref : engine_wf e -> 0 <= i -> book_for e i = Some b ->
  (h, o) ∈ bk_view b s -> me_orders e !! bo_key o = Some ref ->
  (bo_key (amend c q o) = bo_key o \/ me_orders e !! bo_key (amend c q o) = None) ->
  abs_side (<[bo_key (amend c q o) := ref]> (delete (bo_key o) (me_orders e))) i
      (update_handle h (amend c q) (bk_view b s)) =
    amend_key (bo_key o) c q (abs_side (me_orders e) i (bk_view b s)).
Proof.
  intros W Hi Hb Hin Href Hfresh. pose proof Hin as Hin'. rewrite <- (iview_book e i b s Hb) in Hin'.
  unfold abs_side, update_handle, amend_key. rewrite <- !list_fmap_compose. apply list_fmap_ext.
  intros n [h' o'] Hx%list_elem_of_lookup_2. unfold Basics.compose. cbn [fst snd].
  rewrite <- (iview_book e i b s Hb) in Hx. change (ero_key (ero_of (me_orders e) i o')) with (bo_key o').
  destruct (decide (h' = h)) as [->|Hne]; cbn [snd].
  - destruct (entry_unique _ _ (ew_dir _ W) i s s h o o' Hi Hin' Hx) as [_ <-]. rewrite decide_True by done.
    unfold ero_of, ero_amend. cbn. by rewrite lookup_insert_eq, Href.
  - rewrite decide_False.
    2: { intros Hk. by destruct (key_unique _ _ (ew_dir _ W) i s h' o' i s h o) as (_ & ? & _). }
    assert (Hk1 : bo_key o' <> bo_key o).
    { intros Hk. by destruct (key_unique _ _ (ew_dir _ W) i s h' o' i s h o) as (_ & ? & _). }
    assert (Hk2 : bo_key o' <> bo_key (amend c q o)).
    { destruct Hfresh as [->|Hf]; [done|]. by apply (lookup_dead _ _ (ew_dir _ W) _ i s h' o'). }
    unfold ero_of. by rewrite lookup_insert_ne, lookup_delete_ne by done.
Qed.

Section Replace.
Context (e : MatchingEngine B) (st : Spec) (W : engine_wf e) (R : refines e st) (cmd : ReplaceOrderCommand).
Let i := roc_instrument_id cmd.
Let k := (roc_account_id cmd, roc_original_client_order_id cmd).
Let k' := (roc_account_id cmd, roc_new_client_order_id cmd).
Context (Hi : 0 <= i) (ref : OrderRef) (s : Side) (o : BookOrder) (b : B)
  (Hr : me_orders e !! k = Some ref) (Hb : book_for e i = Some b) (Wb : bk_wf b)
  (Hin : (ref_handle ref, o) ∈ bk_view b s) (Hs : bo_side o = s) (Hkey : bo_key o = k)
  (Hq : 0 < roc_new_quantity cmd < two64) (Hfresh : k' = k \/ me_orders e !! k' = None).

Lemma replace_in_place_refines : simulates e (replace_in_place e cmd ref o b)
  (sp_bump_seq (sp_bump_seq (sp_set_side st i s
     (amend_key k (roc_new_client_order_id cmd) (roc_new_quantity cmd) (sp_side st i s)))),
   [replaced cmd (bo_exchange_order_id o) (sp_next_event_sequence st);
    book_reduced i o (roc_new_quantity cmd) (u64 (sp_next_event_sequence st + 1))]).
Proof.
  unfold replace_in_place. set (q := roc_new_quantity cmd) in *. set (c := roc_new_client_order_id cmd) in *.
  destruct (law_reduce_at b s _ o q Wb Hin) as (b1 & Hred & Wb1 & [Hu1 Hu2]).
  assert (Hin1 : (ref_handle ref, bo_set_remaining o q) ∈ bk_view b1 s).
  { rewrite Hu1. apply list_elem_of_fmap. exists (ref_handle ref, o). split; [|done]. cbn. by rewrite decide_True. }
  destruct (law_set_client_order_id_at b1 s _ _ c Wb1 Hin1) as (b2 & Hset & Wb2 & [Hv1 Hv2]).
  rewrite Hu1, update_handle_twice in Hv1. rewrite Hu2 in Hv2.
  change (fun o0 => bo_set_client_order_id (bo_set_remaining o0 q) c) with (amend c q) in Hv1.
  assert (Hk' : bo_key (amend c q o) = k').
  { unfold k', amend, bo_key. cbn. unfold bo_key, k in Hkey. by injection Hkey as -> _. }
  assert (Ho : order_ok (amend c q o)).
  { split; [cbn; lia|]. apply (ew_order _ W i s (ref_handle ref, o)); [done|]. by rewrite (iview_book e i b). }
  destruct (engine_edit e W i Hi b b2 Hb Wb2 s _ o Hin (amend c q) (conj Hv1 Hv2) ref) as
    (e1 & Hst & [bs ->] & W2 & Hb2 & _ & R2); [by rewrite Hkey|done|done|by rewrite Hk', Hkey|].
  specialize (R2 st R).
  rewrite (abs_amend e i b s _ o c q ref), <- (refines_view e st i b s W R Hi Hb) in R2;
    [|done|done|done|done|by rewrite Hkey|by rewrite Hk', Hkey].
  rewrite Hk', Hkey in W2, R2. fold k in W2, R2.
  fold i. rewrite Hred, Hset, Hst. cbn [emit]. eexists.
  split; [cbn; by rewrite (rf_seq _ _ R)|]. split; [by do 2 apply bump_seq_wf|by do 2 apply bump_seq_refines].
Qed.

Context (Hp : price_ok (roc_new_price cmd)) (Hroom : room st i).

Lemma replace_cancel_new_refines : simulates e (replace_cancel_new e cmd ref o b)
  (let r := ero_of (me_orders e) i o in
   let xid := sp_next_exchange_order_id st in
   let seq := sp_next_event_sequence st in
   let st := sp_bump_seq (sp_bump_seq (sp_bump_xid (spec_drop st r i))) in
   let x :=
     {| ero_exchange_order_id := xid; ero_client_order_id := roc_new_client_order_id cmd;
        ero_account_id := roc_account_id cmd; ero_price := roc_new_price cmd;
        ero_original_quantity := roc_new_quantity cmd; ero_remaining_quantity := roc_new_quantity cmd;
        ero_order_sequence := sp_next_priority st; ero_instrument_id := i;
        ero_side := ero_side r; ero_time_in_force := ero_time_in_force r |} in
   let (st, evs) := spec_match_then_rest (sp_bump_prio st) x (roc_command_sequence cmd) in
   (st, replaced cmd xid seq :: book_removed i o (u64 (seq + 1)) :: evs)).
Proof.
  unfold replace_cancel_new. destruct (law_remove_at b s _ o Wb Hin) as (b1 & Hrem & Wb1 & Hup).
  destruct (engine_drop e W i Hi b b1 Hb Wb1 s _ o Hin Hup) as (e1 & Hst & [bs ->] & W2 & Hb2 & _ & R2).
  specialize (R2 st R). rewrite <- (spec_drop_abs e st i b s _ o W R Hi Hb Hin Hs) in R2.
  fold i. rewrite Hrem, Hst. rewrite Hkey in W2, R2, Hb2. fold k. cbn zeta.
  set (e2 := me_with_orders _ _ _) in *. cbn [emit].
  set (st2 := spec_drop st _ i) in *. set (x := {| ero_exchange_order_id := _ |}). set (y := {| ero_exchange_order_id := _ |}).
  assert (Hxy : x = y).
  { unfold x, y. cbn. by rewrite (rf_xid _ _ R), (rf_prio _ _ R). }
  rewrite Hxy. clear Hxy x.
  assert (Hlen : count_sides (bk_view b1) < kNil).
  { pose proof (room_book e st i b W R Hi Hb Hroom) as Hc. revert Hc. unfold count_sides.
    destruct Hup as [Hu1 Hu2]. assert (length (bk_view b1 s) <= length (bk_view b s))%nat.
    { rewrite Hu1. apply length_filter. }
    destruct s; cbn in *; rewrite Hu2; lia. }
  assert (Hkey' : me_orders e2 !! ero_key y = None).
  { change (ero_key y) with k'. unfold e2. cbn. rewrite lookup_delete_None. destruct Hfresh as [->|]; auto. }
  pose proof (match_then_rest_refines _ _ y b1 (roc_command_sequence cmd)
    (counters_wf _ _ _ _ (bump_seq_wf _ (bump_seq_wf _ (counters_wf _ _ _ _ W2))))
    (bump_prio_refines _ _ (bump_seq_refines _ _ (bump_seq_refines _ _ (bump_xid_refines _ _ R2))))
    Hi Hb2 Hp ltac:(cbn; lia) Hkey' Hlen) as Hm.
  destruct (spec_match_then_rest _ y _) as [st' evs]. destruct Hm as (e' & Hm & W' & R').
  unfold bump_exchange_order_id, bump_priority, bump_event_sequence in Hm |- *.
  rewrite Hm. exists e'. split; [|done]. cbn.
  by rewrite (rf_seq _ _ R), (rf_xid _ _ R).
Qed.
End Replace.

Lemma process_replace_refines e st cmd : engine_wf e -> refines e st -> command_ok st (CmdReplaceOrder cmd) ->
  simulates e (process_replace e cmd) (spec_replace st cmd).
Proof.
  intros W R (Hi & Hp & Hq & Hroom & Hfresh). unfold process_replace, spec_replace, reject_replace_order.
  rewrite (known_spec e st R) by done.
  destruct (knows_instrument e (roc_instrument_id cmd)) eqn:Hk; cbn [negb]; [|by apply reject_simulates].
  destruct (_ || _) eqn:Hbad; [by apply reject_simulates|]. apply orb_false_iff in Hbad as [Hb1 Hb2].
  set (i := roc_instrument_id cmd) in *. set (k := (roc_account_id cmd, roc_original_client_order_id cmd)) in *.
  destruct (me_orders e !! k) as [ref|] eqn:Hr.
  2: { rewrite (order_missing e st i k W R Hi) by congruence. by apply reject_simulates. }
  destruct (ref_instrument_id ref =? i) eqn:Hri; cbn [negb].
  2: { rewrite (order_missing e st i k W R Hi) by (intros r Hr'; assert (r = ref) as -> by congruence; lia).
       by apply reject_simulates. }
  apply Z.eqb_eq in Hri.
  destruct (looked_up e st i k ref W R Hi Hk Hr Hri) as (s & o & b & Hin & Hkey & Hs & Hb & Wb & Hf).
  rewrite Hb, Hf, (law_at b s _ o Wb Hin).
  assert (Hfr : (roc_account_id cmd, roc_new_client_order_id cmd) = k \/
                me_orders e !! (roc_account_id cmd, roc_new_client_order_id cmd) = None).
  { destruct Hfresh as [Hf'|Hf']; [left; unfold k; by rewrite Hf'|right].
    rewrite (key_live_dir e st W R) in Hf'. by apply bool_decide_eq_false, eq_None_not_Some in Hf'. }
  change (ero_price (ero_of (me_orders e) i o)) with (bo_price o).
  change (ero_remaining_quantity (ero_of (me_orders e) i o)) with (bo_remaining_quantity o).
  rewrite book_order_of_ero. destruct (_ && _).
  - change (ero_side (ero_of (me_orders e) i o)) with (bo_side o). rewrite Hs.
    apply replace_in_place_refines; try done. lia.
  - pose proof (replace_cancel_new_refines e st W R cmd Hi ref s o b Hb Wb Hin Hs Hkey ltac:(lia) Hfr
      ltac:(unfold price_ok; lia) Hroom) as Hc.
    exact Hc.
Qed.

Lemma process_simulates e st c : engine_wf e -> refines e st -> command_ok st c ->
  simulates e (process e c) (spec_process st c).
Proof.
  intros W R Hc. destruct c; cbn.
  - by apply process_new_order_refines.
  - by apply process_cancel_refines.
  - by apply process_replace_refines.
Qed.

(** ** Runs *)
Fixpoint run_ok (st : Spec) (cmds : list ExchangeCommand) : Prop :=
  match cmds with
  | [] => True
  | c :: cmds => command_ok st c /\ run_ok (spec_process st c).1 cmds
  end.

Lemma run_simulates cmds : forall e st, engine_wf e -> refines e st -> run_ok st cmds ->
  simulates e (run e cmds) (spec_run st cmds).
Proof.
  induction cmds as [|c cmds IH]; intros e st W R Hok; [by exists e|].
  destruct Hok as [Hc Hok]. destruct (process_simulates e st c W R Hc) as (e1 & H1 & W1 & R1).
  destruct (IH e1 _ W1 R1 Hok) as (e2 & H2 & W2 & R2). cbn. rewrite H1, H2.
  destruct (spec_process st c) as [st1 evs1]. cbn in *. destruct (spec_run st1 cmds) as [st2 evs2].
  by exists e2.
Qed.
End Refinement.

(** ** Construction and registration

    [MatchingEngine_new] is a well-formed engine with the universe's valid
    instruments and nothing resting; [register_instrument] adds one empty
    book and disturbs nothing, or refuses. *)

(** ** The specification's side *)
Definition sp_register (st : Spec) (id : InstrumentId) : bool * Spec :=
  if (kMaxInstrumentId <? id) || bool_decide (is_Some (sp_books st !! id)) then (false, st)
  else (true, {| sp_books := <[id := {| sb_bids := []; sb_asks := [] |}]> (sp_books st);
                 sp_next_exchange_order_id := sp_next_exchange_order_id st;
                 sp_next_event_sequence := sp_next_event_sequence st; sp_next_priority := sp_next_priority st |}).
Definition sp_new (universe : list InstrumentId) : Spec :=
  foldl (fun st id => (sp_register st id).2)
    {| sp_books := ∅; sp_next_exchange_order_id := 1; sp_next_event_sequence := 1; sp_next_priority := 1 |} universe.

(** ** Generic facts *)
Lemma band_for_range n budget : 0 <= band_for n budget <= kMaxBandTicks.
Proof.
  unfold band_for, kMaxBandTicks, kMinBandTicks. destruct (n =? 0); [lia|].
  destruct (_ <? _) eqn:E; [lia|]. set (t := Z.min _ _). assert (Ht : 1024 <= t <= 8192) by lia.
  unfold bit_floor. rewrite (proj2 (Z.eqb_neq t 0)) by lia.
  pose proof (Z.log2_spec t ltac:(lia)) as [H1 H2]. rewrite u32_small; lia.
Qed.

Lemma insert_by_id_Permutation id n l : insert_by_id id n l ≡ₚ (id, n) :: l.
Proof.
  induction l as [|x l IH]; [done|]. cbn. destruct (x.1 <? id); [|done]. rewrite IH. apply Permutation_swap.
Qed.
Lemma insert_by_id_sorted id n l : StronglySorted Z.lt l.*1 -> id ∉ l.*1 ->
  StronglySorted Z.lt (insert_by_id id n l).*1.
Proof.
  induction l as [|x l IH]; cbn; [by repeat constructor|]. inversion 1 as [|? ? Hs Hall]; subst.
  intros Hn. apply not_elem_of_cons in Hn as [Hne Hn]. destruct (x.1 <? id) eqn:E; cbn; constructor.
  - by apply IH.
  - rewrite insert_by_id_Permutation, fmap_cons. constructor; [cbn; lia|done].
  - by constructor.
  - constructor; [cbn; lia|]. eapply Forall_impl; [exact Hall|]. cbn. lia.
Qed.

Section Registry.
Context {B : Type} `{BookLaws B}.

Section Register.
Context (e : MatchingEngine B) (W : engine_wf e) (id : InstrumentId) (Hid : 0 <= id <= kMaxInstrumentId)
  (Hnew : knows_instrument e id = false).
Let e' := (register_instrument e id).2.
Let n := Z.of_nat (length (me_books e)).
Let G := ew_registry _ W.

Lemma registered_eq : exists table band,
  register_instrument e id = (true, e') /\ 0 <= band <= kMaxBandTicks /\
  me_slot_of_id e' = <[Z.to_nat id := n]> table /\ me_band_ticks e' = band /\
  me_books e' = me_books e ++ [bk_new (me_expected_orders_per_book e) band] /\
  me_by_id e' = insert_by_id id n (me_by_id e) /\ (Z.to_nat id < length table)%nat /\
  (forall j m, table !! j = Some m -> me_slot_of_id e !! j = Some m \/ m = kNoSlot) /\
  (forall j, me_slot_of_id e !! j = Some kNoSlot \/ me_slot_of_id e !! j = None \/ table !! j = me_slot_of_id e !! j).
Proof.
  pose proof (books_bound e G) as Hbb. unfold e', register_instrument.
  rewrite Hnew, (proj2 (Z.ltb_ge _ _)) by lia. cbn [orb snd].
  assert (Hn : u32 (Z.of_nat (length (me_books e))) = n) by (apply u32_small; subst n; lia).
  rewrite Hn. set (table := if _ <=? id then _ else _). set (band := Z.min _ _).
  exists table, band. split; [done|].
  split; [subst band; pose proof (rg_band _ G); pose proof (band_for_range (Z.of_nat (length (me_books e)) + 1) kLadderByteBudget); lia|].
  do 4 (split; [done|]). subst table. destruct (_ <=? id) eqn:Hl.
  - split; [rewrite length_app, length_replicate; lia|]. split.
    + intros j m. rewrite lookup_app. destruct (me_slot_of_id e !! j); [by left|].
      intros [-> _]%lookup_replicate. by right.
    + intros j. rewrite lookup_app. destruct (me_slot_of_id e !! j); auto.
  - split; [lia|]. split; auto.
Qed.

Lemma id_fresh : id ∉ (me_by_id e).*1.
Proof.
  intros ([i m] & Hi & Hin)%list_elem_of_fmap. cbn in Hi. subst i.
  apply (rg_by_id _ G) in Hin as (_ & Hs & Hr). revert Hnew. unfold knows_instrument. rewrite Hs.
  pose proof (books_bound e G). unfold kNoSlot. lia.
Qed.

Lemma register_registry : registry_wf e'.
Proof.
  destruct registered_eq as (table & band & _ & Hband & Hs & Hb & Hbk & Hby & Hlt & Htab & Htab2).
  constructor; rewrite ?Hs, ?Hb, ?Hbk, ?Hby; [| | | | |done].
  - intros i m Hi Hm. rewrite insert_by_id_Permutation.
    destruct (decide (i = id)) as [->|Hne].
    + rewrite list_lookup_insert_eq in Hm by done. injection Hm as <-. right. set_solver.
    + rewrite list_lookup_insert_ne in Hm by lia. destruct (Htab _ _ Hm) as [Hm'|]; [|auto].
      destruct (rg_slot _ G i m Hi Hm'); [auto|]. right. set_solver.
  - intros i m. rewrite insert_by_id_Permutation, length_app. cbn [length]. intros [He|Hin]%elem_of_cons.
    + injection He as -> ->. split; [done|]. split; [by apply list_lookup_insert_eq|]. subst n. lia.
    + pose proof (rg_by_id _ G i m Hin) as (Hi & Hm & Hr). split; [done|]. split; [|lia].
      assert (i <> id) by (intros ->; apply id_fresh, list_elem_of_fmap; by exists (id, m)).
      rewrite list_lookup_insert_ne by lia.
      destruct (Htab2 (Z.to_nat i)) as [Hk|[Hk|Hk]]; [|congruence|by rewrite Hk].
      pose proof (books_bound e G). unfold kNoSlot in Hk. rewrite Hm in Hk. injection Hk as ->. lia.
  - apply insert_by_id_sorted; [apply (rg_sorted _ G)|apply id_fresh].
  - rewrite insert_by_id_Permutation, fmap_cons. constructor; [|apply (rg_slots _ G)].
    intros ([i m] & Hi & Hin)%list_elem_of_fmap. cbn in Hi. apply (rg_by_id _ G) in Hin as (_ & _ & Hr). subst n. lia.
  - rewrite (Permutation_length (insert_by_id_Permutation _ _ _)), length_app. cbn. rewrite (rg_len _ G). lia.
Qed.

Lemma register_book_new : exists band, 0 <= band <= kMaxBandTicks /\
  book_for e' id = Some (bk_new (me_expected_orders_per_book e) band).
Proof.
  destruct registered_eq as (table & band & _ & Hband & Hs & Hb & Hbk & Hby & Hlt & _).
  exists band. split; [done|]. unfold book_for, slot_for. rewrite Hs, Hbk, list_lookup_insert_eq by done. cbn.
  rewrite lookup_app_r by (subst n; lia). subst n. rewrite Nat2Z.id, Nat.sub_diag. done.
Qed.
Lemma register_known i : 0 <= i -> knows_instrument e' i = bool_decide (i = id) || knows_instrument e i.
Proof.
  intros Hi. destruct registered_eq as (table & band & _ & Hband & Hs & Hb & Hbk & Hby & Hlt & Htab & Htab2).
  unfold knows_instrument. rewrite Hs. case_bool_decide as Hd; cbn [orb].
  - subst. rewrite list_lookup_insert_eq by done. pose proof (books_bound e G). unfold kNoSlot. subst n. lia.
  - rewrite list_lookup_insert_ne by lia. destruct (Htab2 (Z.to_nat i)) as [Hk|[Hk|Hk]].
    + rewrite Hk. destruct (table !! Z.to_nat i) eqn:E; [|done]. apply Htab in E as [E| ->]; [|done].
      rewrite Hk in E. by injection E as <-.
    + rewrite Hk. destruct (table !! Z.to_nat i) eqn:E; [|done]. apply Htab in E as [E| ->]; [congruence|done].
    + by rewrite Hk.
Qed.
Lemma register_book_old i : 0 <= i -> i <> id -> book_for e' i = book_for e i.
Proof.
  intros Hi Hne. pose proof (register_known i Hi) as Hk. rewrite bool_decide_eq_false_2 in Hk by done. cbn in Hk.
  destruct registered_eq as (table & band & _ & Hband & Hs & Hb & Hbk & Hby & Hlt & Htab & Htab2).
  destruct (knows_instrument e i) eqn:Hki.
  - destruct (known_book e G i Hi Hki) as [b Hb'].
    destruct (book_for_Some e G i b Hi Hb') as (m & Hm & Hin & Hbm & _).
    rewrite Hb'. unfold book_for, slot_for. rewrite Hs, list_lookup_insert_ne by lia.
    assert (Ht : table !! Z.to_nat i = Some m).
    { destruct (Htab2 (Z.to_nat i)) as [Hk2|[Hk2|Hk2]]; [|congruence|by rewrite Hk2].
      revert Hki. unfold knows_instrument. by rewrite Hk2. }
    rewrite Ht. cbn. rewrite Hbk. apply lookup_app_l_Some. exact Hbm.
  - destruct (book_for e i) eqn:E1; [apply (book_for_Some e G i) in E1 as (_ & _ & _ & _ & ?); [congruence|done]|].
    destruct (book_for e' i) eqn:E2; [|done].
    apply (book_for_Some e' register_registry i) in E2 as (_ & _ & _ & _ & ?); [congruence|done].
Qed.

Lemma register_view i s : 0 <= i -> iview e' i s = iview e i s.
Proof.
  intros Hi. destruct (decide (i = id)) as [->|Hne].
  - rewrite (unknown_view e G id s) by done. destruct register_book_new as (band & Hband & Hb).
    unfold iview. rewrite Hb. by apply law_new.
  - unfold iview. by rewrite register_book_old.
Qed.

Lemma register_wf : engine_wf e'.
Proof.
  assert (Ho : me_orders e' = me_orders e /\ me_resting_orders e' = me_resting_orders e).
  { unfold e', register_instrument. by destruct (_ || _). }
  destruct Ho as [Ho Hr]. constructor; rewrite ?Ho, ?Hr.
  - apply register_registry.
  - intros i b Hi Hb. destruct (decide (i = id)) as [->|Hne].
    + destruct register_book_new as (band & Hband & Hb'). rewrite Hb in Hb'. injection Hb' as ->. by apply law_new.
    + rewrite register_book_old in Hb by done. by apply (ew_book _ W i).
  - eapply dir_wf_ext; [|apply (ew_dir _ W)]. intros. by apply register_view.
  - apply (ew_resting _ W).
  - intros i s x Hi. rewrite register_view by done. by apply (ew_order _ W).
  - intros i s x y Hi. rewrite !register_view by done. by apply (ew_uncrossed _ W).
Qed.
End Register.

(** Registering, against the specification. *)
Lemma register_refines e st id : engine_wf e -> refines e st -> 0 <= id ->
  (register_instrument e id).1 = (sp_register st id).1 /\
  engine_wf (register_instrument e id).2 /\ refines (register_instrument e id).2 (sp_register st id).2.
Proof.
  intros W R Hi. unfold sp_register.
  assert (Hkn : bool_decide (is_Some (sp_books st !! id)) = knows_instrument e id).
  { rewrite (rf_books _ _ R) by done. destruct (knows_instrument e id); [|done]. by apply bool_decide_eq_true. }
  rewrite Hkn. destruct (_ || _) eqn:E.
  { unfold register_instrument. by rewrite E. }
  pose proof E as [Hmax Hnew]%orb_false_iff.
  assert (Hid : 0 <= id <= kMaxInstrumentId) by lia.
  split; [unfold register_instrument; by rewrite E|]. split; [by apply register_wf|].
  assert (Ho : me_orders (register_instrument e id).2 = me_orders e) by (unfold register_instrument; by rewrite E).
  assert (Hcnt : me_next_exchange_order_id (register_instrument e id).2 = me_next_exchange_order_id e /\
    me_next_event_sequence (register_instrument e id).2 = me_next_event_sequence e /\
    me_next_priority (register_instrument e id).2 = me_next_priority e).
  { unfold register_instrument. by rewrite E. }
  destruct Hcnt as (Hc1 & Hc2 & Hc3).
  constructor; rewrite ?Hc1, ?Hc2, ?Hc3; try apply R; cbn.
  - intros i Hi'. rewrite (register_known e W id Hid Hnew i Hi'). unfold abs_book.
    rewrite Ho, !(register_view e W id Hid Hnew) by done.
    destruct (decide (i = id)) as [->|Hne].
    + rewrite lookup_insert_eq, bool_decide_eq_true_2 by done. cbn. f_equal.
      by rewrite !(unknown_view e (ew_registry _ W) id) by done.
    + rewrite lookup_insert_ne, bool_decide_eq_false_2 by done. cbn. by apply (rf_books _ _ R).
  - intros i Hneg. rewrite lookup_insert_ne by lia. by apply (rf_neg _ _ R).
Qed.

(** ** Construction *)
Lemma foldl_register_refines (universe : list InstrumentId) : Forall (fun id => 0 <= id) universe ->
  forall e st, engine_wf e -> refines e st ->
  engine_wf (foldl (fun e id => (register_instrument e id).2) e universe) /\
  refines (foldl (fun e id => (register_instrument e id).2) e universe)
          (foldl (fun st id => (sp_register st id).2) st universe).
Proof.
  induction 1 as [|id l Hi Hl IH]; intros e st W R; [done|]. cbn.
  destruct (register_refines e st id W R Hi) as (_ & W' & R'). by apply IH.
Qed.

Lemma new_refines universe expected : Forall (fun id => 0 <= id) universe ->
  engine_wf (MatchingEngine_new universe expected) /\ refines (MatchingEngine_new universe expected) (sp_new universe).
Proof.
  intros Hu. unfold MatchingEngine_new, sp_new. set (e0 := {| me_slot_of_id := _ |}).
  assert (Hslot : forall i, me_slot_of_id e0 !! i = None \/ me_slot_of_id e0 !! i = Some kNoSlot).
  { intros i. cbn. destruct universe; [by left|]. destruct (_ !! i) eqn:E; [|by left].
    apply lookup_replicate in E as [-> _]. by right. }
  assert (Hb : forall i, book_for e0 i = None).
  { intros i. unfold book_for, slot_for. by destruct (Hslot (Z.to_nat i)) as [-> | ->]. }
  assert (Hv : forall i s, iview e0 i s = []) by (intros; unfold iview; by rewrite Hb).
  apply foldl_register_refines; [done| |].
  - constructor.
    + constructor.
      * intros i n _ Hn. destruct (Hslot (Z.to_nat i)) as [Hs|Hs]; [congruence|]. left. congruence.
      * intros i n Hin. by apply elem_of_nil in Hin.
      * constructor.
      * constructor.
      * done.
      * cbn -[kLadderByteBudget band_for]. destruct universe; [done|apply band_for_range].
    + intros i b _. by rewrite Hb.
    + constructor.
      * intros k r. cbn. by rewrite lookup_empty.
      * intros i s h o _. rewrite Hv. set_solver.
      * intros i _. unfold handles. rewrite !Hv. constructor.
    + cbn. by rewrite map_size_empty.
    + intros i s x _. rewrite Hv. set_solver.
    + intros i s x y _. rewrite Hv. set_solver.
  - constructor; [|done|done|done|done]. intros i _. cbn [sp_books]. rewrite lookup_empty.
    unfold knows_instrument. by destruct (Hslot (Z.to_nat i)) as [-> | ->].
Qed.
End Registry.
