(* ===== verification/EngineFacts.v ===== *)
(** * Facts about the specification

    What a limit order book owes its users, proved on the lists of
    EngineSpec.v: fills respect priority, price limits and quantities; the
    event stream is numbered without gaps; commands touch only what they
    name. *)
From S2P Require Import Prelude Types TickLadder SideIndex PriceQueues MatchingBook BookRep BookReads BookSpec MatchingEngine EngineSpec Directory EngineWf EngineRefine EngineMatch EngineProcess EngineRefinement.

(** ** Quantities *)
Definition qty_sum (l : list ExchangeRestingOrder) : Z := foldr (fun r n => ero_remaining_quantity r + n) 0 l.
Definition traded (fills : list (ExchangeRestingOrder * Quantity)) : Z := foldr (fun f n => f.2 + n) 0 fills.
Definition full_fill (f : ExchangeRestingOrder * Quantity) : Prop := f.2 = ero_remaining_quantity f.1.

(** The shape of a matching run: the filled orders are a prefix of the contra
    side, every one but possibly the last completely filled. *)
Record fill_shape (side : Side) (price : Price) (rem : Quantity) (l : list ExchangeRestingOrder)
    (fills : list (ExchangeRestingOrder * Quantity)) (rem' : Quantity) (l' : list ExchangeRestingOrder) : Prop := {
  fs_quantity : rem = traded fills + rem';
  fs_rem : 0 <= rem';
  fs_each : Forall (fun f => 0 < f.2 <= ero_remaining_quantity f.1 /\ crosses side price (ero_price f.1) = true) fills;
  fs_prefix : exists rest, l = fills.*1 ++ rest /\
    ((Forall full_fill fills /\ l' = rest) \/
     (exists init r t, fills = init ++ [(r, t)] /\ Forall full_fill init /\ t < ero_remaining_quantity r /\
        l' = ero_set_remaining r (ero_remaining_quantity r - t) :: rest /\ rem' = 0));
}.

Lemma spec_fill_shape side price rem l : 0 <= rem -> Forall (fun r => 0 < ero_remaining_quantity r) l ->
  let '(fills, rem', l') := spec_fill side price rem l in fill_shape side price rem l fills rem' l'.
Proof.
  intros Hr Hl. revert rem Hr. induction Hl as [|r l Hq Hl IH]; intros rem Hr.
  { cbn. constructor; [cbn; lia|done|constructor|]. exists []. split; [done|]. left. split; [constructor|done]. }
  cbn [spec_fill]. destruct (_ || _) eqn:Hstop.
  { constructor; [cbn; lia|done|constructor|]. exists (r :: l). split; [done|]. left. split; [constructor|done]. }
  apply orb_false_iff in Hstop as [Hz%Z.eqb_neq Hc%negb_false_iff].
  set (t := Z.min rem (ero_remaining_quantity r)). destruct (_ - t =? 0) eqn:Hfull.
  - specialize (IH (rem - t) ltac:(lia)). destruct (spec_fill _ _ _ _) as [[fills rem'] l'].
    destruct IH as [H1 H2 H3 (rest & -> & Hcase)]. constructor.
    + unfold traded in *. cbn. lia.
    + done.
    + constructor; [|done]. cbn. split; [lia|done].
    + exists rest. split; [done|]. assert (Hf : full_fill (r, t)) by (unfold full_fill; cbn; lia).
      destruct Hcase as [[Hall ->]|(init & r' & t' & -> & Hall & Hlt & -> & ->)].
      * left. split; [by constructor|done].
      * right. exists ((r, t) :: init), r', t'. split; [done|]. split; [by constructor|done].
  - constructor.
    + cbn. lia.
    + lia.
    + constructor; [|constructor]. cbn. split; [lia|done].
    + exists l. split; [done|]. right. exists [], r, t. split; [done|]. split; [constructor|]. split; [lia|].
      split; [done|]. lia.
Qed.

Lemma traded_app f1 f2 : traded (f1 ++ f2) = traded f1 + traded f2.
Proof. unfold traded. induction f1 as [|f f1 IH]; cbn; [done|]. lia. Qed.
Lemma qty_sum_app l1 l2 : qty_sum (l1 ++ l2) = qty_sum l1 + qty_sum l2.
Proof. unfold qty_sum. induction l1 as [|f l1 IH]; cbn; [done|]. lia. Qed.
Lemma traded_full fills : Forall full_fill fills -> traded fills = qty_sum fills.*1.
Proof. induction 1 as [|[r t] fills Hf Hall IH]; [done|]. unfold full_fill, traded, qty_sum in *. cbn in *. lia. Qed.

(** The contra side loses exactly what was traded. *)
Lemma fill_contra_quantity side price rem l fills rem' l' :
  fill_shape side price rem l fills rem' l' -> qty_sum l = traded fills + qty_sum l'.
Proof.
  intros [_ _ _ (rest & -> & [[Hall ->]|(init & r & t & -> & Hall & Hlt & -> & _)])]; rewrite qty_sum_app.
  - by rewrite traded_full.
  - rewrite fmap_app, qty_sum_app, traded_app, (traded_full init) by done. unfold traded, qty_sum. cbn. lia.
Qed.

(** The contra side once [volume] has been taken from its front. *)
Fixpoint spec_consume (volume : Z) (l : list ExchangeRestingOrder) : list ExchangeRestingOrder :=
  match l with
  | [] => []
  | r :: l' =>
      if volume <? ero_remaining_quantity r then ero_set_remaining r (ero_remaining_quantity r - volume) :: l'
      else spec_consume (volume - ero_remaining_quantity r) l'
  end.
Lemma spec_consume_full fills rest volume : Forall full_fill fills -> Forall (fun f => 0 < f.2) fills -> 0 <= volume ->
  spec_consume (traded fills + volume) (fills.*1 ++ rest) = spec_consume volume rest.
Proof.
  intros Hf Hpos Hv. revert Hpos. induction Hf as [|[r t] fills E Hf IH]; intros Hpos; [done|]. apply Forall_cons in Hpos as [Ht Hpos].
  unfold full_fill in E. cbn in E, Ht. subst t. change (traded _) with (ero_remaining_quantity r + traded fills). cbn [fmap list_fmap fst app spec_consume].
  assert (0 <= traded fills) by (clear - Hpos; unfold traded; induction Hpos; cbn; lia).
  destruct (Z.ltb_spec (ero_remaining_quantity r + traded fills + volume) (ero_remaining_quantity r)); [lia|].
  rewrite <- IH by done. f_equal. lia.
Qed.
Lemma fill_consumes side price rem l fills rem' l' : Forall (fun r => 0 < ero_remaining_quantity r) l ->
  fill_shape side price rem l fills rem' l' -> l' = spec_consume (traded fills) l.
Proof.
  intros Hl [_ _ Heach (rest & -> & Hcase)]. apply Forall_app in Hl as [_ Hrest].
  assert (Hpos : Forall (fun f => 0 < f.2) fills) by (eapply Forall_impl; [exact Heach|]; cbn; intros f [[? _] _]; done).
  destruct Hcase as [[Hall ->]|(init & r & t & -> & Hall & Hlt & -> & _)].
  - rewrite <- (Z.add_0_r (traded fills)), spec_consume_full by done. destruct rest as [|r rest]; [done|].
    apply Forall_cons in Hrest as [Hr _]. cbn. destruct (Z.ltb_spec 0 (ero_remaining_quantity r)); [|lia].
    rewrite Z.sub_0_r. by destruct r.
  - apply Forall_app in Hpos as [Hpos Ht]. apply Forall_cons in Ht as [Ht _]. cbn in Ht.
    rewrite traded_app, fmap_app, <- app_assoc, spec_consume_full by (done || (unfold traded; cbn; lia)). cbn.
    rewrite Z.add_0_r. destruct (Z.ltb_spec t (ero_remaining_quantity r)); [done|lia].
Qed.
(** Every fill but the last takes all of its order. *)
Lemma fill_each side price rem l fills rem' l' k f : fill_shape side price rem l fills rem' l' -> fills !! k = Some f ->
  f.2 <= ero_remaining_quantity f.1 /\ (S k < length fills -> f.2 = ero_remaining_quantity f.1)%nat.
Proof.
  intros [_ _ Heach (rest & _ & Hcase)] Hk. split.
  - rewrite Forall_lookup in Heach. by destruct (Heach k f Hk) as [[_ ?] _].
  - intros Hlt. destruct Hcase as [[Hall _]|(init & r & t & -> & Hall & _)]; rewrite Forall_lookup in Hall; [by apply (Hall k)|].
    rewrite length_app in Hlt. cbn in Hlt. rewrite lookup_app_l in Hk by lia. by apply (Hall k).
Qed.

(** ** How much is filled *)
Definition ero_sorted (s : Side) (l : list ExchangeRestingOrder) : Prop :=
  StronglySorted (fun x y => better_eq s (ero_price x) (ero_price y) = true) l.

Lemma liquidity_nonneg side price l : Forall (fun r => 0 < ero_remaining_quantity r) l -> 0 <= liquidity side price l.
Proof. induction 1 as [|r l Hr Hl IH]; cbn; [lia|]. destruct (crosses _ _ _); lia. Qed.
Lemma liquidity_beyond side price r l : ero_sorted (contra_side side) (r :: l) ->
  crosses side price (ero_price r) = false -> liquidity side price (r :: l) = 0.
Proof.
  intros Hs Hc. inversion Hs as [|? ? Hs' Hall]; subst. cbn. rewrite Hc. clear Hs Hs'.
  induction Hall as [|y l Hy Hall IH]; [done|]. cbn.
  replace (crosses side price (ero_price y)) with false; [exact IH|]. destruct side; cbn in *; lia.
Qed.

(** An order trades exactly min(its quantity, the liquidity at its price). *)
Lemma spec_fill_amount side price rem l : 0 <= rem -> Forall (fun r => 0 < ero_remaining_quantity r) l ->
  ero_sorted (contra_side side) l ->
  (spec_fill side price rem l).1.2 = Z.max 0 (rem - liquidity side price l).
Proof.
  intros Hr Hl Hs. revert rem Hr. induction Hl as [|r l Hq Hl IH]; intros rem Hr; [cbn; lia|].
  pose proof (liquidity_nonneg side price (r :: l) ltac:(by constructor)) as Hn.
  cbn [spec_fill]. destruct (rem =? 0) eqn:Hz; cbn [orb]; [cbn [fst snd]; lia|].
  destruct (crosses side price (ero_price r)) eqn:Hc; cbn [negb].
  2: { rewrite liquidity_beyond by done. cbn. lia. }
  cbn [liquidity]. rewrite Hc. set (t := Z.min rem (ero_remaining_quantity r)).
  pose proof (liquidity_nonneg side price l Hl) as Hn'.
  destruct (_ - t =? 0) eqn:Hf.
  - inversion Hs; subst. specialize (IH ltac:(done) (rem - t) ltac:(lia)).
    destruct (spec_fill _ _ _ _) as [[fills rem'] l']. cbn in *. lia.
  - cbn. lia.
Qed.

(** ** Event numbering *)
Definition event_sequence (ev : ExchangeEvent) : EventSequence :=
  match ev with
  | EvOrderAccepted x => oa_event_sequence x
  | EvOrderRejected x => orj_event_sequence x
  | EvOrderCancelled x => ocn_event_sequence x
  | EvOrderReplaced x => orp_event_sequence x
  | EvTradeExecuted x => te_event_sequence x
  | EvBookOrderAdded x => boa_event_sequence x
  | EvBookOrderReduced x => bor_event_sequence x
  | EvBookOrderRemoved x => bom_event_sequence x
  end.

(** [numbered a evs b]: [evs] carry consecutive numbers from [a], and [b] is
    the next one. *)
Inductive numbered : EventSequence -> list ExchangeEvent -> EventSequence -> Prop :=
| numbered_nil a : numbered a [] a
| numbered_cons a ev evs b : event_sequence ev = a -> numbered (u64 (a + 1)) evs b -> numbered a (ev :: evs) b.

Lemma numbered_app a evs1 b evs2 c : numbered a evs1 b -> numbered b evs2 c -> numbered a (evs1 ++ evs2) c.
Proof. induction 1; [done|]. intros H2. cbn. constructor; auto. Qed.
Lemma numbered_one ev a : event_sequence ev = a -> numbered a [ev] (u64 (a + 1)).
Proof. intros. constructor; [done|]. constructor. Qed.
Lemma numbered_lookup a evs b : numbered a evs b -> 0 <= a < two64 ->
  (forall k ev, evs !! k = Some ev -> event_sequence ev = u64 (a + Z.of_nat k)) /\ b = u64 (a + Z.of_nat (length evs)).
Proof.
  induction 1 as [a|a ev evs b He Hn IH]; intros Ha.
  - split; [done|]. cbn. rewrite u64_small; lia.
  - destruct (IH (u64_range _)) as [IH1 IH2]. split.
    + intros [|k] ev' Hk; cbn in Hk.
      * injection Hk as <-. rewrite He, u64_small; lia.
      * rewrite (IH1 k ev' Hk), u64_add_idemp_l. f_equal. lia.
    + rewrite IH2, u64_add_idemp_l. cbn [length]. f_equal. lia.
Qed.

Lemma fill_events_numbered x cseq rem fills seq :
  numbered seq (fill_events x cseq rem fills seq) (seq_after fills seq).
Proof.
  revert rem seq. induction fills as [|[r t] fills IH]; intros rem seq; cbn; [constructor|].
  constructor; [done|]. constructor; [by destruct (_ =? 0)|].
  replace (u64 (u64 (seq + 1) + 1)) with (u64 (seq + 2)); [apply IH|]. rewrite u64_add_idemp_l. f_equal. lia.
Qed.

Lemma spec_match_then_rest_numbered st x cseq st' evs : spec_match_then_rest st x cseq = (st', evs) ->
  numbered (sp_next_event_sequence st) evs (sp_next_event_sequence st').
Proof.
  unfold spec_match_then_rest, spec_match, spec_rest.
  destruct (spec_fill _ _ _ _) as [[fills rem] l].
  destruct (_ || _); intros [= <- <-]; cbn; [rewrite app_nil_r; apply fill_events_numbered|].
  eapply numbered_app; [apply fill_events_numbered|]. by apply numbered_one.
Qed.

(** Step past the early rejections of a command. *)
Ltac past_rejects tac :=
  repeat match goal with |- context [if ?c then spec_reject _ _ else _] => destruct c; [tac|] end.

Lemma spec_process_numbered st c : let '(st', evs) := spec_process st c in
  numbered (sp_next_event_sequence st) evs (sp_next_event_sequence st').
Proof.
  assert (Hrej : forall ev, event_sequence (ev (sp_next_event_sequence st)) = sp_next_event_sequence st ->
    let '(st', evs) := spec_reject st ev in numbered (sp_next_event_sequence st) evs (sp_next_event_sequence st')).
  { intros ev He. cbn. by apply numbered_one. }
  destruct c as [cmd|cmd|cmd]; cbn [spec_process].
  - unfold spec_new_order. past_rejects ltac:(by apply Hrej).
    destruct (spec_match_then_rest _ _ _) as [st' evs] eqn:E. apply spec_match_then_rest_numbered in E.
    cbv beta iota zeta. constructor; [done|]. exact E.
  - unfold spec_cancel. past_rejects ltac:(by apply Hrej). destruct (find_order _ _ _); [|by apply Hrej].
    cbv beta iota zeta. repeat (constructor; [done|]). constructor.
  - unfold spec_replace. past_rejects ltac:(by apply Hrej). destruct (find_order _ _ _) as [r|]; [|by apply Hrej].
    destruct (_ && _).
    + cbv beta iota zeta. repeat (constructor; [done|]). constructor.
    + destruct (spec_match_then_rest _ _ _) as [st' evs] eqn:E. apply spec_match_then_rest_numbered in E.
      cbv beta iota zeta. do 2 (constructor; [done|]). exact E.
Qed.

Lemma spec_run_numbered cmds : forall st, let '(st', evs) := spec_run st cmds in
  numbered (sp_next_event_sequence st) evs (sp_next_event_sequence st').
Proof.
  induction cmds as [|c cmds IH]; intros st; cbn [spec_run]; [constructor|].
  pose proof (spec_process_numbered st c) as H1. destruct (spec_process st c) as [st1 evs1].
  specialize (IH st1). destruct (spec_run st1 cmds) as [st2 evs2]. by eapply numbered_app.
Qed.

(** ** Trades in the event stream *)
Definition trades (evs : list ExchangeEvent) : list TradeExecuted :=
  omap (fun ev => match ev with EvTradeExecuted t => Some t | _ => None end) evs.
Definition trade_volume (evs : list ExchangeEvent) : Z := foldr (fun t n => te_quantity t + n) 0 (trades evs).

Lemma trades_app l1 l2 : trades (l1 ++ l2) = trades l1 ++ trades l2.
Proof. apply omap_app. Qed.
Lemma fill_events_trades x cseq rem fills seq :
  (fun t => (te_price t, te_quantity t)) <$> trades (fill_events x cseq rem fills seq) =
  (fun f => (ero_price f.1, f.2)) <$> fills.
Proof.
  revert rem seq. induction fills as [|[r t] fills IH]; intros rem seq; [done|].
  cbn [fill_events trades omap list_omap]. unfold trade_event. destruct (_ =? 0); cbn; f_equal; apply IH.
Qed.
Lemma fill_events_volume x cseq rem fills seq : trade_volume (fill_events x cseq rem fills seq) = traded fills.
Proof.
  revert rem seq. induction fills as [|[r t] fills IH]; intros rem seq; [done|].
  unfold trade_volume in *. cbn [fill_events trades omap list_omap]. unfold trade_event.
  destruct (_ =? 0); cbn; f_equal; apply IH.
Qed.

(** ** Consequences for the engine

    What the refinement gives about the concrete engine over [MatchingBook]:
    the snapshot is the specification's, books never cross, rejections change
    nothing, and what each kind of command does to the books. *)

(** ** Histories: engines reached from construction by admissible commands *)
Definition history (universe : list InstrumentId) (expected : Z) (cmds : list ExchangeCommand)
    (e : MatchingEngine MatchingBook) (evs : list ExchangeEvent) : Prop :=
  Forall (fun id => 0 <= id) universe /\ run_ok (sp_new universe) cmds /\
  run (MatchingEngine_new universe expected) cmds = Some (e, evs).

Lemma history_refines universe expected cmds e evs : history universe expected cmds e evs ->
  engine_wf e /\ refines e (spec_run (sp_new universe) cmds).1 /\ evs = (spec_run (sp_new universe) cmds).2.
Proof.
  intros (Hu & Hok & Hrun). destruct (new_refines (B := MatchingBook) universe expected Hu) as [W R].
  destruct (run_simulates cmds _ _ W R Hok) as (e' & He & W' & R'). rewrite Hrun in He.
  injection He as -> ->. done.
Qed.

(** ** Snapshot *)
Definition sorted_ids (st : Spec) : list InstrumentId := merge_sort Z.le (map_to_list (sp_books st)).*1.
Definition snap_book (i : InstrumentId) (sb : SpecBook) : option InstrumentBookSnapshot :=
  match sb_bids sb, sb_asks sb with
  | [], [] => None
  | bids, asks => Some {| ibs_instrument_id := i; ibs_bids := bids; ibs_asks := asks |}
  end.
Definition spec_snapshot (st : Spec) : EngineStateSnapshot :=
  {| ess_instruments := omap (fun i => sp_books st !! i ≫= snap_book i) (sorted_ids st) |}.

Section Snapshot.
Context {B : Type} `{BookLaws B} (e : MatchingEngine B) (st : Spec) (W : engine_wf e) (R : refines e st).

Lemma by_id_sorted_ids : (me_by_id e).*1 = sorted_ids st.
Proof.
  pose proof (ew_registry _ W) as G.
  apply (StronglySorted_unique Z.le).
  - assert (Hlt : forall l, StronglySorted Z.lt l -> StronglySorted Z.le l).
    { induction 1 as [|x l Hs IH Hall]; constructor; [done|]. eapply Forall_impl; [exact Hall|]. cbn. lia. }
    apply Hlt, (rg_sorted _ G).
  - apply (StronglySorted_merge_sort _).
  - unfold sorted_ids. rewrite merge_sort_Permutation.
    apply NoDup_Permutation; [apply sorted_lt_NoDup, (rg_sorted _ G)|apply NoDup_fst_map_to_list|].
    intros i. rewrite !list_elem_of_fmap. split.
    + intros ([i' n] & -> & Hin). cbn. apply (rg_by_id _ G) in Hin as (Hi & Hs & Hr).
      exists (i', abs_book e i'). split; [done|]. apply elem_of_map_to_list.
      rewrite (rf_books _ _ R) by lia. unfold knows_instrument. rewrite Hs.
      pose proof (books_bound e G). destruct (n =? kNoSlot) eqn:E; [unfold kNoSlot in E; lia|done].
    + intros ([i' sb] & -> & Hin%elem_of_map_to_list). cbn.
      destruct (Z.lt_ge_cases i' 0) as [Hneg|Hi]; [by rewrite (rf_neg _ _ R) in Hin|].
      rewrite (rf_books _ _ R) in Hin by done. destruct (knows_instrument e i') eqn:Hk; [|done].
      destruct (known_book e G i' Hi Hk) as [b Hb].
      destruct (book_for_Some e G i' b Hi Hb) as (n & _ & Hin' & _). by exists (i', n).
Qed.

Lemma compose_ero i o : is_Some (me_orders e !! bo_key o) -> MatchingEngine.compose e o i = Some (ero_of (me_orders e) i o).
Proof. intros [ref Hr]. unfold MatchingEngine.compose, ero_of, bo_key in *. by rewrite Hr. Qed.

Lemma compose_live i s l : 0 <= i -> (forall x, x ∈ l -> x ∈ iview e i s) ->
  mapM (fun o => compose e o i) l.*2 = Some (abs_side (me_orders e) i l).
Proof.
  intros Hi. induction l as [|[h o] l IH]; intros Hl; [done|]. cbn.
  destruct (dw_entry _ _ (ew_dir _ W) i s h o Hi) as (ref & Hr & _); [apply Hl; set_solver|].
  rewrite compose_ero by eauto. cbn. rewrite IH by set_solver. done.
Qed.

Lemma snapshot_from_refines ids : (forall x, x ∈ ids -> x ∈ me_by_id e) ->
  snapshot_from e ids = Some (omap (fun i => sp_books st !! i ≫= snap_book i) ids.*1).
Proof.
  pose proof (ew_registry _ W) as G. induction ids as [|[i n] ids IH]; intros Hids; [done|]. cbn [snapshot_from].
  pose proof (rg_by_id _ G i n (Hids (i, n) (list_elem_of_here _ _))) as (Hi & Hs & Hr).
  destruct (lookup_lt_is_Some_2 (me_books e) (Z.to_nat n)) as [b Hb]; [lia|]. rewrite Hb.
  assert (Hbk : book_for e i = Some b) by (unfold book_for, slot_for; by rewrite Hs).
  pose proof (ew_book _ W i b ltac:(lia) Hbk) as Wb. rewrite !(law_all_of b _ Wb).
  rewrite !(compose_live i _ _ ltac:(lia)) by (intros x Hx; by rewrite (iview_book e i b)).
  rewrite IH by set_solver. cbn [fmap list_fmap omap list_omap fst].
  destruct (book_for_Some e G i b ltac:(lia) Hbk) as (_ & _ & _ & _ & Hk).
  rewrite (rf_books _ _ R), Hk by lia. cbn [mbind option_bind]. unfold snap_book, abs_book.
  rewrite !(iview_book e i b) by done. cbn [sb_bids sb_asks].
  by destruct (abs_side _ i (bk_view b Buy)), (abs_side _ i (bk_view b Sell)).
Qed.

Lemma snapshot_refines : snapshot e = Some (spec_snapshot st).
Proof.
  unfold snapshot, spec_snapshot. rewrite snapshot_from_refines by done. by rewrite by_id_sorted_ids.
Qed.
End Snapshot.

(** ** Best prices of a book *)
Lemma best_price_view bk s : book_wf bk ->
  (if si_empty (side_of bk s) then Some None else Some <$> best_price (side_of bk s)) =
  Some (entry_price <$> head (book_view bk s)).
Proof.
  intros [g R]. rewrite (si_empty_rep bk g R s), (best_price_rep bk g R s).
  pose proof (queue_list_head bk g R s) as Hh. rewrite (book_view_rep bk g R s).
  destruct (sorted_keys s (g_q g s)) as [|p ks]; [by rewrite Hh|].
  destruct Hh as (a & q & l & Hq & Hl). rewrite Hl.
  destruct (BookReads.live_order bk g R s a) as (o & Ho & _).
  { apply elem_of_queue_list. exists p, (a :: q). split; [done|]. set_solver. }
  rewrite (BookReads.entries_cons _ _ _ _ Ho). cbn. do 2 f_equal. symmetry.
  apply (BookReads.entries_price bk g R s p (a :: q) (a, o) Hq).
  apply BookReads.elem_of_entries. split; [set_solver|done].
Qed.

Lemma uncrossed_book (e : MatchingEngine MatchingBook) i b p q : engine_wf e -> 0 <= i -> book_for e i = Some b ->
  best_bid_price b = Some (Some p) -> best_ask_price b = Some (Some q) -> p < q.
Proof.
  intros W Hi Hb Hbid Hask. pose proof (ew_book _ W i b Hi Hb) as Wb.
  pose proof (best_price_view b Buy Wb) as H1. pose proof (best_price_view b Sell Wb) as H2.
  unfold best_bid_price, best_ask_price, side_of in *. rewrite Hbid in H1. rewrite Hask in H2.
  destruct (book_view b Buy) as [|x l1] eqn:E1; [done|]. destruct (book_view b Sell) as [|y l2] eqn:E2; [done|].
  injection H1 as ->. injection H2 as ->.
  apply (ew_uncrossed _ W i Buy x y Hi); rewrite (iview_book e i b) by done; cbn; [rewrite E1|rewrite E2]; set_solver.
Qed.

(** ** Rejections *)
Definition is_rejection (evs : list ExchangeEvent) : Prop :=
  exists r, evs = [EvOrderRejected r].

Lemma rejection_changes_nothing {B} `{BookImpl B} (e e' : MatchingEngine B) c evs :
  process e c = Some (e', evs) -> is_rejection evs -> e' = bump_event_sequence e.
Proof.
  intros Hp [r ->]. destruct c as [cmd|cmd|cmd]; cbn [process] in Hp.
  - unfold process_new_order, reject_new_order, emit in Hp.
    repeat match type of Hp with
    | (if ?c then _ else _) = _ => destruct c; [by injection Hp|]
    | (match ?c with Some _ => _ | None => None end) = _ => destruct c as [[]|]; [by injection Hp| |done]
    end.
    simplify_bind. discriminate.
  - unfold process_cancel, reject_cancel, emit in Hp. destruct (negb _); [by injection Hp|].
    destruct (_ !! _); [|by injection Hp]. destruct (negb _); [by injection Hp|]. simplify_bind. discriminate.
  - unfold process_replace, reject_replace_order, emit in Hp. do 2 (destruct (_ : bool); [by injection Hp|]).
    destruct (_ !! _); [|by injection Hp]. destruct (negb _); [by injection Hp|]. simplify_bind.
    destruct (_ && _); unfold replace_in_place, replace_cancel_new, emit in Hp; simplify_bind; discriminate.
Qed.

(** ** What each command does, on the concrete engine

    The outcome of every command in terms of what can be observed: the events
    it emits and the orders [all_of] lists before and after. *)

(** ** Observations *)

(** The orders resting on one side of an instrument, as the engine lists them. *)
Definition side_orders (e : MatchingEngine MatchingBook) (i : InstrumentId) (s : Side) : list BookOrder :=
  default [] (let* b := book_for e i in all_of b s).

(** The resting party of a trade. *)
Definition passive (t : TradeExecuted) : TradeCounterparty :=
  match te_aggressor_side t with Buy => te_seller t | Sell => te_buyer t end.
Definition adds (evs : list ExchangeEvent) : list BookOrderAdded :=
  omap (fun ev => match ev with EvBookOrderAdded a => Some a | _ => None end) evs.

Section Observe.
Context (e : MatchingEngine MatchingBook) (st : Spec) (W : engine_wf e) (R : refines e st).

Lemma side_orders_spec i s : 0 <= i -> side_orders e i s = book_order_of <$> sp_side st i s.
Proof.
  intros Hi. rewrite (refines_side e st i s (ew_registry _ W) R Hi). unfold side_orders, iview, abs_side.
  destruct (book_for e i) as [b|] eqn:Hb; [|done].
  pose proof (law_all_of b s (ew_book _ W i b Hi Hb)) as Ha. cbn in Ha. rewrite Ha. cbn.
  rewrite <- list_fmap_compose. apply list_fmap_ext. intros n [h o] _. symmetry. apply book_order_of_ero.
Qed.
Lemma sp_side_sorted i s : 0 <= i -> ero_sorted s (sp_side st i s).
Proof.
  intros Hi. rewrite (refines_side e st i s (ew_registry _ W) R Hi). unfold iview.
  destruct (book_for e i) as [b|] eqn:Hb; [|constructor].
  pose proof (law_sorted b s (ew_book _ W i b Hi Hb)) as Hs. unfold ero_sorted, abs_side, prio_sorted in *.
  induction Hs as [|x l Hs IH Hall]; cbn; constructor; [done|]. by apply Forall_fmap.
Qed.
Lemma sp_side_positive i s : 0 <= i -> Forall (fun r => 0 < ero_remaining_quantity r) (sp_side st i s).
Proof.
  intros Hi. rewrite (refines_side e st i s (ew_registry _ W) R Hi). apply Forall_fmap, Forall_forall.
  intros x Hx. by destruct (ew_order _ W i s x Hi Hx) as [[? _] _].
Qed.
End Observe.

(** ** Events of a matching run *)
Lemma fill_events_passive x cseq rem fills seq :
  (fun t => tcp_exchange_order_id (passive t)) <$> trades (fill_events x cseq rem fills seq) =
  (fun f => ero_exchange_order_id f.1) <$> fills.
Proof.
  revert rem seq. induction fills as [|[r t] fills IH]; intros rem seq; [done|].
  cbn [fill_events trades omap list_omap]. unfold trade_event.
  destruct (_ =? 0); unfold passive; cbn; (f_equal; [by destruct (ero_side x)|apply IH]).
Qed.
Lemma fill_events_adds x cseq rem fills seq : adds (fill_events x cseq rem fills seq) = [].
Proof.
  revert rem seq. induction fills as [|[r t] fills IH]; intros rem seq; [done|].
  cbn [fill_events adds omap list_omap]. unfold trade_event. destruct (_ =? 0); cbn; apply IH.
Qed.
Lemma adds_app l1 l2 : adds (l1 ++ l2) = adds l1 ++ adds l2.
Proof. apply omap_app. Qed.

(** ** Matching then resting *)
Record matched (st : Spec) (x : ExchangeRestingOrder) (st' : Spec) (evs : list ExchangeEvent) : Prop := {
  mt_volume : trade_volume evs =
    Z.min (ero_remaining_quantity x)
      (liquidity (ero_side x) (ero_price x) (sp_side st (ero_instrument_id x) (contra_side (ero_side x))));
  mt_limit : Forall (fun t => crosses (ero_side x) (ero_price x) (te_price t) = true /\ 0 < te_quantity t) (trades evs);
  mt_priority : (fun t => tcp_exchange_order_id (passive t)) <$> trades evs =
    ero_exchange_order_id <$> take (length (trades evs)) (sp_side st (ero_instrument_id x) (contra_side (ero_side x)));
  mt_prices : te_price <$> trades evs =
    ero_price <$> take (length (trades evs)) (sp_side st (ero_instrument_id x) (contra_side (ero_side x)));
  mt_contra : qty_sum (sp_side st (ero_instrument_id x) (contra_side (ero_side x))) =
    trade_volume evs + qty_sum (sp_side st' (ero_instrument_id x) (contra_side (ero_side x)));
  mt_consumed : sp_side st' (ero_instrument_id x) (contra_side (ero_side x)) =
    spec_consume (trade_volume evs) (sp_side st (ero_instrument_id x) (contra_side (ero_side x)));
  mt_each : forall k t r, trades evs !! k = Some t ->
    sp_side st (ero_instrument_id x) (contra_side (ero_side x)) !! k = Some r ->
    te_quantity t <= ero_remaining_quantity r /\ (S k < length (trades evs) -> te_quantity t = ero_remaining_quantity r)%nat;
  mt_own : sp_side st' (ero_instrument_id x) (ero_side x) =
    (if bool_decide (ero_time_in_force x = GTC) && negb (ero_remaining_quantity x - trade_volume evs =? 0)
     then spec_insert (ero_side x) (ero_set_remaining x (ero_remaining_quantity x - trade_volume evs))
            (sp_side st (ero_instrument_id x) (ero_side x))
     else sp_side st (ero_instrument_id x) (ero_side x));
  mt_adds : boa_quantity <$> adds evs =
    (if bool_decide (ero_time_in_force x = GTC) && negb (ero_remaining_quantity x - trade_volume evs =? 0)
     then [ero_remaining_quantity x - trade_volume evs] else []);
}.

Lemma sp_side_set_contra st i s l : sp_side (sp_set_side st i (contra_side s) l) i s = sp_side st i s.
Proof. rewrite <- (contra_side_involutive s) at 2. by rewrite sp_side_set_ne, contra_side_involutive. Qed.
Lemma sp_side_counters st x q p i s : sp_side (sp_set_counters st x q p) i s = sp_side st i s.
Proof. done. Qed.
Lemma known_set_side st i s l : is_Some (sp_books st !! i) -> is_Some (sp_books (sp_set_side st i s l) !! i).
Proof. intros [sb Hsb]. cbn. rewrite lookup_alter_eq, Hsb. eauto. Qed.

Lemma trades_length fills x cseq rem seq : length (trades (fill_events x cseq rem fills seq)) = length fills.
Proof.
  transitivity (length ((fun f : ExchangeRestingOrder * Quantity => ero_exchange_order_id f.1) <$> fills)); [|by rewrite length_fmap].
  by rewrite <- (fill_events_passive x cseq rem fills seq), length_fmap.
Qed.

Lemma spec_match_then_rest_matched st x cseq st' evs : is_Some (sp_books st !! ero_instrument_id x) ->
  0 <= ero_remaining_quantity x ->
  Forall (fun r => 0 < ero_remaining_quantity r) (sp_side st (ero_instrument_id x) (contra_side (ero_side x))) ->
  ero_sorted (contra_side (ero_side x)) (sp_side st (ero_instrument_id x) (contra_side (ero_side x))) ->
  spec_match_then_rest st x cseq = (st', evs) -> matched st x st' evs.
Proof.
  intros Hk Hr Hpos Hsort Heq. unfold spec_match_then_rest, spec_match in Heq.
  set (i := ero_instrument_id x) in *. set (s := ero_side x) in *. set (l := sp_side st i (contra_side s)) in *.
  pose proof (spec_fill_shape s (ero_price x) (ero_remaining_quantity x) l Hr Hpos) as Hshape.
  pose proof (spec_fill_amount s (ero_price x) (ero_remaining_quantity x) l Hr Hpos Hsort) as Ham.
  pose proof (liquidity_nonneg s (ero_price x) l Hpos) as Hln.
  destruct (spec_fill _ _ _ l) as [[fills rem] l']. cbn [fst snd] in Ham.
  pose proof (fill_contra_quantity _ _ _ _ _ _ _ Hshape) as Hcq. pose proof (fill_consumes _ _ _ _ _ _ _ Hpos Hshape) as Hcons.
  pose proof (fun k f => fill_each _ _ _ _ _ _ _ k f Hshape) as Hfull.
  destruct Hshape as [Hq Hrem Heach (rest & Hl & _)].
  set (fe := fill_events x cseq (ero_remaining_quantity x) fills (sp_next_event_sequence st)) in *.
  pose proof (fill_events_volume x cseq (ero_remaining_quantity x) fills (sp_next_event_sequence st) : trade_volume fe = _) as Hv.
  pose proof (fill_events_trades x cseq (ero_remaining_quantity x) fills (sp_next_event_sequence st) : _ <$> trades fe = _) as Ht.
  pose proof (fill_events_passive x cseq (ero_remaining_quantity x) fills (sp_next_event_sequence st) : _ <$> trades fe = _) as Hp.
  pose proof (trades_length fills x cseq (ero_remaining_quantity x) (sp_next_event_sequence st) : length (trades fe) = _) as Hlen.
  set (st1 := sp_set_counters (sp_set_side st i (contra_side s) l') _ _ _) in Heq.
  destruct (spec_rest st1 (ero_set_remaining x rem)) as [st2 rested] eqn:Erest. injection Heq as <- <-.
  assert (Hrested : trades rested = []).
  { revert Erest. unfold spec_rest. destruct (_ || _); by intros [= _ <-]. }
  assert (Hvol : trade_volume (fe ++ rested) = traded fills).
  { unfold trade_volume. rewrite trades_app, Hrested, app_nil_r. exact Hv. }
  assert (Htr : trades (fe ++ rested) = trades fe) by (by rewrite trades_app, Hrested, app_nil_r).
  assert (Hdiff : ero_remaining_quantity x - traded fills = rem) by lia.
  assert (Hcontra : sp_side st2 i (contra_side s) = l').
  { revert Erest. unfold spec_rest. destruct (_ || _); intros [= <- _]; [by apply sp_side_set_eq|].
    unfold sp_bump_seq. rewrite sp_side_counters. cbn [ero_set_remaining ero_instrument_id ero_side]. fold i s.
    rewrite sp_side_set_ne. by apply sp_side_set_eq. }
  assert (Htake : take (length fills) l = fills.*1) by (rewrite Hl; apply take_app_length'; by rewrite length_fmap).
  constructor; fold i s l; rewrite ?Htr, ?Hvol, ?Hdiff, ?Hlen, ?Htake.
  - lia.
  - clear - Ht Heach. revert Ht. generalize (trades fe). induction Heach as [|f fills [Hf1 Hf2] _ IH]; intros [|t ts]; try done.
    cbn. intros [= H1 H2 H3]. constructor; [|by apply IH]. rewrite H1. split; [done|]. lia.
  - rewrite Hp, <- list_fmap_compose. done.
  - apply (f_equal (fmap fst)) in Ht. rewrite <- !list_fmap_compose in Ht. rewrite <- list_fmap_compose. exact Ht.
  - by rewrite Hcq, Hcontra.
  - by rewrite Hcontra.
  - intros k t r Hkt Hkr. pose proof (f_equal (.!! k) Ht) as E. cbn beta in E. rewrite !list_lookup_fmap, Hkt in E. cbn in E.
    destruct (fills !! k) as [f|] eqn:Hf; [|done]. injection E as _ ->. rewrite Hl in Hkr.
    rewrite lookup_app_l, list_lookup_fmap, Hf in Hkr by (rewrite length_fmap; by eapply lookup_lt_Some). injection Hkr as <-. by apply Hfull in Hf.
  - revert Erest. unfold spec_rest. cbn [ero_set_remaining ero_time_in_force ero_remaining_quantity ero_instrument_id ero_side].
    fold i s. destruct (bool_decide _), (rem =? 0); cbn [negb orb andb]; intros [= <- _];
      try (unfold st1; by rewrite sp_side_counters, sp_side_set_contra).
    unfold sp_bump_seq. rewrite sp_side_counters, sp_side_set_eq; [|by apply known_set_side].
    f_equal. unfold st1. by rewrite sp_side_counters, sp_side_set_contra.
  - rewrite adds_app. unfold fe. rewrite fill_events_adds. cbn [app].
    revert Erest. unfold spec_rest. cbn [ero_set_remaining ero_time_in_force ero_remaining_quantity ero_instrument_id ero_side].
    destruct (bool_decide _), (rem =? 0); cbn [negb orb andb]; by intros [= _ <-].
Qed.
