(* ===== verification/EngineTheorems.v ===== *)
(** * Theorems about the matching engine

    Statements about the engine over [MatchingBook], as a user of the
    exchange would read them: about every engine reached from construction
    by admissible commands ([history]), the events it emits and the orders
    its books list. *)
From S2P Require Import Prelude Types TickLadder SideIndex PriceQueues MatchingBook BookReads BookSpec MatchingEngine EngineSpec Directory EngineWf EngineRefine EngineMatch EngineProcess EngineRefinement EngineFacts.

(** ** Orders as lists *)
Fixpoint insert_order (s : Side) (x : BookOrder) (l : list BookOrder) : list BookOrder :=
  match l with
  | [] => [x]
  | y :: l' => if better_eq s (bo_price y) (bo_price x) then y :: insert_order s x l' else x :: l
  end.
Definition resting_liquidity (side : Side) (price : Price) (l : list BookOrder) : Z :=
  foldr (fun o n => (if crosses side price (bo_price o) then bo_remaining_quantity o else 0) + n) 0 l.
Definition without_key (k : LiveKey) (l : list BookOrder) : list BookOrder := filter (fun o => bo_key o <> k) l.
Definition amend_order (k : LiveKey) (c : ClientOrderId) (q : Quantity) (l : list BookOrder) : list BookOrder :=
  (fun o => if decide (bo_key o = k) then amend c q o else o) <$> l.

Lemma resting_liquidity_spec side price l :
  resting_liquidity side price (book_order_of <$> l) = liquidity side price l.
Proof. induction l as [|r l IH]; [done|]. cbn. by rewrite <- IH. Qed.
Lemma insert_order_spec s x l : insert_order s (book_order_of x) (book_order_of <$> l) = book_order_of <$> spec_insert s x l.
Proof. induction l as [|y l IH]; [done|]. cbn in *. destruct (better_eq _ _ _); cbn; [by rewrite IH|done]. Qed.
(** What is left of a side once [volume] has been taken from its front, whole
    orders first. *)
Fixpoint consumed (volume : Z) (l : list BookOrder) : list BookOrder :=
  match l with
  | [] => []
  | o :: l' =>
      if volume <? bo_remaining_quantity o then bo_set_remaining o (bo_remaining_quantity o - volume) :: l'
      else consumed (volume - bo_remaining_quantity o) l'
  end.
Lemma consumed_spec volume l : consumed volume (book_order_of <$> l) = book_order_of <$> spec_consume volume l.
Proof.
  revert volume. induction l as [|r l IH]; intros volume; [done|]. cbn [fmap list_fmap consumed spec_consume].
  change (bo_remaining_quantity (book_order_of r)) with (ero_remaining_quantity r). by destruct (volume <? _).
Qed.
Lemma without_key_spec k l : without_key k (book_order_of <$> l) = book_order_of <$> drop_key k l.
Proof.
  induction l as [|r l IH]; [done|]. unfold without_key, drop_key in *. rewrite fmap_cons, !filter_cons.
  change (bo_key (book_order_of r)) with (ero_key r). case_decide; cbn; [by rewrite IH|exact IH].
Qed.
Lemma amend_order_spec k c q l : amend_order k c q (book_order_of <$> l) = book_order_of <$> amend_key k c q l.
Proof.
  unfold amend_order, amend_key. rewrite <- !list_fmap_compose. apply list_fmap_ext. intros n r _. unfold Basics.compose.
  change (bo_key (book_order_of r)) with (ero_key r). case_decide; done.
Qed.

(** ** Sides after a store *)
Lemma sp_side_set_other st i s l j s' : (j <> i \/ s' <> s) -> sp_side (sp_set_side st i s l) j s' = sp_side st j s'.
Proof.
  intros Hne. destruct (decide (j = i)) as [->|Hji].
  - assert (s' = contra_side s) as -> by (destruct s, s'; naive_solver). apply sp_side_set_ne.
  - unfold sp_side. cbn. by rewrite lookup_alter_ne by done.
Qed.

(** ** A reached engine, and one more command *)
Section Reached.
Context (universe : list InstrumentId) (expected : Z) (cmds : list ExchangeCommand)
  (e : MatchingEngine MatchingBook) (evs0 : list ExchangeEvent) (Hh : history universe expected cmds e evs0).
Let st := (spec_run (sp_new universe) cmds).1.

Lemma reached_wf : engine_wf e.
Proof. by destruct (history_refines _ _ _ _ _ Hh). Qed.
Lemma reached_refines : refines e st.
Proof. by destruct (history_refines _ _ _ _ _ Hh) as (_ & ? & _). Qed.
Lemma reached_orders i s : 0 <= i -> side_orders e i s = book_order_of <$> sp_side st i s.
Proof. apply side_orders_spec; [apply reached_wf|apply reached_refines]. Qed.

Context (c : ExchangeCommand) (Hc : command_ok st c) (e' : MatchingEngine MatchingBook) (evs : list ExchangeEvent)
  (Hp : process e c = Some (e', evs)).

Lemma next_refines : engine_wf e' /\ refines e' (spec_process st c).1 /\ evs = (spec_process st c).2.
Proof.
  destruct (process_simulates e st c reached_wf reached_refines Hc) as (e1 & H1 & W & R).
  rewrite Hp in H1. injection H1 as -> ->. done.
Qed.
Lemma next_orders i s : 0 <= i -> side_orders e' i s = book_order_of <$> sp_side (spec_process st c).1 i s.
Proof. destruct next_refines as (W & R & _). by apply side_orders_spec. Qed.
End Reached.

(** The specification's view of an accepted new order. *)
Definition order_of (st : Spec) (cmd : NewOrderCommand) : ExchangeRestingOrder :=
  {| ero_exchange_order_id := sp_next_exchange_order_id st; ero_client_order_id := noc_client_order_id cmd;
     ero_account_id := noc_account_id cmd; ero_price := noc_price cmd;
     ero_original_quantity := noc_quantity cmd; ero_remaining_quantity := noc_quantity cmd;
     ero_order_sequence := sp_next_priority st; ero_instrument_id := noc_instrument_id cmd;
     ero_side := noc_side cmd; ero_time_in_force := noc_time_in_force cmd |}.

Lemma spec_new_order_cases st cmd : is_rejection (spec_new_order st cmd).2 \/
  exists st1 a evs, st1 = sp_bump_seq (sp_bump_prio (sp_bump_xid st)) /\
    spec_match_then_rest st1 (order_of st cmd) (noc_command_sequence cmd) = ((spec_new_order st cmd).1, evs) /\
    (spec_new_order st cmd).2 = EvOrderAccepted a :: evs /\ is_Some (sp_books st !! noc_instrument_id cmd) /\
    (noc_time_in_force cmd = FOK -> noc_quantity cmd <=
      liquidity (noc_side cmd) (noc_price cmd) (sp_side st (noc_instrument_id cmd) (contra_side (noc_side cmd)))).
Proof.
  unfold spec_new_order. destruct (bool_decide (is_Some (sp_books st !! _))) eqn:Hk; cbn [negb]; [|left; by eexists].
  destruct (noc_price cmd <=? 0); [left; by eexists|]. destruct (noc_quantity cmd =? 0); [left; by eexists|].
  destruct (key_live _ _); [left; by eexists|].
  destruct (bool_decide (noc_time_in_force cmd = FOK)) eqn:Ht; cbn [andb].
  - destruct (_ <? _) eqn:Hl; [left; by eexists|]. right. fold (order_of st cmd).
    destruct (spec_match_then_rest _ _ _) as [st' evs] eqn:E. do 3 eexists. split; [reflexivity|].
    split; [exact E|]. split; [done|]. split; [by apply bool_decide_eq_true in Hk|]. intros _. lia.
  - right. fold (order_of st cmd).
    destruct (spec_match_then_rest _ _ _) as [st' evs] eqn:E. do 3 eexists. split; [reflexivity|].
    split; [exact E|]. split; [done|]. split; [by apply bool_decide_eq_true in Hk|].
    intros Hf. by apply bool_decide_eq_false in Ht.
Qed.

(** An accepted new order, observed. *)
Section NewOrder.
Context (universe : list InstrumentId) (expected : Z) (cmds : list ExchangeCommand)
  (e : MatchingEngine MatchingBook) (evs0 : list ExchangeEvent) (Hh : history universe expected cmds e evs0)
  (cmd : NewOrderCommand) (Hc : command_ok (spec_run (sp_new universe) cmds).1 (CmdNewOrder cmd))
  (e' : MatchingEngine MatchingBook) (evs : list ExchangeEvent)
  (Hp : process e (CmdNewOrder cmd) = Some (e', evs)).
Let i := noc_instrument_id cmd.
Let s := noc_side cmd.

Lemma new_order_matched : ~ is_rejection evs -> exists st' evs1 a,
  matched (spec_run (sp_new universe) cmds).1 (order_of (spec_run (sp_new universe) cmds).1 cmd) st' evs1 /\
  evs = EvOrderAccepted a :: evs1 /\
  (forall j s', 0 <= j -> side_orders e' j s' = book_order_of <$> sp_side st' j s') /\
  (noc_time_in_force cmd = FOK -> noc_quantity cmd <=
     resting_liquidity (noc_side cmd) (noc_price cmd) (side_orders e i (contra_side s))).
Proof.
  intros Hrej. pose proof (reached_wf _ _ _ _ _ Hh) as W. pose proof (reached_refines _ _ _ _ _ Hh) as R.
  pose proof (next_refines _ _ _ _ _ Hh _ Hc _ _ Hp) as (W' & R' & He).
  pose proof (next_orders _ _ _ _ _ Hh _ Hc _ _ Hp) as Ho.
  set (st := (spec_run (sp_new universe) cmds).1) in *. destruct Hc as (Hi & _ & Hq & _ & _).
  cbn [spec_process] in *.
  destruct (spec_new_order_cases st cmd) as [Hr|(st1 & a & evs1 & Hst1 & E & Hevs & Hk & Hf)]; [by rewrite <- He in Hr|].
  exists (spec_new_order st cmd).1, evs1, a. rewrite He. split; [|split; [done|split; [done|]]].
  - apply spec_match_then_rest_matched in E.
    + subst st1. destruct E. by constructor.
    + subst st1. exact Hk.
    + cbn. lia.
    + subst st1. by apply (sp_side_positive e st W R).
    + subst st1. by apply (sp_side_sorted e st W R).
  - intros Hfok. rewrite (reached_orders _ _ _ _ _ Hh) by done. rewrite resting_liquidity_spec. by apply Hf.
Qed.
End NewOrder.

(** ** Looking orders up *)
Section Found.
Context (e : MatchingEngine MatchingBook) (st : Spec) (W : engine_wf e) (R : refines e st).

Lemma side_entry i s r : 0 <= i -> r ∈ sp_side st i s ->
  exists h o, (h, o) ∈ iview e i s /\ r = ero_of (me_orders e) i o /\ bo_side o = s.
Proof.
  intros Hi Hr. rewrite (refines_side e st i s (ew_registry _ W) R Hi) in Hr.
  apply elem_of_abs_side in Hr as (h & o & Hin & ->). exists h, o. split; [done|]. split; [done|].
  unfold iview in Hin. destruct (book_for e i) as [b|] eqn:Hb; [|by apply elem_of_nil in Hin].
  by destruct (law_entry b s _ (ew_book _ W i b Hi Hb) Hin).
Qed.
Lemma find_order_in i s r : 0 <= i -> r ∈ sp_side st i s -> find_order st i (ero_key r) = Some r.
Proof.
  intros Hi Hr. destruct (side_entry i s r Hi Hr) as (h & o & Hin & -> & Hs). rewrite ero_key_of.
  destruct (dw_entry _ _ (ew_dir _ W) _ _ _ _ Hi Hin) as (ref & Href & Hh & Hri).
  destruct (find_order_some e st W R i _ ref Hi Href Hri) as (s' & o' & Hin' & Hk & Hf). rewrite Hf. do 2 f_equal.
  by destruct (key_unique _ _ (ew_dir _ W) i s' _ o' i s h o Hi Hi Hin' Hin Hk) as (_ & _ & _ & ->).
Qed.
Lemma find_order_side i k r : 0 <= i -> find_order st i k = Some r -> r ∈ sp_side st i (ero_side r) /\ ero_key r = k.
Proof.
  intros Hi Hf. unfold find_order in Hf. apply find_some in Hf as [Hin Hk]. apply bool_decide_eq_true in Hk.
  split; [|done]. apply list_elem_of_In in Hin. apply elem_of_app in Hin as [Hin|Hin];
    destruct (side_entry i _ r Hi Hin) as (h & o & _ & Heq & Hs); rewrite Heq at 2; cbn; by rewrite Hs.
Qed.
Lemma find_order_absent i k : find_order st i k = None -> forall s r, r ∈ sp_side st i s -> ero_key r <> k.
Proof.
  intros Hf s r Hr Hk. unfold find_order in Hf. eapply find_none in Hf; [by apply bool_decide_eq_false in Hf|].
  apply list_elem_of_In, elem_of_app. destruct s; auto.
Qed.
Lemma live_is_known i s r : 0 <= i -> r ∈ sp_side st i s -> is_Some (sp_books st !! i).
Proof. unfold sp_side. destruct (sp_books st !! i); [eauto|]. by intros _ ?%elem_of_nil. Qed.
End Found.

(** ** Cancel on the specification *)
Lemma spec_cancel_cases st cmd :
  (is_rejection (spec_cancel st cmd).2 /\
   (sp_books st !! coc_instrument_id cmd = None \/
    find_order st (coc_instrument_id cmd) (coc_account_id cmd, coc_client_order_id cmd) = None)) \/
  (exists r, find_order st (coc_instrument_id cmd) (coc_account_id cmd, coc_client_order_id cmd) = Some r /\
     is_Some (sp_books st !! coc_instrument_id cmd) /\
     (forall j s, sp_side (spec_cancel st cmd).1 j s = sp_side (spec_drop st r (coc_instrument_id cmd)) j s) /\
     (spec_cancel st cmd).2 =
       [EvOrderCancelled {| ocn_event_sequence := sp_next_event_sequence st;
                            ocn_command_sequence := coc_command_sequence cmd; ocn_account_id := coc_account_id cmd;
                            ocn_client_order_id := coc_client_order_id cmd;
                            ocn_exchange_order_id := ero_exchange_order_id r;
                            ocn_instrument_id := coc_instrument_id cmd |};
        book_removed (coc_instrument_id cmd) (book_order_of r) (u64 (sp_next_event_sequence st + 1))]).
Proof.
  unfold spec_cancel. destruct (bool_decide _) eqn:Hk; cbn [negb].
  - apply bool_decide_eq_true in Hk. destruct (find_order _ _ _) as [r|] eqn:Hf.
    + right. exists r. done.
    + left. split; [by eexists|by right].
  - apply bool_decide_eq_false, eq_None_not_Some in Hk. left. split; [by eexists|by left].
Qed.

(** ** Replace on the specification *)
Lemma spec_replace_in_place st cmd r : is_Some (sp_books st !! roc_instrument_id cmd) ->
  find_order st (roc_instrument_id cmd) (roc_account_id cmd, roc_original_client_order_id cmd) = Some r ->
  0 < roc_new_price cmd -> 0 < roc_new_quantity cmd ->
  roc_new_price cmd = ero_price r -> roc_new_quantity cmd <= ero_remaining_quantity r ->
  spec_replace st cmd =
    (sp_bump_seq (sp_bump_seq (sp_set_side st (roc_instrument_id cmd) (ero_side r)
       (amend_key (roc_account_id cmd, roc_original_client_order_id cmd) (roc_new_client_order_id cmd)
          (roc_new_quantity cmd) (sp_side st (roc_instrument_id cmd) (ero_side r))))),
     [replaced cmd (ero_exchange_order_id r) (sp_next_event_sequence st);
      book_reduced (roc_instrument_id cmd) (book_order_of r) (roc_new_quantity cmd) (u64 (sp_next_event_sequence st + 1))]).
Proof.
  intros Hk Hf Hp Hq Hpe Hqe. unfold spec_replace. rewrite bool_decide_eq_true_2 by done. cbn [negb].
  rewrite (proj2 (Z.leb_gt _ _)), (proj2 (Z.eqb_neq _ 0)) by lia. cbn [orb]. rewrite Hf.
  by rewrite (proj2 (Z.eqb_eq _ _)), (proj2 (Z.leb_le _ _)) by done.
Qed.

Lemma spec_replace_cancel_new st cmd r : is_Some (sp_books st !! roc_instrument_id cmd) ->
  find_order st (roc_instrument_id cmd) (roc_account_id cmd, roc_original_client_order_id cmd) = Some r ->
  0 < roc_new_price cmd -> 0 < roc_new_quantity cmd ->
  (roc_new_price cmd <> ero_price r \/ ero_remaining_quantity r < roc_new_quantity cmd) ->
  exists st1 x evs, spec_match_then_rest st1 x (roc_command_sequence cmd) = ((spec_replace st cmd).1, evs) /\
    (spec_replace st cmd).2 = replaced cmd (sp_next_exchange_order_id st) (sp_next_event_sequence st)
      :: book_removed (roc_instrument_id cmd) (book_order_of r) (u64 (sp_next_event_sequence st + 1)) :: evs /\
    (forall j s, sp_side st1 j s = sp_side (spec_drop st r (roc_instrument_id cmd)) j s) /\
    is_Some (sp_books st1 !! roc_instrument_id cmd) /\
    x = {| ero_exchange_order_id := sp_next_exchange_order_id st; ero_client_order_id := roc_new_client_order_id cmd;
           ero_account_id := roc_account_id cmd; ero_price := roc_new_price cmd;
           ero_original_quantity := roc_new_quantity cmd; ero_remaining_quantity := roc_new_quantity cmd;
           ero_order_sequence := sp_next_priority st; ero_instrument_id := roc_instrument_id cmd;
           ero_side := ero_side r; ero_time_in_force := ero_time_in_force r |}.
Proof.
  intros Hk Hf Hp Hq Hne. unfold spec_replace. rewrite bool_decide_eq_true_2 by done. cbn [negb].
  rewrite (proj2 (Z.leb_gt _ _)), (proj2 (Z.eqb_neq (roc_new_quantity cmd) 0)) by lia. cbn [orb]. rewrite Hf.
  assert (Hb : (roc_new_price cmd =? ero_price r) && (roc_new_quantity cmd <=? ero_remaining_quantity r) = false).
  { apply andb_false_iff. destruct Hne as [Hne|Hne]; [left; by apply Z.eqb_neq|right; by apply Z.leb_gt]. }
  rewrite Hb. destruct (spec_match_then_rest _ _ _) as [st' evs] eqn:E.
  do 3 eexists. split; [exact E|]. split; [done|]. split; [done|]. split; [|done]. by apply known_set_side.
Qed.
