(* ===== verification/EngineClaims.v ===== *)
(** * Properties of the matching engine

    The engine of the source (over [MatchingBook]) from construction on:
    refinement, the invariants of every reached state, and the outcome of
    each command.  Each property with hypotheses is followed by a witness
    applying it to a concrete history. *)
From S2P Require Import Prelude Types TickLadder SideIndex PriceQueues MatchingBook BookReads BookSpec MatchingEngine EngineSpec Directory EngineWf EngineRefine EngineMatch EngineProcess EngineRefinement EngineFacts EngineTheorems.

(** ** A concrete history *)
Definition demo_new (account coid : Z) (s : Side) (price qty : Z) (tif : TimeInForce) : ExchangeCommand :=
  CmdNewOrder {| noc_command_sequence := 1; noc_account_id := account; noc_client_order_id := coid;
                 noc_instrument_id := 7; noc_side := s; noc_price := price; noc_quantity := qty;
                 noc_order_type := Limit; noc_time_in_force := tif |}.
Definition demo_cancel (account coid : Z) : CancelOrderCommand :=
  {| coc_command_sequence := 2; coc_account_id := account; coc_client_order_id := coid; coc_instrument_id := 7 |}.
Definition demo_replace (account coid coid' price qty : Z) : ReplaceOrderCommand :=
  {| roc_command_sequence := 3; roc_account_id := account; roc_original_client_order_id := coid;
     roc_new_client_order_id := coid'; roc_instrument_id := 7; roc_new_price := price; roc_new_quantity := qty |}.
Definition demo : list ExchangeCommand :=
  [demo_new 1 1 Buy 100 5 GTC; demo_new 2 1 Sell 105 7 GTC; demo_new 3 1 Sell 104 2 GTC;
   demo_new 4 1 Buy 100 6 GTC; demo_new 1 2 Sell 105 4 GTC].
Definition demo_run (cmds : list ExchangeCommand) : MatchingEngine MatchingBook * list ExchangeEvent :=
  default (MatchingEngine_new [] 0, []) (run (MatchingEngine_new [7] 0) cmds).
Definition demo_engine : MatchingEngine MatchingBook := (demo_run demo).1.
Definition demo_state : Spec := (spec_run (sp_new [7]) demo).1.

(** Discharge admissibility of a concrete command. *)
Ltac solve_ok :=
  repeat match goal with
  | |- True => exact I
  | |- _ /\ _ => split
  | |- _ <= _ => vm_compute; discriminate
  | |- _ < _ => vm_compute; reflexivity
  | |- room _ _ => vm_compute; reflexivity
  | |- noc_time_in_force _ = FOK -> _ => intros _; vm_compute; reflexivity
  | |- _ \/ _ => first [left; reflexivity | right; vm_compute; reflexivity]
  | |- Forall _ _ => constructor
  | |- _ = _ => vm_compute; reflexivity
  end.

Lemma demo_history : history [7] 0 demo demo_engine (demo_run demo).2.
Proof.
  split; [|split].
  - repeat constructor; lia.
  - unfold demo. cbn [run_ok]. unfold command_ok, demo_new. solve_ok.
  - vm_compute. reflexivity.
Qed.

(** ** Refinement *)

(** C1: from construction, every admissible sequence of commands runs to
    completion (no throw, no undefined behaviour, no loop out of fuel), emits
    exactly the events of the textbook order book, in order, and leaves an
    engine that satisfies the invariant and stands for the textbook state. *)
Theorem run_implements_spec universe expected cmds :
  Forall (fun id => 0 <= id) universe -> run_ok (sp_new universe) cmds ->
  exists e : MatchingEngine MatchingBook,
    run (MatchingEngine_new universe expected) cmds = Some (e, (spec_run (sp_new universe) cmds).2) /\
    engine_wf e /\ refines e (spec_run (sp_new universe) cmds).1.
Proof.
  intros Hu Hok. destruct (new_refines (B := MatchingBook) universe expected Hu) as [W R].
  destruct (run_simulates cmds _ _ W R Hok) as (e & He & W' & R'). eauto.
Qed.

Lemma run_implements_spec_witness : exists e : MatchingEngine MatchingBook,
  run (MatchingEngine_new [7] 0) demo = Some (e, (spec_run (sp_new [7]) demo).2) /\
  engine_wf e /\ refines e demo_state.
Proof.
  apply (run_implements_spec [7] 0 demo).
  - repeat constructor; lia.
  - unfold demo. cbn [run_ok]. unfold command_ok, demo_new. solve_ok.
Defined.

(** ** Invariants of every reached engine *)

(** C2: no book is ever crossed or locked: after any admissible history the
    best bid is strictly below the best ask, on every instrument. *)
Theorem never_crossed universe expected cmds e evs i b bid ask :
  history universe expected cmds e evs -> 0 <= i -> book_for e i = Some b ->
  best_bid_price b = Some (Some bid) -> best_ask_price b = Some (Some ask) -> bid < ask.
Proof.
  intros Hh Hi Hb Hbid Hask. destruct (history_refines _ _ _ _ _ Hh) as (W & _).
  by apply (uncrossed_book e i b bid ask W).
Qed.

Definition demo_book : MatchingBook := default (MatchingBook_new 0 0) (book_for demo_engine 7).
Lemma never_crossed_witness : best_bid_price demo_book = Some (Some 100) /\
  best_ask_price demo_book = Some (Some 104) /\ 100 < 104.
Proof.
  split; [vm_compute; reflexivity|]. split; [vm_compute; reflexivity|].
  apply (never_crossed [7] 0 demo demo_engine (demo_run demo).2 7 demo_book 100 104); try (vm_compute; reflexivity).
  - exact demo_history.
  - lia.
Defined.

(** C3: the directory and the books describe the same orders.  Every entry of
    [orders_] names, through its handle, a resting order of its instrument's
    book with that account and client order id; every order a book lists has
    such an entry; and the published count of resting orders is the
    directory's size. *)
Theorem directory_exact universe expected cmds e evs : history universe expected cmds e evs ->
  (forall k ref, me_orders e !! k = Some ref -> exists b o,
     book_for e (ref_instrument_id ref) = Some b /\ book_at b (ref_handle ref) = Some o /\ bo_key o = k /\
     o ∈ side_orders e (ref_instrument_id ref) (bo_side o)) /\
  (forall i s o, 0 <= i -> o ∈ side_orders e i s -> exists ref b,
     me_orders e !! bo_key o = Some ref /\ ref_instrument_id ref = i /\ book_for e i = Some b /\
     book_at b (ref_handle ref) = Some o) /\
  me_resting_orders e = u64 (Z.of_nat (size (me_orders e))).
Proof.
  intros Hh. destruct (history_refines _ _ _ _ _ Hh) as (W & _). split; [|split; [|apply (ew_resting _ W)]].
  - intros k ref Hr. destruct (dw_ref _ _ (ew_dir _ W) _ _ Hr) as (Hi & s & o & Hin & Hk).
    unfold iview in Hin. destruct (book_for e _) as [b|] eqn:Hb; [|by apply elem_of_nil in Hin].
    pose proof (ew_book _ W _ b Hi Hb) as Wb. destruct (law_entry b s _ Wb Hin) as [<- _].
    exists b, o. split; [done|]. split; [by apply (law_at b (bo_side o) _ o Wb)|]. split; [done|].
    unfold side_orders. rewrite Hb. pose proof (law_all_of b (bo_side o) Wb) as Ha. cbn in Ha |- *. rewrite Ha. cbn.
    apply list_elem_of_fmap. by exists (ref_handle ref, o).
  - intros i s o Hi Ho. unfold side_orders in Ho. destruct (book_for e i) as [b|] eqn:Hb; [|by apply elem_of_nil in Ho].
    pose proof (ew_book _ W _ b Hi Hb) as Wb. pose proof (law_all_of b s Wb) as Ha. cbn in Ha, Ho. rewrite Ha in Ho.
    apply list_elem_of_fmap in Ho as ([h o'] & -> & Hin).
    assert (Hin' : (h, o') ∈ iview e i s) by (rewrite (iview_book e i b s Hb); exact Hin).
    destruct (dw_entry _ _ (ew_dir _ W) _ _ _ _ Hi Hin') as (ref & Hr & Hh' & Hri).
    exists ref, b. split; [done|]. split; [done|]. split; [done|]. rewrite Hh'. by apply (law_at b s h o' Wb).
Qed.

Lemma directory_exact_witness : exists ref b o, me_orders demo_engine !! (4, 1) = Some ref /\
  book_for demo_engine (ref_instrument_id ref) = Some b /\ book_at b (ref_handle ref) = Some o /\ bo_key o = (4, 1).
Proof.
  destruct (directory_exact [7] 0 demo demo_engine (demo_run demo).2 demo_history) as (H1 & _).
  assert (Hr : is_Some (me_orders demo_engine !! (4, 1))) by (vm_compute; eauto).
  destruct Hr as [ref Hr]. destruct (H1 (4, 1) ref Hr) as (b & o & Hb & Ho & Hk & _).
  exists ref, b, o. auto.
Defined.

(** Event sequence numbers are gapless: the k-th event ever emitted
    carries number k+1 (modulo 2^64), whatever commands produced it,
    rejections included. *)
Lemma events_gapless universe expected cmds e evs : history universe expected cmds e evs ->
  (forall k ev, evs !! k = Some ev -> event_sequence ev = u64 (1 + Z.of_nat k)) /\
  me_next_event_sequence e = u64 (1 + Z.of_nat (length evs)).
Proof.
  intros Hh. destruct (history_refines _ _ _ _ _ Hh) as (W & R & ->).
  pose proof (spec_run_numbered cmds (sp_new universe)) as Hn. rewrite <- (rf_seq _ _ R).
  destruct (spec_run (sp_new universe) cmds) as [st evs']. cbn [fst snd] in *.
  assert (H1 : sp_next_event_sequence (sp_new universe) = 1).
  { unfold sp_new. assert (Hfold : forall l st0, sp_next_event_sequence st0 = 1 ->
      sp_next_event_sequence (foldl (fun st id => (sp_register st id).2) st0 l) = 1).
    { induction l as [|id l IH]; intros st0 H0; [done|]. cbn. apply IH. unfold sp_register. by destruct (_ || _). }
    by apply Hfold. }
  rewrite H1 in Hn. by apply (numbered_lookup 1 evs' _ Hn).
Qed.

(** The snapshot never throws and is canonical: instruments in ascending
    id order, those with nothing resting left out, each side in price-time
    priority with every field restored. *)
Lemma snapshot_canonical universe expected cmds e evs : history universe expected cmds e evs ->
  snapshot e = Some (spec_snapshot (spec_run (sp_new universe) cmds).1).
Proof. intros Hh. destruct (history_refines _ _ _ _ _ Hh) as (W & R & _). by apply snapshot_refines. Qed.

(** ** New orders *)

(** Price-time priority.  The orders an accepted new order trades with
    are exactly the first orders of the contra side as listed (best price
    first, then arrival), one trade each, in that order, each at the resting
    order's price, within the incoming limit and for a positive quantity; the
    volume is the smaller of the order's quantity and the quantity resting
    within its limit. *)
Lemma new_order_price_time universe expected cmds e evs0 cmd e' evs :
  history universe expected cmds e evs0 -> command_ok (spec_run (sp_new universe) cmds).1 (CmdNewOrder cmd) ->
  process e (CmdNewOrder cmd) = Some (e', evs) -> ~ is_rejection evs ->
  let contra := side_orders e (noc_instrument_id cmd) (contra_side (noc_side cmd)) in
  let n := length (trades evs) in
  (fun t => tcp_exchange_order_id (passive t)) <$> trades evs = bo_exchange_order_id <$> take n contra /\
  te_price <$> trades evs = bo_price <$> take n contra /\
  Forall (fun t => crosses (noc_side cmd) (noc_price cmd) (te_price t) = true /\ 0 < te_quantity t) (trades evs) /\
  trade_volume evs = Z.min (noc_quantity cmd) (resting_liquidity (noc_side cmd) (noc_price cmd) contra).
Proof.
  intros Hh Hc Hp Hrej contra n. pose proof (proj1 Hc) as Hi.
  destruct (new_order_matched _ _ _ _ _ Hh _ Hc _ _ Hp Hrej) as (st' & evs1 & a & M & -> & Ho & _).
  unfold contra, n. rewrite (reached_orders _ _ _ _ _ Hh) by done.
  change (trades (EvOrderAccepted a :: evs1)) with (trades evs1).
  change (trade_volume (EvOrderAccepted a :: evs1)) with (trade_volume evs1).
  rewrite resting_liquidity_spec, <- fmap_take, <- !list_fmap_compose.
  destruct M as [Hv Hl Hpr Hpp _ _ _ _ _]. split; [exact Hpr|]. split; [exact Hpp|]. split; [exact Hl|exact Hv].
Qed.

Definition demo_buy : NewOrderCommand :=
  {| noc_command_sequence := 9; noc_account_id := 9; noc_client_order_id := 1; noc_instrument_id := 7;
     noc_side := Buy; noc_price := 105; noc_quantity := 10; noc_order_type := Limit; noc_time_in_force := GTC |}.
Definition demo_buy_run := default (demo_engine, []) (process demo_engine (CmdNewOrder demo_buy)).

(** Quantity is conserved and only GTC remainders rest.  After an accepted
    new order the contra side has lost exactly the traded volume; the part not
    traded rests if and only if the order is GTC, behind every order of its
    price or better, announced by one BookOrderAdded of that quantity;
    otherwise the order's own side is untouched. *)
Lemma new_order_conserves universe expected cmds e evs0 cmd e' evs :
  history universe expected cmds e evs0 -> command_ok (spec_run (sp_new universe) cmds).1 (CmdNewOrder cmd) ->
  process e (CmdNewOrder cmd) = Some (e', evs) -> ~ is_rejection evs ->
  let i := noc_instrument_id cmd in
  let s := noc_side cmd in
  let left := noc_quantity cmd - trade_volume evs in
  let total l := foldr (fun o n => bo_remaining_quantity o + n) 0 l in
  total (side_orders e i (contra_side s)) = trade_volume evs + total (side_orders e' i (contra_side s)) /\
  (if bool_decide (noc_time_in_force cmd = GTC) && negb (left =? 0)
   then boa_quantity <$> adds evs = [left] /\ exists o, bo_remaining_quantity o = left /\
          bo_key o = (noc_account_id cmd, noc_client_order_id cmd) /\ bo_price o = noc_price cmd /\
          side_orders e' i s = insert_order s o (side_orders e i s)
   else adds evs = [] /\ side_orders e' i s = side_orders e i s).
Proof.
  intros Hh Hc Hp Hrej i s left total. pose proof (proj1 Hc) as Hi.
  destruct (new_order_matched _ _ _ _ _ Hh _ Hc _ _ Hp Hrej) as (st' & evs1 & a & M & -> & Ho & _).
  assert (Hl : left = noc_quantity cmd - trade_volume evs1) by done.
  rewrite !Ho, !(reached_orders _ _ _ _ _ Hh) by done. rewrite Hl. clear Hl left Hp Hrej.
  change (trade_volume (EvOrderAccepted a :: evs1)) with (trade_volume evs1).
  change (adds (EvOrderAccepted a :: evs1)) with (adds evs1).
  assert (Htot : forall l, total (book_order_of <$> l) = qty_sum l).
  { intros l. unfold total, qty_sum. induction l as [|r l IH]; cbn; [done|]. by rewrite IH. }
  destruct M as [_ _ _ _ Hq _ _ Hown Hadds]. cbn [order_of ero_instrument_id ero_side ero_remaining_quantity ero_time_in_force] in *.
  fold i s in Hq, Hown. split; [by rewrite !Htot|].
  destruct (_ && _).
  - split; [done|].
    exists (book_order_of (ero_set_remaining (order_of (spec_run (sp_new universe) cmds).1 cmd)
                             (noc_quantity cmd - trade_volume evs1))).
    split; [done|]. split; [done|]. split; [done|]. rewrite Hown. symmetry. apply insert_order_spec.
  - rewrite Hown. split; [|done]. by apply fmap_nil_inv in Hadds.
Qed.

Definition demo_ioc : NewOrderCommand :=
  {| noc_command_sequence := 9; noc_account_id := 9; noc_client_order_id := 1; noc_instrument_id := 7;
     noc_side := Buy; noc_price := 104; noc_quantity := 10; noc_order_type := Limit; noc_time_in_force := IOC |}.
Definition demo_ioc_run := default (demo_engine, []) (process demo_engine (CmdNewOrder demo_ioc)).

(** Fill-or-kill is all or nothing.  A FOK order that is not rejected
    trades its whole quantity and leaves nothing behind; a rejected one
    leaves the engine as it was, but for the event counter. *)
Lemma fill_or_kill universe expected cmds e evs0 cmd e' evs :
  history universe expected cmds e evs0 -> command_ok (spec_run (sp_new universe) cmds).1 (CmdNewOrder cmd) ->
  noc_time_in_force cmd = FOK -> process e (CmdNewOrder cmd) = Some (e', evs) ->
  (is_rejection evs /\ e' = bump_event_sequence e) \/
  (~ is_rejection evs /\ trade_volume evs = noc_quantity cmd /\ adds evs = []).
Proof.
  intros Hh Hc Hf Hp. assert (Hdec : is_rejection evs \/ ~ is_rejection evs).
  { destruct evs as [|[| | | | | | |] []]; try (left; by eexists); right; intros [? ?]; discriminate. }
  destruct Hdec as [Hr|Hr]; [left|right].
  - split; [done|]. by eapply rejection_changes_nothing.
  - split; [done|]. pose proof (proj1 Hc) as Hi.
    destruct (new_order_matched _ _ _ _ _ Hh _ Hc _ _ Hp Hr) as (st' & evs1 & a & M & -> & Ho & Hl).
    specialize (Hl Hf). rewrite (reached_orders _ _ _ _ _ Hh), resting_liquidity_spec in Hl by done.
    destruct M as [Hv _ _ _ _ _ _ _ Hadds]. cbn [order_of ero_instrument_id ero_side ero_price ero_remaining_quantity ero_time_in_force] in *.
    change (trade_volume (EvOrderAccepted a :: evs1)) with (trade_volume evs1).
    change (adds (EvOrderAccepted a :: evs1)) with (adds evs1).
    split; [lia|]. rewrite Hf in Hadds. cbn in Hadds. by apply fmap_nil_inv in Hadds.
Qed.

Definition demo_fok : NewOrderCommand :=
  {| noc_command_sequence := 9; noc_account_id := 9; noc_client_order_id := 1; noc_instrument_id := 7;
     noc_side := Buy; noc_price := 105; noc_quantity := 12; noc_order_type := Limit; noc_time_in_force := FOK |}.
Definition demo_fok_run := default (demo_engine, []) (process demo_engine (CmdNewOrder demo_fok)).

(** Each trade takes a resting order whole, but the last, which may leave a
    part of it; the contra side keeps what is left. *)
Lemma new_order_fills universe expected cmds e evs0 cmd e' evs :
  history universe expected cmds e evs0 -> command_ok (spec_run (sp_new universe) cmds).1 (CmdNewOrder cmd) ->
  process e (CmdNewOrder cmd) = Some (e', evs) -> ~ is_rejection evs ->
  let contra := side_orders e (noc_instrument_id cmd) (contra_side (noc_side cmd)) in
  (forall k t o, trades evs !! k = Some t -> contra !! k = Some o -> te_quantity t <= bo_remaining_quantity o /\
     (S k < length (trades evs) -> te_quantity t = bo_remaining_quantity o)%nat) /\
  side_orders e' (noc_instrument_id cmd) (contra_side (noc_side cmd)) = consumed (trade_volume evs) contra.
Proof.
  intros Hh Hc Hp Hrej contra. pose proof (proj1 Hc) as Hi.
  destruct (new_order_matched _ _ _ _ _ Hh _ Hc _ _ Hp Hrej) as (st' & evs1 & a & M & -> & Ho & _).
  unfold contra. rewrite Ho, (reached_orders _ _ _ _ _ Hh) by done.
  change (trades (EvOrderAccepted a :: evs1)) with (trades evs1).
  change (trade_volume (EvOrderAccepted a :: evs1)) with (trade_volume evs1).
  pose proof (mt_consumed _ _ _ _ M) as Hcons. pose proof (mt_each _ _ _ _ M) as Heach.
  cbn [order_of ero_instrument_id ero_side] in Hcons, Heach. split; [|by rewrite consumed_spec, Hcons].
  intros k t o Ht Hk. rewrite list_lookup_fmap in Hk. apply fmap_Some in Hk as (r & Hr & ->). by apply (Heach k).
Qed.

(** C18: a new order does exactly what price-time priority says.  Rejected, it
    changes nothing but the event counter.  Accepted, it trades with exactly
    the first orders of the contra side as listed (best price first, then
    arrival), one trade each, in that order, at the resting order's price,
    within its limit and for a positive quantity; every trade but the last
    takes its resting order whole, and the last no more than there is; the
    volume is the smaller of its quantity and what rests within its limit, and
    the contra side afterwards is what is left when that volume is taken from
    its front.  The part not traded rests if and only if the order is GTC,
    behind every order of its price or better, announced by one
    BookOrderAdded; and an accepted FOK order has traded in full. *)
Theorem new_order_exact universe expected cmds e evs0 cmd e' evs :
  history universe expected cmds e evs0 -> command_ok (spec_run (sp_new universe) cmds).1 (CmdNewOrder cmd) ->
  process e (CmdNewOrder cmd) = Some (e', evs) ->
  (is_rejection evs /\ e' = bump_event_sequence e) \/
  (~ is_rejection evs /\
   let i := noc_instrument_id cmd in
   let s := noc_side cmd in
   let contra := side_orders e i (contra_side s) in
   let n := length (trades evs) in
   let left := noc_quantity cmd - trade_volume evs in
   let total l := foldr (fun o n => bo_remaining_quantity o + n) 0 l in
   (fun t => tcp_exchange_order_id (passive t)) <$> trades evs = bo_exchange_order_id <$> take n contra /\
   te_price <$> trades evs = bo_price <$> take n contra /\
   Forall (fun t => crosses s (noc_price cmd) (te_price t) = true /\ 0 < te_quantity t) (trades evs) /\
   (forall k t o, trades evs !! k = Some t -> contra !! k = Some o -> te_quantity t <= bo_remaining_quantity o /\
      (S k < n -> te_quantity t = bo_remaining_quantity o)%nat) /\
   trade_volume evs = Z.min (noc_quantity cmd) (resting_liquidity s (noc_price cmd) contra) /\
   side_orders e' i (contra_side s) = consumed (trade_volume evs) contra /\
   total contra = trade_volume evs + total (side_orders e' i (contra_side s)) /\
   (if bool_decide (noc_time_in_force cmd = GTC) && negb (left =? 0)
    then boa_quantity <$> adds evs = [left] /\ exists o, bo_remaining_quantity o = left /\
           bo_key o = (noc_account_id cmd, noc_client_order_id cmd) /\ bo_price o = noc_price cmd /\
           side_orders e' i s = insert_order s o (side_orders e i s)
    else adds evs = [] /\ side_orders e' i s = side_orders e i s) /\
   (noc_time_in_force cmd = FOK -> trade_volume evs = noc_quantity cmd)).
Proof.
  intros Hh Hc Hp. assert (Hdec : is_rejection evs \/ ~ is_rejection evs).
  { destruct evs as [|[| | | | | | |] []]; try (left; by eexists); right; intros [? ?]; discriminate. }
  destruct Hdec as [Hr|Hr]; [left; split; [done|by eapply rejection_changes_nothing]|right]. split; [done|].
  destruct (new_order_price_time _ _ _ _ _ _ _ _ Hh Hc Hp Hr) as (H1 & H2 & H3 & H4).
  destruct (new_order_conserves _ _ _ _ _ _ _ _ Hh Hc Hp Hr) as [H5 H6].
  destruct (new_order_fills _ _ _ _ _ _ _ _ Hh Hc Hp Hr) as [H7 H8].
  do 8 (split; [assumption|]).
  intros Hf. destruct (fill_or_kill _ _ _ _ _ _ _ _ Hh Hc Hf Hp) as [[? _]|(_ & ? & _)]; done.
Qed.
Lemma new_order_exact_witness :
  (fun t => tcp_exchange_order_id (passive t)) <$> trades demo_buy_run.2 = [3; 2; 5] /\
  (adds demo_ioc_run.2 = [] /\ side_orders demo_ioc_run.1 7 Buy = side_orders demo_engine 7 Buy) /\ trade_volume demo_fok_run.2 = 12.
Proof.
  split; [|split].
  - destruct (new_order_exact [7] 0 demo demo_engine (demo_run demo).2 demo_buy demo_buy_run.1 demo_buy_run.2 demo_history)
      as [[[r Hr] _]|[_ [H _]]]; [unfold command_ok; solve_ok|vm_compute; reflexivity|vm_compute in Hr; discriminate|].
    rewrite H. vm_compute. reflexivity.
  - destruct (new_order_exact [7] 0 demo demo_engine (demo_run demo).2 demo_ioc demo_ioc_run.1 demo_ioc_run.2 demo_history)
      as [[[r Hr] _]|(_ & _ & _ & _ & _ & _ & _ & _ & H & _)]; [unfold command_ok; solve_ok|vm_compute; reflexivity|vm_compute in Hr; discriminate|].
    exact H.
  - destruct (new_order_exact [7] 0 demo demo_engine (demo_run demo).2 demo_fok demo_fok_run.1 demo_fok_run.2 demo_history)
      as [[[r Hr] _]|(_ & _ & _ & _ & _ & _ & _ & _ & _ & H)]; [unfold command_ok; solve_ok|vm_compute; reflexivity|vm_compute in Hr; discriminate|].
    exact (H eq_refl).
Defined.

(** ** Cancel and replace *)

(** C19: cancel removes exactly the named order.  Either the order rests on the
    named instrument, and then it alone leaves its side, every other order of
    every book staying in place; or no such order rests there, and then the
    engine only counts one rejection. *)
Theorem cancel_exact universe expected cmds e evs0 cmd e' evs :
  history universe expected cmds e evs0 -> 0 <= coc_instrument_id cmd ->
  process e (CmdCancelOrder cmd) = Some (e', evs) ->
  let i := coc_instrument_id cmd in
  let k := (coc_account_id cmd, coc_client_order_id cmd) in
  (exists s o, o ∈ side_orders e i s /\ bo_key o = k /\
     evs = [EvOrderCancelled {| ocn_event_sequence := me_next_event_sequence e;
                                ocn_command_sequence := coc_command_sequence cmd;
                                ocn_account_id := coc_account_id cmd;
                                ocn_client_order_id := coc_client_order_id cmd;
                                ocn_exchange_order_id := bo_exchange_order_id o; ocn_instrument_id := i |};
            book_removed i o (u64 (me_next_event_sequence e + 1))] /\
     side_orders e' i s = without_key k (side_orders e i s) /\
     (forall j s', 0 <= j -> (j <> i \/ s' <> s) -> side_orders e' j s' = side_orders e j s')) \/
  (is_rejection evs /\ e' = bump_event_sequence e /\ forall s o, o ∈ side_orders e i s -> bo_key o <> k).
Proof.
  intros Hh Hi Hp i k. pose proof (reached_wf _ _ _ _ _ Hh) as W. pose proof (reached_refines _ _ _ _ _ Hh) as R.
  pose proof (next_refines _ _ _ _ _ Hh (CmdCancelOrder cmd) Hi _ _ Hp) as (W' & R' & He).
  pose proof (next_orders _ _ _ _ _ Hh (CmdCancelOrder cmd) Hi _ _ Hp) as Ho.
  pose proof (reached_orders _ _ _ _ _ Hh) as Ho0. set (st := (spec_run (sp_new universe) cmds).1) in *.
  cbn [spec_process] in *.
  destruct (spec_cancel_cases st cmd) as [[Hr Hno]|(r & Hf & Hk & Hside & Hevs)].
  - right. rewrite <- He in Hr. split; [done|]. split; [by eapply rejection_changes_nothing|].
    intros s o. rewrite Ho0 by done. intros (x & -> & Hx)%list_elem_of_fmap.
    change (bo_key (book_order_of x)) with (ero_key x). destruct Hno as [Hno|Hno].
    + fold i in Hno. unfold sp_side in Hx. rewrite Hno in Hx. by apply elem_of_nil in Hx.
    + by eapply find_order_absent.
  - left. destruct (find_order_side e st W R i k r Hi Hf) as [Hin Hkey].
    exists (ero_side r), (book_order_of r). rewrite Ho0 by done.
    split; [apply list_elem_of_fmap; by exists r|]. split; [done|]. split; [rewrite He, Hevs; by rewrite (rf_seq _ _ R)|].
    split.
    + rewrite Ho by done. rewrite Hside. unfold spec_drop. fold i. rewrite (sp_side_set_eq st i) by done.
      rewrite without_key_spec. by rewrite Hkey.
    + intros j s' Hj Hne. rewrite Ho, Ho0 by done. f_equal. rewrite Hside. by apply sp_side_set_other.
Qed.

Definition demo_cancel_run := default (demo_engine, []) (process demo_engine (CmdCancelOrder (demo_cancel 1 1))).
Lemma cancel_exact_witness : exists s o, o ∈ side_orders demo_engine 7 s /\ bo_key o = (1, 1) /\
  side_orders demo_cancel_run.1 7 s = without_key (1, 1) (side_orders demo_engine 7 s).
Proof.
  destruct (cancel_exact [7] 0 demo demo_engine (demo_run demo).2 (demo_cancel 1 1) demo_cancel_run.1 demo_cancel_run.2
    demo_history ltac:(cbn; lia) ltac:(vm_compute; reflexivity)) as [(s & o & H1 & H2 & _ & H3 & _)|([r Hr] & _)].
  - exists s, o. auto.
  - vm_compute in Hr. discriminate.
Defined.

(** A replace at the same price and no larger quantity keeps time
    priority: the order stays where it is in its queue, under its old
    exchange order id, with the new client order id and quantity; nothing
    else moves and nothing trades. *)
Lemma replace_keeps_priority universe expected cmds e evs0 cmd e' evs s o :
  history universe expected cmds e evs0 -> command_ok (spec_run (sp_new universe) cmds).1 (CmdReplaceOrder cmd) ->
  let i := roc_instrument_id cmd in
  let k := (roc_account_id cmd, roc_original_client_order_id cmd) in
  o ∈ side_orders e i s -> bo_key o = k -> roc_new_price cmd = bo_price o ->
  0 < roc_new_price cmd -> 0 < roc_new_quantity cmd <= bo_remaining_quantity o ->
  process e (CmdReplaceOrder cmd) = Some (e', evs) ->
  evs = [replaced cmd (bo_exchange_order_id o) (me_next_event_sequence e);
         book_reduced i o (roc_new_quantity cmd) (u64 (me_next_event_sequence e + 1))] /\
  side_orders e' i s = amend_order k (roc_new_client_order_id cmd) (roc_new_quantity cmd) (side_orders e i s) /\
  (forall j s', 0 <= j -> (j <> i \/ s' <> s) -> side_orders e' j s' = side_orders e j s').
Proof.
  intros Hh Hc i k Hin Hkey Hpe Hp0 Hq Hp. pose proof (reached_wf _ _ _ _ _ Hh) as W.
  pose proof (reached_refines _ _ _ _ _ Hh) as R. pose proof (proj1 Hc) as Hi. fold i in Hi.
  pose proof (next_refines _ _ _ _ _ Hh _ Hc _ _ Hp) as (W' & R' & He).
  pose proof (next_orders _ _ _ _ _ Hh _ Hc _ _ Hp) as Ho.
  pose proof (reached_orders _ _ _ _ _ Hh) as Ho0. set (st := (spec_run (sp_new universe) cmds).1) in *.
  rewrite Ho0 in Hin by done. apply list_elem_of_fmap in Hin as (r & -> & Hin).
  pose proof (find_order_in e st W R i s r Hi Hin) as Hf. change (ero_key r = k) in Hkey. rewrite Hkey in Hf.
  pose proof (live_is_known st i s r Hi Hin) as Hk.
  destruct (side_entry e st W R i s r Hi Hin) as (h & o' & _ & Heq & Hs).
  assert (Hsr : ero_side r = s) by (by rewrite Heq).
  pose proof (spec_replace_in_place st cmd r Hk Hf Hp0 ltac:(lia) Hpe ltac:(cbn in Hq; lia)) as Hspec.
  cbn [spec_process] in *. rewrite Hspec in He, Ho. rewrite Hsr in Ho. split; [|split].
  - rewrite He. cbn. by rewrite (rf_seq _ _ R).
  - rewrite Ho, Ho0 by done. rewrite amend_order_spec. f_equal. fold i. cbn [fst].
    unfold sp_bump_seq. rewrite !sp_side_counters. by apply sp_side_set_eq.
  - intros j s' Hj Hne. rewrite Ho, Ho0 by done. f_equal. cbn [fst]. unfold sp_bump_seq.
    rewrite !sp_side_counters. by apply sp_side_set_other.
Qed.

Definition demo_shrink : ReplaceOrderCommand := demo_replace 1 1 11 100 3.
Definition demo_shrink_run := default (demo_engine, []) (process demo_engine (CmdReplaceOrder demo_shrink)).

(** Any other admissible replace loses priority: the old order leaves its
    queue, and a new order with a fresh exchange order id meets the contra
    side like any aggressive order, its remainder resting behind every order
    of its price or better. *)
Lemma replace_loses_priority universe expected cmds e evs0 cmd e' evs s o :
  history universe expected cmds e evs0 -> command_ok (spec_run (sp_new universe) cmds).1 (CmdReplaceOrder cmd) ->
  let i := roc_instrument_id cmd in
  let k := (roc_account_id cmd, roc_original_client_order_id cmd) in
  o ∈ side_orders e i s -> bo_key o = k -> 0 < roc_new_price cmd -> 0 < roc_new_quantity cmd ->
  (roc_new_price cmd <> bo_price o \/ bo_remaining_quantity o < roc_new_quantity cmd) ->
  process e (CmdReplaceOrder cmd) = Some (e', evs) ->
  exists evs1, evs = replaced cmd (me_next_exchange_order_id e) (me_next_event_sequence e)
                     :: book_removed i o (u64 (me_next_event_sequence e + 1)) :: evs1 /\
    trade_volume evs1 =
      Z.min (roc_new_quantity cmd) (resting_liquidity s (roc_new_price cmd) (side_orders e i (contra_side s))) /\
    (let left := roc_new_quantity cmd - trade_volume evs1 in
     if left =? 0 then side_orders e' i s = without_key k (side_orders e i s)
     else exists o', bo_exchange_order_id o' = me_next_exchange_order_id e /\ bo_remaining_quantity o' = left /\
            bo_price o' = roc_new_price cmd /\ bo_key o' = (roc_account_id cmd, roc_new_client_order_id cmd) /\
            side_orders e' i s = insert_order s o' (without_key k (side_orders e i s))).
Proof.
  intros Hh Hc i k Hin Hkey Hp0 Hq Hne Hp. pose proof (reached_wf _ _ _ _ _ Hh) as W.
  pose proof (reached_refines _ _ _ _ _ Hh) as R. pose proof (proj1 Hc) as Hi. fold i in Hi.
  pose proof (next_refines _ _ _ _ _ Hh _ Hc _ _ Hp) as (W' & R' & He).
  pose proof (next_orders _ _ _ _ _ Hh _ Hc _ _ Hp) as Ho.
  pose proof (reached_orders _ _ _ _ _ Hh) as Ho0. set (st := (spec_run (sp_new universe) cmds).1) in *.
  rewrite Ho0 in Hin by done. apply list_elem_of_fmap in Hin as (r & -> & Hin).
  pose proof (find_order_in e st W R i s r Hi Hin) as Hf. change (ero_key r = k) in Hkey. rewrite Hkey in Hf.
  pose proof (live_is_known st i s r Hi Hin) as Hk.
  destruct (side_entry e st W R i s r Hi Hin) as (h & o' & Hio & Heq & Hs).
  assert (Hsr : ero_side r = s) by (by rewrite Heq).
  assert (Htif : ero_time_in_force r = GTC) by (rewrite Heq; apply (ew_order _ W i s (h, o') Hi Hio)).
  destruct (spec_replace_cancel_new st cmd r Hk Hf Hp0 Hq Hne) as (st1 & x & evs1 & E & Hevs & Hside & Hk1 & Hx).
  assert (Hcon : sp_side st1 i (contra_side s) = sp_side st i (contra_side s)).
  { rewrite Hside. unfold spec_drop. rewrite Hsr. apply sp_side_set_ne. }
  apply spec_match_then_rest_matched in E; subst x; cbn [ero_instrument_id ero_side ero_remaining_quantity] in *;
    rewrite ?Hsr; fold i; rewrite ?Hcon;
    [|done|lia|by apply (sp_side_positive e st W R)|by apply (sp_side_sorted e st W R)].
  destruct E as [Hv _ _ _ _ _ _ Hown _].
  cbn [ero_instrument_id ero_side ero_remaining_quantity ero_price ero_time_in_force] in Hv, Hown.
  rewrite Hsr in Hv, Hown. fold i in Hv, Hown. rewrite Hcon in Hv. rewrite Htif in Hown.
  assert (Hdrop : sp_side st1 i s = drop_key k (sp_side st i s)).
  { rewrite Hside. unfold spec_drop. rewrite Hsr, Hkey. by apply sp_side_set_eq. }
  rewrite Hdrop in Hown. cbn [spec_process] in *. exists evs1. split; [|split].
  - rewrite He, Hevs. by rewrite (rf_seq _ _ R), (rf_xid _ _ R).
  - rewrite Ho0, resting_liquidity_spec by done. exact Hv.
  - cbn zeta. rewrite Ho, Ho0, Hown by done. cbn [bool_decide decide decide_rel andb].
    destruct (_ =? 0); cbn [negb]; [symmetry; apply without_key_spec|].
    rewrite without_key_spec. eexists (book_order_of _). split; [|split; [|split; [|split; [|symmetry; apply insert_order_spec]]]];
      try done. cbn. by rewrite (rf_xid _ _ R).
Qed.

Definition demo_reprice : ReplaceOrderCommand := demo_replace 1 1 11 104 5.
Definition demo_reprice_run := default (demo_engine, []) (process demo_engine (CmdReplaceOrder demo_reprice)).
(** C20: a replace either keeps its place or loses it.  At the order's price
    and no larger quantity the order stays where it is in its queue, under
    its old exchange order id, with the new client order id and quantity;
    nothing else moves and nothing trades.  Any other admissible replace
    takes the old order out of its queue, and a new order with a fresh
    exchange order id meets the contra side like any aggressive order, its
    remainder resting behind every order of its price or better. *)
Theorem replace_exact universe expected cmds e evs0 cmd e' evs s o :
  history universe expected cmds e evs0 -> command_ok (spec_run (sp_new universe) cmds).1 (CmdReplaceOrder cmd) ->
  let i := roc_instrument_id cmd in
  let k := (roc_account_id cmd, roc_original_client_order_id cmd) in
  o ∈ side_orders e i s -> bo_key o = k -> 0 < roc_new_price cmd -> 0 < roc_new_quantity cmd ->
  process e (CmdReplaceOrder cmd) = Some (e', evs) ->
  if (roc_new_price cmd =? bo_price o) && (roc_new_quantity cmd <=? bo_remaining_quantity o)
  then
    evs = [replaced cmd (bo_exchange_order_id o) (me_next_event_sequence e);
           book_reduced i o (roc_new_quantity cmd) (u64 (me_next_event_sequence e + 1))] /\
    side_orders e' i s = amend_order k (roc_new_client_order_id cmd) (roc_new_quantity cmd) (side_orders e i s) /\
    (forall j s', 0 <= j -> (j <> i \/ s' <> s) -> side_orders e' j s' = side_orders e j s')
  else
    exists evs1, evs = replaced cmd (me_next_exchange_order_id e) (me_next_event_sequence e)
                       :: book_removed i o (u64 (me_next_event_sequence e + 1)) :: evs1 /\
      trade_volume evs1 =
        Z.min (roc_new_quantity cmd) (resting_liquidity s (roc_new_price cmd) (side_orders e i (contra_side s))) /\
      (let left := roc_new_quantity cmd - trade_volume evs1 in
       if left =? 0 then side_orders e' i s = without_key k (side_orders e i s)
       else exists o', bo_exchange_order_id o' = me_next_exchange_order_id e /\ bo_remaining_quantity o' = left /\
              bo_price o' = roc_new_price cmd /\ bo_key o' = (roc_account_id cmd, roc_new_client_order_id cmd) /\
              side_orders e' i s = insert_order s o' (without_key k (side_orders e i s))).
Proof.
  intros Hh Hc i k Hin Hk Hp0 Hq Hp. destruct (_ && _) eqn:E.
  - apply andb_true_iff in E as [E1%Z.eqb_eq E2%Z.leb_le].
    exact (replace_keeps_priority universe expected cmds e evs0 cmd e' evs s o Hh Hc Hin Hk E1 Hp0 (conj Hq E2) Hp).
  - apply (replace_loses_priority universe expected cmds e evs0 cmd e' evs s o Hh Hc Hin Hk Hp0 Hq); [|exact Hp].
    apply andb_false_iff in E as [E%Z.eqb_neq|E%Z.leb_gt]; [by left|by right].
Qed.
Lemma replace_exact_witness :
  (side_orders demo_shrink_run.1 7 Buy = amend_order (1, 1) 11 3 (side_orders demo_engine 7 Buy) /\
   bo_exchange_order_id <$> side_orders demo_shrink_run.1 7 Buy = [1; 4]) /\
  exists evs1, trade_volume evs1 = Z.min 5 (resting_liquidity Buy 104 (side_orders demo_engine 7 Sell)) /\ trade_volume evs1 = 2.
Proof.
  assert (Ho : exists o l, side_orders demo_engine 7 Buy = o :: l /\ bo_key o = (1, 1) /\ bo_price o = 100 /\
    bo_remaining_quantity o = 5) by (eexists _, _; split; [vm_compute; reflexivity|done]).
  destruct Ho as (o & l & Ho & Hk & Hp & Hq).
  assert (Hin : o ∈ side_orders demo_engine 7 Buy) by (rewrite Ho; apply list_elem_of_here). split.
  - assert (Hok : command_ok demo_state (CmdReplaceOrder demo_shrink)) by (unfold command_ok; solve_ok).
    split; [|vm_compute; reflexivity].
    assert (Hrun : process demo_engine (CmdReplaceOrder demo_shrink) = Some (demo_shrink_run.1, demo_shrink_run.2))
      by (vm_compute; reflexivity).
    pose proof (replace_exact [7] 0 demo demo_engine (demo_run demo).2 demo_shrink demo_shrink_run.1 demo_shrink_run.2 Buy o
      demo_history Hok Hin Hk eq_refl eq_refl Hrun) as H. rewrite Hp, Hq in H. exact (proj1 (proj2 H)).
  - assert (Hok : command_ok demo_state (CmdReplaceOrder demo_reprice)) by (unfold command_ok; solve_ok).
    assert (Hrun : process demo_engine (CmdReplaceOrder demo_reprice) = Some (demo_reprice_run.1, demo_reprice_run.2))
      by (vm_compute; reflexivity).
    pose proof (replace_exact [7] 0 demo demo_engine (demo_run demo).2 demo_reprice demo_reprice_run.1 demo_reprice_run.2 Buy o
      demo_history Hok Hin Hk eq_refl eq_refl Hrun) as H. rewrite Hp, Hq in H. destruct H as (evs1 & _ & Hv & _).
    exists evs1. split; [exact Hv|]. rewrite Hv. vm_compute. reflexivity.
Defined.

(** ** Rejections, registration *)

(** Registration succeeds exactly for a fresh id in range, adds that one
    instrument with an empty book, and leaves every resting order of every
    other instrument where it was and reachable. *)
Lemma register_adds_one universe expected cmds e evs id : history universe expected cmds e evs -> 0 <= id ->
  let e' := (register_instrument e id).2 in
  (register_instrument e id).1 = (id <=? kMaxInstrumentId) && negb (knows_instrument e id) /\
  engine_wf e' /\
  (forall i, 0 <= i -> knows_instrument e' i =
     ((register_instrument e id).1 && bool_decide (i = id)) || knows_instrument e i) /\
  (forall i s, 0 <= i -> side_orders e' i s = side_orders e i s).
Proof.
  intros Hh Hid e'. destruct (history_refines _ _ _ _ _ Hh) as (W & R & _).
  destruct (register_refines e _ id W R Hid) as (_ & W' & R'). fold e' in W', R'.
  assert (Hret : (register_instrument e id).1 = (id <=? kMaxInstrumentId) && negb (knows_instrument e id)).
  { unfold register_instrument. destruct (knows_instrument e id); cbn [negb]; rewrite ?orb_true_r, ?orb_false_r, ?andb_false_r, ?andb_true_r; [done|].
    rewrite (Z.leb_antisym kMaxInstrumentId id). by destruct (kMaxInstrumentId <? id). }
  split; [done|]. split; [done|]. rewrite Hret.
  destruct ((id <=? kMaxInstrumentId) && negb (knows_instrument e id)) eqn:E.
  - apply andb_true_iff in E as [Hmax Hnew%negb_true_iff]. assert (Hr : 0 <= id <= kMaxInstrumentId) by lia. split.
    + intros i Hi. cbn [andb]. by apply (register_known e W id Hr Hnew).
    + intros i s Hi. unfold side_orders. destruct (decide (i = id)) as [->|Hne].
      * destruct (register_book_new e W id Hr Hnew) as (band & Hband & Hb). fold e' in Hb. rewrite Hb.
        destruct (book_for e id) eqn:Hb'; [apply (book_for_Some e (ew_registry _ W) id) in Hb' as (_ & _ & _ & _ & ?); [congruence|done]|].
        destruct (law_new (me_expected_orders_per_book e) band Hband) as [Wn Hv].
        pose proof (law_all_of (bk_new (me_expected_orders_per_book e) band) s Wn) as Ha. rewrite Hv in Ha.
        cbn in Ha |- *. by rewrite Ha.
      * unfold e'. by rewrite (register_book_old e W id Hr Hnew).
  - assert (He : e' = e); [|by rewrite He].
    unfold e', register_instrument. apply andb_false_iff in E as [E|E%negb_false_iff].
    + rewrite Z.leb_antisym in E. apply negb_false_iff in E. by rewrite E.
    + rewrite E. by rewrite orb_true_r.
Qed.

Lemma register_adds_one_witness : (register_instrument demo_engine 3).1 = true /\
  side_orders (register_instrument demo_engine 3).2 7 Buy = side_orders demo_engine 7 Buy.
Proof.
  destruct (register_adds_one [7] 0 demo demo_engine (demo_run demo).2 3 demo_history ltac:(lia)) as (H1 & _ & _ & H4).
  split; [rewrite H1; vm_compute; reflexivity|]. apply H4. lia.
Defined.

(** ** A replace onto a live client order id *)
Section Orphan.
(** Entries under other handles survive an operation on handle [h]. *)
Lemma other_kept (v v' : Side -> list entry) s h f s' h' o' : side_update v v' s (update_handle h f (v s)) ->
  (h', o') ∈ v s' -> h' <> h -> (h', o') ∈ v' s'.
Proof.
  intros [Hs Hc] Hin Hne. destruct (decide (s' = s)) as [->|Hd].
  - rewrite Hs. unfold update_handle. apply list_elem_of_fmap. exists (h', o'). cbn. by rewrite decide_False.
  - assert (s' = contra_side s) as -> by (by destruct s, s'). by rewrite Hc.
Qed.
Lemma other_left (v v' : Side -> list entry) s h s' h' o' : side_update v v' s (remove_handle h (v s)) ->
  (h', o') ∈ v s' -> h' <> h -> (h', o') ∈ v' s'.
Proof.
  intros [Hs Hc] Hin Hne. destruct (decide (s' = s)) as [->|Hd].
  - rewrite Hs. unfold remove_handle. apply list_elem_of_filter. by split.
  - assert (s' = contra_side s) as -> by (by destruct s, s'). by rewrite Hc.
Qed.
Lemma this_updated (v v' : Side -> list entry) s h f o : side_update v v' s (update_handle h f (v s)) ->
  (h, o) ∈ v s -> (h, f o) ∈ v' s.
Proof. intros [-> _] Hin. unfold update_handle. apply list_elem_of_fmap. exists (h, o). cbn. by rewrite decide_True. Qed.
Lemma side_orders_book e i s b : book_for e i = Some b -> book_wf b -> side_orders e i s = (book_view b s).*2.
Proof. intros Hb W. unfold side_orders. rewrite Hb. pose proof (law_all_of b s W) as Ha. cbn in Ha |- *. by rewrite Ha. Qed.
Lemma registry_with_orders (e : MatchingEngine MatchingBook) m n : registry_wf e -> registry_wf (me_with_orders e m n).
Proof. by intros []. Qed.
Lemma registry_bump (e : MatchingEngine MatchingBook) : registry_wf e -> registry_wf (bump_event_sequence e).
Proof. by intros []. Qed.
(** An order without its directory entry makes the snapshot throw. *)
Lemma orphan_snapshot (e : MatchingEngine MatchingBook) i s b o : registry_wf e -> 0 <= i -> book_for e i = Some b -> book_wf b ->
  o ∈ (book_view b s).*2 -> me_orders e !! bo_key o = None -> snapshot e = None.
Proof.
  intros G Hi Hb W Ho Hk. destruct (book_for_Some e G i b Hi Hb) as (n & _ & Hin & Hn & _). unfold snapshot.
  assert (Hm : mapM (fun o => compose e o i) (book_view b s).*2 = None).
  { apply eq_None_not_Some. intros [l Hl%mapM_Some]. apply list_elem_of_lookup in Ho as [k Hok].
    apply Forall2_lookup_l with (1 := Hl) in Hok as (y & _ & E). unfold compose in E. unfold bo_key in Hk. by rewrite Hk in E. }
  assert (Hs : snapshot_from e (me_by_id e) = None); [|by rewrite Hs].
  induction (me_by_id e) as [|[i' n'] ids IH]; [by apply elem_of_nil in Hin|]. cbn [snapshot_from].
  destruct (decide ((i', n') = (i, n))) as [[= -> ->]|Hne].
  - rewrite Hn. pose proof (law_all_of b Buy W) as H1. pose proof (law_all_of b Sell W) as H2. cbn in H1, H2 |- *. rewrite H1, H2.
    destruct s; rewrite Hm; by repeat case_match.
  - apply elem_of_cons in Hin as [E|Hin]; [congruence|]. rewrite (IH Hin). by repeat case_match.
Qed.
(** The replace, then the cancel, on the concrete engine. *)
Context (e : MatchingEngine MatchingBook) (W : engine_wf e) (i : InstrumentId) (Hi : 0 <= i) (s : Side) (h : Z) (o : BookOrder)
  (Hin : (h, o) ∈ iview e i s).
Lemma replace_onto (cmd : ReplaceOrderCommand) : roc_instrument_id cmd = i ->
  (roc_account_id cmd, roc_original_client_order_id cmd) = bo_key o -> roc_new_price cmd = bo_price o ->
  0 < roc_new_quantity cmd <= bo_remaining_quantity o ->
  exists e1 evs1 b b1 ref, process e (CmdReplaceOrder cmd) = Some (e1, evs1) /\ ~ is_rejection evs1 /\ registry_wf e1 /\
    book_for e i = Some b /\ book_for e1 i = Some b1 /\ book_wf b1 /\ ref_instrument_id ref = i /\ ref_handle ref = h /\
    me_orders e1 = <[(bo_account_id o, roc_new_client_order_id cmd) := ref]> (delete (bo_key o) (me_orders e)) /\
    (h, bo_set_client_order_id (bo_set_remaining o (roc_new_quantity cmd)) (roc_new_client_order_id cmd)) ∈ book_view b1 s /\
    (forall s' h' o', (h', o') ∈ book_view b s' -> h' <> h -> (h', o') ∈ book_view b1 s') /\
    (forall j, 0 <= j -> j <> i -> book_for e1 j = book_for e j).
Proof using W Hi Hin.
  intros Hci Hkey Hp Hq. destruct (dw_entry _ _ (ew_dir _ W) _ _ _ _ Hi Hin) as (ref & Hr & Hh & Hri).
  pose proof Hin as Hv. unfold iview in Hv. destruct (book_for e i) as [b|] eqn:Hb; [|by apply elem_of_nil in Hv].
  pose proof (ew_book _ W _ b Hi Hb) as Wb. destruct (book_for_Some e (ew_registry _ W) i b Hi Hb) as (_ & _ & _ & _ & Hk).
  destruct (law_reduce_at b s h o (roc_new_quantity cmd) Wb Hv) as (b0 & E0 & W0 & U0).
  pose proof (this_updated _ _ _ _ _ _ U0 Hv) as Hv0.
  destruct (law_set_client_order_id_at b0 s h _ (roc_new_client_order_id cmd) W0 Hv0) as (b1 & E1 & W1 & U1).
  pose proof (this_updated _ _ _ _ _ _ U1 Hv0) as Hv1.
  destruct (store_book_spec e (ew_registry _ W) i b b1 Hi Hb) as (e' & Est & Hb' & Hoth & [bs ->] & G' & _).
  destruct (law_entry b s (h, o) Wb Hv) as [_ Hprice]. unfold entry_price in Hprice. cbn in Hprice. unfold price_ok in Hprice.
  eexists _, _, b, b1, ref. split.
  { cbn [process]. unfold process_replace. rewrite Hci, Hk, Hkey, Hr, Hri, Hp, !Z.eqb_refl. cbn [negb andb].
    rewrite (proj2 (Z.leb_gt _ _)), (proj2 (Z.eqb_neq _ _)), Hb by lia. cbn [orb].
    pose proof (law_at b s h o Wb Hv) as Hat. cbn in Hat, E0, E1 |- *. rewrite Hh, Hat, (proj2 (Z.leb_le _ _)) by lia. rewrite Z.eqb_refl.
    cbn [andb]. unfold replace_in_place. cbn. rewrite Hh, E0, E1, Hci, Est. reflexivity. }
  split; [by intros [? [=]]|]. split; [by do 2 apply registry_bump; apply registry_with_orders|].
  do 2 (split; [done|]). split; [done|]. do 2 (split; [done|]).
  injection Hkey as Ha Hc. split; [cbn; by rewrite Ha, Hc|]. split; [exact Hv1|]. split; [|exact Hoth].
  intros s' h' o' Hin' Hne. eapply other_kept; [exact U1| |done]. by eapply other_kept.
Qed.
End Orphan.
Lemma cancel_onto (e : MatchingEngine MatchingBook) i s h o b ref cmd : registry_wf e -> 0 <= i -> book_for e i = Some b -> book_wf b ->
  (h, o) ∈ book_view b s -> coc_instrument_id cmd = i -> me_orders e !! (coc_account_id cmd, coc_client_order_id cmd) = Some ref ->
  ref_instrument_id ref = i -> ref_handle ref = h ->
  exists e2 gone cancelled b2, process e (CmdCancelOrder cmd) = Some (e2, [EvOrderCancelled cancelled; gone]) /\ registry_wf e2 /\
    ocn_exchange_order_id cancelled = bo_exchange_order_id o /\
    book_for e2 i = Some b2 /\ book_wf b2 /\
    me_orders e2 = delete (coc_account_id cmd, coc_client_order_id cmd) (me_orders e) /\
    (forall s' h' o', (h', o') ∈ book_view b s' -> h' <> h -> (h', o') ∈ book_view b2 s') /\
    (forall j, 0 <= j -> j <> i -> book_for e2 j = book_for e j) /\
    (forall j, knows_instrument e2 j = knows_instrument e j).
Proof.
  intros G Hi Hb Wb Hv Hci Hr Hri Hh. destruct (book_for_Some e G i b Hi Hb) as (_ & _ & _ & _ & Hk).
  set (key := (coc_account_id cmd, coc_client_order_id cmd)) in *.
  set (e0 := me_with_orders e (delete key (me_orders e)) (u64 (me_resting_orders e - 1))).
  pose proof (law_remove_at b s h o Wb Hv) as (b2 & E2 & W2 & U2).
  destruct (store_book_spec (B := MatchingBook) e0 (registry_with_orders e _ _ G) i b b2 Hi Hb) as (e' & Est & Hb' & Hoth & [bs ->] & G' & Hkn).
  eexists _, _, _, b2. split.
  { cbn [process]. unfold process_cancel. fold key. rewrite Hci, Hk, Hr, Hri, Z.eqb_refl. cbn [negb]. fold e0.
    change (book_for e0 i) with (book_for e i). rewrite Hb, Hh. cbn in E2 |- *. rewrite E2, Est. reflexivity. }
  split; [by do 2 apply registry_bump|]. split; [done|]. split; [exact Hb'|]. split; [done|]. split; [done|].
  split; [|split; [exact Hoth|exact Hkn]]. intros s' h' o' Hin' Hne. by eapply other_left.
Qed.

(** C39: process_replace does not check that the new client order id is free.
    After any admissible history, take any two resting orders of one account,
    on any instruments and sides, and replace the first, at its price and no
    larger quantity, onto the second's client order id; then cancel that id.
    Both commands succeed; the cancel takes the first order; and the second
    still rests as it was but the directory no longer holds it: every cancel
    of it is rejected with UnknownOrderId, and taking a snapshot throws. *)
Theorem replace_onto_live_id_orphans universe expected cmds e evs i s o j s' o' replace cancel :
  history universe expected cmds e evs -> 0 <= i -> 0 <= j -> o ∈ side_orders e i s -> o' ∈ side_orders e j s' ->
  bo_account_id o = bo_account_id o' -> bo_client_order_id o <> bo_client_order_id o' ->
  (roc_account_id replace, roc_original_client_order_id replace) = bo_key o ->
  roc_new_client_order_id replace = bo_client_order_id o' -> roc_instrument_id replace = i ->
  roc_new_price replace = bo_price o -> 0 < roc_new_quantity replace <= bo_remaining_quantity o ->
  (coc_account_id cancel, coc_client_order_id cancel) = bo_key o' -> coc_instrument_id cancel = i ->
  exists e1 evs1 e2 cancelled gone, process e (CmdReplaceOrder replace) = Some (e1, evs1) /\ ~ is_rejection evs1 /\
    process e1 (CmdCancelOrder cancel) = Some (e2, [EvOrderCancelled cancelled; gone]) /\
    ocn_exchange_order_id cancelled = bo_exchange_order_id o /\
    o' ∈ side_orders e2 j s' /\ me_orders e2 !! bo_key o' = None /\ snapshot e2 = None /\
    forall again, (coc_account_id again, coc_client_order_id again) = bo_key o' -> coc_instrument_id again = j ->
      exists r, process e2 (CmdCancelOrder again) = Some (bump_event_sequence e2, [EvOrderRejected r]) /\
        orj_reason r = RejectReason.UnknownOrderId.
Proof.
  intros Hh Hi Hj Ho Ho' Hacc Hid Hkey Hnew Hci Hp Hq Hckey Hcci. destruct (history_refines _ _ _ _ _ Hh) as (W & _).
  assert (Hview : forall k t x, 0 <= k -> x ∈ side_orders e k t -> exists h, (h, x) ∈ iview e k t).
  { intros k t x Hk Hx. unfold iview. destruct (book_for e k) as [b|] eqn:Hb; [|unfold side_orders in Hx; rewrite Hb in Hx; by apply elem_of_nil in Hx].
    rewrite (side_orders_book e k t b Hb (ew_book _ W _ _ Hk Hb)) in Hx. apply list_elem_of_fmap in Hx as ([h y] & -> & Hx). by exists h. }
  destruct (Hview i s o Hi Ho) as [h Hin]. destruct (Hview j s' o' Hj Ho') as [h' Hin'].
  assert (Hdiff : j = i -> h' <> h).
  { intros -> ->. by destruct (entry_unique _ _ (ew_dir _ W) i s s' h o o' Hi Hin Hin') as [_ ->]. }
  destruct (replace_onto e W i Hi s h o Hin replace Hci Hkey Hp Hq) as
    (e1 & evs1 & b & b1 & ref & E1 & Hrej & G1 & Hb & Hb1 & W1 & Hri & Hrh & Hm1 & Hv1 & Hkeep1 & Hoth1).
  assert (Hk' : bo_key o' = (bo_account_id o, roc_new_client_order_id replace)) by (unfold bo_key; by rewrite Hacc, Hnew).
  destruct (cancel_onto e1 i s h _ b1 ref cancel G1 Hi Hb1 W1 Hv1 Hcci) as
    (e2 & gone & cancelled & b2 & E2 & G2 & Hx & Hb2 & W2 & Hm2 & Hkeep2 & Hoth2 & Hkn2); [by rewrite Hckey, Hk', Hm1, lookup_insert_eq|done..|].
  assert (Hgone : me_orders e2 !! bo_key o' = None) by (rewrite Hm2, Hckey; apply lookup_delete_eq).
  assert (Hbook : exists bj, book_for e2 j = Some bj /\ book_wf bj /\ (h', o') ∈ book_view bj s').
  { unfold iview in Hin, Hin'. destruct (decide (j = i)) as [->|Hne].
    - exists b2. rewrite Hb in Hin'. split; [done|]. split; [done|]. apply Hkeep2; [apply Hkeep1; [done|]|]; by apply Hdiff.
    - destruct (book_for e j) as [bj|] eqn:Hbj; [|by apply elem_of_nil in Hin']. exists bj.
      rewrite Hoth2, Hoth1 by done. split; [done|]. split; [by apply (ew_book _ W j)|done]. }
  destruct Hbook as (bj & Hbj & Wj & Hvj).
  assert (Hoj : o' ∈ (book_view bj s').*2) by (apply list_elem_of_fmap; by exists (h', o')).
  exists e1, evs1, e2, cancelled, gone. split; [done|]. split; [done|]. split; [done|]. split; [exact Hx|].
  split; [by rewrite (side_orders_book e2 j s' bj)|]. split; [done|]. split; [by apply (orphan_snapshot e2 j s' bj o')|].
  intros again Hak Haj. destruct (book_for_Some e2 G2 j bj Hj Hbj) as (_ & _ & _ & _ & Hk).
  eexists. split; [cbn [process]; unfold process_cancel; rewrite Haj, Hk, Hak, Hgone; reflexivity|reflexivity].
Qed.
(** Orders 1 and 2 of one account, 1 replaced by 2 and 2 cancelled; what is
    left can still trade. *)
Definition pair : list ExchangeCommand := [demo_new 1 1 Buy 100 5 GTC; demo_new 1 2 Buy 99 7 GTC].
Definition pair_engine : MatchingEngine MatchingBook := (demo_run pair).1.
Definition resting_at (k : nat) : BookOrder :=
  default {| bo_exchange_order_id := 0; bo_client_order_id := 0; bo_account_id := 0; bo_price := 0; bo_remaining_quantity := 0;
             bo_side := Buy; bo_time_in_force := GTC |} (side_orders pair_engine 7 Buy !! k).
Lemma replace_onto_live_id_orphans_witness : exists e1 evs1 e2 cancelled gone,
  process pair_engine (CmdReplaceOrder (demo_replace 1 1 2 100 4)) = Some (e1, evs1) /\
  process e1 (CmdCancelOrder (demo_cancel 1 2)) = Some (e2, [EvOrderCancelled cancelled; gone]) /\
  resting_at 1 ∈ side_orders e2 7 Buy /\ snapshot e2 = None.
Proof.
  destruct (replace_onto_live_id_orphans [7] 0 pair pair_engine (demo_run pair).2 7 Buy (resting_at 0) 7 Buy (resting_at 1)
    (demo_replace 1 1 2 100 4) (demo_cancel 1 2)) as (e1 & evs1 & e2 & cancelled & gone & E1 & _ & E2 & _ & Hrest & _ & Hs & _).
  - split; [repeat constructor; lia|]. split; [|vm_compute; reflexivity]. unfold pair. cbn [run_ok]. unfold command_ok, demo_new. solve_ok.
  - lia.
  - lia.
  - apply (list_elem_of_lookup_2 _ 0%nat). vm_compute. reflexivity.
  - apply (list_elem_of_lookup_2 _ 1%nat). vm_compute. reflexivity.
  - vm_compute. reflexivity.
  - vm_compute. discriminate.
  - vm_compute. reflexivity.
  - vm_compute. reflexivity.
  - reflexivity.
  - vm_compute. reflexivity.
  - split; [reflexivity|vm_compute; discriminate].
  - vm_compute. reflexivity.
  - reflexivity.
  - exists e1, evs1, e2, cancelled, gone. split; [exact E1|]. split; [exact E2|]. split; [exact Hrest|exact Hs].
Defined.
Example orphan_trades : exists e1 evs1 e2 evs2 e3 evs3,
  process pair_engine (CmdReplaceOrder (demo_replace 1 1 2 100 4)) = Some (e1, evs1) /\
  process e1 (CmdCancelOrder (demo_cancel 1 2)) = Some (e2, evs2) /\
  process e2 (demo_new 5 1 Sell 99 7 GTC) = Some (e3, evs3) /\ trade_volume evs3 = 7.
Proof. do 6 eexists. split; [vm_compute; reflexivity|]. split; [vm_compute; reflexivity|]. split; vm_compute; reflexivity. Qed.
