(* ===== verification/MapSums.v ===== *)
(** * Sums over finite maps

    [msum f m] adds [f k v] over the entries of a map; [add_at] credits one
    key of a map of amounts.  The ledger's reservations and balances are
    stated with them. *)
From S2P Require Import Prelude.

(** ** Ring operations under the wrap-around *)
Lemma s64_add_idemp_l a b : s64 (s64 a + b) = s64 (a + b).
Proof. unfold s64. rewrite <- (Z.mod_add (a + b + two63) (-((a + two63) / two64)) two64) by lia. f_equal. f_equal.
  rewrite (Z.mod_eq (a + two63)) by lia. lia. Qed.
Lemma s64_add_idemp_r a b : s64 (a + s64 b) = s64 (a + b).
Proof. by rewrite Z.add_comm, s64_add_idemp_l, Z.add_comm. Qed.
Lemma s64_mul_idemp_l a b : s64 (s64 a * b) = s64 (a * b).
Proof. unfold s64. rewrite <- (Z.mod_add (a * b + two63) (-((a + two63) / two64) * b) two64) by lia. f_equal. f_equal.
  rewrite (Z.mod_eq (a + two63)) by lia. lia. Qed.
Lemma s64_mul_idemp_r a b : s64 (a * s64 b) = s64 (a * b).
Proof. by rewrite Z.mul_comm, s64_mul_idemp_l, Z.mul_comm. Qed.
Lemma s64_sub_idemp_l a b : s64 (s64 a - b) = s64 (a - b).
Proof. apply (s64_add_idemp_l a (- b)). Qed.
Lemma s64_sub_idemp_r a b : s64 (a - s64 b) = s64 (a - b).
Proof.
  replace (a - s64 b) with (a + s64 b * -1) by lia. rewrite <- s64_add_idemp_r, s64_mul_idemp_l, s64_add_idemp_r.
  f_equal. lia.
Qed.
Lemma s64_idemp a : s64 (s64 a) = s64 a.
Proof. apply s64_small, s64_range. Qed.
Lemma u64_idemp a : u64 (u64 a) = u64 a.
Proof. apply u64_small, u64_range. Qed.
Lemma u64_sub_idemp_l a b : u64 (u64 a - b) = u64 (a - b).
Proof. unfold u64. apply Zminus_mod_idemp_l. Qed.
Lemma u64_sub_idemp_r a b : u64 (a - u64 b) = u64 (a - b).
Proof. unfold u64. apply Zminus_mod_idemp_r. Qed.
#[export] Hint Rewrite s64_add_idemp_l s64_add_idemp_r s64_mul_idemp_l s64_mul_idemp_r s64_sub_idemp_l
  s64_sub_idemp_r s64_idemp u64_idemp u64_sub_idemp_l u64_sub_idemp_r : mdh.

(** Two amounts with the same wrapped value: [wrap64] normalises both sides. *)
Ltac wrap64 := autorewrite with mdh; try (f_equal; lia).

(** ** Sums *)
Section Sums.
Context `{Countable K} {V : Type}.
Implicit Types (f : K -> V -> Z) (m : gmap K V).

Definition msum (f : K -> V -> Z) (m : gmap K V) : Z := map_fold (fun k v n => f k v + n) 0 m.

Lemma msum_empty f : msum f ∅ = 0.
Proof. done. Qed.
Lemma msum_insert_new f m k v : m !! k = None -> msum f (<[k := v]> m) = f k v + msum f m.
Proof. intros Hk. refine (map_fold_insert_L (fun k v n => f k v + n) 0 k v m _ Hk). intros. lia. Qed.
Lemma msum_delete f m k v : m !! k = Some v -> msum f (delete k m) = msum f m - f k v.
Proof.
  intros Hk. rewrite <- (insert_delete_id m k v Hk) at 2.
  rewrite msum_insert_new; [lia|]. apply lookup_delete_eq.
Qed.
Lemma msum_insert f m k v v0 : m !! k = Some v0 -> msum f (<[k := v]> m) = msum f m - f k v0 + f k v.
Proof.
  intros Hk. rewrite <- insert_delete_eq, msum_insert_new by apply lookup_delete_eq.
  rewrite (msum_delete f m k v0 Hk). lia.
Qed.
Lemma msum_nonneg f m : (forall k v, m !! k = Some v -> 0 <= f k v) -> 0 <= msum f m.
Proof.
  induction m as [|k v m Hk IH] using map_ind; intros Hf; [done|].
  rewrite msum_insert_new by done. pose proof (Hf k v (lookup_insert_eq _ _ _)).
  assert (0 <= msum f m); [|lia]. apply IH. intros k' v' Hk'. apply Hf.
  rewrite lookup_insert_ne; [done|]. congruence.
Qed.
(** One entry is at most the sum. *)
Lemma msum_entry f m k v : (forall k v, m !! k = Some v -> 0 <= f k v) -> m !! k = Some v -> f k v <= msum f m.
Proof.
  intros Hf Hk. assert (Hd : 0 <= msum f (delete k m)); [|rewrite (msum_delete f m k v Hk) in Hd; lia].
  apply msum_nonneg. intros k' v' [_ Hk']%lookup_delete_Some. by apply Hf.
Qed.
Lemma msum_zero f m : (forall k v, m !! k = Some v -> f k v = 0) -> msum f m = 0.
Proof.
  induction m as [|k v m Hk IH] using map_ind; intros Hf; [done|].
  rewrite msum_insert_new by done. rewrite (Hf k v (lookup_insert_eq _ _ _)), IH; [done|].
  intros k' v' Hk'. apply (Hf k'). rewrite lookup_insert_ne; [done|]. congruence.
Qed.
End Sums.

(** ** Amounts per key *)
Section Amounts.
Context `{Countable K}.
Implicit Types (m : gmap K Z).

Definition amount (m : gmap K Z) (k : K) : Z := default 0 (m !! k).
Definition add_at (k : K) (d : Z) (m : gmap K Z) : gmap K Z := <[k := amount m k + d]> m.
Definition total (m : gmap K Z) : Z := msum (fun _ v => v) m.

Lemma amount_add_at k d m k' : amount (add_at k d m) k' = amount m k' + if decide (k' = k) then d else 0.
Proof.
  unfold amount at 1, add_at. destruct (decide (k' = k)) as [->|Hne]; [by rewrite lookup_insert_eq|].
  rewrite lookup_insert_ne by done. unfold amount. lia.
Qed.
Lemma total_add_at k d m : total (add_at k d m) = total m + d.
Proof.
  unfold total, add_at, amount. destruct (m !! k) as [v|] eqn:E; cbn.
  - rewrite (msum_insert _ _ _ _ v E). lia.
  - rewrite msum_insert_new by done. lia.
Qed.
Lemma amount_le_total m k : (forall k, 0 <= amount m k) -> amount m k <= total m.
Proof.
  intros Hm. unfold amount at 1. unfold total.
  assert (Hnn : forall k v, m !! k = Some v -> 0 <= v).
  { intros k' v Hk. specialize (Hm k'). unfold amount in Hm. by rewrite Hk in Hm. }
  destruct (m !! k) as [v|] eqn:E; cbn; [by apply (msum_entry (fun _ v => v) m k v)|].
  by apply msum_nonneg.
Qed.
End Amounts.

(** The same amounts kept in two maps have the same sum. *)
Lemma msum_total `{Countable K} {V} (f : V -> Z) (m1 : gmap K V) : forall m2 : gmap K Z,
  (forall k, default 0 (f <$> m1 !! k) = amount m2 k) -> msum (fun _ v => f v) m1 = total m2.
Proof.
  induction m1 as [|k v m1 Hk IH] using map_ind; intros m2 Hm.
  - symmetry. apply msum_zero. intros k v Hv. specialize (Hm k). unfold amount in Hm. by rewrite Hv in Hm.
  - rewrite msum_insert_new by done. rewrite (IH (delete k m2)).
    + pose proof (Hm k) as Hv. rewrite lookup_insert_eq in Hv. cbn in Hv. unfold total, amount in *.
      destruct (m2 !! k) as [w|] eqn:Ew; cbn in Hv.
      * rewrite (msum_delete _ m2 k w Ew). lia.
      * rewrite delete_id by done. lia.
    + intros k'. specialize (Hm k'). unfold amount in *. destruct (decide (k' = k)) as [->|Hne].
      * by rewrite Hk, lookup_delete_eq.
      * rewrite lookup_delete_ne by done. by rewrite lookup_insert_ne in Hm by done.
Qed.
