(* ===== verification/Ledger.v ===== *)
(** * Ledger: include/exchange/ledger/ledger.hpp, src/exchange/ledger/ledger.cpp

    The account ledger: cash and positions per account, and one hold per
    resting GTC order.  [Balance] is [std::int64_t] and [Quantity] is
    [std::uint64_t]; every sum and product below is written at its width.
    A C++ [operator[]] on the position maps default-inserts a zero, so each
    update writes [default 0]. *)
From S2P Require Import Prelude Types MatchingEngine MapSums.

Abbreviation Balance := Z (only parsing).

Record AccountBalances := {
  cash_total : Balance;
  cash_reserved : Balance;
  position_total : gmap InstrumentId Quantity;
  position_reserved : gmap InstrumentId Quantity;
}.
Definition AccountBalances_zero : AccountBalances :=
  {| cash_total := 0; cash_reserved := 0; position_total := ∅; position_reserved := ∅ |}.

Record Hold := {
  h_instrument_id : InstrumentId;
  h_side : Side;
  h_limit_price : Price;
  h_remaining : Quantity;
}.

Record HoldView := {
  hv_instrument_id : InstrumentId;
  hv_side : Side;
  hv_limit_price : Price;
  hv_remaining : Quantity;
}.

(** [HoldKey] is (account_id, client_order_id). *)
Abbreviation HoldKey := (AccountId * ClientOrderId)%type (only parsing).

Record Ledger := {
  lg_accounts : gmap AccountId AccountBalances;
  lg_holds : gmap HoldKey Hold;
  lg_account_count : Z;
  lg_hold_count : Z;
}.
Definition Ledger_new : Ledger :=
  {| lg_accounts := ∅; lg_holds := ∅; lg_account_count := 0; lg_hold_count := 0 |}.

(** ** Stores *)
Definition lg_with_accounts (lg : Ledger) (m : gmap AccountId AccountBalances) (n : Z) : Ledger :=
  {| lg_accounts := m; lg_holds := lg_holds lg; lg_account_count := n; lg_hold_count := lg_hold_count lg |}.
Definition lg_with_holds (lg : Ledger) (m : gmap HoldKey Hold) (n : Z) : Ledger :=
  {| lg_accounts := lg_accounts lg; lg_holds := m; lg_account_count := lg_account_count lg; lg_hold_count := n |}.

(** [account_ref]: [try_emplace] and a reference to the entry. *)
Definition account_ref (lg : Ledger) (account_id : AccountId) : Ledger * AccountBalances :=
  match lg_accounts lg !! account_id with
  | Some b => (lg, b)
  | None => (lg_with_accounts lg (<[account_id := AccountBalances_zero]> (lg_accounts lg))
               (u64 (lg_account_count lg + 1)), AccountBalances_zero)
  end.
(** A write through the reference. *)
Definition store_account (lg : Ledger) (account_id : AccountId) (b : AccountBalances) : Ledger :=
  lg_with_accounts lg (<[account_id := b]> (lg_accounts lg)) (lg_account_count lg).
Definition with_account (lg : Ledger) (account_id : AccountId) (f : AccountBalances -> AccountBalances) : Ledger :=
  let '(lg, b) := account_ref lg account_id in store_account lg account_id (f b).

(** [+=] and [-=] on the four fields. *)
Definition cash_total_add (d : Balance) (b : AccountBalances) : AccountBalances :=
  {| cash_total := s64 (cash_total b + d); cash_reserved := cash_reserved b;
     position_total := position_total b; position_reserved := position_reserved b |}.
Definition cash_reserved_add (d : Balance) (b : AccountBalances) : AccountBalances :=
  {| cash_total := cash_total b; cash_reserved := s64 (cash_reserved b + d);
     position_total := position_total b; position_reserved := position_reserved b |}.
Definition slot_add (i : InstrumentId) (d : Z) (m : gmap InstrumentId Quantity) : gmap InstrumentId Quantity :=
  <[i := u64 (default 0 (m !! i) + d)]> m.
Definition position_total_add (i : InstrumentId) (d : Z) (b : AccountBalances) : AccountBalances :=
  {| cash_total := cash_total b; cash_reserved := cash_reserved b;
     position_total := slot_add i d (position_total b); position_reserved := position_reserved b |}.
Definition position_reserved_add (i : InstrumentId) (d : Z) (b : AccountBalances) : AccountBalances :=
  {| cash_total := cash_total b; cash_reserved := cash_reserved b;
     position_total := position_total b; position_reserved := slot_add i d (position_reserved b) |}.

(** [static_cast<Balance>(quantity) * price]. *)
Definition notional (quantity : Quantity) (price : Price) : Balance := s64 (s64 quantity * price).

(** ** Seeding *)
Definition deposit_cash (lg : Ledger) (account_id : AccountId) (amount : Balance) : Ledger :=
  with_account lg account_id (cash_total_add amount).
Definition deposit_position (lg : Ledger) (account_id : AccountId) (instrument_id : InstrumentId)
    (amount : Quantity) : Ledger :=
  with_account lg account_id (position_total_add instrument_id amount).

(** ** Reads *)
Definition available_cash (lg : Ledger) (account_id : AccountId) : Balance :=
  match lg_accounts lg !! account_id with
  | None => 0
  | Some b => s64 (cash_total b - cash_reserved b)
  end.
Definition available_position (lg : Ledger) (account_id : AccountId) (instrument_id : InstrumentId) : Quantity :=
  match lg_accounts lg !! account_id with
  | None => 0
  | Some b => u64 (default 0 (position_total b !! instrument_id) - default 0 (position_reserved b !! instrument_id))
  end.
Definition balances (lg : Ledger) (account_id : AccountId) : AccountBalances :=
  default AccountBalances_zero (lg_accounts lg !! account_id).
Definition find_hold (lg : Ledger) (account_id : AccountId) (client_order_id : ClientOrderId) : option HoldView :=
  (fun h => {| hv_instrument_id := h_instrument_id h; hv_side := h_side h;
               hv_limit_price := h_limit_price h; hv_remaining := h_remaining h |})
  <$> lg_holds lg !! (account_id, client_order_id).

(** ** Holds *)
Definition open_hold (lg : Ledger) (account_id : AccountId) (client_order_id : ClientOrderId)
    (instrument_id : InstrumentId) (side : Side) (limit_price : Price) (quantity : Quantity) : Ledger :=
  if quantity =? 0 then lg
  else
    let lg := with_account lg account_id
      (match side with
       | Buy => cash_reserved_add (notional quantity limit_price)
       | Sell => position_reserved_add instrument_id quantity
       end) in
    let key := (account_id, client_order_id) in
    let hold := {| h_instrument_id := instrument_id; h_side := side;
                   h_limit_price := limit_price; h_remaining := quantity |} in
    let inserted := match lg_holds lg !! key with None => true | Some _ => false end in
    lg_with_holds lg (<[key := hold]> (lg_holds lg))
      (if inserted then u64 (lg_hold_count lg + 1) else lg_hold_count lg).

Definition release_hold_fully (lg : Ledger) (account_id : AccountId) (hold : Hold) : Ledger :=
  if h_remaining hold =? 0 then lg
  else
    with_account lg account_id
      (match h_side hold with
       | Buy => cash_reserved_add (- notional (h_remaining hold) (h_limit_price hold))
       | Sell => position_reserved_add (h_instrument_id hold) (- h_remaining hold)
       end).

Definition erase_hold (lg : Ledger) (key : HoldKey) : Ledger :=
  lg_with_holds lg (delete key (lg_holds lg)) (u64 (lg_hold_count lg - 1)).

Definition h_set_remaining (h : Hold) (q : Quantity) : Hold :=
  {| h_instrument_id := h_instrument_id h; h_side := h_side h; h_limit_price := h_limit_price h; h_remaining := q |}.

(** ** Settlement *)
Definition settle_leg (lg : Ledger) (leg : TradeCounterparty) (side : Side) (instrument_id : InstrumentId)
    (trade_price : Price) (trade_quantity : Quantity) : Ledger :=
  let account_id := tcp_account_id leg in
  let key := (account_id, tcp_client_order_id leg) in
  let lg := (account_ref lg account_id).1 in
  let lg :=
    match lg_holds lg !! key with
    | None => lg
    | Some hold =>
        let lg := with_account lg account_id
          (match side with
           | Buy => cash_reserved_add (- notional trade_quantity (h_limit_price hold))
           | Sell => position_reserved_add instrument_id (- trade_quantity)
           end) in
        let hold := h_set_remaining hold (tcp_remaining_quantity leg) in
        let lg := lg_with_holds lg (<[key := hold]> (lg_holds lg)) (lg_hold_count lg) in
        if h_remaining hold =? 0 then erase_hold lg key else lg
    end in
  with_account lg account_id
    (match side with
     | Buy => fun b => position_total_add instrument_id trade_quantity
                         (cash_total_add (- notional trade_quantity trade_price) b)
     | Sell => fun b => position_total_add instrument_id (- trade_quantity)
                          (cash_total_add (notional trade_quantity trade_price) b)
     end).

(** ** Events *)
Definition on_order_accepted (lg : Ledger) (ev : OrderAccepted) : Ledger :=
  if negb (bool_decide (oa_time_in_force ev = GTC)) then lg
  else open_hold lg (oa_account_id ev) (oa_client_order_id ev) (oa_instrument_id ev) (oa_side ev)
         (oa_price ev) (oa_quantity ev).

Definition on_order_replaced (lg : Ledger) (ev : OrderReplaced) : Ledger :=
  let key := (orp_account_id ev, orp_original_client_order_id ev) in
  match lg_holds lg !! key with
  | None => lg
  | Some old_hold =>
      let lg := release_hold_fully lg (orp_account_id ev) old_hold in
      let lg := erase_hold lg key in
      open_hold lg (orp_account_id ev) (orp_new_client_order_id ev) (orp_instrument_id ev) (h_side old_hold)
        (orp_new_price ev) (orp_new_quantity ev)
  end.

Definition on_order_cancelled (lg : Ledger) (ev : OrderCancelled) : Ledger :=
  let key := (ocn_account_id ev, ocn_client_order_id ev) in
  match lg_holds lg !! key with
  | None => lg
  | Some hold => erase_hold (release_hold_fully lg (ocn_account_id ev) hold) key
  end.

Definition on_trade_executed (lg : Ledger) (ev : TradeExecuted) : Ledger :=
  let lg := settle_leg lg (te_buyer ev) Buy (te_instrument_id ev) (te_price ev) (te_quantity ev) in
  settle_leg lg (te_seller ev) Sell (te_instrument_id ev) (te_price ev) (te_quantity ev).

Definition apply (lg : Ledger) (event : ExchangeEvent) : Ledger :=
  match event with
  | EvOrderAccepted ev => on_order_accepted lg ev
  | EvOrderReplaced ev => on_order_replaced lg ev
  | EvOrderCancelled ev => on_order_cancelled lg ev
  | EvTradeExecuted ev => on_trade_executed lg ev
  | EvOrderRejected _ | EvBookOrderAdded _ | EvBookOrderReduced _ | EvBookOrderRemoved _ => lg
  end.
Definition apply_all (lg : Ledger) (events : list ExchangeEvent) : Ledger := foldl apply lg events.
