(* ===== verification/LedgerSpec.v ===== *)
(** * What the ledger accounts for

    The ledger as mathematics: unbounded amounts of cash and units, and the
    map of open holds; what is reserved is not stored but is the sum of the
    holds.  [tracks] relates the concrete ledger, whose fields are 64-bit,
    to it, and [apply_tracks] is the simulation of one event. *)
From S2P Require Import Prelude Types MatchingEngine MapSums Ledger.

(** ** State *)
Record SpecLedger := {
  sl_cash : gmap AccountId Z;
  sl_units : gmap (AccountId * InstrumentId) Z;
  sl_holds : gmap HoldKey Hold;
}.
Definition sl_with_holds (sl : SpecLedger) (m : gmap HoldKey Hold) : SpecLedger :=
  {| sl_cash := sl_cash sl; sl_units := sl_units sl; sl_holds := m |}.

Definition buy_value (h : Hold) : Z := match h_side h with Buy => h_remaining h * h_limit_price h | Sell => 0 end.
Definition sell_value (h : Hold) (i : InstrumentId) : Z :=
  match h_side h with Buy => 0 | Sell => if decide (i = h_instrument_id h) then h_remaining h else 0 end.
Definition reserved_cash (m : gmap HoldKey Hold) (a : AccountId) : Z :=
  msum (fun k h => if decide (a = k.1) then buy_value h else 0) m.
Definition reserved_units (m : gmap HoldKey Hold) (a : AccountId) (i : InstrumentId) : Z :=
  msum (fun k h => if decide (a = k.1) then sell_value h i else 0) m.
Definition free_cash (sl : SpecLedger) (a : AccountId) : Z := amount (sl_cash sl) a - reserved_cash (sl_holds sl) a.
Definition free_units (sl : SpecLedger) (a : AccountId) (i : InstrumentId) : Z :=
  amount (sl_units sl) (a, i) - reserved_units (sl_holds sl) a i.

(** ** Events *)
Definition open_entry (m : gmap HoldKey Hold) (k : HoldKey) (h : Hold) : gmap HoldKey Hold :=
  if h_remaining h =? 0 then m else <[k := h]> m.
Definition leg_key (leg : TradeCounterparty) : HoldKey := (tcp_account_id leg, tcp_client_order_id leg).
Definition leg_holds (m : gmap HoldKey Hold) (leg : TradeCounterparty) : gmap HoldKey Hold :=
  match m !! leg_key leg with
  | None => m
  | Some h => if tcp_remaining_quantity leg =? 0 then delete (leg_key leg) m
              else <[leg_key leg := h_set_remaining h (tcp_remaining_quantity leg)]> m
  end.
Definition side_sign (s : Side) : Z := match s with Buy => 1 | Sell => -1 end.
Definition sl_leg (sl : SpecLedger) (leg : TradeCounterparty) (side : Side) (i : InstrumentId) (price qty : Z) : SpecLedger :=
  {| sl_cash := add_at (tcp_account_id leg) (- side_sign side * (qty * price)) (sl_cash sl);
     sl_units := add_at (tcp_account_id leg, i) (side_sign side * qty) (sl_units sl);
     sl_holds := leg_holds (sl_holds sl) leg |}.

(** The holds do not depend on the balances. *)
Definition holds_apply (m : gmap HoldKey Hold) (ev : ExchangeEvent) : gmap HoldKey Hold :=
  match ev with
  | EvOrderAccepted ev =>
      if negb (bool_decide (oa_time_in_force ev = GTC)) then m
      else open_entry m (oa_account_id ev, oa_client_order_id ev)
             {| h_instrument_id := oa_instrument_id ev; h_side := oa_side ev; h_limit_price := oa_price ev;
                h_remaining := oa_quantity ev |}
  | EvOrderReplaced ev =>
      let k := (orp_account_id ev, orp_original_client_order_id ev) in
      match m !! k with
      | None => m
      | Some h => open_entry (delete k m) (orp_account_id ev, orp_new_client_order_id ev)
                    {| h_instrument_id := orp_instrument_id ev; h_side := h_side h;
                       h_limit_price := orp_new_price ev; h_remaining := orp_new_quantity ev |}
      end
  | EvOrderCancelled ev => delete (ocn_account_id ev, ocn_client_order_id ev) m
  | EvTradeExecuted ev => leg_holds (leg_holds m (te_buyer ev)) (te_seller ev)
  | _ => m
  end.
Definition sl_apply (sl : SpecLedger) (ev : ExchangeEvent) : SpecLedger :=
  match ev with
  | EvTradeExecuted ev =>
      sl_leg (sl_leg sl (te_buyer ev) Buy (te_instrument_id ev) (te_price ev) (te_quantity ev))
        (te_seller ev) Sell (te_instrument_id ev) (te_price ev) (te_quantity ev)
  | _ => sl_with_holds sl (holds_apply (sl_holds sl) ev)
  end.
Definition sl_deposit_cash (sl : SpecLedger) (a : AccountId) (d : Z) : SpecLedger :=
  {| sl_cash := add_at a d (sl_cash sl); sl_units := sl_units sl; sl_holds := sl_holds sl |}.
Definition sl_deposit_units (sl : SpecLedger) (a : AccountId) (i : InstrumentId) (d : Z) : SpecLedger :=
  {| sl_cash := sl_cash sl; sl_units := add_at (a, i) d (sl_units sl); sl_holds := sl_holds sl |}.

(** What an event must say for the ledger to follow it: a hold is opened for
    a positive quantity and over no other, a replaced order is held, a
    trade's resting leg is held and each leg reports what its hold has left. *)
Definition aggressor_leg (ev : TradeExecuted) : TradeCounterparty :=
  match te_aggressor_side ev with Buy => te_buyer ev | Sell => te_seller ev end.
Definition resting_leg (ev : TradeExecuted) : TradeCounterparty :=
  match te_aggressor_side ev with Buy => te_seller ev | Sell => te_buyer ev end.
Definition leg_fits (m : gmap HoldKey Hold) (leg : TradeCounterparty) (side : Side) (i : InstrumentId) (qty : Z) : Prop :=
  forall h, m !! leg_key leg = Some h ->
    h_side h = side /\ h_instrument_id h = i /\ h_remaining h = qty + tcp_remaining_quantity leg.
Definition event_fits (m : gmap HoldKey Hold) (ev : ExchangeEvent) : Prop :=
  match ev with
  | EvOrderAccepted ev => 0 < oa_quantity ev /\
      (oa_time_in_force ev = GTC -> m !! (oa_account_id ev, oa_client_order_id ev) = None)
  | EvOrderReplaced ev => 0 < orp_new_quantity ev /\
      (exists h, m !! (orp_account_id ev, orp_original_client_order_id ev) = Some h /\
        h_instrument_id h = orp_instrument_id ev) /\
      (orp_new_client_order_id ev = orp_original_client_order_id ev \/
       m !! (orp_account_id ev, orp_new_client_order_id ev) = None)
  | EvTradeExecuted ev =>
      leg_fits m (te_buyer ev) Buy (te_instrument_id ev) (te_quantity ev) /\
      leg_fits m (te_seller ev) Sell (te_instrument_id ev) (te_quantity ev) /\
      leg_key (te_buyer ev) <> leg_key (te_seller ev) /\ is_Some (m !! leg_key (resting_leg ev))
  | _ => True
  end.

(** ** The sums under changes of the holds *)
Lemma reserved_cash_insert m k h a : m !! k = None ->
  reserved_cash (<[k := h]> m) a = reserved_cash m a + (if decide (a = k.1) then buy_value h else 0).
Proof. intros Hk. unfold reserved_cash. rewrite msum_insert_new by done. lia. Qed.
Lemma reserved_cash_delete m k h a : m !! k = Some h ->
  reserved_cash (delete k m) a = reserved_cash m a + (if decide (a = k.1) then - buy_value h else 0).
Proof. intros Hk. unfold reserved_cash. rewrite (msum_delete _ _ _ h) by done. case_decide; lia. Qed.
Lemma reserved_cash_update m k h0 h a : m !! k = Some h0 ->
  reserved_cash (<[k := h]> m) a = reserved_cash m a + (if decide (a = k.1) then buy_value h - buy_value h0 else 0).
Proof. intros Hk. unfold reserved_cash. rewrite (msum_insert _ _ _ _ h0) by done. case_decide; lia. Qed.
Lemma reserved_units_insert m k h a i : m !! k = None ->
  reserved_units (<[k := h]> m) a i = reserved_units m a i + (if decide (a = k.1) then sell_value h i else 0).
Proof. intros Hk. unfold reserved_units. rewrite msum_insert_new by done. lia. Qed.
Lemma reserved_units_delete m k h a i : m !! k = Some h ->
  reserved_units (delete k m) a i = reserved_units m a i + (if decide (a = k.1) then - sell_value h i else 0).
Proof. intros Hk. unfold reserved_units. rewrite (msum_delete _ _ _ h) by done. case_decide; lia. Qed.
Lemma reserved_units_update m k h0 h a i : m !! k = Some h0 ->
  reserved_units (<[k := h]> m) a i = reserved_units m a i + (if decide (a = k.1) then sell_value h i - sell_value h0 i else 0).
Proof. intros Hk. unfold reserved_units. rewrite (msum_insert _ _ _ _ h0) by done. case_decide; lia. Qed.

(** ** The concrete fields *)
Definition units_total (lg : Ledger) (a : AccountId) (i : InstrumentId) : Z :=
  default 0 (position_total (balances lg a) !! i).
Definition units_reserved (lg : Ledger) (a : AccountId) (i : InstrumentId) : Z :=
  default 0 (position_reserved (balances lg a) !! i).

(** The account fields hold these amounts, as far as 64 bits go. *)
Record fields (lg : Ledger) (ct cr : AccountId -> Z) (ut ur : AccountId -> InstrumentId -> Z) : Prop := {
  fd_cash : forall a, cash_total (balances lg a) = s64 (ct a);
  fd_cash_reserved : forall a, cash_reserved (balances lg a) = s64 (cr a);
  fd_units : forall a i, units_total lg a i = u64 (ut a i);
  fd_units_reserved : forall a i, units_reserved lg a i = u64 (ur a i);
  fd_accounts : lg_account_count lg = u64 (Z.of_nat (size (lg_accounts lg)));
}.
Record tracks (lg : Ledger) (sl : SpecLedger) : Prop := {
  tk_fields : fields lg (amount (sl_cash sl)) (reserved_cash (sl_holds sl))
    (fun a i => amount (sl_units sl) (a, i)) (reserved_units (sl_holds sl));
  tk_holds : lg_holds lg = sl_holds sl;
  tk_hold_count : lg_hold_count lg = u64 (Z.of_nat (size (lg_holds lg)));
}.

Lemma fields_ext lg ct cr ut ur ct' cr' ut' ur' : fields lg ct cr ut ur ->
  (forall a, ct' a = ct a) -> (forall a, cr' a = cr a) -> (forall a i, ut' a i = ut a i) ->
  (forall a i, ur' a i = ur a i) -> fields lg ct' cr' ut' ur'.
Proof. intros [] H1 H2 H3 H4. split; intros; rewrite ?H1, ?H2, ?H3, ?H4; auto. Qed.
Lemma fields_holds lg ct cr ut ur m n : fields lg ct cr ut ur -> fields (lg_with_holds lg m n) ct cr ut ur.
Proof. intros []. by split. Qed.

Lemma balances_with lg a f a' :
  balances (with_account lg a f) a' = if decide (a' = a) then f (balances lg a) else balances lg a'.
Proof.
  unfold with_account, account_ref, balances, store_account. destruct (lg_accounts lg !! a) as [b|] eqn:E; cbn.
  - destruct (decide (a' = a)) as [->|Hne]; [by rewrite lookup_insert_eq|by rewrite lookup_insert_ne].
  - destruct (decide (a' = a)) as [->|Hne]; [by rewrite lookup_insert_eq|by rewrite !lookup_insert_ne].
Qed.
Lemma count_with lg a f : lg_account_count lg = u64 (Z.of_nat (size (lg_accounts lg))) ->
  lg_account_count (with_account lg a f) = u64 (Z.of_nat (size (lg_accounts (with_account lg a f)))).
Proof.
  intros Hc. unfold with_account, account_ref, store_account. destruct (lg_accounts lg !! a) as [b|] eqn:E; cbn.
  - rewrite Hc, map_size_insert, E. done.
  - rewrite insert_insert_eq, map_size_insert, E, Hc. cbn. rewrite u64_add_idemp_l. f_equal. lia.
Qed.
Lemma holds_with lg a f : lg_holds (with_account lg a f) = lg_holds lg.
Proof. unfold with_account, account_ref. by destruct (_ !! _). Qed.
Lemma hold_count_with lg a f : lg_hold_count (with_account lg a f) = lg_hold_count lg.
Proof. unfold with_account, account_ref. by destruct (_ !! _). Qed.
