(* ===== verification/LedgerSim.v ===== *)
(** * The ledger follows its specification

    One lemma per field write, then one per operation, then [apply_tracks]:
    under [event_fits], [Ledger::apply] simulates [sl_apply] event by event,
    and [apply_conserves]: no event creates or destroys cash or units. *)
From S2P Require Import Prelude Types MatchingEngine MapSums Ledger LedgerSpec.

Lemma s64_notional q p : s64 (notional q p) = s64 (q * p).
Proof. unfold notional. by autorewrite with mdh. Qed.
Lemma s64_opp_eq a b : s64 a = s64 b -> s64 (- a) = s64 (- b).
Proof.
  intros Hab. replace (- a) with (a * -1) by lia. replace (- b) with (b * -1) by lia.
  by rewrite <- s64_mul_idemp_l, Hab, s64_mul_idemp_l.
Qed.

(** ** Field writes *)
Section Writes.
Context (lg : Ledger) (ct cr : AccountId -> Z) (ut ur : AccountId -> InstrumentId -> Z) (F : fields lg ct cr ut ur)
  (a : AccountId).

Lemma fields_ref : fields (account_ref lg a).1 ct cr ut ur.
Proof.
  assert (Hb : forall a', balances (account_ref lg a).1 a' = balances lg a').
  { intros a'. unfold account_ref, balances. destruct (lg_accounts lg !! a) eqn:E; [done|]. cbn.
    destruct (decide (a' = a)) as [->|Hne]; [by rewrite lookup_insert_eq, E|by rewrite lookup_insert_ne]. }
  destruct F as [F1 F2 F3 F4 F5]. split; intros; unfold units_total, units_reserved; rewrite ?Hb; try done; try apply F3; try apply F4.
  unfold account_ref. destruct (lg_accounts lg !! a) eqn:E; [done|]. cbn. rewrite map_size_insert, E, F5. cbn.
  rewrite u64_add_idemp_l. f_equal. lia.
Qed.
Lemma fields_cash d d' : s64 d = s64 d' ->
  fields (with_account lg a (cash_total_add d)) (fun a' => ct a' + if decide (a' = a) then d' else 0) cr ut ur.
Proof.
  intros Hd. destruct F as [F1 F2 F3 F4 F5].
  split; intros; unfold units_total, units_reserved in *; rewrite ?balances_with; [..|by apply count_with].
  - case_decide as E; [subst a0|by rewrite F1, Z.add_0_r]. cbn.
    by rewrite F1, <- s64_add_idemp_r, Hd, s64_add_idemp_r, s64_add_idemp_l.
  - case_decide as E; [subst a0|]; apply F2.
  - case_decide as E; [subst a0|]; apply F3.
  - case_decide as E; [subst a0|]; apply F4.
Qed.
Lemma fields_cash_reserved d d' : s64 d = s64 d' ->
  fields (with_account lg a (cash_reserved_add d)) ct (fun a' => cr a' + if decide (a' = a) then d' else 0) ut ur.
Proof.
  intros Hd. destruct F as [F1 F2 F3 F4 F5].
  split; intros; unfold units_total, units_reserved in *; rewrite ?balances_with; [..|by apply count_with].
  - case_decide as E; [subst a0|]; apply F1.
  - case_decide as E; [subst a0|by rewrite F2, Z.add_0_r]. cbn.
    by rewrite F2, <- s64_add_idemp_r, Hd, s64_add_idemp_r, s64_add_idemp_l.
  - case_decide as E; [subst a0|]; apply F3.
  - case_decide as E; [subst a0|]; apply F4.
Qed.
Lemma slot_add_spec i d (m : gmap InstrumentId Quantity) j (g : InstrumentId -> Z) :
  (forall j, default 0 (m !! j) = u64 (g j)) ->
  default 0 (slot_add i d m !! j) = u64 (g j + if decide (j = i) then d else 0).
Proof.
  intros Hg. unfold slot_add. case_decide as E; [subst j|].
  - by rewrite lookup_insert_eq, Hg, u64_add_idemp_l.
  - by rewrite lookup_insert_ne, Hg, Z.add_0_r.
Qed.
Lemma fields_units i d : fields (with_account lg a (position_total_add i d)) ct cr
  (fun a' j => ut a' j + if decide (a' = a) then (if decide (j = i) then d else 0) else 0) ur.
Proof.
  destruct F as [F1 F2 F3 F4 F5].
  split; intros; unfold units_total, units_reserved in *; rewrite ?balances_with; [..|by apply count_with].
  - case_decide as E; [subst a0|]; apply F1.
  - case_decide as E; [subst a0|]; apply F2.
  - case_decide as E; [subst a0; by apply slot_add_spec|by rewrite F3, Z.add_0_r].
  - case_decide as E; [subst a0|]; apply F4.
Qed.
Lemma fields_units_reserved i d : fields (with_account lg a (position_reserved_add i d)) ct cr ut
  (fun a' j => ur a' j + if decide (a' = a) then (if decide (j = i) then d else 0) else 0).
Proof.
  destruct F as [F1 F2 F3 F4 F5].
  split; intros; unfold units_total, units_reserved in *; rewrite ?balances_with; [..|by apply count_with].
  - case_decide as E; [subst a0|]; apply F1.
  - case_decide as E; [subst a0|]; apply F2.
  - case_decide as E; [subst a0|]; apply F3.
  - case_decide as E; [subst a0; by apply slot_add_spec|by rewrite F4, Z.add_0_r].
Qed.

(** A reservation of either kind. *)
Lemma fields_reserve s i q p sgn : sgn = 1 \/ sgn = -1 ->
  fields (with_account lg a (match s with Buy => cash_reserved_add (sgn * notional q p)
                                        | Sell => position_reserved_add i (sgn * q) end))
    ct (fun a' => cr a' + if decide (a' = a) then sgn * match s with Buy => q * p | Sell => 0 end else 0)
    ut (fun a' j => ur a' j + if decide (a' = a)
                    then sgn * match s with Buy => 0 | Sell => if decide (j = i) then q else 0 end else 0).
Proof.
  intros Hs. destruct s.
  - eapply fields_ext; [apply (fields_cash_reserved _ (sgn * (q * p)))|..]; intros; try done.
    + by rewrite <- s64_mul_idemp_r, s64_notional, s64_mul_idemp_r.
    + cbv beta. case_decide; lia.
  - eapply fields_ext; [apply (fields_units_reserved i (sgn * q))|..]; intros; cbv beta; try done; repeat case_decide; lia.
Qed.
End Writes.

Lemma with_account_twice lg a f g : with_account (with_account lg a f) a g = with_account lg a (fun b => g (f b)).
Proof.
  unfold with_account, account_ref, store_account, lg_with_accounts.
  destruct (lg_accounts lg !! a) eqn:E; cbn; rewrite lookup_insert_eq; cbn; by rewrite ?insert_insert_eq.
Qed.

(** ** Operations *)
Lemma size_insert_new (m : gmap HoldKey Hold) k h : m !! k = None -> size (<[k := h]> m) = S (size m).
Proof. intros Hk. by rewrite map_size_insert, Hk. Qed.
Lemma size_delete_live (m : gmap HoldKey Hold) k h : m !! k = Some h -> size m = S (size (delete k m)).
Proof. intros Hk. rewrite <- (insert_delete_id m k h Hk) at 1. apply size_insert_new, lookup_delete_eq. Qed.

Lemma open_hold_tracks lg sl a c i s p q : tracks lg sl -> sl_holds sl !! (a, c) = None ->
  tracks (open_hold lg a c i s p q)
    (sl_with_holds sl (open_entry (sl_holds sl) (a, c)
       {| h_instrument_id := i; h_side := s; h_limit_price := p; h_remaining := q |})).
Proof.
  intros [F Hh Hn] Hk. unfold open_hold, open_entry. cbn [h_remaining].
  destruct (q =? 0) eqn:Hq; [by split|]. set (h := {| h_instrument_id := i |}).
  split; cbn [sl_with_holds sl_cash sl_units sl_holds]; rewrite ?holds_with, ?hold_count_with; cbn; rewrite ?holds_with, Hh, ?Hk, ?hold_count_with; [|done|].
  - apply fields_holds. pose proof (fields_reserve _ _ _ _ _ F a s i q p 1 (or_introl eq_refl)) as Fr.
    rewrite (Z.mul_1_l (notional q p)), (Z.mul_1_l q) in Fr. eapply fields_ext; [exact Fr|..].
    + done.
    + intros a'. rewrite reserved_cash_insert by done. unfold buy_value. destruct s; cbn; case_decide; lia.
    + done.
    + intros a' j. rewrite reserved_units_insert by done. unfold sell_value. destruct s; cbn; repeat case_decide; lia.
  - rewrite size_insert_new by done. rewrite Hn, Hh, u64_add_idemp_l. f_equal. lia.
Qed.

Lemma close_tracks lg sl a c h : tracks lg sl -> sl_holds sl !! (a, c) = Some h ->
  tracks (erase_hold (release_hold_fully lg a h) (a, c)) (sl_with_holds sl (delete (a, c) (sl_holds sl))).
Proof.
  intros [F Hh Hn] Hk.
  assert (Hrel : fields (release_hold_fully lg a h) (amount (sl_cash sl)) (reserved_cash (delete (a, c) (sl_holds sl)))
      (fun a' i => amount (sl_units sl) (a', i)) (reserved_units (delete (a, c) (sl_holds sl))) /\
      lg_holds (release_hold_fully lg a h) = lg_holds lg /\
      lg_hold_count (release_hold_fully lg a h) = lg_hold_count lg).
  { unfold release_hold_fully. destruct (h_remaining h =? 0) eqn:Hz.
    - split; [|done]. eapply fields_ext; [exact F|done| |done|].
      + intros a'. rewrite (reserved_cash_delete _ _ h) by done. unfold buy_value. destruct (h_side h); case_decide; lia.
      + intros a' i. rewrite (reserved_units_delete _ _ h) by done. unfold sell_value. destruct (h_side h); repeat case_decide; lia.
    - rewrite holds_with, hold_count_with. split; [|done].
      pose proof (fields_reserve _ _ _ _ _ F a (h_side h) (h_instrument_id h) (h_remaining h) (h_limit_price h) (-1)
        (or_intror eq_refl)) as Fr.
      replace (-1 * notional (h_remaining h) (h_limit_price h)) with (- notional (h_remaining h) (h_limit_price h)) in Fr by lia.
      replace (-1 * h_remaining h) with (- h_remaining h) in Fr by lia.
      eapply fields_ext; [exact Fr|done| |done|].
      + intros a'. rewrite (reserved_cash_delete _ _ h) by done. unfold buy_value. destruct (h_side h); cbn; case_decide; lia.
      + intros a' i. rewrite (reserved_units_delete _ _ h) by done. unfold sell_value.
        destruct (h_side h); cbn; repeat case_decide; lia. }
  destruct Hrel as (Fr & Hh' & Hn'). split; unfold erase_hold; cbn; rewrite ?Hh', ?Hn', ?Hh; [by apply fields_holds|done|].
  rewrite Hn, Hh, (size_delete_live _ _ h Hk), u64_sub_idemp_l. f_equal. lia.
Qed.

(** The reservation a filled slice was holding, and the hold it leaves. *)
Lemma leg_release_tracks lg sl leg s i qty : tracks lg sl -> leg_fits (sl_holds sl) leg s i qty ->
  let a := tcp_account_id leg in
  forall h, sl_holds sl !! leg_key leg = Some h ->
  let lg1 := with_account lg a (match s with Buy => cash_reserved_add (- notional qty (h_limit_price h))
                                           | Sell => position_reserved_add i (- qty) end) in
  let lg2 := lg_with_holds lg1 (<[leg_key leg := h_set_remaining h (tcp_remaining_quantity leg)]> (lg_holds lg1)) (lg_hold_count lg1) in
  tracks (if tcp_remaining_quantity leg =? 0 then erase_hold lg2 (leg_key leg) else lg2)
    (sl_with_holds sl (leg_holds (sl_holds sl) leg)).
Proof.
  intros [F Hh Hn] Hfit a h Hk lg1 lg2. destruct (Hfit h Hk) as (Hs & Hi & Hr).
  pose proof (fields_reserve _ _ _ _ _ F a s i qty (h_limit_price h) (-1) (or_intror eq_refl)) as Fr.
  replace (-1 * notional qty (h_limit_price h)) with (- notional qty (h_limit_price h)) in Fr by lia.
  replace (-1 * qty) with (- qty) in Fr by lia. fold lg1 in Fr.
  assert (Hh1 : lg_holds lg1 = sl_holds sl) by (unfold lg1; by rewrite holds_with).
  assert (Hn1 : lg_hold_count lg1 = u64 (Z.of_nat (size (sl_holds sl)))) by (unfold lg1; by rewrite hold_count_with, Hn, Hh).
  unfold leg_holds. rewrite Hk. destruct (tcp_remaining_quantity leg =? 0) eqn:Hz;
    split; unfold erase_hold, lg2; cbn [lg_with_holds sl_with_holds lg_holds lg_hold_count sl_cash sl_units sl_holds]; rewrite ?Hh1, ?Hn1.
  - apply fields_holds, fields_holds. eapply fields_ext; [exact Fr|done| |done|].
    + intros a'. rewrite (reserved_cash_delete _ _ h) by done. unfold buy_value. cbn. fold a.
      destruct s; rewrite Hs; case_decide; nia.
    + intros a' j. rewrite (reserved_units_delete _ _ h) by done. unfold sell_value. cbn. fold a.
      destruct s; rewrite Hs, ?Hi; repeat case_decide; lia.
  - by rewrite delete_insert_eq.
  - rewrite delete_insert_eq. rewrite (size_delete_live _ _ h Hk), u64_sub_idemp_l. f_equal. lia.
  - apply fields_holds. eapply fields_ext; [exact Fr|done| |done|].
    + intros a'. rewrite (reserved_cash_update _ _ h) by done. unfold buy_value. cbn. fold a.
      destruct s; rewrite Hs; case_decide; nia.
    + intros a' j. rewrite (reserved_units_update _ _ h) by done. unfold sell_value. cbn. fold a.
      destruct s; rewrite Hs, ?Hi; repeat case_decide; lia.
  - done.
  - rewrite map_size_insert, Hk. done.
Qed.

Lemma settle_leg_tracks lg sl leg s i price qty : tracks lg sl -> leg_fits (sl_holds sl) leg s i qty ->
  tracks (settle_leg lg leg s i price qty) (sl_leg sl leg s i price qty).
Proof.
  intros T Hfit. unfold settle_leg. set (a := tcp_account_id leg). change (a, tcp_client_order_id leg) with (leg_key leg).
  set (lg0 := (account_ref lg a).1).
  assert (T0 : tracks lg0 sl).
  { destruct T as [F Hh Hn]. unfold lg0. split; [by apply fields_ref| |];
      unfold account_ref; by destruct (_ !! a). }
  set (lg1 := match lg_holds lg0 !! leg_key leg with None => lg0 | Some _ => _ end).
  assert (T1 : tracks lg1 (sl_with_holds sl (leg_holds (sl_holds sl) leg))).
  { unfold lg1. rewrite (tk_holds _ _ T0). destruct (sl_holds sl !! leg_key leg) as [h|] eqn:Hk.
    - by apply (leg_release_tracks lg0 sl leg s i qty T0 Hfit h Hk).
    - unfold leg_holds. rewrite Hk. by destruct sl. }
  clearbody lg1. destruct T1 as [F1 Hh1 Hn1]. cbn [sl_with_holds sl_cash sl_units sl_holds] in F1, Hh1. subst a. destruct s.
  - rewrite <- (with_account_twice lg1 (tcp_account_id leg) (cash_total_add (- notional qty price)) (position_total_add i qty)).
    split; cbn [sl_leg sl_cash sl_units sl_holds]; rewrite ?holds_with, ?hold_count_with; [|done|done].
    pose proof (fields_units _ _ _ _ _ (fields_cash _ _ _ _ _ F1 (tcp_account_id leg) (- notional qty price) (- (qty * price))
      (s64_opp_eq _ _ (s64_notional _ _))) (tcp_account_id leg) i qty) as F2.
    eapply fields_ext; [exact F2|..]; intros; cbv beta; [|done| |done]; rewrite amount_add_at; cbn [side_sign].
    + case_decide; lia.
    + repeat case_decide; simplify_eq; try lia; done.
  - rewrite <- (with_account_twice lg1 (tcp_account_id leg) (cash_total_add (notional qty price)) (position_total_add i (- qty))).
    split; cbn [sl_leg sl_cash sl_units sl_holds]; rewrite ?holds_with, ?hold_count_with; [|done|done].
    pose proof (fields_units _ _ _ _ _ (fields_cash _ _ _ _ _ F1 (tcp_account_id leg) (notional qty price) (qty * price)
      (s64_notional _ _)) (tcp_account_id leg) i (- qty)) as F2.
    eapply fields_ext; [exact F2|..]; intros; cbv beta; [|done| |done]; rewrite amount_add_at; cbn [side_sign].
    + case_decide; lia.
    + repeat case_decide; simplify_eq; try lia; done.
Qed.

Lemma leg_holds_ne m leg k : k <> leg_key leg -> leg_holds m leg !! k = m !! k.
Proof.
  intros Hk. unfold leg_holds. destruct (m !! leg_key leg); [|done].
  destruct (_ =? 0); by rewrite ?lookup_delete_ne, ?lookup_insert_ne by done.
Qed.

(** ** One event *)
Lemma apply_tracks lg sl ev : tracks lg sl -> event_fits (sl_holds sl) ev -> tracks (apply lg ev) (sl_apply sl ev).
Proof.
  intros T Hfit. assert (Hsame : sl_with_holds sl (sl_holds sl) = sl) by (by destruct sl).
  destruct ev as [ev|ev|ev|ev|ev|ev|ev|ev]; cbn [apply sl_apply holds_apply]; rewrite ?Hsame; try done.
  - unfold on_order_accepted. cbn in Hfit. destruct (bool_decide _) eqn:E; cbn [negb]; [|by rewrite Hsame].
    apply bool_decide_eq_true in E. by apply open_hold_tracks; [|apply Hfit].
  - unfold on_order_cancelled. rewrite (tk_holds _ _ T). destruct (_ !! _) as [h|] eqn:Hk.
    + by apply close_tracks.
    + by rewrite delete_id, Hsame by done.
  - unfold on_order_replaced. rewrite (tk_holds _ _ T). destruct (_ !! _) as [h|] eqn:Hk; [|by rewrite Hsame].
    pose proof (close_tracks _ _ _ _ h T Hk) as T1.
    eapply (open_hold_tracks _ _ _ (orp_new_client_order_id ev) (orp_instrument_id ev) (h_side h)
      (orp_new_price ev) (orp_new_quantity ev)) in T1; [exact T1|]. cbn [sl_with_holds sl_holds].
    rewrite lookup_delete_None. destruct Hfit as (_ & _ & [->|Hf]); [by left|by right].
  - destruct Hfit as (Hb & Hs & Hne & _). unfold on_trade_executed. apply settle_leg_tracks; [by apply settle_leg_tracks|].
    intros h Hk. cbn [sl_leg sl_holds] in Hk. rewrite leg_holds_ne in Hk by done. by apply Hs.
Qed.

(** ** Conservation, whatever the events say

    No hypothesis on the event stream: an event moves cash and units between
    accounts or in and out of reservations, and the sums over all accounts
    are what they were (as 64-bit amounts). *)

Definition ledger_sum (g : AccountBalances -> Z) (lg : Ledger) : Z := msum (fun _ b => g b) (lg_accounts lg).
Definition ledger_cash (lg : Ledger) : Balance := s64 (ledger_sum cash_total lg).
Definition ledger_units (i : InstrumentId) (lg : Ledger) : Quantity :=
  u64 (ledger_sum (fun b => default 0 (position_total b !! i)) lg).

Section Sum.
Context (g : AccountBalances -> Z) (Hg : g AccountBalances_zero = 0).

Lemma ledger_sum_with lg a f :
  ledger_sum g (with_account lg a f) = ledger_sum g lg - g (balances lg a) + g (f (balances lg a)).
Proof.
  unfold ledger_sum, with_account, account_ref, store_account, balances.
  destruct (lg_accounts lg !! a) as [b|] eqn:E; cbn.
  - by rewrite (msum_insert _ _ _ _ b E).
  - rewrite insert_insert_eq, msum_insert_new by done. lia.
Qed.
Lemma ledger_sum_ref lg a : ledger_sum g (account_ref lg a).1 = ledger_sum g lg.
Proof.
  unfold ledger_sum, account_ref. destruct (lg_accounts lg !! a) as [b|] eqn:E; cbn; [done|].
  rewrite msum_insert_new by done. lia.
Qed.
Lemma ledger_sum_holds lg m n : ledger_sum g (lg_with_holds lg m n) = ledger_sum g lg.
Proof. done. Qed.
Lemma ledger_sum_keep lg a f : (forall b, g (f b) = g b) -> ledger_sum g (with_account lg a f) = ledger_sum g lg.
Proof. intros Hf. rewrite ledger_sum_with, Hf. lia. Qed.

(** Reservations do not touch what [g] reads. *)
Context (Hcr : forall d b, g (cash_reserved_add d b) = g b) (Hur : forall i d b, g (position_reserved_add i d b) = g b).

Lemma open_hold_sum lg a c i s p q : ledger_sum g (open_hold lg a c i s p q) = ledger_sum g lg.
Proof.
  unfold open_hold. destruct (_ =? 0); [done|]. rewrite ledger_sum_holds. apply ledger_sum_keep. intros b. by destruct s.
Qed.
Lemma release_sum lg a h : ledger_sum g (release_hold_fully lg a h) = ledger_sum g lg.
Proof.
  unfold release_hold_fully. destruct (_ =? 0); [done|]. apply ledger_sum_keep. intros b. by destruct (h_side h).
Qed.
Lemma settle_sum lg leg s i p q : exists b,
  ledger_sum g (settle_leg lg leg s i p q) = ledger_sum g lg - g b +
    g (match s with
       | Buy => position_total_add i q (cash_total_add (- notional q p) b)
       | Sell => position_total_add i (- q) (cash_total_add (notional q p) b) end).
Proof.
  unfold settle_leg. set (lg1 := match lg_holds _ !! _ with Some _ => _ | None => _ end).
  assert (H1 : ledger_sum g lg1 = ledger_sum g lg).
  { unfold lg1. destruct (_ !! _) as [h|]; [|apply ledger_sum_ref].
    match goal with |- context [with_account ?l ?a ?f] =>
      pose proof (ledger_sum_keep l a f ltac:(intros b; by destruct s)) as Hk end.
    unfold erase_hold. destruct (_ =? 0); rewrite ?ledger_sum_holds, Hk; apply ledger_sum_ref. }
  exists (balances lg1 (tcp_account_id leg)). rewrite ledger_sum_with, H1. by destruct s.
Qed.
Lemma apply_sum lg ev : match ev with EvTradeExecuted _ => True | _ => ledger_sum g (apply lg ev) = ledger_sum g lg end.
Proof.
  destruct ev; cbn; try done.
  - unfold on_order_accepted. destruct (negb _); [done|]. apply open_hold_sum.
  - unfold on_order_cancelled. destruct (_ !! _); [|done]. unfold erase_hold. rewrite ledger_sum_holds. apply release_sum.
  - unfold on_order_replaced. destruct (_ !! _); [|done]. rewrite open_hold_sum. unfold erase_hold.
    rewrite ledger_sum_holds. apply release_sum.
Qed.
End Sum.

Lemma apply_cash lg ev : ledger_cash (apply lg ev) = ledger_cash lg.
Proof.
  unfold ledger_cash. pose proof (apply_sum cash_total eq_refl (fun _ _ => eq_refl) (fun _ _ _ => eq_refl) lg ev) as Hs.
  destruct ev as [| | | |t| | |]; try by rewrite Hs. cbn. unfold on_trade_executed.
  set (lg1 := settle_leg lg _ _ _ _ _).
  destruct (settle_sum cash_total eq_refl (fun _ _ => eq_refl) (fun _ _ _ => eq_refl) lg1 (te_seller t) Sell
    (te_instrument_id t) (te_price t) (te_quantity t)) as [b2 H2].
  destruct (settle_sum cash_total eq_refl (fun _ _ => eq_refl) (fun _ _ _ => eq_refl) lg (te_buyer t) Buy
    (te_instrument_id t) (te_price t) (te_quantity t)) as [b1 H1]. fold lg1 in H1.
  rewrite H2, H1. cbn [cash_total position_total_add cash_total_add].
  set (n := notional _ _). set (c1 := cash_total b1). set (c2 := cash_total b2). set (S := ledger_sum _ _).
  replace (S - c1 + s64 (c1 + - n) - c2 + s64 (c2 + n)) with (S - c1 - c2 + s64 (c1 + - n) + s64 (c2 + n)) by lia.
  rewrite s64_add_idemp_r. replace (_ + s64 (c1 + - n) + (c2 + n)) with (S - c1 + n + s64 (c1 + - n)) by lia.
  rewrite s64_add_idemp_r. f_equal. lia.
Qed.
Lemma apply_units i lg ev : ledger_units i (apply lg ev) = ledger_units i lg.
Proof.
  unfold ledger_units. set (g := fun b : AccountBalances => default 0 (position_total b !! i)).
  assert (Hg : g AccountBalances_zero = 0) by done.
  pose proof (apply_sum g Hg (fun _ _ => eq_refl) (fun _ _ _ => eq_refl) lg ev) as Hs.
  destruct ev as [| | | |t| | |]; try by rewrite Hs. cbn. unfold on_trade_executed.
  set (lg1 := settle_leg lg _ _ _ _ _).
  destruct (settle_sum g Hg (fun _ _ => eq_refl) (fun _ _ _ => eq_refl) lg1 (te_seller t) Sell
    (te_instrument_id t) (te_price t) (te_quantity t)) as [b2 H2].
  destruct (settle_sum g Hg (fun _ _ => eq_refl) (fun _ _ _ => eq_refl) lg (te_buyer t) Buy
    (te_instrument_id t) (te_price t) (te_quantity t)) as [b1 H1]. fold lg1 in H1.
  rewrite H2, H1. unfold g. cbn [position_total position_total_add cash_total_add]. unfold slot_add.
  destruct (decide (te_instrument_id t = i)) as [->|Hne].
  2: { rewrite !lookup_insert_ne by done. f_equal. lia. }
  rewrite !lookup_insert_eq. cbn [default option_map from_option]. set (q := te_quantity t). unfold id.
  set (c1 := from_option _ _ (position_total b1 !! i)). set (c2 := from_option _ _ (position_total b2 !! i)). set (S := ledger_sum _ _).
  replace (S - c1 + u64 (c1 + q) - c2 + u64 (c2 + - q)) with (S - c1 - c2 + u64 (c1 + q) + u64 (c2 + - q)) by lia.
  rewrite u64_add_idemp_r. replace (_ + u64 (c1 + q) + (c2 + - q)) with (S - c1 - q + u64 (c1 + q)) by lia.
  rewrite u64_add_idemp_r. f_equal. lia.
Qed.
