(* ===== verification/LedgerSolvent.v ===== *)
(** * Solvency

    What is free in an account is what it holds less what its open holds
    reserve.  [solvent]: nobody's free cash or units are negative.  One trade
    keeps it ([trade_step]): the resting side pays out of its hold, and the
    aggressor out of its own hold or out of funds checked beforehand
    ([backed]). *)
From S2P Require Import Prelude Types MatchingEngine EngineSpec MapSums Ledger LedgerSpec LedgerSim.

Definition hold_of (r : ExchangeRestingOrder) : Hold :=
  {| h_instrument_id := ero_instrument_id r; h_side := ero_side r; h_limit_price := ero_price r;
     h_remaining := ero_remaining_quantity r |}.

Record solvent (sl : SpecLedger) : Prop := {
  sv_hold : forall k h, sl_holds sl !! k = Some h -> 0 < h_remaining h /\ 0 < h_limit_price h;
  sv_cash : forall a, 0 <= free_cash sl a;
  sv_units : forall a i, 0 <= free_units sl a i;
}.

Lemma reserved_cash_nonneg m a : (forall k h, m !! k = Some h -> 0 < h_remaining h /\ 0 < h_limit_price h) ->
  0 <= reserved_cash m a.
Proof.
  intros Hm. apply msum_nonneg. intros k h Hk. destruct (Hm k h Hk). unfold buy_value.
  destruct (h_side h); case_decide; nia.
Qed.
Lemma reserved_units_nonneg m a i : (forall k h, m !! k = Some h -> 0 < h_remaining h /\ 0 < h_limit_price h) ->
  0 <= reserved_units m a i.
Proof.
  intros Hm. apply msum_nonneg. intros k h Hk. destruct (Hm k h Hk). unfold sell_value.
  destruct (h_side h); repeat case_decide; lia.
Qed.

(** ** What a leg does to the free amounts *)
Definition leg_gain_cash (m : gmap HoldKey Hold) (leg : TradeCounterparty) (side : Side) (price qty : Z) : Z :=
  match side with
  | Sell => qty * price
  | Buy => match m !! leg_key leg with Some h => qty * (h_limit_price h - price) | None => - (qty * price) end
  end.
Definition leg_gain_units (m : gmap HoldKey Hold) (leg : TradeCounterparty) (side : Side) (qty : Z) : Z :=
  match side with Buy => qty | Sell => match m !! leg_key leg with Some _ => 0 | None => - qty end end.

Lemma reserved_cash_leg m leg side i qty a : leg_fits m leg side i qty ->
  reserved_cash (leg_holds m leg) a = reserved_cash m a +
    (if decide (a = tcp_account_id leg)
     then match side, m !! leg_key leg with Buy, Some h => - (qty * h_limit_price h) | _, _ => 0 end else 0).
Proof.
  intros Hfit. unfold leg_holds. destruct (m !! leg_key leg) as [h|] eqn:Hk.
  2: { destruct side; case_decide; lia. }
  destruct (Hfit h Hk) as (Hs & _ & Hr). destruct (tcp_remaining_quantity leg =? 0) eqn:Hz.
  - rewrite (reserved_cash_delete _ _ h) by done. cbn. unfold buy_value. rewrite Hs. destruct side; case_decide; nia.
  - rewrite (reserved_cash_update _ _ h) by done. cbn. unfold buy_value. cbn. rewrite Hs. destruct side; case_decide; nia.
Qed.
Lemma reserved_units_leg m leg side i qty a j : leg_fits m leg side i qty ->
  reserved_units (leg_holds m leg) a j = reserved_units m a j +
    (if decide ((a, j) = (tcp_account_id leg, i))
     then match side, m !! leg_key leg with Sell, Some _ => - qty | _, _ => 0 end else 0).
Proof.
  intros Hfit. unfold leg_holds. destruct (m !! leg_key leg) as [h|] eqn:Hk.
  2: { destruct side; case_decide; lia. }
  destruct (Hfit h Hk) as (Hs & Hi & Hr). destruct (tcp_remaining_quantity leg =? 0) eqn:Hz.
  - rewrite (reserved_units_delete _ _ h) by done. cbn. unfold sell_value. rewrite Hs, Hi.
    destruct side; repeat case_decide; simplify_eq; try lia; done.
  - rewrite (reserved_units_update _ _ h) by done. cbn. unfold sell_value. cbn. rewrite Hs, Hi.
    destruct side; repeat case_decide; simplify_eq; try lia; done.
Qed.
Lemma free_cash_leg sl leg side i price qty a : leg_fits (sl_holds sl) leg side i qty ->
  free_cash (sl_leg sl leg side i price qty) a = free_cash sl a +
    (if decide (a = tcp_account_id leg) then leg_gain_cash (sl_holds sl) leg side price qty else 0).
Proof.
  intros Hfit. unfold free_cash, sl_leg, leg_gain_cash. cbn [sl_cash sl_holds].
  rewrite amount_add_at, (reserved_cash_leg _ _ side i qty) by done.
  case_decide; destruct side, (sl_holds sl !! leg_key leg); cbn [side_sign]; lia.
Qed.
Lemma free_units_leg sl leg side i price qty a j : leg_fits (sl_holds sl) leg side i qty ->
  free_units (sl_leg sl leg side i price qty) a j = free_units sl a j +
    (if decide ((a, j) = (tcp_account_id leg, i)) then leg_gain_units (sl_holds sl) leg side qty else 0).
Proof.
  intros Hfit. unfold free_units, sl_leg, leg_gain_units. cbn [sl_units sl_holds].
  rewrite amount_add_at, (reserved_units_leg _ _ side i qty) by done.
  case_decide; destruct side, (sl_holds sl !! leg_key leg); cbn [side_sign]; lia.
Qed.

(** A trade conserves cash and units. *)
Lemma sl_apply_total sl ev : total (sl_cash (sl_apply sl ev)) = total (sl_cash sl) /\
  total (sl_units (sl_apply sl ev)) = total (sl_units sl).
Proof. destruct ev; try done. unfold sl_apply, sl_leg. cbn [sl_cash sl_units]. rewrite !total_add_at. cbn [side_sign]. lia. Qed.

(** ** One trade *)
Definition backed (sl : SpecLedger) (x : ExchangeRestingOrder) (rem : Z) : Prop :=
  match sl_holds sl !! ero_key x with
  | Some h => h = hold_of (ero_set_remaining x rem)
  | None => match ero_side x with
            | Buy => rem * ero_price x <= free_cash sl (ero_account_id x)
            | Sell => rem <= free_units sl (ero_account_id x) (ero_instrument_id x)
            end
  end.

(** What one leg leaves of a hold, whichever side it is on. *)
Definition held_after (h : option Hold) (left : Z) : option Hold :=
  match h with None => None | Some h => if left =? 0 then None else Some (h_set_remaining h left) end.
Lemma leg_holds_lookup m leg k :
  leg_holds m leg !! k = if decide (k = leg_key leg) then held_after (m !! k) (tcp_remaining_quantity leg) else m !! k.
Proof.
  case_decide as E; [subst k|by apply leg_holds_ne]. unfold leg_holds, held_after.
  destruct (m !! leg_key leg) eqn:Hk; [|done]. destruct (_ =? 0); [by rewrite lookup_delete_eq|by rewrite lookup_insert_eq].
Qed.

Section Trade.
Context (sl : SpecLedger) (x r : ExchangeRestingOrder) (rem t : Z) (cseq seq : Z).
Let after := ero_remaining_quantity r - t.
Let ev := trade_event x (book_order_of r) cseq t (rem - t) after seq.
Let sl1 := sl_apply sl ev.
Context (Hsol : solvent sl) (Hback : backed sl x rem)
  (Hr : sl_holds sl !! ero_key r = Some (hold_of r)) (Hne : ero_key r <> ero_key x)
  (Hi : ero_instrument_id r = ero_instrument_id x) (Hs : ero_side r = contra_side (ero_side x))
  (Hc : crosses (ero_side x) (ero_price x) (ero_price r) = true)
  (Ht : 0 < t <= rem) (Hta : t <= ero_remaining_quantity r) (Hp : 0 < ero_price x).

Lemma trade_fits : event_fits (sl_holds sl) ev.
Proof.
  assert (Hx : forall h, sl_holds sl !! ero_key x = Some h -> h = hold_of (ero_set_remaining x rem)).
  { intros h Hh. red in Hback. rewrite Hh in Hback. done. }
  unfold ev, trade_event, event_fits, leg_fits, leg_key. cbn.
  assert (Hheld : forall k, k = ero_key r -> is_Some (sl_holds sl !! k)) by (intros k ->; by rewrite Hr).
  destruct (ero_side x) eqn:Es; cbn in *; (split; [|split; [|split; [|by apply Hheld]]]).
  - intros h Hh. rewrite (Hx h Hh). cbn. rewrite Es. split; [done|]. split; [done|]. lia.
  - intros h Hh. change (_, _) with (ero_key r) in Hh. rewrite Hr in Hh. injection Hh as <-. cbn.
    rewrite Hs, Hi. split; [done|]. split; [done|]. unfold after. lia.
  - intros He. apply Hne. unfold ero_key. congruence.
  - intros h Hh. change (_, _) with (ero_key r) in Hh. rewrite Hr in Hh. injection Hh as <-. cbn.
    rewrite Hs, Hi. split; [done|]. split; [done|]. unfold after. lia.
  - intros h Hh. rewrite (Hx h Hh). cbn. rewrite Es. split; [done|]. split; [done|]. lia.
  - intros He. apply Hne. unfold ero_key. congruence.
Qed.

Lemma trade_holds k : sl_holds sl1 !! k =
  if decide (k = ero_key x) then held_after (sl_holds sl !! k) (rem - t)
  else if decide (k = ero_key r) then held_after (sl_holds sl !! k) after else sl_holds sl !! k.
Proof.
  clear - Hne. unfold sl1, ev, trade_event, sl_apply, sl_leg. cbn [sl_holds te_buyer te_seller]. rewrite !leg_holds_lookup.
  destruct (ero_side x); unfold leg_key; cbn; change (ero_account_id x, ero_client_order_id x) with (ero_key x);
    change (ero_account_id r, ero_client_order_id r) with (ero_key r); repeat case_decide; congruence.
Qed.

(** The resting order's price is no worse than the aggressor's limit. *)
Definition limit_gain : Z := match ero_side x with Buy => t * (ero_price x - ero_price r) | Sell => 0 end.
Definition held_x : bool := match sl_holds sl !! ero_key x with Some _ => true | None => false end.

Lemma trade_free_cash a : free_cash sl1 a = free_cash sl a +
  (if decide (a = ero_account_id x)
   then match ero_side x with
        | Buy => if held_x then limit_gain else - (t * ero_price r)
        | Sell => t * ero_price r end else 0) +
  (if decide (a = ero_account_id r)
   then match ero_side x with Buy => t * ero_price r | Sell => 0 end else 0).
Proof.
  destruct trade_fits as (Fb & Fs & Hk & _). unfold sl1, sl_apply. unfold ev in *. unfold trade_event in *.
  cbn [te_buyer te_seller te_instrument_id te_price te_quantity] in *.
  rewrite (free_cash_leg _ _ Sell _ _ t).
  2: { intros h Hh. cbn [sl_leg sl_holds] in Hh. rewrite leg_holds_ne in Hh by done. by apply Fs. }
  rewrite (free_cash_leg _ _ Buy _ _ t) by done. unfold leg_gain_cash, held_x, limit_gain. red in Hback.
  destruct (ero_side x) eqn:Es; unfold leg_key; cbn [tcp_account_id tcp_client_order_id];
    change (ero_account_id x, ero_client_order_id x) with (ero_key x);
    change (bo_account_id (book_order_of r), bo_client_order_id (book_order_of r)) with (ero_key r);
    change (bo_account_id (book_order_of r)) with (ero_account_id r); change (bo_price (book_order_of r)) with (ero_price r).
  - destruct (sl_holds sl !! ero_key x) as [h|]; [subst h; cbn|]; repeat case_decide; lia.
  - rewrite Hr. cbn. repeat case_decide; lia.
Qed.
Lemma trade_free_units a j : free_units sl1 a j = free_units sl a j +
  (if decide ((a, j) = (ero_account_id x, ero_instrument_id x))
   then match ero_side x with Sell => if held_x then 0 else - t | Buy => t end else 0) +
  (if decide ((a, j) = (ero_account_id r, ero_instrument_id x))
   then match ero_side x with Sell => t | Buy => 0 end else 0).
Proof.
  destruct trade_fits as (Fb & Fs & Hk & _). unfold sl1, sl_apply. unfold ev in *. unfold trade_event in *.
  cbn [te_buyer te_seller te_instrument_id te_price te_quantity] in *.
  rewrite (free_units_leg _ _ Sell _ _ t).
  2: { intros h Hh. cbn [sl_leg sl_holds] in Hh. rewrite leg_holds_ne in Hh by done. by apply Fs. }
  rewrite (free_units_leg _ _ Buy _ _ t) by done. unfold leg_gain_units, held_x. cbn [sl_leg sl_holds].
  destruct (ero_side x) eqn:Es; unfold leg_key; cbn [tcp_account_id tcp_client_order_id];
    change (ero_account_id x, ero_client_order_id x) with (ero_key x);
    change (bo_account_id (book_order_of r), bo_client_order_id (book_order_of r)) with (ero_key r);
    change (bo_account_id (book_order_of r)) with (ero_account_id r); rewrite leg_holds_ne by (first [exact Hne|exact (not_eq_sym Hne)]).
  - rewrite Hr. repeat case_decide; lia.
  - destruct (sl_holds sl !! ero_key x); repeat case_decide; lia.
Qed.

Lemma price_r_pos : 0 < ero_price r.
Proof. destruct (sv_hold _ Hsol _ _ Hr) as [_ Hpr]. exact Hpr. Qed.

(** What backs the aggressor when it has no hold. *)
Lemma backed_funds : held_x = false ->
  match ero_side x with
  | Buy => rem * ero_price x <= free_cash sl (ero_account_id x)
  | Sell => rem <= free_units sl (ero_account_id x) (ero_instrument_id x)
  end.
Proof. red in Hback. unfold held_x. destruct (sl_holds sl !! ero_key x); done. Qed.
Lemma slice_cost : ero_side x = Buy ->
  0 <= t * (ero_price x - ero_price r) /\ 0 < t * ero_price r /\ (rem - t) * ero_price x + t * ero_price r <= rem * ero_price x.
Proof. intros Es. pose proof price_r_pos. rewrite Es in Hc. cbn in Hc. apply Z.leb_le in Hc. nia. Qed.

Lemma trade_solvent : solvent sl1.
Proof.
  pose proof price_r_pos as Hpr. split.
  - intros k h. rewrite trade_holds. unfold held_after. intros Hh.
    assert (Hcase : exists h0, sl_holds sl !! k = Some h0 /\ h_limit_price h = h_limit_price h0 /\ 0 < h_remaining h).
    { repeat case_decide; [| |by exists h; split; [|split; [|apply (sv_hold _ Hsol k)]]];
        (destruct (sl_holds sl !! k) as [h0|] eqn:E; [|done]); exists h0;
        (destruct (_ =? 0) eqn:Ez; [done|]); injection Hh as <-; (split; [done|]); (split; [done|]); cbn; unfold after in *; lia. }
    destruct Hcase as (h0 & H0 & -> & Hrem). split; [done|]. apply (sv_hold _ Hsol k h0 H0).
  - intros a. rewrite trade_free_cash. pose proof (sv_cash _ Hsol a). pose proof backed_funds as Hbf.
    pose proof slice_cost as Hsc. unfold limit_gain. destruct (ero_side x) eqn:Es.
    + specialize (Hsc eq_refl). destruct held_x; [repeat case_decide; lia|].
      specialize (Hbf eq_refl). repeat case_decide; subst; nia.
    + repeat case_decide; nia.
  - intros a j. rewrite trade_free_units. pose proof (sv_units _ Hsol a j). pose proof backed_funds as Hbf.
    destruct (ero_side x) eqn:Es; [repeat case_decide; lia|].
    destruct held_x; [repeat case_decide; lia|]. specialize (Hbf eq_refl). repeat case_decide; simplify_eq; lia.
Qed.

Lemma trade_backed : backed sl1 x (rem - t).
Proof.
  unfold backed. rewrite trade_holds, decide_True by done. unfold held_after.
  pose proof backed_funds as Hbf. pose proof slice_cost as Hsc. unfold held_x in Hbf.
  pose proof (sv_cash _ trade_solvent (ero_account_id x)) as Hc1.
  pose proof (sv_units _ trade_solvent (ero_account_id x) (ero_instrument_id x)) as Hu1.
  rewrite trade_free_cash, decide_True in Hc1 by done. rewrite trade_free_units, decide_True in Hu1 by done.
  rewrite trade_free_cash, trade_free_units, !decide_True by done. unfold held_x in *. red in Hback.
  destruct (sl_holds sl !! ero_key x) as [h|] eqn:Hk.
  - destruct (rem - t =? 0) eqn:Hz; [|by subst h]. apply Z.eqb_eq in Hz. rewrite Hz.
    destruct (ero_side x); repeat case_decide; try lia; done.
  - specialize (Hbf eq_refl).
    destruct (ero_side x); [specialize (Hsc eq_refl)|]; repeat case_decide; try lia; done.
Qed.
End Trade.
