(* ===== verification/LedgerMatch.v ===== *)
(** * The ledger along a matching run

    [fill_solvent]: the events of an order's fills keep the ledger solvent,
    keep the order backed for what is left of it, and leave the contra
    side's holds exactly as the contra list is left. *)
From S2P Require Import Prelude Types TickLadder SideIndex PriceQueues MatchingBook BookReads BookSpec MatchingEngine EngineSpec Directory EngineWf EngineRefine EngineMatch EngineProcess EngineRefinement EngineFacts EngineTheorems MapSums Ledger LedgerSpec LedgerSim LedgerSolvent.

(** ** Streams of events *)
Fixpoint stream_fits (m : gmap HoldKey Hold) (evs : list ExchangeEvent) : Prop :=
  match evs with
  | [] => True
  | ev :: evs => event_fits m ev /\ stream_fits (holds_apply m ev) evs
  end.
Definition sl_run (sl : SpecLedger) (evs : list ExchangeEvent) : SpecLedger := foldl sl_apply sl evs.

Lemma sl_apply_holds sl ev : sl_holds (sl_apply sl ev) = holds_apply (sl_holds sl) ev.
Proof. by destruct ev. Qed.
Lemma stream_tracks evs : forall lg sl, tracks lg sl -> stream_fits (sl_holds sl) evs ->
  tracks (apply_all lg evs) (sl_run sl evs).
Proof.
  induction evs as [|ev evs IH]; intros lg sl T Hf; [done|]. destruct Hf as [H1 H2]. cbn.
  apply IH; [by apply apply_tracks|]. by rewrite sl_apply_holds.
Qed.
Lemma stream_fits_app m evs1 evs2 : stream_fits m (evs1 ++ evs2) <->
  stream_fits m evs1 /\ stream_fits (foldl holds_apply m evs1) evs2.
Proof. revert m. induction evs1 as [|ev evs1 IH]; intros m; cbn; [tauto|]. rewrite IH. tauto. Qed.
Lemma sl_run_holds evs : forall sl, sl_holds (sl_run sl evs) = foldl holds_apply (sl_holds sl) evs.
Proof. induction evs as [|ev evs IH]; intros sl; [done|]. cbn. rewrite <- sl_apply_holds. apply IH. Qed.
Lemma sl_run_app evs1 evs2 sl : sl_run sl (evs1 ++ evs2) = sl_run (sl_run sl evs1) evs2.
Proof. apply foldl_app. Qed.
Lemma sl_run_total evs : forall sl, total (sl_cash (sl_run sl evs)) = total (sl_cash sl) /\
  total (sl_units (sl_run sl evs)) = total (sl_units sl).
Proof.
  induction evs as [|ev evs IH]; intros sl; [done|].
  destruct (IH (sl_apply sl ev)) as [H1 H2], (sl_apply_total sl ev) as [H3 H4].
  split; etransitivity; [exact H1|done|exact H2|done].
Qed.
(** Book events carry no account. *)
Lemma sl_apply_book sl ev : match ev with EvBookOrderAdded _ | EvBookOrderReduced _ | EvBookOrderRemoved _
  | EvOrderRejected _ => True | _ => False end -> sl_apply sl ev = sl.
Proof. destruct sl, ev; done. Qed.

Section Fill.
Context (x : ExchangeRestingOrder) (cseq : CommandSequence) (Hp : 0 < ero_price x).

Definition contra_order (sl : SpecLedger) (r : ExchangeRestingOrder) : Prop :=
  sl_holds sl !! ero_key r = Some (hold_of r) /\ ero_key r <> ero_key x /\
  ero_instrument_id r = ero_instrument_id x /\ ero_side r = contra_side (ero_side x) /\ 0 < ero_remaining_quantity r.

Record filled (sl sl' : SpecLedger) (l l' : list ExchangeRestingOrder) (rem' : Quantity) : Prop := {
  fl_solvent : solvent sl';
  fl_backed : backed sl' x rem';
  fl_own : sl_holds sl' !! ero_key x = match sl_holds sl !! ero_key x with
             | None => None
             | Some _ => if rem' =? 0 then None else Some (hold_of (ero_set_remaining x rem'))
             end;
  fl_rest : forall r, r ∈ l' -> sl_holds sl' !! ero_key r = Some (hold_of r);
  fl_keys : forall r, r ∈ l' -> exists r0, r0 ∈ l /\ ero_key r = ero_key r0 /\
    ero_instrument_id r = ero_instrument_id r0 /\ ero_side r = ero_side r0;
  fl_gone : forall k, k ∈ ero_key <$> l -> k ∉ ero_key <$> l' -> sl_holds sl' !! k = None;
  fl_other : forall k, k <> ero_key x -> k ∉ ero_key <$> l -> sl_holds sl' !! k = sl_holds sl !! k;
}.

Lemma filled_stop sl l rem : solvent sl -> backed sl x rem -> 0 <= rem -> Forall (contra_order sl) l ->
  filled sl sl l l rem.
Proof.
  intros Hs Hb Hr Hl. rewrite Forall_forall in Hl. split; try done.
  - unfold backed in Hb. destruct (sl_holds sl !! ero_key x) as [h|] eqn:Hk; [|done]. subst h.
    destruct (sv_hold _ Hs _ _ Hk) as [Hq _]. cbn in Hq. by destruct (rem =? 0) eqn:Hz; [lia|].
  - intros r Hin. apply (Hl r Hin).
  - intros r Hin. by exists r.
Qed.

(** The ledger after the first fill. *)
Section Step.
Context (sl : SpecLedger) (r : ExchangeRestingOrder) (l : list ExchangeRestingOrder) (rem seq : Z).
Let t := Z.min rem (ero_remaining_quantity r).
Let ev := trade_event x (book_order_of r) cseq t (rem - t) (ero_remaining_quantity r - t) seq.
Context (Hs : solvent sl) (Hb : backed sl x rem) (Hr : 0 < rem) (Hr0 : contra_order sl r)
  (Hl : Forall (contra_order sl) l) (Hnd : NoDup (ero_key <$> r :: l))
  (Hc : crosses (ero_side x) (ero_price x) (ero_price r) = true).

Lemma step_holds k : sl_holds (sl_apply sl ev) !! k =
  if decide (k = ero_key x) then held_after (sl_holds sl !! k) (rem - t)
  else if decide (k = ero_key r) then held_after (Some (hold_of r)) (ero_remaining_quantity r - t)
  else sl_holds sl !! k.
Proof.
  destruct Hr0 as (Hh & Hne & Hi & Hsd & Hq). unfold ev.
  rewrite (trade_holds sl x r rem t cseq seq Hne).
  repeat case_decide; subst; by rewrite ?Hh.
Qed.
Lemma step_fits : event_fits (sl_holds sl) ev.
Proof. destruct Hr0 as (Hh & Hne & Hi & Hsd & Hq). by apply trade_fits. Qed.
Lemma step_solvent : solvent (sl_apply sl ev).
Proof. destruct Hr0 as (Hh & Hne & Hi & Hsd & Hq). apply trade_solvent; unfold t; try done; lia. Qed.
Lemma step_backed : backed (sl_apply sl ev) x (rem - t).
Proof. destruct Hr0 as (Hh & Hne & Hi & Hsd & Hq). apply trade_backed; unfold t; try done; lia. Qed.
Lemma step_tail : Forall (contra_order (sl_apply sl ev)) l.
Proof.
  rewrite Forall_forall in Hl |- *. intros r' Hin. destruct (Hl r' Hin) as (Hh & Hne & Hrest).
  split; [|done]. rewrite step_holds, decide_False by done. rewrite decide_False; [done|].
  rewrite fmap_cons in Hnd. apply NoDup_cons in Hnd as [Hnin _]. intros He. apply Hnin. rewrite <- He.
  by apply list_elem_of_fmap_2.
Qed.
Lemma step_own : sl_holds (sl_apply sl ev) !! ero_key x = match sl_holds sl !! ero_key x with
  | None => None
  | Some _ => if rem - t =? 0 then None else Some (hold_of (ero_set_remaining x (rem - t)))
  end.
Proof.
  rewrite step_holds, decide_True by done. unfold held_after. red in Hb.
  destruct (sl_holds sl !! ero_key x); [subst h|done]. by destruct (_ =? 0).
Qed.

(** The contra order is used up and the run goes on. *)
Lemma filled_full l' sl' rem' : ero_remaining_quantity r - t = 0 -> (rem - t = 0 -> rem' = 0) ->
  filled (sl_apply sl ev) sl' l l' rem' -> filled sl sl' (r :: l) l' rem'.
Proof.
  intros Hz Hr' [F1 F2 F3 F4 F5 F6 F7]. rewrite fmap_cons in Hnd. apply NoDup_cons in Hnd as [Hnin _].
  destruct Hr0 as (Hh & Hne & _). split; try done.
  - rewrite F3, step_own. destruct (sl_holds sl !! ero_key x) eqn:Hk; [|done].
    destruct (rem - t =? 0) eqn:Hz1; [|done]. apply Z.eqb_eq in Hz1. by rewrite (Hr' Hz1).
  - intros r' Hin. destruct (F5 r' Hin) as (r0 & Hr0' & Hrest). exists r0. split; [by right|done].
  - intros k Hk Hnk. rewrite fmap_cons in Hk. apply elem_of_cons in Hk as [->|Hk]; [|by apply F6].
    rewrite F7 by done. rewrite step_holds, decide_False, decide_True, Hz by done. done.
  - intros k Hkx Hkl. rewrite fmap_cons, not_elem_of_cons in Hkl. destruct Hkl as [H1 H2].
    rewrite F7, step_holds, !decide_False by done. done.
Qed.

(** The contra order has something left, so the aggressor has nothing. *)
Lemma filled_partial : ero_remaining_quantity r - t <> 0 ->
  filled sl (sl_apply sl ev) (r :: l) (ero_set_remaining r (ero_remaining_quantity r - t) :: l) (rem - t).
Proof.
  intros Hz. pose proof Hnd as Hnd'. rewrite fmap_cons in Hnd'. apply NoDup_cons in Hnd' as [Hnin _].
  pose proof step_tail as Htail. rewrite Forall_forall in Htail. destruct Hr0 as (Hh & Hne & _).
  split; [apply step_solvent|apply step_backed|apply step_own|..].
  - intros r' [->|Hin]%elem_of_cons; [|by apply Htail]. change (ero_key (ero_set_remaining r _)) with (ero_key r).
    rewrite step_holds, decide_False, decide_True by done. unfold held_after. by destruct (_ =? 0) eqn:E; [lia|].
  - intros r' [->|Hin]%elem_of_cons; [exists r; split; [by left|done]|exists r'; split; [by right|done]].
  - intros k Hk Hnk. by rewrite fmap_cons in Hnk.
  - intros k Hkx Hkl. rewrite fmap_cons, not_elem_of_cons in Hkl. destruct Hkl as [H1 H2].
    by rewrite step_holds, !decide_False by done.
Qed.
End Step.

Lemma spec_fill_zero side price l : spec_fill side price 0 l = ([], 0, l).
Proof. by destruct l. Qed.

Lemma fill_solvent l : forall sl rem seq, solvent sl -> backed sl x rem -> 0 <= rem ->
  Forall (contra_order sl) l -> NoDup (ero_key <$> l) ->
  let '(fills, rem', l') := spec_fill (ero_side x) (ero_price x) rem l in
  let evs := fill_events x cseq rem fills seq in
  stream_fits (sl_holds sl) evs /\ filled sl (sl_run sl evs) l l' rem'.
Proof.
  induction l as [|r l IH]; intros sl rem seq Hs Hb Hr Hl Hnd; cbn [spec_fill].
  { split; [done|]. by apply filled_stop. }
  destruct (_ || _) eqn:Hstop; [split; [done|]; by apply filled_stop|].
  apply orb_false_iff in Hstop as [Hz%Z.eqb_neq Hc%negb_false_iff].
  apply Forall_cons in Hl as [Hr0 Hl]. assert (Hr' : 0 < rem) by lia.
  pose proof (step_fits sl r rem seq Hb Hr0 Hc) as Hfit.
  set (t := Z.min rem (ero_remaining_quantity r)) in *.
  set (ev := trade_event x (book_order_of r) cseq t (rem - t) (ero_remaining_quantity r - t) seq) in *.
  destruct (_ - t =? 0) eqn:Hfull.
  - apply Z.eqb_eq in Hfull. specialize (IH (sl_apply sl ev) (rem - t) (u64 (seq + 2))
      (step_solvent sl r rem seq Hs Hb Hr' Hr0 Hc) (step_backed sl r rem seq Hs Hb Hr' Hr0 Hc) ltac:(lia)
      (step_tail sl r l rem seq Hr0 Hl Hnd)).
    assert (Hz0 : rem - t = 0 -> (spec_fill (ero_side x) (ero_price x) (rem - t) l).1.2 = 0).
    { intros E. by rewrite E, spec_fill_zero. }
    destruct (spec_fill _ _ (rem - t) l) as [[fills rem'] l']. cbn [fill_events]. fold ev. rewrite Hfull. cbn [Z.eqb].
    destruct IH as [Hf Hfl]; [rewrite fmap_cons in Hnd; by apply NoDup_cons in Hnd as [_ Hnd']|].
    cbn [sl_run foldl stream_fits]. rewrite sl_apply_book by done.
    change (holds_apply (holds_apply _ ev) (book_removed _ _ _)) with (holds_apply (sl_holds sl) ev).
    rewrite <- sl_apply_holds. split; [done|].
    eapply filled_full; done.
  - apply Z.eqb_neq in Hfull. cbn [fill_events]. fold ev.
    destruct (_ - t =? 0) eqn:Hf0; [lia|]. cbn [sl_run foldl stream_fits]. rewrite sl_apply_book by done.
    split; [done|]. by eapply filled_partial.
Qed.
End Fill.

(** ** Holds are resting orders

    [holds_exact st m]: the open holds are exactly the resting orders of the
    exchange, with their instrument, side, limit price and open quantity.
    Every command of a funded account keeps it, keeps the ledger solvent, and
    emits only events the ledger can follow. *)

Definition live (st : Spec) (r : ExchangeRestingOrder) : Prop := r ∈ sp_side st (ero_instrument_id r) (ero_side r).

Record spec_wf (st : Spec) : Prop := {
  wf_place : forall i s r, r ∈ sp_side st i s ->
    ero_instrument_id r = i /\ ero_side r = s /\ ero_time_in_force r = GTC /\ 0 < ero_remaining_quantity r;
  wf_unique : forall r r', live st r -> live st r' -> ero_key r = ero_key r' -> r = r';
  wf_NoDup : forall i s, NoDup (ero_key <$> sp_side st i s);
}.

Section FromEngine.
Context (e : MatchingEngine MatchingBook) (st : Spec) (W : engine_wf e) (R : refines e st).

Lemma negative_side i s : i < 0 -> sp_side st i s = [].
Proof. intros Hi. unfold sp_side. by rewrite (rf_neg _ _ R). Qed.
Lemma side_elem i s r : r ∈ sp_side st i s ->
  0 <= i /\ exists h o, (h, o) ∈ iview e i s /\ r = ero_of (me_orders e) i o.
Proof.
  intros Hr. destruct (Z.lt_ge_cases i 0) as [Hneg|Hi]; [rewrite negative_side in Hr by done; set_solver|].
  split; [done|]. rewrite (refines_side e st i s (ew_registry _ W) R Hi) in Hr. by apply elem_of_abs_side in Hr.
Qed.
Lemma view_side i s h o : 0 <= i -> (h, o) ∈ iview e i s -> bo_side o = s.
Proof.
  intros Hi Hin. unfold iview in Hin. destruct (book_for e i) as [b|] eqn:Hb; [|set_solver].
  by apply (law_entry b s (h, o) (ew_book _ W i b Hi Hb)).
Qed.

Lemma refines_spec_wf : spec_wf st.
Proof.
  split.
  - intros i s r Hr. apply side_elem in Hr as (Hi & h & o & Hin & ->). cbn.
    destruct (ew_order _ W i s _ Hi Hin) as [[Hq _] Ht]. by rewrite (view_side i s h o Hi Hin).
  - intros r r' Hr Hr' Hk. apply side_elem in Hr as (Hi & h & o & Hin & He), Hr' as (Hi' & h' & o' & Hin' & He').
    rewrite He, He' in Hk. rewrite !ero_key_of in Hk.
    destruct (key_unique _ _ (ew_dir _ W) _ _ _ _ _ _ _ _ Hi Hi' Hin Hin' Hk) as (Heq & _ & _ & ->).
    rewrite He, He'. cbn. by rewrite Heq.
  - intros i s. destruct (Z.lt_ge_cases i 0) as [Hneg|Hi]; [rewrite negative_side by done; constructor|].
    rewrite (refines_side e st i s (ew_registry _ W) R Hi). unfold abs_side. rewrite <- list_fmap_compose.
    apply NoDup_fmap_2_strong.
    + intros [h o] [h' o'] Hin Hin' Hk.
      by destruct (key_unique _ _ (ew_dir _ W) i s h o i s h' o' Hi Hi Hin Hin' Hk) as (_ & -> & _ & ->).
    + apply (NoDup_fmap_1 fst). pose proof (dw_NoDup _ _ (ew_dir _ W) i Hi) as Hnd.
      rewrite (handles_side _ i s), fmap_app in Hnd. by apply NoDup_app in Hnd as (Hnd & _).
Qed.
End FromEngine.

Definition holds_exact (st : Spec) (m : gmap HoldKey Hold) : Prop :=
  forall k h, m !! k = Some h <-> exists r, live st r /\ ero_key r = k /\ hold_of r = h.

Lemma holds_exact_live st m r : holds_exact st m -> live st r -> m !! ero_key r = Some (hold_of r).
Proof. intros Hx Hr. apply Hx. by exists r. Qed.
Lemma holds_exact_none st m k : holds_exact st m -> (forall r, live st r -> ero_key r <> k) -> m !! k = None.
Proof.
  intros Hx Hn. destruct (m !! k) as [h|] eqn:E; [|done]. apply Hx in E as (r & Hr & Hk & _). by destruct (Hn r Hr).
Qed.
Lemma key_live_false st k r : key_live st k = false -> live st r -> ero_key r <> k.
Proof.
  intros Hk Hr He. apply bool_decide_eq_false in Hk. apply Hk, Exists_exists. exists r. split; [|done].
  unfold live, sp_side in Hr. destruct (sp_books st !! ero_instrument_id r) as [sb|] eqn:E; [|set_solver].
  apply elem_of_all_live. exists (ero_instrument_id r), sb. split; [done|]. destruct (ero_side r); auto.
Qed.
Lemma elem_of_spec_insert s x l r : r ∈ spec_insert s x l <-> r = x \/ r ∈ l.
Proof.
  induction l as [|y l IH]; cbn; [set_solver|]. destruct (better_eq _ _ _); rewrite !elem_of_cons, ?IH; [tauto|].
  rewrite ?elem_of_cons. tauto.
Qed.
Lemma live_books st st' r : sp_books st' = sp_books st -> live st' r <-> live st r.
Proof. intros Hb. unfold live, sp_side. by rewrite Hb. Qed.

Lemma other_side (i j : InstrumentId) (s s' : Side) : ~ (j = i /\ s' = s) -> j <> i \/ s' <> s.
Proof. destruct (decide (j = i)); [right|left]; tauto. Qed.

(** ** Matching and resting *)
Section Meet.
Context (st : Spec) (Wf : spec_wf st) (x : ExchangeRestingOrder) (cseq : CommandSequence) (sl : SpecLedger).
Let i := ero_instrument_id x.
Let s := ero_side x.
Let kx := ero_key x.
Context (Hk : is_Some (sp_books st !! i)) (Hp : 0 < ero_price x) (Hq : 0 < ero_remaining_quantity x)
  (Hs : solvent sl) (Hb : backed sl x (ero_remaining_quantity x))
  (Hfresh : forall r, live st r -> ero_key r <> kx)
  (Hown : sl_holds sl !! kx = if bool_decide (ero_time_in_force x = GTC) then Some (hold_of x) else None)
  (Hex : forall k h, k <> kx -> sl_holds sl !! k = Some h <-> exists r, live st r /\ ero_key r = k /\ hold_of r = h).

Lemma contra_orders : Forall (contra_order x sl) (sp_side st i (contra_side s)).
Proof.
  apply Forall_forall. intros r Hr. destruct (wf_place _ Wf _ _ _ Hr) as (Hi & Hsd & _ & Hrem).
  assert (Hlive : live st r) by (unfold live; by rewrite Hi, Hsd). pose proof (Hfresh r Hlive) as Hne.
  split; [|by split; [|split]]. apply Hex; [done|]. by exists r.
Qed.

Definition rests (rem : Quantity) : bool := bool_decide (ero_time_in_force x = GTC) && negb (rem =? 0).

(** What is live after matching and resting. *)
Lemma live_after l' rem xid seq prio st2 :
  st2 = (spec_rest (sp_set_counters (sp_set_side st i (contra_side s) l') xid seq prio) (ero_set_remaining x rem)).1 ->
  forall r, live st2 r <->
    (r ∈ l' /\ ero_instrument_id r = i /\ ero_side r = contra_side s) \/
    (rests rem = true /\ r = ero_set_remaining x rem) \/
    (live st r /\ ~ (ero_instrument_id r = i /\ ero_side r = contra_side s)).
Proof.
  intros ->. intros r. set (st1 := sp_set_counters _ _ _ _).
  assert (H1 : forall j s', sp_side st1 j s' = if decide (j = i /\ s' = contra_side s) then l' else sp_side st j s').
  { intros j s'. unfold st1. rewrite sp_side_counters. destruct (decide (j = i /\ s' = contra_side s)) as [[-> ->]|E];
      [by apply sp_side_set_eq|].
    by apply sp_side_set_other, other_side. }
  assert (Hxin : ero_instrument_id (ero_set_remaining x rem) = i /\ ero_side (ero_set_remaining x rem) = s) by done.
  unfold spec_rest. cbn [ero_set_remaining ero_time_in_force ero_remaining_quantity ero_instrument_id ero_side].
  fold i s. unfold rests. destruct (bool_decide _ && _) eqn:Hrest.
  - assert (negb (bool_decide (ero_time_in_force x = GTC)) || (rem =? 0) = false) as ->
      by (destruct (bool_decide _), (rem =? 0); done).
    cbn [fst]. unfold sp_bump_seq, live. rewrite sp_side_counters.
    assert (Hk1 : is_Some (sp_books st1 !! i)) by (unfold st1; by apply known_set_side).
    destruct (decide (ero_instrument_id r = i /\ ero_side r = s)) as [[Hi Hsd]|Hne].
    + rewrite Hi, Hsd, sp_side_set_eq, elem_of_spec_insert, H1 by done.
      assert (Hcs : s <> contra_side s) by (by destruct s).
      rewrite decide_False by tauto. split; [|tauto].
      intros [->|Hin]; [tauto|]. right; right. tauto.
    + rewrite sp_side_set_other, H1 by (by apply other_side). destruct (decide _) as [E|E]; split; try tauto.
      * intros [?|[[_ ->]|?]]; [tauto| |tauto]. tauto.
      * intros [?|[[_ ->]|?]]; [tauto| |tauto]. tauto.
  - assert (negb (bool_decide (ero_time_in_force x = GTC)) || (rem =? 0) = true) as ->
      by (destruct (bool_decide _), (rem =? 0); done).
    cbn [fst]. unfold live. rewrite H1. destruct (decide _) as [E|E]; split; intuition congruence.
Qed.

Lemma meet_ledger : let '(st', evs) := spec_match_then_rest st x cseq in
  stream_fits (sl_holds sl) evs /\ solvent (sl_run sl evs) /\ holds_exact st' (sl_holds (sl_run sl evs)).
Proof.
  unfold spec_match_then_rest, spec_match. fold i s.
  pose proof (fill_solvent x cseq Hp (sp_side st i (contra_side s)) sl (ero_remaining_quantity x)
    (sp_next_event_sequence st) Hs Hb ltac:(lia) contra_orders (wf_NoDup _ Wf _ _)) as Hfill.
  destruct (spec_fill _ _ _ _) as [[fills rem'] l'] eqn:Ef. cbn zeta in Hfill.
  set (fe := fill_events _ _ _ _ _) in *. destruct Hfill as [Hfit F].
  destruct (spec_rest _ _) as [st2 rested] eqn:Er.
  assert (Hrested : sl_run (sl_run sl fe) rested = sl_run sl fe /\ stream_fits (foldl holds_apply (sl_holds sl) fe) rested).
  { unfold spec_rest in Er. destruct (_ || _); injection Er as _ <-; [done|]. split; [exact (sl_apply_book (sl_run sl fe) (EvBookOrderAdded {| boa_event_sequence := _ |}) I)|done]. }
  destruct Hrested as [Hrun Hfit']. rewrite sl_run_app, Hrun, stream_fits_app. split; [done|]. split; [apply F|].
  pose proof (live_after l' rem' _ _ _ st2 (eq_sym (f_equal fst Er))) as Hlive. clear Er Hrun Hfit Hfit'.
  intros k h. split.
  - intros Hh. destruct (decide (k = kx)) as [->|Hkx].
    { unfold kx in Hh. rewrite (fl_own _ _ _ _ _ _ F) in Hh. fold kx in Hh. rewrite Hown in Hh.
      destruct (bool_decide _) eqn:Et; [|done]. destruct (rem' =? 0) eqn:Ez; [done|]. injection Hh as <-.
      exists (ero_set_remaining x rem'). split; [|done]. apply Hlive. right; left.
      split; [|done]. unfold rests. by rewrite Et, Ez. }
    destruct (decide (k ∈ ero_key <$> sp_side st i (contra_side s))) as [Hin|Hnin].
    + destruct (decide (k ∈ ero_key <$> l')) as [(r & -> & Hr)%list_elem_of_fmap|Hnin'].
      2: { by rewrite (fl_gone _ _ _ _ _ _ F) in Hh. }
      rewrite (fl_rest _ _ _ _ _ _ F r Hr) in Hh. injection Hh as <-. exists r. split; [|done]. apply Hlive. left.
      split; [done|]. destruct (fl_keys _ _ _ _ _ _ F r Hr) as (r0 & Hr0 & _ & -> & ->).
      by destruct (wf_place _ Wf _ _ _ Hr0) as (-> & -> & _).
    + rewrite (fl_other _ _ _ _ _ _ F) in Hh by done. apply Hex in Hh as (r & Hr & <- & <-); [|done].
      exists r. split; [|done]. apply Hlive. right; right. split; [done|]. intros [Hi Hsd]. apply Hnin.
      apply list_elem_of_fmap_2. unfold live in Hr. by rewrite Hi, Hsd in Hr.
  - intros (r & Hr & <- & <-). apply Hlive in Hr as [(Hr & _)|[(Hrest & ->)|(Hr & Hne)]].
    + by apply (fl_rest _ _ _ _ _ _ F).
    + change (ero_key (ero_set_remaining x rem')) with (ero_key x). rewrite (fl_own _ _ _ _ _ _ F). fold kx. rewrite Hown.
      unfold rests in Hrest. destruct (bool_decide _); [|done]. by destruct (rem' =? 0).
    + rewrite (fl_other _ _ _ _ _ _ F); [apply Hex; [by apply Hfresh|by exists r]|by apply Hfresh|].
      intros (r0 & He & Hr0)%list_elem_of_fmap. apply Hne.
      destruct (wf_place _ Wf _ _ _ Hr0) as (Hi0 & Hs0 & _).
      rewrite (wf_unique _ Wf r r0); [done|done| |done]. unfold live. by rewrite Hi0, Hs0.
Qed.
End Meet.

(** ** The ledger along one command

    [spec_process_ledger]: a command whose account can pay for it ([funded])
    emits events the ledger can follow, leaves every account solvent, and
    leaves the holds equal to the resting orders. *)

Definition payable (sl : SpecLedger) (a : AccountId) (h : Hold) : Prop :=
  match h_side h with
  | Buy => h_remaining h * h_limit_price h <= free_cash sl a
  | Sell => h_remaining h <= free_units sl a (h_instrument_id h)
  end.
Definition funded (sl : SpecLedger) (c : ExchangeCommand) : Prop :=
  match c with
  | CmdNewOrder c =>
      0 < noc_price c -> payable sl (noc_account_id c)
        {| h_instrument_id := noc_instrument_id c; h_side := noc_side c; h_limit_price := noc_price c;
           h_remaining := noc_quantity c |}
  | CmdReplaceOrder c =>
      let k := (roc_account_id c, roc_original_client_order_id c) in
      forall h, sl_holds sl !! k = Some h -> h_instrument_id h = roc_instrument_id c -> 0 < roc_new_price c ->
        payable (sl_with_holds sl (delete k (sl_holds sl))) (roc_account_id c)
          {| h_instrument_id := roc_instrument_id c; h_side := h_side h; h_limit_price := roc_new_price c;
             h_remaining := roc_new_quantity c |}
  | CmdCancelOrder _ => True
  end.

(** ** Opening and closing a hold *)
Lemma open_solvent sl k h : solvent sl -> sl_holds sl !! k = None -> 0 < h_remaining h -> 0 < h_limit_price h ->
  payable sl k.1 h -> solvent (sl_with_holds sl (<[k := h]> (sl_holds sl))).
Proof.
  intros [S1 S2 S3] Hk Hr Hl Hpay. unfold payable in Hpay. split; unfold free_cash, free_units in *; cbn [sl_with_holds sl_cash sl_units sl_holds].
  - intros k' h'. destruct (decide (k' = k)) as [->|Hne].
    + rewrite lookup_insert_eq. by intros [= <-].
    + rewrite lookup_insert_ne by done. apply S1.
  - intros a. specialize (S2 a). rewrite reserved_cash_insert by done. unfold buy_value.
    destruct (h_side h); case_decide; subst; lia.
  - intros a i. specialize (S3 a i). rewrite reserved_units_insert by done. unfold sell_value.
    destruct (h_side h); repeat case_decide; subst; lia.
Qed.
Lemma close_solvent sl k : solvent sl -> solvent (sl_with_holds sl (delete k (sl_holds sl))).
Proof.
  intros [S1 S2 S3]. destruct (sl_holds sl !! k) as [h|] eqn:Hk.
  2: { rewrite delete_id by done. by destruct sl. }
  destruct (S1 k h Hk) as [Hr Hl]. split; unfold free_cash, free_units in *; cbn [sl_with_holds sl_cash sl_units sl_holds].
  - intros k' h' [_ Hk']%lookup_delete_Some. by apply (S1 k').
  - intros a. specialize (S2 a). rewrite (reserved_cash_delete _ _ h) by done. unfold buy_value.
    destruct (h_side h); case_decide; nia.
  - intros a i. specialize (S3 a i). rewrite (reserved_units_delete _ _ h) by done. unfold sell_value.
    destruct (h_side h); repeat case_decide; lia.
Qed.

Definition follows (sl : SpecLedger) (out : Spec * list ExchangeEvent) : Prop :=
  stream_fits (sl_holds sl) out.2 /\ solvent (sl_run sl out.2) /\ holds_exact out.1 (sl_holds (sl_run sl out.2)).

Lemma holds_exact_books st st' m : sp_books st' = sp_books st -> holds_exact st m -> holds_exact st' m.
Proof. intros Hb Hx k h. rewrite (Hx k h). by setoid_rewrite (live_books st st' _ Hb). Qed.
Lemma spec_wf_books st st' : sp_books st' = sp_books st -> spec_wf st -> spec_wf st'.
Proof.
  intros Hb [H1 H2 H3]. assert (Hs : forall i s, sp_side st' i s = sp_side st i s) by (intros; unfold sp_side; by rewrite Hb).
  split.
  - intros i s r. rewrite Hs. apply H1.
  - intros r r'. unfold live. rewrite !Hs. apply H2.
  - intros i s. rewrite Hs. apply H3.
Qed.

Section Commands.
Context (st : Spec) (Wf : spec_wf st) (sl : SpecLedger) (Hs : solvent sl) (Hx : holds_exact st (sl_holds sl)).

Lemma reject_follows cseq a c i reason : follows sl (spec_reject st (rejected cseq a c i reason)).
Proof.
  unfold follows, spec_reject. cbn [fst snd sl_run foldl stream_fits]. rewrite sl_apply_book by done.
  split; [done|]. split; [done|]. by eapply holds_exact_books; [|exact Hx].
Qed.

(** An order meets the book of [st0], its own hold opened if it is GTC. *)
Lemma meet_follows st0 x cseq ev sl1 : spec_wf st0 -> is_Some (sp_books st0 !! ero_instrument_id x) ->
  0 < ero_price x -> 0 < ero_remaining_quantity x -> (forall r, live st0 r -> ero_key r <> ero_key x) ->
  solvent sl1 -> holds_exact st0 (sl_holds sl1) -> payable sl1 (ero_account_id x) (hold_of x) ->
  event_fits (sl_holds sl) ev ->
  sl_apply sl ev = (if bool_decide (ero_time_in_force x = GTC)
                    then sl_with_holds sl1 (<[ero_key x := hold_of x]> (sl_holds sl1)) else sl1) ->
  let (st', evs) := spec_match_then_rest st0 x cseq in follows sl (st', ev :: evs).
Proof.
  intros Wf0 Hk Hp Hq Hfresh Hs1 Hx1 Hpay Hfit Hev.
  pose proof (holds_exact_none _ _ _ Hx1 Hfresh) as Hnone.
  pose proof (meet_ledger st0 Wf0 x cseq (sl_apply sl ev) Hk Hp Hq) as Hmeet.
  destruct (spec_match_then_rest _ _ _) as [st' evs]. destruct Hmeet as (H1 & H2 & H3).
  - rewrite Hev. destruct (bool_decide _); [|done]. by apply open_solvent.
  - unfold backed. rewrite Hev. destruct (bool_decide _); cbn [sl_with_holds sl_holds].
    + rewrite lookup_insert_eq. by destruct x.
    + by rewrite Hnone.
  - done.
  - rewrite Hev. destruct (bool_decide _); cbn [sl_with_holds sl_holds]; [by rewrite lookup_insert_eq|done].
  - intros k h Hk'. rewrite Hev. destruct (bool_decide _); cbn [sl_with_holds sl_holds]; [|apply Hx1].
    rewrite lookup_insert_ne by done. apply Hx1.
  - split; [|by split]. cbn [snd stream_fits]. split; [done|]. by rewrite <- sl_apply_holds.
Qed.

Lemma new_order_follows cmd : 0 <= noc_quantity cmd -> funded sl (CmdNewOrder cmd) -> follows sl (spec_new_order st cmd).
Proof.
  intros Hq Hpay. unfold spec_new_order.
  destruct (bool_decide (is_Some _)) eqn:Hk; cbn [negb]; [|apply reject_follows]. apply bool_decide_eq_true in Hk.
  destruct (noc_price cmd <=? 0) eqn:Hp; [apply reject_follows|].
  destruct (noc_quantity cmd =? 0) eqn:Hz; [apply reject_follows|].
  destruct (key_live st _) eqn:Hlive; [apply reject_follows|].
  destruct (_ && _); [apply reject_follows|]. cbv zeta. fold (order_of st cmd).
  set (ev := EvOrderAccepted _). set (st0 := sp_bump_seq _).
  assert (Hfresh : forall r, live st r -> ero_key r <> ero_key (order_of st cmd)).
  { intros r Hr. by apply (key_live_false st). }
  pose proof (meet_follows st0 (order_of st cmd) (noc_command_sequence cmd) ev sl
    (spec_wf_books st st0 eq_refl Wf) Hk ltac:(cbn; lia) ltac:(cbn; lia) Hfresh Hs
    (holds_exact_books st st0 _ eq_refl Hx) (Hpay ltac:(lia))) as Hm.
  destruct (spec_match_then_rest _ _ _) as [st' evs]. apply Hm; clear Hm.
  - cbn. split; [lia|]. intros _. by apply (holds_exact_none st).
  - unfold ev. cbn [sl_apply holds_apply oa_time_in_force order_of ero_time_in_force].
    destruct (bool_decide _); cbn [negb]; [|by destruct sl]. unfold open_entry. cbn [h_remaining oa_quantity]. by rewrite Hz.
Qed.

(** ** Looking up, dropping and amending a live order *)
Lemma find_order_live i k r : find_order st i k = Some r ->
  live st r /\ ero_instrument_id r = i /\ ero_key r = k /\ is_Some (sp_books st !! i).
Proof using Wf.
  intros [Hin Hk]%find_some. apply bool_decide_eq_true in Hk. apply list_elem_of_In in Hin.
  assert (Hside : exists s, r ∈ sp_side st i s) by (rewrite elem_of_app in Hin; destruct Hin; [by exists Buy|by exists Sell]).
  destruct Hside as [s Hr]. destruct (wf_place _ Wf _ _ _ Hr) as (Hi & Hsd & _). unfold live. rewrite Hi, Hsd.
  split; [done|]. split; [done|]. split; [done|]. unfold sp_side in Hr. destruct (sp_books st !! i); [by eexists|by apply not_elem_of_nil in Hr].
Qed.

Lemma sublist_keys (l1 l2 : list ExchangeRestingOrder) : l1 `sublist_of` l2 -> (ero_key <$> l1) `sublist_of` (ero_key <$> l2).
Proof. induction 1; cbn; by constructor. Qed.

Section Live.
Context (r0 : ExchangeRestingOrder) (i : InstrumentId) (H0 : live st r0) (Hi : ero_instrument_id r0 = i)
  (Hk : is_Some (sp_books st !! i)).

Lemma live_drop r : live (spec_drop st r0 i) r <-> live st r /\ ero_key r <> ero_key r0.
Proof.
  unfold live, spec_drop. destruct (decide (ero_instrument_id r = i /\ ero_side r = ero_side r0)) as [[Hr Hsd]|Hne].
  - rewrite Hr, Hsd, sp_side_set_eq by done. unfold drop_key. rewrite list_elem_of_filter. tauto.
  - rewrite sp_side_set_other by (by apply other_side). split; [|tauto]. intros Hr. split; [done|]. intros He.
    apply Hne. by rewrite (wf_unique _ Wf r r0 Hr H0 He).
Qed.
Lemma drop_wf : spec_wf (spec_drop st r0 i).
Proof.
  assert (Hsub : forall j s, sp_side (spec_drop st r0 i) j s ⊆ sp_side st j s).
  { intros j s r. unfold spec_drop. destruct (decide (j = i /\ s = ero_side r0)) as [[-> ->]|Hne].
    - rewrite sp_side_set_eq by done. unfold drop_key. rewrite list_elem_of_filter. tauto.
    - by rewrite sp_side_set_other by (by apply other_side). }
  split.
  - intros j s r Hr. by apply (wf_place _ Wf), Hsub.
  - intros r r' Hr Hr'. apply (wf_unique _ Wf); by apply Hsub.
  - intros j s. unfold spec_drop. destruct (decide (j = i /\ s = ero_side r0)) as [[-> ->]|Hne].
    + rewrite sp_side_set_eq by done. unfold drop_key. eapply sublist_NoDup; [apply (wf_NoDup _ Wf i (ero_side r0))|].
      apply sublist_keys, sublist_filter.
    + rewrite sp_side_set_other by (by apply other_side). apply (wf_NoDup _ Wf).
Qed.
Lemma drop_exact : holds_exact (spec_drop st r0 i) (delete (ero_key r0) (sl_holds sl)).
Proof.
  intros k h. rewrite lookup_delete_Some. setoid_rewrite live_drop. rewrite (Hx k h). naive_solver.
Qed.

Lemma live_amend c q r :
  live (sp_set_side st i (ero_side r0) (amend_key (ero_key r0) c q (sp_side st i (ero_side r0)))) r <->
  (live st r /\ ero_key r <> ero_key r0) \/ r = ero_amend c q r0.
Proof.
  assert (Hin0 : r0 ∈ sp_side st i (ero_side r0)) by (by rewrite <- Hi).
  assert (Hother : live st r /\ ero_key r = ero_key r0 -> r = r0) by (intros [Hr He]; by apply (wf_unique _ Wf)).
  unfold live. destruct (decide (ero_instrument_id r = i /\ ero_side r = ero_side r0)) as [[Hr Hsd]|Hne].
  - rewrite Hr, Hsd, sp_side_set_eq by done. unfold amend_key. rewrite list_elem_of_fmap. split.
    + intros (r' & -> & Hr'). destruct (decide (ero_key r' = ero_key r0)) as [He|Hne']; [right|by left].
      f_equal. apply (wf_unique _ Wf); [|done|done]. destruct (wf_place _ Wf _ _ _ Hr') as (E1 & E2 & _).
      unfold live. by rewrite E1, E2.
    + intros [[Hr' Hne']| ->]; [exists r; by rewrite decide_False by done|]. exists r0. by rewrite decide_True by done.
  - rewrite sp_side_set_other by (by apply other_side). split.
    + intros Hr. left. split; [done|]. intros He. apply Hne. rewrite (Hother (conj Hr He)). done.
    + intros [[Hr _]| ->]; [done|]. exfalso. apply Hne. by cbn.
Qed.
End Live.

Lemma cancel_follows cmd : follows sl (spec_cancel st cmd).
Proof.
  unfold spec_cancel. destruct (bool_decide _) eqn:Hk; cbn [negb]; [|apply reject_follows].
  destruct (find_order _ _ _) as [r|] eqn:Hf; [|apply reject_follows].
  destruct (find_order_live _ _ _ Hf) as (Hr & Hi & Hkey & Hkn).
  unfold follows. cbn [fst snd sl_run foldl stream_fits]. rewrite (sl_apply_book _ (book_removed _ _ _)) by done.
  cbn [sl_apply holds_apply sl_with_holds sl_holds ocn_account_id ocn_client_order_id]. rewrite <- Hkey.
  split; [done|]. split; [by apply close_solvent|].
  eapply holds_exact_books; [|by apply drop_exact]. done.
Qed.

(** A replace of the live order [r]. *)
Section Replace.
Context (cmd : ReplaceOrderCommand) (r : ExchangeRestingOrder).
Let i := roc_instrument_id cmd.
Let a := roc_account_id cmd.
Let k' := (a, roc_new_client_order_id cmd).
Let sl1 := sl_with_holds sl (delete (ero_key r) (sl_holds sl)).
Let h' := {| h_instrument_id := i; h_side := ero_side r; h_limit_price := roc_new_price cmd;
             h_remaining := roc_new_quantity cmd |}.
Context (Hp : 0 < roc_new_price cmd) (Hq : 0 < roc_new_quantity cmd)
  (Hr : live st r) (Hi : ero_instrument_id r = i) (Hkn : is_Some (sp_books st !! i))
  (Hkey : ero_key r = (a, roc_original_client_order_id cmd)) (Hpay : payable sl1 a h')
  (Hfresh : roc_new_client_order_id cmd = roc_original_client_order_id cmd \/ key_live st k' = false).

Lemma replaced_solvent : solvent sl1.
Proof. by apply close_solvent. Qed.
Lemma replaced_exact : holds_exact (spec_drop st r i) (sl_holds sl1).
Proof. by apply drop_exact. Qed.
Lemma others_differ r' : live st r' -> ero_key r' <> ero_key r -> ero_key r' <> k'.
Proof.
  intros Hr' Hne. destruct Hfresh as [E|Hfr]; [|by apply (key_live_false st)].
  unfold k'. rewrite E. by rewrite Hkey in Hne.
Qed.
Lemma new_key_free : sl_holds sl1 !! k' = None.
Proof.
  apply (holds_exact_none _ _ _ replaced_exact). intros r' [Hr' Hne]%(live_drop r i Hr Hi Hkn). by apply others_differ.
Qed.
Lemma replaced_fits xid seq : event_fits (sl_holds sl) (replaced cmd xid seq).
Proof.
  cbn. split; [done|]. split.
  { exists (hold_of r). pose proof (holds_exact_live _ _ _ Hx Hr) as Hh. rewrite Hkey in Hh. by split. }
  destruct Hfresh as [E|Hfr]; [by left|right]. apply (holds_exact_none st); [done|]. intros r' Hr'.
  by apply (key_live_false st).
Qed.
Lemma replaced_apply xid seq : sl_apply sl (replaced cmd xid seq) = sl_with_holds sl1 (<[k' := h']> (sl_holds sl1)).
Proof.
  unfold replaced. cbn [sl_apply holds_apply orp_account_id orp_original_client_order_id orp_new_client_order_id
    orp_instrument_id orp_new_price orp_new_quantity]. fold a. rewrite <- Hkey, (holds_exact_live _ _ _ Hx Hr).
  unfold open_entry. cbn [h_remaining]. by destruct (_ =? 0) eqn:E; [lia|].
Qed.
Lemma amended_key c q : c = roc_new_client_order_id cmd -> ero_key (ero_amend c q r) = k'.
Proof. intros ->. unfold k', ero_key. cbn. unfold ero_key in Hkey. congruence. Qed.

Lemma in_place_follows xid seq seq' j o q st' : roc_new_price cmd = ero_price r ->
  sp_books st' = sp_books (sp_set_side st i (ero_side r)
    (amend_key (ero_key r) (roc_new_client_order_id cmd) (roc_new_quantity cmd) (sp_side st i (ero_side r)))) ->
  follows sl (st', [replaced cmd xid seq; book_reduced j o q seq']).
Proof.
  intros Hpr Hst'. unfold follows. cbn [fst snd sl_run foldl stream_fits].
  rewrite (sl_apply_book _ (book_reduced _ _ _ _)) by done. rewrite replaced_apply.
  split; [split; [apply replaced_fits|done]|]. split.
  { apply (open_solvent sl1); [exact replaced_solvent|exact new_key_free|done|done|exact Hpay]. }
  eapply holds_exact_books; [exact Hst'|]. intros k h. cbn [sl_with_holds sl_holds].
  setoid_rewrite (live_amend r i Hr Hi Hkn).
  assert (Hamend : hold_of (ero_amend (roc_new_client_order_id cmd) (roc_new_quantity cmd) r) = h').
  { unfold hold_of, h'. cbn. by rewrite Hpr, Hi. }
  destruct (decide (k = k')) as [->|Hne].
  - rewrite lookup_insert_eq. split.
    + intros [= <-]. eexists. split; [by right|]. split; [by apply amended_key|done].
    + intros (r' & [[Hr' Hne']| ->] & E & <-); [by destruct (others_differ r')|]. by rewrite Hamend.
  - rewrite lookup_insert_ne by done. rewrite (replaced_exact k h). setoid_rewrite (live_drop r i Hr Hi Hkn). split.
    + intros (r' & Hl & E). exists r'. split; [by left|done].
    + intros (r' & [Hl| ->] & E & <-); [by exists r'|]. exfalso. apply Hne. rewrite <- E. by apply amended_key.
Qed.
End Replace.

Lemma replace_follows cmd : 0 <= roc_new_quantity cmd -> funded sl (CmdReplaceOrder cmd) ->
  (roc_new_client_order_id cmd = roc_original_client_order_id cmd \/
   key_live st (roc_account_id cmd, roc_new_client_order_id cmd) = false) ->
  follows sl (spec_replace st cmd).
Proof.
  intros Hq Hpay Hfresh. unfold spec_replace. destruct (bool_decide _) eqn:Hk; cbn [negb]; [|apply reject_follows].
  destruct (_ || _) eqn:Hbad; [apply reject_follows|]. apply orb_false_iff in Hbad as [Hp0 Hq0].
  destruct (find_order _ _ _) as [r|] eqn:Hf; [|apply reject_follows].
  destruct (find_order_live _ _ _ Hf) as (Hr & Hi & Hkey & Hkn).
  pose proof (holds_exact_live _ _ _ Hx Hr) as Hh. rewrite Hkey in Hh. specialize (Hpay _ Hh Hi ltac:(lia)).
  rewrite <- Hkey in Hpay. cbn [hold_of h_side] in Hpay.
  assert (Hp' : 0 < roc_new_price cmd) by lia. assert (Hq' : 0 < roc_new_quantity cmd) by lia.
  destruct (_ && _) eqn:Hin.
  - apply andb_true_iff in Hin as [Hpr%Z.eqb_eq _]. rewrite <- Hkey.
    by apply (in_place_follows cmd r Hp' Hq' Hr Hi Hkn Hkey Hpay Hfresh).
  - cbv zeta. set (st0 := sp_bump_prio _). set (x := {| ero_exchange_order_id := _ |}).
    pose proof (meet_follows st0 x (roc_command_sequence cmd) (replaced cmd (sp_next_exchange_order_id st)
      (sp_next_event_sequence st)) (sl_with_holds sl (delete (ero_key r) (sl_holds sl)))
      (spec_wf_books (spec_drop st r (roc_instrument_id cmd)) st0 eq_refl (drop_wf r _ Hkn)) (known_set_side _ _ _ _ Hkn)
      Hp' Hq') as Hm.
    destruct (spec_match_then_rest _ _ _) as [st' evs]. destruct Hm as (H1 & H2 & H3).
    + intros r' Hr'. apply (live_books (spec_drop st r _)) in Hr' as [Hl Hne]%(live_drop r _ Hr Hi Hkn); [|done].
      by apply (others_differ cmd r).
    + by apply replaced_solvent.
    + eapply holds_exact_books; [|by apply (replaced_exact cmd r)]. done.
    + exact Hpay.
    + by apply (replaced_fits cmd r).
    + rewrite (replaced_apply cmd r) by done. cbn [x ero_time_in_force].
      destruct (wf_place _ Wf _ _ _ Hr) as (_ & _ & Ht & _). by rewrite Ht, bool_decide_true by done.
    + unfold follows in *. cbn [fst snd sl_run foldl stream_fits] in *. rewrite sl_apply_book by done.
      split; [|done]. destruct H1 as [H1 H1']. split; [done|]. split; [done|exact H1'].
Qed.

Lemma spec_process_ledger c : command_ok st c -> funded sl c -> follows sl (spec_process st c).
Proof.
  intros Hc Hf. destruct c; cbn in Hc |- *.
  - apply new_order_follows; [lia|done].
  - apply cancel_follows.
  - apply replace_follows; [lia|done|tauto].
Qed.
End Commands.
