(* ===== verification/Risk.v ===== *)
(** * Pre-trade risk: src/exchange/risk/risk_engine.cpp,
      src/exchange/risk/risk_gated_engine.cpp

    [RiskEngine::check] for new orders and replaces, and
    [RiskGatedEngine::process]: check, then match, feeding every event the
    engine emits to the ledger.  The engine never reads the ledger, so
    applying the events after [process] returns leaves the same ledger as
    applying each when it is emitted. *)
From S2P Require Import Prelude Types TickLadder SideIndex PriceQueues MatchingBook BookSpec MatchingEngine EngineSpec Directory EngineWf EngineRefine EngineProcess EngineRefinement EngineFacts MapSums Ledger LedgerSpec LedgerSim LedgerSolvent LedgerMatch.

Record RiskLimits := { max_order_quantity : Quantity }.
Definition RiskLimits_default : RiskLimits := {| max_order_quantity := 1000000 |}.

Definition check_new_order (limits : RiskLimits) (command : NewOrderCommand) (ledger : Ledger) : RejectReason.t :=
  if max_order_quantity limits <? noc_quantity command then RejectReason.OrderTooLarge
  else
    match noc_side command with
    | Buy =>
        let notional := notional (noc_quantity command) (noc_price command) in
        if available_cash ledger (noc_account_id command) <? notional then RejectReason.InsufficientFunds
        else RejectReason.None
    | Sell =>
        if available_position ledger (noc_account_id command) (noc_instrument_id command) <? noc_quantity command
        then RejectReason.InsufficientPosition
        else RejectReason.None
    end.

Definition check_replace (limits : RiskLimits) (command : ReplaceOrderCommand) (ledger : Ledger) : RejectReason.t :=
  if max_order_quantity limits <? roc_new_quantity command then RejectReason.OrderTooLarge
  else
    match find_hold ledger (roc_account_id command) (roc_original_client_order_id command) with
    | None => RejectReason.None
    | Some hold =>
        if negb (hv_instrument_id hold =? roc_instrument_id command) then RejectReason.None
        else
          match hv_side hold with
          | Buy =>
              let old_required := notional (hv_remaining hold) (hv_limit_price hold) in
              let new_required := notional (roc_new_quantity command) (roc_new_price command) in
              let extra_required := Z.max 0 (s64 (new_required - old_required)) in
              if available_cash ledger (roc_account_id command) <? extra_required
              then RejectReason.InsufficientFunds else RejectReason.None
          | Sell =>
              let extra_required := if hv_remaining hold <? roc_new_quantity command
                                    then u64 (roc_new_quantity command - hv_remaining hold) else 0 in
              if available_position ledger (roc_account_id command) (roc_instrument_id command) <? extra_required
              then RejectReason.InsufficientPosition else RejectReason.None
          end
    end.

(** ** RiskGatedEngine *)
Section Gated.
Context {B : Type} `{BookImpl B} (limits : RiskLimits).

(** [engine_.process] with the sink that feeds the ledger. *)
Definition process_settled (e : MatchingEngine B) (ledger : Ledger) (command : ExchangeCommand)
    : option (MatchingEngine B * Ledger * list ExchangeEvent) :=
  let* (e, evs) := process e command in Some (e, apply_all ledger evs, evs).

Definition gated_process (e : MatchingEngine B) (ledger : Ledger) (command : ExchangeCommand)
    : option (MatchingEngine B * Ledger * list ExchangeEvent) :=
  match command with
  | CmdNewOrder new_order =>
      if negb (knows_instrument e (noc_instrument_id new_order)) then
        let (e, ev) := reject_new_order e new_order RejectReason.InvalidInstrument in Some (e, ledger, [ev])
      else
        let reason := check_new_order limits new_order ledger in
        if negb (bool_decide (reason = RejectReason.None)) then
          let (e, ev) := reject_new_order e new_order reason in Some (e, ledger, [ev])
        else process_settled e ledger command
  | CmdReplaceOrder replace =>
      if negb (knows_instrument e (roc_instrument_id replace)) then
        let (e, ev) := reject_replace_order e replace RejectReason.InvalidInstrument in Some (e, ledger, [ev])
      else
        let reason := check_replace limits replace ledger in
        if negb (bool_decide (reason = RejectReason.None)) then
          let (e, ev) := reject_replace_order e replace reason in Some (e, ledger, [ev])
        else process_settled e ledger command
  | CmdCancelOrder _ => process_settled e ledger command
  end.

(** What a venue does: seed accounts, then take commands. *)
Inductive Action :=
| SeedCash (account_id : AccountId) (amount : Z)
| SeedPosition (account_id : AccountId) (instrument_id : InstrumentId) (amount : Quantity)
| Submit (command : ExchangeCommand).

Definition act (e : MatchingEngine B) (ledger : Ledger) (a : Action)
    : option (MatchingEngine B * Ledger * list ExchangeEvent) :=
  match a with
  | SeedCash account amount => Some (e, deposit_cash ledger account amount, [])
  | SeedPosition account instrument amount => Some (e, deposit_position ledger account instrument amount, [])
  | Submit c => gated_process e ledger c
  end.
Fixpoint venue_run (e : MatchingEngine B) (ledger : Ledger) (actions : list Action)
    : option (MatchingEngine B * Ledger * list ExchangeEvent) :=
  match actions with
  | [] => Some (e, ledger, [])
  | a :: actions =>
      let* (e, ledger, evs) := act e ledger a in
      let* (e, ledger, evs') := venue_run e ledger actions in
      Some (e, ledger, evs ++ evs')
  end.
End Gated.

(** ** What passing the risk check buys

    [check_new_order]/[check_replace] read 64-bit balances; on a solvent
    ledger whose deposits fit in 64 bits those reads are exact, so a command
    that passes is [funded], and the venue -- engine, ledger and risk gate
    together -- keeps its invariant [venue_wf]. *)

Lemma notional_exact q p : 0 <= q -> 0 <= p -> q * p < two63 -> notional q p = q * p.
Proof. intros H1 H2 H3. unfold notional. rewrite s64_mul_idemp_l. apply s64_small. nia. Qed.

Section Exact.
Context (lg : Ledger) (sl : SpecLedger) (T : tracks lg sl) (Hs : solvent sl)
  (Hc : total (sl_cash sl) < two63) (Hu : total (sl_units sl) < two64).

Lemma reserved_cash_range a : 0 <= reserved_cash (sl_holds sl) a <= amount (sl_cash sl) a.
Proof.
  pose proof (reserved_cash_nonneg (sl_holds sl) a (sv_hold _ Hs)). pose proof (sv_cash _ Hs a) as Hf.
  unfold free_cash in Hf. lia.
Qed.
Lemma reserved_units_range a i : 0 <= reserved_units (sl_holds sl) a i <= amount (sl_units sl) (a, i).
Proof.
  pose proof (reserved_units_nonneg (sl_holds sl) a i (sv_hold _ Hs)). pose proof (sv_units _ Hs a i) as Hf.
  unfold free_units in Hf. lia.
Qed.
Lemma cash_range a : 0 <= amount (sl_cash sl) a < two63.
Proof.
  pose proof (reserved_cash_range a). split; [lia|]. eapply Z.le_lt_trans; [|exact Hc].
  apply amount_le_total. intros a'. pose proof (reserved_cash_range a'). lia.
Qed.
Lemma units_range a i : 0 <= amount (sl_units sl) (a, i) < two64.
Proof.
  pose proof (reserved_units_range a i). split; [lia|]. eapply Z.le_lt_trans; [|exact Hu].
  apply amount_le_total. intros [a' i']. pose proof (reserved_units_range a' i'). lia.
Qed.

(** The stored balances are the exact amounts. *)
Lemma cash_total_exact a : cash_total (balances lg a) = amount (sl_cash sl) a.
Proof. rewrite (fd_cash _ _ _ _ _ (tk_fields _ _ T)). apply s64_small. pose proof (cash_range a). lia. Qed.
Lemma cash_reserved_exact a : cash_reserved (balances lg a) = reserved_cash (sl_holds sl) a.
Proof.
  rewrite (fd_cash_reserved _ _ _ _ _ (tk_fields _ _ T)). apply s64_small.
  pose proof (cash_range a). pose proof (reserved_cash_range a). lia.
Qed.
Lemma units_total_exact a i : units_total lg a i = amount (sl_units sl) (a, i).
Proof. rewrite (fd_units _ _ _ _ _ (tk_fields _ _ T)). apply u64_small, units_range. Qed.
Lemma units_reserved_exact a i : units_reserved lg a i = reserved_units (sl_holds sl) a i.
Proof.
  rewrite (fd_units_reserved _ _ _ _ _ (tk_fields _ _ T)). apply u64_small.
  pose proof (units_range a i). pose proof (reserved_units_range a i). lia.
Qed.

Lemma available_cash_exact a : available_cash lg a = free_cash sl a.
Proof.
  pose proof (cash_total_exact a) as H1. pose proof (cash_reserved_exact a) as H2.
  pose proof (cash_range a). pose proof (reserved_cash_range a).
  unfold available_cash, free_cash, balances in *. destruct (lg_accounts lg !! a) as [b|]; cbn in *; [|lia].
  rewrite H1, H2. apply s64_small. lia.
Qed.
Lemma available_position_exact a i : available_position lg a i = free_units sl a i.
Proof.
  pose proof (units_total_exact a i) as H1. pose proof (units_reserved_exact a i) as H2.
  pose proof (units_range a i). pose proof (reserved_units_range a i).
  unfold available_position, free_units, units_total, units_reserved, balances in *.
  destruct (lg_accounts lg !! a) as [b|]; cbn in *; [|lia]. rewrite H1, H2. apply u64_small. lia.
Qed.

Lemma check_new_order_funded limits cmd : 0 <= noc_quantity cmd -> noc_quantity cmd * noc_price cmd < two63 ->
  check_new_order limits cmd lg = RejectReason.None -> funded sl (CmdNewOrder cmd).
Proof.
  intros Hq Hn. unfold check_new_order. destruct (_ <? _); [done|]. intros Hchk Hp. unfold payable.
  cbn [h_side h_remaining h_limit_price h_instrument_id]. destruct (noc_side cmd).
  - rewrite available_cash_exact, notional_exact in Hchk by lia. destruct (_ <? _) eqn:E; [done|lia].
  - rewrite available_position_exact in Hchk. destruct (_ <? _) eqn:E; [done|lia].
Qed.

(** A replace is credited with the hold it gives up. *)
Lemma free_cash_close k h : sl_holds sl !! k = Some h ->
  free_cash (sl_with_holds sl (delete k (sl_holds sl))) k.1 = free_cash sl k.1 + buy_value h.
Proof. intros Hk. unfold free_cash. cbn. rewrite (reserved_cash_delete _ _ h), decide_True by done. lia. Qed.
Lemma free_units_close k h i : sl_holds sl !! k = Some h ->
  free_units (sl_with_holds sl (delete k (sl_holds sl))) k.1 i = free_units sl k.1 i + sell_value h i.
Proof. intros Hk. unfold free_units. cbn. rewrite (reserved_units_delete _ _ h), decide_True by done. lia. Qed.
Lemma hold_value_bound k h : sl_holds sl !! k = Some h -> 0 <= buy_value h < two63.
Proof.
  intros Hk. destruct (sv_hold _ Hs k h Hk). pose proof (cash_range k.1). pose proof (reserved_cash_range k.1).
  assert (Hle : (if decide (k.1 = k.1) then buy_value h else 0) <= reserved_cash (sl_holds sl) k.1).
  { apply (msum_entry (fun (k' : HoldKey) (h : Hold) => if decide (k.1 = k'.1) then buy_value h else 0) (sl_holds sl) k h); [|done].
    intros k' h' Hk'. destruct (sv_hold _ Hs k' h' Hk'). unfold buy_value. destruct (h_side h'); case_decide; nia. }
  rewrite decide_True in Hle by done. unfold buy_value in *. destruct (h_side h); nia.
Qed.

Lemma check_replace_funded limits cmd : 0 <= roc_new_quantity cmd < two64 ->
  roc_new_quantity cmd * roc_new_price cmd < two63 ->
  check_replace limits cmd lg = RejectReason.None -> funded sl (CmdReplaceOrder cmd).
Proof.
  intros Hq Hn. unfold check_replace. destruct (_ <? _); [done|]. intros Hchk. cbn [funded].
  set (k := (roc_account_id cmd, roc_original_client_order_id cmd)). intros h Hk Hi Hp.
  unfold find_hold in Hchk. fold k in Hchk. rewrite (tk_holds _ _ T), Hk in Hchk.
  cbn [fmap option_fmap option_map hv_instrument_id hv_side hv_remaining hv_limit_price] in Hchk.
  rewrite Hi, Z.eqb_refl in Hchk. cbn [negb] in Hchk.
  destruct (sv_hold _ Hs k h Hk) as [Hr Hl]. pose proof (hold_value_bound k h Hk) as Hv.
  unfold payable. cbn [h_side h_remaining h_limit_price h_instrument_id].
  pose proof (free_cash_close k h Hk) as F1. pose proof (free_units_close k h (roc_instrument_id cmd) Hk) as F2.
  change k.1 with (roc_account_id cmd) in F1, F2. rewrite F1, F2.
  unfold buy_value, sell_value in *. destruct (h_side h).
  - rewrite available_cash_exact, !notional_exact in Hchk by (try lia; nia).
    rewrite s64_small in Hchk by nia. destruct (_ <? _) eqn:E; [done|]. lia.
  - rewrite available_position_exact in Hchk. rewrite Hi, decide_True by done.
    destruct (h_remaining h <? roc_new_quantity cmd) eqn:El.
    + rewrite u64_small in Hchk by lia. destruct (_ <? _ - _) eqn:E; [done|]. lia.
    + pose proof (sv_units _ Hs (roc_account_id cmd) (roc_instrument_id cmd)). lia.
Qed.
End Exact.
