(* ===== verification/Venue.v ===== *)
(** * The venue: engine, ledger and risk gate together

    [venue_wf] is the invariant of a [RiskGatedEngine] with its engine and
    ledger; [act_ok] the admissible actions; [act_venue] the step theorem,
    progress included; [venue_history] the states reached from a fresh venue. *)
From S2P Require Import Prelude Types TickLadder SideIndex PriceQueues MatchingBook BookSpec MatchingEngine EngineSpec Directory EngineWf EngineRefine EngineProcess EngineRefinement EngineFacts MapSums Ledger LedgerSpec LedgerSim LedgerSolvent LedgerMatch Risk.

Record venue_wf (e : MatchingEngine MatchingBook) (lg : Ledger) (st : Spec) (sl : SpecLedger) (cash units : Z) : Prop := {
  vw_engine : engine_wf e;
  vw_refines : refines e st;
  vw_tracks : tracks lg sl;
  vw_solvent : solvent sl;
  vw_exact : holds_exact st (sl_holds sl);
  vw_cash : total (sl_cash sl) = cash;
  vw_units : total (sl_units sl) = units;
  vw_cash_fits : cash < two63;
  vw_units_fit : units < two64;
}.

(** What an action adds to the venue. *)
Definition cash_in (a : Action) : Z := match a with SeedCash _ d => d | _ => 0 end.
Definition units_in (a : Action) : Z := match a with SeedPosition _ _ d => d | _ => 0 end.
(** The value of an order at its limit fits in a [Balance]. *)
Definition priced (c : ExchangeCommand) : Prop :=
  match c with
  | CmdNewOrder c => noc_quantity c * noc_price c < two63
  | CmdReplaceOrder c => roc_new_quantity c * roc_new_price c < two63
  | CmdCancelOrder _ => True
  end.
Definition act_ok (e : MatchingEngine MatchingBook) (cash units : Z) (a : Action) : Prop :=
  cash + cash_in a < two63 /\ units + units_in a < two64 /\
  match a with
  | SeedCash _ d | SeedPosition _ _ d => 0 <= d
  | Submit c => priced c /\ exists st, refines e st /\ command_ok st c
  end.

Lemma spec_ext (st st' : Spec) : sp_books st = sp_books st' ->
  sp_next_exchange_order_id st = sp_next_exchange_order_id st' ->
  sp_next_event_sequence st = sp_next_event_sequence st' -> sp_next_priority st = sp_next_priority st' -> st = st'.
Proof. destruct st, st'. cbn. intros. by subst. Qed.
Lemma refines_unique (e : MatchingEngine MatchingBook) st st' : refines e st -> refines e st' -> st = st'.
Proof.
  intros [] []. apply spec_ext; try congruence. apply map_eq. intros i.
  destruct (Z.lt_ge_cases i 0); [rewrite rf_neg, rf_neg0; done|rewrite rf_books, rf_books0; done].
Qed.

Section Venue.
Context (e : MatchingEngine MatchingBook) (lg : Ledger) (st : Spec) (sl : SpecLedger) (cash units : Z)
  (V : venue_wf e lg st sl cash units).

Definition acted (a : Action) (out : option (MatchingEngine MatchingBook * Ledger * list ExchangeEvent)) : Prop :=
  exists e' lg' evs st' sl', out = Some (e', lg', evs) /\
    venue_wf e' lg' st' sl' (cash + cash_in a) (units + units_in a).

Lemma settled_venue c : command_ok st c -> funded sl c -> acted (Submit c) (process_settled e lg c).
Proof.
  intros Hc Hf. destruct V as [W R T Hs Hx HD HU HD' HU'].
  destruct (process_simulates e st c W R Hc) as (e' & Hp & W' & R').
  destruct (spec_process_ledger st (refines_spec_wf e st W R) sl Hs Hx c Hc Hf) as (Hfit & Hs' & Hx').
  destruct (sl_run_total (spec_process st c).2 sl) as [HD1 HU1].
  unfold process_settled. rewrite Hp. do 3 eexists. exists (spec_process st c).1, (sl_run sl (spec_process st c).2).
  split; [reflexivity|]. cbn [cash_in units_in]. rewrite !Z.add_0_r.
  split; [exact W'|exact R'|by apply stream_tracks|exact Hs'|exact Hx'|lia..].
Qed.
Lemma rejected_venue c (ev : EventSequence -> ExchangeEvent) :
  acted (Submit c) (let (e, ev) := emit e ev in Some (e, lg, [ev])).
Proof.
  destruct V. cbn. do 3 eexists. exists (sp_bump_seq st), sl. split; [reflexivity|].
  rewrite !Z.add_0_r. split; try done.
  all: first [by apply bump_seq_wf|by apply bump_seq_refines|by eapply holds_exact_books; [|exact vw_exact0]].
Qed.

Lemma gated_venue limits c : command_ok st c -> priced c -> acted (Submit c) (gated_process limits e lg c).
Proof.
  intros Hc Hp. destruct c as [cmd|cmd|cmd]; cbn [gated_process].
  - destruct (knows_instrument _ _); cbn [negb]; [|by apply rejected_venue].
    destruct (bool_decide _) eqn:Hchk; cbn [negb]; [|by apply rejected_venue].
    apply bool_decide_eq_true in Hchk. apply settled_venue; [done|]. destruct V. cbn in Hc.
    eapply (check_new_order_funded lg sl); try done; lia.
  - by apply settled_venue.
  - destruct (knows_instrument _ _); cbn [negb]; [|by apply rejected_venue].
    destruct (bool_decide _) eqn:Hchk; cbn [negb]; [|by apply rejected_venue].
    apply bool_decide_eq_true in Hchk. apply settled_venue; [done|]. destruct V. cbn in Hc.
    eapply (check_replace_funded lg sl); try done; lia.
Qed.

Lemma seed_cash_tracks a d : tracks (deposit_cash lg a d) (sl_deposit_cash sl a d).
Proof.
  destruct V as [_ _ [F Hh Hn] _ _ _ _ _ _]. split; unfold deposit_cash; rewrite ?holds_with, ?hold_count_with; try done.
  eapply fields_ext; [by apply (fields_cash _ _ _ _ _ F a d d)|..]; intros; try done. apply amount_add_at.
Qed.
Lemma seed_units_tracks a i d : tracks (deposit_position lg a i d) (sl_deposit_units sl a i d).
Proof.
  destruct V as [_ _ [F Hh Hn] _ _ _ _ _ _]. split; unfold deposit_position; rewrite ?holds_with, ?hold_count_with; try done.
  eapply fields_ext; [by apply (fields_units _ _ _ _ _ F a i d)|..]; intros; try done. cbn [sl_deposit_units sl_units].
  rewrite amount_add_at. repeat case_decide; simplify_eq; try lia; done.
Qed.

Lemma act_venue limits a : act_ok e cash units a -> acted a (act limits e lg a).
Proof.
  intros (Hcash & Hunits & Ha). destruct a as [acc d|acc i d|c]; cbn [act cash_in units_in] in *.
  - do 3 eexists. exists st, (sl_deposit_cash sl acc d). split; [reflexivity|]. cbn [cash_in units_in].
    pose proof (seed_cash_tracks acc d). destruct V. split; try done; [|cbn; rewrite total_add_at; lia|cbn; lia].
    destruct vw_solvent0 as [S1 S2 S3]. split; [done| |done]. intros a. specialize (S2 a).
    unfold free_cash in *. cbn. rewrite amount_add_at. case_decide; lia.
  - do 3 eexists. exists st, (sl_deposit_units sl acc i d). split; [reflexivity|]. cbn [cash_in units_in].
    pose proof (seed_units_tracks acc i d). destruct V. split; try done; [|cbn; lia|cbn; rewrite total_add_at; lia].
    destruct vw_solvent0 as [S1 S2 S3]. split; [done|done|]. intros a j. specialize (S3 a j).
    unfold free_units in *. cbn. rewrite amount_add_at. case_decide; lia.
  - destruct Ha as (Hp & st' & R' & Hc). rewrite (refines_unique e st' st R') in Hc by apply V.
    by apply gated_venue.
Qed.
End Venue.

(** ** Histories *)
Definition sl_new : SpecLedger := {| sl_cash := ∅; sl_units := ∅; sl_holds := ∅ |}.

Inductive venue_history (universe : list InstrumentId) (expected : Z) (limits : RiskLimits)
    : MatchingEngine MatchingBook -> Ledger -> Z -> Z -> Prop :=
| vh_new : venue_history universe expected limits (MatchingEngine_new universe expected) Ledger_new 0 0
| vh_act e lg cash units a e' lg' evs : venue_history universe expected limits e lg cash units ->
    act_ok e cash units a -> act limits e lg a = Some (e', lg', evs) ->
    venue_history universe expected limits e' lg' (cash + cash_in a) (units + units_in a).

Lemma new_side universe i s : sp_side (sp_new universe) i s = [].
Proof.
  unfold sp_new. set (st0 := {| sp_books := ∅ |}). assert (H0 : forall i s, sp_side st0 i s = []) by done.
  clearbody st0. revert st0 H0. induction universe as [|id universe IH]; intros st0 H0; [by apply H0|].
  cbn [foldl]. apply IH. intros j s'. unfold sp_register. destruct (_ || _); cbn [snd]; [by apply H0|].
  specialize (H0 j s'). unfold sp_side in *. cbn. destruct (decide (j = id)) as [->|Hne].
  - rewrite lookup_insert_eq. by destruct s'.
  - by rewrite lookup_insert_ne.
Qed.

Lemma new_venue universe expected : Forall (fun id => 0 <= id) universe ->
  venue_wf (MatchingEngine_new universe expected) Ledger_new (sp_new universe) sl_new 0 0.
Proof.
  intros Hu. destruct (new_refines (B := MatchingBook) universe expected Hu) as [W R].
  split; try done.
  intros k h. split; [done|]. intros (r & Hr & _). unfold live in Hr. rewrite new_side in Hr. set_solver.
Qed.

Lemma history_venue universe expected limits e lg cash units : Forall (fun id => 0 <= id) universe ->
  venue_history universe expected limits e lg cash units ->
  exists st sl, venue_wf e lg st sl cash units.
Proof.
  intros Hu. induction 1 as [|e lg cash units a e' lg' evs _ (st & sl & V) Hok Hact].
  - exists (sp_new universe), sl_new. by apply new_venue.
  - destruct (act_venue e lg st sl cash units V limits a Hok) as (e1 & lg1 & evs1 & st1 & sl1 & Hact' & V').
    rewrite Hact in Hact'. injection Hact' as <- <- _. by exists st1, sl1.
Qed.

(** ** What an observer sees *)
Section Observed.
Context (e : MatchingEngine MatchingBook) (lg : Ledger) (st : Spec) (sl : SpecLedger) (cash units : Z)
  (V : venue_wf e lg st sl cash units).

Lemma held_iff a c hv : find_hold lg a c = Some hv <->
  exists o, 0 <= hv_instrument_id hv /\ o ∈ side_orders e (hv_instrument_id hv) (hv_side hv) /\
    bo_key o = (a, c) /\ bo_price o = hv_limit_price hv /\ bo_remaining_quantity o = hv_remaining hv.
Proof.
  destruct V as [W R T _ Hx _ _ _ _]. unfold find_hold. rewrite (tk_holds _ _ T). split.
  - destruct (sl_holds sl !! (a, c)) as [h|] eqn:Hk; cbn; [|done]. intros [= <-]. cbn.
    apply Hx in Hk as (r & Hr & Hkey & <-). cbn. destruct (side_elem e st W R _ _ _ Hr) as [Hi _].
    exists (book_order_of r). split; [done|]. rewrite (side_orders_spec e st W R) by done.
    split; [by apply list_elem_of_fmap_2|]. split; [exact Hkey|done].
  - intros (o & Hi & Ho & Hkey & Hp & Hq). rewrite (side_orders_spec e st W R) in Ho by done.
    apply list_elem_of_fmap in Ho as (r & -> & Hr).
    destruct (wf_place _ (refines_spec_wf e st W R) _ _ _ Hr) as (E1 & E2 & _).
    assert (Hlive : live st r) by (unfold live; by rewrite E1, E2).
    pose proof (holds_exact_live _ _ _ Hx Hlive) as Hh. change (ero_key r) with (bo_key (book_order_of r)) in Hh.
    rewrite Hkey in Hh. rewrite Hh. cbn. f_equal. destruct hv. cbn in *. by subst.
Qed.

Lemma counts_agree : lg_hold_count lg = me_resting_orders e.
Proof.
  destruct V as [W R T _ Hx _ _ _ _]. rewrite (tk_hold_count _ _ T), (ew_resting _ W), (tk_holds _ _ T).
  do 2 f_equal. rewrite <- (size_dom (D := gset (Z * Z)) (sl_holds sl)), <- (size_dom (D := gset (Z * Z)) (me_orders e)).
  f_equal. apply set_eq. intros k. rewrite !elem_of_dom.
  rewrite <- (bool_decide_eq_true (is_Some (me_orders e !! k))), <- (key_live_dir e st W R k).
  unfold key_live. rewrite bool_decide_eq_true, Exists_exists. split.
  - intros [h (r & Hr & Hk & _)%Hx]. exists r. split; [|done]. apply elem_of_all_live.
    unfold live, sp_side in Hr. destruct (sp_books st !! ero_instrument_id r) as [sb|] eqn:E; [|set_solver].
    exists (ero_instrument_id r), sb. split; [done|]. destruct (ero_side r); auto.
  - intros (r & (i & sb & Hsb & Hr)%elem_of_all_live & Hk).
    assert (Hs : exists s, r ∈ sp_side st i s).
    { destruct Hr; [exists Buy|exists Sell]; unfold sp_side; by rewrite Hsb. }
    destruct Hs as [s Hs]. destruct (wf_place _ (refines_spec_wf e st W R) _ _ _ Hs) as (E1 & E2 & _).
    exists (hold_of r). rewrite <- Hk. apply holds_exact_live with (st := st); [done|]. unfold live. by rewrite E1, E2.
Qed.

Lemma cash_sum : ledger_sum cash_total lg = cash.
Proof.
  destruct V as [_ _ T Hs _ HD _ HD' _]. rewrite <- HD. apply msum_total. intros a.
  rewrite <- (cash_total_exact lg sl T Hs ltac:(lia) a). unfold balances. by destruct (lg_accounts lg !! a).
Qed.
End Observed.
