(* ===== verification/LedgerClaims.v ===== *)
(** * Properties of the ledger and of the venue

    The account side of the exchange: conservation for any event stream, and,
    for the venue made of engine, ledger and risk gate, that nobody is ever
    overdrawn, that holds are exactly the resting orders, that the risk check
    decides on exact amounts, and that every admissible action completes. *)
From S2P Require Import Prelude Types TickLadder SideIndex PriceQueues MatchingBook BookSpec MatchingEngine EngineSpec Directory EngineWf EngineRefine EngineProcess EngineRefinement EngineFacts EngineClaims MapSums Ledger LedgerSpec LedgerSim LedgerSolvent LedgerMatch Risk Venue.

(** ** A concrete venue *)
Lemma submit_history universe expected limits e lg cash units st c e' lg' evs :
  venue_history universe expected limits e lg cash units /\ engine_wf e /\ refines e st ->
  command_ok st c -> priced c -> cash < two63 -> units < two64 ->
  gated_process limits e lg c = Some (e', lg', evs) -> process e c = Some (e', evs) ->
  venue_history universe expected limits e' lg' cash units /\ engine_wf e' /\ refines e' (spec_process st c).1.
Proof.
  intros (Hh & W & R) Hc Hp Hcash Hunits Hg Hproc. split.
  - rewrite <- (Z.add_0_r cash), <- (Z.add_0_r units).
    apply (vh_act _ _ _ e lg cash units (Submit c) e' lg' evs Hh); [|done].
    split; [cbn; lia|]. split; [cbn; lia|]. split; [done|]. by exists st.
  - destruct (process_simulates e st c W R Hc) as (e1 & H1 & W1 & R1). rewrite Hproc in H1. by injection H1 as -> _.
Qed.

Definition shop_new (account coid : Z) (s : Side) (price qty : Z) : NewOrderCommand :=
  {| noc_command_sequence := 1; noc_account_id := account; noc_client_order_id := coid; noc_instrument_id := 7;
     noc_side := s; noc_price := price; noc_quantity := qty; noc_order_type := Limit; noc_time_in_force := GTC |}.
Definition shop_seed : MatchingEngine MatchingBook * Ledger :=
  (MatchingEngine_new [7] 0, deposit_position (deposit_cash Ledger_new 1 1000) 2 7 10).
Definition shop_after (s : MatchingEngine MatchingBook * Ledger) (c : ExchangeCommand) : MatchingEngine MatchingBook * Ledger :=
  match gated_process RiskLimits_default s.1 s.2 c with Some (e, lg, _) => (e, lg) | None => s end.
Definition shop_sell : ExchangeCommand := CmdNewOrder (shop_new 2 1 Sell 100 5).
Definition shop_buy : ExchangeCommand := CmdNewOrder (shop_new 1 1 Buy 101 8).
Definition shop1 : MatchingEngine MatchingBook * Ledger := shop_after shop_seed shop_sell.
Definition shop2 : MatchingEngine MatchingBook * Ledger := shop_after shop1 shop_buy.

Lemma shop_history : venue_history [7] 0 RiskLimits_default shop2.1 shop2.2 1000 10.
Proof.
  assert (H0 : venue_history [7] 0 RiskLimits_default shop_seed.1 shop_seed.2 1000 10).
  { apply (vh_act _ _ _ (MatchingEngine_new [7] 0) (deposit_cash Ledger_new 1 1000) 1000 0 (SeedPosition 2 7 10) _ _ []);
      [|split; [cbn; lia|split; cbn; lia]|reflexivity].
    apply (vh_act _ _ _ (MatchingEngine_new [7] 0) Ledger_new 0 0 (SeedCash 1 1000) _ _ []);
      [constructor|split; [cbn; lia|split; cbn; lia]|reflexivity]. }
  pose proof (new_refines (B := MatchingBook) [7] 0 ltac:(repeat constructor; lia)) as R0.
  assert (H1 : venue_history [7] 0 RiskLimits_default shop1.1 shop1.2 1000 10 /\ engine_wf shop1.1 /\
    refines shop1.1 (spec_process (sp_new [7]) shop_sell).1).
  { eapply (submit_history _ _ _ shop_seed.1 shop_seed.2 _ _ (sp_new [7]) shop_sell); [by split| | | | | |].
    - unfold command_ok, shop_sell, shop_new. solve_ok.
    - vm_compute. reflexivity.
    - lia.
    - lia.
    - vm_compute. reflexivity.
    - vm_compute. reflexivity. }
  refine (proj1 (submit_history _ _ _ shop1.1 shop1.2 _ _ _ shop_buy _ _ _ H1 _ _ _ _ _ _)).
  - unfold command_ok, shop_buy, shop_new. solve_ok.
  - vm_compute. reflexivity.
  - lia.
  - lia.
  - vm_compute. reflexivity.
  - vm_compute. reflexivity.
Qed.

(** ** The venue *)

(** C4: nobody is ever overdrawn, as long as no order's value leaves 64 bits.
    In every state a risk-gated venue reaches by admissible actions
    ([act_ok]: each order and replacement worth less than 2^63, within its
    field widths and onto a free client order id; all deposits together below
    2^63 cash and 2^64 units), every account's reserved cash is between zero
    and its cash, its reserved units of every instrument between zero and its
    units, and all the cash in the ledger is exactly the cash deposited.  The
    bound on the value is needed: see [overflowing_value_overdraws]. *)
Theorem never_overdrawn universe expected limits e lg cash units a i :
  Forall (fun id => 0 <= id) universe -> venue_history universe expected limits e lg cash units ->
  0 <= cash_reserved (balances lg a) <= cash_total (balances lg a) /\
  0 <= units_reserved lg a i <= units_total lg a i /\
  ledger_sum cash_total lg = cash.
Proof.
  intros Hu Hh. destruct (history_venue _ _ _ _ _ _ _ Hu Hh) as (st & sl & V).
  split; [|split; [|by apply (cash_sum e lg st sl cash units)]]; destruct V.
  - rewrite (cash_total_exact lg sl), (cash_reserved_exact lg sl) by (try done; lia).
    apply reserved_cash_range; done || lia.
  - rewrite (units_total_exact lg sl), (units_reserved_exact lg sl) by (try done; lia).
    apply reserved_units_range; done || lia.
Qed.
Lemma never_overdrawn_witness : cash_reserved (balances shop2.2 1) = 303 /\
  0 <= cash_reserved (balances shop2.2 1) <= cash_total (balances shop2.2 1) /\ ledger_sum cash_total shop2.2 = 1000.
Proof.
  split; [vm_compute; reflexivity|].
  destruct (never_overdrawn [7] 0 RiskLimits_default shop2.1 shop2.2 1000 10 1 7) as (H1 & _ & H3);
    [repeat constructor; lia|exact shop_history|].
  split; [exact H1|exact H3].
Defined.

(** What an account has reserved is exactly the value of its open holds:
    cash for the buys at their limit prices, units for the sells. *)
Lemma reserved_is_sum_of_holds universe expected limits e lg cash units a i :
  Forall (fun id => 0 <= id) universe -> venue_history universe expected limits e lg cash units ->
  cash_reserved (balances lg a) = reserved_cash (lg_holds lg) a /\
  units_reserved lg a i = reserved_units (lg_holds lg) a i.
Proof.
  intros Hu Hh. destruct (history_venue _ _ _ _ _ _ _ Hu Hh) as (st & sl & V). destruct V.
  rewrite (tk_holds _ _ vw_tracks). split; [apply cash_reserved_exact|apply units_reserved_exact]; done || lia.
Qed.

(** C5: the open holds are exactly the resting orders: an account's client
    order id has a hold if and only if that order rests in a book, and the
    hold says its instrument, side, limit price and open quantity; the hold
    count is the engine's resting-order count; and what the account has
    reserved is exactly the value of its holds: cash for the buys at their
    limit prices, units for the sells. *)
Theorem holds_are_resting_orders universe expected limits e lg cash units a c hv :
  Forall (fun id => 0 <= id) universe -> venue_history universe expected limits e lg cash units ->
  (find_hold lg a c = Some hv <->
   exists o, 0 <= hv_instrument_id hv /\ o ∈ side_orders e (hv_instrument_id hv) (hv_side hv) /\
     bo_key o = (a, c) /\ bo_price o = hv_limit_price hv /\ bo_remaining_quantity o = hv_remaining hv) /\
  lg_hold_count lg = me_resting_orders e /\
  cash_reserved (balances lg a) = reserved_cash (lg_holds lg) a /\
  forall i, units_reserved lg a i = reserved_units (lg_holds lg) a i.
Proof.
  intros Hu Hh. destruct (history_venue _ _ _ _ _ _ _ Hu Hh) as (st & sl & V).
  split_and!; [by apply (held_iff e lg st sl cash units)|by apply (counts_agree e lg st sl cash units)| |intros i];
    by eapply (reserved_is_sum_of_holds universe expected limits e lg cash units a).
Qed.
Definition shop_hold : HoldView := {| hv_instrument_id := 7; hv_side := Buy; hv_limit_price := 101; hv_remaining := 3 |}.
Lemma holds_are_resting_orders_witness : lg_hold_count shop2.2 = 1 /\ cash_reserved (balances shop2.2 1) = 303 /\ exists o,
  o ∈ side_orders shop2.1 7 Buy /\ bo_key o = (1, 1) /\ bo_remaining_quantity o = 3.
Proof.
  split; [vm_compute; reflexivity|].
  destruct (holds_are_resting_orders [7] 0 RiskLimits_default shop2.1 shop2.2 1000 10 1 1 shop_hold) as (Hi & _ & Hr & _);
    [repeat constructor; lia|exact shop_history|].
  split; [rewrite Hr; vm_compute; reflexivity|]. destruct (proj1 Hi ltac:(vm_compute; reflexivity)) as (o & _ & Ho & Hk & _ & Hq).
  exists o. split; [exact Ho|]. split; [exact Hk|exact Hq].
Defined.

(** C6: every admissible action completes: seeding, and any command that is
    within its field widths, is processed to the end by the gated engine --
    accepted or rejected, never an exception -- and the history goes on. *)
Theorem venue_progress universe expected limits e lg cash units a :
  Forall (fun id => 0 <= id) universe -> venue_history universe expected limits e lg cash units ->
  act_ok e cash units a ->
  exists e' lg' evs, act limits e lg a = Some (e', lg', evs) /\
    venue_history universe expected limits e' lg' (cash + cash_in a) (units + units_in a).
Proof.
  intros Hu Hh Hok. destruct (history_venue _ _ _ _ _ _ _ Hu Hh) as (st & sl & V).
  destruct (act_venue e lg st sl cash units V limits a Hok) as (e' & lg' & evs & st' & sl' & Hact & _).
  exists e', lg', evs. split; [done|]. by eapply vh_act.
Qed.
Lemma venue_progress_witness : exists e' lg' evs,
  act RiskLimits_default shop2.1 shop2.2 (SeedCash 3 50) = Some (e', lg', evs) /\
  venue_history [7] 0 RiskLimits_default e' lg' (1000 + 50) (10 + 0).
Proof.
  apply (venue_progress [7] 0 RiskLimits_default shop2.1 shop2.2 1000 10 (SeedCash 3 50));
    [repeat constructor; lia|exact shop_history|]. split; [cbn; lia|split; cbn; lia].
Defined.

(** C21: the check of a new order decides on exact amounts and each answer
    says why.  Too large: the quantity is above the cap, whatever else holds.
    Otherwise insufficient funds: a buy whose full value exceeds the
    account's unreserved cash; insufficient position: a sale of more than its
    unreserved units; it passes in every other case and only then.  What is
    refused by the check for a known instrument is answered by one rejection
    with that reason, and changes neither the ledger nor any order.  (For an
    order worth less than 2^63.) *)
Theorem new_order_check_exact universe expected limits e lg cash units cmd :
  Forall (fun id => 0 <= id) universe -> venue_history universe expected limits e lg cash units ->
  0 <= noc_quantity cmd -> 0 < noc_price cmd -> noc_quantity cmd * noc_price cmd < two63 ->
  let reason := check_new_order limits cmd lg in
  let large := max_order_quantity limits < noc_quantity cmd in
  let unfunded := noc_side cmd = Buy /\
    cash_total (balances lg (noc_account_id cmd)) - cash_reserved (balances lg (noc_account_id cmd)) <
    noc_quantity cmd * noc_price cmd in
  let unheld := noc_side cmd = Sell /\
    units_total lg (noc_account_id cmd) (noc_instrument_id cmd) - units_reserved lg (noc_account_id cmd) (noc_instrument_id cmd) <
    noc_quantity cmd in
  (reason = RejectReason.OrderTooLarge <-> large) /\
  (reason = RejectReason.InsufficientFunds <-> ~ large /\ unfunded) /\
  (reason = RejectReason.InsufficientPosition <-> ~ large /\ unheld) /\
  (reason = RejectReason.None <-> ~ large /\ ~ unfunded /\ ~ unheld) /\
  (reason <> RejectReason.None -> knows_instrument e (noc_instrument_id cmd) = true ->
     exists e' r, gated_process limits e lg (CmdNewOrder cmd) = Some (e', lg, [EvOrderRejected r]) /\
       orj_reason r = reason /\ orj_account_id r = noc_account_id cmd /\ orj_client_order_id r = noc_client_order_id cmd /\
       e' = bump_event_sequence e).
Proof.
  intros Hu Hh Hq Hp Hn. destruct (history_venue _ _ _ _ _ _ _ Hu Hh) as (st & sl & V). destruct V. cbn zeta.
  rewrite (cash_total_exact lg sl), (cash_reserved_exact lg sl), (units_total_exact lg sl), (units_reserved_exact lg sl)
    by (try done; lia).
  assert (E : check_new_order limits cmd lg = if max_order_quantity limits <? noc_quantity cmd then RejectReason.OrderTooLarge
    else match noc_side cmd with
         | Buy => if free_cash sl (noc_account_id cmd) <? noc_quantity cmd * noc_price cmd then RejectReason.InsufficientFunds else RejectReason.None
         | Sell => if free_units sl (noc_account_id cmd) (noc_instrument_id cmd) <? noc_quantity cmd then RejectReason.InsufficientPosition else RejectReason.None
         end).
  { unfold check_new_order. by rewrite (available_cash_exact lg sl), (available_position_exact lg sl), notional_exact by (try done; lia). }
  split_and!; [..|intros Hr Hk; cbn [gated_process]; rewrite Hk, bool_decide_eq_false_2 by done; cbn; by eexists _, _]; clear Hh;
    rewrite E; unfold free_cash, free_units; destruct (Z.ltb_spec (max_order_quantity limits) (noc_quantity cmd)); destruct (noc_side cmd);
    repeat match goal with |- context [?a <? ?b] => destruct (Z.ltb_spec a b) end; split; intros Hx; try discriminate Hx; try reflexivity;
    split_and?; try done; try lia; naive_solver lia.
Qed.
Lemma new_order_check_exact_witness :
  check_new_order RiskLimits_default (shop_new 1 2 Buy 100 1) shop2.2 = RejectReason.None /\
  check_new_order RiskLimits_default (shop_new 1 2 Buy 100 2) shop2.2 = RejectReason.InsufficientFunds.
Proof.
  split.
  - apply (new_order_check_exact [7] 0 RiskLimits_default shop2.1 shop2.2 1000 10 (shop_new 1 2 Buy 100 1));
      [repeat constructor; lia|exact shop_history|cbn; lia..|].
    split; [vm_compute; discriminate|]. split; intros [Hs Hx]; [vm_compute in Hx; discriminate|discriminate Hs].
  - apply (new_order_check_exact [7] 0 RiskLimits_default shop2.1 shop2.2 1000 10 (shop_new 1 2 Buy 100 2));
      [repeat constructor; lia|exact shop_history|cbn; lia..|].
    split; [vm_compute; discriminate|]. split; vm_compute; reflexivity.
Defined.

(** An event never creates or destroys cash or units.  For any event, in
    any ledger, the sum of all cash and the sum of all units of each
    instrument are unchanged (as 64-bit amounts). *)
Lemma events_conserve lg evs i :
  ledger_cash (apply_all lg evs) = ledger_cash lg /\ ledger_units i (apply_all lg evs) = ledger_units i lg.
Proof.
  revert lg. induction evs as [|ev evs IH]; intros lg; [done|]. destruct (IH (apply lg ev)) as [H1 H2].
  split; [exact (eq_trans H1 (apply_cash lg ev))|exact (eq_trans H2 (apply_units i lg ev))].
Qed.

(** The value of an order is computed in 64 bits: a buy of 4 at 2^62
    needs 2^64, which wraps to nothing, so an account without any cash passes
    the risk check, its order rests, and nothing is reserved for it. *)
Definition wrap_order : NewOrderCommand := shop_new 9 1 Buy 4611686018427387904 4.
Lemma overflowing_value_passes : exists e' lg' evs,
  check_new_order RiskLimits_default wrap_order Ledger_new = RejectReason.None /\
  gated_process RiskLimits_default (MatchingEngine_new [7] 0 : MatchingEngine MatchingBook) Ledger_new (CmdNewOrder wrap_order)
    = Some (e', lg', evs) /\
  me_resting_orders e' = 1 /\ cash_reserved (balances lg' 9) = 0 /\ cash_total (balances lg' 9) = 0.
Proof. do 3 eexists. split; [vm_compute; reflexivity|]. split; [vm_compute; reflexivity|]. split; [|split]; vm_compute; reflexivity. Qed.

(** A buy of 2 at 2^62 is worth 2^63, which wraps to -2^63: it passes the
    check of an account without any cash, and its reservation is negative. *)
Definition negative_order : NewOrderCommand := shop_new 9 1 Buy 4611686018427387904 2.
Lemma overflowing_value_overdraws : exists e' lg' evs,
  gated_process RiskLimits_default (MatchingEngine_new [7] 0 : MatchingEngine MatchingBook) Ledger_new (CmdNewOrder negative_order)
    = Some (e', lg', evs) /\
  me_resting_orders e' = 1 /\ cash_reserved (balances lg' 9) = - two63.
Proof. do 3 eexists. split; [vm_compute; reflexivity|]. split; vm_compute; reflexivity. Qed.
