(* ===== verification/ByteIO.v ===== *)
(** * Byte encoding: include/common/byte_io.hpp

    Big-endian put and get.  A byte is a [Z] in [0, 256); a buffer is the
    list of its bytes; a [ByteReader] is the bytes from its position on (the
    span is never read before [pos_]).  Reading and writing are inverse at
    every width ([get_put_u32] and so on), and a successful read consumed
    exactly the encoding of what it returned ([get_be_inv]). *)
From S2P Require Import Prelude Types.

Abbreviation byte := Z (only parsing).
Definition is_byte (b : byte) : Prop := 0 <= b < 256.

(** ** Writing *)
Definition put_u8 (buf : list byte) (v : Z) : list byte := buf ++ [v].
Definition put_u16 (buf : list byte) (v : Z) : list byte :=
  buf ++ [Z.land (Z.shiftr v 8) 255] ++ [Z.land v 255].
(** The loop [for (shift = 8 * (n - 1); shift >= 0; shift -= 8)]. *)
Fixpoint put_loop (n : nat) (buf : list byte) (v : Z) : list byte :=
  match n with
  | O => buf
  | S n => put_loop n (buf ++ [Z.land (Z.shiftr v (8 * Z.of_nat n)) 255]) v
  end.
Definition put_u32 (buf : list byte) (v : Z) : list byte := put_loop 4 buf v.
Definition put_u64 (buf : list byte) (v : Z) : list byte := put_loop 8 buf v.
Definition put_i64 (buf : list byte) (v : Z) : list byte := put_u64 buf (u64 v).

(** ** Reading *)
Definition ByteReader := list byte.
Definition remaining (r : ByteReader) : nat := length r.
(** The loop [v = (v << 8) | data_[pos_ + i]] at a width. *)
Definition get_loop (wrap : Z -> Z) (data : list byte) : Z :=
  foldl (fun v b => wrap (Z.lor (Z.shiftl v 8) b)) 0 data.
Definition get_be (n : nat) (wrap : Z -> Z) (r : ByteReader) : option (Z * ByteReader) :=
  if (remaining r <? n)%nat then None else Some (get_loop wrap (take n r), drop n r).
Definition get_u8 (r : ByteReader) : option (Z * ByteReader) :=
  match r with [] => None | b :: r => Some (b, r) end.
Definition get_u16 : ByteReader -> option (Z * ByteReader) := get_be 2 u16.
Definition get_u32 : ByteReader -> option (Z * ByteReader) := get_be 4 u32.
Definition get_u64 : ByteReader -> option (Z * ByteReader) := get_be 8 u64.
Definition get_i64 (r : ByteReader) : option (Z * ByteReader) :=
  let* (v, r) := get_u64 r in Some (s64 v, r).

(** ** The big-endian bytes of a number *)
Fixpoint be (n : nat) (v : Z) : list byte :=
  match n with O => [] | S n => (v / 256 ^ Z.of_nat n) mod 256 :: be n v end.

Lemma length_be n v : length (be n v) = n.
Proof. induction n as [|n IH]; cbn; [done|by rewrite IH]. Qed.
Lemma be_bytes n v : Forall is_byte (be n v).
Proof. induction n as [|n IH]; cbn; constructor; [|done]. unfold is_byte. apply Z.mod_pos_bound. lia. Qed.
Lemma land_255 v : Z.land v 255 = v mod 256.
Proof. change 255 with (Z.ones 8). by rewrite Z.land_ones by lia. Qed.
Lemma shiftr_byte v n : Z.shiftr v (8 * Z.of_nat n) = v / 256 ^ Z.of_nat n.
Proof. rewrite Z.shiftr_div_pow2 by lia. f_equal. rewrite Z.pow_mul_r by lia. done. Qed.
Lemma put_loop_be n : forall buf v, put_loop n buf v = buf ++ be n v.
Proof.
  induction n as [|n IH]; intros buf v; cbn [put_loop be]; [by rewrite app_nil_r|].
  rewrite IH, land_255, shiftr_byte, <- app_assoc. done.
Qed.
Lemma put_u16_be buf v : put_u16 buf v = buf ++ be 2 v.
Proof. unfold put_u16. cbn [be]. rewrite !land_255, Z.shiftr_div_pow2 by lia. cbn. by rewrite Z.div_1_r. Qed.
Lemma put_u32_be buf v : put_u32 buf v = buf ++ be 4 v.
Proof. apply put_loop_be. Qed.
Lemma put_u64_be buf v : put_u64 buf v = buf ++ be 8 v.
Proof. apply put_loop_be. Qed.
Lemma put_i64_be buf v : put_i64 buf v = buf ++ be 8 (u64 v).
Proof. apply put_loop_be. Qed.

(** Shifting in a byte. *)
Lemma land_byte v b : is_byte b -> Z.land (v * 256) b = 0.
Proof.
  intros [Hb1 Hb2]. apply Z.bits_inj'. intros k Hk. rewrite Z.land_spec, Z.bits_0.
  change 256 with (2 ^ 8). rewrite Z.mul_pow2_bits by lia.
  destruct (Z.lt_ge_cases k 8); [by rewrite Z.testbit_neg_r by lia|].
  rewrite (Z.bits_above_log2 b k), andb_false_r; [done|lia|].
  destruct (Z.eq_dec b 0) as [->|]; [cbn; lia|]. apply Z.log2_lt_pow2; [lia|].
  apply Z.lt_le_trans with (2 ^ 8); [exact Hb2|]. by apply Z.pow_le_mono_r.
Qed.
Lemma lor_byte v b : is_byte b -> Z.lor (Z.shiftl v 8) b = v * 256 + b.
Proof.
  intros Hb. rewrite Z.shiftl_mul_pow2 by lia. change (2 ^ 8) with 256. pose proof (land_byte v b Hb) as Hl.
  rewrite <- Z.lxor_lor by done. symmetry. by apply Z.add_nocarry_lxor.
Qed.

(** ** The read loop computes the number *)
Section Loop.
Context (M : Z) (wrap : Z -> Z) (HM : 0 < M) (Hw : forall z, wrap z = z mod M).
Let step (v : Z) (b : byte) : Z := wrap (Z.lor (Z.shiftl v 8) b).

Lemma step_mod v b : is_byte b -> step v b = (v * 256 + b) mod M.
Proof. intros Hb. unfold step. by rewrite Hw, lor_byte. Qed.
Lemma foldl_be n v : forall acc, 0 <= acc < M ->
  foldl step acc (be n v) = (acc * 256 ^ Z.of_nat n + v mod 256 ^ Z.of_nat n) mod M.
Proof.
  induction n as [|n IH]; intros acc Ha; cbn [be foldl].
  - rewrite Z.mod_1_r, Z.mod_small; lia.
  - rewrite IH.
    2: { rewrite step_mod by (apply Z.mod_pos_bound; lia). apply Z.mod_pos_bound. lia. }
    rewrite step_mod by (apply Z.mod_pos_bound; lia). rewrite Nat2Z.inj_succ, Z.pow_succ_r by lia.
    set (p := 256 ^ Z.of_nat n). assert (Hp : 0 < p) by (apply Z.pow_pos_nonneg; lia).
    rewrite (Z.mul_comm 256 p), Z.rem_mul_r by lia. set (d := (v / p) mod 256).
    rewrite <- Z.add_mod_idemp_l, Z.mul_mod_idemp_l, Z.add_mod_idemp_l by lia. f_equal. ring.
Qed.
Lemma get_loop_be n v : M = 256 ^ Z.of_nat n -> 0 <= v < M -> get_loop wrap (be n v) = v.
Proof.
  intros Hn Hv. unfold get_loop. fold step. rewrite foldl_be by lia. rewrite <- Hn.
  rewrite Z.mul_0_l, Z.add_0_l, Z.mod_mod, Z.mod_small by lia. done.
Qed.

(** Conversely, the bytes read are the encoding of the result. *)
Lemma be_value n v k : 0 <= k -> be n (v + k * 256 ^ Z.of_nat n) = be n v.
Proof.
  revert k. induction n as [|n IH]; intros k Hk; [done|]. cbn [be].
  rewrite Nat2Z.inj_succ, Z.pow_succ_r by lia. set (p := 256 ^ Z.of_nat n) in *.
  assert (Hp : 0 < p) by (apply Z.pow_pos_nonneg; lia).
  replace (v + k * (256 * p)) with (v + (k * 256) * p) by ring. rewrite Z.div_add by lia.
  rewrite Z.mod_add by lia. f_equal. apply IH. lia.
Qed.
Lemma be_foldl l : forall acc, Forall is_byte l -> 0 <= acc -> (acc + 1) * 256 ^ Z.of_nat (length l) <= M ->
  be (length l) (foldl step acc l) = l /\
  acc * 256 ^ Z.of_nat (length l) <= foldl step acc l < (acc + 1) * 256 ^ Z.of_nat (length l).
Proof.
  induction l as [|b l IH]; intros acc Hl Ha HM'; cbn [length foldl be] in *.
  - rewrite Z.mul_1_r in *. split; [done|lia].
  - apply Forall_cons in Hl as [Hb Hl]. rewrite Nat2Z.inj_succ, Z.pow_succ_r in HM' |- * by lia.
    set (p := 256 ^ Z.of_nat (length l)) in *. assert (Hp : 0 < p) by (apply Z.pow_pos_nonneg; lia).
    unfold is_byte in Hb.
    assert (Hs : step acc b = acc * 256 + b) by (rewrite step_mod by done; apply Z.mod_small; nia).
    rewrite Hs. destruct (IH (acc * 256 + b) Hl ltac:(lia)) as [IH1 IH2]; [nia|]. set (w := foldl step _ l) in *.
    split; [|nia]. rewrite IH1. f_equal. assert (w / p = acc * 256 + b) as -> by (symmetry; apply Z.div_unique with (w - (acc * 256 + b) * p); nia).
    rewrite Z.add_comm, Z.mod_add, Z.mod_small by lia. done.
Qed.
Lemma be_get_loop l : M = 256 ^ Z.of_nat (length l) -> Forall is_byte l ->
  be (length l) (get_loop wrap l) = l /\ 0 <= get_loop wrap l < M.
Proof.
  intros HMl Hl. unfold get_loop. fold step. destruct (be_foldl l 0 Hl ltac:(lia)) as [H1 H2]; [lia|].
  split; [done|lia].
Qed.
End Loop.

(** ** Reads are inverse to writes *)
Lemma get_be_put n wrap M v rest : (forall z, wrap z = z mod M) -> M = 256 ^ Z.of_nat n -> 0 <= v < M ->
  get_be n wrap (be n v ++ rest) = Some (v, rest).
Proof.
  intros Hw HM Hv. unfold get_be, remaining. rewrite length_app, length_be.
  destruct (_ <? _)%nat eqn:E; [apply Nat.ltb_lt in E; lia|].
  rewrite take_app_length', drop_app_length' by (by rewrite length_be).
  rewrite (get_loop_be M) by (try done; lia). done.
Qed.
Lemma get_be_inv n wrap M r v rest : (forall z, wrap z = z mod M) -> M = 256 ^ Z.of_nat n -> Forall is_byte r ->
  get_be n wrap r = Some (v, rest) -> r = be n v ++ rest /\ 0 <= v < M /\ Forall is_byte rest.
Proof.
  intros Hw HM Hr. unfold get_be, remaining. destruct (_ <? _)%nat eqn:E; [done|]. apply Nat.ltb_ge in E. intros [= <- <-].
  assert (Hlen : length (take n r) = n) by (rewrite length_take; lia).
  destruct (be_get_loop M wrap ltac:(rewrite HM; apply Z.pow_pos_nonneg; lia) Hw (take n r)) as [H1 H2];
    [by rewrite Hlen|by apply Forall_take|]. rewrite Hlen in H1.
  split; [by rewrite H1, take_drop|]. split; [done|by apply Forall_drop].
Qed.

Lemma get_u16_put v rest : 0 <= v < 65536 -> get_u16 (be 2 v ++ rest) = Some (v, rest).
Proof. intros Hv. by apply (get_be_put 2 u16 65536). Qed.
Lemma get_u32_put v rest : 0 <= v < two32 -> get_u32 (be 4 v ++ rest) = Some (v, rest).
Proof. intros Hv. by apply (get_be_put 4 u32 two32). Qed.
Lemma get_u64_put v rest : 0 <= v < two64 -> get_u64 (be 8 v ++ rest) = Some (v, rest).
Proof. intros Hv. by apply (get_be_put 8 u64 two64). Qed.
Lemma get_i64_put v rest : - two63 <= v < two63 -> get_i64 (be 8 (u64 v) ++ rest) = Some (v, rest).
Proof. intros Hv. unfold get_i64. rewrite get_u64_put by apply u64_range. by rewrite s64_u64, s64_small. Qed.

Lemma get_u8_inv r v rest : Forall is_byte r -> get_u8 r = Some (v, rest) ->
  r = [v] ++ rest /\ 0 <= v < 256 /\ Forall is_byte rest.
Proof. intros Hr. destruct r as [|b r]; [done|]. intros [= <- <-]. by apply Forall_cons in Hr as [? ?]. Qed.
Lemma get_u16_inv r v rest : Forall is_byte r -> get_u16 r = Some (v, rest) ->
  r = be 2 v ++ rest /\ 0 <= v < 65536 /\ Forall is_byte rest.
Proof. by apply get_be_inv. Qed.
Lemma get_u32_inv r v rest : Forall is_byte r -> get_u32 r = Some (v, rest) ->
  r = be 4 v ++ rest /\ 0 <= v < two32 /\ Forall is_byte rest.
Proof. by apply get_be_inv. Qed.
Lemma get_u64_inv r v rest : Forall is_byte r -> get_u64 r = Some (v, rest) ->
  r = be 8 v ++ rest /\ 0 <= v < two64 /\ Forall is_byte rest.
Proof. by apply get_be_inv. Qed.
Lemma get_i64_inv r v rest : Forall is_byte r -> get_i64 r = Some (v, rest) ->
  r = be 8 (u64 v) ++ rest /\ - two63 <= v < two63 /\ Forall is_byte rest.
Proof.
  intros Hr. unfold get_i64. destruct (get_u64 r) as [[w r']|] eqn:E; [|done]. intros [= <- <-].
  apply get_u64_inv in E as (-> & Hw & Hrest); [|done]. rewrite u64_s64, u64_small by done.
  split; [done|]. split; [apply s64_range|done].
Qed.

Lemma length_get_u8 r : length r = 0%nat -> get_u8 r = None.
Proof. by destruct r. Qed.

Create Rewrite HintDb bytes.
#[export] Hint Rewrite put_u16_be put_u32_be put_u64_be put_i64_be length_be @length_app : bytes.

(** Step through a decoder on encoded input ([run_reads]), or take a decoder's
    success apart into the bytes it read ([invert_reads]). *)
Ltac run_reads :=
  repeat first
    [ rewrite get_u64_put by (assumption || lia)
    | rewrite get_u32_put by (assumption || lia)
    | rewrite get_u16_put by (assumption || lia)
    | rewrite get_i64_put by (assumption || lia)
    | progress cbn [get_u8 app] ].
Ltac invert_reads :=
  repeat match goal with
  | |- context [match ?g with Some _ => _ | None => None end] =>
      let E := fresh "Eread" in
      lazymatch g with
      | get_u8 _ => destruct g as [[? ?]|] eqn:E; [apply get_u8_inv in E as (-> & ? & ?); [|assumption]|]
      | get_u16 _ => destruct g as [[? ?]|] eqn:E; [apply get_u16_inv in E as (-> & ? & ?); [|assumption]|]
      | get_u32 _ => destruct g as [[? ?]|] eqn:E; [apply get_u32_inv in E as (-> & ? & ?); [|assumption]|]
      | get_u64 _ => destruct g as [[? ?]|] eqn:E; [apply get_u64_inv in E as (-> & ? & ?); [|assumption]|]
      | get_i64 _ => destruct g as [[? ?]|] eqn:E; [apply get_i64_inv in E as (-> & ? & ?); [|assumption]|]
      end; [|discriminate]
  end.

(** ** Enums on the wire

    [static_cast<std::uint8_t>] of each enum, the [is_valid_*] checks the
    decoders make before casting back, and the cast itself, which the
    decoders only apply to a checked byte. *)

Definition side_raw (s : Side) : Z := match s with Buy => 0 | Sell => 1 end.
Definition is_valid_side (raw : Z) : bool := (raw =? side_raw Buy) || (raw =? side_raw Sell).
Definition side_cast (raw : Z) : Side := if raw =? 0 then Buy else Sell.

Definition order_type_raw (t : OrderType) : Z := match t with Limit => 0 end.
Definition is_valid_order_type (raw : Z) : bool := raw =? order_type_raw Limit.
Definition order_type_cast (raw : Z) : OrderType := Limit.

Definition time_in_force_raw (t : TimeInForce) : Z := match t with GTC => 0 | IOC => 1 | FOK => 2 end.
Definition is_valid_time_in_force (raw : Z) : bool :=
  (raw =? time_in_force_raw GTC) || (raw =? time_in_force_raw IOC) || (raw =? time_in_force_raw FOK).
Definition time_in_force_cast (raw : Z) : TimeInForce := if raw =? 0 then GTC else if raw =? 1 then IOC else FOK.

Definition reject_reason_raw (r : RejectReason.t) : Z :=
  match r with
  | RejectReason.None => 0
  | RejectReason.InvalidPrice => 1
  | RejectReason.InvalidQuantity => 2
  | RejectReason.DuplicateOrderId => 3
  | RejectReason.UnknownOrderId => 4
  | RejectReason.InvalidInstrument => 5
  | RejectReason.InsufficientLiquidity => 6
  | RejectReason.InvalidReplacement => 7
  | RejectReason.InternalError => 8
  | RejectReason.InsufficientFunds => 9
  | RejectReason.InsufficientPosition => 10
  | RejectReason.OrderTooLarge => 11
  | RejectReason.AccountMismatch => 12
  end.
Definition all_reject_reasons : list RejectReason.t :=
  [RejectReason.None; RejectReason.InvalidPrice; RejectReason.InvalidQuantity; RejectReason.DuplicateOrderId;
   RejectReason.UnknownOrderId; RejectReason.InvalidInstrument; RejectReason.InsufficientLiquidity;
   RejectReason.InvalidReplacement; RejectReason.InternalError; RejectReason.InsufficientFunds;
   RejectReason.InsufficientPosition; RejectReason.OrderTooLarge; RejectReason.AccountMismatch].
Definition is_valid_reject_reason (raw : Z) : bool := existsb (fun r => raw =? reject_reason_raw r) all_reject_reasons.
Definition reject_reason_cast (raw : Z) : RejectReason.t := nth (Z.to_nat raw) all_reject_reasons RejectReason.None.

Lemma side_valid s : is_valid_side (side_raw s) = true /\ side_cast (side_raw s) = s.
Proof. by destruct s. Qed.
Lemma order_type_valid t : is_valid_order_type (order_type_raw t) = true /\ order_type_cast (order_type_raw t) = t.
Proof. by destruct t. Qed.
Lemma time_in_force_valid t :
  is_valid_time_in_force (time_in_force_raw t) = true /\ time_in_force_cast (time_in_force_raw t) = t.
Proof. by destruct t. Qed.
Lemma reject_reason_valid r :
  is_valid_reject_reason (reject_reason_raw r) = true /\ reject_reason_cast (reject_reason_raw r) = r.
Proof. by destruct r. Qed.

Lemma side_raw_cast raw : is_valid_side raw = true -> side_raw (side_cast raw) = raw.
Proof. unfold is_valid_side, side_cast, side_raw. destruct (raw =? 0) eqn:E; cbn; lia. Qed.
Lemma order_type_raw_cast raw : is_valid_order_type raw = true -> order_type_raw (order_type_cast raw) = raw.
Proof. unfold is_valid_order_type. cbn. lia. Qed.
Lemma time_in_force_raw_cast raw : is_valid_time_in_force raw = true -> time_in_force_raw (time_in_force_cast raw) = raw.
Proof.
  unfold is_valid_time_in_force, time_in_force_cast, time_in_force_raw.
  destruct (raw =? 0) eqn:E0, (raw =? 1) eqn:E1; cbn; lia.
Qed.
Lemma reject_reason_raw_cast raw : is_valid_reject_reason raw = true -> reject_reason_raw (reject_reason_cast raw) = raw.
Proof.
  unfold is_valid_reject_reason. intros (r & _ & E%Z.eqb_eq)%existsb_exists. subst raw. by destruct r.
Qed.
