(* ===== verification/CommandCodec.v ===== *)
(** * The command journal's frames: include/exchange/persistence/command_messages.hpp,
      src/exchange/persistence/command_encoder.cpp, command_decoder.cpp

    A frame is a 12-byte header (type, reserved, payload size, command
    sequence) and a fixed payload per type.  A decoder reads every field
    before it looks at any; the getters have no other effect, so the reads
    are written as one chain that stops at the first null.

    [decode_encode] and [decode_inv]: decoding inverts encoding, and whatever
    decodes is an encoding. *)
From S2P Require Import Prelude Types ByteIO.

Definition HEADER_SIZE : nat := 12.

Module CommandMessageType.
Inductive t := NewOrder | CancelOrder | ReplaceOrder | RegisterInstrument.
Definition raw (ty : t) : Z :=
  match ty with NewOrder => 1 | CancelOrder => 2 | ReplaceOrder => 3 | RegisterInstrument => 4 end.
Definition cast (raw : Z) : t :=
  if raw =? 1 then NewOrder else if raw =? 2 then CancelOrder else if raw =? 3 then ReplaceOrder else RegisterInstrument.
End CommandMessageType.

Record CommandHeader := {
  ch_type : CommandMessageType.t;
  ch_payload_size : Z;
  ch_command_sequence : CommandSequence;
}.

Definition payload_size_for (ty : CommandMessageType.t) : Z :=
  match ty with
  | CommandMessageType.NewOrder => 8 + 8 + 4 + 1 + 8 + 8 + 1 + 1
  | CommandMessageType.CancelOrder => 8 + 8 + 4
  | CommandMessageType.ReplaceOrder => 8 + 8 + 8 + 4 + 8 + 8
  | CommandMessageType.RegisterInstrument => 4
  end.

Inductive CommandDecodeError :=
| TruncatedHeader
| TruncatedPayload
| InvalidReserved
| InvalidMessageType
| InvalidMessageSize
| InvalidSide
| InvalidOrderType
| InvalidTimeInForce.

Record RegisterInstrumentRecord := { rir_instrument_id : InstrumentId }.

(** [std::variant<ExchangeCommand, RegisterInstrumentRecord, CommandDecodeError>]. *)
Inductive DecodedFrame :=
| FrameCommand (c : ExchangeCommand)
| FrameRegister (r : RegisterInstrumentRecord)
| FrameError (e : CommandDecodeError).

(** ** Encoder *)
Definition put_header (out : list byte) (ty : CommandMessageType.t) (command_sequence : CommandSequence)
    (payload_size : Z) : list byte :=
  put_u64 (put_u16 (put_u8 (put_u8 out (CommandMessageType.raw ty)) 0) payload_size) command_sequence.
Definition put_side (out : list byte) (s : Side) : list byte := put_u8 out (side_raw s).
Definition put_order_type (out : list byte) (t : OrderType) : list byte := put_u8 out (order_type_raw t).
Definition put_time_in_force (out : list byte) (t : TimeInForce) : list byte := put_u8 out (time_in_force_raw t).

Definition encode_command (command : ExchangeCommand) (out : list byte) : list byte :=
  match command with
  | CmdNewOrder cmd =>
      let out := put_header out CommandMessageType.NewOrder (noc_command_sequence cmd)
                   (u16 (payload_size_for CommandMessageType.NewOrder)) in
      let out := put_u64 out (noc_account_id cmd) in
      let out := put_u64 out (noc_client_order_id cmd) in
      let out := put_u32 out (noc_instrument_id cmd) in
      let out := put_side out (noc_side cmd) in
      let out := put_i64 out (noc_price cmd) in
      let out := put_u64 out (noc_quantity cmd) in
      let out := put_order_type out (noc_order_type cmd) in
      put_time_in_force out (noc_time_in_force cmd)
  | CmdCancelOrder cmd =>
      let out := put_header out CommandMessageType.CancelOrder (coc_command_sequence cmd)
                   (u16 (payload_size_for CommandMessageType.CancelOrder)) in
      let out := put_u64 out (coc_account_id cmd) in
      let out := put_u64 out (coc_client_order_id cmd) in
      put_u32 out (coc_instrument_id cmd)
  | CmdReplaceOrder cmd =>
      let out := put_header out CommandMessageType.ReplaceOrder (roc_command_sequence cmd)
                   (u16 (payload_size_for CommandMessageType.ReplaceOrder)) in
      let out := put_u64 out (roc_account_id cmd) in
      let out := put_u64 out (roc_original_client_order_id cmd) in
      let out := put_u64 out (roc_new_client_order_id cmd) in
      let out := put_u32 out (roc_instrument_id cmd) in
      let out := put_i64 out (roc_new_price cmd) in
      put_u64 out (roc_new_quantity cmd)
  end.

Definition encode_register_instrument (instrument_id : InstrumentId) (out : list byte) : list byte :=
  put_u32 (put_header out CommandMessageType.RegisterInstrument 0
             (u16 (payload_size_for CommandMessageType.RegisterInstrument))) instrument_id.

(** ** Decoder *)
Definition is_known_type (raw : Z) : bool :=
  (raw =? CommandMessageType.raw CommandMessageType.NewOrder) ||
  (raw =? CommandMessageType.raw CommandMessageType.CancelOrder) ||
  (raw =? CommandMessageType.raw CommandMessageType.ReplaceOrder) ||
  (raw =? CommandMessageType.raw CommandMessageType.RegisterInstrument).

Definition decode_command_header (data : list byte) : CommandHeader + CommandDecodeError :=
  if (length data <? HEADER_SIZE)%nat then inr TruncatedHeader
  else
    let r := take HEADER_SIZE data in
    match (let* (type_raw, r) := get_u8 r in
           let* (reserved, r) := get_u8 r in
           let* (payload_size, r) := get_u16 r in
           let* (command_sequence, r) := get_u64 r in
           Some (type_raw, reserved, payload_size, command_sequence)) with
    | None => inr TruncatedHeader
    | Some (type_raw, reserved, payload_size, command_sequence) =>
        if negb (reserved =? 0) then inr InvalidReserved
        else if negb (is_known_type type_raw) then inr InvalidMessageType
        else inl {| ch_type := CommandMessageType.cast type_raw; ch_payload_size := payload_size;
                    ch_command_sequence := command_sequence |}
    end.

Definition decode_new_order (command_sequence : CommandSequence) (r : ByteReader) : DecodedFrame :=
  match (let* (account_id, r) := get_u64 r in
         let* (client_order_id, r) := get_u64 r in
         let* (instrument_id, r) := get_u32 r in
         let* (side_raw, r) := get_u8 r in
         let* (price, r) := get_i64 r in
         let* (quantity, r) := get_u64 r in
         let* (order_type_raw, r) := get_u8 r in
         let* (tif_raw, r) := get_u8 r in
         Some (account_id, client_order_id, instrument_id, side_raw, price, quantity, order_type_raw, tif_raw)) with
  | None => FrameError TruncatedPayload
  | Some (account_id, client_order_id, instrument_id, side_raw, price, quantity, order_type_raw, tif_raw) =>
      if negb (is_valid_side side_raw) then FrameError InvalidSide
      else if negb (is_valid_order_type order_type_raw) then FrameError InvalidOrderType
      else if negb (is_valid_time_in_force tif_raw) then FrameError InvalidTimeInForce
      else FrameCommand (CmdNewOrder
        {| noc_command_sequence := command_sequence; noc_account_id := account_id;
           noc_client_order_id := client_order_id; noc_instrument_id := instrument_id;
           noc_side := side_cast side_raw; noc_price := price; noc_quantity := quantity;
           noc_order_type := order_type_cast order_type_raw; noc_time_in_force := time_in_force_cast tif_raw |})
  end.
Definition decode_cancel_order (command_sequence : CommandSequence) (r : ByteReader) : DecodedFrame :=
  match (let* (account_id, r) := get_u64 r in
         let* (client_order_id, r) := get_u64 r in
         let* (instrument_id, r) := get_u32 r in
         Some (account_id, client_order_id, instrument_id)) with
  | None => FrameError TruncatedPayload
  | Some (account_id, client_order_id, instrument_id) =>
      FrameCommand (CmdCancelOrder
        {| coc_command_sequence := command_sequence; coc_account_id := account_id;
           coc_client_order_id := client_order_id; coc_instrument_id := instrument_id |})
  end.
Definition decode_replace_order (command_sequence : CommandSequence) (r : ByteReader) : DecodedFrame :=
  match (let* (account_id, r) := get_u64 r in
         let* (original_client_order_id, r) := get_u64 r in
         let* (new_client_order_id, r) := get_u64 r in
         let* (instrument_id, r) := get_u32 r in
         let* (new_price, r) := get_i64 r in
         let* (new_quantity, r) := get_u64 r in
         Some (account_id, original_client_order_id, new_client_order_id, instrument_id, new_price, new_quantity)) with
  | None => FrameError TruncatedPayload
  | Some (account_id, original_client_order_id, new_client_order_id, instrument_id, new_price, new_quantity) =>
      FrameCommand (CmdReplaceOrder
        {| roc_command_sequence := command_sequence; roc_account_id := account_id;
           roc_original_client_order_id := original_client_order_id;
           roc_new_client_order_id := new_client_order_id; roc_instrument_id := instrument_id;
           roc_new_price := new_price; roc_new_quantity := new_quantity |})
  end.
Definition decode_register (r : ByteReader) : DecodedFrame :=
  match get_u32 r with
  | None => FrameError TruncatedPayload
  | Some (instrument_id, _) => FrameRegister {| rir_instrument_id := instrument_id |}
  end.

Definition decode_journal_frame (data : list byte) : DecodedFrame :=
  match decode_command_header data with
  | inr e => FrameError e
  | inl header =>
      if negb (ch_payload_size header =? payload_size_for (ch_type header)) then FrameError InvalidMessageSize
      else if Z.of_nat (length data) <? Z.of_nat HEADER_SIZE + ch_payload_size header then FrameError TruncatedPayload
      else
        let r := take (Z.to_nat (ch_payload_size header)) (drop HEADER_SIZE data) in
        match ch_type header with
        | CommandMessageType.NewOrder => decode_new_order (ch_command_sequence header) r
        | CommandMessageType.CancelOrder => decode_cancel_order (ch_command_sequence header) r
        | CommandMessageType.ReplaceOrder => decode_replace_order (ch_command_sequence header) r
        | CommandMessageType.RegisterInstrument => decode_register r
        end
  end.

(** ** Frames round-trip

    The byte layout of each frame, and that decoding and encoding are inverse
    to each other on well-formed commands. *)

(** A command whose fields are within their C++ types. *)
Definition u64_ok (z : Z) : Prop := 0 <= z < two64.
Definition u32_ok (z : Z) : Prop := 0 <= z < two32.
Definition s64_ok (z : Z) : Prop := - two63 <= z < two63.
Definition command_wf (c : ExchangeCommand) : Prop :=
  match c with
  | CmdNewOrder c => u64_ok (noc_command_sequence c) /\ u64_ok (noc_account_id c) /\ u64_ok (noc_client_order_id c) /\
      u32_ok (noc_instrument_id c) /\ s64_ok (noc_price c) /\ u64_ok (noc_quantity c)
  | CmdCancelOrder c => u64_ok (coc_command_sequence c) /\ u64_ok (coc_account_id c) /\
      u64_ok (coc_client_order_id c) /\ u32_ok (coc_instrument_id c)
  | CmdReplaceOrder c => u64_ok (roc_command_sequence c) /\ u64_ok (roc_account_id c) /\
      u64_ok (roc_original_client_order_id c) /\ u64_ok (roc_new_client_order_id c) /\
      u32_ok (roc_instrument_id c) /\ s64_ok (roc_new_price c) /\ u64_ok (roc_new_quantity c)
  end.

(** ** Layout *)
Definition header_bytes (ty : CommandMessageType.t) (seq n : Z) : list byte :=
  [CommandMessageType.raw ty] ++ [0] ++ be 2 n ++ be 8 seq ++ [].
Definition command_type (c : ExchangeCommand) : CommandMessageType.t :=
  match c with
  | CmdNewOrder _ => CommandMessageType.NewOrder
  | CmdCancelOrder _ => CommandMessageType.CancelOrder
  | CmdReplaceOrder _ => CommandMessageType.ReplaceOrder
  end.
Definition command_seq (c : ExchangeCommand) : Z :=
  match c with
  | CmdNewOrder c => noc_command_sequence c
  | CmdCancelOrder c => coc_command_sequence c
  | CmdReplaceOrder c => roc_command_sequence c
  end.
Definition payload_bytes (c : ExchangeCommand) : list byte :=
  match c with
  | CmdNewOrder c => be 8 (noc_account_id c) ++ be 8 (noc_client_order_id c) ++ be 4 (noc_instrument_id c) ++
      [side_raw (noc_side c)] ++ be 8 (u64 (noc_price c)) ++ be 8 (noc_quantity c) ++
      [order_type_raw (noc_order_type c)] ++ [time_in_force_raw (noc_time_in_force c)] ++ []
  | CmdCancelOrder c => be 8 (coc_account_id c) ++ be 8 (coc_client_order_id c) ++ be 4 (coc_instrument_id c) ++ []
  | CmdReplaceOrder c => be 8 (roc_account_id c) ++ be 8 (roc_original_client_order_id c) ++
      be 8 (roc_new_client_order_id c) ++ be 4 (roc_instrument_id c) ++ be 8 (u64 (roc_new_price c)) ++
      be 8 (roc_new_quantity c) ++ []
  end.
Definition command_bytes (c : ExchangeCommand) : list byte :=
  header_bytes (command_type c) (command_seq c) (payload_size_for (command_type c)) ++ payload_bytes c.
Definition register_bytes (id : InstrumentId) : list byte :=
  header_bytes CommandMessageType.RegisterInstrument 0 4 ++ be 4 id ++ [].

Lemma encode_command_bytes c out : encode_command c out = out ++ command_bytes c.
Proof.
  destruct c; unfold encode_command, put_header, put_side, put_order_type, put_time_in_force, put_u8, command_bytes, header_bytes;
    autorewrite with bytes; cbn [payload_bytes command_type command_seq app]; rewrite <- ?app_assoc; cbn [app]; done.
Qed.
Lemma encode_register_bytes id out : encode_register_instrument id out = out ++ register_bytes id.
Proof.
  unfold encode_register_instrument, put_header, put_u8, register_bytes, header_bytes. autorewrite with bytes.
  cbn [app]. rewrite <- ?app_assoc. done.
Qed.
Lemma length_header ty seq n : length (header_bytes ty seq n) = HEADER_SIZE.
Proof. unfold header_bytes. by autorewrite with bytes. Qed.
Lemma length_payload c : Z.of_nat (length (payload_bytes c)) = payload_size_for (command_type c).
Proof. destruct c; unfold payload_bytes; by autorewrite with bytes. Qed.
Lemma payload_size_range ty : 0 <= payload_size_for ty < 65536.
Proof. destruct ty; cbn; lia. Qed.

(** ** Decoding an encoding *)
Lemma raw_known ty : is_known_type (CommandMessageType.raw ty) = true /\
  CommandMessageType.cast (CommandMessageType.raw ty) = ty.
Proof. by destruct ty. Qed.
Lemma decode_header_bytes ty seq n rest : u64_ok seq -> 0 <= n < 65536 ->
  decode_command_header (header_bytes ty seq n ++ rest) =
  inl {| ch_type := ty; ch_payload_size := n; ch_command_sequence := seq |}.
Proof.
  intros Hs Hn. unfold u64_ok in *. unfold decode_command_header. rewrite length_app, length_header.
  destruct (_ <? _)%nat eqn:E; [apply Nat.ltb_lt in E; lia|]. rewrite take_app_length' by (by rewrite length_header).
  unfold header_bytes. run_reads. destruct (raw_known ty) as [-> ->]. done.
Qed.
Lemma decode_frame_bytes ty seq payload rest : u64_ok seq -> Z.of_nat (length payload) = payload_size_for ty ->
  decode_journal_frame (header_bytes ty seq (payload_size_for ty) ++ payload ++ rest) =
  match ty with
  | CommandMessageType.NewOrder => decode_new_order seq payload
  | CommandMessageType.CancelOrder => decode_cancel_order seq payload
  | CommandMessageType.ReplaceOrder => decode_replace_order seq payload
  | CommandMessageType.RegisterInstrument => decode_register payload
  end.
Proof.
  intros Hs Hl. unfold decode_journal_frame. rewrite decode_header_bytes by (done || apply payload_size_range).
  cbn [ch_payload_size ch_type ch_command_sequence]. rewrite Z.eqb_refl. cbn [negb].
  rewrite !length_app, length_header. destruct (_ <? _) eqn:E; [apply Z.ltb_lt in E; rewrite !Nat2Z.inj_add in E; lia|].
  rewrite drop_app_length' by (by rewrite length_header). rewrite take_app_length' by lia. by destruct ty.
Qed.
Lemma decode_payload c : command_wf c ->
  match command_type c with
  | CommandMessageType.NewOrder => decode_new_order (command_seq c) (payload_bytes c)
  | CommandMessageType.CancelOrder => decode_cancel_order (command_seq c) (payload_bytes c)
  | CommandMessageType.ReplaceOrder => decode_replace_order (command_seq c) (payload_bytes c)
  | CommandMessageType.RegisterInstrument => decode_register (payload_bytes c)
  end = FrameCommand c.
Proof.
  unfold u64_ok, u32_ok, s64_ok. destruct c as [c|c|c]; cbn [command_wf command_type command_seq payload_bytes]; intros Hc; decompose [and] Hc.
  - unfold decode_new_order. run_reads. destruct (side_valid (noc_side c)) as [-> ->].
    destruct (order_type_valid (noc_order_type c)) as [-> ->]. destruct (time_in_force_valid (noc_time_in_force c)) as [-> ->].
    cbn [negb]. by destruct c.
  - unfold decode_cancel_order. run_reads. by destruct c.
  - unfold decode_replace_order. run_reads. by destruct c.
Qed.
Lemma decode_command_bytes c rest : command_wf c -> decode_journal_frame (command_bytes c ++ rest) = FrameCommand c.
Proof.
  intros Hc. unfold command_bytes. rewrite <- app_assoc, decode_frame_bytes; [by apply decode_payload| |apply length_payload].
  destruct c; cbn in Hc |- *; tauto.
Qed.
Lemma decode_register_bytes id rest : u32_ok id ->
  decode_journal_frame (register_bytes id ++ rest) = FrameRegister {| rir_instrument_id := id |}.
Proof.
  intros Hid. unfold u32_ok in *. unfold register_bytes. rewrite <- app_assoc.
  change 4 with (payload_size_for CommandMessageType.RegisterInstrument) at 1.
  rewrite (decode_frame_bytes CommandMessageType.RegisterInstrument 0 (be 4 id ++ []) rest).
  - unfold decode_register. by rewrite get_u32_put.
  - split; reflexivity || lia.
  - by autorewrite with bytes.
Qed.

(** ** Whatever decodes is an encoding *)
Lemma known_raw raw : is_known_type raw = true -> CommandMessageType.raw (CommandMessageType.cast raw) = raw.
Proof.
  unfold is_known_type, CommandMessageType.cast. cbn.
  destruct (raw =? 1) eqn:E1, (raw =? 2) eqn:E2, (raw =? 3) eqn:E3; cbn; lia.
Qed.
Lemma decode_header_inv data h : Forall is_byte data -> decode_command_header data = inl h ->
  data = header_bytes (ch_type h) (ch_command_sequence h) (ch_payload_size h) ++ drop HEADER_SIZE data /\
  u64_ok (ch_command_sequence h) /\ 0 <= ch_payload_size h < 65536.
Proof.
  intros Hd. unfold decode_command_header. destruct (_ <? _)%nat eqn:E; [done|]. apply Nat.ltb_ge in E.
  assert (Hlen : length (take HEADER_SIZE data) = HEADER_SIZE) by (rewrite length_take; lia).
  assert (Ht : Forall is_byte (take HEADER_SIZE data)) by (by apply Forall_take).
  intros Hh. rewrite <- (take_drop HEADER_SIZE data) at 1. revert Hh Hlen Ht.
  generalize (take HEADER_SIZE data). intros r Hh Hlen Ht. revert Hh.
  invert_reads. destruct (negb _) eqn:Er; [done|]. apply negb_false_iff, Z.eqb_eq in Er. subst.
  destruct (negb (is_known_type _)) eqn:Ek; [done|]. apply negb_false_iff in Ek. intros [= <-].
  cbn [ch_type ch_command_sequence ch_payload_size]. unfold header_bytes. rewrite known_raw by done. split; [|by split]. 
  autorewrite with bytes in Hlen. cbn in Hlen.
  match goal with |- context [be 8 _ ++ ?b] => destruct b; [|cbn in Hlen; unfold HEADER_SIZE in Hlen; lia] end. rewrite <- !app_assoc. done.
Qed.

Lemma decode_payload_inv ty seq r c : Forall is_byte r -> u64_ok seq ->
  match ty with
  | CommandMessageType.NewOrder => decode_new_order seq r
  | CommandMessageType.CancelOrder => decode_cancel_order seq r
  | CommandMessageType.ReplaceOrder => decode_replace_order seq r
  | CommandMessageType.RegisterInstrument => decode_register r
  end = FrameCommand c ->
  command_type c = ty /\ command_seq c = seq /\ command_wf c /\ exists rest, r = payload_bytes c ++ rest.
Proof.
  intros Hr Hs. destruct ty.
  - unfold decode_new_order. invert_reads. destruct (is_valid_side _) eqn:E1; [|done].
    destruct (is_valid_order_type _) eqn:E2; [|done]. destruct (is_valid_time_in_force _) eqn:E3; [|done].
    cbn [negb]. intros [= <-]. cbn [command_type command_seq command_wf payload_bytes noc_command_sequence
      noc_account_id noc_client_order_id noc_instrument_id noc_side noc_price noc_quantity noc_order_type noc_time_in_force].
    rewrite side_raw_cast, order_type_raw_cast, time_in_force_raw_cast by done.
    do 2 (split; [done|]). split; [repeat split; done || apply Hs || lia|]. eexists. rewrite <- !app_assoc. cbn [app]. reflexivity.
  - unfold decode_cancel_order. invert_reads. intros [= <-].
    cbn [command_type command_seq command_wf payload_bytes coc_command_sequence coc_account_id coc_client_order_id coc_instrument_id].
    do 2 (split; [done|]). split; [repeat split; done || apply Hs || lia|]. eexists. rewrite <- !app_assoc. cbn [app]. reflexivity.
  - unfold decode_replace_order. invert_reads. intros [= <-].
    cbn [command_type command_seq command_wf payload_bytes roc_command_sequence roc_account_id roc_original_client_order_id
      roc_new_client_order_id roc_instrument_id roc_new_price roc_new_quantity].
    do 2 (split; [done|]). split; [repeat split; done || apply Hs || lia|]. eexists. rewrite <- !app_assoc. cbn [app]. reflexivity.
  - unfold decode_register. by destruct (get_u32 r) as [[? ?]|].
Qed.

Lemma decode_command_inv data c : Forall is_byte data -> decode_journal_frame data = FrameCommand c ->
  command_wf c /\ exists rest, data = command_bytes c ++ rest.
Proof.
  intros Hd. unfold decode_journal_frame. destruct (decode_command_header data) as [h|] eqn:Eh; [|done].
  destruct (decode_header_inv data h Hd Eh) as (Hdata & Hs & Hn). destruct (negb _) eqn:En; [done|].
  apply negb_false_iff, Z.eqb_eq in En. destruct (_ <? _) eqn:El; [done|]. apply Z.ltb_ge in El.
  set (p := drop HEADER_SIZE data) in *. intros Hc.
  destruct (decode_payload_inv (ch_type h) (ch_command_sequence h) (take (Z.to_nat (ch_payload_size h)) p) c)
    as (Ht & Hsq & Hwf & rest & Hp); [by apply Forall_take, Forall_drop|done|by destruct (ch_type h)|].
  split; [done|].
  assert (Hrest : rest = []).
  { apply (f_equal length) in Hp. rewrite length_app, length_take in Hp. pose proof (length_payload c) as Hl.
    rewrite Ht in Hl. destruct rest; [done|]. cbn in Hp. lia. }
  subst rest. rewrite app_nil_r in Hp. exists (drop (Z.to_nat (ch_payload_size h)) p).
  unfold command_bytes. rewrite Ht, Hsq, <- En, <- Hp, <- app_assoc, take_drop. exact Hdata.
Qed.
