(* ===== verification/Journal.v ===== *)
(** * The command journal and its replay:
      src/exchange/persistence/command_journal_{writer,reader}.cpp,
      command_replay.cpp and state_hash.cpp

    A file is the list of its bytes.  [ifstream::read] returns what there is
    and [gcount] says how much; reading past the end leaves the stream empty.
    Replay runs a fresh engine over the frames of a file. *)
From S2P Require Import Prelude Types MatchingBook BookSpec MatchingEngine EngineSpec EngineWf EngineProcess EngineRefinement EngineFacts ByteIO CommandCodec.
From Stdlib Require Import String.

Local Open Scope Z_scope.

(** ** Writer *)
Definition journal_open (instruments : list InstrumentId) : list byte :=
  foldl (fun buffer instrument_id => encode_register_instrument instrument_id buffer) [] instruments.
Definition journal_write (file : list byte) (command : ExchangeCommand) : list byte :=
  file ++ encode_command command [].
(** The file after opening and writing a sequence of commands. *)
Definition journal_of (instruments : list InstrumentId) (commands : list ExchangeCommand) : list byte :=
  foldl journal_write (journal_open instruments) commands.

(** ** Reader *)
Definition next (file : list byte) : option DecodedFrame * list byte :=
  let header_buf := take HEADER_SIZE file in
  let file := drop HEADER_SIZE file in
  let header_bytes_read := List.length header_buf in
  if (header_bytes_read =? 0)%nat then (None, file)
  else if (header_bytes_read <? HEADER_SIZE)%nat then (Some (FrameError TruncatedHeader), file)
  else
    match decode_command_header header_buf with
    | inr e => (Some (FrameError e), file)
    | inl header =>
        let n := Z.to_nat (ch_payload_size header) in
        let payload_buf := take n file in
        let file := drop n file in
        if (List.length payload_buf <? n)%nat then (Some (FrameError TruncatedPayload), file)
        else (Some (decode_journal_frame (header_buf ++ payload_buf)), file)
    end.

(** ** Replay *)
Definition to_string (e : CommandDecodeError) : string :=
  match e with
  | TruncatedHeader => "TruncatedHeader"
  | TruncatedPayload => "TruncatedPayload"
  | InvalidReserved => "InvalidReserved"
  | InvalidMessageType => "InvalidMessageType"
  | InvalidMessageSize => "InvalidMessageSize"
  | InvalidSide => "InvalidSide"
  | InvalidOrderType => "InvalidOrderType"
  | InvalidTimeInForce => "InvalidTimeInForce"
  end%string.

Definition kDefaultExpectedRestingOrders : Z := 1024.

Section Replay.
Context {B : Type} `{BookImpl B}.

Record CommandReplayOutcome := {
  ro_engine : MatchingEngine B;
  ro_events : list ExchangeEvent;
  ro_commands_processed : Z;
  ro_instruments_registered : Z;
  ro_stopped_early : bool;
  ro_stop_reason : string;
}.
Definition outcome_new : CommandReplayOutcome :=
  {| ro_engine := MatchingEngine_new [] kDefaultExpectedRestingOrders; ro_events := [];
     ro_commands_processed := 0; ro_instruments_registered := 0; ro_stopped_early := false; ro_stop_reason := EmptyString |}.
Definition with_stop (o : CommandReplayOutcome) (stopped : bool) (reason : string) : CommandReplayOutcome :=
  {| ro_engine := ro_engine o; ro_events := ro_events o; ro_commands_processed := ro_commands_processed o;
     ro_instruments_registered := ro_instruments_registered o; ro_stopped_early := stopped; ro_stop_reason := reason |}.
Definition with_registration (o : CommandReplayOutcome) (id : InstrumentId) : CommandReplayOutcome :=
  let (registered, e) := register_instrument (ro_engine o) id in
  {| ro_engine := e; ro_events := ro_events o; ro_commands_processed := ro_commands_processed o;
     ro_instruments_registered := ro_instruments_registered o + (if registered then 1 else 0);
     ro_stopped_early := ro_stopped_early o; ro_stop_reason := ro_stop_reason o |}.
Definition with_command (o : CommandReplayOutcome) (c : ExchangeCommand) : option CommandReplayOutcome :=
  let* (e, evs) := process (ro_engine o) c in
  Some {| ro_engine := e; ro_events := ro_events o ++ evs; ro_commands_processed := ro_commands_processed o + 1;
          ro_instruments_registered := ro_instruments_registered o;
          ro_stopped_early := ro_stopped_early o; ro_stop_reason := ro_stop_reason o |}.

(** The [while (true)] loop.  Each turn but the last reads at least one byte. *)
Fixpoint replay_loop (fuel : nat) (stop_on_decode_error : bool) (file : list byte) (o : CommandReplayOutcome)
    : option CommandReplayOutcome :=
  match fuel with
  | O => None
  | S fuel =>
      match next file with
      | (None, _) => Some o
      | (Some (FrameError e), file) =>
          let reason := String.append "decode error: " (to_string e) in
          if stop_on_decode_error then Some (with_stop o true reason)
          else replay_loop fuel stop_on_decode_error file (with_stop o (ro_stopped_early o) reason)
      | (Some (FrameRegister r), file) =>
          replay_loop fuel stop_on_decode_error file (with_registration o (rir_instrument_id r))
      | (Some (FrameCommand c), file) =>
          let* o := with_command o c in replay_loop fuel stop_on_decode_error file o
      end
  end.

(** [journal] is [None] when the file cannot be opened. *)
Definition run_command_replay (journal_path : string) (journal : option (list byte)) (stop_on_decode_error : bool)
    : option CommandReplayOutcome :=
  match journal with
  | None => Some (with_stop outcome_new true (String.append "could not open journal file: " journal_path))
  | Some file => replay_loop (S (List.length file)) stop_on_decode_error file outcome_new
  end.
End Replay.
Arguments CommandReplayOutcome B : clear implicits.

(** ** State hash *)
Definition put_order (buf : list byte) (order : ExchangeRestingOrder) : list byte :=
  let buf := put_u64 buf (ero_exchange_order_id order) in
  let buf := put_u64 buf (ero_client_order_id order) in
  let buf := put_u64 buf (ero_account_id order) in
  let buf := put_u32 buf (ero_instrument_id order) in
  let buf := put_u8 buf (side_raw (ero_side order)) in
  let buf := put_i64 buf (ero_price order) in
  let buf := put_u64 buf (ero_original_quantity order) in
  let buf := put_u64 buf (ero_remaining_quantity order) in
  let buf := put_u8 buf (time_in_force_raw (ero_time_in_force order)) in
  put_u64 buf (ero_order_sequence order).

Definition kFnvOffsetBasis : Z := 14695981039346656037.
Definition kFnvPrime : Z := 1099511628211.
Definition fnv1a (bytes : list byte) : Z :=
  foldl (fun hash b => u64 (Z.lxor hash b * kFnvPrime)) kFnvOffsetBasis bytes.

Definition put_instrument (buf : list byte) (instrument : InstrumentBookSnapshot) : list byte :=
  let buf := put_u32 buf (ibs_instrument_id instrument) in
  let buf := put_u64 buf (Z.of_nat (List.length (ibs_bids instrument))) in
  let buf := foldl put_order buf (ibs_bids instrument) in
  let buf := put_u64 buf (Z.of_nat (List.length (ibs_asks instrument))) in
  foldl put_order buf (ibs_asks instrument).
(** The buffer [hash_state_snapshot] fills, and the hash. *)
Definition snapshot_buffer (snapshot : EngineStateSnapshot) : list byte :=
  foldl put_instrument (put_u64 [] (Z.of_nat (List.length (ess_instruments snapshot)))) (ess_instruments snapshot).
Definition hash_state_snapshot (snapshot : EngineStateSnapshot) : Z := fnv1a (snapshot_buffer snapshot).

(** ** Replaying a journal

    Frame by frame: the reader returns what the writer wrote, so replaying a
    journal re-runs its commands on a freshly registered engine. *)

Local Open Scope Z_scope.

(** ** The file *)
Definition commands_bytes (cs : list ExchangeCommand) : list byte := mjoin (command_bytes <$> cs).
Definition registers_bytes (ids : list InstrumentId) : list byte := mjoin (register_bytes <$> ids).

Lemma journal_open_bytes ids : journal_open ids = registers_bytes ids.
Proof.
  unfold journal_open. assert (Hg : forall buf, foldl (fun b i => encode_register_instrument i b) buf ids = buf ++ registers_bytes ids).
  { induction ids as [|id ids IH]; intros buf; cbn [foldl]; [by rewrite app_nil_r|].
    rewrite IH, encode_register_bytes. unfold registers_bytes. cbn. by rewrite <- app_assoc. }
  apply Hg.
Qed.
Lemma journal_of_bytes ids cs : journal_of ids cs = registers_bytes ids ++ commands_bytes cs.
Proof.
  unfold journal_of. rewrite journal_open_bytes. generalize (registers_bytes ids). intros buf. revert buf.
  induction cs as [|c cs IH]; intros buf; cbn [foldl]; [by rewrite app_nil_r|].
  rewrite IH. unfold journal_write. rewrite encode_command_bytes. unfold commands_bytes. cbn. by rewrite <- app_assoc.
Qed.

(** ** Reading one frame *)
Lemma next_frame ty seq payload rest : u64_ok seq -> Z.of_nat (List.length payload) = payload_size_for ty ->
  next (header_bytes ty seq (payload_size_for ty) ++ payload ++ rest) =
  (Some (decode_journal_frame (header_bytes ty seq (payload_size_for ty) ++ payload)), rest).
Proof.
  intros Hs Hl. unfold next. rewrite take_app_length', drop_app_length', length_header by (by rewrite length_header).
  change (HEADER_SIZE =? 0)%nat with false. change (HEADER_SIZE <? HEADER_SIZE)%nat with false. cbv iota.
  pose proof (decode_header_bytes ty seq (payload_size_for ty) [] Hs (payload_size_range ty)) as Hh.
  rewrite app_nil_r in Hh. rewrite Hh. cbn [ch_payload_size].
  rewrite take_app_length', drop_app_length' by lia.
  assert ((List.length payload <? Z.to_nat (payload_size_for ty))%nat = false) as -> by (apply Nat.ltb_ge; lia). done.
Qed.
Lemma next_command c rest : command_wf c -> next (command_bytes c ++ rest) = (Some (FrameCommand c), rest).
Proof.
  intros Hc. pose proof (decode_command_bytes c [] Hc) as Hd. rewrite app_nil_r in Hd.
  unfold command_bytes in *. rewrite <- app_assoc, next_frame, Hd; [done| |apply length_payload].
  destruct c; cbn in Hc |- *; tauto.
Qed.
Lemma next_register id rest : u32_ok id ->
  next (register_bytes id ++ rest) = (Some (FrameRegister {| rir_instrument_id := id |}), rest).
Proof.
  intros Hid. pose proof (decode_register_bytes id [] Hid) as Hd. rewrite app_nil_r in Hd. unfold register_bytes in *.
  rewrite <- app_assoc. change 4 with (payload_size_for CommandMessageType.RegisterInstrument) in Hd |- * at 1.
  rewrite next_frame, Hd; [done| |by autorewrite with bytes]. split; reflexivity || lia.
Qed.
Lemma next_nil : next [] = (None, []).
Proof. done. Qed.

(** A frame cut short: the reader reports which part is missing, and nothing
    is left to read. *)
Lemma next_torn c k : command_wf c -> (0 < k < List.length (command_bytes c))%nat ->
  next (take k (command_bytes c)) =
  (Some (FrameError (if (k <? HEADER_SIZE)%nat then TruncatedHeader else TruncatedPayload)), []).
Proof.
  intros Hc Hk. unfold next. rewrite take_take, skipn_firstn_comm.
  pose proof (length_payload c) as Hl. unfold command_bytes in *. rewrite length_app, length_header in Hk.
  destruct (k <? HEADER_SIZE)%nat eqn:E.
  - apply Nat.ltb_lt in E. rewrite Nat.min_r by lia.
    rewrite (take_app_le (header_bytes _ _ _)) by (rewrite length_header; lia).
    rewrite length_take, length_header, Nat.min_l by lia.
    rewrite (proj2 (Nat.eqb_neq k 0)) by lia. rewrite (proj2 (Nat.ltb_lt k HEADER_SIZE)) by done.
    by rewrite (proj2 (Nat.sub_0_le k HEADER_SIZE)) by lia.
  - apply Nat.ltb_ge in E. rewrite Nat.min_l by lia.
    rewrite take_app_length', drop_app_length', length_header by (by rewrite length_header).
    change (HEADER_SIZE =? 0)%nat with false. change (HEADER_SIZE <? HEADER_SIZE)%nat with false. cbv iota.
    pose proof (decode_header_bytes (command_type c) (command_seq c) (payload_size_for (command_type c)) []) as Hh.
    rewrite app_nil_r in Hh. rewrite Hh; [|destruct c; cbn in Hc |- *; tauto|apply payload_size_range].
    cbn [ch_payload_size]. rewrite !length_take.
    match goal with |- context [if ?b then _ else _] => assert (b = true) as -> end.
    { apply Nat.ltb_lt. lia. }
    f_equal. apply drop_ge. rewrite length_take. lia.
Qed.

(** ** The loop over a journal *)
Section Loop.
Context {B : Type} `{BookLaws B} (stop : bool).
Implicit Types (o : CommandReplayOutcome B).

Definition after_commands o (e : MatchingEngine B) (evs : list ExchangeEvent) (n : nat) : CommandReplayOutcome B :=
  {| ro_engine := e; ro_events := ro_events o ++ evs; ro_commands_processed := ro_commands_processed o + Z.of_nat n;
     ro_instruments_registered := ro_instruments_registered o; ro_stopped_early := ro_stopped_early o;
     ro_stop_reason := ro_stop_reason o |}.

Lemma replay_registers ids : Forall u32_ok ids -> forall fuel rest o,
  replay_loop (List.length ids + fuel) stop (registers_bytes ids ++ rest) o =
  replay_loop fuel stop rest (foldl with_registration o ids).
Proof.
  induction 1 as [|id ids Hid Hids IH]; intros fuel rest o; [done|].
  unfold registers_bytes. cbn [List.length Nat.add fmap list_fmap mjoin list_join replay_loop foldl].
  rewrite <- app_assoc, next_register by done. cbn [rir_instrument_id]. apply IH.
Qed.
Lemma registrations_engine ids : forall o,
  ro_engine (foldl with_registration o ids) = foldl (fun e id => (register_instrument e id).2) (ro_engine o) ids /\
  ro_events (foldl with_registration o ids) = ro_events o /\
  ro_commands_processed (foldl with_registration o ids) = ro_commands_processed o /\
  ro_stopped_early (foldl with_registration o ids) = ro_stopped_early o /\
  ro_stop_reason (foldl with_registration o ids) = ro_stop_reason o.
Proof.
  induction ids as [|id ids IH]; intros o; [done|]. cbn [foldl]. destruct (IH (with_registration o id)) as (-> & -> & -> & -> & ->).
  unfold with_registration. by destruct (register_instrument (ro_engine o) id).
Qed.
Lemma replay_commands cs : Forall command_wf cs -> forall fuel rest o e evs,
  run (ro_engine o) cs = Some (e, evs) ->
  replay_loop (List.length cs + fuel) stop (commands_bytes cs ++ rest) o =
  replay_loop fuel stop rest (after_commands o e evs (List.length cs)).
Proof.
  induction 1 as [|c cs Hc Hcs IH]; intros fuel rest o e evs Hrun.
  - cbn in Hrun. injection Hrun as <- <-. unfold after_commands. cbn. f_equal. destruct o; cbn. f_equal; [by rewrite app_nil_r|lia].
  - cbn in Hrun. destruct (process (ro_engine o) c) as [[e1 evs1]|] eqn:E1; [|done].
    destruct (run e1 cs) as [[e2 evs2]|] eqn:E2; [|done]. injection Hrun as <- <-.
    unfold commands_bytes. cbn [List.length Nat.add fmap list_fmap mjoin list_join replay_loop].
    rewrite <- app_assoc, next_command by done. unfold with_command. rewrite E1.
    set (o1 := {| ro_engine := e1 |}). change (mjoin (command_bytes <$> cs)) with (commands_bytes cs).
    rewrite (IH fuel rest o1 e2 evs2 E2). f_equal. unfold after_commands, o1. cbn. rewrite <- app_assoc. f_equal. lia.
Qed.
End Loop.

Lemma length_commands cs : (List.length cs <= List.length (commands_bytes cs))%nat.
Proof.
  induction cs as [|c cs IH]; [done|].
  change (commands_bytes (c :: cs)) with (command_bytes c ++ commands_bytes cs).
  rewrite length_app. unfold command_bytes. rewrite length_app, length_header. unfold HEADER_SIZE. cbn [List.length]. lia.
Qed.
Lemma length_registers ids : (List.length ids <= List.length (registers_bytes ids))%nat.
Proof.
  induction ids as [|id ids IH]; [done|].
  change (registers_bytes (id :: ids)) with (register_bytes id ++ registers_bytes ids).
  rewrite length_app. unfold register_bytes. rewrite length_app, length_header. unfold HEADER_SIZE. cbn [List.length]. lia.
Qed.

(** The live engine and the replayed one stand for the same specification
    state, whatever book layout each chose. *)
Section Replayed.
Context (universe : list InstrumentId) (expected : Z) (cmds : list ExchangeCommand)
  (Hu : Forall u32_ok universe) (Hc : Forall command_wf cmds) (Hok : run_ok (sp_new universe) cmds).
Let e0 : MatchingEngine MatchingBook :=
  foldl (fun e id => (register_instrument e id).2) (MatchingEngine_new [] kDefaultExpectedRestingOrders) universe.

Lemma universe_nonneg : Forall (fun id => 0 <= id) universe.
Proof. eapply Forall_impl; [exact Hu|]. unfold u32_ok. lia. Qed.
Lemma replayed_start : engine_wf e0 /\ refines e0 (sp_new universe).
Proof.
  destruct (new_refines (B := MatchingBook) [] kDefaultExpectedRestingOrders ltac:(constructor)) as [W R].
  apply (foldl_register_refines universe universe_nonneg _ _ W R).
Qed.

Lemma replay_prefix stop fuel rest : exists e' o,
  run e0 cmds = Some (e', (spec_run (sp_new universe) cmds).2) /\ engine_wf e' /\
  refines e' (spec_run (sp_new universe) cmds).1 /\
  replay_loop (List.length universe + (List.length cmds + fuel)) stop
    (registers_bytes universe ++ commands_bytes cmds ++ rest) outcome_new = replay_loop fuel stop rest o /\
  ro_engine o = e' /\ ro_events o = (spec_run (sp_new universe) cmds).2 /\
  ro_commands_processed o = Z.of_nat (List.length cmds) /\ ro_stopped_early o = false /\ ro_stop_reason o = EmptyString.
Proof.
  destruct replayed_start as [W R]. destruct (run_simulates cmds _ _ W R Hok) as (e' & Hrun & W' & R').
  set (o1 := foldl with_registration (outcome_new (B := MatchingBook)) universe).
  destruct (registrations_engine universe (outcome_new (B := MatchingBook))) as (H1 & H2 & H3 & H4 & H5). fold o1 in H1, H2, H3, H4, H5.
  exists e', (after_commands o1 e' (spec_run (sp_new universe) cmds).2 (List.length cmds)).
  split; [done|]. split; [done|]. split; [done|]. split.
  - rewrite replay_registers by done. apply replay_commands; [done|]. unfold o1 in *. by rewrite H1.
  - cbn. rewrite H2, H3, H4, H5. done.
Qed.
End Replayed.

(** ** The state hash's input determines the state

    [hash_state_snapshot] hashes a byte string; the string itself loses
    nothing: two snapshots with the same bytes are equal. *)

Definition order_wf (o : ExchangeRestingOrder) : Prop :=
  u64_ok (ero_exchange_order_id o) /\ u64_ok (ero_client_order_id o) /\ u64_ok (ero_account_id o) /\
  u32_ok (ero_instrument_id o) /\ s64_ok (ero_price o) /\ u64_ok (ero_original_quantity o) /\
  u64_ok (ero_remaining_quantity o) /\ u64_ok (ero_order_sequence o).
Definition instrument_wf (i : InstrumentBookSnapshot) : Prop :=
  u32_ok (ibs_instrument_id i) /\ u64_ok (Z.of_nat (List.length (ibs_bids i))) /\ u64_ok (Z.of_nat (List.length (ibs_asks i))) /\
  Forall order_wf (ibs_bids i) /\ Forall order_wf (ibs_asks i).
Definition snapshot_wf (s : EngineStateSnapshot) : Prop :=
  u64_ok (Z.of_nat (List.length (ess_instruments s))) /\ Forall instrument_wf (ess_instruments s).

Definition order_bytes (o : ExchangeRestingOrder) : list byte :=
  be 8 (ero_exchange_order_id o) ++ be 8 (ero_client_order_id o) ++ be 8 (ero_account_id o) ++
  be 4 (ero_instrument_id o) ++ [side_raw (ero_side o)] ++ be 8 (u64 (ero_price o)) ++
  be 8 (ero_original_quantity o) ++ be 8 (ero_remaining_quantity o) ++
  [time_in_force_raw (ero_time_in_force o)] ++ be 8 (ero_order_sequence o).
Definition orders_bytes (l : list ExchangeRestingOrder) : list byte := mjoin (order_bytes <$> l).
Definition instrument_bytes (i : InstrumentBookSnapshot) : list byte :=
  be 4 (ibs_instrument_id i) ++ be 8 (Z.of_nat (List.length (ibs_bids i))) ++ orders_bytes (ibs_bids i) ++
  be 8 (Z.of_nat (List.length (ibs_asks i))) ++ orders_bytes (ibs_asks i).

(** ** Layout *)
Lemma put_order_bytes buf o : put_order buf o = buf ++ order_bytes o.
Proof. unfold put_order, put_u8, order_bytes. autorewrite with bytes. by rewrite <- !app_assoc. Qed.
Lemma put_orders_bytes l : forall buf, foldl put_order buf l = buf ++ orders_bytes l.
Proof.
  induction l as [|o l IH]; intros buf; cbn [foldl]; [by rewrite app_nil_r|].
  rewrite IH, put_order_bytes. change (orders_bytes (o :: l)) with (order_bytes o ++ orders_bytes l). by rewrite <- app_assoc.
Qed.
Lemma put_instrument_bytes buf i : put_instrument buf i = buf ++ instrument_bytes i.
Proof.
  unfold put_instrument, instrument_bytes. rewrite !put_orders_bytes. autorewrite with bytes.
  by rewrite <- !app_assoc.
Qed.
Lemma snapshot_buffer_bytes s : snapshot_buffer s =
  be 8 (Z.of_nat (List.length (ess_instruments s))) ++ mjoin (instrument_bytes <$> ess_instruments s).
Proof.
  unfold snapshot_buffer. rewrite put_u64_be. cbn [app]. generalize (be 8 (Z.of_nat (List.length (ess_instruments s)))).
  induction (ess_instruments s) as [|i l IH]; intros buf; cbn [foldl]; [by rewrite app_nil_r|].
  rewrite IH, put_instrument_bytes. cbn. by rewrite <- app_assoc.
Qed.

(** ** Injectivity *)
Lemma be_cut n v w r1 r2 : 0 <= v < 256 ^ Z.of_nat n -> 0 <= w < 256 ^ Z.of_nat n ->
  be n v ++ r1 = be n w ++ r2 -> v = w /\ r1 = r2.
Proof.
  intros Hv Hw He. apply app_inj_1 in He as [He ->]; [|by rewrite !length_be]. split; [|done].
  set (M := 256 ^ Z.of_nat n) in *.
  rewrite <- (get_loop_be M (fun z => z mod M) ltac:(lia) (fun _ => eq_refl) n v eq_refl Hv).
  rewrite <- (get_loop_be M (fun z => z mod M) ltac:(lia) (fun _ => eq_refl) n w eq_refl Hw). by rewrite He.
Qed.
Lemma be8_cut v w r1 r2 : u64_ok v -> u64_ok w -> be 8 v ++ r1 = be 8 w ++ r2 -> v = w /\ r1 = r2.
Proof. apply (be_cut 8). Qed.
Lemma be4_cut v w r1 r2 : u32_ok v -> u32_ok w -> be 4 v ++ r1 = be 4 w ++ r2 -> v = w /\ r1 = r2.
Proof. apply (be_cut 4). Qed.
Lemma price_cut v w r1 r2 : s64_ok v -> s64_ok w -> be 8 (u64 v) ++ r1 = be 8 (u64 w) ++ r2 -> v = w /\ r1 = r2.
Proof.
  intros Hv Hw [He ->]%be8_cut; try apply u64_range. split; [|done].
  rewrite <- (s64_small v), <- (s64_small w), <- (s64_u64 v), <- (s64_u64 w) by done. by rewrite He.
Qed.
Lemma side_cut s s' r1 r2 : [side_raw s] ++ r1 = [side_raw s'] ++ r2 -> s = s' /\ r1 = r2.
Proof. destruct s, s'; intros [=]; done. Qed.
Lemma tif_cut s s' r1 r2 : [time_in_force_raw s] ++ r1 = [time_in_force_raw s'] ++ r2 -> s = s' /\ r1 = r2.
Proof. destruct s, s'; intros [=]; done. Qed.

Lemma order_cut o o' r1 r2 : order_wf o -> order_wf o' -> order_bytes o ++ r1 = order_bytes o' ++ r2 -> o = o' /\ r1 = r2.
Proof.
  intros Hw Hw'. unfold order_wf in *. decompose [and] Hw. decompose [and] Hw'. unfold order_bytes. rewrite <- !app_assoc.
  intros (E1 & (E2 & (E3 & (E4 & (E5 & (E6 & (E7 & (E8 & (E9 & (E10 & Hr)%be8_cut)%tif_cut)%be8_cut)%be8_cut)%price_cut)%side_cut)%be4_cut)%be8_cut)%be8_cut)%be8_cut;
    try assumption.
  split; [|done]. destruct o, o'. cbn in *. by subst.
Qed.
Lemma orders_cut l : forall l' r1 r2, List.length l = List.length l' -> Forall order_wf l -> Forall order_wf l' ->
  orders_bytes l ++ r1 = orders_bytes l' ++ r2 -> l = l' /\ r1 = r2.
Proof.
  induction l as [|o l IH]; intros [|o' l'] r1 r2 Hlen Hl Hl' He; try discriminate Hlen; [done|].
  apply Forall_cons in Hl as [Ho Hl], Hl' as [Ho' Hl'].
  change (orders_bytes (o :: l)) with (order_bytes o ++ orders_bytes l) in He.
  change (orders_bytes (o' :: l')) with (order_bytes o' ++ orders_bytes l') in He. rewrite <- !app_assoc in He.
  apply order_cut in He as [-> He]; try done. apply IH in He as [-> ->]; try done. by injection Hlen.
Qed.
Lemma instrument_cut i i' r1 r2 : instrument_wf i -> instrument_wf i' ->
  instrument_bytes i ++ r1 = instrument_bytes i' ++ r2 -> i = i' /\ r1 = r2.
Proof.
  intros (H1 & H2 & H3 & H4 & H5) (H1' & H2' & H3' & H4' & H5'). unfold instrument_bytes. rewrite <- !app_assoc.
  intros [E1 He]%be4_cut; [|done..]. apply be8_cut in He as [E2 He]; [|done..]. apply Nat2Z.inj in E2.
  apply orders_cut in He as [E3 He]; [|done..]. apply be8_cut in He as [E4 He]; [|done..]. apply Nat2Z.inj in E4.
  apply orders_cut in He as [E5 He]; [|done..]. split; [|done]. destruct i, i'. cbn in *. by subst.
Qed.
Lemma snapshot_buffer_inj s s' : snapshot_wf s -> snapshot_wf s' -> snapshot_buffer s = snapshot_buffer s' -> s = s'.
Proof.
  intros [Hn Hs] [Hn' Hs']. rewrite !snapshot_buffer_bytes. destruct s as [l], s' as [l']. cbn [ess_instruments] in *.
  intros [Hlen He]%be8_cut; [|done..]. apply Nat2Z.inj in Hlen. f_equal. clear Hn Hn'.
  revert l' Hlen Hs' He. induction Hs as [|i l Hi Hs IH]; intros [|i' l'] Hlen Hs' He; try discriminate Hlen; [done|].
  apply Forall_cons in Hs' as [Hi' Hs']. cbn in He. apply instrument_cut in He as [-> He]; [|done..].
  f_equal. apply IH; try done. by injection Hlen.
Qed.
