(* ===== verification/MarketDataCodec.v ===== *)
(** * The market-data wire format: include/protocol/messages.hpp,
      src/protocol/encoder.cpp, src/protocol/decoder.cpp

    A 20-byte header (type, reserved, payload size, sequence number,
    timestamp) and a fixed payload per type.  As in CommandCodec.v, the
    getters of a message are one chain that stops at the first null. *)
From S2P Require Import Prelude Types ByteIO CommandCodec.

Module MarketData.
Definition HEADER_SIZE : nat := 20.

Inductive MessageType := MtAddOrder | MtCancelOrder | MtModifyOrder | MtTrade | MtClearBook.
Definition type_raw (ty : MessageType) : Z :=
  match ty with MtAddOrder => 1 | MtCancelOrder => 2 | MtModifyOrder => 3 | MtTrade => 4 | MtClearBook => 5 end.
Definition type_cast (raw : Z) : MessageType :=
  if raw =? 1 then MtAddOrder else if raw =? 2 then MtCancelOrder else if raw =? 3 then MtModifyOrder
  else if raw =? 4 then MtTrade else MtClearBook.

Record Header := {
  hd_type : MessageType;
  hd_payload_size : Z;
  hd_sequence_number : Sequence;
  hd_timestamp_ns : Timestamp;
}.

Record AddOrder := {
  ao_sequence_number : Sequence;
  ao_timestamp_ns : Timestamp;
  ao_order_id : OrderId;
  ao_instrument_id : InstrumentId;
  ao_price : Price;
  ao_quantity : Quantity;
  ao_side : Side;
}.
Record CancelOrder := {
  co_sequence_number : Sequence;
  co_timestamp_ns : Timestamp;
  co_order_id : OrderId;
  co_instrument_id : InstrumentId;
}.
Record ModifyOrder := {
  mo_sequence_number : Sequence;
  mo_timestamp_ns : Timestamp;
  mo_order_id : OrderId;
  mo_instrument_id : InstrumentId;
  mo_new_price : Price;
  mo_new_quantity : Quantity;
}.
Record Trade := {
  tr_sequence_number : Sequence;
  tr_timestamp_ns : Timestamp;
  tr_instrument_id : InstrumentId;
  tr_price : Price;
  tr_quantity : Quantity;
  tr_aggressor_side : Side;
}.
Record ClearBook := {
  cb_sequence_number : Sequence;
  cb_timestamp_ns : Timestamp;
  cb_instrument_id : InstrumentId;
}.
Inductive Event :=
| EvAddOrder (m : AddOrder)
| EvCancelOrder (m : CancelOrder)
| EvModifyOrder (m : ModifyOrder)
| EvTrade (m : Trade)
| EvClearBook (m : ClearBook).

Definition payload_size_for (ty : MessageType) : Z :=
  match ty with
  | MtAddOrder => 8 + 4 + 8 + 8 + 1
  | MtCancelOrder => 8 + 4
  | MtModifyOrder => 8 + 4 + 8 + 8
  | MtTrade => 4 + 8 + 8 + 1
  | MtClearBook => 4
  end.
Definition ALL_MESSAGE_TYPES : list MessageType := [MtAddOrder; MtCancelOrder; MtModifyOrder; MtTrade; MtClearBook].
Definition max_payload_size : Z :=
  foldl (fun largest ty => let size := payload_size_for ty in if largest <? size then size else largest) 0 ALL_MESSAGE_TYPES.
Definition MAX_FRAME_SIZE : Z := Z.of_nat HEADER_SIZE + max_payload_size.

Inductive DecodeError :=
| TruncatedHeader
| TruncatedPayload
| InvalidReserved
| InvalidMessageType
| InvalidMessageSize
| InvalidSide.

(** ** Encoder *)
Definition put_header (out : list byte) (ty : MessageType) (seq : Sequence) (ts : Timestamp) (payload_size : Z) : list byte :=
  let out := put_u8 out (type_raw ty) in
  let out := put_u8 out 0 in
  let out := put_u16 out payload_size in
  let out := put_u64 out seq in
  put_u64 out ts.
Definition put_side (out : list byte) (side : Side) : list byte := put_u8 out (side_raw side).

Definition encode_event (event : Event) (out : list byte) : list byte :=
  match event with
  | EvAddOrder msg =>
      let out := put_header out MtAddOrder (ao_sequence_number msg) (ao_timestamp_ns msg) (u16 (payload_size_for MtAddOrder)) in
      let out := put_u64 out (ao_order_id msg) in
      let out := put_u32 out (ao_instrument_id msg) in
      let out := put_i64 out (ao_price msg) in
      let out := put_u64 out (ao_quantity msg) in
      put_side out (ao_side msg)
  | EvCancelOrder msg =>
      let out := put_header out MtCancelOrder (co_sequence_number msg) (co_timestamp_ns msg) (u16 (payload_size_for MtCancelOrder)) in
      let out := put_u64 out (co_order_id msg) in
      put_u32 out (co_instrument_id msg)
  | EvModifyOrder msg =>
      let out := put_header out MtModifyOrder (mo_sequence_number msg) (mo_timestamp_ns msg) (u16 (payload_size_for MtModifyOrder)) in
      let out := put_u64 out (mo_order_id msg) in
      let out := put_u32 out (mo_instrument_id msg) in
      let out := put_i64 out (mo_new_price msg) in
      put_u64 out (mo_new_quantity msg)
  | EvTrade msg =>
      let out := put_header out MtTrade (tr_sequence_number msg) (tr_timestamp_ns msg) (u16 (payload_size_for MtTrade)) in
      let out := put_u32 out (tr_instrument_id msg) in
      let out := put_i64 out (tr_price msg) in
      let out := put_u64 out (tr_quantity msg) in
      put_side out (tr_aggressor_side msg)
  | EvClearBook msg =>
      let out := put_header out MtClearBook (cb_sequence_number msg) (cb_timestamp_ns msg) (u16 (payload_size_for MtClearBook)) in
      put_u32 out (cb_instrument_id msg)
  end.

(** ** Decoder *)
Definition is_known_type (raw : Z) : bool := existsb (fun ty => raw =? type_raw ty) ALL_MESSAGE_TYPES.

Definition decode_header (data : list byte) : Header + DecodeError :=
  if (length data <? HEADER_SIZE)%nat then inr TruncatedHeader
  else
    let r := take HEADER_SIZE data in
    match (let* (ty_raw, r) := get_u8 r in
           let* (reserved, r) := get_u8 r in
           let* (payload_size, r) := get_u16 r in
           let* (seq, r) := get_u64 r in
           let* (ts, r) := get_u64 r in
           Some (ty_raw, reserved, payload_size, seq, ts)) with
    | None => inr TruncatedHeader
    | Some (ty_raw, reserved, payload_size, seq, ts) =>
        if negb (reserved =? 0) then inr InvalidReserved
        else if negb (is_known_type ty_raw) then inr InvalidMessageType
        else inl {| hd_type := type_cast ty_raw; hd_payload_size := payload_size;
                    hd_sequence_number := seq; hd_timestamp_ns := ts |}
    end.

Definition decode_add_order (h : Header) (r : ByteReader) : Event + DecodeError :=
  match (let* (order_id, r) := get_u64 r in
         let* (instrument_id, r) := get_u32 r in
         let* (price, r) := get_i64 r in
         let* (quantity, r) := get_u64 r in
         let* (side_raw, r) := get_u8 r in
         Some (order_id, instrument_id, price, quantity, side_raw)) with
  | None => inr TruncatedPayload
  | Some (order_id, instrument_id, price, quantity, side_raw) =>
      if negb (is_valid_side side_raw) then inr InvalidSide
      else inl (EvAddOrder {| ao_sequence_number := hd_sequence_number h; ao_timestamp_ns := hd_timestamp_ns h;
                              ao_order_id := order_id; ao_instrument_id := instrument_id; ao_price := price;
                              ao_quantity := quantity; ao_side := side_cast side_raw |})
  end.
Definition decode_cancel_order (h : Header) (r : ByteReader) : Event + DecodeError :=
  match (let* (order_id, r) := get_u64 r in
         let* (instrument_id, r) := get_u32 r in
         Some (order_id, instrument_id)) with
  | None => inr TruncatedPayload
  | Some (order_id, instrument_id) =>
      inl (EvCancelOrder {| co_sequence_number := hd_sequence_number h; co_timestamp_ns := hd_timestamp_ns h;
                            co_order_id := order_id; co_instrument_id := instrument_id |})
  end.
Definition decode_modify_order (h : Header) (r : ByteReader) : Event + DecodeError :=
  match (let* (order_id, r) := get_u64 r in
         let* (instrument_id, r) := get_u32 r in
         let* (new_price, r) := get_i64 r in
         let* (new_quantity, r) := get_u64 r in
         Some (order_id, instrument_id, new_price, new_quantity)) with
  | None => inr TruncatedPayload
  | Some (order_id, instrument_id, new_price, new_quantity) =>
      inl (EvModifyOrder {| mo_sequence_number := hd_sequence_number h; mo_timestamp_ns := hd_timestamp_ns h;
                            mo_order_id := order_id; mo_instrument_id := instrument_id;
                            mo_new_price := new_price; mo_new_quantity := new_quantity |})
  end.
Definition decode_trade (h : Header) (r : ByteReader) : Event + DecodeError :=
  match (let* (instrument_id, r) := get_u32 r in
         let* (price, r) := get_i64 r in
         let* (quantity, r) := get_u64 r in
         let* (side_raw, r) := get_u8 r in
         Some (instrument_id, price, quantity, side_raw)) with
  | None => inr TruncatedPayload
  | Some (instrument_id, price, quantity, side_raw) =>
      if negb (is_valid_side side_raw) then inr InvalidSide
      else inl (EvTrade {| tr_sequence_number := hd_sequence_number h; tr_timestamp_ns := hd_timestamp_ns h;
                           tr_instrument_id := instrument_id; tr_price := price; tr_quantity := quantity;
                           tr_aggressor_side := side_cast side_raw |})
  end.
Definition decode_clear_book (h : Header) (r : ByteReader) : Event + DecodeError :=
  match get_u32 r with
  | None => inr TruncatedPayload
  | Some (instrument_id, _) =>
      inl (EvClearBook {| cb_sequence_number := hd_sequence_number h; cb_timestamp_ns := hd_timestamp_ns h;
                          cb_instrument_id := instrument_id |})
  end.
Definition decode_payload (h : Header) (r : ByteReader) : Event + DecodeError :=
  match hd_type h with
  | MtAddOrder => decode_add_order h r
  | MtCancelOrder => decode_cancel_order h r
  | MtModifyOrder => decode_modify_order h r
  | MtTrade => decode_trade h r
  | MtClearBook => decode_clear_book h r
  end.

Definition decode_event (data : list byte) : Event + DecodeError :=
  match decode_header data with
  | inr e => inr e
  | inl header =>
      if negb (hd_payload_size header =? payload_size_for (hd_type header)) then inr InvalidMessageSize
      else if Z.of_nat (length data) <? Z.of_nat HEADER_SIZE + hd_payload_size header then inr TruncatedPayload
      else decode_payload header (take (Z.to_nat (hd_payload_size header)) (drop HEADER_SIZE data))
  end.

(** ** Layout *)
Definition event_header (e : Event) : Header :=
  let mk ty seq ts := {| hd_type := ty; hd_payload_size := payload_size_for ty; hd_sequence_number := seq; hd_timestamp_ns := ts |} in
  match e with
  | EvAddOrder m => mk MtAddOrder (ao_sequence_number m) (ao_timestamp_ns m)
  | EvCancelOrder m => mk MtCancelOrder (co_sequence_number m) (co_timestamp_ns m)
  | EvModifyOrder m => mk MtModifyOrder (mo_sequence_number m) (mo_timestamp_ns m)
  | EvTrade m => mk MtTrade (tr_sequence_number m) (tr_timestamp_ns m)
  | EvClearBook m => mk MtClearBook (cb_sequence_number m) (cb_timestamp_ns m)
  end.
Definition header_bytes (h : Header) : list byte :=
  [type_raw (hd_type h)] ++ [0] ++ be 2 (hd_payload_size h) ++ be 8 (hd_sequence_number h) ++ be 8 (hd_timestamp_ns h) ++ [].
Definition payload_bytes (e : Event) : list byte :=
  match e with
  | EvAddOrder m => be 8 (ao_order_id m) ++ be 4 (ao_instrument_id m) ++ be 8 (u64 (ao_price m)) ++
      be 8 (ao_quantity m) ++ [side_raw (ao_side m)] ++ []
  | EvCancelOrder m => be 8 (co_order_id m) ++ be 4 (co_instrument_id m) ++ []
  | EvModifyOrder m => be 8 (mo_order_id m) ++ be 4 (mo_instrument_id m) ++ be 8 (u64 (mo_new_price m)) ++
      be 8 (mo_new_quantity m) ++ []
  | EvTrade m => be 4 (tr_instrument_id m) ++ be 8 (u64 (tr_price m)) ++ be 8 (tr_quantity m) ++
      [side_raw (tr_aggressor_side m)] ++ []
  | EvClearBook m => be 4 (cb_instrument_id m) ++ []
  end.
Definition event_bytes (e : Event) : list byte := header_bytes (event_header e) ++ payload_bytes e.
Definition event_wf (e : Event) : Prop :=
  u64_ok (hd_sequence_number (event_header e)) /\ u64_ok (hd_timestamp_ns (event_header e)) /\
  match e with
  | EvAddOrder m => u64_ok (ao_order_id m) /\ u32_ok (ao_instrument_id m) /\ s64_ok (ao_price m) /\ u64_ok (ao_quantity m)
  | EvCancelOrder m => u64_ok (co_order_id m) /\ u32_ok (co_instrument_id m)
  | EvModifyOrder m => u64_ok (mo_order_id m) /\ u32_ok (mo_instrument_id m) /\ s64_ok (mo_new_price m) /\ u64_ok (mo_new_quantity m)
  | EvTrade m => u32_ok (tr_instrument_id m) /\ s64_ok (tr_price m) /\ u64_ok (tr_quantity m)
  | EvClearBook m => u32_ok (cb_instrument_id m)
  end.

Lemma encode_event_bytes e out : encode_event e out = out ++ event_bytes e.
Proof.
  destruct e; unfold encode_event, put_header, put_side, put_u8, event_bytes, header_bytes;
    autorewrite with bytes; cbn [payload_bytes event_header hd_type hd_payload_size hd_sequence_number hd_timestamp_ns app];
    rewrite <- ?app_assoc; cbn [app]; done.
Qed.
Lemma length_md_header h : length (header_bytes h) = HEADER_SIZE.
Proof. unfold header_bytes. by autorewrite with bytes. Qed.
Lemma length_md_payload e : Z.of_nat (length (payload_bytes e)) = payload_size_for (hd_type (event_header e)).
Proof. destruct e; unfold payload_bytes; by autorewrite with bytes. Qed.
Lemma md_payload_range ty : 0 <= payload_size_for ty < 65536.
Proof. destruct ty; cbn; lia. Qed.

(** ** Decoding an encoding *)
Lemma md_raw_known ty : is_known_type (type_raw ty) = true /\ type_cast (type_raw ty) = ty.
Proof. by destruct ty. Qed.
Lemma decode_md_header h rest : u64_ok (hd_sequence_number h) -> u64_ok (hd_timestamp_ns h) -> 0 <= hd_payload_size h < 65536 ->
  decode_header (header_bytes h ++ rest) = inl h.
Proof.
  unfold u64_ok. intros Hs Ht Hn. unfold decode_header. rewrite length_app, length_md_header.
  destruct (_ <? _)%nat eqn:E; [apply Nat.ltb_lt in E; lia|]. rewrite take_app_length' by (by rewrite length_md_header).
  unfold header_bytes. run_reads. destruct (md_raw_known (hd_type h)) as [-> ->]. by destruct h.
Qed.
Lemma decode_md_payload e : event_wf e -> decode_payload (event_header e) (payload_bytes e) = inl e.
Proof.
  unfold event_wf, u64_ok, u32_ok, s64_ok, decode_payload. intros (Hs & Ht & Hp).
  destruct e as [m|m|m|m|m]; cbn [event_header hd_type payload_bytes]; decompose [and] Hp.
  - unfold decode_add_order. run_reads. destruct (side_valid (ao_side m)) as [-> ->]. by destruct m.
  - unfold decode_cancel_order. run_reads. by destruct m.
  - unfold decode_modify_order. run_reads. by destruct m.
  - unfold decode_trade. run_reads. destruct (side_valid (tr_aggressor_side m)) as [-> ->]. by destruct m.
  - unfold decode_clear_book. run_reads. by destruct m.
Qed.
Lemma decode_event_bytes e rest : event_wf e -> decode_event (event_bytes e ++ rest) = inl e.
Proof.
  intros Hw. pose proof Hw as (Hs & Ht & _). pose proof (length_md_payload e) as Hl.
  assert (Hsz : hd_payload_size (event_header e) = payload_size_for (hd_type (event_header e))) by (by destruct e).
  unfold decode_event, event_bytes. rewrite <- app_assoc, decode_md_header; [|done|done|rewrite Hsz; apply md_payload_range].
  rewrite Hsz, Z.eqb_refl. cbn [negb]. rewrite !length_app, length_md_header.
  destruct (_ <? _) eqn:E; [apply Z.ltb_lt in E; rewrite !Nat2Z.inj_add in E; lia|].
  rewrite drop_app_length' by (by rewrite length_md_header). rewrite take_app_length' by lia. by apply decode_md_payload.
Qed.

(** ** Whatever decodes is an encoding *)
Lemma md_known_raw raw : is_known_type raw = true -> type_raw (type_cast raw) = raw.
Proof. unfold is_known_type. intros (ty & _ & E%Z.eqb_eq)%existsb_exists. subst raw. by destruct ty. Qed.
Lemma decode_md_header_inv data h : Forall is_byte data -> decode_header data = inl h ->
  data = header_bytes h ++ drop HEADER_SIZE data /\ u64_ok (hd_sequence_number h) /\ u64_ok (hd_timestamp_ns h).
Proof.
  intros Hd. unfold decode_header. destruct (_ <? _)%nat eqn:E; [done|]. apply Nat.ltb_ge in E.
  assert (Hlen : length (take HEADER_SIZE data) = HEADER_SIZE) by (rewrite length_take; lia).
  assert (Ht : Forall is_byte (take HEADER_SIZE data)) by (by apply Forall_take).
  intros Hh. rewrite <- (take_drop HEADER_SIZE data) at 1. revert Hh Hlen Ht.
  generalize (take HEADER_SIZE data). intros r Hh Hlen Ht. revert Hh.
  invert_reads. destruct (negb _) eqn:Er; [done|]. apply negb_false_iff, Z.eqb_eq in Er. subst.
  destruct (negb (is_known_type _)) eqn:Ek; [done|]. apply negb_false_iff in Ek. intros [= <-].
  unfold header_bytes. cbn [hd_type hd_payload_size hd_sequence_number hd_timestamp_ns].
  rewrite md_known_raw by done. split; [|by split].
  autorewrite with bytes in Hlen. cbn in Hlen.
  match goal with |- context [be 8 _ ++ be 8 _ ++ ?b] => destruct b; [|cbn in Hlen; unfold HEADER_SIZE in Hlen; lia] end.
  rewrite <- !app_assoc. done.
Qed.
Lemma decode_md_payload_inv h r e : Forall is_byte r -> hd_payload_size h = payload_size_for (hd_type h) ->
  u64_ok (hd_sequence_number h) -> u64_ok (hd_timestamp_ns h) -> decode_payload h r = inl e ->
  event_header e = h /\ event_wf e /\ exists rest, r = payload_bytes e ++ rest.
Proof.
  intros Hr Hsz Hs Ht. unfold decode_payload. destruct h as [ty n seq ts]. cbn [hd_type hd_payload_size hd_sequence_number hd_timestamp_ns] in *.
  subst n. destruct ty.
  - unfold decode_add_order. invert_reads. destruct (is_valid_side _) eqn:E1; [|done]. cbn [negb]. intros [= <-].
    split; [done|]. split; [repeat split; done || apply Hs || apply Ht || (cbn; lia)|].
    cbn [payload_bytes ao_order_id ao_instrument_id ao_price ao_quantity ao_side]. rewrite side_raw_cast by done.
    eexists. rewrite <- !app_assoc. cbn [app]. reflexivity.
  - unfold decode_cancel_order. invert_reads. intros [= <-].
    split; [done|]. split; [repeat split; done || apply Hs || apply Ht || (cbn; lia)|].
    cbn [payload_bytes co_order_id co_instrument_id]. eexists. rewrite <- !app_assoc. cbn [app]. reflexivity.
  - unfold decode_modify_order. invert_reads. intros [= <-].
    split; [done|]. split; [repeat split; done || apply Hs || apply Ht || (cbn; lia)|].
    cbn [payload_bytes mo_order_id mo_instrument_id mo_new_price mo_new_quantity]. eexists. rewrite <- !app_assoc. cbn [app]. reflexivity.
  - unfold decode_trade. invert_reads. destruct (is_valid_side _) eqn:E1; [|done]. cbn [negb]. intros [= <-].
    split; [done|]. split; [repeat split; done || apply Hs || apply Ht || (cbn; lia)|].
    cbn [payload_bytes tr_instrument_id tr_price tr_quantity tr_aggressor_side]. rewrite side_raw_cast by done.
    eexists. rewrite <- !app_assoc. cbn [app]. reflexivity.
  - unfold decode_clear_book. destruct (get_u32 r) as [[? ?]|] eqn:Er; [|done].
    apply get_u32_inv in Er as (-> & ? & ?); [|done]. intros [= <-].
    split; [done|]. split; [repeat split; done || apply Hs || apply Ht || (cbn; lia)|].
    cbn [payload_bytes cb_instrument_id]. eexists. rewrite <- !app_assoc. cbn [app]. reflexivity.
Qed.
Lemma decode_event_inv data e : Forall is_byte data -> decode_event data = inl e ->
  event_wf e /\ exists rest, data = event_bytes e ++ rest.
Proof.
  intros Hd. unfold decode_event. destruct (decode_header data) as [h|] eqn:Eh; [|done].
  destruct (decode_md_header_inv data h Hd Eh) as (Hdata & Hs & Ht). destruct (negb _) eqn:En; [done|].
  apply negb_false_iff, Z.eqb_eq in En. destruct (_ <? _) eqn:El; [done|]. apply Z.ltb_ge in El.
  set (p := drop HEADER_SIZE data) in *. intros Hc.
  destruct (decode_md_payload_inv h (take (Z.to_nat (hd_payload_size h)) p) e) as (Hh & Hwf & rest & Hp);
    [by apply Forall_take, Forall_drop|done..|]. split; [done|].
  assert (Hrest : rest = []).
  { apply (f_equal length) in Hp. rewrite length_app, length_take in Hp. pose proof (length_md_payload e) as Hl.
    rewrite Hh in Hl. destruct rest; [done|]. cbn in Hp. lia. }
  subst rest. rewrite app_nil_r in Hp. exists (drop (Z.to_nat (hd_payload_size h)) p).
  unfold event_bytes. rewrite Hh, <- Hp, <- app_assoc, take_drop. exact Hdata.
Qed.

(** Every frame fits the fixed receive buffer. *)
Lemma frame_fits e : Z.of_nat (length (event_bytes e)) <= MAX_FRAME_SIZE.
Proof.
  unfold event_bytes. rewrite length_app, length_md_header, Nat2Z.inj_add, length_md_payload. by destruct e.
Qed.
End MarketData.
