(* ===== verification/OrderEntryCodec.v ===== *)
(** * The order-entry wire format: include/protocol/order_entry/messages.hpp,
      src/protocol/order_entry/encoder.cpp, src/protocol/order_entry/decoder.cpp

    The TCP protocol between a client and the gateway: a 3-byte header (type,
    payload size) and a fixed payload per type.  As in CommandCodec.v, the
    getters of a message are one chain that stops at the first null. *)
From S2P Require Import Prelude Types ByteIO CommandCodec.

Module OrderEntry.
Definition HEADER_SIZE : nat := 3.

Inductive MessageType := MtNewOrder | MtCancelOrder | MtReplaceOrder | MtAccepted | MtRejected | MtCancelled | MtReplaced | MtTradeReport.
Definition type_raw (ty : MessageType) : Z :=
  match ty with
  | MtNewOrder => 1
  | MtCancelOrder => 2
  | MtReplaceOrder => 3
  | MtAccepted => 10
  | MtRejected => 11
  | MtCancelled => 12
  | MtReplaced => 13
  | MtTradeReport => 14
  end.
Definition ALL_MESSAGE_TYPES : list MessageType :=
  [MtNewOrder; MtCancelOrder; MtReplaceOrder; MtAccepted; MtRejected; MtCancelled; MtReplaced; MtTradeReport].
Definition type_cast (raw : Z) : MessageType :=
  if raw =? 1 then MtNewOrder else
  if raw =? 2 then MtCancelOrder else
  if raw =? 3 then MtReplaceOrder else
  if raw =? 10 then MtAccepted else
  if raw =? 11 then MtRejected else
  if raw =? 12 then MtCancelled else
  if raw =? 13 then MtReplaced else MtTradeReport.

Record Header := {
  hd_type : MessageType;
  hd_payload_size : Z;
}.

Record NewOrder := {
  no_account_id : AccountId;
  no_client_order_id : ClientOrderId;
  no_instrument_id : InstrumentId;
  no_side : Side;
  no_price : Price;
  no_quantity : Quantity;
  no_order_type : OrderType;
  no_time_in_force : TimeInForce;
}.
Record CancelOrder := {
  co_account_id : AccountId;
  co_client_order_id : ClientOrderId;
  co_instrument_id : InstrumentId;
}.
Record ReplaceOrder := {
  ro_account_id : AccountId;
  ro_original_client_order_id : ClientOrderId;
  ro_new_client_order_id : ClientOrderId;
  ro_instrument_id : InstrumentId;
  ro_new_price : Price;
  ro_new_quantity : Quantity;
}.
Record Accepted := {
  ac_account_id : AccountId;
  ac_client_order_id : ClientOrderId;
  ac_exchange_order_id : ExchangeOrderId;
  ac_instrument_id : InstrumentId;
  ac_side : Side;
  ac_price : Price;
  ac_quantity : Quantity;
  ac_order_type : OrderType;
  ac_time_in_force : TimeInForce;
}.
Record Rejected := {
  rj_account_id : AccountId;
  rj_client_order_id : ClientOrderId;
  rj_instrument_id : InstrumentId;
  rj_reason : RejectReason.t;
}.
Record Cancelled := {
  cn_account_id : AccountId;
  cn_client_order_id : ClientOrderId;
  cn_exchange_order_id : ExchangeOrderId;
  cn_instrument_id : InstrumentId;
}.
Record Replaced := {
  rp_account_id : AccountId;
  rp_original_client_order_id : ClientOrderId;
  rp_new_client_order_id : ClientOrderId;
  rp_exchange_order_id : ExchangeOrderId;
  rp_instrument_id : InstrumentId;
  rp_new_price : Price;
  rp_new_quantity : Quantity;
}.
Record TradeReport := {
  tr_account_id : AccountId;
  tr_client_order_id : ClientOrderId;
  tr_exchange_order_id : ExchangeOrderId;
  tr_instrument_id : InstrumentId;
  tr_price : Price;
  tr_quantity : Quantity;
  tr_remaining_quantity : Quantity;
}.
Inductive Message :=
| MsgNewOrder (m : NewOrder)
| MsgCancelOrder (m : CancelOrder)
| MsgReplaceOrder (m : ReplaceOrder)
| MsgAccepted (m : Accepted)
| MsgRejected (m : Rejected)
| MsgCancelled (m : Cancelled)
| MsgReplaced (m : Replaced)
| MsgTradeReport (m : TradeReport).

Definition payload_size_for (ty : MessageType) : Z :=
  match ty with
  | MtNewOrder => 8 + 8 + 4 + 1 + 8 + 8 + 1 + 1
  | MtCancelOrder => 8 + 8 + 4
  | MtReplaceOrder => 8 + 8 + 8 + 4 + 8 + 8
  | MtAccepted => 8 + 8 + 8 + 4 + 1 + 8 + 8 + 1 + 1
  | MtRejected => 8 + 8 + 4 + 1
  | MtCancelled => 8 + 8 + 8 + 4
  | MtReplaced => 8 + 8 + 8 + 8 + 4 + 8 + 8
  | MtTradeReport => 8 + 8 + 8 + 4 + 8 + 8 + 8
  end.

Inductive DecodeError :=
| TruncatedHeader
| TruncatedPayload
| InvalidMessageType
| InvalidMessageSize
| InvalidSide
| InvalidOrderType
| InvalidTimeInForce
| InvalidRejectReason.

(** ** Encoder *)
Definition put_header (out : list byte) (ty : MessageType) (payload_size : Z) : list byte :=
  let out := put_u8 out (type_raw ty) in
  put_u16 out payload_size.
Definition put_side (out : list byte) (side : Side) : list byte := put_u8 out (side_raw side).
Definition put_order_type (out : list byte) (t : OrderType) : list byte := put_u8 out (order_type_raw t).
Definition put_time_in_force (out : list byte) (t : TimeInForce) : list byte := put_u8 out (time_in_force_raw t).
Definition put_reject_reason (out : list byte) (r : RejectReason.t) : list byte := put_u8 out (reject_reason_raw r).

Definition encode_message (message : Message) (out : list byte) : list byte :=
  match message with
  | MsgNewOrder msg =>
      let out := put_header out MtNewOrder (u16 (payload_size_for MtNewOrder)) in
      let out := put_u64 out (no_account_id msg) in
      let out := put_u64 out (no_client_order_id msg) in
      let out := put_u32 out (no_instrument_id msg) in
      let out := put_side out (no_side msg) in
      let out := put_i64 out (no_price msg) in
      let out := put_u64 out (no_quantity msg) in
      let out := put_order_type out (no_order_type msg) in
      put_time_in_force out (no_time_in_force msg)
  | MsgCancelOrder msg =>
      let out := put_header out MtCancelOrder (u16 (payload_size_for MtCancelOrder)) in
      let out := put_u64 out (co_account_id msg) in
      let out := put_u64 out (co_client_order_id msg) in
      put_u32 out (co_instrument_id msg)
  | MsgReplaceOrder msg =>
      let out := put_header out MtReplaceOrder (u16 (payload_size_for MtReplaceOrder)) in
      let out := put_u64 out (ro_account_id msg) in
      let out := put_u64 out (ro_original_client_order_id msg) in
      let out := put_u64 out (ro_new_client_order_id msg) in
      let out := put_u32 out (ro_instrument_id msg) in
      let out := put_i64 out (ro_new_price msg) in
      put_u64 out (ro_new_quantity msg)
  | MsgAccepted msg =>
      let out := put_header out MtAccepted (u16 (payload_size_for MtAccepted)) in
      let out := put_u64 out (ac_account_id msg) in
      let out := put_u64 out (ac_client_order_id msg) in
      let out := put_u64 out (ac_exchange_order_id msg) in
      let out := put_u32 out (ac_instrument_id msg) in
      let out := put_side out (ac_side msg) in
      let out := put_i64 out (ac_price msg) in
      let out := put_u64 out (ac_quantity msg) in
      let out := put_order_type out (ac_order_type msg) in
      put_time_in_force out (ac_time_in_force msg)
  | MsgRejected msg =>
      let out := put_header out MtRejected (u16 (payload_size_for MtRejected)) in
      let out := put_u64 out (rj_account_id msg) in
      let out := put_u64 out (rj_client_order_id msg) in
      let out := put_u32 out (rj_instrument_id msg) in
      put_reject_reason out (rj_reason msg)
  | MsgCancelled msg =>
      let out := put_header out MtCancelled (u16 (payload_size_for MtCancelled)) in
      let out := put_u64 out (cn_account_id msg) in
      let out := put_u64 out (cn_client_order_id msg) in
      let out := put_u64 out (cn_exchange_order_id msg) in
      put_u32 out (cn_instrument_id msg)
  | MsgReplaced msg =>
      let out := put_header out MtReplaced (u16 (payload_size_for MtReplaced)) in
      let out := put_u64 out (rp_account_id msg) in
      let out := put_u64 out (rp_original_client_order_id msg) in
      let out := put_u64 out (rp_new_client_order_id msg) in
      let out := put_u64 out (rp_exchange_order_id msg) in
      let out := put_u32 out (rp_instrument_id msg) in
      let out := put_i64 out (rp_new_price msg) in
      put_u64 out (rp_new_quantity msg)
  | MsgTradeReport msg =>
      let out := put_header out MtTradeReport (u16 (payload_size_for MtTradeReport)) in
      let out := put_u64 out (tr_account_id msg) in
      let out := put_u64 out (tr_client_order_id msg) in
      let out := put_u64 out (tr_exchange_order_id msg) in
      let out := put_u32 out (tr_instrument_id msg) in
      let out := put_i64 out (tr_price msg) in
      let out := put_u64 out (tr_quantity msg) in
      put_u64 out (tr_remaining_quantity msg)
  end.

(** ** Decoder *)
Definition is_known_type (raw : Z) : bool := existsb (fun ty => raw =? type_raw ty) ALL_MESSAGE_TYPES.

Definition decode_header (data : list byte) : Header + DecodeError :=
  if (length data <? HEADER_SIZE)%nat then inr TruncatedHeader
  else
    let r := take HEADER_SIZE data in
    match (let* (ty_raw, r) := get_u8 r in
           let* (payload_size, r) := get_u16 r in
           Some (ty_raw, payload_size)) with
    | None => inr TruncatedHeader
    | Some (ty_raw, payload_size) =>
        if negb (is_known_type ty_raw) then inr InvalidMessageType
        else inl {| hd_type := type_cast ty_raw; hd_payload_size := payload_size |}
    end.

Definition decode_new_order (r : ByteReader) : Message + DecodeError :=
  match (let* (account_id, r) := get_u64 r in
         let* (client_order_id, r) := get_u64 r in
         let* (instrument_id, r) := get_u32 r in
         let* (side_raw', r) := get_u8 r in
         let* (price, r) := get_i64 r in
         let* (quantity, r) := get_u64 r in
         let* (order_type_raw', r) := get_u8 r in
         let* (tif_raw', r) := get_u8 r in
         Some (account_id, client_order_id, instrument_id, side_raw', price, quantity, order_type_raw', tif_raw')) with
  | None => inr TruncatedPayload
  | Some (account_id, client_order_id, instrument_id, side_raw', price, quantity, order_type_raw', tif_raw') =>
      if negb (is_valid_side side_raw') then inr InvalidSide else
      if negb (is_valid_order_type order_type_raw') then inr InvalidOrderType else
      if negb (is_valid_time_in_force tif_raw') then inr InvalidTimeInForce else
      inl (MsgNewOrder {| no_account_id := account_id; no_client_order_id := client_order_id; no_instrument_id := instrument_id; no_side := side_cast side_raw'; no_price := price; no_quantity := quantity; no_order_type := order_type_cast order_type_raw'; no_time_in_force := time_in_force_cast tif_raw' |})
  end.
Definition decode_cancel_order (r : ByteReader) : Message + DecodeError :=
  match (let* (account_id, r) := get_u64 r in
         let* (client_order_id, r) := get_u64 r in
         let* (instrument_id, r) := get_u32 r in
         Some (account_id, client_order_id, instrument_id)) with
  | None => inr TruncatedPayload
  | Some (account_id, client_order_id, instrument_id) =>
      inl (MsgCancelOrder {| co_account_id := account_id; co_client_order_id := client_order_id; co_instrument_id := instrument_id |})
  end.
Definition decode_replace_order (r : ByteReader) : Message + DecodeError :=
  match (let* (account_id, r) := get_u64 r in
         let* (original_client_order_id, r) := get_u64 r in
         let* (new_client_order_id, r) := get_u64 r in
         let* (instrument_id, r) := get_u32 r in
         let* (new_price, r) := get_i64 r in
         let* (new_quantity, r) := get_u64 r in
         Some (account_id, original_client_order_id, new_client_order_id, instrument_id, new_price, new_quantity)) with
  | None => inr TruncatedPayload
  | Some (account_id, original_client_order_id, new_client_order_id, instrument_id, new_price, new_quantity) =>
      inl (MsgReplaceOrder {| ro_account_id := account_id; ro_original_client_order_id := original_client_order_id; ro_new_client_order_id := new_client_order_id; ro_instrument_id := instrument_id; ro_new_price := new_price; ro_new_quantity := new_quantity |})
  end.
Definition decode_accepted (r : ByteReader) : Message + DecodeError :=
  match (let* (account_id, r) := get_u64 r in
         let* (client_order_id, r) := get_u64 r in
         let* (exchange_order_id, r) := get_u64 r in
         let* (instrument_id, r) := get_u32 r in
         let* (side_raw', r) := get_u8 r in
         let* (price, r) := get_i64 r in
         let* (quantity, r) := get_u64 r in
         let* (order_type_raw', r) := get_u8 r in
         let* (tif_raw', r) := get_u8 r in
         Some (account_id, client_order_id, exchange_order_id, instrument_id, side_raw', price, quantity, order_type_raw', tif_raw')) with
  | None => inr TruncatedPayload
  | Some (account_id, client_order_id, exchange_order_id, instrument_id, side_raw', price, quantity, order_type_raw', tif_raw') =>
      if negb (is_valid_side side_raw') then inr InvalidSide else
      if negb (is_valid_order_type order_type_raw') then inr InvalidOrderType else
      if negb (is_valid_time_in_force tif_raw') then inr InvalidTimeInForce else
      inl (MsgAccepted {| ac_account_id := account_id; ac_client_order_id := client_order_id; ac_exchange_order_id := exchange_order_id; ac_instrument_id := instrument_id; ac_side := side_cast side_raw'; ac_price := price; ac_quantity := quantity; ac_order_type := order_type_cast order_type_raw'; ac_time_in_force := time_in_force_cast tif_raw' |})
  end.
Definition decode_rejected (r : ByteReader) : Message + DecodeError :=
  match (let* (account_id, r) := get_u64 r in
         let* (client_order_id, r) := get_u64 r in
         let* (instrument_id, r) := get_u32 r in
         let* (reason_raw', r) := get_u8 r in
         Some (account_id, client_order_id, instrument_id, reason_raw')) with
  | None => inr TruncatedPayload
  | Some (account_id, client_order_id, instrument_id, reason_raw') =>
      if negb (is_valid_reject_reason reason_raw') then inr InvalidRejectReason else
      inl (MsgRejected {| rj_account_id := account_id; rj_client_order_id := client_order_id; rj_instrument_id := instrument_id; rj_reason := reject_reason_cast reason_raw' |})
  end.
Definition decode_cancelled (r : ByteReader) : Message + DecodeError :=
  match (let* (account_id, r) := get_u64 r in
         let* (client_order_id, r) := get_u64 r in
         let* (exchange_order_id, r) := get_u64 r in
         let* (instrument_id, r) := get_u32 r in
         Some (account_id, client_order_id, exchange_order_id, instrument_id)) with
  | None => inr TruncatedPayload
  | Some (account_id, client_order_id, exchange_order_id, instrument_id) =>
      inl (MsgCancelled {| cn_account_id := account_id; cn_client_order_id := client_order_id; cn_exchange_order_id := exchange_order_id; cn_instrument_id := instrument_id |})
  end.
Definition decode_replaced (r : ByteReader) : Message + DecodeError :=
  match (let* (account_id, r) := get_u64 r in
         let* (original_client_order_id, r) := get_u64 r in
         let* (new_client_order_id, r) := get_u64 r in
         let* (exchange_order_id, r) := get_u64 r in
         let* (instrument_id, r) := get_u32 r in
         let* (new_price, r) := get_i64 r in
         let* (new_quantity, r) := get_u64 r in
         Some (account_id, original_client_order_id, new_client_order_id, exchange_order_id, instrument_id, new_price, new_quantity)) with
  | None => inr TruncatedPayload
  | Some (account_id, original_client_order_id, new_client_order_id, exchange_order_id, instrument_id, new_price, new_quantity) =>
      inl (MsgReplaced {| rp_account_id := account_id; rp_original_client_order_id := original_client_order_id; rp_new_client_order_id := new_client_order_id; rp_exchange_order_id := exchange_order_id; rp_instrument_id := instrument_id; rp_new_price := new_price; rp_new_quantity := new_quantity |})
  end.
Definition decode_trade_report (r : ByteReader) : Message + DecodeError :=
  match (let* (account_id, r) := get_u64 r in
         let* (client_order_id, r) := get_u64 r in
         let* (exchange_order_id, r) := get_u64 r in
         let* (instrument_id, r) := get_u32 r in
         let* (price, r) := get_i64 r in
         let* (quantity, r) := get_u64 r in
         let* (remaining_quantity, r) := get_u64 r in
         Some (account_id, client_order_id, exchange_order_id, instrument_id, price, quantity, remaining_quantity)) with
  | None => inr TruncatedPayload
  | Some (account_id, client_order_id, exchange_order_id, instrument_id, price, quantity, remaining_quantity) =>
      inl (MsgTradeReport {| tr_account_id := account_id; tr_client_order_id := client_order_id; tr_exchange_order_id := exchange_order_id; tr_instrument_id := instrument_id; tr_price := price; tr_quantity := quantity; tr_remaining_quantity := remaining_quantity |})
  end.
Definition decode_payload (ty : MessageType) (r : ByteReader) : Message + DecodeError :=
  match ty with
  | MtNewOrder => decode_new_order r
  | MtCancelOrder => decode_cancel_order r
  | MtReplaceOrder => decode_replace_order r
  | MtAccepted => decode_accepted r
  | MtRejected => decode_rejected r
  | MtCancelled => decode_cancelled r
  | MtReplaced => decode_replaced r
  | MtTradeReport => decode_trade_report r
  end.

Definition decode_message (data : list byte) : Message + DecodeError :=
  match decode_header data with
  | inr e => inr e
  | inl header =>
      if negb (hd_payload_size header =? payload_size_for (hd_type header)) then inr InvalidMessageSize
      else if Z.of_nat (length data) <? Z.of_nat HEADER_SIZE + hd_payload_size header then inr TruncatedPayload
      else decode_payload (hd_type header) (take (Z.to_nat (hd_payload_size header)) (drop HEADER_SIZE data))
  end.

(** ** Layout *)
Definition message_type (msg : Message) : MessageType :=
  match msg with
  | MsgNewOrder _ => MtNewOrder
  | MsgCancelOrder _ => MtCancelOrder
  | MsgReplaceOrder _ => MtReplaceOrder
  | MsgAccepted _ => MtAccepted
  | MsgRejected _ => MtRejected
  | MsgCancelled _ => MtCancelled
  | MsgReplaced _ => MtReplaced
  | MsgTradeReport _ => MtTradeReport
  end.
Definition payload_bytes (msg : Message) : list byte :=
  match msg with
  | MsgNewOrder m => be 8 (no_account_id m) ++ be 8 (no_client_order_id m) ++ be 4 (no_instrument_id m) ++ [side_raw (no_side m)] ++ be 8 (u64 (no_price m)) ++ be 8 (no_quantity m) ++ [order_type_raw (no_order_type m)] ++ [time_in_force_raw (no_time_in_force m)] ++ []
  | MsgCancelOrder m => be 8 (co_account_id m) ++ be 8 (co_client_order_id m) ++ be 4 (co_instrument_id m) ++ []
  | MsgReplaceOrder m => be 8 (ro_account_id m) ++ be 8 (ro_original_client_order_id m) ++ be 8 (ro_new_client_order_id m) ++ be 4 (ro_instrument_id m) ++ be 8 (u64 (ro_new_price m)) ++ be 8 (ro_new_quantity m) ++ []
  | MsgAccepted m => be 8 (ac_account_id m) ++ be 8 (ac_client_order_id m) ++ be 8 (ac_exchange_order_id m) ++ be 4 (ac_instrument_id m) ++ [side_raw (ac_side m)] ++ be 8 (u64 (ac_price m)) ++ be 8 (ac_quantity m) ++ [order_type_raw (ac_order_type m)] ++ [time_in_force_raw (ac_time_in_force m)] ++ []
  | MsgRejected m => be 8 (rj_account_id m) ++ be 8 (rj_client_order_id m) ++ be 4 (rj_instrument_id m) ++ [reject_reason_raw (rj_reason m)] ++ []
  | MsgCancelled m => be 8 (cn_account_id m) ++ be 8 (cn_client_order_id m) ++ be 8 (cn_exchange_order_id m) ++ be 4 (cn_instrument_id m) ++ []
  | MsgReplaced m => be 8 (rp_account_id m) ++ be 8 (rp_original_client_order_id m) ++ be 8 (rp_new_client_order_id m) ++ be 8 (rp_exchange_order_id m) ++ be 4 (rp_instrument_id m) ++ be 8 (u64 (rp_new_price m)) ++ be 8 (rp_new_quantity m) ++ []
  | MsgTradeReport m => be 8 (tr_account_id m) ++ be 8 (tr_client_order_id m) ++ be 8 (tr_exchange_order_id m) ++ be 4 (tr_instrument_id m) ++ be 8 (u64 (tr_price m)) ++ be 8 (tr_quantity m) ++ be 8 (tr_remaining_quantity m) ++ []
  end.
Definition header_bytes (h : Header) : list byte := [type_raw (hd_type h)] ++ be 2 (hd_payload_size h) ++ [].
Definition message_header (msg : Message) : Header :=
  {| hd_type := message_type msg; hd_payload_size := payload_size_for (message_type msg) |}.
Definition message_bytes (msg : Message) : list byte := header_bytes (message_header msg) ++ payload_bytes msg.
(** The fields hold values of their C++ types. *)
Definition message_wf (msg : Message) : Prop :=
  match msg with
  | MsgNewOrder m => u64_ok (no_account_id m) /\ u64_ok (no_client_order_id m) /\ u32_ok (no_instrument_id m) /\ s64_ok (no_price m) /\ u64_ok (no_quantity m)
  | MsgCancelOrder m => u64_ok (co_account_id m) /\ u64_ok (co_client_order_id m) /\ u32_ok (co_instrument_id m)
  | MsgReplaceOrder m => u64_ok (ro_account_id m) /\ u64_ok (ro_original_client_order_id m) /\ u64_ok (ro_new_client_order_id m) /\ u32_ok (ro_instrument_id m) /\ s64_ok (ro_new_price m) /\ u64_ok (ro_new_quantity m)
  | MsgAccepted m => u64_ok (ac_account_id m) /\ u64_ok (ac_client_order_id m) /\ u64_ok (ac_exchange_order_id m) /\ u32_ok (ac_instrument_id m) /\ s64_ok (ac_price m) /\ u64_ok (ac_quantity m)
  | MsgRejected m => u64_ok (rj_account_id m) /\ u64_ok (rj_client_order_id m) /\ u32_ok (rj_instrument_id m)
  | MsgCancelled m => u64_ok (cn_account_id m) /\ u64_ok (cn_client_order_id m) /\ u64_ok (cn_exchange_order_id m) /\ u32_ok (cn_instrument_id m)
  | MsgReplaced m => u64_ok (rp_account_id m) /\ u64_ok (rp_original_client_order_id m) /\ u64_ok (rp_new_client_order_id m) /\ u64_ok (rp_exchange_order_id m) /\ u32_ok (rp_instrument_id m) /\ s64_ok (rp_new_price m) /\ u64_ok (rp_new_quantity m)
  | MsgTradeReport m => u64_ok (tr_account_id m) /\ u64_ok (tr_client_order_id m) /\ u64_ok (tr_exchange_order_id m) /\ u32_ok (tr_instrument_id m) /\ s64_ok (tr_price m) /\ u64_ok (tr_quantity m) /\ u64_ok (tr_remaining_quantity m)
  end.

Lemma encode_message_bytes msg out : encode_message msg out = out ++ message_bytes msg.
Proof.
  destruct msg; unfold encode_message, put_header, put_side, put_order_type, put_time_in_force, put_reject_reason,
    put_u8, message_bytes, header_bytes; autorewrite with bytes;
    cbn [payload_bytes message_header message_type hd_type hd_payload_size app]; rewrite <- ?app_assoc; cbn [app]; done.
Qed.
Lemma length_oe_header h : length (header_bytes h) = HEADER_SIZE.
Proof. unfold header_bytes. by autorewrite with bytes. Qed.
Lemma length_oe_payload msg : Z.of_nat (length (payload_bytes msg)) = payload_size_for (message_type msg).
Proof. destruct msg; unfold payload_bytes; by autorewrite with bytes. Qed.
Lemma oe_payload_range ty : 0 <= payload_size_for ty < 65536.
Proof. destruct ty; cbn; lia. Qed.

(** ** Decoding an encoding *)
Lemma oe_raw_known ty : is_known_type (type_raw ty) = true /\ type_cast (type_raw ty) = ty.
Proof. by destruct ty. Qed.
Lemma decode_oe_header h rest : 0 <= hd_payload_size h < 65536 -> decode_header (header_bytes h ++ rest) = inl h.
Proof.
  intros Hn. unfold decode_header. rewrite length_app, length_oe_header.
  destruct (_ <? _)%nat eqn:E; [apply Nat.ltb_lt in E; lia|]. rewrite take_app_length' by (by rewrite length_oe_header).
  unfold header_bytes. run_reads. destruct (oe_raw_known (hd_type h)) as [-> ->]. by destruct h.
Qed.
(** The checked casts undo the raw values. *)
Ltac run_casts :=
  rewrite ?(proj1 (side_valid _)), ?(proj2 (side_valid _)), ?(proj1 (order_type_valid _)), ?(proj2 (order_type_valid _)),
    ?(proj1 (time_in_force_valid _)), ?(proj2 (time_in_force_valid _)), ?(proj1 (reject_reason_valid _)),
    ?(proj2 (reject_reason_valid _)).
Lemma decode_oe_payload msg : message_wf msg -> decode_payload (message_type msg) (payload_bytes msg) = inl msg.
Proof.
  unfold message_wf, u64_ok, u32_ok, s64_ok, decode_payload. intros Hp.
  destruct msg as [m|m|m|m|m|m|m|m]; cbn [message_type payload_bytes]; decompose [and] Hp; clear Hp.
  - unfold decode_new_order. run_reads. run_casts. by destruct m.
  - unfold decode_cancel_order. run_reads. run_casts. by destruct m.
  - unfold decode_replace_order. run_reads. run_casts. by destruct m.
  - unfold decode_accepted. run_reads. run_casts. by destruct m.
  - unfold decode_rejected. run_reads. run_casts. by destruct m.
  - unfold decode_cancelled. run_reads. run_casts. by destruct m.
  - unfold decode_replaced. run_reads. run_casts. by destruct m.
  - unfold decode_trade_report. run_reads. run_casts. by destruct m.
Qed.
Lemma decode_message_bytes msg rest : message_wf msg -> decode_message (message_bytes msg ++ rest) = inl msg.
Proof.
  intros Hw. pose proof (length_oe_payload msg) as Hl. unfold decode_message, message_bytes.
  rewrite <- app_assoc, decode_oe_header by apply oe_payload_range. cbn [message_header hd_type hd_payload_size].
  rewrite Z.eqb_refl. cbn [negb]. rewrite !length_app, length_oe_header.
  destruct (_ <? _) eqn:E; [apply Z.ltb_lt in E; rewrite !Nat2Z.inj_add in E; lia|].
  rewrite drop_app_length' by (by rewrite length_oe_header). rewrite take_app_length' by lia. by apply decode_oe_payload.
Qed.

(** ** Whatever decodes is an encoding *)
Lemma oe_known_raw raw : is_known_type raw = true -> type_raw (type_cast raw) = raw.
Proof. unfold is_known_type. intros (ty & _ & E%Z.eqb_eq)%existsb_exists. subst raw. by destruct ty. Qed.
Lemma decode_oe_header_inv data h : Forall is_byte data -> decode_header data = inl h ->
  data = header_bytes h ++ drop HEADER_SIZE data.
Proof.
  intros Hd. unfold decode_header. destruct (_ <? _)%nat eqn:E; [done|]. apply Nat.ltb_ge in E.
  assert (Hlen : length (take HEADER_SIZE data) = HEADER_SIZE) by (rewrite length_take; lia).
  assert (Ht : Forall is_byte (take HEADER_SIZE data)) by (by apply Forall_take).
  intros Hh. rewrite <- (take_drop HEADER_SIZE data) at 1. revert Hh Hlen Ht.
  generalize (take HEADER_SIZE data). intros r Hh Hlen Ht. revert Hh.
  invert_reads. destruct (negb (is_known_type _)) eqn:Ek; [done|]. apply negb_false_iff in Ek. intros [= <-].
  unfold header_bytes. cbn [hd_type hd_payload_size]. rewrite oe_known_raw by done.
  autorewrite with bytes in Hlen. cbn in Hlen.
  match goal with |- context [be 2 _ ++ ?b] => destruct b; [|cbn in Hlen; unfold HEADER_SIZE in Hlen; lia] end.
  rewrite <- !app_assoc. done.
Qed.
(** Settle the validity checks of a decoder that succeeded. *)
Ltac invert_checks :=
  repeat match goal with
  | |- context [negb ?b] => destruct b eqn:?; cbn [negb]; [|discriminate]
  end.
Ltac finish_payload :=
  intros [= <-]; split; [done|]; split; [cbn; unfold u64_ok, u32_ok, s64_ok; auto 10|];
  eexists;
  cbn -[be app u64 side_raw order_type_raw time_in_force_raw reject_reason_raw
        side_cast order_type_cast time_in_force_cast reject_reason_cast];
  rewrite ?side_raw_cast, ?order_type_raw_cast, ?time_in_force_raw_cast, ?reject_reason_raw_cast by assumption;
  rewrite <- ?app_assoc; cbn [app]; reflexivity.
Lemma decode_oe_payload_inv ty r msg : Forall is_byte r -> decode_payload ty r = inl msg ->
  message_type msg = ty /\ message_wf msg /\ exists rest, r = payload_bytes msg ++ rest.
Proof.
  intros Hr. unfold decode_payload. destruct ty.
  - unfold decode_new_order. invert_reads. invert_checks. finish_payload.
  - unfold decode_cancel_order. invert_reads. invert_checks. finish_payload.
  - unfold decode_replace_order. invert_reads. invert_checks. finish_payload.
  - unfold decode_accepted. invert_reads. invert_checks. finish_payload.
  - unfold decode_rejected. invert_reads. invert_checks. finish_payload.
  - unfold decode_cancelled. invert_reads. invert_checks. finish_payload.
  - unfold decode_replaced. invert_reads. invert_checks. finish_payload.
  - unfold decode_trade_report. invert_reads. invert_checks. finish_payload.
Qed.
Lemma decode_message_inv data msg : Forall is_byte data -> decode_message data = inl msg ->
  message_wf msg /\ exists rest, data = message_bytes msg ++ rest.
Proof.
  intros Hd. unfold decode_message. destruct (decode_header data) as [h|] eqn:Eh; [|done].
  pose proof (decode_oe_header_inv data h Hd Eh) as Hdata. destruct (negb _) eqn:En; [done|].
  apply negb_false_iff, Z.eqb_eq in En. destruct (_ <? _) eqn:El; [done|]. apply Z.ltb_ge in El.
  set (p := drop HEADER_SIZE data) in *. intros Hc.
  destruct (decode_oe_payload_inv (hd_type h) (take (Z.to_nat (hd_payload_size h)) p) msg) as (Hh & Hwf & rest & Hp);
    [by apply Forall_take, Forall_drop|done..|]. split; [done|].
  assert (Hrest : rest = []).
  { apply (f_equal length) in Hp. rewrite length_app, length_take in Hp. pose proof (length_oe_payload msg) as Hl.
    rewrite Hh in Hl. destruct rest; [done|]. cbn in Hp. lia. }
  subst rest. rewrite app_nil_r in Hp. exists (drop (Z.to_nat (hd_payload_size h)) p).
  assert (message_header msg = h) as Hm by (unfold message_header; rewrite Hh, <- En; by destruct h).
  unfold message_bytes. rewrite Hm, <- Hp, <- app_assoc, take_drop. exact Hdata.
Qed.
End OrderEntry.
