(* ===== verification/BytesClaims.v ===== *)
(** * Properties of the wire formats and the journal

    Each codec is exact: the decoder accepts a buffer as a message if and only
    if the buffer starts with that message's encoding.  So encoding
    round-trips whatever follows in the stream, no two buffers of the same
    length decode to the same message, and every field arrives within its
    type. *)
From S2P Require Import Prelude Types MatchingBook BookSpec MatchingEngine EngineSpec EngineWf EngineProcess EngineRefinement EngineFacts EngineClaims ByteIO CommandCodec Journal MarketDataCodec OrderEntryCodec.

(** The journal's frame codec is exact.  A buffer decodes to a command if
    and only if it starts with the command's encoding and the command's
    fields are within their types. *)
Lemma command_codec_exact data c : Forall is_byte data ->
  decode_journal_frame data = FrameCommand c <->
  command_wf c /\ exists rest, data = encode_command c [] ++ rest.
Proof.
  intros Hd. rewrite encode_command_bytes. cbn [app]. split; [by apply decode_command_inv|].
  intros (Hc & rest & ->). by apply decode_command_bytes.
Qed.
Definition wire_cancel : ExchangeCommand :=
  CmdCancelOrder {| coc_command_sequence := 5; coc_account_id := 258; coc_client_order_id := 3; coc_instrument_id := 7 |}.

(** The market-data codec is exact, and every frame fits the receive
    buffer the header's constants size. *)
Lemma market_data_codec_exact data ev : Forall is_byte data ->
  (MarketData.decode_event data = inl ev <->
   MarketData.event_wf ev /\ exists rest, data = MarketData.encode_event ev [] ++ rest) /\
  Z.of_nat (length (MarketData.encode_event ev [])) <= MarketData.MAX_FRAME_SIZE.
Proof.
  intros Hd. rewrite MarketData.encode_event_bytes. cbn [app].
  split; [|apply MarketData.frame_fits]. split; [by apply MarketData.decode_event_inv|].
  intros (Hc & rest & ->). by apply MarketData.decode_event_bytes.
Qed.
Definition wire_trade : MarketData.Event :=
  MarketData.EvTrade {| MarketData.tr_sequence_number := 1; MarketData.tr_timestamp_ns := 2; MarketData.tr_instrument_id := 7;
    MarketData.tr_price := -1; MarketData.tr_quantity := 10; MarketData.tr_aggressor_side := Sell |}.

(** The order-entry codec is exact, for the client's requests and the
    gateway's responses alike. *)
Lemma order_entry_codec_exact data msg : Forall is_byte data ->
  OrderEntry.decode_message data = inl msg <->
  OrderEntry.message_wf msg /\ exists rest, data = OrderEntry.encode_message msg [] ++ rest.
Proof.
  intros Hd. rewrite OrderEntry.encode_message_bytes. cbn [app]. split; [by apply OrderEntry.decode_message_inv|].
  intros (Hc & rest & ->). by apply OrderEntry.decode_message_bytes.
Qed.
Definition wire_rejected : OrderEntry.Message :=
  OrderEntry.MsgRejected {| OrderEntry.rj_account_id := 1; OrderEntry.rj_client_order_id := 2;
    OrderEntry.rj_instrument_id := 3; OrderEntry.rj_reason := RejectReason.AccountMismatch |}.

(** C27: the wire formats are exact.  A buffer decodes to a journalled command,
    to a market-data event or to an order-entry message (a client's request
    or the gateway's response) if and only if it starts with that message's
    encoding and the message's fields are within their types; and every
    market-data frame fits the receive buffer the header's constants size. *)
Theorem wire_codecs_exact data : Forall is_byte data ->
  (forall c, decode_journal_frame data = FrameCommand c <-> command_wf c /\ exists rest, data = encode_command c [] ++ rest) /\
  (forall ev, MarketData.decode_event data = inl ev <->
     MarketData.event_wf ev /\ exists rest, data = MarketData.encode_event ev [] ++ rest) /\
  (forall ev, Z.of_nat (length (MarketData.encode_event ev [])) <= MarketData.MAX_FRAME_SIZE) /\
  (forall msg, OrderEntry.decode_message data = inl msg <->
     OrderEntry.message_wf msg /\ exists rest, data = OrderEntry.encode_message msg [] ++ rest).
Proof.
  intros Hd. split_and!.
  - intros c. by apply command_codec_exact.
  - intros ev. by apply market_data_codec_exact.
  - intros ev. by apply (market_data_codec_exact [] ev).
  - intros msg. by apply order_entry_codec_exact.
Qed.
Lemma wire_codecs_exact_witness :
  encode_command wire_cancel [] = [2; 0; 0; 20; 0; 0; 0; 0; 0; 0; 0; 5; 0; 0; 0; 0; 0; 0; 1; 2; 0; 0; 0; 0; 0; 0; 0; 3; 0; 0; 0; 7] /\
  decode_journal_frame (encode_command wire_cancel [] ++ [255]) = FrameCommand wire_cancel /\
  MarketData.decode_event (MarketData.encode_event wire_trade [] ++ [9; 9]) = inl wire_trade /\
  OrderEntry.decode_message (OrderEntry.encode_message wire_rejected [] ++ [1; 0; 39]) = inl wire_rejected.
Proof.
  split; [vm_compute; reflexivity|]. split_and!.
  - apply wire_codecs_exact; [vm_compute; repeat constructor; intros; discriminate|].
    split; [cbn; unfold u64_ok, u32_ok; lia|]. by exists [255].
  - apply wire_codecs_exact; [vm_compute; repeat constructor; intros; discriminate|].
    split; [vm_compute; repeat split; intros; discriminate || reflexivity|]. by exists [9; 9].
  - apply wire_codecs_exact; [vm_compute; repeat constructor; intros; discriminate|].
    split; [cbn; unfold u64_ok, u32_ok; lia|]. by exists [1; 0; 39].
Defined.

(** ** Replay without fuel

    The replay loop as a relation on the bytes left and the outcome so far,
    and that the loop decides it: a turn that does not end the loop consumes
    at least one byte, so the length of the file is fuel enough, whatever the
    file holds. *)
From Stdlib Require Import String.

Local Open Scope Z_scope.

Definition decode_error_reason (e : CommandDecodeError) : string := String.append "decode error: " (to_string e).

Section Runs.
Context {B : Type} `{BookImpl B} (stop : bool).
Implicit Types (o : CommandReplayOutcome B) (file : list byte).

(** [replays file o (Some o')]: from [o], reading [file] to its end (or to the
    first bad frame, when [stop]) ends in [o'].  [replays file o None]: a
    command of the file runs into undefined behaviour of the engine. *)
Inductive replays : list byte -> CommandReplayOutcome B -> option (CommandReplayOutcome B) -> Prop :=
| replays_end file file' o : next file = (None, file') -> replays file o (Some o)
| replays_stop file file' o e : stop = true -> next file = (Some (FrameError e), file') ->
    replays file o (Some (with_stop o true (decode_error_reason e)))
| replays_skip file file' o e r : stop = false -> next file = (Some (FrameError e), file') ->
    replays file' (with_stop o (ro_stopped_early o) (decode_error_reason e)) r -> replays file o r
| replays_register file file' o i r : next file = (Some (FrameRegister i), file') ->
    replays file' (with_registration o (rir_instrument_id i)) r -> replays file o r
| replays_command file file' o c o' r : next file = (Some (FrameCommand c), file') ->
    with_command o c = Some o' -> replays file' o' r -> replays file o r
| replays_undefined file file' o c : next file = (Some (FrameCommand c), file') ->
    with_command o c = None -> replays file o None.

(** Reading a frame consumes bytes. *)
Lemma next_shorter file f file' : next file = (Some f, file') -> (List.length file' < List.length file)%nat.
Proof.
  unfold next. destruct (_ =? 0)%nat eqn:E0; [done|]. apply Nat.eqb_neq in E0. rewrite length_take in E0.
  assert (Hd : (List.length (drop HEADER_SIZE file) < List.length file)%nat).
  { rewrite length_drop. unfold HEADER_SIZE in *. lia. }
  destruct (_ <? HEADER_SIZE)%nat; [by intros [= _ <-]|].
  destruct (decode_command_header _) as [h|]; [|by intros [= _ <-]].
  destruct (_ <? _)%nat; intros [= _ <-]; rewrite length_drop; lia.
Qed.

Lemma replay_loop_runs fuel : forall file o, (List.length file < fuel)%nat ->
  replays file o (replay_loop fuel stop file o).
Proof.
  induction fuel as [|fuel IH]; intros file o Hf; [lia|]. cbn [replay_loop].
  destruct (next file) as [[f|] file'] eqn:En; [|by eapply replays_end].
  pose proof (next_shorter _ _ _ En) as Hlt. assert (List.length file' < fuel)%nat as Hf' by lia.
  destruct f as [c|r|e].
  - destruct (with_command o c) as [o'|] eqn:Ec; [|by eapply replays_undefined].
    by eapply replays_command; [done..|]; apply IH.
  - by eapply replays_register; [done|]; apply IH.
  - destruct stop eqn:Es; [by eapply replays_stop|]. eapply replays_skip; [done..|]. by apply IH.
Qed.
Lemma replays_functional file o r1 r2 : replays file o r1 -> replays file o r2 -> r1 = r2.
Proof.
  intros Hr1. revert r2.
  induction Hr1; intros r2 Hr2; inversion Hr2; repeat match goal with
  | E1 : next ?f = _, E2 : next ?f = _ |- _ => rewrite E1 in E2; simplify_eq
  | E1 : with_command ?o ?c = _, E2 : with_command ?o ?c = _ |- _ => rewrite E1 in E2; simplify_eq
  end; eauto; congruence.
Qed.
End Runs.

(** ** Properties of the journal and its replay

    The journal a session writes, replayed on a fresh engine, gives back the
    session: the same events in the same order and the same final state; a
    crash that cuts the last record loses that record only; and the state
    hash is taken over a byte string that determines the state. *)

Local Open Scope Z_scope.

(** What a replay reproduces of a session that ended in [e] after [n] commands
    and [evs]. *)
Definition reproduces (o : CommandReplayOutcome MatchingBook) (e : MatchingEngine MatchingBook)
    (evs : list ExchangeEvent) (n : nat) : Prop :=
  ro_events o = evs /\ snapshot (ro_engine o) = snapshot e /\ is_Some (snapshot e) /\
  ro_commands_processed o = Z.of_nat n.

Lemma replayed_session universe expected cmds e evs stop fuel rest :
  Forall u32_ok universe -> Forall command_wf cmds -> history universe expected cmds e evs ->
  exists o : CommandReplayOutcome MatchingBook,
    reproduces o e evs (List.length cmds) /\ ro_stopped_early o = false /\ ro_stop_reason o = EmptyString /\
    replay_loop (List.length universe + (List.length cmds + fuel)) stop (journal_of universe cmds ++ rest) outcome_new =
    replay_loop fuel stop rest o.
Proof.
  intros Hu Hc Hh. destruct (history_refines _ _ _ _ _ Hh) as (W & R & ->). destruct Hh as (_ & Hok & _).
  destruct (replay_prefix universe cmds Hu Hc Hok stop fuel rest) as (e' & o & _ & W' & R' & Hl & He & Hev & Hn & Hs & Hr).
  exists o. split; [|split; [done|split; [done|]]].
  - split; [done|]. rewrite He, (snapshot_refines e' _ W' R'), (snapshot_refines e _ W R). by split.
  - rewrite journal_of_bytes, <- app_assoc. exact Hl.
Qed.
(** Enough fuel for the frames of a journal. *)
Lemma journal_fuel universe cmds rest : exists fuel,
  S (List.length (journal_of universe cmds ++ rest)) =
  (List.length universe + (List.length cmds + S (List.length rest + fuel)))%nat.
Proof.
  rewrite journal_of_bytes, !length_app. pose proof (length_registers universe). pose proof (length_commands cmds).
  exists (List.length (registers_bytes universe) - List.length universe + (List.length (commands_bytes cmds) - List.length cmds))%nat. lia.
Qed.

(** ** Determinism of replay *)

(** C14: replaying the journal of a session on a fresh engine processes every
    command, stops nowhere, emits exactly the events the session emitted, in
    order, and ends in a state with the same snapshot. *)
Theorem journal_replay_reproduces universe expected cmds e evs path stop :
  Forall u32_ok universe -> Forall command_wf cmds -> history universe expected cmds e evs ->
  exists o, run_command_replay path (Some (journal_of universe cmds)) stop = Some o /\
    reproduces o e evs (List.length cmds) /\ ro_stopped_early o = false /\ ro_stop_reason o = EmptyString.
Proof.
  intros Hu Hc Hh. destruct (journal_fuel universe cmds []) as [fuel Hf]. rewrite app_nil_r in Hf.
  destruct (replayed_session _ _ _ _ _ stop (S (List.length (@nil byte) + fuel)) [] Hu Hc Hh) as (o & Ho & Hs & Hr & Hl).
  exists o. rewrite app_nil_r in Hl. unfold run_command_replay. rewrite Hf, Hl. done.
Qed.
Ltac solve_demo_wf := repeat constructor; cbn; unfold u64_ok, u32_ok, s64_ok; lia.
Lemma journal_replay_reproduces_witness : exists o,
  run_command_replay EmptyString (Some (journal_of [7] demo)) true = Some o /\
  reproduces o demo_engine (demo_run demo).2 5 /\ ro_stopped_early o = false /\ ro_stop_reason o = EmptyString.
Proof.
  apply (journal_replay_reproduces [7] 0 demo demo_engine (demo_run demo).2).
  - solve_demo_wf.
  - solve_demo_wf.
  - exact demo_history.
Defined.

(** C34: a crash in the middle of writing a record loses only that record.
    When the journal ends in a proper prefix of a frame, replay still
    reproduces every complete command, then stops and reports the truncation. *)
Theorem journal_torn_tail universe expected cmds e evs path c k :
  Forall u32_ok universe -> Forall command_wf cmds -> command_wf c -> history universe expected cmds e evs ->
  (0 < k < List.length (encode_command c []))%nat ->
  exists o, run_command_replay path (Some (journal_of universe cmds ++ take k (encode_command c []))) true = Some o /\
    reproduces o e evs (List.length cmds) /\ ro_stopped_early o = true /\
    ro_stop_reason o = decode_error_reason (if (k <? HEADER_SIZE)%nat then TruncatedHeader else TruncatedPayload).
Proof.
  intros Hu Hc Hcw Hh Hk. rewrite encode_command_bytes in *. cbn [app] in *.
  set (tail := take k (command_bytes c)). destruct (journal_fuel universe cmds tail) as [fuel Hf].
  destruct (replayed_session _ _ _ _ _ true (S (List.length tail + fuel)) tail Hu Hc Hh) as (o & Ho & Hs & Hr & Hl).
  eexists. unfold run_command_replay. rewrite Hf, Hl. cbn [replay_loop]. unfold tail.
  rewrite (next_torn c k Hcw Hk). done.
Qed.
Lemma journal_torn_tail_witness : exists o,
  run_command_replay EmptyString (Some (journal_of [7] demo ++ take 20 (encode_command (demo_new 9 9 Buy 1 1 GTC) []))) true = Some o /\
  reproduces o demo_engine (demo_run demo).2 5 /\ ro_stopped_early o = true /\
  ro_stop_reason o = "decode error: TruncatedPayload"%string.
Proof.
  apply (journal_torn_tail [7] 0 demo demo_engine (demo_run demo).2).
  - solve_demo_wf.
  - solve_demo_wf.
  - solve_demo_wf.
  - exact demo_history.
  - vm_compute. lia.
Defined.

(** The replay loop terminates on every file, well formed or not: it
    computes the relation [replays], which has no fuel, and that relation
    gives one result per file. *)
Lemma replay_terminates path stop file r :
  run_command_replay (B := MatchingBook) path (Some file) stop = r <-> replays stop file outcome_new r.
Proof.
  unfold run_command_replay. pose proof (replay_loop_runs stop (S (List.length file)) file (outcome_new (B := MatchingBook)) ltac:(lia)) as Hr.
  split; [by intros <-|]. intros Hr'. by apply (replays_functional stop _ _ _ _ Hr Hr').
Qed.

(** Nothing is lost before the hash: two snapshots that the state hash
    feeds to FNV-1a as the same bytes are the same snapshot. *)
Lemma hashed_bytes_determine_state s s' :
  snapshot_wf s -> snapshot_wf s' -> snapshot_buffer s = snapshot_buffer s' -> s = s'.
Proof. apply snapshot_buffer_inj. Qed.
Definition one_order : EngineStateSnapshot :=
  {| ess_instruments := [{| ibs_instrument_id := 7;
       ibs_bids := [{| ero_exchange_order_id := 1; ero_client_order_id := 1; ero_account_id := 1; ero_instrument_id := 7;
                       ero_side := Buy; ero_price := 100; ero_original_quantity := 5; ero_remaining_quantity := 5;
                       ero_time_in_force := GTC; ero_order_sequence := 1 |}];
       ibs_asks := [] |}] |}.
Definition one_order_engine : MatchingEngine MatchingBook := (demo_run [demo_new 1 1 Buy 100 5 GTC]).1.
Lemma one_order_wf : snapshot_wf one_order.
Proof. repeat constructor; cbn; unfold u64_ok, u32_ok, s64_ok; lia. Qed.
Lemma hashed_bytes_determine_state_witness : snapshot one_order_engine = Some one_order /\
  one_order = default one_order (snapshot one_order_engine).
Proof.
  split; [vm_compute; reflexivity|].
  apply hashed_bytes_determine_state; [exact one_order_wf| |vm_compute; reflexivity].
  replace (snapshot one_order_engine) with (Some one_order) by (vm_compute; reflexivity). exact one_order_wf.
Defined.
