(* ===== verification/TraderBook.v ===== *)
(** * The trader's order book: include/book/price_level.hpp,
      include/book/order_book.hpp, src/book/order_book.cpp

    One instrument's book rebuilt from a feed.  A [std::list] is the list of
    its nodes, each with the address its iterators name; an iterator is an
    address, so erasing through a dangling one finds no node and the
    operation is undefined ([None]).  A [std::map] of levels is a [gmap] read
    in price order; [ob_next_node] supplies the addresses of new nodes. *)
From S2P Require Import Prelude Types PriceQueues.

Module OrderBook.
Inductive BookError := UnknownOrderId | DuplicateOrderId | InvalidPrice | InvalidQuantity.

Record PriceLevelView := { plv_price : Price; plv_aggregate_quantity : Quantity; plv_order_count : Z }.
Record OrderView := { ov_order_id : OrderId; ov_price : Price; ov_quantity : Quantity }.

(** ** PriceLevel *)
Record RestingOrder := { ro_id : OrderId; ro_quantity : Quantity }.
Abbreviation Iterator := Z (only parsing).
Record PriceLevel := {
  pl_price : Price;
  pl_orders : list (Iterator * RestingOrder);
  pl_aggregate_qty : Quantity;
}.
Definition PriceLevel_new (price : Price) : PriceLevel :=
  {| pl_price := price; pl_orders := []; pl_aggregate_qty := 0 |}.
(** [add] in the node at [it]. *)
Definition level_add (l : PriceLevel) (it : Iterator) (id : OrderId) (qty : Quantity) : PriceLevel :=
  {| pl_price := pl_price l; pl_orders := pl_orders l ++ [(it, {| ro_id := id; ro_quantity := qty |})];
     pl_aggregate_qty := u64 (pl_aggregate_qty l + qty) |}.
Definition deref (l : PriceLevel) (it : Iterator) : option RestingOrder :=
  snd <$> List.find (fun n => n.1 =? it) (pl_orders l).
Definition level_remove (l : PriceLevel) (it : Iterator) : option PriceLevel :=
  let* o := deref l it in
  Some {| pl_price := pl_price l; pl_orders := filter (fun n => n.1 <> it) (pl_orders l);
          pl_aggregate_qty := u64 (pl_aggregate_qty l - ro_quantity o) |}.
Definition level_empty (l : PriceLevel) : bool := match pl_orders l with [] => true | _ => false end.
Definition order_count (l : PriceLevel) : Z := Z.of_nat (length (pl_orders l)).

(** ** OrderBook *)
Record OrderLocation := { loc_side : Side; loc_price : Price; loc_it : Iterator }.
Record OrderBook := {
  ob_bids : gmap Price PriceLevel;
  ob_asks : gmap Price PriceLevel;
  ob_order_index : gmap OrderId OrderLocation;
  ob_next_node : Iterator;
}.
Definition OrderBook_new : OrderBook :=
  {| ob_bids := ∅; ob_asks := ∅; ob_order_index := ∅; ob_next_node := 0 |}.
Definition levels (b : OrderBook) (s : Side) : gmap Price PriceLevel :=
  match s with Buy => ob_bids b | Sell => ob_asks b end.
Definition set_levels (b : OrderBook) (s : Side) (m : gmap Price PriceLevel) : OrderBook :=
  match s with
  | Buy => {| ob_bids := m; ob_asks := ob_asks b; ob_order_index := ob_order_index b; ob_next_node := ob_next_node b |}
  | Sell => {| ob_bids := ob_bids b; ob_asks := m; ob_order_index := ob_order_index b; ob_next_node := ob_next_node b |}
  end.
Definition set_index (b : OrderBook) (m : gmap OrderId OrderLocation) (next : Iterator) : OrderBook :=
  {| ob_bids := ob_bids b; ob_asks := ob_asks b; ob_order_index := m; ob_next_node := next |}.
Definition has_order (b : OrderBook) (id : OrderId) : bool := bool_decide (is_Some (ob_order_index b !! id)).

Definition insert_at (b : OrderBook) (side : Side) (id : OrderId) (price : Price) (qty : Quantity) : OrderBook :=
  let level := default (PriceLevel_new price) (levels b side !! price) in
  let it := ob_next_node b in
  let b := set_levels b side (<[price := level_add level it id qty]> (levels b side)) in
  set_index b (<[id := {| loc_side := side; loc_price := price; loc_it := it |}]> (ob_order_index b)) (it + 1).
Definition erase_at (b : OrderBook) (loc : OrderLocation) : option OrderBook :=
  let m := levels b (loc_side loc) in
  let* level := m !! loc_price loc in
  let* level := level_remove level (loc_it loc) in
  Some (set_levels b (loc_side loc)
          (if level_empty level then delete (loc_price loc) m else <[loc_price loc := level]> m)).

Definition add_order (b : OrderBook) (id : OrderId) (price : Price) (qty : Quantity) (side : Side)
    : OrderBook * option BookError :=
  if price <=? 0 then (b, Some InvalidPrice)
  else if qty =? 0 then (b, Some InvalidQuantity)
  else if has_order b id then (b, Some DuplicateOrderId)
  else (insert_at b side id price qty, None).
Definition cancel_order (b : OrderBook) (id : OrderId) : option (OrderBook * option BookError) :=
  match ob_order_index b !! id with
  | None => Some (b, Some UnknownOrderId)
  | Some loc =>
      let* b := erase_at b loc in
      Some (set_index b (delete id (ob_order_index b)) (ob_next_node b), None)
  end.
Definition modify_order (b : OrderBook) (id : OrderId) (new_price : Price) (new_qty : Quantity)
    : option (OrderBook * option BookError) :=
  if new_price <=? 0 then Some (b, Some InvalidPrice)
  else if new_qty =? 0 then Some (b, Some InvalidQuantity)
  else
    match ob_order_index b !! id with
    | None => Some (b, Some UnknownOrderId)
    | Some loc =>
        let side := loc_side loc in
        let* b := erase_at b loc in
        let b := set_index b (delete id (ob_order_index b)) (ob_next_node b) in
        Some (insert_at b side id new_price new_qty, None)
    end.
Definition clear (b : OrderBook) : OrderBook :=
  {| ob_bids := ∅; ob_asks := ∅; ob_order_index := ∅; ob_next_node := ob_next_node b |}.

(** The keys of a side in its map's order. *)
Definition prices (b : OrderBook) (s : Side) : list Price := sorted_keys s (pl_orders <$> levels b s).
Definition level_view (p : Price) (l : PriceLevel) : PriceLevelView :=
  {| plv_price := p; plv_aggregate_quantity := pl_aggregate_qty l; plv_order_count := order_count l |}.
Definition level_views (b : OrderBook) (s : Side) (ps : list Price) : list PriceLevelView :=
  omap (fun p => level_view p <$> levels b s !! p) ps.
Definition best (b : OrderBook) (s : Side) : option PriceLevelView := head (level_views b s (prices b s)).
Definition best_bid (b : OrderBook) : option PriceLevelView := best b Buy.
Definition best_ask (b : OrderBook) : option PriceLevelView := best b Sell.
Definition top (b : OrderBook) (s : Side) (n : nat) : list PriceLevelView := take n (level_views b s (prices b s)).
Definition top_bids (b : OrderBook) (n : nat) : list PriceLevelView := top b Buy n.
Definition top_asks (b : OrderBook) (n : nat) : list PriceLevelView := top b Sell n.
Definition order_views (p : Price) (l : list (Iterator * RestingOrder)) : list OrderView :=
  (fun n => {| ov_order_id := ro_id n.2; ov_price := p; ov_quantity := ro_quantity n.2 |}) <$> l.
Definition all_orders (b : OrderBook) (s : Side) : list OrderView :=
  mjoin ((fun p => order_views p (default [] (pl_orders <$> levels b s !! p))) <$> prices b s).
Definition all_bids (b : OrderBook) : list OrderView := all_orders b Buy.
Definition all_asks (b : OrderBook) : list OrderView := all_orders b Sell.
End OrderBook.
