(* ===== verification/TraderBookSpec.v ===== *)
(** * The trader's book as two priority lists

    [spec] is the book a reader of the class comment would write down: a list
    of orders per side in price-time priority.  [represents] ties the levels,
    the nodes and the index of the code to it. *)
From S2P Require Import Prelude Types PriceQueues MapSums TraderBook.

Import OrderBook.

Record SpecOrders := { so_bids : list OrderView; so_asks : list OrderView }.
Definition so_side (m : SpecOrders) (s : Side) : list OrderView := match s with Buy => so_bids m | Sell => so_asks m end.
Definition so_set (m : SpecOrders) (s : Side) (l : list OrderView) : SpecOrders :=
  match s with Buy => {| so_bids := l; so_asks := so_asks m |} | Sell => {| so_bids := so_bids m; so_asks := l |} end.
Definition so_empty : SpecOrders := {| so_bids := []; so_asks := [] |}.

(** Behind every order whose price has at least its priority. *)
Fixpoint ov_insert (s : Side) (x : OrderView) (l : list OrderView) : list OrderView :=
  match l with
  | [] => [x]
  | y :: l' => if better_eq s (ov_price y) (ov_price x) then y :: ov_insert s x l' else x :: l
  end.
Definition ov_drop (id : OrderId) (l : list OrderView) : list OrderView := filter (fun x => ov_order_id x <> id) l.
Definition so_drop (m : SpecOrders) (id : OrderId) : SpecOrders :=
  {| so_bids := ov_drop id (so_bids m); so_asks := ov_drop id (so_asks m) |}.
Definition so_insert (m : SpecOrders) (s : Side) (x : OrderView) : SpecOrders := so_set m s (ov_insert s x (so_side m s)).
Definition so_find (m : SpecOrders) (id : OrderId) : option Side :=
  if bool_decide (id ∈ ov_order_id <$> so_bids m) then Some Buy
  else if bool_decide (id ∈ ov_order_id <$> so_asks m) then Some Sell else None.

Definition spec_add (m : SpecOrders) (id : OrderId) (price : Price) (qty : Quantity) (s : Side)
    : SpecOrders * option BookError :=
  if price <=? 0 then (m, Some InvalidPrice)
  else if qty =? 0 then (m, Some InvalidQuantity)
  else match so_find m id with
       | Some _ => (m, Some DuplicateOrderId)
       | None => (so_insert m s {| ov_order_id := id; ov_price := price; ov_quantity := qty |}, None)
       end.
Definition spec_cancel_order (m : SpecOrders) (id : OrderId) : SpecOrders * option BookError :=
  match so_find m id with None => (m, Some UnknownOrderId) | Some _ => (so_drop m id, None) end.
Definition spec_modify (m : SpecOrders) (id : OrderId) (price : Price) (qty : Quantity)
    : SpecOrders * option BookError :=
  if price <=? 0 then (m, Some InvalidPrice)
  else if qty =? 0 then (m, Some InvalidQuantity)
  else match so_find m id with
       | None => (m, Some UnknownOrderId)
       | Some s => (so_insert (so_drop m id) s {| ov_order_id := id; ov_price := price; ov_quantity := qty |}, None)
       end.

(** ** Lists *)
Lemma ov_insert_split s x l1 l2 :
  (forall y, y ∈ l1 -> better_eq s (ov_price y) (ov_price x) = true) ->
  (forall y, y ∈ l2 -> better s (ov_price x) (ov_price y) = true) ->
  ov_insert s x (l1 ++ l2) = l1 ++ x :: l2.
Proof.
  intros H1 H2. induction l1 as [|y l1 IH]; cbn.
  - destruct l2 as [|y l2]; [done|]. cbn. pose proof (H2 y ltac:(set_solver)) as Hy.
    destruct (better_eq s (ov_price y) (ov_price x)) eqn:E; [|done]. destruct s; cbn in *; lia.
  - rewrite H1 by set_solver. rewrite IH by set_solver. done.
Qed.
Lemma ov_insert_Permutation s x l : ov_insert s x l ≡ₚ x :: l.
Proof.
  induction l as [|y l IH]; cbn; [done|]. destruct (better_eq _ _ _); [|done]. rewrite IH. apply Permutation_swap.
Qed.
Lemma ov_drop_notin id l : id ∉ ov_order_id <$> l -> ov_drop id l = l.
Proof.
  intros Hn. apply filter_all. intros x Hx He. apply Hn. rewrite <- He. by apply list_elem_of_fmap_2.
Qed.
Lemma ov_drop_app id l1 l2 : ov_drop id (l1 ++ l2) = ov_drop id l1 ++ ov_drop id l2.
Proof. apply filter_app. Qed.
Lemma elem_of_ov_drop id l x : x ∈ ov_drop id l <-> x ∈ l /\ ov_order_id x <> id.
Proof. unfold ov_drop. rewrite list_elem_of_filter. tauto. Qed.

(** ** Representation *)
Definition qty_total (l : list (Z * RestingOrder)) : Z := foldr (fun n z => ro_quantity n.2 + z) 0 l.

Record wf (b : OrderBook) : Prop := {
  wf_level : forall s p l, levels b s !! p = Some l ->
    pl_price l = p /\ pl_orders l <> [] /\ pl_aggregate_qty l = u64 (qty_total (pl_orders l)) /\
    NoDup (pl_orders l).*1 /\ Forall (fun n => n.1 < ob_next_node b) (pl_orders l);
  wf_index : forall id loc, ob_order_index b !! id = Some loc <->
    exists l q, levels b (loc_side loc) !! loc_price loc = Some l /\
      (loc_it loc, {| ro_id := id; ro_quantity := q |}) ∈ pl_orders l;
}.
Definition represents (b : OrderBook) (m : SpecOrders) : Prop :=
  wf b /\ forall s, all_orders b s = so_side m s.

Lemma levels_set b s m s' : levels (set_levels b s m) s' = if decide (s' = s) then m else levels b s'.
Proof. by destruct s, s'. Qed.
Lemma levels_set_index b m n s : levels (set_index b m n) s = levels b s.
Proof. by destruct s. Qed.

(** A side's orders as the queue list of its views. *)
Definition views (b : OrderBook) (s : Side) : gmap Price (list OrderView) :=
  map_imap (fun p l => Some (order_views p (pl_orders l))) (levels b s).
Lemma lookup_views b s p : views b s !! p = (fun l => order_views p (pl_orders l)) <$> levels b s !! p.
Proof. unfold views. rewrite map_lookup_imap. by destruct (levels b s !! p). Qed.
Lemma views_keys b s : prices b s = sorted_keys s (views b s).
Proof.
  unfold prices. apply sorted_keys_unique; [apply sorted_keys_sorted|apply sorted_keys_NoDup|].
  intros p. rewrite elem_of_sorted_keys, lookup_views, lookup_fmap, !fmap_is_Some. done.
Qed.
Lemma all_orders_views b s : all_orders b s = queue_list s (views b s).
Proof.
  unfold all_orders, queue_list, flatten_keys. rewrite views_keys. f_equal. apply list_fmap_ext. intros i p _.
  unfold queue_at. rewrite lookup_views. by destruct (levels b s !! p).
Qed.
Lemma elem_of_all_orders b s x : x ∈ all_orders b s <-> exists l n,
  levels b s !! ov_price x = Some l /\ (n, {| ro_id := ov_order_id x; ro_quantity := ov_quantity x |}) ∈ pl_orders l.
Proof.
  rewrite all_orders_views, elem_of_queue_list. setoid_rewrite lookup_views. split.
  - intros (p & q & (l & Hl & ->)%fmap_Some & Hx). unfold order_views in Hx.
    apply list_elem_of_fmap in Hx as ([n [id qty]] & -> & Hn). cbn. eauto.
  - intros (l & n & Hl & Hn). exists (ov_price x), (order_views (ov_price x) (pl_orders l)).
    rewrite Hl. split; [done|]. unfold order_views. apply list_elem_of_fmap. eexists. split; [|exact Hn]. by destruct x.
Qed.
Lemma all_orders_ext b b' s : levels b' s = levels b s -> all_orders b' s = all_orders b s.
Proof. intros H. rewrite !all_orders_views. unfold views. by rewrite H. Qed.

(** ** Identity of orders *)
Section Wf.
Context (b : OrderBook) (W : wf b).

Lemma node_unique s p l n o o' : levels b s !! p = Some l -> (n, o) ∈ pl_orders l -> (n, o') ∈ pl_orders l -> o = o'.
Proof.
  intros Hl H1 H2. destruct (wf_level b W s p l Hl) as (_ & _ & _ & Hnd & _).
  apply list_elem_of_lookup in H1 as [i Hi], H2 as [j Hj].
  assert (i = j) as ->; [|congruence].
  apply (NoDup_lookup _ i j n Hnd); by rewrite list_lookup_fmap, ?Hi, ?Hj.
Qed.
Lemma id_indexed s p l n id q : levels b s !! p = Some l -> (n, {| ro_id := id; ro_quantity := q |}) ∈ pl_orders l ->
  ob_order_index b !! id = Some {| loc_side := s; loc_price := p; loc_it := n |}.
Proof. intros Hl Hn. apply (wf_index b W). eauto. Qed.
Lemma elem_of_ids s id : id ∈ ov_order_id <$> all_orders b s <->
  exists loc, ob_order_index b !! id = Some loc /\ loc_side loc = s.
Proof.
  rewrite list_elem_of_fmap. split.
  - intros (x & -> & (l & n & Hl & Hn)%elem_of_all_orders). eexists. split; [by eapply id_indexed|done].
  - intros ([s' p n] & Hi & <-). apply (wf_index b W) in Hi as (l & q & Hl & Hn). cbn in *.
    exists {| ov_order_id := id; ov_price := p; ov_quantity := q |}. split; [done|]. apply elem_of_all_orders. eauto.
Qed.
Lemma so_find_index m id : (forall s, all_orders b s = so_side m s) ->
  so_find m id = loc_side <$> ob_order_index b !! id.
Proof.
  intros Hm. unfold so_find. rewrite <- (Hm Buy : _ = so_bids m), <- (Hm Sell : _ = so_asks m).
  destruct (ob_order_index b !! id) as [[s p n]|] eqn:E; cbn.
  - destruct s; [rewrite bool_decide_true; [done|]|rewrite bool_decide_false, bool_decide_true; [done|..]];
      rewrite ?elem_of_ids, ?E; [eauto|eauto|naive_solver].
  - rewrite !bool_decide_false; rewrite ?elem_of_ids, ?E; naive_solver.
Qed.
Lemma qty_total_app l1 l2 : qty_total (l1 ++ l2) = qty_total l1 + qty_total l2.
Proof. unfold qty_total. induction l1 as [|n l1 IH]; cbn; [done|]. rewrite IH. lia. Qed.

(** ** Inserting *)
Section Insert.
Context (s : Side) (id : OrderId) (p : Price) (q : Quantity) (Hid : ob_order_index b !! id = None).
Let x : OrderView := {| ov_order_id := id; ov_price := p; ov_quantity := q |}.
Let l0 := default (PriceLevel_new p) (levels b s !! p).
Let l1 := level_add l0 (ob_next_node b) id q.

Lemma insert_levels s' p' : levels (insert_at b s id p q) s' !! p' =
  if decide (s' = s /\ p' = p) then Some l1 else levels b s' !! p'.
Proof.
  unfold insert_at. rewrite levels_set_index, levels_set. fold l0 l1. destruct (decide (s' = s)) as [->|]; cbn.
  - destruct (decide (p' = p)) as [->|]; [by rewrite lookup_insert_eq, decide_True|].
    by rewrite lookup_insert_ne, decide_False by naive_solver.
  - by rewrite decide_False by naive_solver.
Qed.
Lemma level0 : pl_price l0 = p /\ pl_aggregate_qty l0 = u64 (qty_total (pl_orders l0)) /\
  NoDup (pl_orders l0).*1 /\ Forall (fun n => n.1 < ob_next_node b) (pl_orders l0).
Proof.
  unfold l0. destruct (levels b s !! p) as [l|] eqn:E; cbn; [|by repeat split; constructor].
  destruct (wf_level b W _ _ _ E) as (H1 & _ & H3 & H4 & H5). done.
Qed.
Lemma level1 : pl_price l1 = p /\ pl_orders l1 <> [] /\ pl_aggregate_qty l1 = u64 (qty_total (pl_orders l1)) /\
  NoDup (pl_orders l1).*1 /\ Forall (fun n => n.1 < ob_next_node b + 1) (pl_orders l1).
Proof.
  destruct level0 as (H1 & H2 & H3 & H4). unfold l1, level_add. cbn [pl_price pl_orders pl_aggregate_qty].
  split; [done|]. split; [by destruct (pl_orders l0)|]. split; [|split].
  - rewrite H2, qty_total_app, u64_add_idemp_l. cbn. f_equal. lia.
  - rewrite fmap_app. apply NoDup_app. split; [done|]. split; [|apply NoDup_singleton].
    intros n (e & -> & He)%list_elem_of_fmap Hn%list_elem_of_singleton. rewrite Forall_forall in H4.
    specialize (H4 e He). cbn in Hn. lia.
  - apply Forall_app. split; [|constructor; [cbn; lia|constructor]].
    eapply Forall_impl; [exact H4|]. cbn. lia.
Qed.
Lemma orders0 n o : (n, o) ∈ pl_orders l0 <-> exists l, levels b s !! p = Some l /\ (n, o) ∈ pl_orders l.
Proof. unfold l0. destruct (levels b s !! p) as [l|] eqn:E; cbn; split; [naive_solver|naive_solver|set_solver|naive_solver]. Qed.

Lemma insert_wf : wf (insert_at b s id p q).
Proof.
  split.
  - intros s' p' l. rewrite insert_levels. case_decide as Hd.
    + intros [= <-]. destruct Hd as [-> ->]. exact level1.
    + intros Hl. destruct (wf_level b W _ _ _ Hl) as (H1 & H2 & H3 & H4 & H5). repeat (split; [done|]).
      eapply Forall_impl; [exact H5|]. cbn. lia.
  - intros id' [s' p' n]. cbn [insert_at set_index ob_order_index loc_side loc_price loc_it].
    rewrite insert_levels. replace (ob_order_index (set_levels b s _)) with (ob_order_index b) by (by destruct s).
    destruct (decide (id' = id)) as [->|Hne].
    + rewrite lookup_insert_eq. split.
      * intros [= <- <- <-]. rewrite decide_True by done. exists l1, q. split; [done|]. unfold l1, level_add. cbn. set_solver.
      * intros (l & q' & Hl & Hn). case_decide as Hd.
        -- destruct Hd as [-> ->]. injection Hl as <-. unfold l1, level_add in Hn. cbn in Hn.
           apply elem_of_app in Hn as [(l & Hl & Hn)%orders0|Hn%list_elem_of_singleton]; [|congruence].
           by rewrite (id_indexed _ _ _ _ _ _ Hl Hn) in Hid.
        -- by rewrite (id_indexed _ _ _ _ _ _ Hl Hn) in Hid.
    + rewrite lookup_insert_ne, (wf_index b W) by done. cbn [loc_side loc_price loc_it]. case_decide as Hd; [|done].
      destruct Hd as [-> ->]. unfold l1, level_add. split.
      * intros (l & q' & Hl & Hn). eexists _, q'. split; [done|]. cbn. apply elem_of_app. left. apply orders0. eauto.
      * intros (l & q' & [= <-] & Hn). cbn in Hn.
        apply elem_of_app in Hn as [(l & Hl & Hn)%orders0|Hn%list_elem_of_singleton]; [eauto|congruence].
Qed.
Lemma insert_orders s' : all_orders (insert_at b s id p q) s' =
  if decide (s' = s) then ov_insert s x (all_orders b s) else all_orders b s'.
Proof.
  case_decide as Hs.
  - subst s'. rewrite !all_orders_views. destruct (queue_list_block s (views b s) p) as (k1 & k2 & Hb & H1 & H2).
    rewrite (Hb (views b s)) by done. rewrite (Hb (views (insert_at b s id p q) s)).
    2: { intros p' Hp. by rewrite !lookup_views, insert_levels, decide_False by naive_solver. }
    assert (queue_at (views (insert_at b s id p q) s) p = queue_at (views b s) p ++ [x]) as ->.
    { unfold queue_at. rewrite !lookup_views, insert_levels, decide_True by done. cbn. unfold l1, level_add. cbn.
      unfold order_views. rewrite fmap_app. cbn. unfold l0. by destruct (levels b s !! p). }
    assert (Hprice : forall p' qu y, views b s !! p' = Some qu -> y ∈ qu -> ov_price y = p').
    { intros p' qu y Hl Hy. rewrite lookup_views in Hl. apply fmap_Some in Hl as (l & _ & ->). unfold order_views in Hy. by apply list_elem_of_fmap in Hy as (? & -> & _). }
    rewrite <- app_assoc. cbn [app]. rewrite app_assoc. rewrite (app_assoc k1). symmetry. apply ov_insert_split.
    + intros y [Hy|Hy]%elem_of_app.
      * destruct (H1 y Hy) as (p' & qu & Hq & Hin & Hlt). rewrite (Hprice _ _ _ Hq Hin). by apply better_better_eq in Hlt as [? _].
      * unfold queue_at in Hy. destruct (views b s !! p) as [qu|] eqn:Eq; [|set_solver]. rewrite (Hprice _ _ _ Eq Hy). apply better_eq_refl.
    + intros y Hy. destruct (H2 y Hy) as (p' & qu & Hq & Hin & Hlt). by rewrite (Hprice _ _ _ Hq Hin).
  - apply all_orders_ext. apply map_eq. intros p'. by rewrite insert_levels, decide_False by naive_solver.
Qed.
End Insert.

(** ** Erasing *)
Section Erase.
Context (id : OrderId) (loc : OrderLocation) (Hid : ob_order_index b !! id = Some loc).
Let s := loc_side loc.
Let p := loc_price loc.
Let n := loc_it loc.

Lemma erase_level : exists l q, levels b s !! p = Some l /\ (n, {| ro_id := id; ro_quantity := q |}) ∈ pl_orders l /\
  deref l n = Some {| ro_id := id; ro_quantity := q |}.
Proof.
  apply (wf_index b W) in Hid as (l & q & Hl & Hn). exists l, q. split; [done|]. split; [done|].
  unfold deref. destruct (List.find _ _) as [[n' o]|] eqn:E.
  - apply List.find_some in E as [Hin Hn'%Z.eqb_eq]. cbn in *. subst n'. f_equal.
    symmetry. eapply (node_unique _ _ _ _ _ _ Hl Hn). apply list_elem_of_In. fold n in Hin. exact Hin.
  - exfalso. apply list_elem_of_In in Hn. pose proof (List.find_none _ _ E _ Hn) as Hf. cbn in Hf. lia.
Qed.
Lemma qty_total_filter l : NoDup l.*1 -> forall o, (n, o) ∈ l ->
  qty_total (filter (fun e => e.1 <> n) l) = qty_total l - ro_quantity o.
Proof.
  induction l as [|[n' o'] l IH]; intros Hnd o Hin; [set_solver|]. rewrite fmap_cons in Hnd.
  apply NoDup_cons in Hnd as [Hnin Hnd]. unfold qty_total in *. cbn [fst] in Hnin. apply elem_of_cons in Hin as [Heq|Hin].
  - injection Heq as <- <-. rewrite filter_cons_False by (cbn; tauto). cbn [foldr snd].
    rewrite filter_all; [lia|]. intros e He Hn. apply Hnin. rewrite <- Hn. by apply list_elem_of_fmap_2.
  - rewrite filter_cons_True.
    + cbn [foldr snd]. rewrite (IH Hnd o Hin). lia.
    + cbn. intros ->. apply Hnin. apply list_elem_of_fmap. by exists (n, o).
Qed.

Section Erased.
Context (l : PriceLevel) (q : Quantity) (Hl : levels b s !! p = Some l)
  (Hn : (n, {| ro_id := id; ro_quantity := q |}) ∈ pl_orders l).
Definition kept : list (Iterator * RestingOrder) := filter (fun e => e.1 <> n) (pl_orders l).
Definition kept_level : PriceLevel := {| pl_price := pl_price l; pl_orders := kept; pl_aggregate_qty := u64 (pl_aggregate_qty l - q) |}.
Definition unlinked : OrderBook := set_levels b s (if level_empty kept_level then delete p (levels b s) else <[p := kept_level]> (levels b s)).
Definition erased : OrderBook := set_index unlinked (delete id (ob_order_index b)) (ob_next_node b).

Lemma same_node n' o : (n', o) ∈ pl_orders l -> n' = n <-> ro_id o = id.
Proof.
  intros Hin. destruct o as [id' q']. split.
  - intros ->. by injection (node_unique _ _ _ _ _ _ Hl Hin Hn).
  - cbn. intros ->. pose proof (id_indexed _ _ _ _ _ _ Hl Hin) as Hi. rewrite Hid in Hi. injection Hi as E.
    unfold n. by rewrite E.
Qed.
Lemma erased_levels s' p' : levels erased s' !! p' =
  if decide (s' = s /\ p' = p) then (if level_empty kept_level then None else Some kept_level) else levels b s' !! p'.
Proof.
  unfold erased. rewrite levels_set_index. unfold unlinked. rewrite levels_set. destruct (decide (s' = s)) as [->|]; cbn.
  - destruct (decide (p' = p)) as [->|].
    + rewrite decide_True by done. destruct (level_empty kept_level); [apply lookup_delete_eq|apply lookup_insert_eq].
    + rewrite decide_False by naive_solver. destruct (level_empty kept_level); [by apply lookup_delete_ne|by apply lookup_insert_ne].
  - by rewrite decide_False by naive_solver.
Qed.
Lemma kept_nonempty : pl_orders kept_level <> [] -> level_empty kept_level = false.
Proof. unfold level_empty. by destruct (pl_orders kept_level). Qed.
Lemma kept_lookup s' p' n' o : (exists l0, levels erased s' !! p' = Some l0 /\ (n', o) ∈ pl_orders l0) <->
  (exists l0, levels b s' !! p' = Some l0 /\ (n', o) ∈ pl_orders l0) /\ ~ (s' = s /\ p' = p /\ n' = n).
Proof.
  rewrite erased_levels. case_decide as Hd.
  - destruct Hd as [-> ->].
    assert (Hk : (n', o) ∈ pl_orders kept_level <-> (n', o) ∈ pl_orders l /\ n' <> n).
    { cbn. unfold kept. rewrite list_elem_of_filter. cbn. tauto. }
    split.
    + destruct (level_empty kept_level); [naive_solver|]. intros (lx & [= <-] & Hin). apply Hk in Hin as [Hin Hne].
      split; [eauto|tauto].
    + intros [(lx & Hlx & Hin) Hne]. simplify_eq. assert (Hin' : (n', o) ∈ pl_orders kept_level) by (apply Hk; tauto).
      rewrite kept_nonempty by (intros E; rewrite E in Hin'; set_solver). eauto.
  - split; [intros H; split; [exact H|tauto]|tauto].
Qed.
Lemma erased_wf : wf erased.
Proof.
  destruct (wf_level b W _ _ _ Hl) as (P1 & P2 & P3 & P4 & P5). split.
  - intros s' p' l0. rewrite erased_levels. case_decide as Hd; [destruct Hd as [-> ->]|by apply (wf_level b W)].
    destruct (level_empty kept_level) eqn:Ee; [done|]. intros [= <-].
    split; [done|]. split; [unfold level_empty in Ee; by intros Hk0; rewrite Hk0 in Ee|]. split; [|split].
    + cbn [kept_level pl_aggregate_qty pl_orders]. rewrite P3. unfold kept. rewrite (qty_total_filter _ P4 _ Hn). by autorewrite with mdh.
    + eapply sublist_NoDup; [exact P4|]. apply fmap_sublist, sublist_filter.
    + by apply Forall_filter_keep.
  - intros id' loc'. cbn [erased set_index ob_order_index].
    assert (Hex : (exists l0 q0, levels erased (loc_side loc') !! loc_price loc' = Some l0 /\
        (loc_it loc', {| ro_id := id'; ro_quantity := q0 |}) ∈ pl_orders l0) <->
      exists q0, (exists l0, levels b (loc_side loc') !! loc_price loc' = Some l0 /\
        (loc_it loc', {| ro_id := id'; ro_quantity := q0 |}) ∈ pl_orders l0) /\
        ~ (loc_side loc' = s /\ loc_price loc' = p /\ loc_it loc' = n)).
    { setoid_rewrite <- kept_lookup. naive_solver. }
    rewrite Hex, lookup_delete_Some, (wf_index b W). split.
    + intros [Hne (l0 & q0 & Hl0 & Hin)]. exists q0. split; [eauto|]. intros (E1 & E2 & E3). rewrite E1, E2 in Hl0.
      simplify_eq. rewrite E3 in Hin. apply Hne. by injection (node_unique _ _ _ _ _ _ Hl Hin Hn).
    + intros (q0 & (l0 & Hl0 & Hin) & Hne). split; [|eauto]. intros <-. apply Hne.
      pose proof (id_indexed _ _ _ _ _ _ Hl0 Hin) as Hi. rewrite Hid in Hi. injection Hi as E. unfold s, p, n. by rewrite E.
Qed.
Lemma erased_orders s' : all_orders erased s' = ov_drop id (all_orders b s').
Proof.
  destruct (decide (s' = s)) as [->|Hs].
  - rewrite !all_orders_views. destruct (queue_list_block s (views b s) p) as (k1 & k2 & Hb & H1 & H2).
    rewrite (Hb (views b s)) by done. rewrite (Hb (views erased s)).
    2: { intros p' Hp. by rewrite !lookup_views, erased_levels, decide_False by naive_solver. }
    assert (Hout : forall k, (forall x, x ∈ k -> exists p' qu, views b s !! p' = Some qu /\ x ∈ qu /\ p' <> p) -> ov_drop id k = k).
    { intros k Hk. apply ov_drop_notin. intros (x & Hx & Hin)%list_elem_of_fmap.
      destruct (Hk x Hin) as (p' & qu & Hq & Hxq & Hne). rewrite lookup_views in Hq. apply fmap_Some in Hq as (l0 & Hl0 & ->).
      apply list_elem_of_fmap in Hxq as ([n' [id' q']] & -> & Hin'). cbn in Hx. subst id'.
      pose proof (id_indexed _ _ _ _ _ _ Hl0 Hin') as Hi. rewrite Hid in Hi. injection Hi as E. apply Hne. unfold p. by rewrite E. }
    rewrite !ov_drop_app, (Hout k1), (Hout k2).
    + f_equal. f_equal. unfold queue_at. rewrite !lookup_views, erased_levels, decide_True, Hl by done. cbn.
      transitivity (order_views p kept).
      { destruct (level_empty kept_level) eqn:Ee; [|done]. unfold level_empty in Ee. cbn in Ee. destruct kept; [done|discriminate Ee]. }
      unfold order_views, ov_drop, kept. generalize same_node. clear. induction (pl_orders l) as [|[n' o] k IH]; intros Hsame; [done|].
      specialize (IH ltac:(intros; apply Hsame; by right)). pose proof (Hsame n' o ltac:(by left)) as Hno.
      rewrite fmap_cons, !filter_cons. cbn [fst snd ov_order_id].
      do 2 case_decide; try tauto. rewrite fmap_cons. by f_equal.
    + intros x Hx. destruct (H2 x Hx) as (p' & qu & Hq & Hin & Hlt). exists p', qu. split; [done|]. split; [done|].
      intros ->. destruct s; cbn in Hlt; lia.
    + intros x Hx. destruct (H1 x Hx) as (p' & qu & Hq & Hin & Hlt). exists p', qu. split; [done|]. split; [done|].
      intros ->. destruct s; cbn in Hlt; lia.
  - assert (levels erased s' = levels b s') as Hsame.
    { apply map_eq. intros p'. by rewrite erased_levels, decide_False by naive_solver. }
    rewrite (all_orders_ext _ _ _ Hsame). symmetry. apply ov_drop_notin. rewrite elem_of_ids.
    intros (loc' & Hloc & <-). rewrite Hid in Hloc. injection Hloc as <-. done.
Qed.
End Erased.

Lemma erase_at_ok : exists b1, erase_at b loc = Some b1 /\ ob_order_index b1 = ob_order_index b /\
  wf (set_index b1 (delete id (ob_order_index b)) (ob_next_node b)) /\
  forall s', all_orders (set_index b1 (delete id (ob_order_index b)) (ob_next_node b)) s' = ov_drop id (all_orders b s').
Proof.
  destruct erase_level as (l & q & Hl & Hn & Hd). eexists. split.
  { unfold erase_at. fold s p n. rewrite Hl. unfold level_remove. rewrite Hd. reflexivity. }
  split; [by destruct s|]. split; [exact (erased_wf l q Hl Hn)|exact (erased_orders l q Hl Hn)].
Qed.
End Erase.
End Wf.

(** ** The trader's book implements its specification

    Every operation of [OrderBook], on a well-formed book, is defined, does
    to the two priority lists what the specification says, reports the same
    error and leaves a well-formed book; the best level is the front of the
    list with the sum and the number of its orders. *)

Import OrderBook.

Lemma new_represents : represents OrderBook_new so_empty.
Proof.
  split; [split|].
  - intros s p l H. by destruct s.
  - intros id loc. split; [done|]. intros (l & q & Hl & _). by destruct (loc_side loc).
  - intros s. rewrite all_orders_views. by destruct s.
Qed.
Lemma clear_represents b : represents (clear b) so_empty.
Proof.
  split; [split|].
  - intros s p l H. by destruct s.
  - intros id loc. split; [done|]. intros (l & q & Hl & _). by destruct (loc_side loc).
  - intros s. rewrite all_orders_views. by destruct s.
Qed.

Lemma so_set_side m s l s' : so_side (so_set m s l) s' = if decide (s' = s) then l else so_side m s'.
Proof. by destruct s, s'. Qed.
Lemma so_drop_side m id s : so_side (so_drop m id) s = ov_drop id (so_side m s).
Proof. by destruct s. Qed.

Section Ops.
Context (b : OrderBook) (m : SpecOrders) (R : represents b m).

Lemma find_represents id : so_find m id = loc_side <$> ob_order_index b !! id.
Proof. destruct R as [W Hm]. by apply so_find_index. Qed.
Lemma has_order_represents id : has_order b id = match so_find m id with Some _ => true | None => false end.
Proof.
  rewrite find_represents. unfold has_order. destruct (ob_order_index b !! id); [by apply bool_decide_true|].
  apply bool_decide_false. by intros [? [=]].
Qed.
Lemma insert_represents s id p q : ob_order_index b !! id = None ->
  represents (insert_at b s id p q) (so_insert m s {| ov_order_id := id; ov_price := p; ov_quantity := q |}).
Proof.
  destruct R as [W Hm]. intros Hid. split; [by apply insert_wf|]. intros s'. rewrite insert_orders by done.
  unfold so_insert. rewrite so_set_side. case_decide; by rewrite Hm.
Qed.
Lemma erase_represents id loc : ob_order_index b !! id = Some loc -> exists b1,
  erase_at b loc = Some b1 /\
  represents (set_index b1 (delete id (ob_order_index b1)) (ob_next_node b1)) (so_drop m id).
Proof.
  destruct R as [W Hm]. intros Hid. destruct (erase_at_ok b W id loc Hid) as (b1 & He & Hidx & W1 & Ho).
  exists b1. split; [done|]. rewrite Hidx. assert (ob_next_node b1 = ob_next_node b) as ->.
  { unfold erase_at in He. simplify_bind. subst b1. by destruct (loc_side loc). }
  split; [done|]. intros s. by rewrite Ho, so_drop_side, Hm.
Qed.

Lemma add_order_refines id p q s : exists b' m',
  add_order b id p q s = (b', (spec_add m id p q s).2) /\ m' = (spec_add m id p q s).1 /\ represents b' m'.
Proof.
  unfold add_order, spec_add. destruct (_ <=? 0); [by exists b, m|]. destruct (_ =? 0); [by exists b, m|].
  rewrite has_order_represents. destruct (so_find m id) eqn:E; [by exists b, m|].
  eexists _, _. split; [done|]. split; [done|]. apply insert_represents. rewrite find_represents in E.
  by destruct (ob_order_index b !! id).
Qed.
Lemma cancel_order_refines id : exists b',
  cancel_order b id = Some (b', (spec_cancel_order m id).2) /\ represents b' (spec_cancel_order m id).1.
Proof.
  unfold cancel_order, spec_cancel_order. rewrite find_represents.
  destruct (ob_order_index b !! id) as [loc|] eqn:E; [|by exists b].
  destruct (erase_represents id loc E) as (b1 & -> & R1). cbn. eauto.
Qed.
Lemma modify_order_refines id p q : exists b',
  modify_order b id p q = Some (b', (spec_modify m id p q).2) /\ represents b' (spec_modify m id p q).1.
Proof.
  unfold modify_order, spec_modify. destruct (_ <=? 0); [by exists b|]. destruct (_ =? 0); [by exists b|].
  rewrite find_represents. destruct (ob_order_index b !! id) as [loc|] eqn:E; [|by exists b].
  destruct (erase_represents id loc E) as (b1 & -> & R1). cbn. eexists. split; [done|].
  set (b2 := set_index _ _ _) in *. pose proof R1 as [W1 Hm1].
  assert (Hid : ob_order_index b2 !! id = None) by apply lookup_delete_eq.
  split; [by apply insert_wf|]. intros s'. rewrite insert_orders by done. unfold so_insert. rewrite so_set_side.
  case_decide; by rewrite Hm1.
Qed.

(** ** Best prices and depth *)
Definition spec_level (l : list OrderView) (p : Price) : PriceLevelView :=
  let at_p := filter (fun x => ov_price x = p) l in
  {| plv_price := p; plv_aggregate_quantity := u64 (foldr (fun x z => ov_quantity x + z) 0 at_p);
     plv_order_count := Z.of_nat (length at_p) |}.

Lemma block_at s p l : levels b s !! p = Some l ->
  filter (fun x => ov_price x = p) (so_side m s) = order_views p (pl_orders l).
Proof.
  destruct R as [W Hm]. intros Hl. rewrite <- Hm, all_orders_views.
  destruct (queue_list_block s (views b s) p) as (k1 & k2 & Hb & H1 & H2). rewrite (Hb (views b s)) by done.
  assert (Hout : forall k, (forall x, x ∈ k -> exists p' qu, views b s !! p' = Some qu /\ x ∈ qu /\ p' <> p) ->
    filter (fun x => ov_price x = p) k = []).
  { intros k Hk. apply filter_none. intros x Hin Hp. destruct (Hk x Hin) as (p' & qu & Hq & Hx & Hne).
    rewrite lookup_views in Hq. apply fmap_Some in Hq as (l0 & _ & ->).
    apply list_elem_of_fmap in Hx as (n & -> & _). by cbn in Hp. }
  assert (Hne : forall p', better s p p' = true \/ better s p' p = true -> p' <> p) by (intros p' H ->; destruct s; cbn in H; lia).
  rewrite !filter_app, (Hout k1), (Hout k2).
  - cbn. rewrite app_nil_r. unfold queue_at. rewrite lookup_views, Hl. cbn. apply filter_all.
    intros x Hx. by apply list_elem_of_fmap in Hx as (n & -> & _).
  - intros x Hx. destruct (H2 x Hx) as (p' & qu & ? & ? & Hlt). exists p', qu. auto.
  - intros x Hx. destruct (H1 x Hx) as (p' & qu & ? & ? & Hlt). exists p', qu. auto.
Qed.
Lemma level_at s p l : levels b s !! p = Some l -> level_view p l = spec_level (so_side m s) p.
Proof.
  intros Hl. unfold level_view, spec_level. rewrite (block_at s p l Hl). destruct R as [W _].
  destruct (wf_level b W _ _ _ Hl) as (_ & _ & -> & _). unfold order_count, order_views. rewrite length_fmap. do 2 f_equal.
  unfold qty_total. induction (pl_orders l) as [|n k IH]; [done|]. cbn. by rewrite IH.
Qed.
Lemma best_refines s : best b s = (fun x => spec_level (so_side m s) (ov_price x)) <$> head (so_side m s).
Proof.
  unfold best, level_views. destruct R as [W Hm].
  assert (Hk : forall p, p ∈ prices b s <-> is_Some (levels b s !! p)).
  { intros p. unfold prices. by rewrite elem_of_sorted_keys, lookup_fmap, fmap_is_Some. }
  destruct (prices b s) as [|p ks] eqn:Ep.
  - assert (so_side m s = []) as ->; [|done]. rewrite <- Hm. unfold all_orders. by rewrite Ep.
  - destruct (proj1 (Hk p) ltac:(by left)) as [l Hl]. cbn [omap list_omap]. rewrite Hl. cbn [fmap option_fmap option_map head].
    rewrite (level_at s p l Hl). rewrite <- Hm at 2. unfold all_orders. rewrite Ep. cbn [fmap list_fmap mjoin list_join]. rewrite Hl.
    cbn. destruct (wf_level b W _ _ _ Hl) as (_ & Hne & _). destruct (pl_orders l) as [|n k]; [done|]. done.
Qed.
End Ops.
