(* ===== verification/SequenceValidator.v ===== *)
(** * Sequence validation: include/common/sequence_validator.hpp,
      src/common/sequence_validator.cpp, include/net/packet_sequence_tracker.hpp

    The classifier of sequence numbers and the counter of packets built on
    it. *)
From S2P Require Import Prelude Types.

Inductive SequenceOutcome := InOrder | Duplicate | OutOfOrder | Missing.
#[export] Instance SequenceOutcome_eq_dec : EqDecision SequenceOutcome.
Proof. solve_decision. Defined.

Record SequenceCheck := { sc_outcome : SequenceOutcome; sc_observed : Sequence; sc_expected : Sequence }.
(** A check with the default [expected]. *)
Definition plain_check (o : SequenceOutcome) (seq : Sequence) : SequenceCheck :=
  {| sc_outcome := o; sc_observed := seq; sc_expected := 0 |}.

Record SequenceValidator := { last_seen : option Sequence }.
Definition SequenceValidator_new : SequenceValidator := {| last_seen := None |}.
Definition check (v : SequenceValidator) (seq : Sequence) : SequenceValidator * SequenceCheck :=
  match last_seen v with
  | None => ({| last_seen := Some seq |}, plain_check InOrder seq)
  | Some last =>
      if seq =? u64 (last + 1) then ({| last_seen := Some seq |}, plain_check InOrder seq)
      else if seq =? last then (v, plain_check Duplicate seq)
      else if seq <? last then (v, plain_check OutOfOrder seq)
      else ({| last_seen := Some seq |}, {| sc_outcome := Missing; sc_observed := seq; sc_expected := u64 (last + 1) |})
  end.
Definition reset (v : SequenceValidator) (seq : Sequence) : SequenceValidator := {| last_seen := Some seq |}.

(** ** Packets *)
Record PacketSequenceStats := {
  ps_packets_seen : Z;
  ps_in_order : Z;
  ps_duplicate : Z;
  ps_out_of_order : Z;
  ps_missing_events : Z;
}.
Definition PacketSequenceStats_zero : PacketSequenceStats :=
  {| ps_packets_seen := 0; ps_in_order := 0; ps_duplicate := 0; ps_out_of_order := 0; ps_missing_events := 0 |}.
Record PacketSequenceTracker := { pt_validator : SequenceValidator; pt_stats : PacketSequenceStats }.
Definition PacketSequenceTracker_new : PacketSequenceTracker :=
  {| pt_validator := SequenceValidator_new; pt_stats := PacketSequenceStats_zero |}.
Definition observe (t : PacketSequenceTracker) (packet_sequence : Sequence) : PacketSequenceTracker * SequenceCheck :=
  let (v, c) := check (pt_validator t) packet_sequence in
  let s := pt_stats t in
  let bump o n := if decide (sc_outcome c = o) then u64 (n + 1) else n in
  ({| pt_validator := v;
      pt_stats := {| ps_packets_seen := u64 (ps_packets_seen s + 1);
                     ps_in_order := bump InOrder (ps_in_order s);
                     ps_duplicate := bump Duplicate (ps_duplicate s);
                     ps_out_of_order := bump OutOfOrder (ps_out_of_order s);
                     ps_missing_events := bump Missing (ps_missing_events s) |} |}, c).

(** ** What the classification means *)
Section Check.
Context (last seq : Sequence) (Hl : 0 <= last < two64 - 1) (Hs : 0 <= seq < two64).

Lemma check_classifies : check {| last_seen := Some last |} seq =
  ({| last_seen := Some (Z.max last seq) |},
   if seq =? last + 1 then plain_check InOrder seq
   else if seq =? last then plain_check Duplicate seq
   else if seq <? last then plain_check OutOfOrder seq
   else {| sc_outcome := Missing; sc_observed := seq; sc_expected := last + 1 |}).
Proof.
  unfold check. cbn [last_seen]. rewrite u64_small by lia.
  destruct (seq =? last + 1) eqn:E1; [by rewrite Z.max_r by lia|].
  destruct (seq =? last) eqn:E2; [by rewrite Z.max_l by lia|].
  destruct (seq <? last) eqn:E3; [by rewrite Z.max_l by lia|]. by rewrite Z.max_r by lia.
Qed.
End Check.

(** Checks along a stream. *)
Fixpoint checks (v : SequenceValidator) (seqs : list Sequence) : list SequenceCheck :=
  match seqs with [] => [] | s :: seqs => let (v, c) := check v s in c :: checks v seqs end.

(** On an ascending stream every check is in order or reports exactly the
    numbers skipped since the previous one. *)
Lemma checks_ascending seqs : forall last, 0 <= last ->
  StronglySorted Z.lt (last :: seqs) -> Forall (fun s => s < two64) (last :: seqs) ->
  checks {| last_seen := Some last |} seqs =
  zip_with (fun prev s => if s =? prev + 1 then plain_check InOrder s
                          else {| sc_outcome := Missing; sc_observed := s; sc_expected := prev + 1 |})
    (last :: seqs) seqs.
Proof.
  induction seqs as [|s seqs IH]; intros last Hl Hsort Hb; [done|].
  inversion Hsort as [|? ? Hsort' Hlt]; subst. apply Forall_cons in Hb as [_ Hb'].
  apply Forall_cons in Hlt as [Hls _]. pose proof Hb' as [Hs _]%Forall_cons.
  cbn [checks]. rewrite check_classifies by lia. rewrite Z.max_r by lia.
  destruct (s =? last) eqn:E1; [lia|]. destruct (s <? last) eqn:E2; [lia|].
  cbn [zip_with]. rewrite IH by (done || lia). done.
Qed.

(** ** Any stream of arrivals *)

(** The numbers a check settles: the one it admits, after those it reports
    missing before it.  A stale number settles nothing. *)
Definition settles (c : SequenceCheck) : list Sequence :=
  match sc_outcome c with
  | InOrder => [sc_observed c]
  | Missing => seqZ (sc_expected c) (sc_observed c - sc_expected c) ++ [sc_observed c]
  | Duplicate | OutOfOrder => []
  end.
Lemma seqZ_snoc m n : 0 <= n -> seqZ m n ++ [m + n] = seqZ m (n + 1).
Proof. intros Hn. by rewrite (seqZ_app m n 1) by lia. Qed.
Lemma check_settles last seq : 0 <= last < two64 - 1 -> 0 <= seq < two64 ->
  settles (check {| last_seen := Some last |} seq).2 = seqZ (last + 1) (Z.max last seq - last).
Proof.
  intros Hl Hs. rewrite check_classifies by done. cbn [snd].
  destruct (seq =? last + 1) eqn:E1.
  { cbn. rewrite Z.max_r by lia. assert (seq = last + 1) as -> by lia. by assert (last + 1 - last = 1) as -> by lia. }
  destruct (seq =? last) eqn:E2; [cbn; by rewrite Z.max_l, Z.sub_diag by lia|].
  destruct (seq <? last) eqn:E3; [cbn; by rewrite Z.max_l, Z.sub_diag by lia|].
  cbn [settles sc_outcome sc_expected sc_observed]. rewrite Z.max_r by lia.
  assert (seq = last + 1 + (seq - (last + 1))) as He by lia. rewrite He at 2. rewrite seqZ_snoc by lia. f_equal. lia.
Qed.
Lemma checks_settle seqs : forall last, 0 <= last < two64 - 1 -> Forall (fun s => 0 <= s < two64 - 1) seqs ->
  mjoin (settles <$> checks {| last_seen := Some last |} seqs) = seqZ (last + 1) (foldl Z.max last seqs - last).
Proof.
  induction seqs as [|s seqs IH]; intros last Hl Hs; [cbn; by rewrite Z.sub_diag|].
  apply Forall_cons in Hs as [Hs Hss]. pose proof (check_settles last s Hl ltac:(lia)) as Hc.
  cbn [checks foldl]. rewrite check_classifies in Hc |- * by lia. cbn [snd] in Hc.
  change (mjoin (settles <$> ?x :: ?l)) with (settles x ++ mjoin (settles <$> l)).
  assert (Hmax : forall k a, a <= foldl Z.max a k) by (intros k; induction k as [|y k IHk]; intros a; cbn; [lia|]; specialize (IHk (Z.max a y)); lia).
  specialize (Hmax seqs (Z.max last s)). rewrite Hc, IH by (done || lia).
  rewrite <- (Z.sub_add (Z.max last s) (foldl Z.max (Z.max last s) seqs)) at 2.
  replace (foldl Z.max (Z.max last s) seqs - Z.max last s + Z.max last s - last)
    with (Z.max last s - last + (foldl Z.max (Z.max last s) seqs - Z.max last s)) by lia.
  rewrite seqZ_app by lia. do 2 f_equal. lia.
Qed.
(** A check is stale exactly when its number is not above all before it. *)
Lemma check_stale last seq : 0 <= last < two64 - 1 -> 0 <= seq < two64 ->
  settles (check {| last_seen := Some last |} seq).2 = [] <-> seq <= last.
Proof.
  intros Hl Hs. rewrite check_settles by done. split.
  - intros H. apply (f_equal length) in H. rewrite length_seqZ in H. cbn in H. lia.
  - intros H. by rewrite Z.max_l, Z.sub_diag by lia.
Qed.

(** The tracker's counters over a stream of packets. *)
Fixpoint observes (t : PacketSequenceTracker) (seqs : list Sequence) : PacketSequenceTracker :=
  match seqs with [] => t | s :: seqs => observes (observe t s).1 seqs end.
Definition how_many (o : SequenceOutcome) (cs : list SequenceCheck) : Z :=
  Z.of_nat (length (filter (fun c => sc_outcome c = o) cs)).
Definition counters (cs : list SequenceCheck) (s : PacketSequenceStats) : PacketSequenceStats :=
  {| ps_packets_seen := u64 (ps_packets_seen s + Z.of_nat (length cs));
     ps_in_order := u64 (ps_in_order s + how_many InOrder cs);
     ps_duplicate := u64 (ps_duplicate s + how_many Duplicate cs);
     ps_out_of_order := u64 (ps_out_of_order s + how_many OutOfOrder cs);
     ps_missing_events := u64 (ps_missing_events s + how_many Missing cs) |}.
Lemma bump_count o c cs n : u64 ((if decide (sc_outcome c = o) then u64 (n + 1) else n) + how_many o cs) = u64 (n + how_many o (c :: cs)).
Proof.
  unfold how_many. rewrite filter_cons. case_decide; [|done]. rewrite u64_add_idemp_l. cbn [length]. f_equal. lia.
Qed.
Lemma observes_counts seqs : forall t, let s := pt_stats t in
  Forall (fun n => 0 <= n < two64) [ps_packets_seen s; ps_in_order s; ps_duplicate s; ps_out_of_order s; ps_missing_events s] ->
  pt_stats (observes t seqs) = counters (checks (pt_validator t) seqs) s.
Proof.
  induction seqs as [|q seqs IH]; intros t s Hr.
  - subst s. cbn. unfold counters, how_many. cbn. rewrite !Z.add_0_r. destruct (pt_stats t). cbn in *.
    repeat (apply Forall_cons in Hr as [? Hr]). by rewrite !u64_small by done.
  - cbn [observes checks]. unfold observe. destruct (check (pt_validator t) q) as [v c]. cbn [fst].
    rewrite IH.
    + cbn [pt_stats pt_validator]. unfold counters. cbn [ps_packets_seen ps_in_order ps_duplicate ps_out_of_order ps_missing_events length].
      rewrite !bump_count, u64_add_idemp_l, Nat2Z.inj_succ, <- Z.add_assoc, (Z.add_comm 1). done.
    + cbn. repeat (apply Forall_cons in Hr as [? Hr]). repeat (apply Forall_cons; split); try (case_decide; [apply u64_range|done]); [apply u64_range|constructor].
Qed.
