(* ===== verification/TraderBooks.v ===== *)
(** * One book per instrument: include/book/book_manager.hpp,
      src/book/book_manager.cpp *)
From S2P Require Import Prelude Types ByteIO MarketDataCodec TraderBook.

Import OrderBook.

Record InstrumentStats := { is_trade_count : Z; is_traded_quantity : Quantity; is_last_trade_price : Price }.
Definition InstrumentStats_zero : InstrumentStats :=
  {| is_trade_count := 0; is_traded_quantity := 0; is_last_trade_price := 0 |}.
Record BookManager := {
  bm_books : gmap InstrumentId OrderBook;
  bm_stats : gmap InstrumentId InstrumentStats;
}.
Definition BookManager_new : BookManager := {| bm_books := ∅; bm_stats := ∅ |}.

(** [books_[id]]: the book, created empty on first use. *)
Definition manager_book_for (bm : BookManager) (id : InstrumentId) : OrderBook := default OrderBook_new (bm_books bm !! id).
Definition store_book (bm : BookManager) (id : InstrumentId) (b : OrderBook) : BookManager :=
  {| bm_books := <[id := b]> (bm_books bm); bm_stats := bm_stats bm |}.
Definition find_book (bm : BookManager) (id : InstrumentId) : option OrderBook := bm_books bm !! id.
Definition record_trade (bm : BookManager) (id : InstrumentId) (price : Price) (qty : Quantity) : BookManager :=
  let s := default InstrumentStats_zero (bm_stats bm !! id) in
  {| bm_books := bm_books bm;
     bm_stats := <[id := {| is_trade_count := u64 (is_trade_count s + 1);
                            is_traded_quantity := u64 (is_traded_quantity s + qty);
                            is_last_trade_price := price |}]> (bm_stats bm) |}.
Definition trade_stats (bm : BookManager) (id : InstrumentId) : option InstrumentStats := bm_stats bm !! id.
Definition instruments (bm : BookManager) : list InstrumentId :=
  merge_sort Z.le (elements (dom (bm_books bm) ∪ dom (bm_stats bm))).

Lemma manager_book_store bm id b id' :
  manager_book_for (store_book bm id b) id' = if decide (id' = id) then b else manager_book_for bm id'.
Proof.
  unfold manager_book_for, store_book. cbn. case_decide as H; [subst; by rewrite lookup_insert_eq|by rewrite lookup_insert_ne].
Qed.

(** ** Book snapshots on disk: src/replay/snapshot.cpp

    A header and one AddOrder frame per resting order.  [write_snapshot]
    gives the bytes of the file; [read_snapshot] rebuilds the books or gives
    nothing.  Each turn of the reading loop consumes a frame header at least,
    so the length of the file is fuel enough. *)

Import OrderBook.

Definition SNAPSHOT_MAGIC : Z := 1296320562.
Definition SNAPSHOT_VERSION : Z := 1.
Definition SNAPSHOT_HEADER_SIZE : nat := 24.

Definition snapshot_entry (id : InstrumentId) (side : Side) (sequence_number : Sequence) (o : OrderView) : MarketData.Event :=
  MarketData.EvAddOrder
    {| MarketData.ao_sequence_number := sequence_number; MarketData.ao_timestamp_ns := 0;
       MarketData.ao_order_id := ov_order_id o; MarketData.ao_instrument_id := id;
       MarketData.ao_price := ov_price o; MarketData.ao_quantity := ov_quantity o; MarketData.ao_side := side |}.
Definition append_side (book : OrderBook) (id : InstrumentId) (side : Side) (is_bid : bool) (sequence_number : Sequence)
    (acc : Z * list byte) : Z * list byte :=
  let orders := if is_bid then all_bids book else all_asks book in
  foldl (fun acc o => (u64 (acc.1 + 1), MarketData.encode_event (snapshot_entry id side sequence_number o) acc.2)) acc orders.
Definition append_book (books : BookManager) (sequence_number : Sequence) (acc : Z * list byte) (id : InstrumentId)
    : Z * list byte :=
  match find_book books id with
  | None => acc
  | Some book => append_side book id Sell false sequence_number (append_side book id Buy true sequence_number acc)
  end.
Definition write_snapshot (sequence_number : Sequence) (books : BookManager) : list byte :=
  let '(entry_count, entries) := foldl (append_book books sequence_number) (0, []) (instruments books) in
  let header := put_u32 [] SNAPSHOT_MAGIC in
  let header := put_u16 header SNAPSHOT_VERSION in
  let header := put_u16 header 0 in
  let header := put_u64 header sequence_number in
  let header := put_u64 header entry_count in
  header ++ entries.

Record SnapshotLoadResult := { sl_sequence_number : Sequence; sl_books : BookManager }.

(** One turn of the loop: the next frame must be an order the book takes. *)
Definition read_entry (file : list byte) (books : BookManager) : option (list byte * BookManager) :=
  let header_buf := take MarketData.HEADER_SIZE file in
  let file := drop MarketData.HEADER_SIZE file in
  if (length header_buf <? MarketData.HEADER_SIZE)%nat then None
  else
    match MarketData.decode_header header_buf with
    | inr _ => None
    | inl header =>
        match MarketData.hd_type header with
        | MarketData.MtAddOrder =>
            let n := Z.to_nat (MarketData.hd_payload_size header) in
            let payload_buf := take n file in
            let file := drop n file in
            if (length payload_buf <? n)%nat then None
            else
              match MarketData.decode_event (header_buf ++ payload_buf) with
              | inl (MarketData.EvAddOrder add) =>
                  let id := MarketData.ao_instrument_id add in
                  let (b, err) := add_order (manager_book_for books id) (MarketData.ao_order_id add)
                                    (MarketData.ao_price add) (MarketData.ao_quantity add) (MarketData.ao_side add) in
                  match err with Some _ => None | None => Some (file, store_book books id b) end
              | _ => None
              end
        | _ => None
        end
    end.
Fixpoint read_entries (fuel : nat) (count : Z) (file : list byte) (books : BookManager) : option BookManager :=
  if count <=? 0 then Some books
  else
    match fuel with
    | O => None
    | S fuel => let* (file, books) := read_entry file books in read_entries fuel (count - 1) file books
    end.
Definition read_snapshot (file : list byte) : option SnapshotLoadResult :=
  let header_buf := take SNAPSHOT_HEADER_SIZE file in
  if (length header_buf <? SNAPSHOT_HEADER_SIZE)%nat then None
  else
    let* (magic, r) := get_u32 header_buf in
    let* (version, r) := get_u16 r in
    let* (reserved, r) := get_u16 r in
    let* (sequence_number, r) := get_u64 r in
    let* (entry_count, r) := get_u64 r in
    if negb (magic =? SNAPSHOT_MAGIC) || negb (version =? SNAPSHOT_VERSION) || negb (reserved =? 0) then None
    else
      let* books := read_entries (S (length file)) entry_count (drop SNAPSHOT_HEADER_SIZE file) BookManager_new in
      Some {| sl_sequence_number := sequence_number; sl_books := books |}.
