(* ===== verification/FeedReplay.v ===== *)
(** * Rebuilding books from a feed: src/replay/replay_engine.cpp,
      src/replay/event_file_reader.cpp, src/replay/event_file_writer.cpp,
      include/replay/replay_stats.hpp, include/replay/replay_engine.hpp

    One frame result applied to the outcome of a run, and the run over a
    file.  Files are lists of bytes ([fs] gives the content of a path, when it
    opens); the outer [option] is [None] only where the code is undefined.
    The elapsed time is an argument of the run: the clock is not modelled. *)
From Stdlib Require Import String.
From stdpp Require Import pretty.
From S2P Require Import Prelude Types ByteIO MarketDataCodec TraderBook TraderBooks SequenceValidator.

Local Open Scope Z_scope.
Import MarketData.

(** ** Counters *)
Record ReplayStats := {
  rs_messages_processed : Z;
  rs_decode_failures : Z;
  rs_sequence_failures : Z;
  rs_recoveries : Z;
  rs_adds : Z;
  rs_cancels : Z;
  rs_modifies : Z;
  rs_trades : Z;
  rs_clears : Z;
  rs_book_errors : Z;
  rs_duration_ns : Z;
}.
Definition ReplayStats_zero : ReplayStats :=
  {| rs_messages_processed := 0; rs_decode_failures := 0; rs_sequence_failures := 0; rs_recoveries := 0; rs_adds := 0;
     rs_cancels := 0; rs_modifies := 0; rs_trades := 0; rs_clears := 0; rs_book_errors := 0; rs_duration_ns := 0 |}.
Inductive Counter := CtMessages | CtDecodeFailures | CtSequenceFailures | CtRecoveries | CtAdds | CtCancels | CtModifies
  | CtTrades | CtClears | CtBookErrors.
#[export] Instance Counter_eq_dec : EqDecision Counter.
Proof. solve_decision. Defined.
(** [stats.<counter> += 1]. *)
Definition count (c : Counter) (s : ReplayStats) : ReplayStats :=
  let up c' n := if decide (c = c') then u64 (n + 1) else n in
  {| rs_messages_processed := up CtMessages (rs_messages_processed s);
     rs_decode_failures := up CtDecodeFailures (rs_decode_failures s);
     rs_sequence_failures := up CtSequenceFailures (rs_sequence_failures s);
     rs_recoveries := up CtRecoveries (rs_recoveries s);
     rs_adds := up CtAdds (rs_adds s); rs_cancels := up CtCancels (rs_cancels s);
     rs_modifies := up CtModifies (rs_modifies s); rs_trades := up CtTrades (rs_trades s);
     rs_clears := up CtClears (rs_clears s); rs_book_errors := up CtBookErrors (rs_book_errors s);
     rs_duration_ns := rs_duration_ns s |}.
Definition with_duration (s : ReplayStats) (ns : Z) : ReplayStats :=
  {| rs_messages_processed := rs_messages_processed s; rs_decode_failures := rs_decode_failures s;
     rs_sequence_failures := rs_sequence_failures s; rs_recoveries := rs_recoveries s; rs_adds := rs_adds s;
     rs_cancels := rs_cancels s; rs_modifies := rs_modifies s; rs_trades := rs_trades s; rs_clears := rs_clears s;
     rs_book_errors := rs_book_errors s; rs_duration_ns := ns |}.

Record ReplayOptions := {
  stop_on_sequence_error : bool;
  stop_on_decode_error : bool;
  recovery_snapshot_path : option string;
}.
Definition ReplayOptions_default : ReplayOptions :=
  {| stop_on_sequence_error := true; stop_on_decode_error := true; recovery_snapshot_path := None |}.
Record ReplayOutcome := {
  rp_stats : ReplayStats;
  rp_books : BookManager;
  rp_stopped_early : bool;
  rp_stop_reason : string;
  rp_last_sequence_number : option Sequence;
}.
Definition ReplayOutcome_new : ReplayOutcome :=
  {| rp_stats := ReplayStats_zero; rp_books := BookManager_new; rp_stopped_early := false; rp_stop_reason := EmptyString;
     rp_last_sequence_number := None |}.
Definition with_stats (o : ReplayOutcome) (s : ReplayStats) : ReplayOutcome :=
  {| rp_stats := s; rp_books := rp_books o; rp_stopped_early := rp_stopped_early o; rp_stop_reason := rp_stop_reason o;
     rp_last_sequence_number := rp_last_sequence_number o |}.
Definition with_books (o : ReplayOutcome) (bm : BookManager) : ReplayOutcome :=
  {| rp_stats := rp_stats o; rp_books := bm; rp_stopped_early := rp_stopped_early o; rp_stop_reason := rp_stop_reason o;
     rp_last_sequence_number := rp_last_sequence_number o |}.
Definition stopped (o : ReplayOutcome) (reason : string) : ReplayOutcome :=
  {| rp_stats := rp_stats o; rp_books := rp_books o; rp_stopped_early := true; rp_stop_reason := reason;
     rp_last_sequence_number := rp_last_sequence_number o |}.

(** ** One event *)
Definition sequence_of (event : Event) : Sequence := hd_sequence_number (event_header event).

Definition count_error (err : option OrderBook.BookError) (s : ReplayStats) : ReplayStats :=
  match err with Some _ => count CtBookErrors s | None => s end.
Definition apply_event (event : Event) (books : BookManager) (stats : ReplayStats) : option (BookManager * ReplayStats) :=
  match event with
  | EvAddOrder msg =>
      let stats := count CtAdds stats in
      let (b, err) := OrderBook.add_order (manager_book_for books (ao_instrument_id msg)) (ao_order_id msg)
                        (ao_price msg) (ao_quantity msg) (ao_side msg) in
      Some (store_book books (ao_instrument_id msg) b, count_error err stats)
  | EvCancelOrder msg =>
      let stats := count CtCancels stats in
      let* (b, err) := OrderBook.cancel_order (manager_book_for books (co_instrument_id msg)) (co_order_id msg) in
      Some (store_book books (co_instrument_id msg) b, count_error err stats)
  | EvModifyOrder msg =>
      let stats := count CtModifies stats in
      let* (b, err) := OrderBook.modify_order (manager_book_for books (mo_instrument_id msg)) (mo_order_id msg)
                         (mo_new_price msg) (mo_new_quantity msg) in
      Some (store_book books (mo_instrument_id msg) b, count_error err stats)
  | EvTrade msg =>
      Some (record_trade books (tr_instrument_id msg) (tr_price msg) (tr_quantity msg), count CtTrades stats)
  | EvClearBook msg =>
      Some (store_book books (cb_instrument_id msg) (OrderBook.clear (manager_book_for books (cb_instrument_id msg))),
            count CtClears stats)
  end.

Definition describe_sequence_error (c : SequenceCheck) : string :=
  match sc_outcome c with
  | Duplicate => "duplicate sequence " +:+ pretty (sc_observed c)
  | OutOfOrder => "out-of-order sequence " +:+ pretty (sc_observed c)
  | Missing => "missing sequence(s) [" +:+ pretty (sc_expected c) +:+ ".." +:+ pretty (u64 (sc_observed c - 1)) +:+ "]"
  | InOrder => "in-order sequence " +:+ pretty (sc_observed c)
  end%string.
Definition to_string (e : DecodeError) : string :=
  match e with
  | TruncatedHeader => "TruncatedHeader"
  | TruncatedPayload => "TruncatedPayload"
  | InvalidReserved => "InvalidReserved"
  | InvalidMessageType => "InvalidMessageType"
  | InvalidMessageSize => "InvalidMessageSize"
  | InvalidSide => "InvalidSide"
  end%string.

(** ** One frame result *)
Definition process_event (event : Event) (v : SequenceValidator) (o : ReplayOutcome)
    : option (bool * SequenceValidator * ReplayOutcome) :=
  let o := with_stats o (count CtMessages (rp_stats o)) in
  let* (books, stats) := apply_event event (rp_books o) (rp_stats o) in
  Some (false, v,
        {| rp_stats := stats; rp_books := books; rp_stopped_early := rp_stopped_early o; rp_stop_reason := rp_stop_reason o;
           rp_last_sequence_number := Some (sequence_of event) |}).

Definition apply_frame_result (fs : string -> option (list byte)) (frame : Event + DecodeError) (v : SequenceValidator)
    (options : ReplayOptions) (o : ReplayOutcome) : option (bool * SequenceValidator * ReplayOutcome) :=
  match frame with
  | inr e =>
      let o := with_stats o (count CtDecodeFailures (rp_stats o)) in
      if stop_on_decode_error options then Some (true, v, stopped o ("decode error: " +:+ to_string e)%string)
      else Some (false, v, o)
  | inl event =>
      let (v, c) := check v (sequence_of event) in
      if decide (sc_outcome c = InOrder) then process_event event v o
      else
        let o := with_stats o (count CtSequenceFailures (rp_stats o)) in
        match recovery_snapshot_path options with
        | Some path =>
            if decide (sc_outcome c = Missing) then
              match fs path ≫= read_snapshot with
              | None => Some (true, v, stopped o ("sequence gap recovery failed: could not load snapshot " +:+ path)%string)
              | Some loaded =>
                  let o := with_books o (sl_books loaded) in
                  let o := with_stats o (count CtRecoveries (rp_stats o)) in
                  process_event event (reset v (sequence_of event)) o
              end
            else if stop_on_sequence_error options then Some (true, v, stopped o (describe_sequence_error c))
            else process_event event v o
        | None =>
            if stop_on_sequence_error options then Some (true, v, stopped o (describe_sequence_error c))
            else process_event event v o
        end
  end.

(** ** Event files *)
Definition write_event (file : list byte) (event : Event) : list byte := file ++ encode_event event [].
Definition event_file (events : list Event) : list byte := foldl write_event [] events.
Definition next_event (file : list byte) : option (Event + DecodeError) * list byte :=
  let header_buf := take HEADER_SIZE file in
  let file := drop HEADER_SIZE file in
  let header_bytes_read := List.length header_buf in
  if (header_bytes_read =? 0)%nat then (None, file)
  else if (header_bytes_read <? HEADER_SIZE)%nat then (Some (inr TruncatedHeader), file)
  else
    match decode_header header_buf with
    | inr e => (Some (inr e), file)
    | inl header =>
        let n := Z.to_nat (hd_payload_size header) in
        let payload_buf := take n file in
        let file := drop n file in
        if (List.length payload_buf <? n)%nat then (Some (inr TruncatedPayload), file)
        else (Some (decode_event (header_buf ++ payload_buf)), file)
    end.

(** ** A run *)
Fixpoint run_loop (fs : string -> option (list byte)) (fuel : nat) (options : ReplayOptions) (file : list byte)
    (v : SequenceValidator) (o : ReplayOutcome) : option ReplayOutcome :=
  match fuel with
  | O => None
  | S fuel =>
      match next_event file with
      | (None, _) => Some o
      | (Some frame, file) =>
          let* (stop, v, o) := apply_frame_result fs frame v options o in
          if stop then Some o else run_loop fs fuel options file v o
      end
  end.
Definition run_replay (fs : string -> option (list byte)) (elapsed_ns : Z) (input_path : string) (options : ReplayOptions)
    : option ReplayOutcome :=
  match fs input_path with
  | None => Some (stopped ReplayOutcome_new ("failed to open input file: " +:+ input_path)%string)
  | Some file =>
      let* o := run_loop fs (S (List.length file)) options file SequenceValidator_new ReplayOutcome_new in
      Some (with_stats o (with_duration (rp_stats o) elapsed_ns))
  end.
