(* ===== verification/FeedPublisher.v ===== *)
(** * The market-data publisher: src/exchange/market_data/market_data_publisher.cpp

    Each public event becomes one wire message under the publisher's own
    sequence number; a private event becomes none and takes no number.
    [now] is what [options_.clock()] returns when the message is built. *)
From S2P Require Import Prelude Types MatchingEngine EngineSpec EngineMatch EngineFacts EngineTheorems LedgerMatch MarketDataCodec TraderBook TraderBookSpec.

Record MarketDataPublisher := { mp_next_sequence : Sequence }.
Definition MarketDataPublisher_new : MarketDataPublisher := {| mp_next_sequence := 1 |}.
Definition next_sequence_number (p : MarketDataPublisher) : MarketDataPublisher * Sequence :=
  ({| mp_next_sequence := u64 (mp_next_sequence p + 1) |}, mp_next_sequence p).

Section Publish.
Context (now : Timestamp) (p : MarketDataPublisher).
Definition publish_book_order_added (ev : BookOrderAdded) : MarketDataPublisher * MarketData.Event :=
  let (p, seq) := next_sequence_number p in
  (p, MarketData.EvAddOrder
        {| MarketData.ao_sequence_number := seq; MarketData.ao_timestamp_ns := now;
           MarketData.ao_order_id := boa_exchange_order_id ev; MarketData.ao_instrument_id := boa_instrument_id ev;
           MarketData.ao_price := boa_price ev; MarketData.ao_quantity := boa_quantity ev;
           MarketData.ao_side := boa_side ev |}).
Definition publish_book_order_reduced (ev : BookOrderReduced) : MarketDataPublisher * MarketData.Event :=
  let (p, seq) := next_sequence_number p in
  (p, MarketData.EvModifyOrder
        {| MarketData.mo_sequence_number := seq; MarketData.mo_timestamp_ns := now;
           MarketData.mo_order_id := bor_exchange_order_id ev; MarketData.mo_instrument_id := bor_instrument_id ev;
           MarketData.mo_new_price := bor_price ev; MarketData.mo_new_quantity := bor_new_remaining_quantity ev |}).
Definition publish_book_order_removed (ev : BookOrderRemoved) : MarketDataPublisher * MarketData.Event :=
  let (p, seq) := next_sequence_number p in
  (p, MarketData.EvCancelOrder
        {| MarketData.co_sequence_number := seq; MarketData.co_timestamp_ns := now;
           MarketData.co_order_id := bom_exchange_order_id ev; MarketData.co_instrument_id := bom_instrument_id ev |}).
Definition publish_trade_executed (ev : TradeExecuted) : MarketDataPublisher * MarketData.Event :=
  let (p, seq) := next_sequence_number p in
  (p, MarketData.EvTrade
        {| MarketData.tr_sequence_number := seq; MarketData.tr_timestamp_ns := now;
           MarketData.tr_instrument_id := te_instrument_id ev; MarketData.tr_price := te_price ev;
           MarketData.tr_quantity := te_quantity ev; MarketData.tr_aggressor_side := te_aggressor_side ev |}).
Definition publish (event : ExchangeEvent) : MarketDataPublisher * option MarketData.Event :=
  match event with
  | EvBookOrderAdded e => let (p, m) := publish_book_order_added e in (p, Some m)
  | EvBookOrderReduced e => let (p, m) := publish_book_order_reduced e in (p, Some m)
  | EvBookOrderRemoved e => let (p, m) := publish_book_order_removed e in (p, Some m)
  | EvTradeExecuted e => let (p, m) := publish_trade_executed e in (p, Some m)
  | _ => (p, None)
  end.
End Publish.

(** A stream of events, [clock k] the reading for the [k]-th. *)
Fixpoint publish_all (clock : nat -> Timestamp) (p : MarketDataPublisher) (events : list ExchangeEvent)
    : MarketDataPublisher * list MarketData.Event :=
  match events with
  | [] => (p, [])
  | ev :: events =>
      let (p, m) := publish (clock O) p ev in
      let (p, ms) := publish_all (fun k => clock (S k)) p events in
      (p, match m with Some m => m :: ms | None => ms end)
  end.

(** ** The feed of the specification

    What the public events of the exchange say about the book, at the level
    of the two specifications: applied to a trader's priority lists, the
    events of one command turn a copy of the exchange's resting orders into a
    copy of its resting orders after the command.  A copy has the same orders
    with the same prices and quantities on each side; the order within a
    price may differ, because the trader re-queues a modified order. *)

Import OrderBook.

(** ** Events as operations on a trader's book *)
Definition feed_op (ev : ExchangeEvent) : option (InstrumentId * (SpecOrders -> SpecOrders * option BookError)) :=
  match ev with
  | EvBookOrderAdded e => Some (boa_instrument_id e,
      fun m => spec_add m (boa_exchange_order_id e) (boa_price e) (boa_quantity e) (boa_side e))
  | EvBookOrderReduced e => Some (bor_instrument_id e,
      fun m => spec_modify m (bor_exchange_order_id e) (bor_price e) (bor_new_remaining_quantity e))
  | EvBookOrderRemoved e => Some (bom_instrument_id e, fun m => spec_cancel_order m (bom_exchange_order_id e))
  | _ => None
  end.
Abbreviation Mirror := (gmap InstrumentId SpecOrders) (only parsing).
Definition mirror_book (M : Mirror) (i : InstrumentId) : SpecOrders := default so_empty (M !! i).
Definition feed_apply (M : Mirror) (ev : ExchangeEvent) : Mirror :=
  match feed_op ev with Some (i, f) => <[i := (f (mirror_book M i)).1]> M | None => M end.
Definition feed_clean (M : Mirror) (ev : ExchangeEvent) : Prop :=
  match feed_op ev with Some (i, f) => (f (mirror_book M i)).2 = None | None => True end.
Fixpoint stream_clean (M : Mirror) (evs : list ExchangeEvent) : Prop :=
  match evs with [] => True | ev :: evs => feed_clean M ev /\ stream_clean (feed_apply M ev) evs end.
Definition feed_run (M : Mirror) (evs : list ExchangeEvent) : Mirror := foldl feed_apply M evs.

Lemma stream_clean_app evs1 evs2 : forall M,
  stream_clean M (evs1 ++ evs2) <-> stream_clean M evs1 /\ stream_clean (feed_run M evs1) evs2.
Proof. induction evs1 as [|ev evs1 IH]; intros M; cbn; [tauto|]. rewrite IH. tauto. Qed.
Lemma feed_run_app evs1 evs2 M : feed_run M (evs1 ++ evs2) = feed_run (feed_run M evs1) evs2.
Proof. apply foldl_app. Qed.
Lemma mirror_book_insert M i m j : mirror_book (<[i := m]> M) j = if decide (j = i) then m else mirror_book M j.
Proof. unfold mirror_book. case_decide as H; [subst; by rewrite lookup_insert_eq|by rewrite lookup_insert_ne]. Qed.

(** ** Copies of one book *)
Definition ov_of (r : ExchangeRestingOrder) : OrderView :=
  {| ov_order_id := ero_exchange_order_id r; ov_price := ero_price r; ov_quantity := ero_remaining_quantity r |}.
Abbreviation xids l := (ero_exchange_order_id <$> l) (only parsing).
Definition copy (m : SpecOrders) (f : Side -> list ExchangeRestingOrder) : Prop :=
  forall s, so_side m s ≡ₚ ov_of <$> f s.
Definition distinct (f : Side -> list ExchangeRestingOrder) : Prop := NoDup (xids (f Buy ++ f Sell)).

Lemma distinct_side f s : distinct f -> NoDup (xids (f s ++ f (contra_side s))).
Proof.
  unfold distinct. rewrite !fmap_app. destruct s; [done|]. cbn [contra_side]. by rewrite Permutation_app_comm.
Qed.
Lemma distinct_perm f g : (forall s, f s ≡ₚ g s) -> distinct f -> distinct g.
Proof. intros H. unfold distinct. by rewrite (H Buy), (H Sell). Qed.
Lemma side_ids m f s id : copy m f -> id ∈ ov_order_id <$> so_side m s <-> id ∈ xids (f s).
Proof. intros Hm. rewrite (Hm s), <- list_fmap_compose. done. Qed.
Lemma so_find_side m id s : so_find m id = Some s -> id ∈ ov_order_id <$> so_side m s.
Proof. unfold so_find. repeat case_bool_decide; by intros [= <-]. Qed.
Lemma so_find_none m id : so_find m id = None <-> forall s, id ∉ ov_order_id <$> so_side m s.
Proof.
  unfold so_find. split.
  - repeat case_bool_decide; try done. intros _ s. by destruct s.
  - intros H. rewrite !bool_decide_false; [done|apply (H Sell)|apply (H Buy)].
Qed.

Section Copy.
Context (m : SpecOrders) (f : Side -> list ExchangeRestingOrder) (Hm : copy m f) (Hd : distinct f).

Lemma copy_find s r rest : f s ≡ₚ r :: rest -> so_find m (ero_exchange_order_id r) = Some s.
Proof.
  intros Hr. pose proof (distinct_side f s Hd) as Hn. rewrite Hr in Hn. cbn in Hn. apply NoDup_cons in Hn as [Hnin _].
  rewrite fmap_app, not_elem_of_app in Hnin.
  destruct (so_find m _) as [s'|] eqn:E.
  - apply so_find_side in E. rewrite (side_ids m f s') in E by done.
    destruct (decide (s' = s)) as [->|Hne]; [done|]. assert (s' = contra_side s) as -> by (destruct s, s'; done). tauto.
  - exfalso. apply (proj1 (so_find_none m _) E s). rewrite (side_ids m f s) by done. rewrite Hr. by left.
Qed.
Lemma copy_drop s r rest g : f s ≡ₚ r :: rest -> g s ≡ₚ rest -> g (contra_side s) ≡ₚ f (contra_side s) ->
  copy (so_drop m (ero_exchange_order_id r)) g.
Proof.
  intros Hr Hg Hc s'. pose proof (distinct_side f s Hd) as Hn. rewrite Hr in Hn. cbn in Hn. apply NoDup_cons in Hn as [Hnin _].
  rewrite fmap_app, not_elem_of_app in Hnin. destruct Hnin as [H1 H2].
  rewrite so_drop_side. destruct (decide (s' = s)) as [->|Hne].
  - rewrite Hg. unfold ov_drop. rewrite (Hm s), Hr, fmap_cons, filter_cons_False by (cbn; tauto).
    rewrite filter_all; [done|]. intros x (r' & -> & Hr')%list_elem_of_fmap He. apply H1. cbn in He. rewrite <- He. by apply list_elem_of_fmap_2.
  - assert (s' = contra_side s) as -> by (destruct s, s'; done). rewrite Hc, ov_drop_notin; [apply Hm|].
    by rewrite (side_ids m f) by done.
Qed.
Lemma copy_insert s r g : g s ≡ₚ r :: f s -> g (contra_side s) ≡ₚ f (contra_side s) ->
  copy (so_insert m s (ov_of r)) g.
Proof.
  intros Hr Hc s'. unfold so_insert. rewrite so_set_side. case_decide as Hs.
  - subst s'. by rewrite ov_insert_Permutation, Hr, fmap_cons, (Hm s).
  - assert (s' = contra_side s) as -> by (destruct s, s'; done). by rewrite Hc, (Hm (contra_side s)).
Qed.
Lemma copy_ext g : (forall s, g s ≡ₚ f s) -> copy m g.
Proof. intros H s. by rewrite (H s), (Hm s). Qed.
End Copy.

(** The three book events, each on a copy. *)
Lemma added_feed m f s r g : copy m f -> ero_exchange_order_id r ∉ xids (f Buy ++ f Sell) -> 0 < ero_price r ->
  ero_remaining_quantity r <> 0 -> g s ≡ₚ r :: f s -> g (contra_side s) ≡ₚ f (contra_side s) ->
  let out := spec_add m (ero_exchange_order_id r) (ero_price r) (ero_remaining_quantity r) s in
  out.2 = None /\ copy out.1 g.
Proof.
  intros Hm Hn Hp Hq Hg Hc. unfold spec_add. destruct (_ <=? 0) eqn:E1; [lia|]. destruct (_ =? 0) eqn:E2; [lia|].
  rewrite (proj2 (so_find_none m _)).
  - split; [done|]. by apply (copy_insert m f Hm s r g).
  - intros s'. rewrite (side_ids m f s') by done. rewrite fmap_app, not_elem_of_app in Hn. destruct s'; tauto.
Qed.
Lemma removed_feed m f s r rest g : copy m f -> distinct f -> f s ≡ₚ r :: rest -> g s ≡ₚ rest ->
  g (contra_side s) ≡ₚ f (contra_side s) ->
  let out := spec_cancel_order m (ero_exchange_order_id r) in out.2 = None /\ copy out.1 g.
Proof.
  intros Hm Hd Hr Hg Hc. unfold spec_cancel_order. rewrite (copy_find m f Hm Hd s r rest Hr). split; [done|].
  by apply (copy_drop m f Hm Hd s r rest).
Qed.
Lemma reduced_feed m f s r q rest r' g : copy m f -> distinct f -> f s ≡ₚ r :: rest -> 0 < ero_price r -> q <> 0 ->
  ov_of r' = {| ov_order_id := ero_exchange_order_id r; ov_price := ero_price r; ov_quantity := q |} ->
  g s ≡ₚ r' :: rest -> g (contra_side s) ≡ₚ f (contra_side s) ->
  let out := spec_modify m (ero_exchange_order_id r) (ero_price r) q in out.2 = None /\ copy out.1 g.
Proof.
  intros Hm Hd Hr Hp Hq Hov Hg Hc. unfold spec_modify. destruct (_ <=? 0) eqn:E1; [lia|]. destruct (_ =? 0) eqn:E2; [lia|].
  rewrite (copy_find m f Hm Hd s r rest Hr). split; [done|]. cbn [fst]. rewrite <- Hov.
  set (h := fun s' => if decide (s' = s) then rest else f s').
  assert (Hh : h s = rest) by (unfold h; by rewrite decide_True).
  assert (Hh' : h (contra_side s) = f (contra_side s)) by (unfold h; rewrite decide_False; [done|by destruct s]).
  apply (copy_insert _ h); [apply (copy_drop m f Hm Hd s r rest h); by rewrite ?Hh, ?Hh'|by rewrite Hh|by rewrite Hh'].
Qed.
