(* ===== verification/FeedCommands.v ===== *)
(** * The feed along one command

    [spec_process_feed]: the public events of a command keep a copy of the
    exchange's books a copy, and none of them is refused. *)
From S2P Require Import Prelude Types MatchingEngine EngineSpec EngineMatch EngineProcess EngineRefinement EngineFacts EngineTheorems LedgerSpec LedgerMatch TraderBook TraderBookSpec FeedPublisher.
Import OrderBook.

Definition mirrors (st : Spec) (M : Mirror) : Prop := forall i, copy (mirror_book M i) (sp_side st i).
Record feed_wf (st : Spec) (N : Z) : Prop := {
  fw_distinct : forall i, distinct (sp_side st i);
  fw_price : forall i s r, r ∈ sp_side st i s -> 0 < ero_price r;
  fw_below : forall i s r, r ∈ sp_side st i s -> ero_exchange_order_id r < N;
}.
Definition put (f : Side -> list ExchangeRestingOrder) (s : Side) (l : list ExchangeRestingOrder) (s' : Side)
    : list ExchangeRestingOrder := if decide (s' = s) then l else f s'.

Lemma put_eq f s l : put f s l s = l.
Proof. unfold put. by rewrite decide_True. Qed.
Lemma put_contra f s l : put f s l (contra_side s) = f (contra_side s).
Proof. unfold put. rewrite decide_False; [done|by destruct s]. Qed.
Lemma put_contra' f s l : put f (contra_side s) l s = f s.
Proof. unfold put. rewrite decide_False; [done|by destruct s]. Qed.
Lemma put_same f s l s' : f s = l -> put f s l s' = f s'.
Proof. intros <-. unfold put. case_decide as H; [by rewrite H|done]. Qed.
Lemma put_put f s l l' s' : put (put f s l) s l' s' = put f s l' s'.
Proof. unfold put. by case_decide. Qed.
Lemma distinct_sub f g : distinct f -> (forall s, xids (g s) `sublist_of` xids (f s)) -> distinct g.
Proof.
  unfold distinct. intros Hd Hs. eapply sublist_NoDup; [exact Hd|]. rewrite !fmap_app. by apply sublist_app.
Qed.

(** ** Matching *)
Section Fill.
Context (x : ExchangeRestingOrder) (cseq : CommandSequence).
Let i := ero_instrument_id x.
Let c := contra_side (ero_side x).

Lemma fill_feed l : forall rem seq M f,
  f c = l -> copy (mirror_book M i) f -> distinct f ->
  Forall (fun r => 0 < ero_price r /\ 0 < ero_remaining_quantity r) l -> 0 <= rem ->
  let '(fills, rem', l') := spec_fill (ero_side x) (ero_price x) rem l in
  let evs := fill_events x cseq rem fills seq in
  stream_clean M evs /\ copy (mirror_book (feed_run M evs) i) (put f c l') /\
  (forall j, j <> i -> mirror_book (feed_run M evs) j = mirror_book M j) /\
  xids l' `sublist_of` xids l /\ Forall (fun r => 0 < ero_price r) l'.
Proof.
  induction l as [|r l IH]; intros rem seq M f Hl Hm Hd Hg Hr; cbn [spec_fill].
  { split; [done|]. split; [|split; [done|split; [reflexivity|by apply Forall_nil]]]. apply (copy_ext _ f Hm). intros s. by rewrite (put_same _ _ _ _ Hl). }
  destruct (_ || _) eqn:Hstop.
  { split; [done|]. split; [|split; [done|split; [done|]]].
    - apply (copy_ext _ f Hm). intros s. by rewrite (put_same _ _ _ _ Hl).
    - eapply Forall_impl; [exact Hg|]. by intros ? [? _]. }
  apply Forall_cons in Hg as [[Hp Hq] Hg]. set (t := Z.min rem (ero_remaining_quantity r)).
  destruct (_ - t =? 0) eqn:Hfull.
  - assert (Hf1 : f c ≡ₚ r :: l) by (by rewrite Hl).
    destruct (removed_feed (mirror_book M i) f c r l (put f c l) Hm Hd Hf1) as [Hc Hm1]; [by rewrite put_eq|by rewrite put_contra|].
    set (ev := book_removed i (book_order_of r) (u64 (seq + 1))).
    set (tr := trade_event x (book_order_of r) cseq t (rem - t) (ero_remaining_quantity r - t) seq).
    assert (Hev : feed_op ev = Some (i, fun m => spec_cancel_order m (ero_exchange_order_id r))) by done.
    assert (Hd1 : distinct (put f c l)).
    { apply (distinct_sub f); [done|]. intros s. unfold put. case_decide; [subst s; rewrite Hl; cbn; by constructor|done]. }
    specialize (IH (rem - t) (u64 (seq + 2)) (feed_apply M ev) (put f c l) (put_eq _ _ _)).
    destruct (spec_fill _ _ (rem - t) l) as [[fills rem'] l']. cbn [fill_events]. fold tr i. rewrite Hfull. fold ev.
    unfold feed_run in IH |- *. cbn [stream_clean foldl]. change (feed_apply M tr) with M.
    assert (Hb : forall j, mirror_book (feed_apply M ev) j =
      if decide (j = i) then (spec_cancel_order (mirror_book M i) (ero_exchange_order_id r)).1 else mirror_book M j).
    { intros j. unfold feed_apply. rewrite Hev. apply mirror_book_insert. }
    destruct IH as (I1 & I2 & I3 & I4 & I5); [by rewrite Hb, decide_True|done|done|unfold t; lia|].
    split; [split; [done|]; split; [|exact I1]|].
    + unfold feed_clean. rewrite Hev. exact Hc.
    + split; [|split; [|split; [|done]]].
      * eapply copy_ext; [exact I2|]. intros s. by rewrite put_put.
      * intros j Hj. rewrite (I3 j Hj), Hb. by rewrite decide_False.
      * cbn. by constructor.
  - cbn [fill_events]. fold t. rewrite Hfull. fold i.
    set (ev := book_reduced i (book_order_of r) (ero_remaining_quantity r - t) (u64 (seq + 1))).
    set (tr := trade_event x (book_order_of r) cseq t (rem - t) (ero_remaining_quantity r - t) seq).
    set (r' := ero_set_remaining r (ero_remaining_quantity r - t)).
    assert (Hf1 : f c ≡ₚ r :: l) by (by rewrite Hl).
    destruct (reduced_feed (mirror_book M i) f c r (ero_remaining_quantity r - t) l r' (put f c (r' :: l)) Hm Hd Hf1 Hp)
      as [Hc Hm1]; [lia|done|by rewrite put_eq|by rewrite put_contra|].
    assert (Hev : feed_op ev = Some (i, fun m => spec_modify m (ero_exchange_order_id r) (ero_price r) (ero_remaining_quantity r - t))) by done.
    assert (Hb : forall j, mirror_book (feed_apply M ev) j =
      if decide (j = i) then (spec_modify (mirror_book M i) (ero_exchange_order_id r) (ero_price r) (ero_remaining_quantity r - t)).1
      else mirror_book M j).
    { intros j. unfold feed_apply. rewrite Hev. apply mirror_book_insert. }
    unfold feed_run. cbn [stream_clean foldl]. change (feed_apply M tr) with M.
    split; [split; [done|]; split; [|done]|].
    + unfold feed_clean. rewrite Hev. exact Hc.
    + split; [by rewrite Hb, decide_True|]. split; [intros j Hj; by rewrite Hb, decide_False|]. split; [done|].
      constructor; [done|]. eapply Forall_impl; [exact Hg|]. by intros ? [? _].
Qed.
End Fill.

(** ** A change to one book *)
Definition changed (st st' : Spec) (i : InstrumentId) (g : Side -> list ExchangeRestingOrder) : Prop :=
  (forall s, sp_side st' i s = g s) /\ (forall j s, j <> i -> sp_side st' j s = sp_side st j s).

Lemma changed_set st i s l st' : is_Some (sp_books st !! i) -> sp_books st' = sp_books (sp_set_side st i s l) ->
  changed st st' i (put (sp_side st i) s l).
Proof.
  intros Hk Hb. assert (Hs : forall j s', sp_side st' j s' = sp_side (sp_set_side st i s l) j s') by (intros; unfold sp_side; by rewrite Hb).
  split; [intros s'|intros j s' Hj]; rewrite Hs.
  - unfold put. case_decide as H; [subst; by rewrite sp_side_set_eq|]. apply sp_side_set_other. by right.
  - apply sp_side_set_other. by left.
Qed.
Lemma changed_mirrors st st' i g M M' : changed st st' i g -> mirrors st M -> copy (mirror_book M' i) g ->
  (forall j, j <> i -> mirror_book M' j = mirror_book M j) -> mirrors st' M'.
Proof.
  intros [H1 H2] Hm Hc Ho j. destruct (decide (j = i)) as [->|Hj].
  - apply (copy_ext _ g Hc). intros s. by rewrite H1.
  - rewrite (Ho j Hj). apply (copy_ext _ _ (Hm j)). intros s. by rewrite H2.
Qed.
Lemma changed_wf st st' i g N N' : changed st st' i g -> feed_wf st N -> N <= N' -> distinct g ->
  (forall s r, r ∈ g s -> 0 < ero_price r /\ ero_exchange_order_id r < N') -> feed_wf st' N'.
Proof.
  intros [H1 H2] [W1 W2 W3] HN Hd Hg. split.
  - intros j. destruct (decide (j = i)) as [->|Hj].
    + apply (distinct_perm g); [|done]. intros s. by rewrite H1.
    + apply (distinct_perm (sp_side st j)); [|done]. intros s. by rewrite H2.
  - intros j s r. destruct (decide (j = i)) as [->|Hj]; [rewrite H1; apply Hg|rewrite H2 by done; apply W2].
  - intros j s r. destruct (decide (j = i)) as [->|Hj]; [rewrite H1; apply Hg|rewrite H2 by done].
    intros Hr. pose proof (W3 j s r Hr). lia.
Qed.
Lemma same_books_wf st st' N N' : sp_books st' = sp_books st -> N <= N' -> feed_wf st N -> feed_wf st' N'.
Proof.
  intros Hb HN [W1 W2 W3]. unfold sp_side in *. split; intros i; unfold sp_side; rewrite Hb; [apply W1|apply W2|].
  intros s r Hr. pose proof (W3 i s r Hr). lia.
Qed.
Lemma same_books_mirrors st st' M : sp_books st' = sp_books st -> mirrors st M -> mirrors st' M.
Proof. intros Hb H i. unfold sp_side. rewrite Hb. apply H. Qed.

Lemma put_sub f s l : xids l `sublist_of` xids (f s) -> forall s', xids (put f s l s') `sublist_of` xids (f s').
Proof. intros H s'. unfold put. case_decide as E; [by rewrite E|reflexivity]. Qed.
Lemma below_sub (f g : Side -> list ExchangeRestingOrder) N : (forall s r, r ∈ f s -> ero_exchange_order_id r < N) -> (forall s, xids (g s) `sublist_of` xids (f s)) ->
  forall s r, r ∈ g s -> ero_exchange_order_id r < N.
Proof.
  intros Hf Hs s r Hr. assert (Hin : ero_exchange_order_id r ∈ xids (f s)).
  { eapply elem_of_sublist; [|apply Hs]. by apply list_elem_of_fmap_2. }
  apply list_elem_of_fmap in Hin as (r' & -> & Hr'). by apply (Hf s).
Qed.
Lemma fresh_id (f : Side -> list ExchangeRestingOrder) N : (forall s r, r ∈ f s -> ero_exchange_order_id r < N) -> N ∉ xids (f Buy ++ f Sell).
Proof.
  intros Hf. rewrite fmap_app, not_elem_of_app.
  split; intros (r & Hr & Hin)%list_elem_of_fmap; pose proof (Hf _ _ Hin); lia.
Qed.
Lemma distinct_cons f g s r : distinct f -> ero_exchange_order_id r ∉ xids (f Buy ++ f Sell) ->
  g s ≡ₚ r :: f s -> g (contra_side s) ≡ₚ f (contra_side s) -> distinct g.
Proof.
  intros Hd Hn Hg Hc.
  assert (Hp : g Buy ++ g Sell ≡ₚ r :: (f Buy ++ f Sell)).
  { destruct s; cbn [contra_side] in *; rewrite Hg, Hc; [done|]. symmetry. apply Permutation_middle. }
  unfold distinct. rewrite Hp. cbn. by constructor.
Qed.

(** ** Match, then rest *)
Section Meet.
Context (st : Spec) (N : Z) (M : Mirror) (Ws : spec_wf st) (Wf : feed_wf st N) (Hm : mirrors st M)
  (x : ExchangeRestingOrder) (cseq : CommandSequence).
Let i := ero_instrument_id x.
Let s := ero_side x.
Context (Hk : is_Some (sp_books st !! i)) (Hp : 0 < ero_price x) (Hq : 0 <= ero_remaining_quantity x)
  (Hx : ero_exchange_order_id x = N).

Lemma rest_feed st1 M1 rem : feed_wf st1 N -> mirrors st1 M1 -> is_Some (sp_books st1 !! i) ->
  let '(st', evs) := spec_rest st1 (ero_set_remaining x rem) in
  stream_clean M1 evs /\ mirrors st' (feed_run M1 evs) /\ feed_wf st' (N + 1).
Proof.
  intros W1 Hm1 Hk1. unfold spec_rest. destruct (_ || _) eqn:E.
  { split; [done|]. split; [done|]. apply (same_books_wf st1 _ N); [done|lia|done]. }
  apply orb_false_iff in E as [_ Hrem%Z.eqb_neq]. cbn [ero_set_remaining ero_remaining_quantity] in Hrem.
  set (y := ero_set_remaining x rem). change (ero_instrument_id y) with i. change (ero_side y) with s.
  pose proof (fresh_id (sp_side st1 i) N (fw_below _ _ W1 i)) as Hfresh. rewrite <- Hx in Hfresh.
  set (g := put (sp_side st1 i) s (spec_insert s y (sp_side st1 i s))).
  assert (Hg : g s ≡ₚ y :: sp_side st1 i s).
  { unfold g. rewrite put_eq. generalize (sp_side st1 i s). intros l. induction l as [|z l IH]; cbn; [done|].
    destruct (better_eq _ _ _); [|done]. rewrite IH. apply Permutation_swap. }
  assert (Hgc : g (contra_side s) ≡ₚ sp_side st1 i (contra_side s)) by (unfold g; by rewrite put_contra).
  destruct (added_feed (mirror_book M1 i) (sp_side st1 i) s y g (Hm1 i) Hfresh Hp Hrem Hg Hgc) as [Hc Hm2].
  assert (Hch : changed st1 (sp_bump_seq (sp_set_side st1 i s (spec_insert s y (sp_side st1 i s)))) i g) by by apply changed_set.
  split; [split; [exact Hc|done]|]. split.
  - eapply (changed_mirrors st1); [exact Hch|exact Hm1|..]; cbn [feed_run foldl]; unfold feed_apply; cbn [feed_op boa_instrument_id].
    + fold i. rewrite mirror_book_insert, decide_True by done. exact Hm2.
    + fold i. intros j Hj. by rewrite mirror_book_insert, decide_False.
  - eapply (changed_wf st1); [exact Hch|exact W1|lia|by apply (distinct_cons _ _ s y (fw_distinct _ _ W1 i))|].
    intros s' r Hr. assert (Hr' : r = y \/ r ∈ sp_side st1 i s').
    { destruct (decide (s' = s)) as [->|Hne]; [rewrite Hg in Hr; by apply elem_of_cons in Hr|].
      assert (s' = contra_side s) as -> by (destruct s, s'; done). rewrite Hgc in Hr. by right. }
    destruct Hr' as [->|Hr']; [split; [done|cbn; lia]|]. split; [by apply (fw_price _ _ W1 i s')|].
    pose proof (fw_below _ _ W1 i s' r Hr'). lia.
Qed.
Lemma meet_feed : let '(st', evs) := spec_match_then_rest st x cseq in
  stream_clean M evs /\ mirrors st' (feed_run M evs) /\ feed_wf st' (N + 1).
Proof.
  unfold spec_match_then_rest, spec_match. fold i s. set (c := contra_side s).
  assert (Hgood : Forall (fun r => 0 < ero_price r /\ 0 < ero_remaining_quantity r) (sp_side st i c)).
  { apply Forall_forall. intros r Hr. split; [by apply (fw_price _ _ Wf i c)|by apply (wf_place _ Ws i c)]. }
  pose proof (fill_feed x cseq (sp_side st i c) (ero_remaining_quantity x) (sp_next_event_sequence st) M (sp_side st i)
    eq_refl (Hm i) (fw_distinct _ _ Wf i) Hgood Hq) as Hfill. fold s in Hfill.
  destruct (spec_fill _ _ _ _) as [[fills rem'] l']. cbv zeta in Hfill.
  destruct Hfill as (F1 & F2 & F3 & F4 & F5). fold s c in F2. fold i in F2, F3.
  set (fe := fill_events _ _ _ _ _) in *. set (st1 := sp_set_counters _ _ _ _).
  assert (Hch : changed st st1 i (put (sp_side st i) c l')) by by apply changed_set.
  assert (Hsub := put_sub (sp_side st i) c l' F4).
  pose proof (rest_feed st1 (feed_run M fe) rem') as Hrest.
  destruct (spec_rest st1 _) as [st2 rested]. destruct Hrest as (R1 & R2 & R3).
  - eapply (changed_wf st); [exact Hch|exact Wf|lia|by apply (distinct_sub _ _ (fw_distinct _ _ Wf i))|].
    intros s' r Hr. split; [|by apply (below_sub (sp_side st i) _ N (fw_below _ _ Wf i) Hsub s')].
    unfold put in Hr. case_decide; [|by apply (fw_price _ _ Wf i s')]. rewrite Forall_forall in F5. auto.
  - by eapply (changed_mirrors st); [exact Hch|..].
  - by apply known_set_side.
  - split; [|split; [|done]]; [by apply stream_clean_app|by rewrite feed_run_app].
Qed.
End Meet.

Lemma meet_xid st x cseq : sp_next_exchange_order_id (spec_match_then_rest st x cseq).1 = sp_next_exchange_order_id st.
Proof.
  unfold spec_match_then_rest, spec_match. destruct (spec_fill _ _ _ _) as [[fills rem] l]. unfold spec_rest.
  by destruct (_ || _).
Qed.
Lemma drop_key_perm l r : NoDup (ero_key <$> l) -> r ∈ l -> l ≡ₚ r :: drop_key (ero_key r) l.
Proof.
  unfold drop_key. induction l as [|y l IH]; [set_solver|]. rewrite fmap_cons, NoDup_cons. intros [Hn Hd] Hin.
  rewrite filter_cons. destruct (decide (ero_key y = ero_key r)) as [He|Hne].
  - rewrite decide_False by tauto. apply elem_of_cons in Hin as [->|Hin].
    + rewrite filter_all; [done|]. intros z Hz Hk. apply Hn. rewrite <- Hk. by apply list_elem_of_fmap_2.
    + destruct Hn. rewrite He. by apply list_elem_of_fmap_2.
  - rewrite decide_True by done. apply elem_of_cons in Hin as [->|Hin]; [done|].
    rewrite (IH Hd Hin) at 1. apply Permutation_swap.
Qed.
Lemma amend_key_perm l r c q : NoDup (ero_key <$> l) -> r ∈ l ->
  amend_key (ero_key r) c q l ≡ₚ ero_amend c q r :: drop_key (ero_key r) l.
Proof.
  intros Hd Hin. unfold amend_key. rewrite (drop_key_perm l r Hd Hin) at 1. rewrite fmap_cons, decide_True by done.
  constructor. rewrite <- (list_fmap_id (drop_key _ l)) at 2. apply Permutation_refl', list_fmap_ext. intros i y Hy.
  apply list_elem_of_lookup_2 in Hy. unfold drop_key in Hy. apply list_elem_of_filter in Hy as [Hy _]. by rewrite decide_False.
Qed.

(** ** Commands *)
Section Commands.
Context (st : Spec) (M : Mirror) (Ws : spec_wf st).
Let N := sp_next_exchange_order_id st.
Context (Wf : feed_wf st N) (Hm : mirrors st M) (HN : 0 <= N < two64 - 1).

Definition fed (out : Spec * list ExchangeEvent) : Prop :=
  stream_clean M out.2 /\ mirrors out.1 (feed_run M out.2) /\
  feed_wf out.1 (sp_next_exchange_order_id out.1) /\ N <= sp_next_exchange_order_id out.1 <= N + 1.

Lemma reject_fed cseq a c i reason : fed (spec_reject st (rejected cseq a c i reason)).
Proof.
  split; [done|]. split; [done|]. split; [by apply (same_books_wf st _ N)|]. cbn. fold N. lia.
Qed.

Lemma new_order_fed cmd : 0 <= noc_quantity cmd -> fed (spec_new_order st cmd).
Proof.
  intros Hq. unfold spec_new_order. destruct (bool_decide (is_Some _)) eqn:Hk; cbn [negb]; [|apply reject_fed].
  apply bool_decide_eq_true in Hk.
  destruct (noc_price cmd <=? 0) eqn:Hp; [apply reject_fed|]. destruct (noc_quantity cmd =? 0) eqn:Hz; [apply reject_fed|].
  destruct (key_live st _); [apply reject_fed|]. destruct (_ && _); [apply reject_fed|]. cbv zeta.
  set (x := {| ero_exchange_order_id := _ |}). set (st0 := sp_bump_seq _).
  pose proof (meet_feed st0 N M (spec_wf_books st st0 eq_refl Ws) (same_books_wf st st0 N N eq_refl ltac:(lia) Wf)
    (same_books_mirrors st st0 M eq_refl Hm) x (noc_command_sequence cmd) Hk ltac:(cbn; lia) ltac:(cbn; lia) eq_refl) as Hmeet.
  pose proof (meet_xid st0 x (noc_command_sequence cmd)) as Hx.
  destruct (spec_match_then_rest _ _ _) as [st' evs]. cbn [fst] in Hx. unfold fed. cbn [fst snd]. rewrite Hx.
  assert (sp_next_exchange_order_id st0 = N + 1) as -> by (unfold st0; cbn; fold N; apply u64_small; lia).
  destruct Hmeet as (H1 & H2 & H3). split; [by split|]. split; [exact H2|]. split; [exact H3|lia].
Qed.

(** The book after removing a live order. *)
Section Removed.
Context (r : ExchangeRestingOrder) (i : InstrumentId) (Hr : live st r) (Hi : ero_instrument_id r = i)
  (Hk : is_Some (sp_books st !! i)).
Let s := ero_side r.
Let rest := drop_key (ero_key r) (sp_side st i s).

Lemma removed_perm : sp_side st i s ≡ₚ r :: rest.
Proof. apply drop_key_perm; [apply (wf_NoDup _ Ws)|]. unfold live in Hr. by rewrite Hi in Hr. Qed.
Lemma removed_step seq st' : sp_books st' = sp_books (spec_drop st r i) -> 
  feed_clean M (book_removed i (book_order_of r) seq) /\
  mirrors st' (feed_apply M (book_removed i (book_order_of r) seq)) /\ feed_wf st' N.
Proof.
  intros Hb. set (g := put (sp_side st i) s rest).
  assert (Hg : g s ≡ₚ rest) by (unfold g; by rewrite put_eq).
  assert (Hgc : g (contra_side s) ≡ₚ sp_side st i (contra_side s)) by (unfold g; by rewrite put_contra).
  destruct (removed_feed (mirror_book M i) (sp_side st i) s r rest g (Hm i) (fw_distinct _ _ Wf i) removed_perm Hg Hgc) as [Hc Hm1].
  assert (Hch : changed st st' i g) by by apply changed_set.
  assert (Hsub : forall s', xids (g s') `sublist_of` xids (sp_side st i s')).
  { apply put_sub, fmap_sublist. unfold rest, drop_key. apply sublist_filter. }
  split; [exact Hc|]. split.
  - eapply (changed_mirrors st); [exact Hch|exact Hm|..]; unfold feed_apply; cbn [feed_op book_removed bom_instrument_id].
    + rewrite mirror_book_insert, decide_True by done. exact Hm1.
    + intros j Hj. by rewrite mirror_book_insert, decide_False.
  - eapply (changed_wf st); [exact Hch|exact Wf|lia|by apply (distinct_sub _ _ (fw_distinct _ _ Wf i))|].
    intros s' r' Hr'. split; [|by apply (below_sub (sp_side st i) g N (fw_below _ _ Wf i) Hsub s')].
    apply (fw_price _ _ Wf i s'). unfold g, put in Hr'. case_decide as E; [|done]. subst s'.
    unfold rest, drop_key in Hr'. by apply list_elem_of_filter in Hr' as [_ Hr'].
Qed.
Lemma amended_step c q seq st' : q <> 0 ->
  sp_books st' = sp_books (sp_set_side st i s (amend_key (ero_key r) c q (sp_side st i s))) ->
  feed_clean M (book_reduced i (book_order_of r) q seq) /\
  mirrors st' (feed_apply M (book_reduced i (book_order_of r) q seq)) /\ feed_wf st' N.
Proof.
  intros Hq Hb. set (g := put (sp_side st i) s (amend_key (ero_key r) c q (sp_side st i s))).
  assert (Hin : r ∈ sp_side st i s) by (unfold live in Hr; by rewrite Hi in Hr).
  assert (Hg : g s ≡ₚ ero_amend c q r :: rest).
  { unfold g. rewrite put_eq. apply amend_key_perm; [apply (wf_NoDup _ Ws)|done]. }
  assert (Hgc : g (contra_side s) ≡ₚ sp_side st i (contra_side s)) by (unfold g; by rewrite put_contra).
  destruct (reduced_feed (mirror_book M i) (sp_side st i) s r q rest (ero_amend c q r) g (Hm i) (fw_distinct _ _ Wf i)
    removed_perm (fw_price _ _ Wf i s r Hin) Hq eq_refl Hg Hgc) as [Hc Hm1].
  assert (Hch : changed st st' i g) by by apply changed_set.
  split; [exact Hc|]. split.
  - eapply (changed_mirrors st); [exact Hch|exact Hm|..]; unfold feed_apply; cbn [feed_op book_reduced bor_instrument_id].
    + rewrite mirror_book_insert, decide_True by done. exact Hm1.
    + intros j Hj. by rewrite mirror_book_insert, decide_False.
  - assert (Hx : forall s', xids (g s') = xids (sp_side st i s') /\ (ero_price <$> g s') = (ero_price <$> sp_side st i s')).
    { intros s'. unfold g, put. case_decide as E; [subst s'|done]. unfold amend_key. rewrite <- !list_fmap_compose.
      split; apply list_fmap_ext; intros ? y _; cbn; by case_decide. }
    assert (Hsub : forall s', xids (g s') `sublist_of` xids (sp_side st i s')) by (intros s'; by rewrite (proj1 (Hx s'))).
    eapply (changed_wf st); [exact Hch|exact Wf|lia|by apply (distinct_sub _ _ (fw_distinct _ _ Wf i))|].
    intros s' r' Hr'. split; [|by apply (below_sub (sp_side st i) g N (fw_below _ _ Wf i) Hsub s')].
    apply (list_elem_of_fmap_2 ero_price) in Hr'. rewrite (proj2 (Hx s')) in Hr'.
    apply list_elem_of_fmap in Hr' as (r0 & -> & Hr0). by apply (fw_price _ _ Wf i s').
Qed.
End Removed.

Lemma cancel_fed cmd : fed (spec_cancel st cmd).
Proof.
  unfold spec_cancel. destruct (bool_decide _) eqn:Hk; cbn [negb]; [|apply reject_fed].
  destruct (find_order _ _ _) as [r|] eqn:Hf; [|apply reject_fed].
  destruct (find_order_live st Ws _ _ _ Hf) as (Hr & Hi & _ & Hkn).
  destruct (removed_step r _ Hr Hi Hkn (u64 (sp_next_event_sequence st + 1))
    (sp_bump_seq (sp_bump_seq (spec_drop st r (coc_instrument_id cmd)))) eq_refl) as (H1 & H2 & H3).
  split; [by repeat split|]. split; [exact H2|].
  split; [by apply (same_books_wf (sp_bump_seq (sp_bump_seq (spec_drop st r (coc_instrument_id cmd)))) _ N)|]. cbn. fold N. lia.
Qed.
Lemma replace_fed cmd : 0 <= roc_new_quantity cmd -> fed (spec_replace st cmd).
Proof.
  intros Hq. unfold spec_replace. destruct (bool_decide _) eqn:Hk; cbn [negb]; [|apply reject_fed].
  destruct (_ || _) eqn:Hbad; [apply reject_fed|]. apply orb_false_iff in Hbad as [Hp0 Hq0].
  destruct (find_order _ _ _) as [r|] eqn:Hf; [|apply reject_fed].
  destruct (find_order_live st Ws _ _ _ Hf) as (Hr & Hi & Hkey & Hkn). destruct (_ && _) eqn:Hin.
  - rewrite <- Hkey. set (st' := sp_bump_seq _).
    destruct (amended_step r _ Hr Hi Hkn (roc_new_client_order_id cmd) (roc_new_quantity cmd) (u64 (sp_next_event_sequence st + 1))
      st' ltac:(lia) eq_refl) as (H1 & H2 & H3).
    split; [by repeat split|]. split; [exact H2|]. split; [exact H3|]. cbn. fold N. lia.
  - cbv zeta. set (st0 := sp_bump_prio _). set (x := {| ero_exchange_order_id := _ |}).
    set (ev := book_removed _ _ _).
    destruct (removed_step r _ Hr Hi Hkn (u64 (sp_next_event_sequence st + 1)) st0 eq_refl) as (H1 & H2 & H3). fold ev in H1, H2.
    pose proof (meet_feed st0 N (feed_apply M ev) (spec_wf_books (spec_drop st r (roc_instrument_id cmd)) st0 eq_refl
      (drop_wf st Ws r _ Hkn)) H3 H2 x (roc_command_sequence cmd) (known_set_side _ _ _ _ Hkn) ltac:(cbn; lia) Hq eq_refl) as Hmeet.
    pose proof (meet_xid st0 x (roc_command_sequence cmd)) as Hx.
    destruct (spec_match_then_rest _ _ _) as [st' evs]. cbn [fst] in Hx. unfold fed. cbn [fst snd]. rewrite Hx.
    assert (sp_next_exchange_order_id st0 = N + 1) as -> by (unfold st0; cbn; fold N; apply u64_small; lia).
    destruct Hmeet as (F1 & F2 & F3). split; [cbn; by repeat split|]. split; [exact F2|]. split; [exact F3|lia].
Qed.
Lemma spec_process_feed c : command_ok st c -> fed (spec_process st c).
Proof.
  intros Hc. destruct c; cbn in Hc |- *; [apply new_order_fed; lia|apply cancel_fed|apply replace_fed; lia].
Qed.
End Commands.
