(* ===== verification/FeedHistory.v ===== *)
(** * Wire ranges of the public events

    The fields of every public event of the specification fit the wire: the
    prices, quantities and ids of resting orders stay in the ranges their
    commands brought. *)
From S2P Require Import Prelude Types PriceQueues MatchingBook BookReads BookSpec MatchingEngine EngineSpec EngineWf EngineRefine EngineMatch EngineProcess EngineRefinement EngineFacts EngineTheorems LedgerSpec LedgerMatch ByteIO CommandCodec MarketDataCodec TraderBook TraderBookSpec SequenceValidator TraderBooks FeedReplay FeedPublisher FeedCommands.
From Stdlib Require Import String.

Definition fits (r : ExchangeRestingOrder) : Prop :=
  u64_ok (ero_exchange_order_id r) /\ s64_ok (ero_price r) /\ u64_ok (ero_remaining_quantity r) /\
  u64_ok (ero_account_id r) /\ u64_ok (ero_client_order_id r).
Definition all_fit (st : Spec) : Prop := forall i s, Forall fits (sp_side st i s).
Definition leg_ok (leg : TradeCounterparty) : Prop :=
  u64_ok (tcp_account_id leg) /\ u64_ok (tcp_client_order_id leg) /\ u64_ok (tcp_exchange_order_id leg) /\
  u64_ok (tcp_remaining_quantity leg).
Definition wire_ok (ev : ExchangeEvent) : Prop :=
  match ev with
  | EvOrderAccepted e => u64_ok (oa_account_id e) /\ u64_ok (oa_client_order_id e) /\ u64_ok (oa_exchange_order_id e) /\
                         u32_ok (oa_instrument_id e) /\ s64_ok (oa_price e) /\ u64_ok (oa_quantity e)
  | EvOrderRejected e => u64_ok (orj_account_id e) /\ u64_ok (orj_client_order_id e) /\ u32_ok (orj_instrument_id e)
  | EvOrderCancelled e => u64_ok (ocn_account_id e) /\ u64_ok (ocn_client_order_id e) /\ u64_ok (ocn_exchange_order_id e) /\
                          u32_ok (ocn_instrument_id e)
  | EvOrderReplaced e => u64_ok (orp_account_id e) /\ u64_ok (orp_original_client_order_id e) /\
                         u64_ok (orp_new_client_order_id e) /\ u64_ok (orp_exchange_order_id e) /\
                         u32_ok (orp_instrument_id e) /\ s64_ok (orp_new_price e) /\ u64_ok (orp_new_quantity e)
  | EvBookOrderAdded e => u64_ok (boa_exchange_order_id e) /\ u32_ok (boa_instrument_id e) /\ s64_ok (boa_price e) /\
                          u64_ok (boa_quantity e)
  | EvBookOrderReduced e => u64_ok (bor_exchange_order_id e) /\ u32_ok (bor_instrument_id e) /\ s64_ok (bor_price e) /\
                            u64_ok (bor_new_remaining_quantity e)
  | EvBookOrderRemoved e => u64_ok (bom_exchange_order_id e) /\ u32_ok (bom_instrument_id e)
  | EvTradeExecuted e => u32_ok (te_instrument_id e) /\ s64_ok (te_price e) /\ u64_ok (te_quantity e) /\
                         leg_ok (te_buyer e) /\ leg_ok (te_seller e)
  end.

(** Goals and facts that are only ranges. *)
Ltac ranges := unfold fits in *; cbn in *; unfold leg_ok in *; cbn in *; unfold u64_ok, s64_ok, u32_ok in *; cbn in *; lia.

Lemma all_fit_books st st' : sp_books st' = sp_books st -> all_fit st -> all_fit st'.
Proof. intros Hb H i s. unfold sp_side. rewrite Hb. apply H. Qed.
Lemma all_fit_set st i s l : all_fit st -> Forall fits l -> all_fit (sp_set_side st i s l).
Proof.
  intros H Hl j s'. destruct (decide (j = i /\ s' = s)) as [[-> ->]|Hne].
  - unfold sp_side. cbn. rewrite lookup_alter_eq. destruct (sp_books st !! i) as [sb|]; cbn; [by destruct s|constructor].
  - rewrite sp_side_set_other; [apply H|]. destruct (decide (j = i)); [right|left]; tauto.
Qed.
Lemma insert_fits s x l : fits x -> Forall fits l -> Forall fits (spec_insert s x l).
Proof.
  intros Hx. induction 1 as [|y l Hy Hl IH]; cbn; [by constructor|]. destruct (better_eq _ _ _); auto.
Qed.

(** ** Matching *)
Fixpoint fills_fit (rem : Quantity) (fills : list (ExchangeRestingOrder * Quantity)) : Prop :=
  match fills with
  | [] => True
  | (r, t) :: fills => fits r /\ 0 <= t <= ero_remaining_quantity r /\ t <= rem /\ fills_fit (rem - t) fills
  end.
Lemma fill_fits side price l : forall rem, Forall fits l -> u64_ok rem ->
  let '(fills, rem', l') := spec_fill side price rem l in fills_fit rem fills /\ u64_ok rem' /\ Forall fits l'.
Proof.
  unfold u64_ok. induction l as [|r l IH]; intros rem Hl Hr; cbn [spec_fill]; [done|].
  destruct (_ || _); [done|]. apply Forall_cons in Hl as [Hf Hl]. pose proof Hf as (? & ? & ? & ? & ?). unfold u64_ok in *.
  set (t := Z.min rem (ero_remaining_quantity r)). assert (0 <= t <= ero_remaining_quantity r /\ t <= rem) by (unfold t; lia).
  destruct (_ - t =? 0).
  - specialize (IH (rem - t) Hl). destruct (spec_fill _ _ _ l) as [[fills rem'] l']. destruct IH as (I1 & I2 & I3); [lia|].
    split; [|done]. cbn [fills_fit]. split_and!; [done|lia|lia|lia|done].
  - split; [cbn [fills_fit]; split_and!; (done || lia)|]. split; [lia|]. constructor; [|done]. ranges.
Qed.
Lemma fill_events_ok x cseq fills : fits x -> u32_ok (ero_instrument_id x) -> forall rem seq, u64_ok rem ->
  fills_fit rem fills -> Forall wire_ok (fill_events x cseq rem fills seq).
Proof.
  intros Hx Hi. induction fills as [|[r t] fills IH]; intros rem seq Hr Hf; [constructor|].
  cbn [fills_fit] in Hf. destruct Hf as (Hf & Ht & Htr & Hfs). cbn [fill_events]. unfold u64_ok in Hr.
  constructor; [|constructor; [|apply IH; [unfold u64_ok; lia|done]]]; [unfold trade_event; cbn; destruct (ero_side x); ranges|].
  destruct (_ =? 0); ranges.
Qed.
Definition fit_out (out : Spec * list ExchangeEvent) : Prop := all_fit out.1 /\ Forall wire_ok out.2.
Lemma meet_fits st x cseq : all_fit st -> fits x -> u32_ok (ero_instrument_id x) -> fit_out (spec_match_then_rest st x cseq).
Proof.
  intros Ha Hx Hi. unfold spec_match_then_rest, spec_match.
  pose proof (fill_fits (ero_side x) (ero_price x) (sp_side st (ero_instrument_id x) (contra_side (ero_side x)))
    (ero_remaining_quantity x) (Ha _ _) ltac:(apply Hx)) as Hfill.
  destruct (spec_fill _ _ _ _) as [[fills rem] l]. destruct Hfill as (F1 & F2 & F3).
  set (st1 := sp_set_counters _ _ _ _).
  assert (Hst1 : all_fit st1).
  { apply (all_fit_books (sp_set_side st (ero_instrument_id x) (contra_side (ero_side x)) l)); [done|]. by apply all_fit_set. }
  set (y := ero_set_remaining x rem). assert (Hy : fits y) by (unfold y; ranges).
  assert (Hrest : fit_out (spec_rest st1 y)).
  { unfold spec_rest. destruct (_ || _); [by split|]. split; cbn [fst snd].
    - apply (all_fit_books (sp_set_side st1 (ero_instrument_id y) (ero_side y)
        (spec_insert (ero_side y) y (sp_side st1 (ero_instrument_id y) (ero_side y))))); [done|].
      apply all_fit_set; [done|]. apply insert_fits; [done|apply Hst1].
    - apply list.Forall_singleton. unfold y in *. ranges. }
  destruct (spec_rest st1 y) as [st2 rested]. destruct Hrest as [H1 H2]. split; [exact H1|].
  apply Forall_app. split; [apply fill_events_ok; [done|done|apply Hx|done]|exact H2].
Qed.

(** ** Commands *)
Section Commands.
Context (st : Spec) (Ws : spec_wf st) (Ha : all_fit st) (HN : 0 <= sp_next_exchange_order_id st < two64).

Lemma reject_fits cseq a c i reason : u64_ok a -> u64_ok c -> u32_ok i -> fit_out (spec_reject st (rejected cseq a c i reason)).
Proof using Ha. intros. split; [by apply (all_fit_books st)|by apply list.Forall_singleton]. Qed.
Lemma new_order_fits cmd : command_wf (CmdNewOrder cmd) -> fit_out (spec_new_order st cmd).
Proof using Ha HN.
  intros (_ & Hac & Hcl & Hi & Hp & Hq). unfold spec_new_order.
  assert (Hrej := fun reason => reject_fits (noc_command_sequence cmd) (noc_account_id cmd) (noc_client_order_id cmd)
    (noc_instrument_id cmd) reason Hac Hcl Hi).
  destruct (negb _); [apply Hrej|]. destruct (_ <=? 0); [apply Hrej|]. destruct (_ =? 0); [apply Hrej|].
  destruct (key_live st _); [apply Hrej|]. destruct (_ && _); [apply Hrej|]. cbv zeta.
  set (x := {| ero_exchange_order_id := _ |}). set (st0 := sp_bump_seq _).
  destruct (meet_fits st0 x (noc_command_sequence cmd) (all_fit_books st st0 eq_refl Ha)) as [H1 H2]; [unfold x; ranges|done|].
  destruct (spec_match_then_rest _ _ _) as [st' evs]. split; [exact H1|]. constructor; [ranges|exact H2].
Qed.
Lemma find_fits i k r : find_order st i k = Some r -> fits r.
Proof using Ws Ha.
  intros Hf. destruct (find_order_live st Ws _ _ _ Hf) as (Hr & _). pose proof (Ha (ero_instrument_id r) (ero_side r)) as H.
  rewrite Forall_forall in H. apply H, Hr.
Qed.
Lemma drop_fits r i : all_fit (spec_drop st r i).
Proof. apply all_fit_set; [done|]. unfold drop_key. apply Forall_filter_keep, Ha. Qed.
Lemma cancel_fits cmd : command_wf (CmdCancelOrder cmd) -> fit_out (spec_cancel st cmd).
Proof.
  intros (_ & Hac & Hcl & Hi). unfold spec_cancel. destruct (negb _); [by apply reject_fits|].
  destruct (find_order _ _ _) as [r|] eqn:Hf; [|by apply reject_fits]. destruct (find_fits _ _ _ Hf) as (Hx & _).
  split; [apply (all_fit_books (spec_drop st r (coc_instrument_id cmd))); [done|apply drop_fits]|].
  constructor; [ranges|]. apply list.Forall_singleton. ranges.
Qed.
Lemma replace_fits cmd : command_wf (CmdReplaceOrder cmd) -> fit_out (spec_replace st cmd).
Proof.
  intros (_ & Hac & Hcl & Hnew & Hi & Hp & Hq). unfold spec_replace. destruct (negb _); [by apply reject_fits|].
  destruct (_ || _); [by apply reject_fits|]. destruct (find_order _ _ _) as [r|] eqn:Hf; [|by apply reject_fits].
  pose proof (find_fits _ _ _ Hf) as (Hx & Hpr & Hqr & _). destruct (_ && _).
  - split; cbn [fst snd].
    + set (l := amend_key _ _ _ _). apply (all_fit_books (sp_set_side st (roc_instrument_id cmd) (ero_side r) l)); [done|].
      apply all_fit_set; [done|]. unfold l, amend_key. apply Forall_fmap. eapply Forall_impl; [apply Ha|]. intros y Hy. cbn.
      case_decide; [|done]. ranges.
    + constructor; [ranges|]. apply list.Forall_singleton. ranges.
  - cbv zeta. set (st0 := sp_bump_prio _). set (x := {| ero_exchange_order_id := _ |}).
    destruct (meet_fits st0 x (roc_command_sequence cmd)
      (all_fit_books (spec_drop st r (roc_instrument_id cmd)) st0 eq_refl (drop_fits r _))) as [H1 H2];
      [unfold x; ranges|done|].
    destruct (spec_match_then_rest _ _ _) as [st' evs]. split; [exact H1|]. constructor; [ranges|]. constructor; [|done].
    by split.
Qed.
Lemma spec_process_fits c : command_wf c -> fit_out (spec_process st c).
Proof. destruct c; [apply new_order_fits|apply cancel_fits|apply replace_fits]. Qed.
End Commands.

(** ** The feed along a history, and through the publisher

    A history of commands keeps a fresh copy of the books a copy; the
    messages the publisher makes of its events are well formed and applied to
    the trader's books do what the specification's feed does. *)

Import OrderBook.
Local Open Scope Z_scope.
Local Open Scope list_scope.

(** ** Histories *)
Lemma run_feed cmds : forall (e : MatchingEngine MatchingBook) st M, engine_wf e -> refines e st -> run_ok st cmds ->
  Forall command_wf cmds -> feed_wf st (sp_next_exchange_order_id st) -> all_fit st -> mirrors st M ->
  0 <= sp_next_exchange_order_id st -> sp_next_exchange_order_id st + Z.of_nat (List.length cmds) < two64 ->
  let out := spec_run st cmds in
  stream_clean M out.2 /\ mirrors out.1 (feed_run M out.2) /\ Forall wire_ok out.2.
Proof.
  induction cmds as [|c cmds IH]; intros e st M W R Hok Hc Wf Hfit Hm H0 HN; [by repeat split|].
  destruct Hok as [Hok1 Hok]. apply Forall_cons in Hc as [Hc1 Hc]. cbn [List.length] in HN.
  pose proof (refines_spec_wf e st W R) as Ws.
  destruct (process_simulates e st c W R Hok1) as (e1 & _ & W1 & R1).
  destruct (spec_process_feed st M Ws Wf Hm ltac:(lia) c Hok1) as (F1 & F2 & F3 & F4).
  destruct (spec_process_fits st Ws Hfit ltac:(lia) c Hc1) as [G1 G2].
  destruct (IH e1 _ _ W1 R1 Hok Hc F3 G1 F2 ltac:(lia) ltac:(lia)) as (I1 & I2 & I3).
  cbn [spec_run]. destruct (spec_process st c) as [st1 evs1]. cbn [fst snd] in *.
  destruct (spec_run st1 cmds) as [st2 evs2]. cbn [fst snd] in *.
  split; [by apply stream_clean_app|]. split; [by rewrite feed_run_app|by apply Forall_app].
Qed.
Definition fresh_state (st : Spec) : Prop := sp_next_exchange_order_id st = 1 /\ forall i s, sp_side st i s = [].
Lemma new_fresh universe : fresh_state (sp_new universe).
Proof.
  unfold sp_new. set (st0 := {| sp_books := _ |}). assert (H0 : fresh_state st0) by by split.
  clearbody st0. revert st0 H0. induction universe as [|u universe IH]; intros st0 [Hx Hs]; [done|]. cbn [foldl]. apply IH.
  unfold sp_register. destruct (_ || _); [done|]. split; [done|]. intros i s. unfold sp_side. cbn.
  destruct (decide (u = i)) as [->|Hne]; [rewrite lookup_insert_eq; by destruct s|rewrite lookup_insert_ne by done; apply Hs].
Qed.
Lemma history_feed universe expected cmds e evs : history universe expected cmds e evs -> Forall command_wf cmds ->
  Z.of_nat (List.length cmds) < two64 - 1 ->
  stream_clean ∅ evs /\ mirrors (spec_run (sp_new universe) cmds).1 (feed_run ∅ evs) /\ Forall wire_ok evs.
Proof.
  intros Hh Hc Hn. pose proof Hh as (Hu & Hok & _). destruct (history_refines _ _ _ _ _ Hh) as (_ & _ & ->).
  destruct (new_refines (B := MatchingBook) universe expected Hu) as [W R].
  destruct (new_fresh universe) as [Hx Hs].
  apply (run_feed cmds _ _ _ W R Hok Hc); [|by intros i s; rewrite Hs|intros i s; rewrite Hs; by destruct s|lia|lia].
  split; [intros i; unfold distinct; rewrite !Hs; constructor|intros i s r; rewrite Hs; set_solver..].
Qed.

(** ** One message *)
Definition books_rep (bm : BookManager) (M : Mirror) : Prop := forall i, represents (manager_book_for bm i) (mirror_book M i).
(** What must stay zero. *)
Definition quiet (s : ReplayStats) : Prop :=
  rs_decode_failures s = 0 /\ rs_sequence_failures s = 0 /\ rs_book_errors s = 0.

Lemma new_books_rep : books_rep BookManager_new ∅.
Proof. intros i. unfold manager_book_for, mirror_book. cbn. rewrite !lookup_empty. apply new_represents. Qed.
Lemma store_rep bm M i b m : books_rep bm M -> represents b m -> books_rep (store_book bm i b) (<[i := m]> M).
Proof. intros H Hb j. rewrite manager_book_store, mirror_book_insert. case_decide; [done|apply H]. Qed.

Lemma apply_published now p ev p' m bm M stats : publish now p ev = (p', Some m) -> books_rep bm M -> feed_clean M ev ->
  quiet stats -> exists bm' stats', apply_event m bm stats = Some (bm', stats') /\ books_rep bm' (feed_apply M ev) /\ quiet stats'.
Proof.
  unfold feed_clean, feed_apply. destruct ev as [a|a|a|a|a|a|a|a]; intros Hp Hb Hc Hq; cbn in Hp; try done; injection Hp as <- <-;
    cbn [apply_event feed_op MarketData.ao_instrument_id MarketData.co_instrument_id MarketData.mo_instrument_id] in *.
  - unfold record_trade. eexists _, _. split; [done|]. split; [|done]. exact Hb.
  - destruct (add_order_refines _ _ (Hb (boa_instrument_id a)) (boa_exchange_order_id a) (boa_price a) (boa_quantity a) (boa_side a))
      as (b' & m' & He & -> & Hr). cbn. rewrite He, Hc. eexists _, _. split; [done|]. split; [by apply store_rep|done].
  - destruct (modify_order_refines _ _ (Hb (bor_instrument_id a)) (bor_exchange_order_id a) (bor_price a) (bor_new_remaining_quantity a))
      as (b' & He & Hr). cbn. rewrite He, Hc. eexists _, _. split; [done|]. split; [by apply store_rep|done].
  - destruct (cancel_order_refines _ _ (Hb (bom_instrument_id a)) (bom_exchange_order_id a)) as (b' & He & Hr).
    cbn. rewrite He, Hc. eexists _, _. split; [done|]. split; [by apply store_rep|done].
Qed.
Lemma publish_wf now p ev p' m : publish now p ev = (p', Some m) -> wire_ok ev -> u64_ok now -> u64_ok (mp_next_sequence p) ->
  MarketData.event_wf m /\ sequence_of m = mp_next_sequence p /\ mp_next_sequence p' = u64 (mp_next_sequence p + 1).
Proof.
  destruct ev; intros Hp Hw Hn Hs; cbn in Hp; try done; injection Hp as <- <-; cbn in Hw;
    (split; [split_and!; tauto|done]).
Qed.
Lemma publish_private now p ev p' : publish now p ev = (p', None) -> p' = p /\ feed_op ev = None.
Proof. destruct ev; cbn; intros H; try done; by injection H as <-. Qed.
