(* ===== verification/FeedBooks.v ===== *)
(** * Books rebuilt from any feed

    Whatever well-formed messages arrive, the trader's books are defined and
    equal to the specification's priority lists, which stay sorted, distinct
    and in range; the book-error counter counts the refused messages. *)
From Stdlib Require Import String.
From S2P Require Import Prelude Types ByteIO CommandCodec PriceQueues MarketDataCodec TraderBook TraderBookSpec TraderBooks SequenceValidator FeedReplay FeedPublisher FeedHistory.
Import OrderBook MarketData.
Local Open Scope Z_scope.
Local Open Scope list_scope.

(** ** Messages as operations on the specification *)
Definition event_op (ev : Event) : option (InstrumentId * (SpecOrders -> SpecOrders * option BookError)) :=
  match ev with
  | EvAddOrder m => Some (ao_instrument_id m, fun so => spec_add so (ao_order_id m) (ao_price m) (ao_quantity m) (ao_side m))
  | EvCancelOrder m => Some (co_instrument_id m, fun so => spec_cancel_order so (co_order_id m))
  | EvModifyOrder m => Some (mo_instrument_id m, fun so => spec_modify so (mo_order_id m) (mo_new_price m) (mo_new_quantity m))
  | EvClearBook m => Some (cb_instrument_id m, fun _ => (so_empty, None))
  | EvTrade _ => None
  end.
Definition event_counter (ev : Event) : Counter :=
  match ev with
  | EvAddOrder _ => CtAdds | EvCancelOrder _ => CtCancels | EvModifyOrder _ => CtModifies
  | EvTrade _ => CtTrades | EvClearBook _ => CtClears
  end.
Definition spec_apply (M : Mirror) (ev : Event) : Mirror * option BookError :=
  match event_op ev with
  | Some (i, f) => let (so, err) := f (mirror_book M i) in (<[i := so]> M, err)
  | None => (M, None)
  end.
(** The books, and how many messages were refused. *)
Fixpoint spec_feed (M : Mirror) (evs : list Event) : Mirror * nat :=
  match evs with
  | [] => (M, O)
  | ev :: evs =>
      let (M, err) := spec_apply M ev in
      let (M, n) := spec_feed M evs in
      (M, match err with Some _ => S n | None => n end)
  end.
Fixpoint apply_events (evs : list Event) (books : BookManager) (stats : ReplayStats) : option (BookManager * ReplayStats) :=
  match evs with
  | [] => Some (books, stats)
  | ev :: evs => let* (books, stats) := apply_event ev books stats in apply_events evs books stats
  end.

Lemma apply_event_refines ev bm M stats : books_rep bm M -> exists bm',
  apply_event ev bm stats = Some (bm', count_error (spec_apply M ev).2 (count (event_counter ev) stats)) /\
  books_rep bm' (spec_apply M ev).1.
Proof.
  intros Hb. unfold spec_apply. destruct ev as [a|a|a|a|a]; cbn [event_op event_counter apply_event].
  - destruct (add_order_refines _ _ (Hb (ao_instrument_id a)) (ao_order_id a) (ao_price a) (ao_quantity a) (ao_side a))
      as (b' & m' & He & -> & Hr). rewrite He. destruct (spec_add _ _ _ _ _) as [so err]. eexists. split; [done|]. by apply store_rep.
  - destruct (cancel_order_refines _ _ (Hb (co_instrument_id a)) (co_order_id a)) as (b' & He & Hr). rewrite He.
    destruct (spec_cancel_order _ _) as [so err]. eexists. split; [done|]. by apply store_rep.
  - destruct (modify_order_refines _ _ (Hb (mo_instrument_id a)) (mo_order_id a) (mo_new_price a) (mo_new_quantity a)) as (b' & He & Hr).
    rewrite He. destruct (spec_modify _ _ _ _) as [so err]. eexists. split; [done|]. by apply store_rep.
  - eexists. split; [done|]. exact Hb.
  - eexists. split; [done|]. apply store_rep; [done|apply clear_represents].
Qed.
Lemma count_error_book err c s : c <> CtBookErrors -> rs_book_errors (count_error err (count c s)) =
  match err with Some _ => u64 (rs_book_errors s + 1) | None => rs_book_errors s end.
Proof. intros H. destruct err, c; done. Qed.
Lemma apply_events_refines evs : forall bm M stats, books_rep bm M -> exists bm' stats',
  apply_events evs bm stats = Some (bm', stats') /\ books_rep bm' (spec_feed M evs).1 /\
  (0 <= rs_book_errors stats -> rs_book_errors stats + Z.of_nat (List.length evs) < two64 ->
   rs_book_errors stats' = rs_book_errors stats + Z.of_nat (spec_feed M evs).2).
Proof.
  induction evs as [|ev evs IH]; intros bm M stats Hb; [exists bm, stats; split; [done|]; split; [done|cbn; lia]|].
  destruct (apply_event_refines ev bm M stats Hb) as (bm1 & He & Hb1). cbn [apply_events spec_feed List.length].
  rewrite He. cbn [mbind option_bind].
  assert (Hn : rs_book_errors (count_error (spec_apply M ev).2 (count (event_counter ev) stats)) =
    match (spec_apply M ev).2 with Some _ => u64 (rs_book_errors stats + 1) | None => rs_book_errors stats end)
    by (apply count_error_book; by destruct ev).
  destruct (spec_apply M ev) as [M1 err]. cbn [fst snd] in *. set (stats1 := count_error err _) in *.
  destruct (IH bm1 M1 stats1 Hb1) as (bm2 & stats2 & -> & Hb2 & Hc).
  destruct (spec_feed M1 evs) as [M2 n]. exists bm2, stats2. split; [done|]. split; [done|]. intros H0 Hlt.
  cbn [fst snd] in *. destruct err; rewrite Hn in Hc; [rewrite u64_small in Hc by lia|]; rewrite Hc; lia.
Qed.

(** ** The invariant of the lists *)
Definition ov_ok (x : OrderView) : Prop := u64_ok (ov_order_id x) /\ 0 < ov_price x < two63 /\ 0 < ov_quantity x < two64.
Record so_wf (m : SpecOrders) : Prop := {
  ow_sorted : forall s, StronglySorted (fun x y => better_eq s (ov_price x) (ov_price y) = true) (so_side m s);
  ow_distinct : NoDup (ov_order_id <$> so_bids m ++ so_asks m);
  ow_ok : forall s, Forall ov_ok (so_side m s);
}.

Lemma so_wf_empty : so_wf so_empty.
Proof. split; [by intros []; constructor|constructor|by intros []; constructor]. Qed.
Lemma ov_insert_sorted s x l : StronglySorted (fun x y => better_eq s (ov_price x) (ov_price y) = true) l ->
  StronglySorted (fun x y => better_eq s (ov_price x) (ov_price y) = true) (ov_insert s x l).
Proof.
  induction 1 as [|y l Hs IH Hy]; cbn; [by repeat constructor|].
  destruct (better_eq s (ov_price y) (ov_price x)) eqn:E.
  - constructor; [done|]. rewrite ov_insert_Permutation. by constructor.
  - assert (Hxy : better_eq s (ov_price x) (ov_price y) = true) by (destruct s; cbn in *; lia).
    constructor; [by constructor|]. constructor; [done|]. eapply Forall_impl; [exact Hy|]. cbn. intros z. by apply better_eq_trans.
Qed.
Lemma so_drop_wf m id : so_wf m -> so_wf (so_drop m id).
Proof.
  intros [H1 H2 H3]. split.
  - intros s. rewrite so_drop_side. apply StronglySorted_filter, H1.
  - eapply sublist_NoDup; [exact H2|]. apply fmap_sublist, sublist_app; apply sublist_filter.
  - intros s. rewrite so_drop_side. apply Forall_filter_keep, H3.
Qed.
Lemma so_insert_wf m s x : so_wf m -> so_find m (ov_order_id x) = None -> ov_ok x -> so_wf (so_insert m s x).
Proof.
  intros [H1 H2 H3] Hf Hx. unfold so_insert. split.
  - intros s'. rewrite so_set_side. case_decide; [subst; by apply ov_insert_sorted|apply H1].
  - assert (Hp : so_bids (so_set m s (ov_insert s x (so_side m s))) ++ so_asks (so_set m s (ov_insert s x (so_side m s)))
      ≡ₚ x :: (so_bids m ++ so_asks m)).
    { destruct s; cbn [so_set so_bids so_asks so_side]; rewrite ov_insert_Permutation; [done|]. symmetry. apply Permutation_middle. }
    rewrite Hp. cbn. constructor; [|done]. rewrite fmap_app, not_elem_of_app. rewrite so_find_none in Hf.
    by split; [apply (Hf Buy)|apply (Hf Sell)].
  - intros s'. rewrite so_set_side. case_decide as E; [subst; rewrite ov_insert_Permutation; by constructor|apply H3].
Qed.
Lemma so_drop_find m id : so_find (so_drop m id) id = None.
Proof.
  apply so_find_none. intros s. rewrite so_drop_side. intros (x & -> & [_ Hne]%elem_of_ov_drop)%list_elem_of_fmap. done.
Qed.
Lemma event_op_wf ev i f m : event_op ev = Some (i, f) -> event_wf ev -> so_wf m -> so_wf (f m).1.
Proof.
  intros He (_ & _ & Hw) Hm. destruct ev as [a|a|a|a|a]; cbn in He; try done; injection He as <- <-; cbn in Hw.
  - unfold spec_add. destruct (_ <=? 0) eqn:E1; [done|]. destruct (_ =? 0) eqn:E2; [done|].
    destruct (so_find m _) eqn:E3; [done|]. destruct Hw as (? & ? & ? & ?). unfold u64_ok, s64_ok in *.
    apply so_insert_wf; [done|done|]. split; cbn; [done|lia].
  - unfold spec_cancel_order. destruct (so_find m _); [by apply so_drop_wf|done].
  - unfold spec_modify. destruct (_ <=? 0) eqn:E1; [done|]. destruct (_ =? 0) eqn:E2; [done|].
    destruct (so_find m _) eqn:E3; [|done]. destruct Hw as (? & ? & ? & ?). unfold u64_ok, s64_ok in *.
    apply so_insert_wf; [by apply so_drop_wf|apply so_drop_find|]. split; cbn; [done|lia].
  - apply so_wf_empty.
Qed.
Definition mirror_wf (M : Mirror) : Prop := forall i, so_wf (mirror_book M i).
Lemma mirror_wf_empty : mirror_wf ∅.
Proof. intros i. unfold mirror_book. rewrite lookup_empty. apply so_wf_empty. Qed.
Lemma spec_apply_wf M ev : mirror_wf M -> event_wf ev -> mirror_wf (spec_apply M ev).1.
Proof.
  intros HM Hev. unfold spec_apply. destruct (event_op ev) as [[i f]|] eqn:E; [|done].
  pose proof (event_op_wf ev i f _ E Hev (HM i)) as Hw. destruct (f _) as [so err]. intros j. cbn [fst].
  rewrite mirror_book_insert. case_decide; [done|apply HM].
Qed.
Lemma spec_feed_wf evs : Forall event_wf evs -> forall M, mirror_wf M -> mirror_wf (spec_feed M evs).1.
Proof.
  induction 1 as [|ev evs Hev Hevs IH]; intros M HM; [done|]. cbn [spec_feed].
  pose proof (spec_apply_wf M ev HM Hev) as H1. destruct (spec_apply M ev) as [M1 err]. specialize (IH M1 H1).
  by destruct (spec_feed M1 evs) as [M2 n].
Qed.
