(* ===== verification/Packet.v ===== *)
(** * Datagram framing: include/net/packet.hpp, src/net/packet.cpp

    A packet header and the encoded frames of a batch of market-data events.
    [unpack_frames] locates every frame by its own header and decodes it; a
    frame whose content is bad does not spoil its packet. *)
From Stdlib Require Import String.
From S2P Require Import Prelude Types ByteIO CommandCodec MarketDataCodec TraderBook SequenceValidator TraderBooks FeedReplay.
From Stdlib Require Import List.

Local Open Scope Z_scope.
Local Open Scope list_scope.

Module Packet.
Definition PACKET_MAGIC : Z := 1296320561.
Definition PACKET_VERSION : Z := 1.
Definition PACKET_HEADER_SIZE : nat := 20.
Definition MAX_DATAGRAM_PAYLOAD : Z := 1472.
Definition MAX_FRAMES_PER_DATAGRAM : Z := (MAX_DATAGRAM_PAYLOAD - Z.of_nat PACKET_HEADER_SIZE) / MarketData.MAX_FRAME_SIZE.

Record PacketHeader := {
  ph_magic : Z;
  ph_version : Z;
  ph_frame_count : Z;
  ph_packet_sequence : Z;
  ph_payload_length : Z;
}.
Inductive PacketError :=
| TruncatedHeader
| InvalidMagic
| InvalidVersion
| ZeroFrameCount
| PayloadLengthMismatch
| InnerFrameHeaderInvalid
| FrameCountMismatch.
Abbreviation frame := (MarketData.Event + MarketData.DecodeError)%type (only parsing).
Record UnpackedPacket := { up_header : PacketHeader; up_frames : list frame }.

Definition pack_frames (packet_sequence : Z) (events : list MarketData.Event) : list byte :=
  let payload := foldl (fun payload event => MarketData.encode_event event payload) [] events in
  let out := put_u32 [] PACKET_MAGIC in
  let out := put_u16 out PACKET_VERSION in
  let out := put_u16 out (u16 (Z.of_nat (length events))) in
  let out := put_u64 out packet_sequence in
  let out := put_u32 out (u32 (Z.of_nat (length payload))) in
  out ++ payload.

(** The loop over [frame_count] frames; [rest] is what [offset] leaves. *)
Fixpoint unpack_loop (count : nat) (rest : list byte) (frames : list frame) : list frame * list byte + PacketError :=
  match count with
  | O => inl (frames, rest)
  | S count =>
      match MarketData.decode_header rest with
      | inr _ => inr InnerFrameHeaderInvalid
      | inl header =>
          let frame_len := (MarketData.HEADER_SIZE + Z.to_nat (MarketData.hd_payload_size header))%nat in
          if (length rest <? frame_len)%nat then inr InnerFrameHeaderInvalid
          else unpack_loop count (drop frame_len rest) (frames ++ [MarketData.decode_event (take frame_len rest)])
      end
  end.
Definition unpack_frames (datagram : list byte) : UnpackedPacket + PacketError :=
  if (length datagram <? PACKET_HEADER_SIZE)%nat then inr TruncatedHeader
  else
    let r := take PACKET_HEADER_SIZE datagram in
    match (let* (magic, r) := get_u32 r in
           let* (version, r) := get_u16 r in
           let* (frame_count, r) := get_u16 r in
           let* (packet_sequence, r) := get_u64 r in
           let* (payload_length, r) := get_u32 r in
           Some (magic, version, frame_count, packet_sequence, payload_length)) with
    | None => inr TruncatedHeader
    | Some (magic, version, frame_count, packet_sequence, payload_length) =>
        if negb (magic =? PACKET_MAGIC) then inr InvalidMagic
        else if negb (version =? PACKET_VERSION) then inr InvalidVersion
        else if frame_count =? 0 then inr ZeroFrameCount
        else
          let remaining := drop PACKET_HEADER_SIZE datagram in
          if negb (Z.of_nat (length remaining) =? payload_length) then inr PayloadLengthMismatch
          else
            match unpack_loop (Z.to_nat frame_count) remaining [] with
            | inr e => inr e
            | inl (frames, rest) =>
                if negb (length rest =? 0)%nat then inr FrameCountMismatch
                else inl {| up_header := {| ph_magic := magic; ph_version := version; ph_frame_count := frame_count;
                                            ph_packet_sequence := packet_sequence; ph_payload_length := payload_length |};
                            up_frames := frames |}
            end
    end.

(** ** Unpacking a packet *)
Import MarketData.
Definition events_bytes (events : list Event) : list byte := mjoin (event_bytes <$> events).

Lemma payload_bytes_of events : foldl (fun payload event => encode_event event payload) [] events = events_bytes events.
Proof.
  assert (H : forall out, foldl (fun payload event => encode_event event payload) out events = out ++ events_bytes events).
  { induction events as [|e events IH]; intros out; cbn [foldl]; [by rewrite app_nil_r|].
    rewrite IH, encode_event_bytes. unfold events_bytes. cbn. by rewrite <- app_assoc. }
  apply H.
Qed.
Lemma length_events_bytes events : Z.of_nat (length (events_bytes events)) <= 49 * Z.of_nat (length events).
Proof.
  induction events as [|e events IH]; [cbn; lia|].
  change (events_bytes (e :: events)) with (event_bytes e ++ events_bytes events). rewrite length_app.
  pose proof (frame_fits e) as Hf. change MAX_FRAME_SIZE with 49 in Hf. cbn [length]. lia.
Qed.
Lemma length_events_bytes_ge events : (length events <= length (events_bytes events))%nat.
Proof.
  induction events as [|e events IH]; [done|].
  change (events_bytes (e :: events)) with (event_bytes e ++ events_bytes events). unfold event_bytes.
  rewrite !length_app, length_md_header. unfold HEADER_SIZE. cbn [length]. lia.
Qed.
Lemma length_event_bytes e :
  length (event_bytes e) = (HEADER_SIZE + Z.to_nat (hd_payload_size (event_header e)))%nat.
Proof.
  unfold event_bytes. rewrite length_app, length_md_header. f_equal. pose proof (length_md_payload e) as Hl.
  assert (hd_payload_size (event_header e) = payload_size_for (hd_type (event_header e))) as -> by (by destruct e). lia.
Qed.
Lemma unpack_events events : Forall event_wf events -> forall rest frames,
  unpack_loop (length events) (events_bytes events ++ rest) frames = inl (frames ++ (inl <$> events), rest).
Proof.
  induction 1 as [|e events He Hes IH]; intros rest frames; [cbn; by rewrite app_nil_r|].
  change (events_bytes (e :: events)) with (event_bytes e ++ events_bytes events).
  rewrite <- app_assoc. set (tail := events_bytes events ++ rest). cbn [length unpack_loop].
  assert (Hh : decode_header (event_bytes e ++ tail) = inl (event_header e)).
  { unfold event_bytes. rewrite <- app_assoc. destruct He as (Hs & Ht & _). apply decode_md_header; [done|done|].
    assert (hd_payload_size (event_header e) = payload_size_for (hd_type (event_header e))) as -> by (by destruct e).
    apply md_payload_range. }
  rewrite Hh. pose proof (length_event_bytes e) as Hl. rewrite <- Hl.
  rewrite length_app, (proj2 (Nat.ltb_ge _ _)) by lia. rewrite drop_app_length, take_app_length. unfold tail.
  rewrite IH. pose proof (decode_event_bytes e [] He) as Hd. rewrite app_nil_r in Hd. rewrite Hd, <- app_assoc. done.
Qed.

Lemma unpack_pack seq events : u64_ok seq -> events <> [] -> Z.of_nat (length events) < 65536 -> Forall event_wf events ->
  exists header, unpack_frames (pack_frames seq events) = inl {| up_header := header; up_frames := inl <$> events |} /\
    ph_packet_sequence header = seq /\ ph_frame_count header = Z.of_nat (length events).
Proof.
  unfold u64_ok. intros Hs Hne Hn Hwf. unfold pack_frames. rewrite payload_bytes_of.
  pose proof (length_events_bytes events) as Hlen. set (payload := events_bytes events) in *.
  rewrite u16_small, u32_small by lia. autorewrite with bytes. rewrite <- !app_assoc. cbn [app].
  set (n := Z.of_nat (length events)) in *. assert (Hn0 : 0 < n) by (destruct events; [done|unfold n; cbn; lia]).
  set (header := be 4 PACKET_MAGIC ++ be 2 PACKET_VERSION ++ be 2 n ++ be 8 seq ++ be 4 (Z.of_nat (length payload))).
  assert (Hh : forall rest, be 4 PACKET_MAGIC ++ be 2 PACKET_VERSION ++ be 2 n ++ be 8 seq ++ be 4 (Z.of_nat (length payload)) ++ rest = header ++ rest)
    by (intros; unfold header; by rewrite <- !app_assoc).
  rewrite Hh. assert (Hhl : length header = PACKET_HEADER_SIZE) by (unfold header; by autorewrite with bytes).
  unfold unpack_frames. rewrite length_app, (proj2 (Nat.ltb_ge _ _)) by lia.
  rewrite take_app_length', drop_app_length' by done.
  rewrite <- (app_nil_r header). unfold header. rewrite <- !app_assoc.
  rewrite (get_u32_put PACKET_MAGIC) by (unfold PACKET_MAGIC; lia). rewrite (get_u16_put PACKET_VERSION) by (unfold PACKET_VERSION; lia).
  run_reads. rewrite !Z.eqb_refl. cbn [negb]. destruct (n =? 0) eqn:E; [lia|].
  assert (Z.to_nat n = length events) as -> by (unfold n; lia).
  pose proof (unpack_events events Hwf [] []) as Hu. rewrite app_nil_r in Hu. fold payload in Hu. rewrite Hu. cbn.
  eexists. split; [done|]. by split.
Qed.

(** A full batch of the largest frames stays within one unfragmented datagram. *)
Lemma batch_fits seq events : Z.of_nat (length events) <= MAX_FRAMES_PER_DATAGRAM ->
  Z.of_nat (length (pack_frames seq events)) <= MAX_DATAGRAM_PAYLOAD.
Proof.
  intros Hn. change MAX_FRAMES_PER_DATAGRAM with 29 in Hn. unfold pack_frames. rewrite payload_bytes_of.
  pose proof (length_events_bytes events) as Hlen. autorewrite with bytes. rewrite !Nat2Z.inj_add.
  unfold MAX_DATAGRAM_PAYLOAD. cbn [length]. lia.
Qed.
End Packet.

(** * The live feed subscriber: src/trader/market_data/feed_subscriber.cpp

    The body of the receive loop: a batch of datagrams, each unpacked, each
    frame applied through [apply_frame_result] whatever it answers, and each
    decoded event handed to the strategies together with the books it left.
    The socket, the thread and the lock are not modelled; a batch is the list
    of its datagrams. *)

Local Open Scope Z_scope.
Local Open Scope list_scope.

Definition FeedSubscriberOptions_replay : ReplayOptions :=
  {| stop_on_sequence_error := false; stop_on_decode_error := false; recovery_snapshot_path := None |}.

(** What [runtime_.on_event] was called with. *)
Definition Notification := (MarketData.Event * BookManager)%type.
Record FeedSubscriber := {
  fd_validator : SequenceValidator;
  fd_outcome : ReplayOutcome;
  fd_packets_received : Z;
  fd_packet_errors : Z;
}.
Definition FeedSubscriber_new : FeedSubscriber :=
  {| fd_validator := SequenceValidator_new; fd_outcome := ReplayOutcome_new; fd_packets_received := 0; fd_packet_errors := 0 |}.
Definition fd_with (fd : FeedSubscriber) (v : SequenceValidator) (o : ReplayOutcome) : FeedSubscriber :=
  {| fd_validator := v; fd_outcome := o; fd_packets_received := fd_packets_received fd; fd_packet_errors := fd_packet_errors fd |}.

Section Receive.
Context (fs : string -> option (list byte)) (options : ReplayOptions).

Definition receive_frame (fd : FeedSubscriber) (frame : MarketData.Event + MarketData.DecodeError)
    : option (FeedSubscriber * list Notification) :=
  let* (_, v, o) := apply_frame_result fs frame (fd_validator fd) options (fd_outcome fd) in
  let notes := match frame with inl event => [(event, rp_books o)] | inr _ => [] end in
  Some (fd_with fd v o, notes).
Fixpoint receive_frames (fd : FeedSubscriber) (frames : list (MarketData.Event + MarketData.DecodeError))
    : option (FeedSubscriber * list Notification) :=
  match frames with
  | [] => Some (fd, [])
  | frame :: frames =>
      let* (fd, notes) := receive_frame fd frame in
      let* (fd, notes') := receive_frames fd frames in
      Some (fd, notes ++ notes')
  end.
Definition receive_datagram (fd : FeedSubscriber) (datagram : list byte) : option (FeedSubscriber * list Notification) :=
  match Packet.unpack_frames datagram with
  | inr _ =>
      Some ({| fd_validator := fd_validator fd; fd_outcome := fd_outcome fd;
               fd_packets_received := fd_packets_received fd; fd_packet_errors := u64 (fd_packet_errors fd + 1) |}, [])
  | inl packet => receive_frames fd (Packet.up_frames packet)
  end.
Fixpoint receive_datagrams (fd : FeedSubscriber) (datagrams : list (list byte)) : option (FeedSubscriber * list Notification) :=
  match datagrams with
  | [] => Some (fd, [])
  | d :: datagrams =>
      let* (fd, notes) := receive_datagram fd d in
      let* (fd, notes') := receive_datagrams fd datagrams in
      Some (fd, notes ++ notes')
  end.
Definition receive_batch (fd : FeedSubscriber) (batch : list (list byte)) : option (FeedSubscriber * list Notification) :=
  receive_datagrams
    {| fd_validator := fd_validator fd; fd_outcome := fd_outcome fd;
       fd_packets_received := u64 (fd_packets_received fd + Z.of_nat (List.length batch)); fd_packet_errors := fd_packet_errors fd |}
    batch.
End Receive.

(** ** Snapshots for a display *)
Record MarketSnapshot := {
  ms_best_bid : option OrderBook.PriceLevelView;
  ms_best_ask : option OrderBook.PriceLevelView;
  ms_trade_count : Z;
  ms_traded_quantity : Quantity;
  ms_last_trade_price : Price;
}.
Definition market_snapshot (fd : FeedSubscriber) (instrument_id : InstrumentId) : MarketSnapshot :=
  let books := rp_books (fd_outcome fd) in
  let trades := default InstrumentStats_zero (trade_stats books instrument_id) in
  {| ms_best_bid := find_book books instrument_id ≫= OrderBook.best_bid;
     ms_best_ask := find_book books instrument_id ≫= OrderBook.best_ask;
     ms_trade_count := is_trade_count trades; ms_traded_quantity := is_traded_quantity trades;
     ms_last_trade_price := is_last_trade_price trades |}.
(** Signed division truncates toward zero. *)
Definition mark_price (s : MarketSnapshot) : option Price :=
  match ms_best_bid s, ms_best_ask s with
  | Some bid, Some ask => Some (Z.quot (s64 (OrderBook.plv_price bid + OrderBook.plv_price ask)) 2)
  | _, _ => if 0 <? ms_trade_count s then Some (ms_last_trade_price s) else None
  end.
