(* ===== verification/FeedRecovery.v ===== *)
(** * Snapshot files and event files, read back

    A snapshot written from the books of any feed and read again gives books
    with the same orders in the same priority, under the same sequence
    number; an event file gives back its events. *)
From Stdlib Require Import String.
From S2P Require Import Prelude Types ByteIO CommandCodec PriceQueues MarketDataCodec Packet TraderBook TraderBookSpec TraderBooks SequenceValidator FeedReplay FeedPublisher FeedHistory FeedBooks.
Import OrderBook MarketData Packet.
Local Open Scope Z_scope.
Local Open Scope list_scope.

(** ** What is written *)
Definition side_entries (id : InstrumentId) (seq : Sequence) (s : Side) (l : list OrderView) : list Event :=
  snapshot_entry id s seq <$> l.
Definition book_entries (bm : BookManager) (seq : Sequence) (id : InstrumentId) : list Event :=
  let b := manager_book_for bm id in side_entries id seq Buy (all_bids b) ++ side_entries id seq Sell (all_asks b).
Definition snapshot_entries (bm : BookManager) (seq : Sequence) : list Event := mjoin (book_entries bm seq <$> instruments bm).

Lemma events_bytes_app l1 l2 : events_bytes (l1 ++ l2) = events_bytes l1 ++ events_bytes l2.
Proof. unfold events_bytes. by rewrite fmap_app, join_app. Qed.
Lemma append_orders id s seq l : forall c out, 0 <= c -> c + Z.of_nat (List.length l) < two64 ->
  foldl (fun acc o => (u64 (acc.1 + 1), encode_event (snapshot_entry id s seq o) acc.2)) (c, out) l =
  (c + Z.of_nat (List.length l), out ++ events_bytes (side_entries id seq s l)).
Proof.
  induction l as [|o l IH]; intros c out Hc Hlt; cbn [foldl List.length] in *; [by rewrite app_nil_r, Z.add_0_r|].
  cbn [fst snd]. rewrite u64_small, encode_event_bytes, IH by lia.
  change (side_entries id seq s (o :: l)) with ([snapshot_entry id s seq o] ++ side_entries id seq s l).
  rewrite events_bytes_app, <- !app_assoc. f_equal. lia.
Qed.
Lemma append_book_entries bm seq id c out : 0 <= c ->
  c + Z.of_nat (List.length (book_entries bm seq id)) < two64 ->
  append_book bm seq (c, out) id =
  (c + Z.of_nat (List.length (book_entries bm seq id)), out ++ events_bytes (book_entries bm seq id)).
Proof.
  intros Hc. unfold append_book, book_entries, side_entries, find_book, manager_book_for, append_side.
  rewrite length_app, !length_fmap.
  destruct (bm_books bm !! id) as [b|]; cbn [default from_option Datatypes.id]; intros Hlt.
  - rewrite (append_orders id Buy), (append_orders id Sell) by lia. rewrite events_bytes_app, <- app_assoc. f_equal. lia.
  - change (all_bids OrderBook_new) with (@nil OrderView). change (all_asks OrderBook_new) with (@nil OrderView).
    cbn. by rewrite app_nil_r, Z.add_0_r.
Qed.
Lemma write_snapshot_bytes bm seq : Z.of_nat (List.length (snapshot_entries bm seq)) < two64 ->
  write_snapshot seq bm = be 4 SNAPSHOT_MAGIC ++ be 2 SNAPSHOT_VERSION ++ be 2 0 ++ be 8 seq ++
    be 8 (Z.of_nat (List.length (snapshot_entries bm seq))) ++ events_bytes (snapshot_entries bm seq).
Proof.
  unfold write_snapshot, snapshot_entries. intros Hlt.
  assert (H : forall ids c out, 0 <= c -> c + Z.of_nat (List.length (mjoin (book_entries bm seq <$> ids))) < two64 ->
    foldl (append_book bm seq) (c, out) ids =
    (c + Z.of_nat (List.length (mjoin (book_entries bm seq <$> ids))), out ++ events_bytes (mjoin (book_entries bm seq <$> ids)))).
  { induction ids as [|id ids IH]; intros c out Hc Hn; [cbn; by rewrite app_nil_r, Z.add_0_r|].
    change (mjoin (book_entries bm seq <$> id :: ids)) with (book_entries bm seq id ++ mjoin (book_entries bm seq <$> ids)) in *.
    rewrite length_app in *. cbn [foldl]. rewrite append_book_entries, IH, events_bytes_app, <- app_assoc by lia. f_equal. lia. }
  rewrite H by lia. autorewrite with bytes. rewrite <- !app_assoc. done.
Qed.

(** ** Replaying the entries *)
Lemma spec_feed_app l1 l2 : forall M, spec_feed M (l1 ++ l2) =
  let (M1, n1) := spec_feed M l1 in let (M2, n2) := spec_feed M1 l2 in (M2, (n1 + n2)%nat).
Proof.
  induction l1 as [|ev l1 IH]; intros M; cbn [app spec_feed]; [by destruct (spec_feed M l2)|].
  destruct (spec_apply M ev) as [M1 err]. rewrite IH. destruct (spec_feed M1 l1) as [M2 n1].
  destruct (spec_feed M2 l2) as [M3 n2]. by destruct err.
Qed.
Lemma so_set_set m s l l' : so_set (so_set m s l) s l' = so_set m s l'.
Proof. by destruct s. Qed.
Lemma so_set_same m s : so_set m s (so_side m s) = m.
Proof. by destruct m, s. Qed.
Lemma adds_feed i s seq l : forall M, let m := mirror_book M i in
  StronglySorted (fun x y => better_eq s (ov_price x) (ov_price y) = true) (so_side m s ++ l) ->
  NoDup (ov_order_id <$> (so_side m (contra_side s) ++ so_side m s ++ l)) -> Forall ov_ok l ->
  exists M', spec_feed M (side_entries i seq s l) = (M', O) /\ mirror_book M' i = so_set m s (so_side m s ++ l) /\
    forall j, j <> i -> mirror_book M' j = mirror_book M j.
Proof.
  induction l as [|x l IH]; intros M m Hs Hd Hok; [exists M; split; [done|]; split; [by rewrite app_nil_r, so_set_same|done]|].
  apply Forall_cons in Hok as [(Hx1 & Hx2 & Hx3) Hok].
  assert (Hmid : so_side m s ++ x :: l = (so_side m s ++ [x]) ++ l) by by rewrite <- app_assoc.
  assert (Hadd : spec_add m (ov_order_id x) (ov_price x) (ov_quantity x) s = (so_set m s (so_side m s ++ [x]), None)).
  { unfold spec_add. rewrite (proj2 (Z.leb_gt _ _)), (proj2 (Z.eqb_neq _ _)) by lia.
    rewrite (proj2 (so_find_none m _)).
    - f_equal. unfold so_insert. f_equal. destruct x as [id p q]. cbn [ov_order_id ov_price ov_quantity].
      rewrite <- (app_nil_r (so_side m s)) at 1. apply (ov_insert_split s _ (so_side m s) []); [|set_solver].
      intros y Hy. apply StronglySorted_app in Hs as (Hs & _). apply (Hs y); [done|by left].
    - intros s' Hin. rewrite app_assoc, fmap_app in Hd. apply NoDup_app in Hd as (_ & Hd & _).
      apply (Hd (ov_order_id x)); [|by left]. rewrite fmap_app, elem_of_app.
      destruct s, s'; cbn [contra_side] in *; tauto. }
  set (M1 := <[i := so_set m s (so_side m s ++ [x])]> M).
  assert (Hap : spec_apply M (snapshot_entry i s seq x) = (M1, None)).
  { unfold spec_apply. cbn [snapshot_entry event_op ao_instrument_id ao_order_id ao_price ao_quantity ao_side]. fold m.
    by rewrite Hadd. }
  assert (Hm1 : mirror_book M1 i = so_set m s (so_side m s ++ [x])) by (unfold M1; by rewrite mirror_book_insert, decide_True).
  assert (Hside : so_side (mirror_book M1 i) s = so_side m s ++ [x]) by (rewrite Hm1; by destruct s).
  assert (Hcon : so_side (mirror_book M1 i) (contra_side s) = so_side m (contra_side s)) by (rewrite Hm1; by destruct s).
  destruct (IH M1) as (M' & Hf & Hi & Ho).
  - by rewrite Hside, <- Hmid.
  - by rewrite Hcon, Hside, <- Hmid.
  - done.
  - exists M'. change (side_entries i seq s (x :: l)) with (snapshot_entry i s seq x :: side_entries i seq s l).
    cbn [spec_feed]. rewrite Hap, Hf. split; [done|]. split.
    + rewrite Hi, Hm1, Hmid, so_set_set. f_equal. f_equal. by destruct s.
    + intros j Hj. rewrite (Ho j Hj). unfold M1. by rewrite mirror_book_insert, decide_False.
Qed.

Lemma book_feed M i seq b m : represents b m -> so_wf m -> mirror_book M i = so_empty ->
  exists M', spec_feed M (side_entries i seq Buy (all_bids b) ++ side_entries i seq Sell (all_asks b)) = (M', O) /\
    mirror_book M' i = m /\ forall j, j <> i -> mirror_book M' j = mirror_book M j.
Proof.
  intros [_ Hm] [W1 W2 W3] He. unfold all_bids, all_asks. rewrite !Hm. cbn [so_side].
  destruct (adds_feed i Buy seq (so_bids m) M) as (M1 & F1 & H1 & O1).
  { rewrite He. apply (W1 Buy). }
  { rewrite He. cbn. rewrite fmap_app in W2. by apply NoDup_app in W2 as (? & _). }
  { apply (W3 Buy). }
  rewrite He in H1. cbn in H1.
  destruct (adds_feed i Sell seq (so_asks m) M1) as (M2 & F2 & H2 & O2).
  { rewrite H1. apply (W1 Sell). }
  { rewrite H1. exact W2. }
  { apply (W3 Sell). }
  exists M2. rewrite spec_feed_app, F1, F2. split; [done|]. split.
  - rewrite H2, H1. by destruct m.
  - intros j Hj. by rewrite (O2 j Hj), (O1 j Hj).
Qed.
Lemma entries_feed bm M0 seq : books_rep bm M0 -> mirror_wf M0 -> forall ids M, NoDup ids ->
  (forall i, i ∈ ids -> mirror_book M i = so_empty) ->
  exists M', spec_feed M (mjoin (book_entries bm seq <$> ids)) = (M', O) /\
    forall j, mirror_book M' j = if decide (j ∈ ids) then mirror_book M0 j else mirror_book M j.
Proof.
  intros Hb HM. induction ids as [|i ids IH]; intros M Hn He.
  { exists M. split; [done|]. intros j. rewrite decide_False by set_solver. done. }
  apply NoDup_cons in Hn as [Hi Hn]. change (mjoin _) with (book_entries bm seq i ++ mjoin (book_entries bm seq <$> ids)).
  destruct (book_feed M i seq _ _ (Hb i) (HM i) (He i ltac:(by left))) as (M1 & F1 & H1 & O1).
  destruct (IH M1 Hn) as (M2 & F2 & H2).
  { intros j Hj. rewrite O1; [apply He; by right|]. by intros ->. }
  exists M2. rewrite spec_feed_app. unfold book_entries at 1. rewrite F1, F2. split; [done|]. intros j. rewrite H2.
  destruct (decide (j = i)) as [->|Hj].
  - by rewrite decide_False, decide_True by (done || by left).
  - rewrite (O1 j Hj). destruct (decide (j ∈ ids)) as [Hin|Hin].
    + by rewrite decide_True by by right.
    + by rewrite decide_False by (rewrite elem_of_cons; tauto).
Qed.
Lemma snapshot_feed bm M0 seq : books_rep bm M0 -> mirror_wf M0 -> exists M',
  spec_feed ∅ (snapshot_entries bm seq) = (M', O) /\ forall j, mirror_book M' j = mirror_book M0 j.
Proof.
  intros Hb HM. destruct (entries_feed bm M0 seq Hb HM (instruments bm) ∅) as (M' & Hf & H').
  - unfold instruments. rewrite merge_sort_Permutation. apply NoDup_elements.
  - intros i _. unfold mirror_book. by rewrite lookup_empty.
  - exists M'. split; [exact Hf|]. intros j. rewrite H'. destruct (decide (j ∈ instruments bm)) as [_|Hj]; [done|].
    unfold instruments in Hj. rewrite merge_sort_Permutation, elem_of_elements in Hj.
    destruct (Hb j) as [_ Ho]. assert (Hnew : manager_book_for bm j = OrderBook_new).
    { unfold manager_book_for. rewrite (not_elem_of_dom_1 (bm_books bm) j) by set_solver. done. }
    rewrite Hnew in Ho. unfold mirror_book at 1. rewrite lookup_empty. cbn.
    destruct (mirror_book M0 j) as [bids asks]. pose proof (Ho Buy) as HB. pose proof (Ho Sell) as HS. cbn in HB, HS. by subst.
Qed.

(** ** Reading frames *)
Section Frame.
Context (e : Event) (tail : list byte) (He : event_wf e).

Lemma frame_header : take HEADER_SIZE (event_bytes e ++ tail) = header_bytes (event_header e).
Proof. unfold event_bytes. rewrite <- app_assoc. by rewrite <- (length_md_header (event_header e)), take_app_length. Qed.
Lemma frame_tail : drop HEADER_SIZE (event_bytes e ++ tail) = payload_bytes e ++ tail.
Proof. unfold event_bytes. rewrite <- app_assoc. by rewrite <- (length_md_header (event_header e)), drop_app_length. Qed.
Lemma frame_decode_header : decode_header (header_bytes (event_header e)) = inl (event_header e).
Proof.
  destruct He as (Hs & Ht & _). rewrite <- (app_nil_r (header_bytes _)). apply decode_md_header; [done|done|].
  assert (hd_payload_size (event_header e) = payload_size_for (hd_type (event_header e))) as -> by by destruct e.
  apply md_payload_range.
Qed.
Lemma frame_payload : Z.to_nat (hd_payload_size (event_header e)) = List.length (payload_bytes e).
Proof.
  pose proof (length_md_payload e) as Hl.
  assert (hd_payload_size (event_header e) = payload_size_for (hd_type (event_header e))) as -> by by destruct e. lia.
Qed.
Lemma frame_decode : decode_event (header_bytes (event_header e) ++ payload_bytes e) = inl e.
Proof. pose proof (decode_event_bytes e [] He) as H. by rewrite app_nil_r in H. Qed.

Lemma next_event_frame : next_event (event_bytes e ++ tail) = (Some (inl e), tail).
Proof.
  unfold next_event. rewrite frame_header, frame_tail, length_md_header, frame_decode_header, frame_payload. cbn [Nat.eqb Nat.ltb].
  rewrite take_app_length, drop_app_length, !Nat.ltb_irrefl, frame_decode. done.
Qed.
End Frame.

Lemma read_entry_frame i s seq o tail bm M : event_wf (snapshot_entry i s seq o) -> books_rep bm M ->
  (spec_apply M (snapshot_entry i s seq o)).2 = None -> exists bm',
  read_entry (event_bytes (snapshot_entry i s seq o) ++ tail) bm = Some (tail, bm') /\
  books_rep bm' (spec_apply M (snapshot_entry i s seq o)).1.
Proof.
  set (e := snapshot_entry i s seq o). intros He Hb Hc. unfold read_entry.
  rewrite (frame_header e tail), (frame_tail e tail), length_md_header, (frame_decode_header e He), (frame_payload e He), Nat.ltb_irrefl.
  rewrite take_app_length, drop_app_length, Nat.ltb_irrefl, (frame_decode e He). cbn.
  destruct (add_order_refines _ _ (Hb i) (ov_order_id o) (ov_price o) (ov_quantity o) s) as (b' & m' & Ha & -> & Hr).
  unfold spec_apply in *. cbn [e event_op snapshot_entry ao_instrument_id ao_order_id ao_price ao_quantity ao_side] in *.
  rewrite Ha. destruct (spec_add _ _ _ _ _) as [so err]. cbn in Hc. subst err. eexists. split; [done|]. by apply store_rep.
Qed.
Definition is_entry (e : Event) : Prop := exists i s seq o, e = snapshot_entry i s seq o.
Lemma read_entries_frames evs : Forall event_wf evs -> Forall is_entry evs -> forall fuel bm M tail,
  (List.length evs < fuel)%nat -> books_rep bm M -> (spec_feed M evs).2 = O -> exists bm',
  read_entries fuel (Z.of_nat (List.length evs)) (events_bytes evs ++ tail) bm = Some bm' /\ books_rep bm' (spec_feed M evs).1.
Proof.
  induction 1 as [|e evs Hw Hws IH]; intros Hen fuel bm M tail Hf Hb Hc.
  { exists bm. split; [|done]. destruct fuel; [cbn in Hf; lia|done]. }
  apply Forall_cons in Hen as [(i & s & seq & o & ->) Hen]. destruct fuel as [|fuel]; [cbn in Hf; lia|].
  change (events_bytes (snapshot_entry i s seq o :: evs)) with (event_bytes (snapshot_entry i s seq o) ++ events_bytes evs).
  rewrite <- app_assoc. cbn [List.length spec_feed read_entries] in *.
  assert (He : (spec_apply M (snapshot_entry i s seq o)).2 = None).
  { destruct (spec_apply M _) as [M1 [err|]]; [|done]. cbn in Hc. by destruct (spec_feed M1 evs). }
  destruct (read_entry_frame i s seq o (events_bytes evs ++ tail) bm M Hw Hb He) as (bm1 & Hr & Hb1).
  rewrite (proj2 (Z.leb_gt _ _)) by lia. rewrite Hr. destruct (spec_apply M _) as [M1 err]. cbn in He. subst err. cbn [fst] in *.
  destruct (IH Hen fuel bm1 M1 tail ltac:(lia) Hb1) as (bm2 & Hr2 & Hb2); [by destruct (spec_feed M1 evs)|].
  assert (Z.of_nat (S (List.length evs)) - 1 = Z.of_nat (List.length evs)) as -> by lia.
  exists bm2. split; [exact Hr2|]. by destruct (spec_feed M1 evs).
Qed.

(** ** Snapshots *)
Lemma all_orders_ok bm M i s : books_rep bm M -> mirror_wf M -> Forall ov_ok (all_orders (manager_book_for bm i) s).
Proof. intros Hb HM. destruct (Hb i) as [_ ->]. apply HM. Qed.
Lemma snapshot_entries_wf bm M seq : books_rep bm M -> mirror_wf M -> u64_ok seq ->
  (forall i, i ∈ instruments bm -> u32_ok i) ->
  Forall event_wf (snapshot_entries bm seq) /\ Forall is_entry (snapshot_entries bm seq).
Proof.
  intros Hb HM Hseq Hi.
  assert (H : forall e, e ∈ snapshot_entries bm seq -> event_wf e /\ is_entry e); [|split; apply Forall_forall; intros e He; by apply H].
  intros e (l & Hel & (i & -> & Hin)%list_elem_of_fmap)%list_elem_of_join.
  assert (Hs : forall s, e ∈ side_entries i seq s (all_orders (manager_book_for bm i) s) -> event_wf e /\ is_entry e).
  { intros s (o & -> & Ho)%list_elem_of_fmap. split; [|by exists i, s, seq, o].
    pose proof (all_orders_ok bm M i s Hb HM) as Hok. rewrite Forall_forall in Hok. destruct (Hok o Ho) as (H1 & H2 & H3).
    specialize (Hi i Hin). unfold u64_ok, u32_ok in *. unfold event_wf, u64_ok, u32_ok, s64_ok. cbn. lia. }
  unfold book_entries in Hel. apply elem_of_app in Hel as [Hel|Hel]; [by apply (Hs Buy)|by apply (Hs Sell)].
Qed.
Lemma snapshot_round_trip bm M seq : books_rep bm M -> mirror_wf M -> u64_ok seq ->
  (forall i, i ∈ instruments bm -> u32_ok i) -> Z.of_nat (List.length (snapshot_entries bm seq)) < two64 ->
  exists loaded M', read_snapshot (write_snapshot seq bm) = Some loaded /\ sl_sequence_number loaded = seq /\
    books_rep (sl_books loaded) M' /\ forall i, mirror_book M' i = mirror_book M i.
Proof.
  intros Hb HM Hseq Hi Hlt. rewrite write_snapshot_bytes by done. destruct (snapshot_entries_wf bm M seq Hb HM Hseq Hi) as [Hw He].
  destruct (snapshot_feed bm M seq Hb HM) as (M' & Hf & HM'). set (evs := snapshot_entries bm seq) in *.
  set (n := Z.of_nat (List.length evs)) in *. unfold u64_ok in Hseq.
  set (header := be 4 SNAPSHOT_MAGIC ++ be 2 SNAPSHOT_VERSION ++ be 2 0 ++ be 8 seq ++ be 8 n).
  assert (Hh : be 4 SNAPSHOT_MAGIC ++ be 2 SNAPSHOT_VERSION ++ be 2 0 ++ be 8 seq ++ be 8 n ++ events_bytes evs = header ++ events_bytes evs)
    by (unfold header; by rewrite <- !app_assoc).
  rewrite Hh. assert (Hhl : List.length header = SNAPSHOT_HEADER_SIZE) by (unfold header; by autorewrite with bytes).
  unfold read_snapshot. rewrite take_app_length', drop_app_length', Hhl, Nat.ltb_irrefl by done.
  rewrite <- (app_nil_r header). unfold header at 1. rewrite <- !app_assoc.
  rewrite (get_u32_put SNAPSHOT_MAGIC) by (unfold SNAPSHOT_MAGIC; lia). rewrite (get_u16_put SNAPSHOT_VERSION) by (unfold SNAPSHOT_VERSION; lia).
  run_reads. rewrite !Z.eqb_refl. cbn [negb orb].
  pose proof (read_entries_frames evs Hw He (S (List.length (header ++ events_bytes evs))) BookManager_new ∅ []) as Hr.
  rewrite app_nil_r in Hr. rewrite Hf in Hr. destruct Hr as (bm' & Hr & Hb').
  { rewrite length_app. pose proof (length_events_bytes_ge evs). lia. }
  { apply new_books_rep. }
  { done. }
  fold n in Hr. rewrite Hr. eexists _, M'. split; [done|]. by split.
Qed.
