(* ===== verification/FeedMirror.v ===== *)
(** * The subscriber's books mirror the exchange's

    A published stream, cut into datagrams in any way, received from the
    start: every check is in order, no book refuses an event, and the books
    are a copy of the exchange's, level by level at the front. *)
From S2P Require Import Prelude Types PriceQueues MatchingBook BookReads BookSpec MatchingEngine EngineSpec EngineWf EngineRefine EngineProcess EngineRefinement EngineFacts EngineTheorems ByteIO CommandCodec MarketDataCodec TraderBook TraderBookSpec SequenceValidator TraderBooks FeedReplay FeedPublisher FeedCommands FeedHistory FeedBooks Packet FeedRecovery.
From Stdlib Require Import String.

Import OrderBook.
Local Open Scope Z_scope.
Local Open Scope list_scope.

(** ** A published stream *)

(** The validator has seen nothing, or everything below [n]. *)
Definition awaits (v : SequenceValidator) (n : Sequence) : Prop := last_seen v = None \/ last_seen v = Some (n - 1).
Lemma check_awaited v n : awaits v n -> 0 < n < two64 -> check v n = ({| last_seen := Some n |}, plain_check InOrder n).
Proof.
  intros [H|H] Hn; unfold check; rewrite H; [done|]. rewrite u64_small by lia.
  assert (n - 1 + 1 = n) as -> by lia. by rewrite Z.eqb_refl.
Qed.

Lemma publish_all_wf clock evs : (forall k, u64_ok (clock k)) -> Forall wire_ok evs -> forall n, 0 < n ->
  n + Z.of_nat (List.length evs) < two64 ->
  Forall MarketData.event_wf (publish_all clock {| mp_next_sequence := n |} evs).2.
Proof.
  intros Hc Hw. revert clock Hc. induction Hw as [|ev evs Hev Hw IH]; intros clock Hc n Hn0 Hn; [constructor|].
  cbn [List.length] in Hn. cbn [publish_all]. specialize (IH (fun k => clock (S k)) (fun k => Hc (S k))).
  destruct (publish (clock O) _ ev) as [[n'] [m|]] eqn:Hp.
  - destruct (publish_wf _ _ _ _ _ Hp Hev (Hc O)) as (Hm & _ & Hn'); [cbn; unfold u64_ok; lia|]. cbn in Hn'. subst n'.
    rewrite u64_small by lia. specialize (IH (n + 1) ltac:(lia) ltac:(lia)).
    destruct (publish_all _ _ evs) as [p2 ms]. by constructor.
  - apply publish_private in Hp as [[= ->] _]. specialize (IH n ltac:(lia) ltac:(lia)).
    by destruct (publish_all _ _ evs) as [p2 ms].
Qed.

Section Receive.
Context (fs : string -> option (list byte)).
Abbreviation opts := FeedSubscriberOptions_replay.

Definition in_step (fd : FeedSubscriber) (M : Mirror) (n : Sequence) : Prop :=
  books_rep (rp_books (fd_outcome fd)) M /\ quiet (rp_stats (fd_outcome fd)) /\ awaits (fd_validator fd) n.
Definition reached (fd fd' : FeedSubscriber) : Prop :=
  fd_packets_received fd' = fd_packets_received fd /\ fd_packet_errors fd' = fd_packet_errors fd.

Lemma receive_published now p ev p' m fd M : publish now p ev = (p', Some m) -> feed_clean M ev ->
  sequence_of m = mp_next_sequence p -> 0 < mp_next_sequence p < two64 -> in_step fd M (mp_next_sequence p) ->
  exists fd' note, receive_frame fs opts fd (inl m) = Some (fd', [(m, note)]) /\
    in_step fd' (feed_apply M ev) (mp_next_sequence p + 1) /\ reached fd fd'.
Proof.
  intros Hp Hc Hseq Hn (Hb & Hq & Ha). unfold receive_frame, apply_frame_result. rewrite Hseq, (check_awaited _ _ Ha Hn).
  cbn [sc_outcome plain_check]. rewrite decide_True by done. unfold process_event. cbn [with_stats rp_books rp_stats].
  destruct (apply_published now p ev p' m (rp_books (fd_outcome fd)) M (count CtMessages (rp_stats (fd_outcome fd))) Hp Hb Hc Hq)
    as (bm' & stats' & -> & Hb' & Hq').
  cbn. eexists _, _. split; [done|]. split; [|done]. split; [done|]. split; [done|]. right. cbn. f_equal. lia.
Qed.
Lemma receive_all evs : forall clock n fd M, (forall k, u64_ok (clock k)) -> Forall wire_ok evs -> stream_clean M evs ->
  0 < n -> n + Z.of_nat (List.length evs) < two64 -> in_step fd M n ->
  exists fd' notes n', receive_frames fs opts fd (inl <$> (publish_all clock {| mp_next_sequence := n |} evs).2) = Some (fd', notes) /\
    in_step fd' (feed_run M evs) n' /\ reached fd fd' /\ notes.*1 = (publish_all clock {| mp_next_sequence := n |} evs).2.
Proof.
  induction evs as [|ev evs IH]; intros clock n fd M Hc Hw Hcl Hn0 Hn Hin; [by exists fd, [], n|].
  apply Forall_cons in Hw as [Hev Hw]. destruct Hcl as [Hc1 Hcl]. cbn [List.length] in Hn. cbn [publish_all].
  destruct (publish (clock O) _ ev) as [[n1] [m|]] eqn:Hp.
  - destruct (publish_wf _ _ _ _ _ Hp Hev (Hc O)) as (_ & Hseq & Hn'); [cbn; unfold u64_ok; lia|].
    destruct (receive_published _ _ _ _ _ fd M Hp Hc1 Hseq) as (fd1 & note & Hr & Hin1 & Hre); [cbn; lia|done|].
    cbn in Hn', Hin1. subst n1. rewrite u64_small by lia.
    destruct (IH (fun k => clock (S k)) (n + 1) fd1 (feed_apply M ev) (fun k => Hc (S k)) Hw Hcl ltac:(lia) ltac:(lia) Hin1)
      as (fd2 & notes & n2 & Hr2 & Hin2 & Hre2 & Hn2).
    destruct (publish_all _ _ evs) as [p2 ms]. cbn [snd] in *. exists fd2, ((m, note) :: notes), n2.
    cbn [fmap list_fmap receive_frames]. rewrite Hr. cbn [mbind option_bind]. rewrite Hr2. cbn.
    destruct Hre, Hre2. split; [done|]. split; [done|]. split; [split; congruence|]. f_equal. exact Hn2.
  - apply publish_private in Hp as [[= ->] Hop].
    assert (HM : feed_apply M ev = M) by (unfold feed_apply; by rewrite Hop).
    cbn in Hcl. rewrite HM in Hcl.
    destruct (IH (fun k => clock (S k)) n fd M (fun k => Hc (S k)) Hw Hcl ltac:(lia) ltac:(lia) Hin) as (fd2 & notes & n2 & Hr2 & Hin2 & H2).
    destruct (publish_all _ _ evs) as [p2 ms]. exists fd2, notes, n2. unfold feed_run in *. cbn [foldl]. rewrite HM. done.
Qed.

(** ** Datagrams *)
Lemma receive_frames_app fd l1 l2 : receive_frames fs opts fd (l1 ++ l2) =
  match receive_frames fs opts fd l1 with
  | Some (fd1, n1) => match receive_frames fs opts fd1 l2 with Some (fd2, n2) => Some (fd2, n1 ++ n2) | None => None end
  | None => None
  end.
Proof.
  revert fd. induction l1 as [|f l1 IH]; intros fd; [cbn; by destruct (receive_frames fs opts fd l2) as [[? ?]|]|].
  cbn [receive_frames app]. destruct (receive_frame fs opts fd f) as [[fd1 n1]|]; [|done]. cbn. rewrite IH.
  destruct (receive_frames fs opts fd1 l1) as [[fd2 n2]|]; [|done]. cbn.
  destruct (receive_frames fs opts fd2 l2) as [[fd3 n3]|]; [|done]. cbn. by rewrite app_assoc.
Qed.
(** One batch per datagram, in order, each under some packet number. *)
Definition batch_ok (b : Z * list MarketData.Event) : Prop :=
  u64_ok b.1 /\ b.2 <> [] /\ Z.of_nat (List.length b.2) <= Packet.MAX_FRAMES_PER_DATAGRAM /\ Forall MarketData.event_wf b.2.
Definition datagrams_of (batches : list (Z * list MarketData.Event)) : list (list byte) :=
  (fun b => Packet.pack_frames b.1 b.2) <$> batches.
Lemma receive_packed batches : Forall batch_ok batches -> forall fd,
  receive_datagrams fs opts fd (datagrams_of batches) = receive_frames fs opts fd (inl <$> mjoin batches.*2).
Proof.
  unfold datagrams_of. induction 1 as [|[k b] batches (Hk & Hne & Hlen & Hwf) Hbs IH]; intros fd; [done|].
  cbn [fst snd] in *. change Packet.MAX_FRAMES_PER_DATAGRAM with 29 in Hlen.
  destruct (Packet.unpack_pack k b Hk Hne ltac:(lia) Hwf) as (h & Hu & _).
  cbn [fmap list_fmap receive_datagrams]. unfold receive_datagram. cbn [fst snd]. rewrite Hu. cbn [Packet.up_frames].
  change (mjoin (b :: batches.*2)) with (b ++ mjoin batches.*2). rewrite fmap_app, receive_frames_app.
  destruct (receive_frames fs opts fd _) as [[fd1 n1]|]; [|done]. cbn [mbind option_bind]. rewrite <- IH.
  done.
Qed.
End Receive.

(** ** What the books show *)
Definition view_of (o : BookOrder) : OrderView :=
  {| ov_order_id := bo_exchange_order_id o; ov_price := bo_price o; ov_quantity := bo_remaining_quantity o |}.
(** The level of price [p] among resting orders. *)
Definition level_of (l : list BookOrder) (p : Price) : PriceLevelView :=
  let at_p := filter (fun o => bo_price o = p) l in
  {| plv_price := p; plv_aggregate_quantity := u64 (foldr (fun o z => bo_remaining_quantity o + z) 0 at_p);
     plv_order_count := Z.of_nat (List.length at_p) |}.

Lemma front_best b m s x y : represents b m -> head (so_side m s) = Some x -> y ∈ so_side m s ->
  better_eq s (ov_price x) (ov_price y) = true.
Proof.
  intros [W Hm] Hx Hy. rewrite <- Hm in Hx, Hy. unfold all_orders in *. pose proof (sorted_keys_sorted s (views b s)) as Hs.
  rewrite <- views_keys in Hs. apply head_Some in Hx as [l Hx].
  assert (Hp : forall z, z ∈ all_orders b s -> ov_price z ∈ prices b s).
  { intros z Hz. apply elem_of_all_orders in Hz as (lv & n & Hl & _). unfold prices.
    rewrite elem_of_sorted_keys, lookup_fmap, Hl. eauto. }
  destruct (prices b s) as [|p ps] eqn:Ep; [done|]. apply StronglySorted_inv in Hs as [_ Hs].
  assert (ov_price x = p) as ->.
  { destruct (levels b s !! p) as [lv|] eqn:El.
    - destruct (wf_level b W _ _ _ El) as (_ & Hne & _). cbn in Hx. rewrite El in Hx. cbn in Hx.
      destruct (pl_orders lv); [done|]. by injection Hx as <- _.
    - exfalso. assert (Hin : p ∈ prices b s) by (rewrite Ep; by left). unfold prices in Hin.
      rewrite elem_of_sorted_keys, lookup_fmap, El in Hin. by destruct Hin. }
  specialize (Hp y). unfold all_orders in Hp. rewrite Ep in Hp. apply Hp in Hy. apply elem_of_cons in Hy as [->|Hy].
  - apply better_eq_refl.
  - rewrite Forall_forall in Hs. by apply Hs.
Qed.
Lemma level_perm l k p : l ≡ₚ view_of <$> k -> spec_level l p = level_of k p.
Proof.
  intros H. unfold spec_level, level_of. assert (Hf : filter (fun x => ov_price x = p) l ≡ₚ view_of <$> filter (fun o => bo_price o = p) k).
  { rewrite H. clear H. induction k as [|o k IH]; [done|]. rewrite fmap_cons, !filter_cons. cbn [view_of ov_price].
    case_decide; [by rewrite fmap_cons, IH|done]. }
  rewrite (Permutation_length Hf), length_fmap. f_equal. f_equal.
  rewrite (foldr_permutation_proper (=) (fun x z => ov_quantity x + z) 0 ltac:(intros; cbn; lia) _ _ Hf).
  generalize (filter (fun o => bo_price o = p) k). intros k'. induction k' as [|o k' IH]; [done|]. cbn. by rewrite IH.
Qed.

Section Views.
Context (e : MatchingEngine MatchingBook) (st : Spec) (W : engine_wf e) (R : refines e st) (M : Mirror) (Hm : mirrors st M)
  (bm : BookManager) (Hb : books_rep bm M).

Lemma mirrored_orders i s : 0 <= i -> all_orders (manager_book_for bm i) s ≡ₚ view_of <$> side_orders e i s.
Proof.
  intros Hi. destruct (Hb i) as [_ Ho]. rewrite Ho, (Hm i s), (side_orders_spec e st W R i s Hi), <- list_fmap_compose. done.
Qed.
Lemma mirrored_best i s : 0 <= i ->
  best (manager_book_for bm i) s = (fun o => level_of (side_orders e i s) (bo_price o)) <$> head (side_orders e i s).
Proof.
  intros Hi. rewrite (best_refines _ _ (Hb i) s). pose proof (mirrored_orders i s Hi) as Hp.
  pose proof (sp_side_sorted e st W R i s Hi) as Hs. pose proof (side_orders_spec e st W R i s Hi) as Hso.
  pose proof (fun x y => front_best _ _ s x y (Hb i)) as Hf'. destruct (Hb i) as [_ Ho]. rewrite Ho in Hp. set (l := so_side (mirror_book M i) s) in *.
  destruct (side_orders e i s) as [|o k] eqn:Ek; [by apply Permutation_nil_r in Hp as ->|].
  destruct l as [|x l'] eqn:El; [by apply Permutation_nil in Hp|]. cbn [head fmap option_fmap option_map]. f_equal.
  rewrite (level_perm (x :: l') (o :: k) _ Hp). f_equal.
  assert (H1 : better_eq s (ov_price x) (bo_price o) = true).
  { assert (Hin : view_of o ∈ x :: l') by (rewrite Hp; by left). by apply (Hf' x (view_of o)). }
  assert (H2 : better_eq s (bo_price o) (ov_price x) = true).
  { assert (Hin : x ∈ view_of <$> (o :: k)) by (rewrite <- Hp; by left).
    apply list_elem_of_fmap in Hin as (o' & -> & Ho'). cbn. apply elem_of_cons in Ho' as [->|Ho']; [apply better_eq_refl|].
    destruct (sp_side st i s) as [|r rs]; [done|]. injection Hso as -> ->. apply StronglySorted_inv in Hs as [_ Hs].
    apply list_elem_of_fmap in Ho' as (r' & -> & Hr'). rewrite Forall_forall in Hs. by apply Hs. }
  destruct s; cbn in *; lia.
Qed.
End Views.

(** ** Runs over an event file

    A recorded stream read back in order rebuilds the books of its events;
    with a hole in it and a snapshot of the other side of the hole, so does
    the recovering run. *)

Import OrderBook MarketData Packet.
Local Open Scope Z_scope.
Local Open Scope list_scope.

Lemma event_file_bytes evs : event_file evs = events_bytes evs.
Proof.
  unfold event_file. assert (H : forall out, foldl write_event out evs = out ++ events_bytes evs); [|apply H].
  induction evs as [|e evs IH]; intros out; cbn [foldl]; [by rewrite app_nil_r|].
  rewrite IH. unfold write_event. rewrite encode_event_bytes. cbn [app]. by rewrite <- app_assoc.
Qed.

(** The events carry the numbers from [n] on. *)
Fixpoint numbered (n : Sequence) (evs : list Event) : Prop :=
  match evs with [] => True | e :: evs => sequence_of e = n /\ numbered (n + 1) evs end.
Lemma messages_numbered_app evs1 evs2 : forall n,
  numbered n (evs1 ++ evs2) <-> numbered n evs1 /\ numbered (n + Z.of_nat (List.length evs1)) evs2.
Proof.
  induction evs1 as [|e evs1 IH]; intros n; cbn [app numbered List.length]; [rewrite Z.add_0_r; tauto|].
  rewrite IH. assert (n + 1 + Z.of_nat (List.length evs1) = n + Z.of_nat (S (List.length evs1))) as -> by lia. tauto.
Qed.

Definition seen_after (v : SequenceValidator) (n : Sequence) (evs : list Event) : SequenceValidator :=
  match evs with [] => v | _ => {| last_seen := Some (n + Z.of_nat (List.length evs) - 1) |} end.

Section Run.
Context (fs : string -> option (list byte)) (options : ReplayOptions).

(** One event in order. *)
Definition grown (n k : nat) (o o' : ReplayOutcome) : Prop :=
  rp_stopped_early o' = rp_stopped_early o /\ rs_decode_failures (rp_stats o') = rs_decode_failures (rp_stats o) /\
  rs_sequence_failures (rp_stats o') = rs_sequence_failures (rp_stats o) /\ rs_recoveries (rp_stats o') = rs_recoveries (rp_stats o) /\
  rs_messages_processed (rp_stats o') = u64 (rs_messages_processed (rp_stats o) + Z.of_nat n) /\
  rs_book_errors (rp_stats o') = u64 (rs_book_errors (rp_stats o) + Z.of_nat k).
Definition counted (o : ReplayOutcome) : Prop := u64_ok (rs_messages_processed (rp_stats o)) /\ u64_ok (rs_book_errors (rp_stats o)).

Lemma grown_trans n1 k1 n2 k2 o1 o2 o3 : grown n1 k1 o1 o2 -> grown n2 k2 o2 o3 -> grown (n1 + n2) (k1 + k2) o1 o3.
Proof.
  intros (A1 & A2 & A3 & A4 & A5 & A6) (B1 & B2 & B3 & B4 & B5 & B6).
  split; [congruence|]. split; [congruence|]. split; [congruence|]. split; [congruence|].
  rewrite B5, B6, A5, A6, !u64_add_idemp_l, !Nat2Z.inj_add, !Z.add_assoc. done.
Qed.
Lemma process_event_grows ev v o M : books_rep (rp_books o) M -> counted o -> exists o',
  process_event ev v o = Some (false, v, o') /\ books_rep (rp_books o') (spec_apply M ev).1 /\ counted o' /\
  grown 1 (match (spec_apply M ev).2 with Some _ => 1 | None => 0 end) o o'.
Proof.
  intros Hb (C1 & C2). unfold process_event. cbn [with_stats rp_books rp_stats].
  destruct (apply_event_refines ev (rp_books o) M (count CtMessages (rp_stats o)) Hb) as (bm' & -> & Hb').
  set (s := rp_stats o) in *. set (s' := count_error _ _). destruct (spec_apply M ev) as [M1 err].
  assert (Hm : rs_messages_processed s' = u64 (rs_messages_processed s + 1)) by by destruct err, ev.
  assert (He : rs_book_errors s' = match err with Some _ => u64 (rs_book_errors s + 1) | None => rs_book_errors s end)
    by by destruct err, ev.
  assert (Hrest : rs_decode_failures s' = rs_decode_failures s /\ rs_sequence_failures s' = rs_sequence_failures s /\
    rs_recoveries s' = rs_recoveries s) by by destruct err, ev.
  clearbody s'. cbn. eexists. split; [done|]. split; [done|]. unfold counted, grown, u64_ok in *. cbn.
  fold s. rewrite Hm, He. split.
  - split; [apply u64_range|]. destruct err; [apply u64_range|done].
  - destruct err; cbn; rewrite ?Z.add_0_r, ?(u64_small (rs_book_errors s)) by done; tauto.
Qed.
Lemma frame_in_order ev v o M n : sequence_of ev = n -> 0 < n < two64 -> awaits v n -> books_rep (rp_books o) M -> counted o ->
  exists o', apply_frame_result fs (inl ev) v options o = Some (false, {| last_seen := Some n |}, o') /\
    books_rep (rp_books o') (spec_apply M ev).1 /\ counted o' /\
    grown 1 (match (spec_apply M ev).2 with Some _ => 1 | None => 0 end) o o'.
Proof.
  intros Hs Hn Ha Hb Hc. unfold apply_frame_result. rewrite Hs, (check_awaited _ _ Ha Hn). cbn [sc_outcome plain_check].
  rewrite decide_True by done. by apply process_event_grows.
Qed.
Lemma run_in_order evs : Forall event_wf evs -> forall n fuel v o M rest, numbered n evs -> 0 < n ->
  n + Z.of_nat (List.length evs) <= two64 -> awaits v n -> books_rep (rp_books o) M -> counted o ->
  exists o', run_loop fs (List.length evs + fuel) options (events_bytes evs ++ rest) v o =
    run_loop fs fuel options rest (seen_after v n evs) o' /\
    books_rep (rp_books o') (spec_feed M evs).1 /\ counted o' /\ grown (List.length evs) (spec_feed M evs).2 o o'.
Proof.
  induction 1 as [|ev evs Hw Hws IH]; intros n fuel v o M rest Hnum Hn0 Hn Ha Hb Hc.
  { exists o. split; [done|]. split; [done|]. split; [done|].
    destruct Hc. unfold grown. cbn. rewrite !Z.add_0_r, !u64_small by done. done. }
  destruct Hnum as [Hs Hnum]. cbn [List.length] in *. cbn [Nat.add run_loop].
  change (events_bytes (ev :: evs)) with (event_bytes ev ++ events_bytes evs). rewrite <- app_assoc, next_event_frame by done.
  destruct (frame_in_order ev v o M n Hs ltac:(lia) Ha Hb Hc) as (o1 & -> & Hb1 & Hc1 & G1). cbn [mbind option_bind].
  assert (Ha1 : awaits {| last_seen := Some n |} (n + 1)) by (right; cbn; f_equal; lia).
  destruct (IH (n + 1) fuel {| last_seen := Some n |} o1 (spec_apply M ev).1 rest Hnum ltac:(lia) ltac:(lia) Ha1 Hb1 Hc1)
    as (o2 & -> & Hb2 & Hc2 & G2).
  exists o2. split.
  { f_equal. unfold seen_after. cbn [List.length]. destruct evs; f_equal; f_equal; cbn [List.length]; lia. }
  cbn [spec_feed].
  pose proof (grown_trans _ _ _ _ _ _ _ G1 G2) as G. destruct (spec_apply M ev) as [M1 err]. cbn [fst snd] in *.
  destruct (spec_feed M1 evs) as [M2 k]. split; [done|]. split; [done|]. by destruct err.
Qed.
End Run.

(** ** Whole files *)
Lemma replay_in_order fs options ns path evs n : fs path = Some (event_file evs) -> Forall event_wf evs -> numbered n evs ->
  0 < n -> n + Z.of_nat (List.length evs) <= two64 ->
  exists o, run_replay fs ns path options = Some (with_stats o (with_duration (rp_stats o) ns)) /\
    books_rep (rp_books o) (spec_feed ∅ evs).1 /\ grown (List.length evs) (spec_feed ∅ evs).2 ReplayOutcome_new o.
Proof.
  intros Hf Hw Hnum Hn0 Hn. unfold run_replay. rewrite Hf, event_file_bytes.
  pose proof (length_events_bytes_ge evs) as Hl. set (fuel := (List.length (events_bytes evs) - List.length evs)%nat).
  assert (S (List.length (events_bytes evs)) = (List.length evs + S fuel)%nat) as -> by lia.
  destruct (run_in_order fs options evs Hw n (S fuel) SequenceValidator_new ReplayOutcome_new ∅ [] Hnum Hn0 Hn)
    as (o & Hr & Hb & _ & G); [by left|apply new_books_rep|by split; split|].
  rewrite app_nil_r in Hr. rewrite Hr. cbn. by exists o.
Qed.

(** ** Instruments of a feed *)
Definition all_u32 (bm : BookManager) : Prop :=
  (forall i, is_Some (bm_books bm !! i) -> u32_ok i) /\ (forall i, is_Some (bm_stats bm !! i) -> u32_ok i).
Lemma insert_u32 {A} (m : gmap Z A) k x : u32_ok k -> (forall i, is_Some (m !! i) -> u32_ok i) ->
  forall i, is_Some (<[k := x]> m !! i) -> u32_ok i.
Proof. intros Hk Hm i. destruct (decide (k = i)) as [->|Hne]; [done|]. rewrite lookup_insert_ne by done. apply Hm. Qed.
Lemma apply_event_u32 ev bm stats bm' stats' : event_wf ev -> apply_event ev bm stats = Some (bm', stats') ->
  all_u32 bm -> all_u32 bm'.
Proof.
  intros (_ & _ & Hw) He [H1 H2]. destruct ev as [a|a|a|a|a]; cbn in He, Hw.
  - destruct (add_order _ _ _ _ _) as [b err]. injection He as <- _. split; [|done]. apply insert_u32; [tauto|done].
  - destruct (cancel_order _ _) as [[b err]|]; [|done]. injection He as <- _. split; [|done]. apply insert_u32; [tauto|done].
  - destruct (modify_order _ _ _ _) as [[b err]|]; [|done]. injection He as <- _. split; [|done]. apply insert_u32; [tauto|done].
  - injection He as <- _. split; [done|]. apply insert_u32; [tauto|done].
  - injection He as <- _. split; [|done]. apply insert_u32; [tauto|done].
Qed.
Lemma apply_events_u32 evs : Forall event_wf evs -> forall bm stats bm' stats',
  apply_events evs bm stats = Some (bm', stats') -> all_u32 bm -> all_u32 bm'.
Proof.
  induction 1 as [|ev evs Hw Hws IH]; intros bm stats bm' stats' He Hu; cbn in He; [by injection He as <- _|].
  destruct (apply_event ev bm stats) as [[bm1 stats1]|] eqn:E; [|done]. eapply IH; [exact He|]. by eapply apply_event_u32.
Qed.
Lemma instruments_u32 bm i : all_u32 bm -> i ∈ instruments bm -> u32_ok i.
Proof.
  intros [H1 H2]. unfold instruments. rewrite merge_sort_Permutation, elem_of_elements, elem_of_union, !elem_of_dom. naive_solver.
Qed.
Lemma feed_snapshot evs seq bm stats stats' : Forall event_wf evs -> apply_events evs BookManager_new stats = Some (bm, stats') ->
  u64_ok seq -> Z.of_nat (List.length (snapshot_entries bm seq)) < two64 ->
  exists loaded, read_snapshot (write_snapshot seq bm) = Some loaded /\ sl_sequence_number loaded = seq /\
    books_rep (sl_books loaded) (spec_feed ∅ evs).1 /\ books_rep bm (spec_feed ∅ evs).1.
Proof.
  intros Hw He Hseq Hlt. destruct (apply_events_refines evs BookManager_new ∅ stats new_books_rep) as (bm' & s' & He' & Hb & _).
  rewrite He in He'. injection He' as <- _.
  assert (Hu : all_u32 bm).
  { eapply apply_events_u32; [done|exact He|]. split; intros i [? Hi]; by cbn in Hi. }
  destruct (snapshot_round_trip bm _ seq Hb (spec_feed_wf evs Hw ∅ mirror_wf_empty) Hseq
    (fun i => instruments_u32 bm i Hu) Hlt) as (loaded & M' & Hr & Hs & Hb' & HM').
  exists loaded. split; [done|]. split; [done|]. split; [|done]. intros i. rewrite <- HM'. apply Hb'.
Qed.

(** ** A hole and its recovery *)
Section Hole.
Context (fs : string -> option (list byte)) (options : ReplayOptions) (snapshot_path : string)
  (before lost after : list Event) (ev : Event) (n : Sequence).
Context (Hbefore : before <> []) (Hlost : lost <> [])
  (Hw : Forall event_wf (before ++ lost ++ ev :: after)) (Hnum : numbered n (before ++ lost ++ ev :: after)) (Hn0 : 0 < n)
  (Hn : n + Z.of_nat (List.length (before ++ lost ++ ev :: after)) <= two64).
Context (seq : Sequence) (bm : BookManager) (stats stats' : ReplayStats)
  (Hbm : apply_events (before ++ lost) BookManager_new stats = Some (bm, stats')) (Hseq : u64_ok seq)
  (Hlt : Z.of_nat (List.length (snapshot_entries bm seq)) < two64)
  (Hpath : recovery_snapshot_path options = Some snapshot_path) (Hsnap : fs snapshot_path = Some (write_snapshot seq bm)).

Lemma hole_frame v o : v = seen_after SequenceValidator_new n before -> counted o -> exists o',
  apply_frame_result fs (inl ev) v options o = Some (false, {| last_seen := Some (sequence_of ev) |}, o') /\
  books_rep (rp_books o') (spec_feed ∅ (before ++ lost ++ [ev])).1 /\ counted o' /\
  rp_stopped_early o' = rp_stopped_early o /\
  rs_sequence_failures (rp_stats o') = u64 (rs_sequence_failures (rp_stats o) + 1) /\
  rs_recoveries (rp_stats o') = u64 (rs_recoveries (rp_stats o) + 1).
Proof.
  intros -> Hc. assert (Hs : sequence_of ev = n + Z.of_nat (List.length before) + Z.of_nat (List.length lost)).
  { apply messages_numbered_app in Hnum as [_ Hnum']. by apply messages_numbered_app in Hnum' as [_ [Hs _]]. }
  rewrite !length_app in Hn. cbn [List.length] in Hn.
  assert (Hb0 : (0 < List.length before)%nat /\ (0 < List.length lost)%nat) by (destruct before, lost; cbn; [done..|lia]).
  unfold seen_after. destruct before as [|e0 before0] eqn:Eb; [done|]. rewrite <- Eb in *. unfold apply_frame_result.
  rewrite check_classifies by lia. rewrite Z.max_r, (proj2 (Z.eqb_neq _ _)), (proj2 (Z.eqb_neq _ _)), (proj2 (Z.ltb_ge _ _)) by lia.
  cbn [sc_outcome]. rewrite decide_False by done. rewrite Hpath, decide_True by done. rewrite Hsnap. cbn [mbind option_bind].
  rewrite app_assoc in Hw. apply Forall_app in Hw as [Hw' _].
  destruct (feed_snapshot _ seq bm stats stats' Hw' Hbm Hseq Hlt) as (loaded & -> & _ & Hb & _). unfold reset.
  set (o2 := with_stats _ _). assert (Hc2 : counted o2) by (destruct Hc; by split).
  destruct (process_event_grows ev {| last_seen := Some (sequence_of ev) |} o2 _ Hb Hc2) as (o' & Hp & Hb' & Hc' & G).
  exists o'. split; [exact Hp|]. split.
  - rewrite app_assoc, spec_feed_app. destruct (spec_feed ∅ (before ++ lost)) as [M1 k1]. cbn [fst spec_feed] in *.
    by destruct (spec_apply M1 ev).
  - split; [done|]. destruct G as (G1 & _ & G2 & G3 & _). rewrite G1, G2, G3. done.
Qed.
Lemma hole_run ns path : fs path = Some (event_file (before ++ ev :: after)) -> exists o,
  run_replay fs ns path options = Some (with_stats o (with_duration (rp_stats o) ns)) /\
  books_rep (rp_books o) (spec_feed ∅ (before ++ lost ++ ev :: after)).1 /\ rp_stopped_early o = false /\
  rs_sequence_failures (rp_stats o) = 1 /\ rs_recoveries (rp_stats o) = 1.
Proof.
  intros Hf. pose proof Hw as [Hwb [_ [Hwe Hwa]%Forall_cons]%Forall_app]%Forall_app.
  pose proof Hnum as [Hnb [_ [Hse Hna]]%messages_numbered_app]%messages_numbered_app.
  pose proof Hn as Hn'. rewrite !length_app in Hn'. cbn [List.length] in Hn'. unfold run_replay. rewrite Hf, event_file_bytes, events_bytes_app.
  change (events_bytes (ev :: after)) with (event_bytes ev ++ events_bytes after).
  set (file := events_bytes before ++ _).
  assert (Hlen : (List.length before + S (List.length after) <= List.length file)%nat).
  { unfold file. change (event_bytes ev ++ events_bytes after) with (events_bytes (ev :: after)).
    rewrite length_app. pose proof (length_events_bytes_ge before). pose proof (length_events_bytes_ge (ev :: after)). cbn [List.length] in *. lia. }
  set (k := (List.length file - List.length before - S (List.length after))%nat).
  assert (S (List.length file) = (List.length before + S (List.length after + S k))%nat) as -> by lia. unfold file.
  destruct (run_in_order fs options before Hwb n (S (List.length after + S k)) SequenceValidator_new ReplayOutcome_new ∅
    (event_bytes ev ++ events_bytes after) Hnb Hn0 ltac:(lia)) as (o1 & -> & _ & Hc1 & G1); [by left|apply new_books_rep|by split; split|].
  cbn [run_loop]. rewrite next_event_frame by done.
  destruct (hole_frame _ o1 eq_refl Hc1) as (o2 & -> & Hb2 & Hc2 & E1 & E2 & E3). cbn [mbind option_bind].
  set (m := n + Z.of_nat (List.length before) + Z.of_nat (List.length lost)) in *.
  destruct (run_in_order fs options after Hwa (m + 1) (S k) {| last_seen := Some (sequence_of ev) |} o2
    (spec_feed ∅ (before ++ lost ++ [ev])).1 [] Hna ltac:(lia) ltac:(lia))
    as (o3 & Hr & Hb3 & _ & G3); [right; cbn; f_equal; lia|exact Hb2|done|].
  rewrite app_nil_r in Hr. rewrite Hr. cbn. exists o3. split; [done|].
  destruct G1 as (A1 & _ & A2 & A3 & _), G3 as (B1 & _ & B2 & B3 & _). rewrite B1, E1, A1, B2, E2, A2, B3, E3, A3.
  split; [|done]. change (ev :: after) with ([ev] ++ after). rewrite !app_assoc, spec_feed_app, <- app_assoc.
  destruct (spec_feed ∅ _) as [M1 k1]. cbn [fst] in *. by destruct (spec_feed M1 after).
Qed.
End Hole.
