(* ===== verification/FeedClaims.v ===== *)
(** * Properties of the market-data feed

    From the exchange's events to the trader's books: the published stream
    mirrors the exchange, the books implement their specification on any
    stream, snapshots and event files read back, a hole is detected exactly
    and repaired from a snapshot, and packets round-trip. *)
From Stdlib Require Import String.
From S2P Require Import Prelude Types ByteIO CommandCodec MarketDataCodec MatchingBook BookReads BookSpec MatchingEngine EngineSpec EngineWf EngineRefine EngineProcess EngineRefinement EngineFacts EngineTheorems EngineClaims TraderBook TraderBookSpec TraderBooks SequenceValidator FeedReplay FeedPublisher FeedCommands FeedHistory FeedBooks Packet FeedRecovery FeedMirror.
Import OrderBook.
Local Open Scope Z_scope.
Local Open Scope list_scope.

(** Discharge ranges of concrete values. *)
Ltac solve_ranges :=
  repeat match goal with
  | |- True => exact I
  | |- _ /\ _ => split
  | |- Forall _ [] => constructor
  | |- Forall _ (_ :: _) => constructor
  | |- command_wf _ => cbn
  | |- MarketData.event_wf _ => unfold MarketData.event_wf; cbn
  | |- u64_ok _ => unfold u64_ok
  | |- u32_ok _ => unfold u32_ok
  | |- s64_ok _ => unfold s64_ok
  | |- _ <= _ => vm_compute; discriminate
  | |- _ < _ => vm_compute; reflexivity
  end.
Definition no_files : string -> option (list byte) := fun _ => None.

(** ** The mirror *)

(** C12: the feed mirrors the exchange.  Whatever history of admissible
    commands produced the exchange's events, publish them, cut the published
    messages into datagrams in any way the batch limit allows, and hand the
    datagrams to a fresh subscriber: every packet and frame is accepted,
    every sequence number is in order, no book refuses a message, the
    strategies are shown exactly the published messages in order, and for
    every instrument and side the subscriber's book holds exactly the
    exchange's resting orders, with the same best price, the same quantity
    at it and the same number of orders. *)
Theorem feed_mirrors_book universe expected cmds e evs clock batches fs i s :
  history universe expected cmds e evs -> Forall command_wf cmds ->
  Z.of_nat (List.length cmds) < two64 - 1 -> Z.of_nat (List.length evs) < two64 - 1 ->
  (forall k, u64_ok (clock k)) -> mjoin batches.*2 = (publish_all clock MarketDataPublisher_new evs).2 ->
  Forall (fun b => u64_ok b.1 /\ b.2 <> [] /\ Z.of_nat (List.length b.2) <= Packet.MAX_FRAMES_PER_DATAGRAM) batches -> 0 <= i ->
  exists fd notes,
    receive_batch fs FeedSubscriberOptions_replay FeedSubscriber_new (datagrams_of batches) = Some (fd, notes) /\
    notes.*1 = mjoin batches.*2 /\ fd_packet_errors fd = 0 /\ quiet (rp_stats (fd_outcome fd)) /\
    all_orders (manager_book_for (rp_books (fd_outcome fd)) i) s ≡ₚ view_of <$> side_orders e i s /\
    best (manager_book_for (rp_books (fd_outcome fd)) i) s =
      (fun o => level_of (side_orders e i s) (bo_price o)) <$> head (side_orders e i s).
Proof.
  intros Hh Hc Hn Hm Hclock Hb Hbs Hi. destruct (history_feed _ _ _ _ _ Hh Hc Hn) as (F1 & F2 & F3).
  destruct (history_refines _ _ _ _ _ Hh) as (W & R & _).
  pose proof (publish_all_wf clock evs Hclock F3 1 ltac:(lia) ltac:(lia)) as Hwf.
  change {| mp_next_sequence := 1 |} with MarketDataPublisher_new in Hwf. rewrite <- Hb in Hwf.
  assert (Hok : Forall batch_ok batches).
  { apply Forall_forall. intros b Hin. rewrite Forall_forall in Hbs. destruct (Hbs b Hin) as (B1 & B2 & B3).
    split; [done|]. split; [done|]. split; [done|]. apply Forall_forall. intros m Hmin. rewrite Forall_forall in Hwf. apply Hwf.
    apply list_elem_of_join. exists b.2. split; [done|]. by apply list_elem_of_fmap_2. }
  unfold receive_batch. rewrite receive_packed by done. rewrite Hb. set (fd0 := {| fd_validator := _ |}).
  destruct (receive_all fs evs clock 1 fd0 ∅ Hclock F3 F1) as (fd & notes & n' & Hr & (R1 & R2 & _) & [_ R4] & R5); [lia|lia| |].
  { split; [apply new_books_rep|]. split; [done|]. by left. }
  change {| mp_next_sequence := 1 |} with MarketDataPublisher_new in *. exists fd, notes.
  split; [exact Hr|]. split; [exact R5|]. split; [exact R4|]. split; [exact R2|].
  split; [by eapply mirrored_orders|by eapply mirrored_best].
Qed.
Definition demo_published : list MarketData.Event :=
  (publish_all (fun _ => 5) MarketDataPublisher_new (demo_run demo).2).2.
Definition demo_batches : list (Z * list MarketData.Event) := [(1, take 2 demo_published); (2, drop 2 demo_published)].
Lemma feed_mirrors_book_witness : exists fd notes,
  receive_batch no_files FeedSubscriberOptions_replay FeedSubscriber_new (datagrams_of demo_batches) = Some (fd, notes) /\
  best_bid (manager_book_for (rp_books (fd_outcome fd)) 7) =
    Some {| plv_price := 100; plv_aggregate_quantity := 11; plv_order_count := 2 |}.
Proof.
  destruct (feed_mirrors_book [7] 0 demo demo_engine (demo_run demo).2 (fun _ => 5) demo_batches no_files 7 Buy demo_history)
    as (fd & notes & Hr & _ & _ & _ & _ & Hbest).
  - unfold demo, demo_new. solve_ranges.
  - vm_compute. reflexivity.
  - vm_compute. reflexivity.
  - intros k. solve_ranges.
  - vm_compute. reflexivity.
  - repeat (constructor; [split; [solve_ranges|split; [vm_compute; discriminate|vm_compute; discriminate]]|]). constructor.
  - vm_compute. discriminate.
  - exists fd, notes. split; [exact Hr|]. unfold best_bid. rewrite Hbest. vm_compute. reflexivity.
Defined.

(** ** The trader's books *)

(** C24: the trader's books implement two priority lists per instrument.
    Applied to any messages at all, every operation of the code is defined;
    each book lists exactly the orders of its specification in price-time
    priority, its best level is the front of the list with the exact sum
    (modulo 2^64) and number of the orders at that price, and the book-error
    counter is the number of messages the specification refuses. *)
Theorem trader_books_refine evs i s : Z.of_nat (List.length evs) < two64 -> exists bm stats,
  apply_events evs BookManager_new ReplayStats_zero = Some (bm, stats) /\
  rs_book_errors stats = Z.of_nat (spec_feed ∅ evs).2 /\
  all_orders (manager_book_for bm i) s = so_side (mirror_book (spec_feed ∅ evs).1 i) s /\
  best (manager_book_for bm i) s =
    (fun x => spec_level (so_side (mirror_book (spec_feed ∅ evs).1 i) s) (ov_price x)) <$>
      head (so_side (mirror_book (spec_feed ∅ evs).1 i) s).
Proof.
  intros Hn. destruct (apply_events_refines evs BookManager_new ∅ ReplayStats_zero new_books_rep) as (bm & stats & He & Hb & Hc).
  exists bm, stats. split; [exact He|]. split; [apply Hc; [done|exact Hn]|].
  destruct (Hb i) as [_ Ho]. split; [apply Ho|]. by apply best_refines.
Qed.
Definition add_message (seq id price qty : Z) (s : Side) : MarketData.Event :=
  MarketData.EvAddOrder {| MarketData.ao_sequence_number := seq; MarketData.ao_timestamp_ns := 0; MarketData.ao_order_id := id;
    MarketData.ao_instrument_id := 7; MarketData.ao_price := price; MarketData.ao_quantity := qty; MarketData.ao_side := s |}.
Definition modify_message (seq id price qty : Z) : MarketData.Event :=
  MarketData.EvModifyOrder {| MarketData.mo_sequence_number := seq; MarketData.mo_timestamp_ns := 0; MarketData.mo_order_id := id;
    MarketData.mo_instrument_id := 7; MarketData.mo_new_price := price; MarketData.mo_new_quantity := qty |}.
Definition cancel_message (seq id : Z) : MarketData.Event :=
  MarketData.EvCancelOrder {| MarketData.co_sequence_number := seq; MarketData.co_timestamp_ns := 0; MarketData.co_order_id := id;
    MarketData.co_instrument_id := 7 |}.
Definition demo_messages : list MarketData.Event :=
  [add_message 1 11 100 5 Buy; add_message 2 12 100 6 Buy; add_message 3 13 105 7 Sell; modify_message 4 11 100 4; cancel_message 5 99;
   add_message 6 14 99 3 Buy].
Lemma trader_books_refine_witness : exists bm stats,
  apply_events demo_messages BookManager_new ReplayStats_zero = Some (bm, stats) /\ rs_book_errors stats = 1 /\
  ov_order_id <$> all_orders (manager_book_for bm 7) Buy = [12; 11; 14].
Proof.
  destruct (trader_books_refine demo_messages 7 Buy ltac:(vm_compute; reflexivity)) as (bm & stats & He & Hc & Ho & _).
  exists bm, stats. split; [exact He|]. split; [rewrite Hc|rewrite Ho]; vm_compute; reflexivity.
Defined.

(** ** Files *)

(** C25: a snapshot loses nothing.  The books any well-formed stream built,
    written to a snapshot and read back into a fresh process, are accepted
    and list the same orders in the same priority on every side of every
    instrument, under the sequence number the snapshot was taken at. *)
Theorem snapshot_roundtrip evs seq bm stats stats' i s :
  Forall MarketData.event_wf evs -> apply_events evs BookManager_new stats = Some (bm, stats') -> u64_ok seq ->
  Z.of_nat (List.length (snapshot_entries bm seq)) < two64 ->
  exists loaded, read_snapshot (write_snapshot seq bm) = Some loaded /\ sl_sequence_number loaded = seq /\
    all_orders (manager_book_for (sl_books loaded) i) s = all_orders (manager_book_for bm i) s.
Proof.
  intros Hw He Hseq Hlt. destruct (feed_snapshot evs seq bm stats stats' Hw He Hseq Hlt) as (loaded & Hr & Hs & Hb & Hb0).
  exists loaded. split; [exact Hr|]. split; [exact Hs|]. destruct (Hb i) as [_ ->], (Hb0 i) as [_ ->]. done.
Qed.
Definition demo_books : BookManager :=
  (default (BookManager_new, ReplayStats_zero) (apply_events demo_messages BookManager_new ReplayStats_zero)).1.
Definition demo_stats : ReplayStats :=
  (default (BookManager_new, ReplayStats_zero) (apply_events demo_messages BookManager_new ReplayStats_zero)).2.
Lemma snapshot_roundtrip_witness : exists loaded, read_snapshot (write_snapshot 6 demo_books) = Some loaded /\
  ov_order_id <$> all_orders (manager_book_for (sl_books loaded) 7) Buy = [12; 11; 14].
Proof.
  destruct (snapshot_roundtrip demo_messages 6 demo_books ReplayStats_zero demo_stats 7 Buy) as (loaded & Hr & _ & Ho).
  - unfold demo_messages, add_message, modify_message, cancel_message. solve_ranges.
  - vm_compute. reflexivity.
  - solve_ranges.
  - vm_compute. reflexivity.
  - exists loaded. split; [exact Hr|]. rewrite Ho. vm_compute. reflexivity.
Defined.

(** C13: a hole is repaired.  An event file that lost a block of messages in
    the middle, replayed with a snapshot of the books taken just after the
    lost block: the run reaches the end of the file, reports one sequence
    failure and one recovery, and leaves the books of the whole stream, as
    if nothing had been lost. *)
Theorem recovery_repairs fs options snapshot_path path ns before lost ev after n seq bm stats stats' i s :
  before <> [] -> lost <> [] -> Forall MarketData.event_wf (before ++ lost ++ ev :: after) ->
  numbered n (before ++ lost ++ ev :: after) -> 0 < n ->
  n + Z.of_nat (List.length (before ++ lost ++ ev :: after)) <= two64 ->
  apply_events (before ++ lost) BookManager_new stats = Some (bm, stats') -> u64_ok seq ->
  Z.of_nat (List.length (snapshot_entries bm seq)) < two64 ->
  recovery_snapshot_path options = Some snapshot_path -> fs snapshot_path = Some (write_snapshot seq bm) ->
  fs path = Some (event_file (before ++ ev :: after)) ->
  exists o, run_replay fs ns path options = Some o /\ rp_stopped_early o = false /\
    rs_sequence_failures (rp_stats o) = 1 /\ rs_recoveries (rp_stats o) = 1 /\
    all_orders (manager_book_for (rp_books o) i) s =
      so_side (mirror_book (spec_feed ∅ (before ++ lost ++ ev :: after)).1 i) s.
Proof.
  intros Hb Hl Hw Hnum Hn0 Hn He Hseq Hlt Hp Hs Hf.
  destruct (hole_run fs options snapshot_path before lost after ev n Hb Hl Hw Hnum Hn0 Hn seq bm stats stats' He Hseq Hlt Hp Hs ns path Hf)
    as (o & Hr & Hbr & H1 & H2 & H3).
  eexists. split; [exact Hr|]. cbn. split; [exact H1|]. split; [exact H2|]. split; [exact H3|]. by destruct (Hbr i).
Qed.
Definition hole_before : list MarketData.Event := take 3 demo_messages.
Definition hole_lost : list MarketData.Event := take 2 (drop 3 demo_messages).
Definition hole_books : BookManager :=
  (default (BookManager_new, ReplayStats_zero) (apply_events (hole_before ++ hole_lost) BookManager_new ReplayStats_zero)).1.
Definition hole_stats : ReplayStats :=
  (default (BookManager_new, ReplayStats_zero) (apply_events (hole_before ++ hole_lost) BookManager_new ReplayStats_zero)).2.
Definition hole_files (path : string) : option (list byte) :=
  if String.eqb path "snapshot" then Some (write_snapshot 5 hole_books)
  else Some (event_file (hole_before ++ [add_message 6 14 99 3 Buy])).
Definition hole_options : ReplayOptions :=
  {| stop_on_sequence_error := true; stop_on_decode_error := true; recovery_snapshot_path := Some "snapshot"%string |}.
Lemma recovery_repairs_witness : exists o, run_replay hole_files 0 "events"%string hole_options = Some o /\
  rs_recoveries (rp_stats o) = 1 /\ ov_order_id <$> all_orders (manager_book_for (rp_books o) 7) Buy = [12; 11; 14].
Proof.
  destruct (recovery_repairs hole_files hole_options "snapshot"%string "events"%string 0 hole_before hole_lost (add_message 6 14 99 3 Buy) [] 1 5
    hole_books ReplayStats_zero hole_stats 7 Buy) as (o & Hr & _ & _ & Hrec & Ho).
  - vm_compute. discriminate.
  - vm_compute. discriminate.
  - change (Forall MarketData.event_wf demo_messages). unfold demo_messages, add_message, modify_message, cancel_message. solve_ranges.
  - vm_compute. repeat split.
  - vm_compute. reflexivity.
  - vm_compute. discriminate.
  - vm_compute. reflexivity.
  - solve_ranges.
  - vm_compute. reflexivity.
  - reflexivity.
  - reflexivity.
  - reflexivity.
  - exists o. split; [exact Hr|]. split; [exact Hrec|]. rewrite Ho. vm_compute. reflexivity.
Defined.

(** A recorded stream replays.  Under any options, the run over the file
    a writer made of consecutively numbered messages ends by itself, having
    processed every message with no decode failure, no sequence failure and
    no recovery, with the books of the stream and one book error per message
    they refuse. *)
Lemma event_file_replays fs options path ns evs n i s :
  fs path = Some (event_file evs) -> Forall MarketData.event_wf evs -> numbered n evs -> 0 < n ->
  n + Z.of_nat (List.length evs) <= two64 ->
  exists o, run_replay fs ns path options = Some o /\ rp_stopped_early o = false /\
    rs_messages_processed (rp_stats o) = Z.of_nat (List.length evs) /\
    rs_decode_failures (rp_stats o) = 0 /\ rs_sequence_failures (rp_stats o) = 0 /\ rs_recoveries (rp_stats o) = 0 /\
    rs_book_errors (rp_stats o) = u64 (Z.of_nat (spec_feed ∅ evs).2) /\
    all_orders (manager_book_for (rp_books o) i) s = so_side (mirror_book (spec_feed ∅ evs).1 i) s.
Proof.
  intros Hf Hw Hnum Hn0 Hn. destruct (replay_in_order fs options ns path evs n Hf Hw Hnum Hn0 Hn) as (o & Hr & Hb & G).
  destruct G as (G1 & G2 & G3 & G4 & G5 & G6). eexists. split; [exact Hr|]. cbn in *.
  rewrite G1, G2, G3, G4, G5, G6. split; [done|]. split; [by rewrite u64_small by lia|].
  do 4 (split; [done|]). by destruct (Hb i).
Qed.

(** ** Sequences and packets *)

(** C26: gap detection is exact.  Along any stream of arrivals (losses,
    repeats and reorderings included) that starts after [last], the numbers
    the checks admit together with the ranges they report missing are every
    number from the one after [last] to the highest seen, each exactly once
    and in ascending order. *)
Theorem gaps_reported_exactly last seqs : 0 <= last < two64 - 1 -> Forall (fun s => 0 <= s < two64 - 1) seqs ->
  mjoin (settles <$> checks {| last_seen := Some last |} seqs) = seqZ (last + 1) (foldl Z.max last seqs - last).
Proof. intros Hl Hs. by apply checks_settle. Qed.
Lemma gaps_reported_exactly_witness :
  sc_outcome <$> checks {| last_seen := Some 10 |} [11; 11; 14; 12; 15] = [InOrder; Duplicate; Missing; OutOfOrder; InOrder] /\
  mjoin (settles <$> checks {| last_seen := Some 10 |} [11; 11; 14; 12; 15]) = [11; 12; 13; 14; 15].
Proof.
  split; [reflexivity|]. rewrite (gaps_reported_exactly 10 [11; 11; 14; 12; 15]); [reflexivity|lia|].
  repeat constructor; vm_compute; try discriminate; reflexivity.
Defined.

(** Packets round-trip and fit.  A packet made of a batch within the
    batch limit is one unfragmented datagram, and unpacking it gives back the
    batch, the packet number and the frame count. *)
Lemma packet_roundtrip seq events : u64_ok seq -> events <> [] ->
  Z.of_nat (List.length events) <= Packet.MAX_FRAMES_PER_DATAGRAM -> Forall MarketData.event_wf events ->
  Z.of_nat (List.length (Packet.pack_frames seq events)) <= Packet.MAX_DATAGRAM_PAYLOAD /\
  exists header, Packet.unpack_frames (Packet.pack_frames seq events) =
      inl {| Packet.up_header := header; Packet.up_frames := inl <$> events |} /\
    Packet.ph_packet_sequence header = seq /\ Packet.ph_frame_count header = Z.of_nat (List.length events).
Proof.
  intros Hs Hne Hn Hw. split; [by apply Packet.batch_fits|]. apply Packet.unpack_pack; [done|done| |done].
  change Packet.MAX_FRAMES_PER_DATAGRAM with 29 in Hn. lia.
Qed.
