(* ===== verification/MpscQueue.v ===== *)
(** * The command queue: include/common/mpsc_queue.hpp

    The bounded multi-producer ring buffer, one atomic access per step: a
    producer and the consumer are program counters into [try_push] and
    [try_pop], and a step of either performs the next load, store or
    compare-exchange of its call together with the thread-local work up to
    the following one.  Every interleaving of these steps is a sequentially
    consistent execution; a load that sees an old value under the source's
    relaxed orderings is a load that happened earlier.  A [None] result is
    an access outside the ring or to storage that holds no object. *)
From stdpp Require Import functions.
From S2P Require Import Prelude.

(** [while (p < n) p <<= 1], with the 64-bit shift; [None] when the loop
    never ends (a request beyond 2^63). *)
Fixpoint next_power_of_two_loop (fuel : nat) (p n : Z) : option Z :=
  if p <? n then
    match fuel with O => None | S fuel => next_power_of_two_loop fuel (u64 (Z.shiftl p 1)) n end
  else Some p.
Definition next_power_of_two (n : Z) : option Z := next_power_of_two_loop 64 1 n.

Section Queue.
Context {T : Type}.

(** [storage] is [None] while the bytes hold no constructed object. *)
Record Slot := { published : Z; storage : option T }.
Definition Slot_new : Slot := {| published := 0; storage := None |}.
Record MpscQueue := {
  mq_capacity : Z;
  mq_mask : Z;
  mq_slots : list Slot;
  mq_high_water_mark : Z;
  mq_head : Z;
  mq_tail : Z;
}.
Definition MpscQueue_new (capacity : Z) : option MpscQueue :=
  let* n := next_power_of_two capacity in
  Some {| mq_capacity := n; mq_mask := u64 (n - 1); mq_slots := replicate (Z.to_nat n) Slot_new;
          mq_high_water_mark := 0; mq_head := 0; mq_tail := 0 |}.

Definition slot_index (q : MpscQueue) (i : Z) : nat := Z.to_nat (Z.land i (mq_mask q)).
Definition slot_at (q : MpscQueue) (i : Z) : option Slot := mq_slots q !! slot_index q i.
Definition set_slot (q : MpscQueue) (i : Z) (s : Slot) : MpscQueue :=
  {| mq_capacity := mq_capacity q; mq_mask := mq_mask q; mq_slots := <[slot_index q i := s]> (mq_slots q);
     mq_high_water_mark := mq_high_water_mark q; mq_head := mq_head q; mq_tail := mq_tail q |}.
Definition set_head (q : MpscQueue) (h : Z) : MpscQueue :=
  {| mq_capacity := mq_capacity q; mq_mask := mq_mask q; mq_slots := mq_slots q;
     mq_high_water_mark := mq_high_water_mark q; mq_head := h; mq_tail := mq_tail q |}.
Definition set_tail (q : MpscQueue) (t : Z) : MpscQueue :=
  {| mq_capacity := mq_capacity q; mq_mask := mq_mask q; mq_slots := mq_slots q;
     mq_high_water_mark := mq_high_water_mark q; mq_head := mq_head q; mq_tail := t |}.
Definition set_high_water_mark (q : MpscQueue) (m : Z) : MpscQueue :=
  {| mq_capacity := mq_capacity q; mq_mask := mq_mask q; mq_slots := mq_slots q;
     mq_high_water_mark := m; mq_head := mq_head q; mq_tail := mq_tail q |}.
Definition mq_size (q : MpscQueue) : Z := u64 (mq_head q - mq_tail q).

(** ** Producers *)
Inductive ProducerPc :=
| PuIdle
| PuLoadTail (value : T) (head : Z)          (* top of the reservation loop *)
| PuCompareExchange (value : T) (head : Z)
| PuConstruct (value : T) (head : Z)         (* the slot [head] is reserved *)
| PuPublish (head : Z)
| PuOccupancy (head : Z)
| PuPeak (occupancy : Z)
| PuRaise (occupancy peak : Z).
Inductive PushEvent := Reserved (value : T) | Returned (pushed : bool).

Definition push_begin (q : MpscQueue) (value : T) : ProducerPc := PuLoadTail value (mq_head q).
(** The test of the high-water-mark loop. *)
Definition raise_or_return (occupancy peak : Z) : ProducerPc * option PushEvent :=
  if peak <? occupancy then (PuRaise occupancy peak, None) else (PuIdle, Some (Returned true)).

(** [weak] lets a [compare_exchange_weak] fail with the expected value in
    place.  An idle producer has no step. *)
Definition producer_step (weak : bool) (q : MpscQueue) (pc : ProducerPc)
    : option (MpscQueue * ProducerPc * option PushEvent) :=
  match pc with
  | PuIdle => Some (q, PuIdle, None)
  | PuLoadTail value head =>
      if mq_capacity q <=? u64 (head - mq_tail q) then Some (q, PuIdle, Some (Returned false))
      else Some (q, PuCompareExchange value head, None)
  | PuCompareExchange value head =>
      if weak || negb (mq_head q =? head) then Some (q, PuLoadTail value (mq_head q), None)
      else Some (set_head q (u64 (head + 1)), PuConstruct value head, Some (Reserved value))
  | PuConstruct value head =>
      let* s := slot_at q head in
      Some (set_slot q head {| published := published s; storage := Some value |}, PuPublish head, None)
  | PuPublish head =>
      let* s := slot_at q head in
      Some (set_slot q head {| published := u64 (head + 1); storage := storage s |}, PuOccupancy head, None)
  | PuOccupancy head => Some (q, PuPeak (u64 (head + 1 - mq_tail q)), None)
  | PuPeak occupancy =>
      let (pc, ev) := raise_or_return occupancy (mq_high_water_mark q) in Some (q, pc, ev)
  | PuRaise occupancy peak =>
      if weak || negb (mq_high_water_mark q =? peak) then
        let (pc, ev) := raise_or_return occupancy (mq_high_water_mark q) in Some (q, pc, ev)
      else Some (set_high_water_mark q occupancy, PuIdle, Some (Returned true))
  end.

(** ** The consumer *)
Inductive ConsumerPc :=
| PoCheck (tail : Z)
| PoMove (tail : Z)
| PoDestroy (tail : Z) (value : T)
| PoClear (tail : Z) (value : T)
| PoStoreTail (tail : Z) (value : T).

Definition pop_begin (q : MpscQueue) : ConsumerPc := PoCheck (mq_tail q).
(** The right-hand result is what [try_pop] returns. *)
Definition consumer_step (q : MpscQueue) (pc : ConsumerPc) : option (MpscQueue * (ConsumerPc + option T)) :=
  match pc with
  | PoCheck tail =>
      let* s := slot_at q tail in
      if negb (published s =? u64 (tail + 1)) then Some (q, inr None) else Some (q, inl (PoMove tail))
  | PoMove tail =>
      let* s := slot_at q tail in
      let* value := storage s in
      Some (q, inl (PoDestroy tail value))
  | PoDestroy tail value =>
      let* s := slot_at q tail in
      Some (set_slot q tail {| published := published s; storage := None |}, inl (PoClear tail value))
  | PoClear tail value =>
      let* s := slot_at q tail in
      Some (set_slot q tail {| published := 0; storage := storage s |}, inl (PoStoreTail tail value))
  | PoStoreTail tail value => Some (set_tail q (u64 (tail + 1)), inr (Some value))
  end.
End Queue.
Arguments Slot : clear implicits.
Arguments MpscQueue : clear implicits.
Arguments ProducerPc : clear implicits.
Arguments PushEvent : clear implicits.
Arguments ConsumerPc : clear implicits.

(** ** The command queue: its invariant

    [mpsc_ok q P C hist]: [P] gives every producer's program counter, [C]
    the consumer's while it is inside [try_pop], and [hist] lists the values
    in the order their slots were reserved.  Every step of either side is
    defined and keeps it. *)

Lemma next_power_of_two_loop_spec fuel k n : 0 <= k -> k + Z.of_nat fuel <= 63 -> n <= 2 ^ (k + Z.of_nat fuel) ->
  exists j, next_power_of_two_loop fuel (2 ^ k) n = Some (2 ^ j) /\ k <= j <= 63 /\ n <= 2 ^ j.
Proof.
  revert k; induction fuel as [|fuel IH]; intros k Hk Hf Hn; cbn [next_power_of_two_loop].
  - replace (k + Z.of_nat 0) with k in Hn by lia. rewrite (proj2 (Z.ltb_ge _ _)) by lia. exists k; repeat split; lia.
  - destruct (Z.ltb_spec (2 ^ k) n) as [Hlt|Hge]; [|exists k; repeat split; lia].
    replace (u64 (Z.shiftl (2 ^ k) 1)) with (2 ^ (k + 1)).
    + destruct (IH (k + 1)) as (j & -> & Hj & Hnj); [lia..| |exists j; repeat split; lia].
      replace (k + 1 + Z.of_nat fuel) with (k + Z.of_nat (S fuel)) by lia. exact Hn.
    + rewrite Z.shiftl_mul_pow2, Z.pow_add_r by lia. symmetry; apply u64_small.
      assert (2 ^ k <= 2 ^ 62) by (apply Z.pow_le_mono_r; lia). assert (0 < 2 ^ k) by (apply Z.pow_pos_nonneg; lia).
      change (2 ^ 62) with 4611686018427387904 in *. lia.
Qed.

Lemma next_power_of_two_spec n : n <= two63 ->
  exists k, next_power_of_two n = Some (2 ^ k) /\ 0 <= k <= 63 /\ n <= 2 ^ k.
Proof.
  intros Hn. unfold next_power_of_two.
  destruct (next_power_of_two_loop_spec 63 0 n) as (j & Hj & H1 & H2); [lia|lia|exact Hn|].
  exists j. split; [|split; [lia|exact H2]]. revert Hj. change (2 ^ 0) with 1.
  generalize 1. generalize 63%nat. induction n0 as [|f IH]; intros p Hp.
  - cbn in *. destruct (p <? n); [discriminate|exact Hp].
  - cbn [next_power_of_two_loop] in *. destruct (p <? n); [|exact Hp]. apply IH, Hp.
Qed.

Section Invariant.
Context {T : Type}.
Implicit Types (q : MpscQueue T) (P : nat -> ProducerPc T) (C : option (ConsumerPc T)) (hist : list T).

Definition pu_index (pc : ProducerPc T) : option Z :=
  match pc with PuConstruct _ h | PuPublish h => Some h | _ => None end.
Definition po_index C : option Z :=
  match C with
  | Some (PoMove t) | Some (PoDestroy t _) | Some (PoClear t _) | Some (PoStoreTail t _) => Some t
  | _ => None
  end.
Definition hist_at hist (i : Z) : option T := hist !! Z.to_nat i.
(** A published slot. *)
Definition full_slot (i : Z) (v : T) : Slot T := {| published := i + 1; storage := Some v |}.

Definition producer_ok q hist (pc : ProducerPc T) : Prop :=
  match pc with
  | PuLoadTail _ h => 0 <= h <= mq_head q
  | PuOccupancy h => 0 <= h < mq_head q
  | PuCompareExchange _ h => 0 <= h <= mq_head q /\ (h = mq_head q -> h < mq_tail q + mq_capacity q)
  | PuConstruct v h => mq_tail q <= h < mq_head q /\ hist_at hist h = Some v /\ slot_at q h = Some Slot_new
  | PuPublish h => mq_tail q <= h < mq_head q /\
      exists v, hist_at hist h = Some v /\ slot_at q h = Some {| published := 0; storage := Some v |}
  | _ => True
  end.
Definition consumer_ok q hist C : Prop :=
  match C with
  | None => True
  | Some (PoCheck t) => t = mq_tail q
  | Some (PoMove t) => t = mq_tail q /\ t < mq_head q /\
      exists v, hist_at hist t = Some v /\ slot_at q t = Some (full_slot t v)
  | Some (PoDestroy t v) => t = mq_tail q /\ t < mq_head q /\ hist_at hist t = Some v /\ slot_at q t = Some (full_slot t v)
  | Some (PoClear t v) => t = mq_tail q /\ t < mq_head q /\ hist_at hist t = Some v /\
      slot_at q t = Some {| published := t + 1; storage := None |}
  | Some (PoStoreTail t v) => t = mq_tail q /\ t < mq_head q /\ hist_at hist t = Some v /\ slot_at q t = Some Slot_new
  end.

Record ring_ok q hist : Prop := {
  ring_bits : exists k, 0 <= k <= 63 /\ mq_capacity q = 2 ^ k;
  ring_mask : mq_mask q = mq_capacity q - 1;
  ring_slots : length (mq_slots q) = Z.to_nat (mq_capacity q);
  ring_head : mq_head q = Z.of_nat (length hist);
  ring_window : 0 <= mq_tail q <= mq_head q /\ mq_head q <= mq_tail q + mq_capacity q;
  ring_width : mq_head q + 1 < two64;
}.
Record mpsc_ok q P C hist : Prop := {
  ok_ring : ring_ok q hist;
  ok_free : forall i, mq_head q <= i < mq_tail q + mq_capacity q -> slot_at q i = Some Slot_new;
  ok_full : forall i v, mq_tail q <= i < mq_head q -> hist_at hist i = Some v ->
    (forall p, pu_index (P p) <> Some i) -> po_index C <> Some i -> slot_at q i = Some (full_slot i v);
  ok_unique : forall p p' i, pu_index (P p) = Some i -> pu_index (P p') = Some i -> p = p';
  ok_apart : forall p i, pu_index (P p) = Some i -> po_index C <> Some i;
  ok_producers : forall p, producer_ok q hist (P p);
  ok_consumer : consumer_ok q hist C;
}.

(** ** The ring *)
Lemma capacity_pos q hist : ring_ok q hist -> 0 < mq_capacity q < two64.
Proof.
  intros [(k & Hk & ->) _ _ _ _ _]. split; [apply Z.pow_pos_nonneg; lia|].
  change two64 with (2 ^ 64). apply Z.pow_lt_mono_r; lia.
Qed.

Lemma slot_index_mod q hist i : ring_ok q hist -> slot_index q i = Z.to_nat (i mod mq_capacity q).
Proof.
  intros [(k & Hk & Hc) Hm _ _ _ _]. unfold slot_index. rewrite Hm, Hc.
  rewrite <- Z.land_ones by lia. rewrite Z.ones_equiv. reflexivity.
Qed.

Lemma slot_index_inj q hist i j : ring_ok q hist ->
  mq_tail q <= i < mq_tail q + mq_capacity q -> mq_tail q <= j < mq_tail q + mq_capacity q ->
  slot_index q i = slot_index q j -> i = j.
Proof.
  intros Hr Hi Hj. pose proof (capacity_pos _ _ Hr) as Hc.
  rewrite !(slot_index_mod q hist) by exact Hr. intros He.
  pose proof (Z.mod_pos_bound i (mq_capacity q)). pose proof (Z.mod_pos_bound j (mq_capacity q)).
  assert (Hm : i mod mq_capacity q = j mod mq_capacity q) by lia.
  pose proof (Z.div_mod i (mq_capacity q) ltac:(lia)) as Di. pose proof (Z.div_mod j (mq_capacity q) ltac:(lia)) as Dj.
  rewrite Hm in Di. assert (i / mq_capacity q = j / mq_capacity q) by nia. congruence.
Qed.

Lemma slot_at_set q hist i s : ring_ok q hist -> slot_at (set_slot q i s) i = Some s.
Proof.
  intros Hr. unfold slot_at. cbn [set_slot mq_slots]. change (slot_index (set_slot q i s) i) with (slot_index q i).
  apply list_lookup_insert_eq. pose proof (capacity_pos _ _ Hr).
  rewrite (ring_slots _ _ Hr), (slot_index_mod q hist) by exact Hr.
  pose proof (Z.mod_pos_bound i (mq_capacity q)). lia.
Qed.

Lemma slot_at_set_ne q hist i j s : ring_ok q hist ->
  mq_tail q <= i < mq_tail q + mq_capacity q -> mq_tail q <= j < mq_tail q + mq_capacity q -> i <> j ->
  slot_at (set_slot q i s) j = slot_at q j.
Proof.
  intros Hr Hi Hj Hne. unfold slot_at. cbn [set_slot mq_slots].
  change (slot_index (set_slot q i s) j) with (slot_index q j). apply list_lookup_insert_ne.
  intros He. apply Hne. eapply slot_index_inj; eauto.
Qed.

Lemma ring_set_slot q hist i s : ring_ok q hist -> ring_ok (set_slot q i s) hist.
Proof. intros []; split; cbn [set_slot mq_capacity mq_mask mq_slots mq_head mq_tail]; rewrite ?length_insert; assumption. Qed.

Lemma hist_at_snoc hist (v w : T) i : hist_at hist i = Some v -> hist_at (hist ++ [w]) i = Some v.
Proof. apply lookup_app_l_Some. Qed.
Lemma hist_at_lt hist (v : T) i : 0 <= i -> hist_at hist i = Some v -> i < Z.of_nat (length hist).
Proof. intros Hi H%lookup_lt_Some. lia. Qed.
Lemma hist_at_is_some hist i : 0 <= i < Z.of_nat (length hist) -> exists v, hist_at hist i = Some v.
Proof. intros Hi. apply lookup_lt_is_Some_2. lia. Qed.

(** ** Producer steps *)
(** A step that touches only thread-local state. *)
Lemma ok_local q P C hist p pc : mpsc_ok q P C hist -> pu_index (P p) = None -> pu_index pc = None ->
  producer_ok q hist pc -> mpsc_ok q (<[p := pc]> P) C hist.
Proof.
  intros [Hr Hfree Hfull Hu Ha Hp Hc] Hold Hnew Hok.
  assert (Hi : forall p', pu_index (<[p := pc]> P p') = pu_index (P p')).
  { intros p'. destruct (decide (p = p')) as [<-|Hne]; [rewrite fn_lookup_insert; congruence|].
    by rewrite fn_lookup_insert_ne. }
  split; [exact Hr|exact Hfree| | | | |exact Hc].
  - intros i v Hw Hv Hn. apply Hfull; [exact Hw|exact Hv|]. intros p'. rewrite <- Hi. apply Hn.
  - intros p1 p2 i. rewrite !Hi. apply Hu.
  - intros p' i. rewrite Hi. apply Ha.
  - intros p'. destruct (decide (p = p')) as [<-|Hne]; [by rewrite fn_lookup_insert|by rewrite fn_lookup_insert_ne].
Qed.

Lemma ok_high_water_mark q P C hist m : mpsc_ok q P C hist -> mpsc_ok (set_high_water_mark q m) P C hist.
Proof.
  intros [[] Hfree Hfull Hu Ha Hp Hc]. split; [split; assumption|exact Hfree|exact Hfull|exact Hu|exact Ha| |exact Hc].
  intros p. specialize (Hp p). destruct (P p); exact Hp.
Qed.

(** Facts about another slot survive a store to slot [i]. *)
Lemma producer_ok_set q P C hist i s p : mpsc_ok q P C hist -> mq_tail q <= i < mq_tail q + mq_capacity q ->
  pu_index (P p) <> Some i -> producer_ok (set_slot q i s) hist (P p).
Proof.
  intros [Hr _ _ _ _ Hp _] Hi Hne. pose proof (ring_window _ _ Hr). specialize (Hp p).
  destruct (P p); cbn [producer_ok set_slot mq_head mq_tail mq_capacity pu_index] in *; try exact Hp.
  - destruct Hp as (Hw & Hv & Hs). split; [exact Hw|split; [exact Hv|]].
    rewrite (slot_at_set_ne q hist) by (try exact Hr; try lia; congruence). exact Hs.
  - destruct Hp as (Hw & v & Hv & Hs). split; [exact Hw|exists v; split; [exact Hv|]].
    rewrite (slot_at_set_ne q hist) by (try exact Hr; try lia; congruence). exact Hs.
Qed.
Lemma consumer_ok_set q P C hist i s : mpsc_ok q P C hist -> mq_tail q <= i < mq_tail q + mq_capacity q ->
  po_index C <> Some i -> consumer_ok (set_slot q i s) hist C.
Proof.
  intros [Hr _ _ _ _ _ Hc] Hi Hne. pose proof (ring_window _ _ Hr).
  destruct C as [[]|]; cbn [consumer_ok set_slot mq_head mq_tail mq_capacity po_index] in *; try exact Hc.
  - destruct Hc as (Ht & Hh & v & Hv & Hs). split; [exact Ht|split; [exact Hh|exists v; split; [exact Hv|]]].
    rewrite (slot_at_set_ne q hist) by (try exact Hr; try lia; congruence). exact Hs.
  - destruct Hc as (Ht & Hh & Hv & Hs). split; [exact Ht|split; [exact Hh|split; [exact Hv|]]].
    rewrite (slot_at_set_ne q hist) by (try exact Hr; try lia; congruence). exact Hs.
  - destruct Hc as (Ht & Hh & Hv & Hs). split; [exact Ht|split; [exact Hh|split; [exact Hv|]]].
    rewrite (slot_at_set_ne q hist) by (try exact Hr; try lia; congruence). exact Hs.
  - destruct Hc as (Ht & Hh & Hv & Hs). split; [exact Ht|split; [exact Hh|split; [exact Hv|]]].
    rewrite (slot_at_set_ne q hist) by (try exact Hr; try lia; congruence). exact Hs.
Qed.

(** A store of the producer that holds slot [h]: either it keeps the slot or
    leaves it published. *)
Lemma ok_producer_store q P C hist p h v s pc : mpsc_ok q P C hist -> pu_index (P p) = Some h ->
  mq_tail q <= h < mq_head q -> hist_at hist h = Some v ->
  pu_index pc = Some h \/ (pu_index pc = None /\ s = full_slot h v) ->
  producer_ok (set_slot q h s) hist pc -> mpsc_ok (set_slot q h s) (<[p := pc]> P) C hist.
Proof.
  intros Hok Hold Hh Hv Hpc Hnew. pose proof Hok as [Hr Hfree Hfull Hu Ha Hp Hc].
  pose proof (ring_window _ _ Hr) as [? ?]. assert (Hw : mq_tail q <= h < mq_tail q + mq_capacity q) by lia.
  assert (Hne : forall p', p <> p' -> pu_index (P p') <> Some h) by (intros p' Hn He; apply Hn; eapply Hu; eauto).
  assert (Hsub : forall p' i, pu_index (<[p := pc]> P p') = Some i -> pu_index (P p') = Some i).
  { intros p' i. destruct (decide (p = p')) as [<-|]; [|by rewrite fn_lookup_insert_ne].
    rewrite fn_lookup_insert. destruct Hpc as [->|[-> _]]; [intros [= <-]; exact Hold|discriminate]. }
  split; cbn [set_slot mq_head mq_tail mq_capacity].
  - apply ring_set_slot, Hr.
  - intros i Hi. rewrite (slot_at_set_ne q hist) by (try exact Hr; lia). apply Hfree, Hi.
  - intros i w Hi Hw' Hn Hni. destruct (decide (i = h)) as [->|Hih].
    + destruct Hpc as [Hpc|[_ ->]]; [destruct (Hn p); rewrite fn_lookup_insert; exact Hpc|].
      rewrite (slot_at_set q hist) by exact Hr. congruence.
    + rewrite (slot_at_set_ne q hist) by (try exact Hr; lia). apply Hfull; try assumption.
      intros p' He. apply (Hn p'). destruct (decide (p = p')) as [<-|]; [congruence|by rewrite fn_lookup_insert_ne].
  - intros p1 p2 i H1%Hsub H2%Hsub. eapply Hu; eauto.
  - intros p' i H1%Hsub. eapply Ha, H1.
  - intros p'. destruct (decide (p = p')) as [<-|Hn]; [by rewrite fn_lookup_insert|].
    rewrite fn_lookup_insert_ne by exact Hn. eapply producer_ok_set; eauto.
  - eapply consumer_ok_set; eauto.
Qed.

(** The successful compare-exchange. *)
Lemma ok_reserve q P C hist p v : mpsc_ok q P C hist -> P p = PuCompareExchange v (mq_head q) ->
  Z.of_nat (length hist) + 2 < two64 ->
  mpsc_ok (set_head q (mq_head q + 1)) (<[p := PuConstruct v (mq_head q)]> P) C (hist ++ [v]).
Proof.
  intros Hok Hpc Hlen. pose proof Hok as [Hr Hfree Hfull Hu Ha Hp Hc].
  pose proof (Hp p) as Hroom. rewrite Hpc in Hroom. destruct Hroom as [_ Hroom]. specialize (Hroom eq_refl).
  pose proof (ring_head _ _ Hr) as Hhd. pose proof (ring_window _ _ Hr) as [? ?].
  assert (Hlt : forall p' i, pu_index (P p') = Some i -> mq_tail q <= i < mq_head q).
  { intros p' i Hi. specialize (Hp p'). destruct (P p'); cbn in Hi, Hp; try discriminate; injection Hi as ->; tauto. }
  assert (Hidx : forall p' i, pu_index (<[p := PuConstruct v (mq_head q)]> P p') = Some i ->
    (p = p' /\ i = mq_head q) \/ (p <> p' /\ pu_index (P p') = Some i)).
  { intros p' i. destruct (decide (p = p')) as [<-|Hn]; [rewrite fn_lookup_insert; intros [= <-]; by left|].
    rewrite fn_lookup_insert_ne by exact Hn. by right. }
  split; cbn [set_head mq_head mq_tail mq_capacity].
  - destruct Hr; split; cbn [set_head mq_head mq_tail mq_capacity mq_mask mq_slots]; try assumption; [|lia|lia].
    rewrite length_app. cbn. lia.
  - intros i Hi. apply Hfree. lia.
  - intros i w Hi Hw Hn Hni. destruct (decide (i = mq_head q)) as [->|Hih].
    + destruct (Hn p). by rewrite fn_lookup_insert.
    + apply Hfull; [lia| | |exact Hni].
      * destruct (hist_at_is_some hist i) as [u Hu']; [lia|]. rewrite (hist_at_snoc _ u) in Hw by exact Hu'. congruence.
      * intros p' He. apply (Hn p'). destruct (decide (p = p')) as [<-|Hne]; [rewrite Hpc in He; discriminate|].
        by rewrite fn_lookup_insert_ne.
  - intros p1 p2 i [[<- ->]|[Hn1 H1]]%Hidx [[<- He]|[Hn2 H2]]%Hidx; try reflexivity.
    + apply Hlt in H2. lia.
    + apply Hlt in H1. lia.
    + eapply Hu; eauto.
  - intros p' i [[<- ->]|[_ H1]]%Hidx; [|eapply Ha, H1].
    destruct C as [[]|]; cbn in Hc |- *; try congruence; intros [= ->]; lia.
  - intros p'. destruct (decide (p = p')) as [<-|Hn].
    + rewrite fn_lookup_insert. cbn [producer_ok]. split; [cbn; lia|split; [|apply Hfree; lia]].
      unfold hist_at. rewrite Hhd, Nat2Z.id. apply list_lookup_middle. reflexivity.
    + rewrite fn_lookup_insert_ne by exact Hn. specialize (Hp p').
      destruct (P p'); cbn [producer_ok set_head mq_head mq_tail mq_capacity] in Hp |- *; try exact Hp; try lia.
      * destruct Hp as (? & ? & ?). split; [lia|split; [by apply hist_at_snoc|assumption]].
      * destruct Hp as (? & w & ? & ?). split; [lia|exists w; split; [by apply hist_at_snoc|assumption]].
  - destruct C as [[]|]; cbn [consumer_ok set_head mq_head mq_tail] in Hc |- *; try exact Hc.
    + destruct Hc as (? & ? & w & ? & ?). split; [done|split; [lia|exists w; split; [by apply hist_at_snoc|assumption]]].
    + destruct Hc as (? & ? & ? & ?). split; [done|split; [lia|split; [by apply hist_at_snoc|assumption]]].
    + destruct Hc as (? & ? & ? & ?). split; [done|split; [lia|split; [by apply hist_at_snoc|assumption]]].
    + destruct Hc as (? & ? & ? & ?). split; [done|split; [lia|split; [by apply hist_at_snoc|assumption]]].
Qed.

Definition reserved_of (ev : option (PushEvent T)) : list T :=
  match ev with Some (Reserved v) => [v] | _ => [] end.

Lemma push_begin_ok q P C hist p v : mpsc_ok q P C hist -> P p = PuIdle ->
  mpsc_ok q (<[p := push_begin q v]> P) C hist.
Proof.
  intros Hok Hp. apply ok_local; [exact Hok|by rewrite Hp|done|].
  pose proof (ring_window _ _ (ok_ring _ _ _ _ Hok)). cbn. lia.
Qed.

Lemma raise_or_return_local occ peak q hist pc ev : raise_or_return occ peak = (pc, ev) ->
  reserved_of ev = [] /\ pu_index pc = None /\ producer_ok q hist pc.
Proof. unfold raise_or_return. case_match; intros [= <- <-]; repeat split. Qed.

Theorem producer_step_ok weak q P C hist p : mpsc_ok q P C hist -> Z.of_nat (length hist) + 2 < two64 ->
  exists q' pc' ev, producer_step weak q (P p) = Some (q', pc', ev) /\
    mpsc_ok q' (<[p := pc']> P) C (hist ++ reserved_of ev) /\ mq_tail q' = mq_tail q /\ mq_capacity q' = mq_capacity q.
Proof.
  intros Hok Hlen. pose proof (ok_ring _ _ _ _ Hok) as Hr. pose proof (ring_window _ _ Hr) as [? ?].
  pose proof (ring_width _ _ Hr). pose proof (capacity_pos _ _ Hr). pose proof (ok_producers _ _ _ _ Hok p) as Hp.
  assert (Hloc : forall pc, pu_index (P p) = None -> pu_index pc = None -> producer_ok q hist pc ->
    mpsc_ok q (<[p := pc]> P) C (hist ++ [])).
  { intros. rewrite app_nil_r. by apply ok_local. }
  destruct (P p) as [|v h|v h|v h|h|h|occ|occ peak] eqn:Hpc; cbn [producer_step producer_ok] in *.
  - eexists _, _, _; split; [reflexivity|split; [apply Hloc; done|done]].
  - destruct (Z.leb_spec (mq_capacity q) (u64 (h - mq_tail q))) as [Hfull|Hroom].
    + eexists _, _, _; split; [reflexivity|split; [apply Hloc; done|done]].
    + eexists _, _, _; split; [reflexivity|split; [apply Hloc; try done|done]].
      cbn. split; [lia|]. intros ->. rewrite u64_small in Hroom by lia. lia.
  - destruct Hp as [Hh Hroom]. destruct weak; cbn [orb].
    { eexists _, _, _; split; [reflexivity|split; [apply Hloc; try done; cbn; lia|done]]. }
    destruct (Z.eqb_spec (mq_head q) h) as [<-|Hne]; cbn [negb].
    + pose proof (ring_head _ _ Hr). rewrite u64_small by lia.
      eexists _, _, _; split; [reflexivity|split; [by apply ok_reserve|done]].
    + eexists _, _, _; split; [reflexivity|split; [apply Hloc; try done; cbn; lia|done]].
  - destruct Hp as (Hw & Hv & Hs). rewrite Hs. eexists _, _, _; split; [reflexivity|split; [|done]].
    cbn [reserved_of]. rewrite app_nil_r.
    apply (ok_producer_store q P C hist p h v); [exact Hok|by rewrite Hpc|exact Hw|exact Hv|by left|].
    cbn. split; [exact Hw|exists v; split; [exact Hv|by rewrite (slot_at_set q hist)]].
  - destruct Hp as (Hw & v & Hv & Hs). rewrite Hs. eexists _, _, _; split; [reflexivity|split; [|done]].
    cbn [reserved_of]. rewrite app_nil_r, u64_small by lia.
    apply (ok_producer_store q P C hist p h v); [exact Hok|by rewrite Hpc|exact Hw|exact Hv|by right|cbn; lia].
  - eexists _, _, _; split; [reflexivity|split; [apply Hloc; done|done]].
  - destruct (raise_or_return occ (mq_high_water_mark q)) as [pc ev] eqn:Hrr.
    destruct (raise_or_return_local _ _ q hist _ _ Hrr) as (He & Hi & Ho).
    eexists _, _, _; split; [reflexivity|split; [rewrite He; apply Hloc; done|done]].
  - destruct (weak || negb (mq_high_water_mark q =? peak)).
    + destruct (raise_or_return occ (mq_high_water_mark q)) as [pc ev] eqn:Hrr.
      destruct (raise_or_return_local _ _ q hist _ _ Hrr) as (He & Hi & Ho).
      eexists _, _, _; split; [reflexivity|split; [rewrite He; apply Hloc; done|done]].
    + eexists _, _, _; split; [reflexivity|split; [|done]]. apply ok_high_water_mark. by apply Hloc.
Qed.

(** ** A push that nobody interrupts *)
Fixpoint push_run (n : nat) (q : MpscQueue T) (pc : ProducerPc T) : option (MpscQueue T * ProducerPc T * list (PushEvent T)) :=
  match n with
  | O => Some (q, pc, [])
  | S n =>
      let* (q, pc, ev) := producer_step false q pc in
      let* (q, pc, evs) := push_run n q pc in
      Some (q, pc, option_list ev ++ evs)
  end.
Lemma slot_at_store q i s : is_Some (slot_at q i) -> slot_at (set_slot q i s) i = Some s.
Proof. intros H. unfold slot_at. cbn. apply list_lookup_insert_eq. by eapply lookup_lt_is_Some_1. Qed.
Lemma push_run_step n q pc q1 pc1 ev q2 pc2 evs : producer_step false q pc = Some (q1, pc1, ev) ->
  push_run n q1 pc1 = Some (q2, pc2, evs) -> push_run (S n) q pc = Some (q2, pc2, option_list ev ++ evs).
Proof. intros H1 H2. cbn [push_run]. by rewrite H1, H2. Qed.
(** The last steps: the occupancy is recorded if it is the highest yet. *)
Lemma occupancy_run n q h : push_run (3 + n) q (PuOccupancy h) =
  Some (set_high_water_mark q (Z.max (mq_high_water_mark q) (u64 (h + 1 - mq_tail q))), PuIdle, [Returned true]).
Proof.
  assert (Hidle : forall q', push_run n q' PuIdle = Some (q', PuIdle, [])).
  { intros q'. induction n as [|m IH]; [done|]. cbn. by rewrite IH. }
  cbn. unfold raise_or_return. destruct (Z.ltb_spec (mq_high_water_mark q) (u64 (h + 1 - mq_tail q))).
  - cbn. rewrite Z.eqb_refl. cbn. rewrite Hidle. cbn. by rewrite Z.max_r by lia.
  - cbn. rewrite Hidle. cbn. rewrite Z.max_l by lia. by destruct q.
Qed.
Lemma push_alone q P C hist v : mpsc_ok q P C hist -> mq_head q - mq_tail q < mq_capacity q ->
  exists q', push_run 7 q (push_begin q v) = Some (q', PuIdle, [Reserved v; Returned true]).
Proof.
  intros Hok Hroom. pose proof (ok_ring _ _ _ _ Hok) as Hr. pose proof (ring_window _ _ Hr) as [? ?]. pose proof (ring_width _ _ Hr).
  pose proof (ok_free _ _ _ _ Hok (mq_head q)) as Hfree.
  assert (Hs : slot_at (set_head q (u64 (mq_head q + 1))) (mq_head q) = Some Slot_new) by (apply Hfree; lia).
  eexists. unfold push_begin.
  eapply (push_run_step _ _ _ _ _ None); [cbn; rewrite u64_small by lia; by rewrite (proj2 (Z.leb_gt _ _)) by lia|].
  eapply (push_run_step _ _ _ _ _ (Some (Reserved v)) _ _ [Returned true]); [cbn; by rewrite Z.eqb_refl|].
  eapply (push_run_step _ _ _ _ _ None); [cbn; by rewrite Hs|].
  eapply (push_run_step _ _ _ _ _ None); [cbn; by rewrite slot_at_store by (by rewrite Hs)|].
  apply (occupancy_run 0).
Qed.

(** ** Consumer steps *)
Lemma pop_begin_ok q P hist : mpsc_ok q P None hist -> mpsc_ok q P (Some (pop_begin q)) hist.
Proof. intros [Hr Hfree Hfull Hu Ha Hp Hc]. split; try assumption; done. Qed.

Lemma ok_pop_none q P c hist : mpsc_ok q P (Some (PoCheck c)) hist -> mpsc_ok q P None hist.
Proof. intros [Hr Hfree Hfull Hu Ha Hp Hc]. split; try assumption; done. Qed.

(** The consumer's pop, past the check, owns the oldest slot. *)
Lemma ok_consumer_store q P C hist s c : mpsc_ok q P C hist -> mq_tail q < mq_head q ->
  po_index C = Some (mq_tail q) -> po_index (Some c) = Some (mq_tail q) ->
  consumer_ok (set_slot q (mq_tail q) s) hist (Some c) ->
  mpsc_ok (set_slot q (mq_tail q) s) P (Some c) hist.
Proof.
  intros Hok Ht Hi Hi' Hnew. pose proof Hok as [Hr Hfree Hfull Hu Ha Hp Hc].
  pose proof (ring_window _ _ Hr) as [? ?]. split; cbn [set_slot mq_head mq_tail mq_capacity].
  - apply ring_set_slot, Hr.
  - intros i Hw. rewrite (slot_at_set_ne q hist) by (try exact Hr; lia). apply Hfree, Hw.
  - intros i v Hw Hv Hn Hni. rewrite Hi' in Hni. rewrite (slot_at_set_ne q hist) by (try exact Hr; try lia; congruence).
    apply Hfull; try assumption. by rewrite Hi.
  - exact Hu.
  - intros p i H1. rewrite Hi', <- Hi. eapply Ha, H1.
  - intros p. eapply producer_ok_set; [exact Hok|lia|]. intros H1%Ha. congruence.
  - exact Hnew.
Qed.

Lemma ok_store_tail q P hist v : mpsc_ok q P (Some (PoStoreTail (mq_tail q) v)) hist ->
  mpsc_ok (set_tail q (mq_tail q + 1)) P None hist.
Proof.
  intros [Hr Hfree Hfull Hu Ha Hp (_ & Hlt & Hv & Hs)]. pose proof (ring_window _ _ Hr) as [? ?].
  assert (Hup : forall p i, pu_index (P p) = Some i -> i <> mq_tail q).
  { intros p i H1%Ha ->. by apply H1. }
  split; cbn [set_tail mq_head mq_tail mq_capacity].
  - destruct Hr; split; cbn [set_tail mq_head mq_tail mq_capacity mq_mask mq_slots]; try assumption. lia.
  - intros i Hi. destruct (decide (i = mq_tail q + mq_capacity q)) as [->|Hne]; [|apply Hfree; lia].
    rewrite <- Hs. unfold slot_at. cbn [set_tail mq_slots].
    change (slot_index (set_tail q (mq_tail q + 1))) with (slot_index q).
    rewrite !(slot_index_mod q hist) by exact Hr. pose proof (capacity_pos _ _ Hr).
    rewrite <- Z.add_mod_idemp_r, Z.mod_same, Z.add_0_r by lia. reflexivity.
  - intros i w Hw Hv' Hn Hni. apply Hfull; [lia|assumption|assumption|]. cbn. intros [= Hi]. lia.
  - exact Hu.
  - intros p i _. done.
  - intros p. specialize (Hp p). specialize (Hup p).
    destruct (P p); cbn [producer_ok set_tail mq_head mq_tail mq_capacity pu_index] in *; try exact Hp; try lia.
    + specialize (Hup _ eq_refl). destruct Hp as (? & ? & ?). split; [lia|split; assumption].
    + specialize (Hup _ eq_refl). destruct Hp as (? & w & ? & ?). split; [lia|exists w; split; assumption].
  - exact I.
Qed.

(** What a failed pop says: the queue is empty, or its oldest slot is
    reserved and not yet published. *)
Definition nothing_ready q P : Prop :=
  ~ (mq_tail q < mq_head q /\ forall p, pu_index (P p) <> Some (mq_tail q)).

Theorem consumer_step_ok q P c hist : mpsc_ok q P (Some c) hist ->
  exists q' r, consumer_step q c = Some (q', r) /\ mq_head q' = mq_head q /\ mq_capacity q' = mq_capacity q /\
    match r with
    | inl c' => mpsc_ok q' P (Some c') hist /\ mq_tail q' = mq_tail q
    | inr None => mpsc_ok q' P None hist /\ q' = q /\ nothing_ready q P
    | inr (Some v) => mpsc_ok q' P None hist /\ mq_tail q' = mq_tail q + 1 /\ hist_at hist (mq_tail q) = Some v
    end.
Proof.
  intros Hok. pose proof (ok_ring _ _ _ _ Hok) as Hr. pose proof (ring_window _ _ Hr) as [? ?].
  pose proof (ring_width _ _ Hr). pose proof (capacity_pos _ _ Hr). pose proof (ok_consumer _ _ _ _ Hok) as Hc.
  destruct c as [t|t|t v|t v|t v]; cbn [consumer_step consumer_ok] in *.
  - subst t. destruct (slot_at q (mq_tail q)) as [s|] eqn:Hs.
    2:{ unfold slot_at in Hs. apply lookup_ge_None_1 in Hs. rewrite (ring_slots _ _ Hr), (slot_index_mod q hist) in Hs by exact Hr.
        pose proof (Z.mod_pos_bound (mq_tail q) (mq_capacity q)). lia. }
    destruct (Z.eqb_spec (published s) (u64 (mq_tail q + 1))) as [Hpub|Hpub]; cbn [negb].
    + destruct (decide (mq_head q = mq_tail q)) as [He|Hne].
      { rewrite (ok_free _ _ _ _ Hok) in Hs by lia. injection Hs as <-. cbn [Slot_new published] in Hpub.
        rewrite u64_small in Hpub by lia. lia. }
      rewrite u64_small in Hpub by lia.
      assert (Hnp : forall p, pu_index (P p) <> Some (mq_tail q)).
      { intros p Hi. pose proof (ok_producers _ _ _ _ Hok p) as Hp.
        destruct (P p); cbn in Hi, Hp; try discriminate; injection Hi as ->.
        - destruct Hp as (_ & _ & Hs'). rewrite Hs in Hs'. injection Hs' as ->. cbn in Hpub. lia.
        - destruct Hp as (_ & w & _ & Hs'). rewrite Hs in Hs'. injection Hs' as ->. cbn in Hpub. lia. }
      destruct (hist_at_is_some hist (mq_tail q)) as [v Hv]; [pose proof (ring_head _ _ Hr); lia|].
      pose proof (ok_full _ _ _ _ Hok (mq_tail q) v ltac:(lia) Hv Hnp ltac:(done)) as Hs'.
      eexists _, _; split; [reflexivity|]. split; [done|]. split; [done|]. split; [|done].
      destruct Hok as [? Hfree Hfull Hu Ha Hp _]. split; try assumption.
      * intros i w Hw Hv' Hn _. by apply Hfull.
      * intros p i Hi. cbn. intros [= He]. rewrite He in Hnp. eapply Hnp, Hi.
      * cbn. split; [done|split; [lia|exists v; split; assumption]].
    + eexists _, _; split; [reflexivity|]. split; [done|]. split; [done|]. split; [by eapply ok_pop_none|].
      split; [done|]. intros [Hlt Hn].
      destruct (hist_at_is_some hist (mq_tail q)) as [v Hv]; [pose proof (ring_head _ _ Hr); lia|].
      rewrite (ok_full _ _ _ _ Hok (mq_tail q) v) in Hs by (first [lia|assumption|done]). injection Hs as <-.
      cbn in Hpub. rewrite u64_small in Hpub by lia. lia.
  - destruct Hc as (-> & Hlt & v & Hv & Hs). rewrite Hs. cbn [full_slot storage].
    eexists _, _; split; [reflexivity|]. split; [done|]. split; [done|]. split; [|done].
    destruct Hok as [? Hfree Hfull Hu Ha Hp _]. split; try assumption. cbn. done.
  - destruct Hc as (-> & Hlt & Hv & Hs). rewrite Hs. eexists _, _; split; [reflexivity|].
    split; [done|]. split; [done|]. split; [|done].
    eapply ok_consumer_store; [exact Hok|exact Hlt|done|done|].
    cbn. split; [done|split; [exact Hlt|split; [exact Hv|by rewrite (slot_at_set q hist)]]].
  - destruct Hc as (-> & Hlt & Hv & Hs). rewrite Hs. eexists _, _; split; [reflexivity|].
    split; [done|]. split; [done|]. split; [|done].
    eapply ok_consumer_store; [exact Hok|exact Hlt|done|done|].
    cbn. split; [done|split; [exact Hlt|split; [exact Hv|by rewrite (slot_at_set q hist)]]].
  - destruct Hc as (-> & Hlt & Hv & Hs). rewrite u64_small by lia. eexists _, _; split; [reflexivity|].
    split; [done|]. split; [done|]. split; [by eapply ok_store_tail|done].
Qed.

(** ** Construction *)
Lemma MpscQueue_new_ok n : 0 <= n <= two63 -> exists q, MpscQueue_new n = Some q /\ n <= mq_capacity q /\
  mq_tail q = 0 /\ mpsc_ok q (fun _ => PuIdle) None [].
Proof.
  intros Hn. destruct (next_power_of_two_spec n) as (k & Hk & Hk' & Hnk); [lia|].
  unfold MpscQueue_new. rewrite Hk. eexists; split; [reflexivity|]. cbn [mq_capacity mq_tail]. split; [exact Hnk|].
  assert (0 < 2 ^ k < two64).
  { split; [apply Z.pow_pos_nonneg; lia|]. change two64 with (2 ^ 64). apply Z.pow_lt_mono_r; lia. }
  assert (Hr : ring_ok {| mq_capacity := 2 ^ k; mq_mask := u64 (2 ^ k - 1);
    mq_slots := replicate (Z.to_nat (2 ^ k)) Slot_new; mq_high_water_mark := 0; mq_head := 0; mq_tail := 0 |} (@nil T)).
  { split; cbn [mq_capacity mq_mask mq_slots mq_head mq_tail length]; try lia.
    - exists k. lia.
    - apply u64_small. lia.
    - apply length_replicate. }
  split; [done|]. split; try done.
  intros i Hi. cbn [mq_head mq_tail mq_capacity] in Hi. unfold slot_at. rewrite (slot_index_mod _ [] i Hr). cbn [mq_slots mq_capacity].
  apply lookup_replicate_2. pose proof (Z.mod_pos_bound i (2 ^ k)). lia.
Qed.
End Invariant.
