(* ===== verification/SpscQueue.v ===== *)
(** * The bounded queue between two threads: include/common/spsc_queue.hpp

    The single-producer single-consumer ring with its 64-bit indices.  With
    one producer and one consumer each operation is one step: only the
    producer stores [head_], only the consumer stores [tail_], so a push takes
    effect at its store of [head_] and a pop at its store of [tail_].  A ring
    that has two producers is pushed to through the steps of [try_push].  [None] is an access outside the ring or a read
    of storage that holds no object.  [queue_is q l]: the ring holds [l],
    oldest first, wherever the indices have wrapped to. *)
From S2P Require Import Prelude MpscQueue.

Section Queue.
Context {T : Type}.

Record SpscQueue := {
  sq_capacity : Z;
  sq_mask : Z;
  sq_storage : list (option T);
  sq_high_water_mark : Z;
  sq_head : Z;
  sq_tail : Z;
}.
Definition SpscQueue_new (capacity : Z) : option SpscQueue :=
  let* n := next_power_of_two capacity in
  Some {| sq_capacity := n; sq_mask := u64 (n - 1); sq_storage := replicate (Z.to_nat n) None;
          sq_high_water_mark := 0; sq_head := 0; sq_tail := 0 |}.

(** [storage_ + (i & mask_)]. *)
Definition sq_cell (q : SpscQueue) (i : Z) : nat := Z.to_nat (Z.land i (sq_mask q)).

(** [try_push] between its accesses to shared state: [head_] loaded, then
    [tail_] and the test for room, then [construct_at], then the two stores
    that publish the slot. *)
Definition push_full (q : SpscQueue) (head tail : Z) : bool := sq_capacity q <=? u64 (head - tail).
Definition push_construct (q : SpscQueue) (head : Z) (value : T) : option SpscQueue :=
  let* _ := sq_storage q !! sq_cell q head in
  Some {| sq_capacity := sq_capacity q; sq_mask := sq_mask q;
          sq_storage := <[sq_cell q head := Some value]> (sq_storage q);
          sq_high_water_mark := sq_high_water_mark q; sq_head := sq_head q; sq_tail := sq_tail q |}.
Definition push_publish (q : SpscQueue) (head tail : Z) : SpscQueue :=
  let new_occupancy := u64 (head + 1 - tail) in
  {| sq_capacity := sq_capacity q; sq_mask := sq_mask q; sq_storage := sq_storage q;
     sq_high_water_mark := if sq_high_water_mark q <? new_occupancy then new_occupancy else sq_high_water_mark q;
     sq_head := u64 (head + 1); sq_tail := sq_tail q |}.
(** The whole call, by the only producer. *)
Definition try_push (q : SpscQueue) (value : T) : option (SpscQueue * bool) :=
  let head := sq_head q in
  let tail := sq_tail q in
  if push_full q head tail then Some (q, false)
  else
    let* q := push_construct q head value in
    Some (push_publish q head tail, true).

Definition try_pop (q : SpscQueue) : option (option T * SpscQueue) :=
  let tail := sq_tail q in
  if tail =? sq_head q then Some (None, q)
  else
    let* cell := sq_storage q !! sq_cell q tail in
    let* value := cell in
    Some (Some value,
          {| sq_capacity := sq_capacity q; sq_mask := sq_mask q;
             sq_storage := <[sq_cell q tail := None]> (sq_storage q);
             sq_high_water_mark := sq_high_water_mark q; sq_head := sq_head q; sq_tail := u64 (tail + 1) |}).

Definition sq_size (q : SpscQueue) : Z := u64 (sq_head q - sq_tail q).

(** ** What the ring holds *)
Implicit Types (q : SpscQueue) (l : list T).
Record queue_is q l : Prop := {
  qi_bits : exists k, 0 <= k <= 63 /\ sq_capacity q = 2 ^ k;
  qi_mask : sq_mask q = sq_capacity q - 1;
  qi_storage : length (sq_storage q) = Z.to_nat (sq_capacity q);
  qi_room : Z.of_nat (length l) <= sq_capacity q;
  qi_tail : 0 <= sq_tail q < two64;
  qi_head : sq_head q = u64 (sq_tail q + Z.of_nat (length l));
  qi_values : forall j v, l !! j = Some v -> sq_storage q !! sq_cell q (sq_tail q + Z.of_nat j) = Some (Some v);
  qi_peak : 0 <= sq_high_water_mark q <= sq_capacity q;
}.

Lemma qi_capacity q l : queue_is q l -> 0 < sq_capacity q <= two63.
Proof.
  intros [(k & Hk & ->) _ _ _ _ _ _ _]. split; [apply Z.pow_pos_nonneg; lia|].
  change two63 with (2 ^ 63). apply Z.pow_le_mono_r; lia.
Qed.
Lemma sq_cell_mod q l i : queue_is q l -> sq_cell q i = Z.to_nat (i mod sq_capacity q).
Proof.
  intros [(k & Hk & Hc) Hm _ _ _ _ _ _]. unfold sq_cell. rewrite Hm, Hc.
  by rewrite <- Z.land_ones, Z.ones_equiv by lia.
Qed.
(** Wrapping an index at 2^64 does not move its cell. *)
Lemma sq_cell_u64 q l i : queue_is q l -> sq_cell q (u64 i) = sq_cell q i.
Proof.
  intros H. rewrite !(sq_cell_mod q l) by exact H. f_equal. destruct (qi_bits _ _ H) as (k & Hk & ->).
  unfold u64. change two64 with (2 ^ 64). replace (2 ^ 64) with (2 ^ k * 2 ^ (64 - k)) by (rewrite <- Z.pow_add_r by lia; f_equal; lia).
  rewrite Z.rem_mul_r by (first [apply Z.pow_nonzero; lia|apply Z.pow_pos_nonneg; lia]).
  rewrite Z.mul_comm, Z.mod_add by (apply Z.pow_nonzero; lia). by rewrite Z.mod_mod by (apply Z.pow_nonzero; lia).
Qed.
Lemma sq_cell_lt q l i : queue_is q l -> (sq_cell q i < length (sq_storage q))%nat.
Proof.
  intros H. pose proof (qi_capacity _ _ H). rewrite (sq_cell_mod q l), (qi_storage _ _ H) by exact H.
  pose proof (Z.mod_pos_bound i (sq_capacity q)). lia.
Qed.
Lemma sq_cell_inj q l i j : queue_is q l -> 0 <= i < sq_capacity q -> 0 <= j < sq_capacity q ->
  sq_cell q (sq_tail q + i) = sq_cell q (sq_tail q + j) -> i = j.
Proof.
  intros H Hi Hj. rewrite !(sq_cell_mod q l) by exact H. set (c := sq_capacity q) in *. intros E.
  pose proof (Z.mod_pos_bound (sq_tail q + i) c). pose proof (Z.mod_pos_bound (sq_tail q + j) c).
  assert (Hm : (sq_tail q + i) mod c = (sq_tail q + j) mod c) by lia.
  pose proof (Z.div_mod (sq_tail q + i) c ltac:(lia)). pose proof (Z.div_mod (sq_tail q + j) c ltac:(lia)).
  assert ((sq_tail q + i) / c = (sq_tail q + j) / c) by nia. nia.
Qed.
Lemma qi_occupancy q l : queue_is q l -> u64 (sq_head q - sq_tail q) = Z.of_nat (length l).
Proof.
  intros H. pose proof (qi_capacity _ _ H). pose proof (qi_room _ _ H). rewrite (qi_head _ _ H).
  replace (u64 (u64 (sq_tail q + Z.of_nat (length l)) - sq_tail q)) with (u64 (sq_tail q + Z.of_nat (length l) - sq_tail q)).
  - rewrite Z.add_simpl_l. apply u64_small. lia.
  - unfold u64. by rewrite Zminus_mod_idemp_l.
Qed.
Lemma qi_size q l : queue_is q l -> sq_size q = Z.of_nat (length l).
Proof. apply qi_occupancy. Qed.

Lemma SpscQueue_new_is capacity : capacity <= two63 -> exists q, SpscQueue_new capacity = Some q /\ queue_is q [] /\ capacity <= sq_capacity q.
Proof.
  intros Hc. destruct (next_power_of_two_spec capacity Hc) as (k & Hk & Hb & Hle). unfold SpscQueue_new. rewrite Hk.
  assert (0 < 2 ^ k) by (apply Z.pow_pos_nonneg; lia).
  assert (2 ^ k <= 2 ^ 63) by (apply Z.pow_le_mono_r; lia). change (2 ^ 63) with two63 in *.
  eexists. split; [reflexivity|]. split; [|exact Hle]. split; cbn.
  - by exists k.
  - apply u64_small. lia.
  - apply length_replicate.
  - lia.
  - lia.
  - reflexivity.
  - done.
  - lia.
Qed.

(** *** A push, step by step

    [sq_size q <= u64 (head - tail)]: the ring is no fuller than when the
    producer loaded [tail_]; the consumer may have popped since. *)
Lemma push_construct_is q l v : queue_is q l -> Z.of_nat (length l) < sq_capacity q ->
  exists q', push_construct q (sq_head q) v = Some q' /\ queue_is q' l /\
    sq_storage q' !! sq_cell q' (sq_head q) = Some (Some v) /\
    sq_head q' = sq_head q /\ sq_tail q' = sq_tail q /\ sq_capacity q' = sq_capacity q.
Proof.
  intros H Hfree. unfold push_construct.
  destruct (lookup_lt_is_Some_2 (sq_storage q) (sq_cell q (sq_head q))) as [x ->]; [by apply (sq_cell_lt q l)|].
  eexists. split; [reflexivity|]. split; [|split; [|done]].
  - assert (Hcell : sq_cell q (sq_head q) = sq_cell q (sq_tail q + Z.of_nat (length l))).
    { rewrite (qi_head _ _ H). by apply (sq_cell_u64 q l). }
    destruct H as [Hb Hm Hs Hr Ht Hh Hv Hp]. split; cbn; try assumption; [by rewrite length_insert|].
    intros j w Hj. change (sq_cell _ (sq_tail q + Z.of_nat j)) with (sq_cell q (sq_tail q + Z.of_nat j)). rewrite Hcell.
    rewrite list_lookup_insert_ne; [by apply Hv|]. pose proof (lookup_lt_Some _ _ _ Hj). intros E.
    apply (sq_cell_inj q l) in E; [lia|by split|lia|lia].
  - apply list_lookup_insert_eq. by apply (sq_cell_lt q l).
Qed.
Lemma push_publish_is q l v tail : queue_is q l -> sq_storage q !! sq_cell q (sq_head q) = Some (Some v) ->
  Z.of_nat (length l) <= u64 (sq_head q - tail) < sq_capacity q -> queue_is (push_publish q (sq_head q) tail) (l ++ [v]).
Proof.
  intros H Hcell Hroom. pose proof (qi_capacity _ _ H) as Hcap.
  assert (Hocc : u64 (sq_head q + 1 - tail) = u64 (sq_head q - tail) + 1).
  { replace (sq_head q + 1 - tail) with ((sq_head q - tail) + 1) by lia. rewrite <- u64_add_idemp_l. apply u64_small. lia. }
  assert (Heq : sq_cell q (sq_head q) = sq_cell q (sq_tail q + Z.of_nat (length l))).
  { rewrite (qi_head _ _ H). by apply (sq_cell_u64 q l). }
  destruct H as [Hb Hm Hs Hr Ht Hh Hv Hp]. split; cbn; try assumption.
  - rewrite length_app. cbn. lia.
  - rewrite Hh, length_app. cbn. rewrite u64_add_idemp_l. f_equal. lia.
  - intros j w Hj. change (sq_cell _ (sq_tail q + Z.of_nat j)) with (sq_cell q (sq_tail q + Z.of_nat j)).
    apply lookup_app_Some in Hj as [Hj|[Hj Hw]]; [by apply Hv|].
    apply list_lookup_singleton_Some in Hw as [Hz <-]. replace j with (length l) by lia. by rewrite <- Heq.
  - rewrite Hocc. destruct (Z.ltb_spec (sq_high_water_mark q) (u64 (sq_head q - tail) + 1)); lia.
Qed.

Lemma try_push_is q l v : queue_is q l -> exists q' b, try_push q v = Some (q', b) /\
  (if b then queue_is q' (l ++ [v]) else q' = q /\ Z.of_nat (length l) = sq_capacity q) /\ sq_capacity q' = sq_capacity q.
Proof.
  intros H. unfold try_push, push_full. pose proof (qi_occupancy _ _ H) as Hocc. pose proof (qi_room _ _ H) as Hroom.
  destruct (Z.leb_spec (sq_capacity q) (u64 (sq_head q - sq_tail q))) as [Hfull|Hfree].
  { exists q, false. split; [done|]. split; [|done]. split; [done|lia]. }
  destruct (push_construct_is q l v H) as (q1 & -> & Hq1 & Hcell & Eh & Et & Ec); [lia|].
  eexists _, true. split; [reflexivity|]. split; [|exact Ec]. rewrite <- Eh, <- Et. rewrite <- Eh in Hcell.
  apply push_publish_is; [done|exact Hcell|]. rewrite Eh, Et, Ec. lia.
Qed.
(** Two producers inside [try_push] at once construct in the same cell and
    publish the same index: even if nothing worse comes of the race, the
    first value is gone. *)
Lemma overlapping_pushes_lose q l a b : queue_is q l -> Z.of_nat (length l) < sq_capacity q ->
  let head := sq_head q in let tail := sq_tail q in
  exists q1 q2, push_construct q head a = Some q1 /\ push_construct q1 head b = Some q2 /\
    queue_is (push_publish (push_publish q2 head tail) head tail) (l ++ [b]).
Proof.
  intros H Hfree head tail. pose proof (qi_occupancy _ _ H) as Hocc.
  destruct (push_construct_is q l a H Hfree) as (q1 & E1 & Hq1 & _ & Eh & Et & Ec).
  destruct (push_construct_is q1 l b Hq1 ltac:(lia)) as (q2 & E2 & Hq2 & Hcell & Eh2 & Et2 & Ec2).
  rewrite Eh in E2. exists q1, q2. split; [done|]. split; [done|].
  assert (Hp : queue_is (push_publish q2 head tail) (l ++ [b])).
  { replace head with (sq_head q2) by (unfold head; congruence). apply push_publish_is; [done|by rewrite Eh2|].
    unfold tail. rewrite Eh2, Eh, Ec2, Ec. lia. }
  destruct Hp as [K1 K2 K3 K4 K5 K6 K7 K8]. split; cbn in *; try assumption.
  repeat case_match; lia.
Qed.

Lemma try_pop_is q l : queue_is q l -> exists r q', try_pop q = Some (r, q') /\
  match r with None => l = [] /\ q' = q | Some v => exists rest, l = v :: rest /\ queue_is q' rest end /\
  sq_capacity q' = sq_capacity q.
Proof.
  intros H. unfold try_pop. pose proof (qi_capacity _ _ H) as Hcap. pose proof (qi_room _ _ H) as Hroom.
  destruct (Z.eqb_spec (sq_tail q) (sq_head q)) as [He|Hne].
  { exists None, q. split; [done|]. split; [|done]. split; [|done]. pose proof (qi_occupancy _ _ H) as Ho.
    rewrite <- He, Z.sub_diag in Ho. destruct l; [done|]. change (u64 0) with 0 in Ho. rewrite length_cons in Ho. lia. }
  destruct l as [|v rest].
  { destruct Hne. rewrite (qi_head _ _ H). cbn. rewrite Z.add_0_r. symmetry. apply u64_small. apply (qi_tail _ _ H). }
  pose proof (qi_values _ _ H 0%nat v eq_refl) as Hv0. cbn in Hv0. rewrite Z.add_0_r in Hv0. rewrite Hv0.
  eexists (Some v), _. split; [reflexivity|]. split; [|done]. exists rest. split; [done|].
  destruct H as [Hb Hm Hs Hr Ht Hh Hv Hp]. split; cbn; try assumption.
  - by rewrite length_insert.
  - cbn in Hr. lia.
  - apply u64_range.
  - rewrite Hh. cbn. rewrite u64_add_idemp_l. f_equal. lia.
  - intros j w Hj. set (q' := {| sq_capacity := sq_capacity q |}).
    change (sq_cell q') with (sq_cell q). rewrite <- (sq_cell_u64 q (v :: rest)), u64_add_idemp_l, (sq_cell_u64 q (v :: rest)) by (by split).
    replace (sq_tail q + 1 + Z.of_nat j) with (sq_tail q + Z.of_nat (S j)) by lia.
    rewrite list_lookup_insert_ne; [by apply Hv|]. pose proof (lookup_lt_Some _ _ _ Hj). cbn in Hr. intros E.
    replace (sq_tail q) with (sq_tail q + 0) in E at 1 by lia. apply (sq_cell_inj q (v :: rest)) in E; [lia|by split|lia|lia].
Qed.
End Queue.
#[global] Arguments SpscQueue : clear implicits.
