(* ===== verification/MarketDataRouter.v ===== *)
(** * The market-data router: include/common/dropping_queue.hpp,
      src/exchange/market_data/market_data_router.cpp

    The matching thread publishes events into a bounded queue that drops the
    newest when full; the routing thread takes what is queued, up to a cap,
    and hands it downstream as one batch.  Two threads as steps: a publish is
    one step (its one shared access is the push), the routing thread moves
    from one access of shared state to the next ([RoutingPc]).  A condition
    variable may wake at any time, so notifying changes no state: a waiting
    thread's step checks the predicate or, if [timed_out], goes on without.
    The clock readings of the measured path are arguments. *)
From S2P Require Import Prelude Types MarketDataCodec FeedPublisher MpscQueue SpscQueue.

(** ** include/common/dropping_queue.hpp *)
Record DroppingQueue (T : Type) := { dq_queue : SpscQueue T; dq_dropped_count : Z }.
Arguments dq_queue {T}. Arguments dq_dropped_count {T}.

Module Dropping.
Section Dropping.
Context {T : Type}.
Definition new (capacity : Z) : option (DroppingQueue T) :=
  let* q := SpscQueue_new capacity in Some {| dq_queue := q; dq_dropped_count := 0 |}.
Definition push (d : DroppingQueue T) (value : T) : option (DroppingQueue T * bool) :=
  let* (q, pushed) := SpscQueue.try_push (dq_queue d) value in
  if pushed then Some ({| dq_queue := q; dq_dropped_count := dq_dropped_count d |}, true)
  else Some ({| dq_queue := q; dq_dropped_count := u64 (dq_dropped_count d + 1) |}, false).
Definition try_pop (d : DroppingQueue T) : option (option T * DroppingQueue T) :=
  let* (r, q) := SpscQueue.try_pop (dq_queue d) in
  Some (r, {| dq_queue := q; dq_dropped_count := dq_dropped_count d |}).
Definition size (d : DroppingQueue T) : Z := sq_size (dq_queue d).
End Dropping.
End Dropping.

(** ** The cost counters *)
Definition counter_add (v delta : Z) : Z := u64 (v + delta).
Definition raise_to (v candidate : Z) : Z := if v <? candidate then candidate else v.
Definition kPushBucketCount : Z := 24.
Definition push_bucket_lower_edge_ticks (index : Z) : Z := if index =? 0 then 0 else u64 (Z.shiftl 1 (index - 1)).
(** [std::bit_width]. *)
Definition bit_width (ticks : Z) : Z := if ticks =? 0 then 0 else Z.log2 ticks + 1.
Definition push_bucket_index (ticks : Z) : Z :=
  let width := bit_width ticks in if width <? kPushBucketCount then width else kPushBucketCount - 1.
Definition bump (buckets : list Z) (index : Z) : list Z := alter (fun v => counter_add v 1) (Z.to_nat index) buckets.

Record PublishCostStats := {
  pc_events_seen : Z; pc_wire_events : Z; pc_push_ok : Z; pc_push_full : Z;
  pc_push_ticks_total : Z; pc_push_ticks_max : Z;
  pc_notify_calls : Z; pc_notify_ticks_total : Z; pc_notify_ticks_max : Z;
  pc_translate_ticks_total : Z; pc_translate_ticks_max : Z;
  pc_push_buckets : list Z;
  pc_control_ticks_total : Z; pc_control_ticks_max : Z;
  pc_control_buckets : list Z;
}.
Definition PublishCostStats_zero : PublishCostStats :=
  let buckets := replicate (Z.to_nat kPushBucketCount) 0 in
  {| pc_events_seen := 0; pc_wire_events := 0; pc_push_ok := 0; pc_push_full := 0; pc_push_ticks_total := 0;
     pc_push_ticks_max := 0; pc_notify_calls := 0; pc_notify_ticks_total := 0; pc_notify_ticks_max := 0;
     pc_translate_ticks_total := 0; pc_translate_ticks_max := 0; pc_push_buckets := buckets;
     pc_control_ticks_total := 0; pc_control_ticks_max := 0; pc_control_buckets := buckets |}.
(** What the publisher's sink counts for one wire event. *)
Definition count_push (c : PublishCostStats) (queued : bool) (push_ticks notify_ticks : Z) : PublishCostStats :=
  {| pc_events_seen := pc_events_seen c;
     pc_wire_events := counter_add (pc_wire_events c) 1;
     pc_push_ok := if queued then counter_add (pc_push_ok c) 1 else pc_push_ok c;
     pc_push_full := if queued then pc_push_full c else counter_add (pc_push_full c) 1;
     pc_push_ticks_total := counter_add (pc_push_ticks_total c) push_ticks;
     pc_push_ticks_max := raise_to (pc_push_ticks_max c) push_ticks;
     pc_notify_calls := if queued then counter_add (pc_notify_calls c) 1 else pc_notify_calls c;
     pc_notify_ticks_total := counter_add (pc_notify_ticks_total c) notify_ticks;
     pc_notify_ticks_max := raise_to (pc_notify_ticks_max c) notify_ticks;
     pc_translate_ticks_total := pc_translate_ticks_total c; pc_translate_ticks_max := pc_translate_ticks_max c;
     pc_push_buckets := bump (pc_push_buckets c) (push_bucket_index push_ticks);
     pc_control_ticks_total := pc_control_ticks_total c; pc_control_ticks_max := pc_control_ticks_max c;
     pc_control_buckets := pc_control_buckets c |}.
(** What [publish_measured] counts for the event as a whole. *)
Definition count_event (c : PublishCostStats) (translate_ticks control_ticks : Z) : PublishCostStats :=
  {| pc_events_seen := counter_add (pc_events_seen c) 1; pc_wire_events := pc_wire_events c;
     pc_push_ok := pc_push_ok c; pc_push_full := pc_push_full c; pc_push_ticks_total := pc_push_ticks_total c;
     pc_push_ticks_max := pc_push_ticks_max c; pc_notify_calls := pc_notify_calls c;
     pc_notify_ticks_total := pc_notify_ticks_total c; pc_notify_ticks_max := pc_notify_ticks_max c;
     pc_translate_ticks_total := counter_add (pc_translate_ticks_total c) translate_ticks;
     pc_translate_ticks_max := raise_to (pc_translate_ticks_max c) translate_ticks;
     pc_push_buckets := pc_push_buckets c;
     pc_control_ticks_total := counter_add (pc_control_ticks_total c) control_ticks;
     pc_control_ticks_max := raise_to (pc_control_ticks_max c) control_ticks;
     pc_control_buckets := bump (pc_control_buckets c) (push_bucket_index control_ticks) |}.
(** The readings of [monotonic_ticks()] during one measured publish. *)
Record PublishTicks := {
  tk_control_begin : Z; tk_control_end : Z; tk_publish_begin : Z; tk_push_begin : Z; tk_push_end : Z;
  tk_notify_end : Z; tk_publish_end : Z;
}.

(** ** MarketDataRouter *)
Record MarketDataRouterOptions := { ro_queue_capacity : Z; ro_max_batch : Z; ro_measure_publish_cost : bool }.
Inductive RoutingPc :=
| RoutingFill (batch : list MarketData.Event)   (** the inner loop: [batch_] so far *)
| RoutingSend (batch : list MarketData.Event)   (** about to call [downstream_] *)
| RoutingCheckStop
| RoutingWait
| RoutingDone.
Record Router := {
  rt_publisher : MarketDataPublisher;
  rt_queue : DroppingQueue MarketData.Event;
  rt_max_batch : Z;
  rt_measure_publish_cost : bool;
  rt_cost : PublishCostStats;
  rt_stop_requested : bool;
  rt_routed : Z;
  rt_cv_waits : Z;
  rt_batches : Z;
  rt_max_batch_observed : Z;
  rt_pc : RoutingPc;
}.
Definition MarketDataRouter_new (options : MarketDataRouterOptions) : option Router :=
  let* q := Dropping.new (ro_queue_capacity options) in
  Some {| rt_publisher := MarketDataPublisher_new; rt_queue := q;
          rt_max_batch := if ro_max_batch options =? 0 then 1 else ro_max_batch options;
          rt_measure_publish_cost := ro_measure_publish_cost options; rt_cost := PublishCostStats_zero;
          rt_stop_requested := false; rt_routed := 0; rt_cv_waits := 0; rt_batches := 0; rt_max_batch_observed := 0;
          rt_pc := RoutingFill [] |}.
(** What a publish writes. *)
Definition rt_published (r : Router) (p : MarketDataPublisher) (q : DroppingQueue MarketData.Event) (c : PublishCostStats) : Router :=
  {| rt_publisher := p; rt_queue := q; rt_max_batch := rt_max_batch r; rt_measure_publish_cost := rt_measure_publish_cost r;
     rt_cost := c; rt_stop_requested := rt_stop_requested r; rt_routed := rt_routed r; rt_cv_waits := rt_cv_waits r;
     rt_batches := rt_batches r; rt_max_batch_observed := rt_max_batch_observed r; rt_pc := rt_pc r |}.
Definition rt_goto (r : Router) (q : DroppingQueue MarketData.Event) (pc : RoutingPc) : Router :=
  {| rt_publisher := rt_publisher r; rt_queue := q; rt_max_batch := rt_max_batch r;
     rt_measure_publish_cost := rt_measure_publish_cost r; rt_cost := rt_cost r; rt_stop_requested := rt_stop_requested r;
     rt_routed := rt_routed r; rt_cv_waits := rt_cv_waits r; rt_batches := rt_batches r;
     rt_max_batch_observed := rt_max_batch_observed r; rt_pc := pc |}.

Module Router.
Definition publish_measured (r : Router) (t : PublishTicks) (now : Timestamp) (event : ExchangeEvent) : option Router :=
  let control_ticks := u64 (tk_control_end t - tk_control_begin t) in
  let (p, m) := FeedPublisher.publish now (rt_publisher r) event in
  let* (q, c, push_ticks, notify_ticks) :=
    match m with
    | None => Some (rt_queue r, rt_cost r, 0, 0)
    | Some wire_event =>
        let* (q, queued) := Dropping.push (rt_queue r) wire_event in
        let push_ticks := u64 (tk_push_end t - tk_push_begin t) in
        let notify_ticks := if queued : bool then u64 (tk_notify_end t - tk_push_end t) else 0 in
        Some (q, count_push (rt_cost r) queued push_ticks notify_ticks, push_ticks, notify_ticks)
    end in
  let publish_ticks := u64 (tk_publish_end t - tk_publish_begin t) in
  let accounted := u64 (push_ticks + notify_ticks) in
  let translate_ticks := if accounted <? publish_ticks then publish_ticks - accounted else 0 in
  Some (rt_published r p q (count_event c translate_ticks control_ticks)).
Definition publish (r : Router) (t : PublishTicks) (now : Timestamp) (event : ExchangeEvent) : option Router :=
  if rt_measure_publish_cost r then publish_measured r t now event
  else
    let (p, m) := FeedPublisher.publish now (rt_publisher r) event in
    match m with
    | None => Some (rt_published r p (rt_queue r) (rt_cost r))
    | Some wire_event =>
        let* (q, _) := Dropping.push (rt_queue r) wire_event in Some (rt_published r p q (rt_cost r))
    end.
Definition publish_cost (r : Router) : PublishCostStats := rt_cost r.
(** [stop()] asks; the join is the routing thread's reaching its end. *)
Definition request_stop (r : Router) : Router :=
  {| rt_publisher := rt_publisher r; rt_queue := rt_queue r; rt_max_batch := rt_max_batch r;
     rt_measure_publish_cost := rt_measure_publish_cost r; rt_cost := rt_cost r; rt_stop_requested := true;
     rt_routed := rt_routed r; rt_cv_waits := rt_cv_waits r; rt_batches := rt_batches r;
     rt_max_batch_observed := rt_max_batch_observed r; rt_pc := rt_pc r |}.

(** One step of [routing_loop], and the batch it hands downstream. *)
Definition routing_step (timed_out : bool) (r : Router) : option (Router * option (list MarketData.Event)) :=
  match rt_pc r with
  | RoutingFill batch =>
      if Z.of_nat (length batch) <? rt_max_batch r then
        let* (event, q) := Dropping.try_pop (rt_queue r) in
        match event with
        | Some event => Some (rt_goto r q (RoutingFill (batch ++ [event])), None)
        | None => Some (rt_goto r q (if bool_decide (batch = []) then RoutingCheckStop else RoutingSend batch), None)
        end
      else Some (rt_goto r (rt_queue r) (if bool_decide (batch = []) then RoutingCheckStop else RoutingSend batch), None)
  | RoutingSend batch =>
      let n := Z.of_nat (length batch) in
      Some ({| rt_publisher := rt_publisher r; rt_queue := rt_queue r; rt_max_batch := rt_max_batch r;
               rt_measure_publish_cost := rt_measure_publish_cost r; rt_cost := rt_cost r;
               rt_stop_requested := rt_stop_requested r; rt_routed := u64 (rt_routed r + n);
               rt_cv_waits := rt_cv_waits r; rt_batches := u64 (rt_batches r + 1);
               rt_max_batch_observed := if rt_max_batch_observed r <? n then n else rt_max_batch_observed r;
               rt_pc := RoutingFill [] |}, Some batch)
  | RoutingCheckStop =>
      if rt_stop_requested r then Some (rt_goto r (rt_queue r) RoutingDone, None)
      else Some ({| rt_publisher := rt_publisher r; rt_queue := rt_queue r; rt_max_batch := rt_max_batch r;
                    rt_measure_publish_cost := rt_measure_publish_cost r; rt_cost := rt_cost r;
                    rt_stop_requested := rt_stop_requested r; rt_routed := rt_routed r;
                    rt_cv_waits := u64 (rt_cv_waits r + 1); rt_batches := rt_batches r;
                    rt_max_batch_observed := rt_max_batch_observed r; rt_pc := RoutingWait |}, None)
  | RoutingWait =>
      if rt_stop_requested r || (0 <? Dropping.size (rt_queue r)) || timed_out
      then Some (rt_goto r (rt_queue r) (RoutingFill []), None)
      else Some (r, None)
  | RoutingDone => Some (r, None)
  end.
End Router.

(** ** Runs of the market-data router

    Schedules of publishes, routing steps and the stop request; the
    invariant that ties what was delivered, what is in hand and what is
    queued to what was published ([router_ok]); the drain after a stop. *)

Inductive RouterStep :=
| DoPublish (t : PublishTicks) (now : Timestamp) (event : ExchangeEvent)
| DoRoute (timed_out : bool)
| DoStop.
Definition router_step (r : Router) (x : RouterStep) : option (Router * list (list MarketData.Event)) :=
  match x with
  | DoPublish t now event => let* r := Router.publish r t now event in Some (r, [])
  | DoRoute timed_out => let* (r, batch) := Router.routing_step timed_out r in Some (r, option_list batch)
  | DoStop => Some (Router.request_stop r, [])
  end.
Fixpoint router_run (r : Router) (xs : list RouterStep) : option (Router * list (list MarketData.Event)) :=
  match xs with
  | [] => Some (r, [])
  | x :: xs => let* (r, b) := router_step r x in let* (r, bs) := router_run r xs in Some (r, b ++ bs)
  end.
(** The wire messages the schedule's events become. *)
Fixpoint wire_messages (p : MarketDataPublisher) (xs : list RouterStep) : list MarketData.Event :=
  match xs with
  | [] => []
  | DoPublish _ now event :: xs => let (p, m) := FeedPublisher.publish now p event in option_list m ++ wire_messages p xs
  | _ :: xs => wire_messages p xs
  end.

Definition in_hand (pc : RoutingPc) : list MarketData.Event :=
  match pc with RoutingFill b | RoutingSend b => b | _ => [] end.
Definition bucket_sum (buckets : list Z) : Z := foldr Z.add 0 buckets.
(** The counters of the measured path, after [n] wire events of which [k] were queued. *)
Record counted (c : PublishCostStats) (n k : Z) : Prop := {
  ct_wire : pc_wire_events c = u64 n;
  ct_ok : pc_push_ok c = u64 k;
  ct_full : pc_push_full c = u64 (n - k);
  ct_notify : pc_notify_calls c = u64 k;
  ct_length : length (pc_push_buckets c) = Z.to_nat kPushBucketCount;
  ct_buckets : u64 (bucket_sum (pc_push_buckets c)) = u64 n;
}.
Record router_ok (r : Router) (ws kept l : list MarketData.Event) (log : list (list MarketData.Event)) : Prop := {
  rk_queue : queue_is (dq_queue (rt_queue r)) l;
  rk_kept : sublist kept ws;
  rk_split : kept = concat log ++ in_hand (rt_pc r) ++ l;
  rk_lost : kept = ws \/ sq_capacity (dq_queue (rt_queue r)) < Z.of_nat (length ws);
  rk_dropped : dq_dropped_count (rt_queue r) = u64 (Z.of_nat (length ws) - Z.of_nat (length kept));
  rk_max : 0 < rt_max_batch r;
  rk_log : Forall (fun b => b <> [] /\ Z.of_nat (length b) <= rt_max_batch r) log;
  rk_batch : Z.of_nat (length (in_hand (rt_pc r))) <= rt_max_batch r;
  rk_send : forall b, rt_pc r = RoutingSend b -> b <> [];
  rk_routed : rt_routed r = u64 (Z.of_nat (length (concat log)));
  rk_batches : rt_batches r = u64 (Z.of_nat (length log));
  rk_observed : rt_max_batch_observed r = foldr Z.max 0 (Z.of_nat ∘ length <$> log);
  rk_cost : rt_measure_publish_cost r = true -> counted (rt_cost r) (Z.of_nat (length ws)) (Z.of_nat (length kept));
}.

(** ** The dropping queue *)
Lemma dropping_push (d : DroppingQueue MarketData.Event) l v : queue_is (dq_queue d) l ->
  exists d' b, Dropping.push d v = Some (d', b) /\ sq_capacity (dq_queue d') = sq_capacity (dq_queue d) /\
    (if b then queue_is (dq_queue d') (l ++ [v]) /\ dq_dropped_count d' = dq_dropped_count d
     else dq_queue d' = dq_queue d /\ Z.of_nat (length l) = sq_capacity (dq_queue d) /\
          dq_dropped_count d' = u64 (dq_dropped_count d + 1)).
Proof.
  intros H. unfold Dropping.push. destruct (try_push_is _ _ v H) as (q' & b & -> & Hb & Hc).
  destruct b; eexists _, _; (split; [reflexivity|]); cbn; [by destruct d|]. destruct Hb as [-> Hl]. done.
Qed.
Lemma dropping_pop (d : DroppingQueue MarketData.Event) l : queue_is (dq_queue d) l ->
  exists r d', Dropping.try_pop d = Some (r, d') /\ sq_capacity (dq_queue d') = sq_capacity (dq_queue d) /\
    dq_dropped_count d' = dq_dropped_count d /\
    match r with None => l = [] /\ queue_is (dq_queue d') [] | Some v => exists rest, l = v :: rest /\ queue_is (dq_queue d') rest end.
Proof.
  intros H. unfold Dropping.try_pop. destruct (try_pop_is _ _ H) as (r & q' & -> & Hr & Hc).
  eexists _, _. split; [reflexivity|]. split; [exact Hc|]. split; [done|]. cbn. destruct r; [done|]. destruct Hr as [-> ->]. done.
Qed.

(** ** The counters *)
Lemma push_bucket_bounds ticks : 0 <= ticks -> 0 <= push_bucket_index ticks < kPushBucketCount.
Proof.
  intros Ht. unfold push_bucket_index, bit_width, kPushBucketCount. pose proof (Z.log2_nonneg ticks).
  destruct (Z.eqb_spec ticks 0); repeat match goal with |- context [if ?b then _ else _] => destruct b eqn:? end; lia.
Qed.
Lemma bump_sum buckets : forall i, (i < length buckets)%nat ->
  u64 (bucket_sum (alter (fun v => counter_add v 1) i buckets)) = u64 (bucket_sum buckets + 1) /\
  length (alter (fun v => counter_add v 1) i buckets) = length buckets.
Proof.
  induction buckets as [|v buckets IH]; intros i Hi; [cbn in Hi; lia|]. destruct i as [|i]; cbn.
  - split; [|done]. unfold counter_add. change (foldr Z.add 0 buckets) with (bucket_sum buckets). rewrite u64_add_idemp_l. f_equal. lia.
  - destruct (IH i) as [H1 H2]; [cbn in Hi; lia|]. split; [|by rewrite <- H2].
    change (foldr Z.add 0 buckets) with (bucket_sum buckets).
    change (foldr Z.add 0 (alter (fun v => counter_add v 1) i buckets)) with (bucket_sum (alter (fun v => counter_add v 1) i buckets)).
    rewrite <- u64_add_idemp_r, H1, u64_add_idemp_r. f_equal. lia.
Qed.
Lemma count_push_counted c n k (queued : bool) push_ticks notify_ticks : counted c n k -> 0 <= push_ticks ->
  counted (count_push c queued push_ticks notify_ticks) (n + 1) (if queued then k + 1 else k).
Proof.
  intros [H1 H2 H3 H4 H5 H6] Ht. pose proof (push_bucket_bounds push_ticks Ht) as Hb.
  destruct (bump_sum (pc_push_buckets c) (Z.to_nat (push_bucket_index push_ticks))) as [B1 B2]; [rewrite H5; lia|].
  split; cbn.
  3: destruct queued; unfold counter_add; rewrite H3, ?u64_add_idemp_l; f_equal; lia.
  4: exact (eq_trans B2 H5).
  4: { etransitivity; [exact B1|]. by rewrite <- u64_add_idemp_l, H6, u64_add_idemp_l. }
  all: unfold counter_add.
  - by rewrite H1, u64_add_idemp_l.
  - destruct queued; by rewrite H2, ?u64_add_idemp_l.
  - destruct queued; by rewrite H4, ?u64_add_idemp_l.
Qed.
Lemma count_event_counted c n k a b : counted c n k -> counted (count_event c a b) n k.
Proof. intros []. by split. Qed.

(** ** Publishing *)
(** Measured or not, a publish does this to the router. *)
Lemma publish_spec r t now event l : queue_is (dq_queue (rt_queue r)) l ->
  let out := FeedPublisher.publish now (rt_publisher r) event in
  match out.2 with
  | None => exists c, Router.publish r t now event = Some (rt_published r out.1 (rt_queue r) c) /\
      (if rt_measure_publish_cost r then exists x y, c = count_event (rt_cost r) x y else c = rt_cost r)
  | Some m => exists d b c, Dropping.push (rt_queue r) m = Some (d, b) /\ Router.publish r t now event = Some (rt_published r out.1 d c) /\
      (if rt_measure_publish_cost r then exists x y z w, c = count_event (count_push (rt_cost r) b (u64 z) w) x y else c = rt_cost r)
  end.
Proof.
  intros H. cbn zeta. unfold Router.publish, Router.publish_measured. destruct (FeedPublisher.publish now (rt_publisher r) event) as [p [m|]]; cbn [fst snd].
  - destruct (dropping_push (rt_queue r) l m H) as (d & b & -> & _).
    destruct (rt_measure_publish_cost r); eexists d, b, _; (split; [done|]; split; [reflexivity|]); [by do 4 eexists|done].
  - destruct (rt_measure_publish_cost r); eexists; (split; [reflexivity|]); [by do 2 eexists|done].
Qed.
Lemma publish_ok r t now event ws kept l log : router_ok r ws kept l log ->
  let out := FeedPublisher.publish now (rt_publisher r) event in
  exists r' kept' l', Router.publish r t now event = Some r' /\ rt_publisher r' = out.1 /\
    router_ok r' (ws ++ option_list out.2) kept' l' log /\
    sq_capacity (dq_queue (rt_queue r')) = sq_capacity (dq_queue (rt_queue r)) /\ rt_max_batch r' = rt_max_batch r /\
    rt_stop_requested r' = rt_stop_requested r.
Proof.
  intros H. cbn zeta. pose proof (publish_spec r t now event l (rk_queue _ _ _ _ _ H)) as Hp. cbn zeta in Hp.
  destruct (FeedPublisher.publish now (rt_publisher r) event) as [p [m|]]; cbn [fst snd] in *.
  - destruct Hp as (d & b & c & Hpush & -> & Hc). destruct (dropping_push (rt_queue r) l m (rk_queue _ _ _ _ _ H)) as (d' & b' & E & Hcap & Hd).
    rewrite Hpush in E. injection E as <- <-. destruct H as [K1 K2 K3 K4 K5 K6 K7 K8 K9 K10 K11 K12 K13].
    assert (Hcost : rt_measure_publish_cost r = true ->
      counted c (Z.of_nat (length (ws ++ [m]))) (Z.of_nat (length (if b then kept ++ [m] else kept)))).
    { intros Hm. rewrite Hm in Hc. destruct Hc as (x & y & z & w & ->). apply count_event_counted.
      pose proof (count_push_counted _ _ _ b (u64 z) w (K13 Hm) (proj1 (u64_range z))) as Hn.
      replace (Z.of_nat (length (ws ++ [m]))) with (Z.of_nat (length ws) + 1) by (rewrite length_app; cbn; lia).
      destruct b; [|exact Hn]. by replace (Z.of_nat (length (kept ++ [m]))) with (Z.of_nat (length kept) + 1) by (rewrite length_app; cbn; lia). }
    pose proof (sublist_length _ _ K2) as Hlen.
    eexists _, (if b then kept ++ [m] else kept), (if b then l ++ [m] else l). split; [reflexivity|]. split; [done|]. split; [|by rewrite <- Hcap].
    destruct b.
    + destruct Hd as [Hq Hdrop]. split; cbn; try assumption.
      * by apply sublist_app.
      * by rewrite K3, <- !app_assoc.
      * rewrite Hcap. destruct K4 as [->|K4]; [by left|right]. rewrite length_app. lia.
      * rewrite Hdrop, K5, !length_app. f_equal. cbn. lia.
    + destruct Hd as (Hq & Hfull & Hdrop). split; cbn; try assumption.
      * by rewrite Hq.
      * by apply sublist_inserts_r.
      * right. rewrite Hcap, <- Hfull, length_app. rewrite K3, !length_app in Hlen. cbn. lia.
      * rewrite Hdrop, K5, length_app, u64_add_idemp_l. f_equal. cbn. lia.
  - destruct Hp as (c & -> & Hc). destruct H as [K1 K2 K3 K4 K5 K6 K7 K8 K9 K10 K11 K12 K13].
    eexists _, kept, l. split; [reflexivity|]. split; [done|]. split; [|done]. rewrite app_nil_r. split; cbn; try assumption.
    intros Hm. rewrite Hm in Hc. destruct Hc as (x & y & ->). by apply count_event_counted, K13.
Qed.

(** ** Routing *)
Lemma goto_ok r ws kept l log q pc l' : router_ok r ws kept l log -> queue_is (dq_queue q) l' ->
  sq_capacity (dq_queue q) = sq_capacity (dq_queue (rt_queue r)) -> dq_dropped_count q = dq_dropped_count (rt_queue r) ->
  in_hand (rt_pc r) ++ l = in_hand pc ++ l' -> Z.of_nat (length (in_hand pc)) <= rt_max_batch r ->
  (forall b, pc = RoutingSend b -> b <> []) -> router_ok (rt_goto r q pc) ws kept l' log.
Proof.
  intros [K1 K2 K3 K4 K5 K6 K7 K8 K9 K10 K11 K12 K13] Hq Hcap Hdrop Hsplit Hlen Hsend. split; cbn; try assumption.
  - by rewrite <- Hsplit.
  - by rewrite Hcap.
  - by rewrite Hdrop.
Qed.
Lemma max_snoc (log : list (list MarketData.Event)) b :
  foldr Z.max 0 (Z.of_nat ∘ length <$> log ++ [b]) =
  let m := foldr Z.max 0 (Z.of_nat ∘ length <$> log) in if m <? Z.of_nat (length b) then Z.of_nat (length b) else m.
Proof.
  cbn zeta. induction log as [|b' log IH]; cbn in *; [destruct (Z.ltb_spec 0 (Z.of_nat (length b))); lia|].
  rewrite IH. repeat match goal with |- context [?a <? ?b] => destruct (Z.ltb_spec a b) end; lia.
Qed.
Lemma send_ok r ws kept l log batch timed_out : router_ok r ws kept l log -> rt_pc r = RoutingSend batch ->
  exists r', Router.routing_step timed_out r = Some (r', Some batch) /\ router_ok r' ws kept l (log ++ [batch]) /\
    rt_pc r' = RoutingFill [] /\ rt_stop_requested r' = rt_stop_requested r /\ rt_publisher r' = rt_publisher r /\
    rt_queue r' = rt_queue r /\ rt_max_batch r' = rt_max_batch r.
Proof.
  intros [K1 K2 K3 K4 K5 K6 K7 K8 K9 K10 K11 K12 K13] Hpc. unfold Router.routing_step. rewrite Hpc in *. cbn [in_hand] in *.
  eexists. split; [reflexivity|]. split; [|done]. split; cbn; try assumption.
  - rewrite concat_app. cbn. rewrite app_nil_r, K3, <- app_assoc. done.
  - apply Forall_app. split; [exact K7|]. repeat constructor; [by apply K9|exact K8].
  - lia.
  - done.
  - rewrite K10, u64_add_idemp_l, concat_app, length_app. cbn. rewrite app_nil_r. f_equal. lia.
  - rewrite K11, u64_add_idemp_l, length_app. f_equal. cbn. lia.
  - rewrite max_snoc, K12. done.
Qed.
(** The rest of the routing thread's steps hand nothing on. *)
Lemma quiet_step_ok r ws kept l log timed_out : router_ok r ws kept l log -> (forall b, rt_pc r <> RoutingSend b) ->
  exists r' l', Router.routing_step timed_out r = Some (r', None) /\ router_ok r' ws kept l' log /\
    rt_stop_requested r' = rt_stop_requested r /\ rt_publisher r' = rt_publisher r /\
    sq_capacity (dq_queue (rt_queue r')) = sq_capacity (dq_queue (rt_queue r)) /\ rt_max_batch r' = rt_max_batch r /\
    match rt_pc r with
    | RoutingFill b => (exists m, l = m :: l' /\ rt_pc r' = RoutingFill (b ++ [m])) \/
                       (l' = l /\ (b = [] -> l = []) /\ rt_pc r' = if bool_decide (b = []) then RoutingCheckStop else RoutingSend b)
    | RoutingCheckStop => l' = l /\ (rt_stop_requested r = true -> rt_pc r' = RoutingDone)
    | RoutingWait => l' = l /\ (rt_stop_requested r = true -> rt_pc r' = RoutingFill [])
    | RoutingSend _ => False
    | RoutingDone => r' = r /\ l' = l
    end.
Proof.
  intros H Hs. pose proof (rk_batch _ _ _ _ _ H) as Hb. pose proof (rk_max _ _ _ _ _ H) as Hmax. pose proof (rk_queue _ _ _ _ _ H) as Hq.
  unfold Router.routing_step. destruct (rt_pc r) as [batch|batch| | |] eqn:Hpc; [|by destruct (Hs batch)|..]; cbn [in_hand] in Hb.
  - destruct (Z.ltb_spec (Z.of_nat (length batch)) (rt_max_batch r)) as [Hlt|Hge].
    + destruct (dropping_pop (rt_queue r) l Hq) as (e & d & -> & Hcap & Hdrop & He). destruct e as [m|].
      * destruct He as (rest & -> & Hrest). eexists _, rest. split; [reflexivity|]. split; [|split_and!; try done; left; by exists m].
        apply (goto_ok r ws kept (m :: rest) log); try done; rewrite ?Hpc; cbn; [by rewrite <- app_assoc|rewrite length_app; cbn; lia].
      * destruct He as [-> Hempty]. eexists _, []. split; [reflexivity|]. split; [|split_and!; try done; by right].
        apply (goto_ok r ws kept [] log); try done; rewrite ?Hpc; case_bool_decide; subst; cbn; try done; lia || (intros ? [= <-]; done).
    + eexists _, l. split; [reflexivity|]. split; [|split_and!; try done; right; split_and!; try done; intros ->; cbn in Hge; lia].
      apply (goto_ok r ws kept l log); try done; rewrite ?Hpc; case_bool_decide; subst; cbn; try done; lia || (intros ? [= <-]; done).
  - destruct (rt_stop_requested r) eqn:Hst.
    + eexists _, l. split; [reflexivity|]. split; [|done]. apply (goto_ok r ws kept l log); try done; rewrite ?Hpc; cbn; try done; lia.
    + eexists _, l. split; [reflexivity|]. split; [|done]. destruct H as [K1 K2 K3 K4 K5 K6 K7 K8 K9 K10 K11 K12 K13].
      rewrite Hpc in K3. split; cbn; try assumption; try done; lia.
  - destruct (rt_stop_requested r || _ || timed_out) eqn:Hgo.
    + eexists _, l. split; [reflexivity|]. split; [|done]. apply (goto_ok r ws kept l log); try done; rewrite ?Hpc; cbn; try done; lia.
    + eexists r, l. split; [reflexivity|]. split; [exact H|]. split_and!; try done. intros Hst. by rewrite Hst in Hgo.
  - by exists r, l.
Qed.

(** ** Runs *)
Lemma router_step_ok r x ws kept l log : router_ok r ws kept l log ->
  exists r' b kept' l', router_step r x = Some (r', b) /\
    router_ok r' (ws ++ wire_messages (rt_publisher r) [x]) kept' l' (log ++ b) /\
    sq_capacity (dq_queue (rt_queue r')) = sq_capacity (dq_queue (rt_queue r)) /\ rt_max_batch r' = rt_max_batch r /\
    forall xs, wire_messages (rt_publisher r) (x :: xs) = wire_messages (rt_publisher r) [x] ++ wire_messages (rt_publisher r') xs.
Proof.
  intros H. destruct x as [t now event|timed_out|]; cbn [router_step wire_messages]; rewrite ?app_nil_r.
  - destruct (publish_ok r t now event _ _ _ _ H) as (r' & kept' & l' & -> & Hp & H' & Hcap & Hm & _).
    destruct (FeedPublisher.publish now (rt_publisher r) event) as [p m]. cbn in *.
    eexists r', [], kept', l'. rewrite Hp, !app_nil_r. split_and!; try done.
  - destruct (rt_pc r) as [b|b| | |] eqn:Hpc.
    2:{ destruct (send_ok r _ _ _ _ b timed_out H Hpc) as (r' & -> & H' & _ & _ & Hp & Hq & Hm).
        eexists r', [b], kept, l. rewrite Hp, Hq. split_and!; try done. }
    all: destruct (quiet_step_ok r _ _ _ _ timed_out H ltac:(by rewrite Hpc)) as (r' & l' & -> & H' & _ & Hp & Hcap & Hm & _);
      eexists r', [], kept, l'; rewrite Hp, app_nil_r; split_and!; done.
  - eexists _, [], kept, l. split; [reflexivity|]. rewrite app_nil_r. split; [destruct H; by split|done].
Qed.
Lemma run_ok xs : forall r ws kept l log, router_ok r ws kept l log ->
  exists r' bs kept' l', router_run r xs = Some (r', bs) /\
    router_ok r' (ws ++ wire_messages (rt_publisher r) xs) kept' l' (log ++ bs) /\
    sq_capacity (dq_queue (rt_queue r')) = sq_capacity (dq_queue (rt_queue r)) /\ rt_max_batch r' = rt_max_batch r.
Proof.
  induction xs as [|x xs IH]; intros r ws kept l log H; cbn [router_run].
  - eexists r, [], kept, l. cbn. by rewrite !app_nil_r.
  - destruct (router_step_ok r x _ _ _ _ H) as (r1 & b & kept1 & l1 & -> & H1 & Hc1 & Hm1 & Hw).
    destruct (IH _ _ _ _ _ H1) as (r2 & bs & kept2 & l2 & -> & H2 & Hc2 & Hm2).
    eexists r2, (b ++ bs), kept2, l2. rewrite (Hw xs), !app_assoc, Hc2, Hm2. done.
Qed.
Lemma new_router_ok options : ro_queue_capacity options <= two63 -> 0 <= ro_max_batch options ->
  exists r, MarketDataRouter_new options = Some r /\ router_ok r [] [] [] [] /\ rt_publisher r = MarketDataPublisher_new /\
    ro_queue_capacity options <= sq_capacity (dq_queue (rt_queue r)) /\ rt_stop_requested r = false /\
    rt_max_batch r = Z.max 1 (ro_max_batch options).
Proof.
  intros Hc Hm. destruct (SpscQueue_new_is (T := MarketData.Event) _ Hc) as (q & Hq & Hl & Hcap).
  unfold MarketDataRouter_new, Dropping.new. rewrite Hq. eexists. split; [reflexivity|].
  split; [|split_and!; try done; cbn; destruct (Z.eqb_spec (ro_max_batch options) 0); lia].
  split; cbn; try done; try by left.
  - destruct (Z.eqb_spec (ro_max_batch options) 0); lia.
  - destruct (Z.eqb_spec (ro_max_batch options) 0); lia.
Qed.

(** ** The drain *)
Definition pc_weight (pc : RoutingPc) : Z :=
  match pc with
  | RoutingFill b => if bool_decide (b = []) then 2 else 4
  | RoutingSend _ => 3
  | RoutingCheckStop => 1
  | RoutingWait => 3
  | RoutingDone => 0
  end.
Lemma router_drains n : forall r ws kept l log, router_ok r ws kept l log -> rt_stop_requested r = true ->
  (rt_pc r = RoutingCheckStop \/ rt_pc r = RoutingDone -> l = []) -> pc_weight (rt_pc r) + 3 * Z.of_nat (length l) <= Z.of_nat n ->
  exists r' bs, router_run r (replicate n (DoRoute false)) = Some (r', bs) /\ router_ok r' ws kept [] (log ++ bs) /\ rt_pc r' = RoutingDone.
Proof.
  induction n as [|n IH]; intros r ws kept l log H Hst Hl Hn; cbn [replicate router_run router_step].
  - assert (l = []) as -> by (destruct l; [done|]; cbn in Hn; destruct (rt_pc r); cbn in Hn; try case_bool_decide; lia).
    eexists r, []. rewrite app_nil_r. split; [done|]. split; [done|]. destruct (rt_pc r); cbn in Hn; try case_bool_decide; lia || done.
  - destruct (rt_pc r) as [b|b| | |] eqn:Hpc.
    2:{ destruct (send_ok r _ _ _ _ b false H Hpc) as (r1 & -> & H1 & Hp1 & Hs1 & _).
        destruct (IH r1 ws kept l (log ++ [b]) H1) as (r2 & bs & -> & H2 & Hd); [congruence|by rewrite Hp1; intros [?|?]|rewrite Hp1; cbn in *; lia|].
        eexists r2, (b :: bs). split; [done|]. split; [|done]. by rewrite <- app_assoc in H2. }
    all: destruct (quiet_step_ok r _ _ _ _ false H ltac:(by rewrite Hpc)) as (r1 & l1 & -> & H1 & Hs1 & _ & _ & _ & Hnext); rewrite Hpc in Hnext;
      destruct (IH r1 ws kept l1 log H1) as (r2 & bs & E2 & H2 & Hd); [congruence| | |by exists r2, bs; cbn [option_list]; rewrite E2].
    + intros Hcs. destruct Hnext as [(m & _ & E)|(-> & Hbl & E)]; rewrite E in Hcs; [by destruct Hcs|].
      case_bool_decide; [by apply Hbl|by destruct Hcs].
    + cbn in Hn. destruct Hnext as [(m & -> & ->)|(-> & Hbl & ->)]; cbn in *.
      * rewrite bool_decide_eq_false_2 by (by destruct b). case_bool_decide; lia.
      * case_bool_decide; cbn; lia.
    + destruct Hnext as [-> E]. intros _. by apply Hl; left.
    + destruct Hnext as [-> E]. rewrite (E Hst). cbn in *. lia.
    + destruct Hnext as [-> E]. rewrite (E Hst). by intros [?|?].
    + destruct Hnext as [-> E]. rewrite (E Hst). cbn in *. lia.
    + destruct Hnext as [-> ->]. intros _. by apply Hl; right.
    + destruct Hnext as [-> ->]. rewrite Hpc. cbn in *. rewrite (Hl (or_intror eq_refl)). cbn. lia.
Qed.
