(* ===== verification/UdpListener.v ===== *)
(** * Listening to a feed with two threads: src/net/udp_listener.cpp

    The producer receives batches of datagrams, unpacks them and pushes their
    frames into a queue that drops the newest when full; the consumer pops
    and applies them as a file replay would.  They share the queue and one
    stop flag.  Each thread goes from one access of shared state to the next
    ([ProducerPc], [ConsumerPc]); what the socket delivers and whether the
    idle time-out has passed are the producer's answers from outside.
    Sleeping, yielding and the consumer's artificial delay take no part. *)
From Stdlib Require Import String.
From S2P Require Import Prelude Types ByteIO CommandCodec MarketDataCodec TraderBook TraderBookSpec SequenceValidator TraderBooks FeedReplay FeedPublisher FeedHistory FeedBooks Packet FeedRecovery FeedMirror MpscQueue SpscQueue MarketDataRouter.

Local Open Scope Z_scope.
Local Open Scope list_scope.

Abbreviation FrameResult := (MarketData.Event + MarketData.DecodeError)%type (only parsing).
Inductive ProducerPc :=
| ListenLoop                                        (** while (!token.stop_requested()) *)
| ListenReceive
| ListenDatagrams (batch : list (list byte))        (** the datagrams still to look at *)
| ListenPush (frames : list FrameResult) (batch : list (list byte))
| ListenIdle                                        (** about to request the stop *)
| ListenDone.
Inductive ConsumerPc :=
| ConsumePop
| ConsumeCheckStop                                  (** the last pop was empty *)
| ConsumeApply (item : FrameResult)
| ConsumeStop                                       (** about to request the stop *)
| ConsumeDone.
Record Listener := {
  ls_queue : DroppingQueue FrameResult;
  ls_stop_requested : bool;
  ls_producer : ProducerPc;
  ls_have_received_any : bool;
  ls_packet_tracker : PacketSequenceTracker;
  ls_packets_received : Z;
  ls_packet_errors : Z;
  ls_consumer : ConsumerPc;
  ls_validator : SequenceValidator;
  ls_outcome : ReplayOutcome;
}.
Definition Listener_new (queue_capacity : Z) : option Listener :=
  let* q := Dropping.new queue_capacity in
  Some {| ls_queue := q; ls_stop_requested := false; ls_producer := ListenLoop; ls_have_received_any := false;
          ls_packet_tracker := PacketSequenceTracker_new; ls_packets_received := 0; ls_packet_errors := 0;
          ls_consumer := ConsumePop; ls_validator := SequenceValidator_new; ls_outcome := ReplayOutcome_new |}.
(** The producer goes to [pc]; the consumer goes to [pc]. *)
Definition produce (l : Listener) (q : DroppingQueue FrameResult) (pc : ProducerPc) : Listener :=
  {| ls_queue := q; ls_stop_requested := ls_stop_requested l; ls_producer := pc; ls_have_received_any := ls_have_received_any l;
     ls_packet_tracker := ls_packet_tracker l; ls_packets_received := ls_packets_received l; ls_packet_errors := ls_packet_errors l;
     ls_consumer := ls_consumer l; ls_validator := ls_validator l; ls_outcome := ls_outcome l |}.
Definition consume (l : Listener) (q : DroppingQueue FrameResult) (pc : ConsumerPc) : Listener :=
  {| ls_queue := q; ls_stop_requested := ls_stop_requested l; ls_producer := ls_producer l; ls_have_received_any := ls_have_received_any l;
     ls_packet_tracker := ls_packet_tracker l; ls_packets_received := ls_packets_received l; ls_packet_errors := ls_packet_errors l;
     ls_consumer := pc; ls_validator := ls_validator l; ls_outcome := ls_outcome l |}.
Definition request_stop (l : Listener) (producer : ProducerPc) (consumer : ConsumerPc) : Listener :=
  {| ls_queue := ls_queue l; ls_stop_requested := true; ls_producer := producer; ls_have_received_any := ls_have_received_any l;
     ls_packet_tracker := ls_packet_tracker l; ls_packets_received := ls_packets_received l; ls_packet_errors := ls_packet_errors l;
     ls_consumer := consumer; ls_validator := ls_validator l; ls_outcome := ls_outcome l |}.
(** One datagram: counted, unpacked, its packet number observed. *)
Definition take_datagram (l : Listener) (datagram : list byte) (batch : list (list byte)) : Listener :=
  let unpacked := Packet.unpack_frames datagram in
  {| ls_queue := ls_queue l; ls_stop_requested := ls_stop_requested l;
     ls_producer := match unpacked with inr _ => ListenDatagrams batch | inl packet => ListenPush (Packet.up_frames packet) batch end;
     ls_have_received_any := ls_have_received_any l;
     ls_packet_tracker := match unpacked with
                          | inr _ => ls_packet_tracker l
                          | inl packet => (observe (ls_packet_tracker l) (Packet.ph_packet_sequence (Packet.up_header packet))).1
                          end;
     ls_packets_received := u64 (ls_packets_received l + 1);
     ls_packet_errors := match unpacked with inr _ => u64 (ls_packet_errors l + 1) | inl _ => ls_packet_errors l end;
     ls_consumer := ls_consumer l; ls_validator := ls_validator l; ls_outcome := ls_outcome l |}.
Definition received_batch (l : Listener) (batch : list (list byte)) : Listener :=
  {| ls_queue := ls_queue l; ls_stop_requested := ls_stop_requested l; ls_producer := ListenDatagrams batch; ls_have_received_any := true;
     ls_packet_tracker := ls_packet_tracker l; ls_packets_received := ls_packets_received l; ls_packet_errors := ls_packet_errors l;
     ls_consumer := ls_consumer l; ls_validator := ls_validator l; ls_outcome := ls_outcome l |}.

(** A step of the producer, with what it received.  [None]: undefined. *)
Definition producer_step (batch : list (list byte)) (idle : bool) (l : Listener) : option (Listener * list (list byte)) :=
  let goto pc := Some (produce l (ls_queue l) pc, []) in
  match ls_producer l with
  | ListenLoop => goto (if ls_stop_requested l then ListenDone else ListenReceive)
  | ListenReceive =>
      match batch with
      | [] => goto (if ls_have_received_any l && idle then ListenIdle else ListenLoop)
      | _ => Some (received_batch l batch, batch)
      end
  | ListenDatagrams [] => goto ListenLoop
  | ListenDatagrams (datagram :: batch) =>
      if ls_stop_requested l then goto ListenLoop else Some (take_datagram l datagram batch, [])
  | ListenPush [] batch => goto (ListenDatagrams batch)
  | ListenPush (frame :: frames) batch =>
      let* (q, _) := Dropping.push (ls_queue l) frame in Some (produce l q (ListenPush frames batch), [])
  | ListenIdle => Some (request_stop l ListenDone (ls_consumer l), [])
  | ListenDone => Some (l, [])
  end.
Section Consumer.
Context (fs : string -> option (list byte)) (options : ReplayOptions).
Definition consumer_step (l : Listener) : option Listener :=
  match ls_consumer l with
  | ConsumePop =>
      let* (item, q) := Dropping.try_pop (ls_queue l) in
      Some (consume l q (match item with Some item => ConsumeApply item | None => ConsumeCheckStop end))
  | ConsumeCheckStop => Some (consume l (ls_queue l) (if ls_stop_requested l then ConsumeDone else ConsumePop))
  | ConsumeApply item =>
      let* (stop, v, o) := apply_frame_result fs item (ls_validator l) options (ls_outcome l) in
      Some {| ls_queue := ls_queue l; ls_stop_requested := ls_stop_requested l; ls_producer := ls_producer l;
              ls_have_received_any := ls_have_received_any l; ls_packet_tracker := ls_packet_tracker l;
              ls_packets_received := ls_packets_received l; ls_packet_errors := ls_packet_errors l;
              ls_consumer := if stop : bool then ConsumeStop else ConsumePop; ls_validator := v; ls_outcome := o |}
  | ConsumeStop => Some (request_stop l (ls_producer l) ConsumeDone)
  | ConsumeDone => Some l
  end.
(** A schedule of the two threads, and the datagrams received along it. *)
Inductive Turn := Producer (batch : list (list byte)) (idle : bool) | Consumer.
Definition turn_step (t : Turn) (l : Listener) : option (Listener * list (list byte)) :=
  match t with
  | Producer batch idle => producer_step batch idle l
  | Consumer => let* l := consumer_step l in Some (l, [])
  end.
Fixpoint run_turns (turns : list Turn) (l : Listener) : option (Listener * list (list byte)) :=
  match turns with
  | [] => Some (l, [])
  | t :: turns => let* (l, r) := turn_step t l in let* (l, r') := run_turns turns l in Some (l, r ++ r')
  end.
End Consumer.
(** [run_udp_listen]'s answer once both threads are joined. *)
Record UdpListenResult := {
  lr_outcome : ReplayOutcome;
  lr_packets_received : Z;
  lr_packet_errors : Z;
  lr_packet_seq_stats : PacketSequenceStats;
  lr_queue_dropped_count : Z;
  lr_queue_high_water_mark : Z;
}.
Definition joined (elapsed_ns : Z) (l : Listener) : option UdpListenResult :=
  match ls_producer l, ls_consumer l with
  | ListenDone, ConsumeDone =>
      Some {| lr_outcome := with_stats (ls_outcome l) (with_duration (rp_stats (ls_outcome l)) elapsed_ns);
              lr_packets_received := ls_packets_received l; lr_packet_errors := ls_packet_errors l;
              lr_packet_seq_stats := pt_stats (ls_packet_tracker l); lr_queue_dropped_count := dq_dropped_count (ls_queue l);
              lr_queue_high_water_mark := sq_high_water_mark (dq_queue (ls_queue l)) |}
  | _, _ => None
  end.

(** ** Applying a frame is always defined *)
Section Defined.
Context (fs : string -> option (list byte)) (options : ReplayOptions).
Definition rebuilt (bm : BookManager) : Prop := exists M, books_rep bm M.
Lemma read_entry_rebuilt file bm file' bm' : read_entry file bm = Some (file', bm') -> rebuilt bm -> rebuilt bm'.
Proof using Type.
  intros H [M Hb]. unfold read_entry in H. repeat (case_match; try done).
  match goal with E : OrderBook.add_order _ _ _ _ ?s = _ |- _ => rename E into Ha end.
  destruct (add_order_refines _ _ (Hb (MarketData.ao_instrument_id m)) (MarketData.ao_order_id m) (MarketData.ao_price m) (MarketData.ao_quantity m)
    (MarketData.ao_side m)) as (b' & m' & Ha' & _ & Hr).
  injection H as <- <-. rewrite Ha in Ha'. injection Ha' as <- _. exists (<[MarketData.ao_instrument_id m := m']> M). by apply store_rep.
Qed.
Lemma read_entries_rebuilt fuel : forall n file bm bm', read_entries fuel n file bm = Some bm' -> rebuilt bm -> rebuilt bm'.
Proof using Type.
  induction fuel as [|fuel IH]; intros n file bm bm' H Hb; cbn [read_entries] in H; (destruct (n <=? 0); [by simplify_eq|]); [done|].
  destruct (read_entry file bm) as [[file1 bm1]|] eqn:E; [|done]. cbn in H. eapply IH; [exact H|]. by eapply read_entry_rebuilt.
Qed.
Lemma read_snapshot_rebuilt file loaded : read_snapshot file = Some loaded -> rebuilt (sl_books loaded).
Proof using Type.
  unfold read_snapshot. destruct (_ <? _)%nat; [done|].
  repeat match goal with |- (let* _ := ?e in _) = Some _ -> _ => destruct e as [[]|]; [cbn [mbind option_bind]|done] end.
  destruct (_ || _); [done|]. destruct (read_entries _ _ _ _) as [bm|] eqn:E; [|done]. intros [= <-].
  eapply read_entries_rebuilt; [exact E|]. exists ∅. apply new_books_rep.
Qed.
Lemma process_event_defined ev v o : rebuilt (rp_books o) -> exists o', process_event ev v o = Some (false, v, o') /\ rebuilt (rp_books o').
Proof using Type.
  intros [M Hb]. unfold process_event. cbn [with_stats rp_books rp_stats].
  destruct (apply_event_refines ev (rp_books o) M (count CtMessages (rp_stats o)) Hb) as (bm' & -> & Hb'). cbn. eexists. split; [done|]. by exists (spec_apply M ev).1.
Qed.
Lemma frame_defined frame v o : rebuilt (rp_books o) -> exists stop v' o',
  apply_frame_result fs frame v options o = Some (stop, v', o') /\ rebuilt (rp_books o').
Proof using Type.
  intros Hb. unfold apply_frame_result. destruct frame as [ev|err].
  2:{ destruct (stop_on_decode_error options); eexists _, _, _; split; done. }
  destruct (check v (sequence_of ev)) as [v1 c].
  assert (Hp : forall v o, rebuilt (rp_books o) -> exists stop v' o', process_event ev v o = Some (stop, v', o') /\ rebuilt (rp_books o')).
  { intros v2 o2 H2. destruct (process_event_defined ev v2 o2 H2) as (o3 & -> & H3). eauto. }
  destruct (decide _); [by apply Hp|]. destruct (recovery_snapshot_path options) as [path|].
  - destruct (decide _).
    + destruct (fs path ≫= read_snapshot) as [loaded|] eqn:E; [|eexists _, _, _; split; done].
      apply Hp. cbn. apply bind_Some in E as (file & _ & E). by eapply read_snapshot_rebuilt.
    + destruct (stop_on_sequence_error options); [eexists _, _, _; split; done|by apply Hp].
  - destruct (stop_on_sequence_error options); [eexists _, _, _; split; done|by apply Hp].
Qed.

(** ** The frames one after the other, up to a stop *)
Fixpoint apply_until (frames : list FrameResult) (v : SequenceValidator) (o : ReplayOutcome) : option (bool * SequenceValidator * ReplayOutcome) :=
  match frames with
  | [] => Some (false, v, o)
  | frame :: frames =>
      let* (stop, v, o) := apply_frame_result fs frame v options o in
      if stop : bool then Some (true, v, o) else apply_until frames v o
  end.
Lemma apply_until_snoc frames frame : forall v o v1 o1, apply_until frames v o = Some (false, v1, o1) ->
  apply_until (frames ++ [frame]) v o = apply_frame_result fs frame v1 options o1.
Proof using Type.
  induction frames as [|f frames IH]; intros v o v1 o1 H; cbn [app apply_until] in *.
  - injection H as -> ->. destruct (apply_frame_result _ _ _ _ _) as [[[[] v2] o2]|]; done.
  - destruct (apply_frame_result _ _ _ _ _) as [[[[] v2] o2]|]; [done| |done]. cbn in *. by apply IH.
Qed.
(** A file replay applies the same frames. *)
Lemma run_loop_applies evs : Forall MarketData.event_wf evs -> forall fuel v o,
  run_loop fs (List.length evs + S fuel) options (Packet.events_bytes evs) v o = (fun r => r.2) <$> apply_until (inl <$> evs) v o.
Proof using Type.
  induction 1 as [|ev evs Hev Hevs IH]; intros fuel v o; [done|]. cbn [List.length Nat.add run_loop fmap list_fmap apply_until].
  change (Packet.events_bytes (ev :: evs)) with (MarketData.event_bytes ev ++ Packet.events_bytes evs). rewrite next_event_frame by done.
  destruct (apply_frame_result _ _ _ _ _) as [[[[] v2] o2]|]; [done| |done]. cbn [mbind option_bind]. apply IH.
Qed.
Lemma replay_applies path ns evs : fs path = Some (event_file evs) -> Forall MarketData.event_wf evs ->
  run_replay fs ns path options =
    (fun r => with_stats r.2 (with_duration (rp_stats r.2) ns)) <$> apply_until (inl <$> evs) SequenceValidator_new ReplayOutcome_new.
Proof using Type.
  intros Hf Hw. unfold run_replay. rewrite Hf, event_file_bytes. pose proof (Packet.length_events_bytes_ge evs).
  replace (S (List.length (Packet.events_bytes evs))) with (List.length evs + S (List.length (Packet.events_bytes evs) - List.length evs))%nat by lia.
  rewrite run_loop_applies by done. by destruct (apply_until _ _ _) as [[[? ?] ?]|].
Qed.
End Defined.

(** ** The two threads *)
Section Threads.
Context (fs : string -> option (list byte)) (options : ReplayOptions).
Definition frames_of (datagram : list byte) : list FrameResult :=
  match Packet.unpack_frames datagram with inl packet => Packet.up_frames packet | inr _ => [] end.
Definition producer_hand (pc : ProducerPc) : list FrameResult := match pc with ListenPush frames _ => frames | _ => [] end.
Definition pending (pc : ProducerPc) : list (list byte) :=
  match pc with ListenDatagrams batch | ListenPush _ batch => batch | _ => [] end.
Definition consumer_hand (pc : ConsumerPc) : list FrameResult := match pc with ConsumeApply item => [item] | _ => [] end.
(** What the packet statistics say of the datagrams looked at. *)
Definition observe_all (datagrams : list (list byte)) : PacketSequenceTracker :=
  foldl (fun t d => match Packet.unpack_frames d with
                    | inl packet => (observe t (Packet.ph_packet_sequence (Packet.up_header packet))).1
                    | inr _ => t
                    end) PacketSequenceTracker_new datagrams.
Definition malformed (datagram : list byte) : bool := match Packet.unpack_frames datagram with inl _ => false | inr _ => true end.
(** How far things have come: the datagrams looked at, the frames pushed,
    those the queue took, those applied and those still queued. *)
Record Progress := {
  pg_handled : list (list byte);
  pg_pushed : list FrameResult;
  pg_kept : list FrameResult;
  pg_applied : list FrameResult;
  pg_queued : list FrameResult;
}.
(** Nothing more is looked at. *)
Definition over (l : Listener) : Prop := ls_stop_requested l = true /\ (ls_producer l = ListenLoop \/ ls_producer l = ListenDone).
Record producing (capacity : Z) (l : Listener) (received : list (list byte)) (p : Progress) : Prop := {
  pr_received : exists lost, pg_handled p ++ pending (ls_producer l) ++ lost = received /\ (lost = [] \/ over l);
  pr_frames : mjoin (frames_of <$> pg_handled p) = pg_pushed p ++ producer_hand (ls_producer l);
  pr_kept : sublist (pg_kept p) (pg_pushed p);
  pr_lossless : pg_kept p = pg_pushed p \/ capacity < Z.of_nat (List.length (pg_pushed p));
  pr_dropped : dq_dropped_count (ls_queue l) = u64 (Z.of_nat (List.length (pg_pushed p)) - Z.of_nat (List.length (pg_kept p)));
  pr_packets : ls_packets_received l = u64 (Z.of_nat (List.length (pg_handled p)));
  pr_errors : ls_packet_errors l = u64 (Z.of_nat (List.length (List.filter malformed (pg_handled p))));
  pr_tracker : ls_packet_tracker l = observe_all (pg_handled p);
}.
Record consuming (capacity : Z) (l : Listener) (p : Progress) : Prop := {
  co_queue : queue_is (dq_queue (ls_queue l)) (pg_queued p);
  co_capacity : capacity <= sq_capacity (dq_queue (ls_queue l));
  co_split : pg_kept p = pg_applied p ++ consumer_hand (ls_consumer l) ++ pg_queued p;
  co_applied : exists stop, apply_until fs options (pg_applied p) SequenceValidator_new ReplayOutcome_new =
    Some (stop, ls_validator l, ls_outcome l) /\ (stop = true -> ls_consumer l = ConsumeStop \/ ls_consumer l = ConsumeDone) /\
    (ls_consumer l = ConsumeStop -> stop = true);
  co_books : rebuilt (rp_books (ls_outcome l));
}.
Definition listens (capacity : Z) (l : Listener) (received : list (list byte)) (p : Progress) : Prop :=
  producing capacity l received p /\ consuming capacity l p.

Lemma new_listens capacity : capacity <= two63 -> exists l, Listener_new capacity = Some l /\
  listens capacity l [] {| pg_handled := []; pg_pushed := []; pg_kept := []; pg_applied := []; pg_queued := [] |}.
Proof using Type.
  intros Hc. unfold Listener_new, Dropping.new. destruct (SpscQueue_new_is (T := FrameResult) capacity Hc) as (q & -> & Hq & Hle).
  cbn [mbind option_bind]. eexists. split; [reflexivity|]. split; split; cbn; try done.
  - exists []. split; [done|by left].
  - by left.
  - by exists false.
  - exists ∅. apply new_books_rep.
Qed.
Lemma malformed_snoc ds d : List.filter malformed (ds ++ [d]) = List.filter malformed ds ++ (if malformed d then [d] else []).
Proof using Type. rewrite List.filter_app. cbn. by destruct (malformed d). Qed.
Lemma frames_snoc ds d : mjoin (frames_of <$> (ds ++ [d])) = mjoin (frames_of <$> ds) ++ frames_of d.
Proof using Type. rewrite fmap_app, join_app. cbn. by rewrite app_nil_r. Qed.

(** A step that only moves the producer, or only the consumer. *)
Lemma produce_listens capacity l received p pc : listens capacity l received p ->
  producer_hand pc = producer_hand (ls_producer l) ->
  (pending pc = pending (ls_producer l) /\ (over l -> pc = ListenDone) \/ pc = ListenLoop /\ ls_stop_requested l = true) ->
  listens capacity (produce l (ls_queue l) pc) received p.
Proof using Type.
  intros [[(lost & R1 & R2) P2 P3 P4 P5 P6 P7 P8] [C1 C2 C3 C4 C5]] Hh Hp. split; split; cbn [produce ls_queue ls_stop_requested ls_producer
    ls_packet_tracker ls_packets_received ls_packet_errors ls_consumer ls_validator ls_outcome]; try done; [|by rewrite Hh].
  destruct Hp as [[-> Ho]|[-> Hs]].
  - exists lost. split; [done|]. destruct R2 as [?|R2]; [by left|]. right. split; [apply R2|]. right. by apply Ho.
  - exists (pending (ls_producer l) ++ lost). split; [exact R1|]. right. split; [done|by left].
Qed.
Lemma datagram_listens capacity l received p d batch : listens capacity l received p -> ls_producer l = ListenDatagrams (d :: batch) ->
  listens capacity (take_datagram l d batch) received
    {| pg_handled := pg_handled p ++ [d]; pg_pushed := pg_pushed p; pg_kept := pg_kept p; pg_applied := pg_applied p; pg_queued := pg_queued p |}.
Proof using Type.
  intros [[(lost & R1 & R2) P2 P3 P4 P5 P6 P7 P8] [C1 C2 C3 C4 C5]] Hpc. rewrite Hpc in R1, P2. cbn [pending producer_hand] in R1, P2.
  destruct R2 as [->|[_ [?|?]]]; [|congruence..]. rewrite app_nil_r in P2, R1. split; split; cbn [take_datagram ls_queue ls_stop_requested ls_producer ls_packet_tracker ls_packets_received
    ls_packet_errors ls_consumer ls_validator ls_outcome pg_handled pg_pushed pg_kept pg_applied pg_queued]; try done.
  - exists []. split; [|by left]. rewrite <- R1, app_nil_r, <- app_assoc. cbn [app]. do 2 f_equal. by destruct (Packet.unpack_frames d).
  - rewrite frames_snoc, P2. f_equal. unfold frames_of. by destruct (Packet.unpack_frames d).
  - rewrite P6, u64_add_idemp_l, length_app. cbn [List.length]. f_equal. lia.
  - rewrite malformed_snoc, P7. change (malformed d) with (match Packet.unpack_frames d with inl _ => false | inr _ => true end). destruct (Packet.unpack_frames d); [by rewrite app_nil_r|].
    rewrite u64_add_idemp_l, length_app. cbn [List.length]. f_equal. lia.
  - unfold observe_all. rewrite foldl_app, P8. cbn. by destruct (Packet.unpack_frames d).
Qed.
Lemma push_listens capacity l received p frame frames batch : listens capacity l received p -> ls_producer l = ListenPush (frame :: frames) batch ->
  exists q b p', Dropping.push (ls_queue l) frame = Some (q, b) /\ listens capacity (produce l q (ListenPush frames batch)) received p'.
Proof using Type.
  intros [[(lost & R1 & R2) P2 P3 P4 P5 P6 P7 P8] [C1 C2 C3 C4 C5]] Hpc. rewrite Hpc in R1, P2. cbn [pending producer_hand] in R1, P2.
  destruct R2 as [->|[_ [?|?]]]; [|congruence..].
  unfold Dropping.push. destruct (try_push_is _ _ frame C1) as (q & b & -> & Hb & Hcap). cbn [mbind option_bind].
  assert (Hl : Z.of_nat (List.length (pg_queued p)) <= Z.of_nat (List.length (pg_pushed p))).
  { apply sublist_length in P3. rewrite C3, !length_app in P3. lia. }
  destruct b.
  - eexists _, true, {| pg_handled := pg_handled p; pg_pushed := pg_pushed p ++ [frame]; pg_kept := pg_kept p ++ [frame];
      pg_applied := pg_applied p; pg_queued := pg_queued p ++ [frame] |}. split; [reflexivity|].
    split; split; cbn [produce ls_queue dq_queue dq_dropped_count ls_stop_requested ls_producer ls_packet_tracker ls_packets_received
      ls_packet_errors ls_consumer ls_validator ls_outcome pg_handled pg_pushed pg_kept pg_applied pg_queued pending producer_hand]; try done.
    + exists []. split; [done|by left].
    + by rewrite P2, <- app_assoc.
    + by apply sublist_app.
    + destruct P4 as [->|P4]; [by left|right]. rewrite length_app. lia.
    + rewrite P5, !length_app. cbn [List.length]. f_equal. lia.
    + lia.
    + by rewrite C3, <- !app_assoc.
  - destruct Hb as [-> Hfull]. eexists _, false, {| pg_handled := pg_handled p; pg_pushed := pg_pushed p ++ [frame]; pg_kept := pg_kept p;
      pg_applied := pg_applied p; pg_queued := pg_queued p |}. split; [reflexivity|].
    split; split; cbn [produce ls_queue dq_queue dq_dropped_count ls_stop_requested ls_producer ls_packet_tracker ls_packets_received
      ls_packet_errors ls_consumer ls_validator ls_outcome pg_handled pg_pushed pg_kept pg_applied pg_queued pending producer_hand]; try done.
    + exists []. split; [done|by left].
    + by rewrite P2, <- app_assoc.
    + by apply sublist_inserts_r.
    + right. rewrite length_app. cbn [List.length]. lia.
    + rewrite P5, u64_add_idemp_l, length_app. cbn [List.length]. f_equal. lia.
Qed.
Lemma producer_listens capacity batch idle l received p : listens capacity l received p ->
  exists l' r p', producer_step batch idle l = Some (l', r) /\ listens capacity l' (received ++ r) p'.
Proof using Type.
  intros H. unfold producer_step. destruct (ls_producer l) as [| |[|d ds]|[|frame frames] ds| |] eqn:Hpc.
  - eexists _, [], p. split; [reflexivity|]. rewrite app_nil_r. apply produce_listens; [done|by rewrite Hpc; destruct (ls_stop_requested l)|left].
    rewrite Hpc. destruct (ls_stop_requested l) eqn:Hs; split; try done. intros [Hs' _]. congruence.
  - destruct batch as [|d ds].
    + eexists _, [], p. split; [reflexivity|]. rewrite app_nil_r. apply produce_listens; [done|by rewrite Hpc; destruct (_ && _)|left].
      rewrite Hpc. split; [by destruct (_ && _)|]. intros [_ [?|?]]; congruence.
    + eexists _, (d :: ds), p. split; [reflexivity|]. destruct H as [[(lost & R1 & R2) P2 P3 P4 P5 P6 P7 P8] [C1 C2 C3 C4 C5]]. rewrite Hpc in R1, P2.
      split; split; try done. exists []. split; [|by left]. destruct R2 as [->|[_ Ho]]; [|rewrite Hpc in Ho; by destruct Ho]. cbn [pending app] in R1 |- *.
      by rewrite app_nil_r in R1 |- *; rewrite R1.
  - eexists _, [], p. split; [reflexivity|]. rewrite app_nil_r. apply produce_listens; [done|by rewrite Hpc|left]. rewrite Hpc.
    split; [done|]. intros [_ [?|?]]; congruence.
  - destruct (ls_stop_requested l) eqn:Hs.
    + eexists _, [], p. split; [reflexivity|]. rewrite app_nil_r. apply produce_listens; [done|by rewrite Hpc|by right].
    + eexists _, [], _. split; [reflexivity|]. rewrite app_nil_r. by apply datagram_listens.
  - eexists _, [], p. split; [reflexivity|]. rewrite app_nil_r. apply produce_listens; [done|by rewrite Hpc|left]. rewrite Hpc.
    split; [done|]. intros [_ [?|?]]; congruence.
  - destruct (push_listens _ _ _ _ _ _ _ H Hpc) as (q & b & p' & -> & H'). cbn [mbind option_bind]. exists (produce l q (ListenPush frames ds)), [], p'.
    by rewrite app_nil_r.
  - eexists _, [], p. split; [reflexivity|]. rewrite app_nil_r. destruct H as [[(lost & R1 & R2) P2 P3 P4 P5 P6 P7 P8] [C1 C2 C3 C4 C5]].
    rewrite Hpc in R1, P2. split; split; try done. exists lost. split; [done|]. right. split; [done|by right].
  - exists l, [], p. by rewrite app_nil_r.
Qed.
(** Once the stop is requested and the producer gone, the consumer ends. *)
Definition consumer_weight (l : Listener) (p : Progress) : nat :=
  match ls_consumer l with
  | ConsumePop => 2 * List.length (pg_queued p) + 2
  | ConsumeApply _ => 2 * List.length (pg_queued p) + 3
  | ConsumeCheckStop | ConsumeStop => 1
  | ConsumeDone => 0
  end%nat.
(** The consumer has not looked at the flag after too early a pop. *)
Definition drains (l : Listener) (p : Progress) : Prop :=
  match ls_consumer l with
  | ConsumeCheckStop => pg_queued p = []
  | ConsumeDone => pg_queued p = [] \/ exists v o, apply_until fs options (pg_applied p) SequenceValidator_new ReplayOutcome_new = Some (true, v, o)
  | _ => True
  end.
(** The consumer's side of a step, with what the drain needs of it. *)
Ltac drained := split; [done|]; split; [done|]; unfold drains, consumer_weight; cbn; intros Hs; rewrite ?Hs; split; [done|]; intros Hd.
Lemma consumer_listens capacity l received p : listens capacity l received p ->
  exists l' p', consumer_step fs options l = Some l' /\ listens capacity l' received p' /\ pg_kept p' = pg_kept p /\
    ls_producer l' = ls_producer l /\ (ls_stop_requested l = true -> ls_stop_requested l' = true /\
      (drains l p -> drains l' p' /\ (ls_consumer l = ConsumeDone \/ (consumer_weight l' p' < consumer_weight l p)%nat))).
Proof using Type.
  intros [[(lost & R1 & R2) P2 P3 P4 P5 P6 P7 P8] [C1 C2 C3 (stop & C4 & Cs & Ct) C5]]. unfold consumer_step.
  destruct (ls_consumer l) eqn:Hpc.
  - unfold Dropping.try_pop. destruct (try_pop_is _ _ C1) as (r & q & -> & Hr & Hcap). cbn [mbind option_bind]. destruct r as [item|].
    + destruct Hr as (rest & Hq & Hrest). eexists _, {| pg_handled := pg_handled p; pg_pushed := pg_pushed p; pg_kept := pg_kept p;
        pg_applied := pg_applied p; pg_queued := rest |}. split; [reflexivity|]. split; [|drained; rewrite Hpc, Hq; cbn; split; [done|right; lia]].
      split; split; cbn; try done; [by exists lost|lia|by rewrite C3, Hq|]. exists stop. split; [done|]. split; [|done].
      intros Hst. by destruct (Cs Hst).
    + destruct Hr as [Hq ->]. eexists _, p. split; [reflexivity|]. split; [|drained; rewrite Hpc; split; [done|right; lia]].
      split; split; cbn; try done; [by exists lost|]. exists stop. split; [done|]. split; [|done]. intros Hst. by destruct (Cs Hst).
  - eexists _, p. split; [reflexivity|]. split; [|drained; rewrite Hpc in *; split; [by left|right; lia]].
    split; split; cbn; try done; [by exists lost|by rewrite C3; destruct (ls_stop_requested l)|].
    exists stop. split; [done|]. split; [intros Hst; by destruct (Cs Hst)|by destruct (ls_stop_requested l)].
  - assert (Hst : stop = false) by (destruct stop; [by destruct (Cs eq_refl)|done]). subst stop.
    destruct (frame_defined fs options item (ls_validator l) (ls_outcome l) C5) as (stop & v & o & E & Hb). rewrite E. cbn [mbind option_bind].
    eexists _, {| pg_handled := pg_handled p; pg_pushed := pg_pushed p; pg_kept := pg_kept p; pg_applied := pg_applied p ++ [item];
      pg_queued := pg_queued p |}. split; [reflexivity|]. split; [|drained; rewrite Hpc; destruct stop; split; [done|right; lia|done|right; lia]].
    split; split; cbn; try done; [by exists lost|by rewrite C3, <- app_assoc; destruct stop|].
    exists stop. rewrite (apply_until_snoc _ _ _ _ _ _ _ _ C4). split; [done|]. split; [intros ->; by left|by destruct stop].
  - eexists _, p. split; [reflexivity|].
    split; [|drained; rewrite Hpc in *; split; [right; rewrite (Ct eq_refl) in C4; by eauto|right; lia]].
    split; split; cbn; try done.
    + exists lost. split; [done|]. destruct R2 as [?|[_ R2]]; [by left|by right].
    + exists stop. split; [done|]. split; [intros _; by right|done].
  - exists l, p. split; [done|]. split; [|split; [done|]; split; [done|]; intros Hs; split; [done|]; intros Hd; split; [done|by left]].
    split; split; try done; [by exists lost|by rewrite Hpc|exists stop; by rewrite Hpc].
Qed.
Lemma consumer_ends capacity n : forall l received p, listens capacity l received p -> ls_stop_requested l = true -> ls_producer l = ListenDone ->
  drains l p -> (consumer_weight l p <= n)%nat -> exists l' p', run_turns fs options (replicate n Consumer) l = Some (l', []) /\
    listens capacity l' received p' /\ pg_kept p' = pg_kept p /\ ls_producer l' = ListenDone /\ ls_consumer l' = ConsumeDone /\ drains l' p'.
Proof using Type.
  induction n as [|n IH]; intros l received p H Hs Hp Hd Hw.
  { exists l, p. assert (Hc : ls_consumer l = ConsumeDone) by (unfold consumer_weight in Hw; destruct (ls_consumer l); (done || lia)). done. }
  destruct (consumer_listens _ _ _ _ H) as (l1 & p1 & E & H1 & Hk & Hpr & Hst). destruct (Hst Hs) as [Hs1 Hdr]. destruct (Hdr Hd) as [Hd1 Hlt].
  assert (Hw1 : (consumer_weight l1 p1 <= n)%nat).
  { destruct Hlt as [Hc|?]; [|lia]. unfold consumer_step in E. rewrite Hc in E. injection E as <-. unfold consumer_weight. rewrite Hc. lia. }
  destruct (IH l1 received p1 H1 Hs1 ltac:(congruence) Hd1 Hw1) as (l2 & p2 & E2 & H2 & Hk2 & H3). exists l2, p2.
  cbn [replicate run_turns turn_step]. rewrite E. cbn [mbind option_bind]. rewrite E2. split; [done|]. split; [done|]. split; [congruence|done].
Qed.
Lemma turns_listen capacity turns : forall l received p, listens capacity l received p ->
  exists l' r p', run_turns fs options turns l = Some (l', r) /\ listens capacity l' (received ++ r) p'.
Proof using Type.
  induction turns as [|t turns IH]; intros l received p H; [exists l, [], p; by rewrite app_nil_r|]. cbn [run_turns].
  assert (Hs : exists l1 r1 p1, turn_step fs options t l = Some (l1, r1) /\ listens capacity l1 (received ++ r1) p1).
  { destruct t as [batch idle|]; cbn [turn_step]; [by eapply producer_listens|].
    destruct (consumer_listens _ _ _ _ H) as (l1 & p1 & -> & H1 & _). exists l1, [], p1. by rewrite app_nil_r. }
  destruct Hs as (l1 & r1 & p1 & -> & H1). cbn [mbind option_bind]. destruct (IH l1 _ p1 H1) as (l2 & r2 & p2 & -> & H2).
  exists l2, (r1 ++ r2), p2. split; [done|]. by rewrite app_assoc.
Qed.
End Threads.

(** C16: the two-threaded listener against a file replay.  Under every
    interleaving of its threads and whatever the socket delivers, no step is
    undefined; the frames pushed are those of the datagrams looked at, in
    order; the queue loses exactly the counted ones, and none while it could
    hold them all; what has been applied is a prefix of what it kept, and the
    outcome is that of applying those frames one after the other -- for a
    recorded stream, the outcome of replaying its file.  The packet
    statistics are those of the datagrams looked at.  Once the producer has
    gone and unless the consumer is between an empty pop and its look at the
    stop flag, the consumer ends within three steps more than two for each
    queued frame, having applied everything kept or met a frame that stops a
    replay. *)
Theorem udp_listener_exact fs options capacity turns : capacity <= two63 ->
  exists l0 l received p, Listener_new capacity = Some l0 /\ run_turns fs options turns l0 = Some (l, received) /\
  (prefix (pg_handled p) received /\ mjoin (frames_of <$> pg_handled p) = pg_pushed p ++ producer_hand (ls_producer l) /\
   sublist (pg_kept p) (pg_pushed p) /\ (Z.of_nat (List.length (pg_pushed p)) <= capacity -> pg_kept p = pg_pushed p) /\
   dq_dropped_count (ls_queue l) = u64 (Z.of_nat (List.length (pg_pushed p)) - Z.of_nat (List.length (pg_kept p))) /\
   pg_kept p = pg_applied p ++ consumer_hand (ls_consumer l) ++ pg_queued p) /\
  (ls_packets_received l = u64 (Z.of_nat (List.length (pg_handled p))) /\
   ls_packet_errors l = u64 (Z.of_nat (List.length (List.filter malformed (pg_handled p)))) /\
   ls_packet_tracker l = observe_all (pg_handled p)) /\
  (exists stop v, apply_until fs options (pg_applied p) SequenceValidator_new ReplayOutcome_new = Some (stop, v, ls_outcome l)) /\
  (forall evs path ns, pg_applied p = inl <$> evs -> Forall MarketData.event_wf evs -> fs path = Some (event_file evs) ->
     run_replay fs ns path options = Some (with_stats (ls_outcome l) (with_duration (rp_stats (ls_outcome l)) ns))) /\
  (ls_stop_requested l = true -> ls_producer l = ListenDone ->
   ls_consumer l <> ConsumeCheckStop -> ls_consumer l <> ConsumeDone -> forall ns,
     exists l' r, run_turns fs options (replicate (3 + 2 * List.length (pg_queued p)) Consumer) l = Some (l', []) /\ joined ns l' = Some r /\
       exists applied stop v, prefix applied (pg_kept p) /\ (applied = pg_kept p \/ stop = true) /\
         apply_until fs options applied SequenceValidator_new ReplayOutcome_new = Some (stop, v, ls_outcome l')).
Proof.
  intros Hc. destruct (new_listens fs options capacity Hc) as (l0 & H0 & Hl0).
  destruct (turns_listen fs options capacity turns l0 [] _ Hl0) as (l & received & p & Hr & Hl). cbn [app] in Hl.
  exists l0, l, received, p. split; [done|]. split; [done|].
  pose proof Hl as [[(lost & R1 & R2) P2 P3 P4 P5 P6 P7 P8] [C1 C2 C3 (stop & C4 & Cs & Ct) C5]].
  split; [|split; [done|]; split; [by exists stop, (ls_validator l)|]; split].
  - split; [by eexists; rewrite <- R1|]. split; [done|]. split; [done|]. split; [|done]. intros Hn. destruct P4; [done|lia].
  - intros evs path ns Ha Hw Hf. rewrite (replay_applies fs options path ns evs Hf Hw), <- Ha, C4. done.
  - intros Hs Hp Hn1 Hn2 ns.
    assert (Hd : drains fs options l p) by (unfold drains; destruct (ls_consumer l); done).
    destruct (consumer_ends fs options capacity (3 + 2 * List.length (pg_queued p)) l received p Hl Hs Hp Hd) as
      (l' & p' & E & [_ [_ _ C3' (stop' & C4' & _) _]] & Hk & Hp' & Hc' & Hd').
    + unfold consumer_weight. destruct (ls_consumer l); lia.
    + exists l'. unfold joined. rewrite Hp', Hc'. eexists. split; [exact E|]. split; [reflexivity|].
      exists (pg_applied p'), stop', (ls_validator l'). split; [rewrite <- Hk, C3'; by eexists|]. split; [|done].
      unfold drains in Hd'. rewrite Hc' in Hd', C3'. destruct Hd' as [Hq|(v & o & Hst)]; [left|right; congruence].
      rewrite <- Hk, C3', Hq. by rewrite !app_nil_r.
Qed.
Definition demo_add (seq id : Z) : MarketData.Event :=
  MarketData.EvAddOrder
    {| MarketData.ao_sequence_number := seq; MarketData.ao_timestamp_ns := 1; MarketData.ao_order_id := id; MarketData.ao_instrument_id := 1;
       MarketData.ao_price := 100; MarketData.ao_quantity := 5; MarketData.ao_side := Buy |}.
Definition demo_datagram : list byte := Packet.pack_frames 1 [demo_add 1 1; demo_add 2 2].
(** The producer takes one datagram, meets silence and requests the stop. *)
Definition demo_producer : list Turn :=
  replicate 2 (Producer [demo_datagram] false) ++ replicate 6 (Producer [] false) ++ replicate 4 (Producer [] true).
Lemma udp_listener_exact_witness : exists l0 l received, Listener_new 2 = Some l0 /\
  run_turns (fun _ => None) ReplayOptions_default demo_producer l0 = Some (l, received) /\ dq_dropped_count (ls_queue l) = 0 /\
  exists n l' r, run_turns (fun _ => None) ReplayOptions_default (replicate n Consumer) l = Some (l', []) /\ joined 0 l' = Some r.
Proof.
  destruct (udp_listener_exact (fun _ => None) ReplayOptions_default 2 demo_producer) as
    (l0 & l & received & p & H0 & Hr & _ & _ & _ & _ & Hd); [vm_compute; discriminate|].
  exists l0, l, received. split; [exact H0|]. split; [exact Hr|].
  vm_compute in H0. injection H0 as <-. vm_compute in Hr. injection Hr as <- <-. split; [reflexivity|].
  destruct (Hd eq_refl eq_refl ltac:(discriminate) ltac:(discriminate) 0) as (l' & r & E & Hj & _). eexists _, l', r. split; [exact E|exact Hj].
Defined.
(** The other case: the consumer pops from the empty queue, the producer
    pushes a frame and requests the stop, and the consumer, looking at the
    flag only now, leaves the frame behind. *)
Example listener_stop_race : exists l0 l, Listener_new 2 = Some l0 /\
  run_turns (fun _ => None) ReplayOptions_default (Consumer :: demo_producer ++ [Consumer]) l0 = Some (l, [demo_datagram]) /\
  ls_producer l = ListenDone /\ ls_consumer l = ConsumeDone /\ Dropping.size (ls_queue l) = 2.
Proof. eexists _, _. split; [vm_compute; reflexivity|]. split; [vm_compute; reflexivity|]. repeat split; vm_compute; reflexivity. Qed.
