(* ===== verification/Pipeline.v ===== *)
(** * The matching pipeline: src/exchange/sequencing/matching_pipeline.cpp

    [MatchingPipeline] as a system of threads: any number of producers
    inside [submit], the matching thread, and the thread that requests the
    stop.  One [Choice] schedules one step of one thread; a step of a
    producer or of the matching thread inside the queue is one atomic access
    (MpscQueue.v).  The processor is a parameter, as the
    source's [Processor] is; the pipeline's own engine is one instance.
    Thread placement, [yield] and the artificial [matching_delay] have no
    counterpart: they only restrict the schedules. *)
From stdpp Require Import functions.
From S2P Require Import Prelude Types MpscQueue.

(** ** The sequencer: src/exchange/sequencing/command_sequencer.cpp

    The counter that numbers commands as the matching thread takes them. *)
Definition set_command_sequence (assigned : CommandSequence) (command : ExchangeCommand) : ExchangeCommand :=
  match command with
  | CmdNewOrder c =>
      CmdNewOrder {| noc_command_sequence := assigned; noc_account_id := noc_account_id c;
                     noc_client_order_id := noc_client_order_id c; noc_instrument_id := noc_instrument_id c;
                     noc_price := noc_price c; noc_quantity := noc_quantity c; noc_side := noc_side c;
                     noc_order_type := noc_order_type c; noc_time_in_force := noc_time_in_force c |}
  | CmdCancelOrder c =>
      CmdCancelOrder {| coc_command_sequence := assigned; coc_account_id := coc_account_id c;
                        coc_client_order_id := coc_client_order_id c; coc_instrument_id := coc_instrument_id c |}
  | CmdReplaceOrder c =>
      CmdReplaceOrder {| roc_command_sequence := assigned; roc_account_id := roc_account_id c;
                         roc_original_client_order_id := roc_original_client_order_id c;
                         roc_new_client_order_id := roc_new_client_order_id c; roc_instrument_id := roc_instrument_id c;
                         roc_new_price := roc_new_price c; roc_new_quantity := roc_new_quantity c |}
  end.
Record CommandSequencer := { next_sequence : CommandSequence }.
Definition CommandSequencer_new : CommandSequencer := {| next_sequence := 1 |}.
Definition sequence (sq : CommandSequencer) (command : ExchangeCommand) : CommandSequencer * ExchangeCommand :=
  let assigned := next_sequence sq in
  ({| next_sequence := u64 (assigned + 1) |}, set_command_sequence assigned command).

(** ** MatchingPipeline *)
Section Pipeline.
Context {S E : Type} (processor : S -> ExchangeCommand -> option (S * list E)).

(** Where the matching thread is.  [MaTerminated]: an exception left the
    processor, and with it the thread, which ends the program. *)
Inductive MatchingPc :=
| MaLoop
| MaPop (pc : ConsumerPc ExchangeCommand)
| MaEmpty
| MaCommand (command : ExchangeCommand)
| MaCount
| MaStopped
| MaTerminated.

Record MatchingPipeline := {
  mp_queue : MpscQueue ExchangeCommand;
  mp_sequencer : CommandSequencer;
  mp_engine : S;
  mp_sink : list E;                                  (* what the sink has received *)
  mp_commands_processed : Z;
  mp_commands_rejected : Z;
  mp_stop_requested : bool;
  mp_producers : nat -> ProducerPc ExchangeCommand;  (* the threads inside submit *)
  mp_matching : MatchingPc;
}.
Definition MatchingPipeline_new (queue_capacity : Z) (engine : S) : option MatchingPipeline :=
  let* q := MpscQueue_new queue_capacity in
  Some {| mp_queue := q; mp_sequencer := CommandSequencer_new; mp_engine := engine; mp_sink := [];
          mp_commands_processed := 0; mp_commands_rejected := 0; mp_stop_requested := false;
          mp_producers := fun _ => PuIdle; mp_matching := MaLoop |}.

Definition with_producer (mp : MatchingPipeline) (q : MpscQueue ExchangeCommand) (p : nat)
    (pc : ProducerPc ExchangeCommand) (rejected : Z) : MatchingPipeline :=
  {| mp_queue := q; mp_sequencer := mp_sequencer mp; mp_engine := mp_engine mp; mp_sink := mp_sink mp;
     mp_commands_processed := mp_commands_processed mp; mp_commands_rejected := u64 (mp_commands_rejected mp + rejected);
     mp_stop_requested := mp_stop_requested mp; mp_producers := <[p := pc]> (mp_producers mp);
     mp_matching := mp_matching mp |}.
Definition with_matching (mp : MatchingPipeline) (q : MpscQueue ExchangeCommand) (pc : MatchingPc) : MatchingPipeline :=
  {| mp_queue := q; mp_sequencer := mp_sequencer mp; mp_engine := mp_engine mp; mp_sink := mp_sink mp;
     mp_commands_processed := mp_commands_processed mp; mp_commands_rejected := mp_commands_rejected mp;
     mp_stop_requested := mp_stop_requested mp; mp_producers := mp_producers mp; mp_matching := pc |}.
Definition with_processed (mp : MatchingPipeline) (sq : CommandSequencer) (engine : S) (evs : list E) : MatchingPipeline :=
  {| mp_queue := mp_queue mp; mp_sequencer := sq; mp_engine := engine; mp_sink := mp_sink mp ++ evs;
     mp_commands_processed := mp_commands_processed mp; mp_commands_rejected := mp_commands_rejected mp;
     mp_stop_requested := mp_stop_requested mp; mp_producers := mp_producers mp; mp_matching := MaCount |}.
Definition with_count (mp : MatchingPipeline) : MatchingPipeline :=
  {| mp_queue := mp_queue mp; mp_sequencer := mp_sequencer mp; mp_engine := mp_engine mp; mp_sink := mp_sink mp;
     mp_commands_processed := u64 (mp_commands_processed mp + 1); mp_commands_rejected := mp_commands_rejected mp;
     mp_stop_requested := mp_stop_requested mp; mp_producers := mp_producers mp; mp_matching := MaLoop |}.
Definition request_stop (mp : MatchingPipeline) : MatchingPipeline :=
  {| mp_queue := mp_queue mp; mp_sequencer := mp_sequencer mp; mp_engine := mp_engine mp; mp_sink := mp_sink mp;
     mp_commands_processed := mp_commands_processed mp; mp_commands_rejected := mp_commands_rejected mp;
     mp_stop_requested := true; mp_producers := mp_producers mp; mp_matching := mp_matching mp |}.

Inductive Choice :=
| Submit (p : nat) (command : ExchangeCommand)   (* an idle thread calls submit *)
| Producer (p : nat) (weak : bool)
| Matching
| Stop.
(** What an observer of the producers sees, and the reservations. *)
Inductive Label :=
| Submitted (p : nat) (command : ExchangeCommand)
| Enqueued (p : nat) (command : ExchangeCommand)
| Answered (p : nat) (admitted : bool).

Definition submit_step (mp : MatchingPipeline) (p : nat) (command : ExchangeCommand) : MatchingPipeline * list Label :=
  match mp_producers mp p with
  | PuIdle => (with_producer mp (mp_queue mp) p (push_begin (mp_queue mp) command) 0, [Submitted p command])
  | _ => (mp, [])
  end.
Definition push_step (mp : MatchingPipeline) (p : nat) (weak : bool) : option (MatchingPipeline * list Label) :=
  let* (q, pc, ev) := producer_step weak (mp_queue mp) (mp_producers mp p) in
  Some (match ev with
        | None => (with_producer mp q p pc 0, [])
        | Some (Reserved command) => (with_producer mp q p pc 0, [Enqueued p command])
        | Some (Returned true) => (with_producer mp q p pc 0, [Answered p true])
        | Some (Returned false) => (with_producer mp q p pc 1, [Answered p false])
        end).
(** The body of the matching thread's loop. *)
Definition matching_step (mp : MatchingPipeline) : option MatchingPipeline :=
  match mp_matching mp with
  | MaLoop => Some (with_matching mp (mp_queue mp) (MaPop (pop_begin (mp_queue mp))))
  | MaPop pc =>
      let* (q, r) := consumer_step (mp_queue mp) pc in
      Some (with_matching mp q (match r with
                                | inl pc => MaPop pc
                                | inr (Some command) => MaCommand command
                                | inr None => MaEmpty
                                end))
  | MaEmpty => Some (with_matching mp (mp_queue mp) (if mp_stop_requested mp then MaStopped else MaLoop))
  | MaCommand command =>
      let (sq, sequenced) := sequence (mp_sequencer mp) command in
      Some (match processor (mp_engine mp) sequenced with
            | Some (engine, evs) => with_processed mp sq engine evs
            | None => with_matching mp (mp_queue mp) MaTerminated
            end)
  | MaCount => Some (with_count mp)
  | MaStopped | MaTerminated => Some mp
  end.
Definition step (mp : MatchingPipeline) (c : Choice) : option (MatchingPipeline * list Label) :=
  match mp_matching mp with
  | MaTerminated => Some (mp, [])
  | _ =>
      match c with
      | Submit p command => Some (submit_step mp p command)
      | Producer p weak => push_step mp p weak
      | Matching => let* mp := matching_step mp in Some (mp, [])
      | Stop => Some (request_stop mp, [])
      end
  end.
Fixpoint schedule_run (mp : MatchingPipeline) (cs : list Choice) : option (MatchingPipeline * list Label) :=
  match cs with
  | [] => Some (mp, [])
  | c :: cs => let* (mp, tr) := step mp c in
               let* (mp, tr') := schedule_run mp cs in
               Some (mp, tr ++ tr')
  end.

(** ** What it should do: one thread, the commands in admission order *)
Fixpoint process_all (s : S) (sq : CommandSequencer) (commands : list ExchangeCommand) : option (S * list E) :=
  match commands with
  | [] => Some (s, [])
  | c :: commands =>
      let (sq, c) := sequence sq c in
      let* (s, evs) := processor s c in
      let* (s, evs') := process_all s sq commands in
      Some (s, evs ++ evs')
  end.
Fixpoint feed (s : S) (commands : list ExchangeCommand) : option (S * list E) :=
  match commands with
  | [] => Some (s, [])
  | c :: commands =>
      let* (s, evs) := processor s c in
      let* (s, evs') := feed s commands in
      Some (s, evs ++ evs')
  end.
End Pipeline.
Arguments MatchingPipeline : clear implicits.

(** The commands with the numbers 1, 2, 3, ... *)
Definition numbered (commands : list ExchangeCommand) : list ExchangeCommand :=
  imap (fun i c => set_command_sequence (Z.of_nat i + 1) c) commands.

(** ** Reading a trace *)
Definition admitted (tr : list Label) : list ExchangeCommand :=
  omap (fun l => match l with Enqueued _ c => Some c | _ => None end) tr.
Definition admitted_by (p : nat) (tr : list Label) : list ExchangeCommand :=
  omap (fun l => match l with Enqueued p' c => if decide (p = p') then Some c else None | _ => None end) tr.
Definition refusals (tr : list Label) : Z :=
  Z.of_nat (length (omap (fun l => match l with Answered _ false => Some tt | _ => None end) tr)).
(** Thread [p]'s completed calls with their answers, and its open call. *)
Definition scan_label (p : nat) (st : list (ExchangeCommand * bool) * option ExchangeCommand) (l : Label)
    : list (ExchangeCommand * bool) * option ExchangeCommand :=
  match l with
  | Submitted p' c => if decide (p = p') then (st.1, Some c) else st
  | Answered p' b =>
      if decide (p = p') then (match st.2 with Some c => st.1 ++ [(c, b)] | None => st.1 end, None) else st
  | Enqueued _ _ => st
  end.
Definition calls (p : nat) (tr : list Label) : list (ExchangeCommand * bool) * option ExchangeCommand :=
  foldl (scan_label p) ([], None) tr.
Definition accepted (p : nat) (tr : list Label) : list ExchangeCommand :=
  omap (fun x : ExchangeCommand * bool => if x.2 then Some x.1 else None) (calls p tr).1.
Definition open_call (p : nat) (tr : list Label) : option ExchangeCommand := (calls p tr).2.

(** ** The pipeline's invariant

    [pipeline_ok s0 mp tr]: after the trace [tr] from a pipeline built on
    the engine [s0], the engine and the sink are those of a single thread
    that processed a prefix of the admitted commands, numbered from 1, and
    every producer's accepted calls are its admitted commands in call
    order. *)

Lemma admitted_app tr tr' : admitted (tr ++ tr') = admitted tr ++ admitted tr'.
Proof. apply omap_app. Qed.
Lemma admitted_by_app p tr tr' : admitted_by p (tr ++ tr') = admitted_by p tr ++ admitted_by p tr'.
Proof. apply omap_app. Qed.
Lemma refusals_app tr tr' : refusals (tr ++ tr') = refusals tr + refusals tr'.
Proof. unfold refusals. rewrite omap_app, length_app. lia. Qed.
Lemma calls_snoc p tr l : calls p (tr ++ [l]) = scan_label p (calls p tr) l.
Proof. unfold calls. by rewrite foldl_app. Qed.
Lemma length_omap_le {A B} (f : A -> option B) l : (length (omap f l) <= length l)%nat.
Proof. induction l as [|x l IH]; cbn; [lia|]. destruct (f x); cbn; lia. Qed.

(** What a producer's position says of its calls. *)
Definition thread_ok (p : nat) (pc : ProducerPc ExchangeCommand) (tr : list Label) : Prop :=
  match pc with
  | PuIdle => open_call p tr = None /\ admitted_by p tr = accepted p tr
  | PuLoadTail v _ | PuCompareExchange v _ => open_call p tr = Some v /\ admitted_by p tr = accepted p tr
  | _ => exists v, open_call p tr = Some v /\ admitted_by p tr = accepted p tr ++ [v]
  end.

Lemma thread_ok_other p p' pc tr l : thread_ok p pc tr -> p <> p' ->
  (match l with Submitted q _ | Enqueued q _ | Answered q _ => q end) = p' -> thread_ok p pc (tr ++ [l]).
Proof.
  intros H Hne Hl. unfold thread_ok, open_call, accepted in *. rewrite admitted_by_app, !calls_snoc.
  assert (Hs : scan_label p (calls p tr) l = calls p tr).
  { destruct l; cbn in Hl |- *; try done; by rewrite decide_False by congruence. }
  assert (Ha : admitted_by p [l] = []).
  { destruct l; cbn in Hl |- *; try done. by rewrite decide_False by congruence. }
  rewrite Hs, Ha, app_nil_r. exact H.
Qed.

Lemma thread_submitted p pc tr c h : thread_ok p pc tr -> pc = PuIdle -> thread_ok p (PuLoadTail c h) (tr ++ [Submitted p c]).
Proof.
  intros H ->. unfold thread_ok, open_call, accepted in *. rewrite admitted_by_app, !calls_snoc. cbn.
  rewrite decide_True by done. cbn. rewrite app_nil_r. split; [done|apply H].
Qed.

Definition reserved_pc (pc : ProducerPc ExchangeCommand) : Prop :=
  match pc with PuIdle | PuLoadTail _ _ | PuCompareExchange _ _ => False | _ => True end.
Lemma thread_reserved p tr v h h' : thread_ok p (PuCompareExchange v h) tr ->
  thread_ok p (PuConstruct v h') (tr ++ [Enqueued p v]).
Proof.
  unfold thread_ok, open_call, accepted. rewrite admitted_by_app, !calls_snoc. cbn.
  rewrite decide_True by done. intros [H ->]. exists v. by split.
Qed.
Lemma thread_answered p tr pc (b : bool) : thread_ok p pc tr -> (if b then reserved_pc pc else exists v h, pc = PuLoadTail (T := ExchangeCommand) v h) ->
  thread_ok p PuIdle (tr ++ [Answered p b]).
Proof.
  intros H Hpc. unfold thread_ok, open_call, accepted in *. rewrite admitted_by_app, !calls_snoc. cbn.
  rewrite !decide_True by done. cbn. rewrite app_nil_r. split; [done|]. destruct b.
  - destruct pc; try contradiction; destruct H as (v' & Hc & ->); rewrite Hc, omap_app; reflexivity.
  - destruct Hpc as (v & h & ->). destruct H as [Hc ->]. rewrite Hc, omap_app. cbn. by rewrite app_nil_r.
Qed.

(** What one queue step of a producer means for its call. *)
Lemma producer_step_thread p tr weak q pc q' pc' ev : producer_step weak q pc = Some (q', pc', ev) -> thread_ok p pc tr ->
  match ev with
  | None => thread_ok p pc' tr
  | Some (Reserved v) => thread_ok p pc' (tr ++ [Enqueued p v])
  | Some (Returned b) => thread_ok p pc' (tr ++ [Answered p b])
  end.
Proof.
  intros Hs Hok.
  destruct pc; cbn [producer_step] in Hs; unfold raise_or_return in Hs;
    repeat case_match; simplify_eq; try exact Hok.
  all: try (by eapply thread_reserved).
  all: eapply thread_answered; [exact Hok|]; try exact I; eauto.
Qed.

Section Invariant.
Context {S E : Type} (processor : S -> ExchangeCommand -> option (S * list E)).
Implicit Types (mp : MatchingPipeline S E).

Lemma process_all_snoc s sq cs s1 e1 c s2 e2 : 0 <= next_sequence sq < two64 ->
  process_all processor s sq cs = Some (s1, e1) ->
  processor s1 (set_command_sequence (u64 (next_sequence sq + Z.of_nat (length cs))) c) = Some (s2, e2) ->
  process_all processor s sq (cs ++ [c]) = Some (s2, e1 ++ e2).
Proof.
  revert s sq e1; induction cs as [|c' cs IH]; intros s sq e1 Hsq; cbn [process_all app length sequence].
  - intros [= <- <-]. rewrite Z.add_0_r, u64_small by exact Hsq. cbn. intros ->. by rewrite app_nil_r.
  - destruct (processor s _) as [[s' ev]|]; [|discriminate].
    destruct (process_all processor s' _ cs) as [[s'' ev']|] eqn:Hrec; [|discriminate].
    intros [= <- <-] Hc. rewrite (IH s' _ ev'); [by rewrite app_assoc|apply u64_range|exact Hrec|].
    cbn [next_sequence]. rewrite u64_add_idemp_l.
    replace (next_sequence sq + 1 + Z.of_nat (length cs)) with (next_sequence sq + Z.of_nat (Datatypes.S (length cs))) by lia.
    exact Hc.
Qed.

Lemma process_all_feed cs : forall s n, 0 <= n -> n + Z.of_nat (length cs) < two64 ->
  process_all processor s {| next_sequence := n |} cs =
  feed processor s (imap (fun i c => set_command_sequence (n + Z.of_nat i) c) cs).
Proof.
  induction cs as [|c cs IH]; intros s n Hn Hlen; cbn [length] in Hlen; [done|].
  cbn [process_all feed sequence next_sequence imap]. rewrite Z.add_0_r.
  destruct (processor s _) as [[s' evs]|]; [|done]. rewrite u64_small, IH by lia.
  erewrite (imap_ext _ (fun i c => set_command_sequence (n + Z.of_nat (Datatypes.S i)) c)); [reflexivity|].
  intros i x _. cbn. f_equal. lia.
Qed.
Lemma process_all_numbered s cs : 1 + Z.of_nat (length cs) < two64 ->
  process_all processor s CommandSequencer_new cs = feed processor s (numbered cs).
Proof.
  intros Hlen. unfold CommandSequencer_new. rewrite process_all_feed by lia. f_equal. apply imap_ext.
  intros i x _. cbn. f_equal. lia.
Qed.

Definition consumer_of (ma : MatchingPc) : option (ConsumerPc ExchangeCommand) :=
  match ma with MaPop pc => Some pc | _ => None end.

(** How far the matching thread is: [k] commands are through the engine. *)
Definition position_ok mp (cmds : list ExchangeCommand) (k : nat) : Prop :=
  match mp_matching mp with
  | MaCommand c => mq_tail (mp_queue mp) = Z.of_nat k + 1 /\ mp_commands_processed mp = Z.of_nat k /\ cmds !! k = Some c
  | MaTerminated => mq_tail (mp_queue mp) = Z.of_nat k + 1 /\ mp_commands_processed mp = Z.of_nat k /\
      exists c, cmds !! k = Some c /\ processor (mp_engine mp) (set_command_sequence (Z.of_nat k + 1) c) = None
  | MaCount => mq_tail (mp_queue mp) = Z.of_nat k /\ mp_commands_processed mp + 1 = Z.of_nat k
  | MaStopped => mq_tail (mp_queue mp) = Z.of_nat k /\ mp_commands_processed mp = Z.of_nat k /\ mp_stop_requested mp = true
  | _ => mq_tail (mp_queue mp) = Z.of_nat k /\ mp_commands_processed mp = Z.of_nat k
  end.
Record pipeline_ok s0 mp (tr : list Label) : Prop := {
  pl_queue : mpsc_ok (mp_queue mp) (mp_producers mp) (consumer_of (mp_matching mp)) (admitted tr);
  pl_matching : exists k, (k <= length (admitted tr))%nat /\
    process_all processor s0 CommandSequencer_new (take k (admitted tr)) = Some (mp_engine mp, mp_sink mp) /\
    next_sequence (mp_sequencer mp) = Z.of_nat k + 1 /\ position_ok mp (admitted tr) k;
  pl_threads : forall p, thread_ok p (mp_producers mp p) tr;
  pl_rejected : mp_commands_rejected mp = u64 (refusals tr);
}.

Lemma position_app mp cmds cmds' k : position_ok mp cmds k -> position_ok mp (cmds ++ cmds') k.
Proof.
  unfold position_ok. destruct (mp_matching mp); try done.
  - intros (? & ? & ?). split_and!; try done. by apply lookup_app_l_Some.
  - intros (? & ? & c & ? & ?). split_and!; try done. exists c. split; [by apply lookup_app_l_Some|done].
Qed.

Lemma mp_new_ok capacity s0 : 0 <= capacity <= two63 ->
  exists mp, MatchingPipeline_new capacity s0 = Some mp /\ pipeline_ok s0 mp [] /\ mp_stop_requested mp = false /\
    capacity <= mq_capacity (mp_queue mp).
Proof.
  intros Hc. destruct (MpscQueue_new_ok (T := ExchangeCommand) capacity Hc) as (q & Hq & Hcap & Ht & Hok).
  unfold MatchingPipeline_new. rewrite Hq. eexists; split; [reflexivity|]. split; [|split; [done|exact Hcap]]. split.
  - exact Hok.
  - exists 0%nat. cbn. rewrite Ht. done.
  - intros p. done.
  - reflexivity.
Qed.

(** A step of a producer: the label it adds, if any, and the queue it leaves. *)
Lemma producer_moves s0 mp tr p q pc ls rej : pipeline_ok s0 mp tr ->
  mpsc_ok q (<[p := pc]> (mp_producers mp)) (consumer_of (mp_matching mp)) (admitted (tr ++ ls)) ->
  mq_tail q = mq_tail (mp_queue mp) -> thread_ok p pc (tr ++ ls) ->
  (ls = [] \/ exists l, ls = [l] /\ (match l with Submitted q _ | Enqueued q _ | Answered q _ => q end) = p) ->
  rej = refusals ls -> pipeline_ok s0 (with_producer mp q p pc rej) (tr ++ ls).
Proof.
  intros [Hq (k & Hk & Hrun & Hseq & Hpos) Hth Hrej] Hq' Ht Hpc Hls ->. split.
  - exact Hq'.
  - exists k. rewrite admitted_app, length_app. split; [lia|]. rewrite take_app_le by lia.
    split; [exact Hrun|split; [exact Hseq|]].
    apply (position_app _ _ (admitted ls)) in Hpos. unfold position_ok in *. cbn [with_producer mp_matching mp_queue] in *.
    rewrite Ht. exact Hpos.
  - intros p'. cbn [with_producer mp_producers]. destruct (decide (p = p')) as [<-|Hne].
    + by rewrite fn_lookup_insert.
    + rewrite fn_lookup_insert_ne by exact Hne. destruct Hls as [->|(l & -> & Hl)]; [by rewrite app_nil_r|].
      apply (thread_ok_other p' p); [apply Hth|congruence|exact Hl].
  - cbn [with_producer mp_commands_rejected]. rewrite Hrej, refusals_app, u64_add_idemp_l. reflexivity.
Qed.

Lemma submit_step_ok s0 mp tr p c : pipeline_ok s0 mp tr ->
  let r := submit_step mp p c in pipeline_ok s0 r.1 (tr ++ r.2) /\ (length r.2 <= 1)%nat.
Proof.
  intros Hok. unfold submit_step. destruct (mp_producers mp p) eqn:Hp; cbn [fst snd]; try (rewrite app_nil_r; split; [exact Hok|cbn; lia]).
  split; [|cbn; lia]. pose proof (pl_threads _ _ _ Hok p) as Hth. rewrite Hp in Hth.
  eapply producer_moves; [exact Hok| |done| |right; eexists; split; done|done].
  - rewrite admitted_app. cbn. rewrite app_nil_r. apply push_begin_ok; [apply Hok|exact Hp].
  - by eapply thread_submitted.
Qed.

Lemma push_step_ok s0 mp tr p weak : pipeline_ok s0 mp tr -> Z.of_nat (length (admitted tr)) + 2 < two64 ->
  exists mp' ls, push_step mp p weak = Some (mp', ls) /\ pipeline_ok s0 mp' (tr ++ ls) /\ (length ls <= 1)%nat.
Proof.
  intros Hok Hlen. destruct (producer_step_ok weak _ _ _ _ p (pl_queue _ _ _ Hok) Hlen) as (q & pc & ev & Hs & Hq & Ht & _).
  unfold push_step. rewrite Hs. pose proof (producer_step_thread p tr _ _ _ _ _ _ Hs (pl_threads _ _ _ Hok p)) as Hth.
  destruct ev as [[v|[]]|]; eexists _, _; (split; [reflexivity|]); (split; [|cbn; lia]);
    (eapply producer_moves; [exact Hok| |exact Ht| | |reflexivity]);
    try (right; eexists; split; reflexivity); try (left; reflexivity);
    rewrite ?admitted_app; cbn [admitted omap list_omap reserved_of] in *; rewrite ?app_nil_r in *; try assumption.
Qed.

(** A step of the matching thread inside the queue, or around it. *)
Lemma matching_moves s0 mp tr q pc k : pipeline_ok s0 mp tr ->
  process_all processor s0 CommandSequencer_new (take k (admitted tr)) = Some (mp_engine mp, mp_sink mp) ->
  next_sequence (mp_sequencer mp) = Z.of_nat k + 1 -> (k <= length (admitted tr))%nat ->
  mpsc_ok q (mp_producers mp) (consumer_of pc) (admitted tr) ->
  position_ok (with_matching mp q pc) (admitted tr) k -> pipeline_ok s0 (with_matching mp q pc) tr.
Proof. intros [_ _ Hth Hrej] Hrun Hseq Hk Hq Hpos. split; [exact Hq|by exists k|exact Hth|exact Hrej]. Qed.

Lemma queue_between mp tr s0 : pipeline_ok s0 mp tr -> consumer_of (mp_matching mp) = None ->
  mpsc_ok (mp_queue mp) (mp_producers mp) None (admitted tr).
Proof. intros [Hq _ _ _] <-. exact Hq. Qed.

Lemma processed_ok s0 mp tr k c s2 evs sq : pipeline_ok s0 mp tr -> mp_matching mp = MaCommand c ->
  process_all processor s0 CommandSequencer_new (take k (admitted tr)) = Some (mp_engine mp, mp_sink mp) ->
  next_sequence (mp_sequencer mp) = Z.of_nat k + 1 -> position_ok mp (admitted tr) k -> Z.of_nat k + 2 < two64 ->
  processor (mp_engine mp) (set_command_sequence (Z.of_nat k + 1) c) = Some (s2, evs) ->
  sq = {| next_sequence := u64 (Z.of_nat k + 1 + 1) |} ->
  pipeline_ok s0 (with_processed mp sq s2 evs) tr.
Proof.
  intros Hok Hm Hrun Hseq Hpos Hlt Hproc ->. unfold position_ok in Hpos. rewrite Hm in Hpos.
  destruct Hpos as (Ht & Hc & Hl). pose proof (lookup_lt_Some _ _ _ Hl) as Hkl.
  assert (Hqb := queue_between mp tr s0 Hok ltac:(by rewrite Hm)). split.
  - exact Hqb.
  - exists (Datatypes.S k). split; [lia|]. cbn [with_processed mp_engine mp_sink mp_sequencer next_sequence].
    rewrite (take_S_r _ _ c) by exact Hl. split; [|split; [rewrite u64_small by lia; lia|unfold position_ok; cbn; lia]].
    apply process_all_snoc with (s1 := mp_engine mp); [cbn; lia|exact Hrun|].
    rewrite length_take_le by lia. cbn [CommandSequencer_new next_sequence]. rewrite u64_small by lia.
    rewrite Z.add_comm. exact Hproc.
  - destruct Hok as [_ _ Hth _]. exact Hth.
  - destruct Hok as [_ _ _ Hrej]. exact Hrej.
Qed.

Lemma matching_step_ok s0 mp tr : pipeline_ok s0 mp tr ->
  exists mp', matching_step processor mp = Some mp' /\ pipeline_ok s0 mp' tr.
Proof.
  intros Hok. pose proof (pl_queue _ _ _ Hok) as Hq. pose proof (ok_ring _ _ _ _ Hq) as Hr.
  pose proof (ring_head _ _ Hr) as Hhd. pose proof (ring_window _ _ Hr) as [? ?]. pose proof (ring_width _ _ Hr).
  pose proof Hok as [_ (k & Hk & Hrun & Hseq & Hpos) Hth Hrej].
  unfold matching_step. destruct (mp_matching mp) as [|pc| |c| | |] eqn:Hm.
  - eexists; split; [reflexivity|]. eapply matching_moves; try eassumption.
    + apply pop_begin_ok, (queue_between _ _ s0); [exact Hok|by rewrite Hm].
    + unfold position_ok in *. rewrite Hm in Hpos. exact Hpos.
  - destruct (consumer_step_ok _ _ _ _ Hq) as (q & r & Hs & Hh & _ & Hres). rewrite Hs.
    unfold position_ok in Hpos. rewrite Hm in Hpos. destruct Hpos as [Ht Hc].
    eexists; split; [reflexivity|]. destruct r as [pc'|[c|]].
    + destruct Hres as [Hq' Ht']. eapply matching_moves; try eassumption. unfold position_ok; cbn. lia.
    + destruct Hres as (Hq' & Ht' & Hv). eapply matching_moves; try eassumption. unfold position_ok; cbn.
      split; [lia|split; [lia|]]. rewrite Ht in Hv. unfold hist_at in Hv. by rewrite Nat2Z.id in Hv.
    + destruct Hres as (Hq' & -> & _). eapply matching_moves; try eassumption. unfold position_ok; cbn. lia.
  - eexists; split; [reflexivity|]. unfold position_ok in Hpos. rewrite Hm in Hpos.
    eapply matching_moves; try eassumption; [|destruct (mp_stop_requested mp) eqn:Hst; unfold position_ok; cbn; tauto].
    replace (consumer_of _) with (@None (ConsumerPc ExchangeCommand)) by (by destruct (mp_stop_requested mp)).
    apply (queue_between _ _ s0); [exact Hok|by rewrite Hm].
  - cbn [sequence]. rewrite Hseq. pose proof Hpos as Hpos'. unfold position_ok in Hpos'. rewrite Hm in Hpos'.
    destruct Hpos' as (Ht & Hc & Hl). pose proof (lookup_lt_Some _ _ _ Hl).
    destruct (processor (mp_engine mp) _) as [[s2 evs]|] eqn:Hproc; eexists; (split; [reflexivity|]).
    + eapply processed_ok; try eassumption; [lia|done].
    + eapply matching_moves; try eassumption.
      unfold position_ok; cbn. split; [lia|split; [lia|by exists c]].
  - eexists; split; [reflexivity|]. unfold position_ok in Hpos. rewrite Hm in Hpos.
    assert (Hqb := queue_between mp tr s0 Hok ltac:(by rewrite Hm)). split.
    + exact Hqb.
    + exists k. split_and!; try assumption. unfold position_ok; cbn. rewrite u64_small by lia. lia.
    + exact Hth.
    + exact Hrej.
  - by exists mp.
  - by exists mp.
Qed.

Lemma request_stop_ok s0 mp tr : pipeline_ok s0 mp tr -> pipeline_ok s0 (request_stop mp) tr.
Proof.
  intros [Hq (k & Hk & Hrun & Hseq & Hpos) Hth Hrej]. split; [exact Hq| |exact Hth|exact Hrej].
  exists k. split_and!; try assumption. unfold position_ok in *. cbn. destruct (mp_matching mp); tauto.
Qed.

Theorem step_ok s0 mp tr c : pipeline_ok s0 mp tr -> Z.of_nat (length tr) + 2 < two64 ->
  exists mp' ls, step processor mp c = Some (mp', ls) /\ pipeline_ok s0 mp' (tr ++ ls) /\ (length ls <= 1)%nat.
Proof.
  intros Hok Hlen. assert (Hadm : Z.of_nat (length (admitted tr)) + 2 < two64).
  { pose proof (length_omap_le (fun l => match l with Enqueued _ c => Some c | _ => None end) tr).
    unfold admitted. lia. }
  assert (Hstay : exists mp' ls, Some (mp, []) = Some (mp', ls) /\ pipeline_ok s0 mp' (tr ++ ls) /\ (length ls <= 1)%nat).
  { eexists _, _; split; [reflexivity|]. rewrite app_nil_r. split; [exact Hok|cbn; lia]. }
  unfold step. destruct (mp_matching mp) eqn:Hm; try exact Hstay.
  all: destruct c as [p cmd|p weak| |];
    [destruct (submit_step_ok s0 mp tr p cmd Hok); eexists _, _; split; [by apply f_equal, surjective_pairing|by split]
    |exact (push_step_ok s0 mp tr p weak Hok Hadm)
    |destruct (matching_step_ok s0 mp tr Hok) as (mp' & -> & Hok'); eexists _, _; split; [reflexivity|];
     rewrite app_nil_r; split; [exact Hok'|cbn; lia]
    |eexists _, _; split; [reflexivity|]; rewrite app_nil_r; split; [by apply request_stop_ok|cbn; lia]].
Qed.

Theorem schedule_run_ok s0 cs : forall mp tr, pipeline_ok s0 mp tr -> Z.of_nat (length tr + length cs) + 2 < two64 ->
  exists mp' tr', schedule_run processor mp cs = Some (mp', tr') /\ pipeline_ok s0 mp' (tr ++ tr') /\
    (length tr' <= length cs)%nat.
Proof.
  induction cs as [|c cs IH]; intros mp tr Hok Hlen; cbn [schedule_run].
  - eexists _, _; split; [reflexivity|]. rewrite app_nil_r. split; [exact Hok|cbn; lia].
  - cbn [length] in Hlen. destruct (step_ok s0 mp tr c Hok) as (mp1 & ls & -> & Hok1 & Hls); [lia|].
    destruct (IH mp1 (tr ++ ls) Hok1) as (mp2 & tr2 & -> & Hok2 & Hl2); [rewrite length_app; lia|].
    eexists _, _; split; [reflexivity|]. rewrite app_assoc. split; [exact Hok2|]. rewrite length_app. cbn. lia.
Qed.
End Invariant.

(** ** Stopping the pipeline

    From the moment the stop is requested and no call of [submit] is open,
    the matching thread empties the queue and stops, unless it had already
    found the queue empty: then it stops without looking again, and commands
    admitted in between stay in the queue. *)

Section Stop.
Context {S E : Type} (processor : S -> ExchangeCommand -> option (S * list E)).
Implicit Types (mp : MatchingPipeline S E).

Definition all_idle mp : Prop := forall p, mp_producers mp p = PuIdle.
Definition halted mp : bool := match mp_matching mp with MaStopped | MaTerminated => true | _ => false end.
Definition queue_empty mp : Prop := mq_tail (mp_queue mp) = mq_head (mp_queue mp).
(** A thread that has found the queue empty was right. *)
Definition knows_empty mp : Prop := match mp_matching mp with MaEmpty | MaStopped => queue_empty mp | _ => True end.
(** How many steps the matching thread still has to make. *)
Definition steps_left mp : Z :=
  8 * (mq_head (mp_queue mp) - mq_tail (mp_queue mp)) +
  match mp_matching mp with
  | MaLoop => 3
  | MaPop (PoCheck _) => 2
  | MaPop (PoMove _) => 1
  | MaPop (PoDestroy _ _) => 0
  | MaPop (PoClear _ _) => -1
  | MaPop (PoStoreTail _ _) => -2
  | MaCommand _ => 5
  | MaCount => 4
  | MaEmpty => 1
  | MaStopped | MaTerminated => 0
  end.

Lemma steps_left_bounds s0 mp tr : pipeline_ok processor s0 mp tr -> halted mp = false ->
  0 < steps_left mp <= 8 * Z.of_nat (length (admitted tr)) + 5.
Proof.
  intros Hok Hh. pose proof (pl_queue _ _ _ _ Hok) as Hq. pose proof (ok_ring _ _ _ _ Hq) as Hr.
  pose proof (ring_head _ _ Hr). pose proof (ring_window _ _ Hr) as [? ?]. pose proof (ok_consumer _ _ _ _ Hq) as Hc.
  unfold steps_left, halted in *. destruct (mp_matching mp) as [|[]| | | | |]; cbn in Hc, Hh; try discriminate; lia.
Qed.

Lemma pop_steps q (pc : ConsumerPc ExchangeCommand) q' pc' : consumer_step q pc = Some (q', inl pc') ->
  match pc, pc' with
  | PoCheck _, PoMove _ | PoMove _, PoDestroy _ _ | PoDestroy _ _, PoClear _ _ | PoClear _ _, PoStoreTail _ _ => True
  | _, _ => False
  end.
Proof. intros Hs. destruct pc; cbn in Hs; repeat case_match; simplify_eq; done. Qed.
Lemma pop_answers q (pc : ConsumerPc ExchangeCommand) q' r : consumer_step q pc = Some (q', inr r) ->
  match r with Some _ => exists t v, pc = PoStoreTail t v | None => exists t, pc = PoCheck t end.
Proof. intros Hs. destruct pc; cbn in Hs; repeat case_match; simplify_eq; eauto. Qed.

Lemma matching_step_progress s0 mp tr : pipeline_ok processor s0 mp tr -> all_idle mp ->
  mp_stop_requested mp = true -> knows_empty mp -> halted mp = false ->
  exists mp', matching_step processor mp = Some mp' /\ pipeline_ok processor s0 mp' tr /\ all_idle mp' /\
    mp_stop_requested mp' = true /\ knows_empty mp' /\ (halted mp' = true \/ steps_left mp' < steps_left mp).
Proof.
  intros Hok Hidle Hstop Hknow Hh. pose proof (pl_queue _ _ _ _ Hok) as Hq. pose proof (ok_ring _ _ _ _ Hq) as Hr.
  pose proof (ring_window _ _ Hr) as [? ?].
  destruct (matching_step_ok processor s0 mp tr Hok) as (mp' & Hs & Hok'). exists mp'. split; [exact Hs|]. split; [exact Hok'|].
  unfold matching_step in Hs. unfold knows_empty, halted, steps_left, all_idle, queue_empty in *.
  destruct (mp_matching mp) as [|pc| |c| | |] eqn:Hm; try discriminate.
  - injection Hs as <-. cbn. repeat split; try assumption. right. lia.
  - destruct (consumer_step_ok _ _ _ _ Hq) as (q & r & Hc & Hhd & _ & Hres). rewrite Hc in Hs. injection Hs as <-. cbn.
    split; [exact Hidle|]. split; [exact Hstop|]. destruct r as [pc'|[v|]].
    + destruct Hres as [_ Ht]. split; [exact I|]. right. pose proof (pop_steps _ _ _ _ Hc).
      destruct pc, pc'; try contradiction; lia.
    + destruct Hres as (_ & Ht & _). split; [exact I|]. right. destruct (pop_answers _ _ _ _ Hc) as (t & w & ->). lia.
    + destruct Hres as (_ & -> & Hn). destruct (pop_answers _ _ _ _ Hc) as (t & ->).
      assert (mq_tail (mp_queue mp) = mq_head (mp_queue mp)).
      { destruct (decide (mq_tail (mp_queue mp) < mq_head (mp_queue mp))) as [Hlt|]; [|lia].
        destruct Hn. split; [exact Hlt|]. intros p. rewrite Hidle. discriminate. }
      split; [assumption|]. right. lia.
  - injection Hs as <-. rewrite Hstop. cbn. repeat split; try assumption. by left.
  - destruct (sequence (mp_sequencer mp) c) as [sq c'].
    destruct (processor (mp_engine mp) c') as [[s2 evs]|]; injection Hs as <-; cbn; repeat split; try assumption.
    + right. lia.
    + by left.
  - injection Hs as <-. cbn. repeat split; try assumption. right. lia.
Qed.

Lemma halted_stays mp m : halted mp = true -> schedule_run processor mp (replicate m Matching) = Some (mp, []).
Proof.
  intros Hh. induction m as [|m IH]; [done|]. cbn [replicate schedule_run].
  assert (step processor mp Matching = Some (mp, [])) as ->.
  { unfold step, matching_step, halted in *. destruct (mp_matching mp); try discriminate; reflexivity. }
  by rewrite IH.
Qed.

Lemma drains s0 tr m : forall mp, pipeline_ok processor s0 mp tr -> all_idle mp ->
  mp_stop_requested mp = true -> knows_empty mp -> halted mp = true \/ steps_left mp <= Z.of_nat m ->
  exists mp', schedule_run processor mp (replicate m Matching) = Some (mp', []) /\
    pipeline_ok processor s0 mp' tr /\ knows_empty mp' /\ halted mp' = true.
Proof.
  induction m as [|m IH]; intros mp Hok Hidle Hstop Hknow Hleft; (destruct (halted mp) eqn:Hh;
    [exists mp; split; [by apply (halted_stays _ _)|by split]|]);
    pose proof (steps_left_bounds s0 mp tr Hok Hh); (destruct Hleft as [|Hleft]; [discriminate|]); [lia|].
  destruct (matching_step_progress s0 mp tr Hok Hidle Hstop Hknow Hh) as (mp1 & Hs & Hok1 & Hidle1 & Hstop1 & Hknow1 & Hless).
  destruct (IH mp1 Hok1 Hidle1 Hstop1 Hknow1) as (mp2 & Hrun & Hrest); [destruct Hless as [|]; [by left|right; lia]|].
  exists mp2. split; [|exact Hrest]. cbn [replicate schedule_run].
  assert (step processor mp Matching = Some (mp1, [])) as ->.
  { unfold step, halted in *. rewrite Hs. destruct (mp_matching mp); try discriminate; reflexivity. }
  by rewrite Hrun.
Qed.

(** An empty queue has been processed to the end. *)
Lemma empty_processed s0 mp tr : pipeline_ok processor s0 mp tr -> mp_matching mp = MaStopped -> queue_empty mp ->
  process_all processor s0 CommandSequencer_new (admitted tr) = Some (mp_engine mp, mp_sink mp) /\
  mp_commands_processed mp = Z.of_nat (length (admitted tr)).
Proof.
  intros Hok Hm He. pose proof (ring_head _ _ (ok_ring _ _ _ _ (pl_queue _ _ _ _ Hok))) as Hhd.
  destruct Hok as [_ (k & Hk & Hrun & _ & Hpos) _ _]. unfold position_ok in Hpos. rewrite Hm in Hpos.
  destruct Hpos as (Ht & Hc & _). unfold queue_empty in He. rewrite take_ge in Hrun by lia. split; [exact Hrun|lia].
Qed.

Lemma feed_app s s1 e1 cs cs' : feed processor s cs = Some (s1, e1) ->
  feed processor s (cs ++ cs') = (fun r => (r.1, e1 ++ r.2)) <$> feed processor s1 cs'.
Proof.
  revert s e1; induction cs as [|c cs IH]; intros s e1; cbn [feed app].
  - intros [= <- <-]. by destruct (feed processor s cs') as [[]|].
  - destruct (processor s c) as [[s' ev]|]; [|discriminate].
    destruct (feed processor s' cs) as [[s'' ev']|] eqn:Hf; [|discriminate]. intros [= <- <-].
    rewrite (IH _ _ Hf). destruct (feed processor s'' cs') as [[]|]; cbn; [by rewrite app_assoc|done].
Qed.

(** A thread that died of a throwing processor. *)
Lemma terminated_throws s0 mp tr : pipeline_ok processor s0 mp tr -> mp_matching mp = MaTerminated ->
  Z.of_nat (length (admitted tr)) + 2 < two64 -> feed processor s0 (numbered (admitted tr)) = None.
Proof.
  intros [_ (k & Hk & Hrun & _ & Hpos) _ _] Hm Hlen. unfold position_ok in Hpos. rewrite Hm in Hpos.
  destruct Hpos as (_ & _ & c & Hc & Hp). rewrite process_all_numbered in Hrun.
  2:{ pose proof (length_take (admitted tr) k). lia. }
  rewrite <- (take_drop_middle _ _ _ Hc) at 1. unfold numbered in *. rewrite imap_app, (feed_app _ _ _ _ _ Hrun).
  rewrite length_take_le by lia. cbn [imap feed]. rewrite Nat.add_0_r, Hp. reflexivity.
Qed.

(** Where a halted thread leaves the engine. *)
Lemma halted_result s0 mp tr : pipeline_ok processor s0 mp tr -> Z.of_nat (length (admitted tr)) + 2 < two64 ->
  knows_empty mp -> halted mp = true ->
  match feed processor s0 (numbered (admitted tr)) with
  | Some (s, evs) => mp_matching mp = MaStopped /\ mp_engine mp = s /\ mp_sink mp = evs /\
      mp_commands_processed mp = Z.of_nat (length (admitted tr))
  | None => mp_matching mp = MaTerminated
  end.
Proof.
  intros Hok Hlen Hk Hh. unfold halted, knows_empty in *. destruct (mp_matching mp) eqn:Hm; try discriminate.
  - destruct (empty_processed s0 mp tr Hok Hm Hk) as [Hp Hc].
    rewrite process_all_numbered in Hp by lia. by rewrite Hp.
  - by rewrite (terminated_throws s0 mp tr Hok Hm Hlen).
Qed.
End Stop.

(** ** A call that nobody interrupts, and a thread that has stopped *)
Section Alone.
Context {S E : Type} (processor : S -> ExchangeCommand -> option (S * list E)).
Implicit Types (mp : MatchingPipeline S E).

Definition push_label (p : nat) (ev : PushEvent ExchangeCommand) : Label :=
  match ev with Reserved c => Enqueued p c | Returned b => Answered p b end.
(** Nothing but the queue and the producers has changed. *)
Record untouched mp mp' : Prop := {
  un_matching : mp_matching mp' = mp_matching mp;
  un_sequencer : mp_sequencer mp' = mp_sequencer mp;
  un_engine : mp_engine mp' = mp_engine mp;
  un_sink : mp_sink mp' = mp_sink mp;
  un_processed : mp_commands_processed mp' = mp_commands_processed mp;
  un_stop : mp_stop_requested mp' = mp_stop_requested mp;
}.
Lemma step_live mp c : mp_matching mp <> MaTerminated ->
  step processor mp c = match c with
                        | Submit p command => Some (submit_step mp p command)
                        | Producer p weak => push_step mp p weak
                        | Matching => let* next := matching_step processor mp in Some (next, [])
                        | Stop => Some (request_stop mp, [])
                        end.
Proof. intros H. unfold step. by destruct (mp_matching mp). Qed.
Lemma schedule_run_app cs cs' mp mp1 tr1 : schedule_run processor mp cs = Some (mp1, tr1) ->
  schedule_run processor mp (cs ++ cs') = (fun r => (r.1, tr1 ++ r.2)) <$> schedule_run processor mp1 cs'.
Proof.
  revert mp tr1. induction cs as [|c cs IH]; intros mp tr1; cbn [schedule_run app].
  - intros [= <- <-]. by destruct (schedule_run processor mp cs') as [[]|].
  - destruct (step processor mp c) as [[mp2 tr2]|]; [|done]. destruct (schedule_run processor mp2 cs) as [[mp3 tr3]|] eqn:Hr; [|done].
    intros [= <- <-]. rewrite (IH _ _ Hr). destruct (schedule_run processor mp3 cs') as [[]|]; cbn; [by rewrite app_assoc|done].
Qed.
Lemma schedule_push n : forall mp p q pc evs, mp_matching mp <> MaTerminated ->
  push_run n (mp_queue mp) (mp_producers mp p) = Some (q, pc, evs) ->
  exists mp', schedule_run processor mp (replicate n (Producer p false)) = Some (mp', push_label p <$> evs) /\
    mp_queue mp' = q /\ untouched mp mp'.
Proof.
  induction n as [|n IH]; intros mp p q pc evs Hm; cbn [push_run].
  { intros [= <- <- <-]. exists mp. split; [done|]. split; [done|by split]. }
  destruct (producer_step false _ _) as [[[q1 pc1] ev]|] eqn:Hs; [|done].
  destruct (push_run n q1 pc1) as [[[q2 pc2] evs']|] eqn:Hr; [|done]. intros [= <- <- <-].
  set (rejected := match ev with Some (Returned false) => 1 | _ => 0 end).
  destruct (IH (with_producer mp q1 p pc1 rejected) p q2 pc2 evs' Hm) as (mp' & Hrun & Hq & Hu).
  { cbn. by rewrite fn_lookup_insert. }
  exists mp'. split; [|split; [exact Hq|destruct Hu; by split]]. cbn [replicate schedule_run].
  rewrite (step_live mp (Producer p false) Hm). unfold push_step. rewrite Hs.
  destruct ev as [[c|[]]|]; cbn [option_list app]; unfold rejected in Hrun; by rewrite Hrun.
Qed.
Lemma submit_alone s0 mp tr p c : pipeline_ok processor s0 mp tr -> mp_matching mp <> MaTerminated ->
  mp_producers mp p = PuIdle -> mq_head (mp_queue mp) - mq_tail (mp_queue mp) < mq_capacity (mp_queue mp) ->
  exists mp', schedule_run processor mp (Submit p c :: replicate 7 (Producer p false)) =
      Some (mp', [Submitted p c; Enqueued p c; Answered p true]) /\ untouched mp mp'.
Proof.
  intros Hok Hm Hp Hroom. destruct (push_alone _ _ _ _ c (pl_queue _ _ _ _ Hok) Hroom) as (q & Hq).
  cbn [schedule_run]. rewrite (step_live mp (Submit p c) Hm). unfold submit_step. rewrite Hp.
  destruct (schedule_push 7 (with_producer mp (mp_queue mp) p (push_begin (mp_queue mp) c) 0) p q PuIdle [Reserved c; Returned true])
    as (mp' & Hrun & _ & Hu); [exact Hm|cbn; by rewrite fn_lookup_insert|].
  exists mp'. rewrite Hrun. split; [done|]. destruct Hu; by split.
Qed.
Lemma stopped_for_good cs : forall mp mp' tr, mp_matching mp = MaStopped -> schedule_run processor mp cs = Some (mp', tr) ->
  mp_matching mp' = MaStopped /\ mp_engine mp' = mp_engine mp /\ mp_sink mp' = mp_sink mp /\
  mp_commands_processed mp' = mp_commands_processed mp.
Proof.
  induction cs as [|c cs IH]; intros mp mp' tr Hm; cbn [schedule_run]; [by intros [= <- <-]|].
  rewrite (step_live mp c) by (by rewrite Hm).
  assert (H1 : forall mp1 tr1, (match c with
                          | Submit p command => Some (submit_step mp p command)
                          | Producer p weak => push_step mp p weak
                          | Matching => let* next := matching_step processor mp in Some (next, [])
                          | Stop => Some (request_stop mp, [])
                          end) = Some (mp1, tr1) ->
    mp_matching mp1 = MaStopped /\ mp_engine mp1 = mp_engine mp /\ mp_sink mp1 = mp_sink mp /\
    mp_commands_processed mp1 = mp_commands_processed mp).
  { intros mp1 tr1. destruct c as [p command|p weak| |].
    - unfold submit_step. destruct (mp_producers mp p); by intros [= <- <-].
    - unfold push_step. destruct (producer_step _ _ _) as [[[q pc] ev]|]; [|done]. destruct ev as [[|[]]|]; by intros [= <- <-].
    - unfold matching_step. rewrite Hm. by intros [= <- <-].
    - by intros [= <- <-]. }
  destruct (match c with Submit p command => _ | _ => _ end) as [[mp1 tr1]|]; [|done].
  destruct (H1 mp1 tr1 eq_refl) as (Hm1 & He & Hs & Hp).
  destruct (schedule_run processor mp1 cs) as [[mp2 tr2]|] eqn:Hr; [|done]. intros [= <- _].
  destruct (IH mp1 mp2 tr2 Hm1 Hr) as (Hm2 & -> & -> & ->). by rewrite He, Hs, Hp.
Qed.
End Alone.
