(* ===== verification/PipelineClaims.v ===== *)
(** * Properties of the matching pipeline

    Every interleaving of any number of submitting threads with the matching
    thread is one thread running the admitted commands in order; a stop
    drains the queue, and when it does not. *)
From stdpp Require Import functions.
From S2P Require Import Prelude Types MpscQueue SpscQueue MatchingBook BookReads BookSpec MatchingEngine EngineClaims MarketDataCodec FeedPublisher Packet MarketDataRouter Pipeline.

(** The engine as the pipeline's processor. *)
Lemma feed_process {B} `{BookImpl B} (e : MatchingEngine B) cmds : feed process e cmds = run e cmds.
Proof.
  revert e; induction cmds as [|c cmds IH]; intros e; [reflexivity|]. cbn [feed run].
  destruct (process e c) as [[e' evs]|]; [|reflexivity]. by rewrite IH.
Qed.

(** C9: the pipeline is sequential.  Schedule any number of threads that
    call [submit] with the matching thread and a stop request, step by step
    in any order, weak compare-exchanges failing at will.  No step is
    undefined, and in the state reached the engine and everything the sink
    received are exactly what one thread produces by processing a prefix of
    the admitted commands in admission order, numbered 1, 2, 3, ... without
    a gap; the commands admitted and not yet taken fit the queue; each
    thread's admitted commands are its accepted calls in call order (with
    the open call last, once it has its slot); refusals are counted exactly;
    and the thread dies only of a processor that throws on the next one. *)
Theorem pipeline_is_sequential {S E : Type} (processor : S -> ExchangeCommand -> option (S * list E)) capacity s0 cs :
  0 <= capacity <= two63 -> Z.of_nat (length cs) + 2 < two64 ->
  exists mp0 mp tr k, MatchingPipeline_new capacity s0 = Some mp0 /\ schedule_run processor mp0 cs = Some (mp, tr) /\
    (k <= length (admitted tr))%nat /\
    feed processor s0 (numbered (take k (admitted tr))) = Some (mp_engine mp, mp_sink mp) /\
    next_sequence (mp_sequencer mp) = Z.of_nat k + 1 /\
    Z.of_nat k - 1 <= mp_commands_processed mp <= Z.of_nat k /\
    Z.of_nat (length (admitted tr)) - Z.of_nat k <= mq_capacity (mp_queue mp) + 1 /\
    (forall p, exists pending, admitted_by p tr = accepted p tr ++ pending /\
       (pending = [] \/ exists c, open_call p tr = Some c /\ pending = [c]) /\
       (mp_producers mp p = PuIdle -> open_call p tr = None)) /\
    mp_commands_rejected mp = refusals tr /\
    (mp_matching mp = MaTerminated -> exists c, admitted tr !! k = Some c /\
       processor (mp_engine mp) (set_command_sequence (Z.of_nat k + 1) c) = None).
Proof.
  intros Hcap Hlen. destruct (mp_new_ok processor capacity s0 Hcap) as (mp0 & Hnew & Hok0 & _ & _).
  destruct (schedule_run_ok processor s0 cs mp0 [] Hok0) as (mp & tr & Hrun & Hok & Htr); [cbn; lia|]. cbn [app] in Hok.
  pose proof Hok as [Hq (k & Hk & Hproc & Hseq & Hpos) Hth Hrej]. exists mp0, mp, tr, k.
  pose proof (length_omap_le (fun l => match l with Enqueued _ c => Some c | _ => None end) tr) as Hadm.
  change (omap _ tr) with (admitted tr) in Hadm. pose proof (ok_ring _ _ _ _ Hq) as Hr.
  pose proof (ring_head _ _ Hr). pose proof (ring_window _ _ Hr) as [? ?].
  split_and!; try assumption.
  - rewrite <- process_all_numbered; [exact Hproc|]. pose proof (length_take (admitted tr) k). lia.
  - unfold position_ok in Hpos. destruct (mp_matching mp); lia.
  - unfold position_ok in Hpos. destruct (mp_matching mp); lia.
  - unfold position_ok in Hpos. destruct (mp_matching mp); lia.
  - intros p. specialize (Hth p). unfold thread_ok in Hth. destruct (mp_producers mp p);
      (destruct Hth as (v & Hc & ->) || destruct Hth as [Hc ->]); rewrite Hc; cbn;
      first [exists []; rewrite app_nil_r; split_and!; [done|by left|done]|exists [v]; split_and!; [done|by right; exists v|done]].
  - rewrite Hrej. apply u64_small. unfold refusals.
    pose proof (length_omap_le (fun l => match l with Answered _ false => Some tt | _ => None end) tr). lia.
  - intros Hm. unfold position_ok in Hpos. rewrite Hm in Hpos. tauto.
Qed.

(** Two threads submit, interleaved, while the matching thread runs. *)
Definition pushes (p : nat) (n : nat) : list Choice := replicate n (Producer p false).
Definition demo_schedule : list Choice :=
  [Submit 1 (demo_new 1 1 Buy 100 5 GTC); Submit 2 (demo_new 2 1 Sell 100 3 GTC); Producer 1 true] ++ pushes 2 2 ++
  pushes 1 2 ++ [Matching; Matching; Matching] ++ pushes 2 5 ++ pushes 1 8 ++ replicate 20 Matching.
Definition demo_pipeline : MatchingPipeline (MatchingEngine MatchingBook) ExchangeEvent * list Label :=
  default ({| mp_queue := {| mq_capacity := 0; mq_mask := 0; mq_slots := []; mq_high_water_mark := 0; mq_head := 0; mq_tail := 0 |};
              mp_sequencer := CommandSequencer_new; mp_engine := MatchingEngine_new [] 0; mp_sink := [];
              mp_commands_processed := 0; mp_commands_rejected := 0; mp_stop_requested := false;
              mp_producers := fun _ => PuIdle; mp_matching := MaLoop |}, [])
    (let* mp := MatchingPipeline_new 4 (MatchingEngine_new [7] 0) in schedule_run process mp demo_schedule).

Lemma pipeline_is_sequential_witness : mp_commands_processed demo_pipeline.1 = 2 /\
  admitted demo_pipeline.2 = [demo_new 2 1 Sell 100 3 GTC; demo_new 1 1 Buy 100 5 GTC] /\
  exists mp0 mp tr k, MatchingPipeline_new 4 (MatchingEngine_new [7] 0) = Some mp0 /\
    schedule_run process mp0 demo_schedule = Some (mp, tr) /\
    run (MatchingEngine_new [7] 0) (numbered (take k (admitted tr))) = Some (mp_engine mp, mp_sink mp).
Proof.
  split; [vm_compute; reflexivity|]. split; [vm_compute; reflexivity|].
  destruct (pipeline_is_sequential (process (B := MatchingBook)) 4 (MatchingEngine_new [7] 0) demo_schedule)
    as (mp0 & mp & tr & k & H1 & H2 & _ & H3 & _); [lia|vm_compute; reflexivity|].
  exists mp0, mp, tr, k. split; [exact H1|]. split; [exact H2|]. rewrite feed_process in H3. exact H3.
Defined.

(** C35: a stop drains the queue.  In any state reached with no call of
    [submit] open and the matching thread not just past a failed pop, request
    the stop and let the matching thread run: within eight steps per admitted
    command it has processed every admitted command, in order, and stopped
    -- or died of the processor throwing on one of them. *)
Theorem stop_drains {S E : Type} (processor : S -> ExchangeCommand -> option (S * list E)) capacity s0 cs mp0 mp tr m :
  0 <= capacity <= two63 -> Z.of_nat (length cs) + 2 < two64 ->
  MatchingPipeline_new capacity s0 = Some mp0 -> schedule_run processor mp0 cs = Some (mp, tr) ->
  (forall p, mp_producers mp p = PuIdle) -> mp_stop_requested mp = false -> mp_matching mp <> MaEmpty ->
  8 * Z.of_nat (length (admitted tr)) + 5 <= Z.of_nat m ->
  exists mp', schedule_run processor mp (Stop :: replicate m Matching) = Some (mp', []) /\
    match feed processor s0 (numbered (admitted tr)) with
    | Some (s, evs) => mp_matching mp' = MaStopped /\ mp_engine mp' = s /\ mp_sink mp' = evs /\
        mp_commands_processed mp' = Z.of_nat (length (admitted tr))
    | None => mp_matching mp' = MaTerminated
    end.
Proof.
  intros Hcap Hlen Hnew Hrun Hidle Hns Hne Hm. destruct (mp_new_ok processor capacity s0 Hcap) as (mp0' & Hnew' & Hok0 & _ & _).
  rewrite Hnew in Hnew'. injection Hnew' as <-.
  destruct (schedule_run_ok processor s0 cs mp0 [] Hok0) as (mp' & tr' & Hrun' & Hok & Htr); [cbn; lia|].
  rewrite Hrun in Hrun'. injection Hrun' as <- <-. cbn [app] in Hok.
  pose proof (length_omap_le (fun l => match l with Enqueued _ c => Some c | _ => None end) tr) as Hadm.
  change (omap _ tr) with (admitted tr) in Hadm.
  assert (Hadm2 : Z.of_nat (length (admitted tr)) + 2 < two64) by lia.
  cbn [schedule_run]. destruct (halted mp) eqn:Hh.
  - destruct (mp_matching mp) eqn:Hmm; unfold halted in Hh; rewrite Hmm in Hh; try discriminate.
    + destruct Hok as [_ (k & _ & _ & _ & Hpos) _ _]. unfold position_ok in Hpos. rewrite Hmm in Hpos.
      destruct Hpos as (_ & _ & Hst). congruence.
    + assert (Hst : step processor mp Stop = Some (mp, [])) by (unfold step; by rewrite Hmm).
      assert (Hh' : halted mp = true) by (unfold halted; by rewrite Hmm).
      exists mp. rewrite Hst, halted_stays by exact Hh'. split; [done|].
      apply halted_result; [exact Hok|exact Hadm2|unfold knows_empty; by rewrite Hmm|exact Hh'].
  - assert (Hst : step processor mp Stop = Some (request_stop mp, [])).
    { unfold step, halted in *. destruct (mp_matching mp); try discriminate; reflexivity. }
    rewrite Hst. destruct (drains processor s0 tr m (request_stop mp)) as (mp2 & Hr2 & Hok2 & Hk2 & Hh2).
    + by apply request_stop_ok.
    + exact Hidle.
    + reflexivity.
    + unfold knows_empty, halted in *. cbn. destruct (mp_matching mp); try discriminate; done.
    + right. pose proof (steps_left_bounds processor s0 (request_stop mp) tr (request_stop_ok processor _ _ _ Hok) Hh). lia.
    + exists mp2. rewrite Hr2. split; [reflexivity|]. by apply halted_result.
Qed.

Lemma demo_idle p : mp_producers demo_pipeline.1 p = PuIdle.
Proof. destruct p as [|[|[|p]]]; vm_compute; reflexivity. Qed.
Lemma stop_drains_witness : admitted demo_pipeline.2 <> [] /\
  exists mp', schedule_run process demo_pipeline.1 (Stop :: replicate 21 Matching) = Some (mp', []) /\
    mp_matching mp' = MaStopped /\ mp_commands_processed mp' = 2.
Proof.
  split; [vm_compute; discriminate|].
  destruct (stop_drains (process (B := MatchingBook)) 4 (MatchingEngine_new [7] 0) demo_schedule
    (default demo_pipeline.1 (MatchingPipeline_new 4 (MatchingEngine_new [7] 0))) demo_pipeline.1 demo_pipeline.2 21) as (mp' & H1 & H2).
  - lia.
  - vm_compute; reflexivity.
  - vm_compute; reflexivity.
  - vm_compute; reflexivity.
  - exact demo_idle.
  - vm_compute; reflexivity.
  - vm_compute; discriminate.
  - vm_compute; discriminate.
  - exists mp'. split; [exact H1|]. revert H2. vm_compute. tauto.
Defined.

(** ** What can go wrong *)
Definition recorder (s : unit) (c : ExchangeCommand) : option (unit * list ExchangeCommand) := Some (s, [c]).
Definition recorded (capacity : Z) (cs : list Choice) : option (MatchingPipeline unit ExchangeCommand * list Label) :=
  let* mp := MatchingPipeline_new capacity tt in schedule_run recorder mp cs.
Definition demo_command : ExchangeCommand := demo_new 1 1 Buy 100 5 GTC.

(** C40: what the pipeline gives up, in every state any schedule reaches
    (of fewer than 2^63 steps, the matching thread alive):
    (a) the matching thread pops before it looks at the stop flag.  Whenever
    its last pop was empty, any idle thread may submit any command while the
    queue has room: [submit] returns true, and if the stop is requested then,
    the thread stops without it, and no later step of any thread processes it;
    (b) a producer that read [head_] and was overtaken finds [tail_] past it:
    the difference wraps and [submit] refuses, whatever room there is.  It
    refuses exactly then and when the queue is full;
    (c) a producer records an occupancy computed from a [tail_] that may be
    past its own slot: the difference wraps, and exactly then the high-water
    mark leaves the queue's capacity behind. *)
Theorem pipeline_races {S E : Type} (processor : S -> ExchangeCommand -> option (S * list E)) capacity s0 cs mp0 mp tr :
  0 <= capacity <= two63 -> Z.of_nat (length cs) + 2 < two63 ->
  MatchingPipeline_new capacity s0 = Some mp0 -> schedule_run processor mp0 cs = Some (mp, tr) -> mp_matching mp <> MaTerminated ->
  let q := mp_queue mp in
  (mp_matching mp = MaEmpty -> forall p c, mp_producers mp p = PuIdle -> mq_head q - mq_tail q < mq_capacity q ->
     exists mp', schedule_run processor mp ((Submit p c :: pushes p 7) ++ [Stop; Matching]) =
         Some (mp', [Submitted p c; Enqueued p c; Answered p true]) /\ mp_matching mp' = MaStopped /\
       forall later mp'' tr', schedule_run processor mp' later = Some (mp'', tr') ->
         mp_engine mp'' = mp_engine mp /\ mp_sink mp'' = mp_sink mp /\ mp_commands_processed mp'' = mp_commands_processed mp) /\
  (forall p v h weak, mp_producers mp p = PuLoadTail v h ->
     (exists mp', step processor mp (Producer p weak) = Some (mp', [Answered p false])) <->
     h < mq_tail q \/ (h = mq_head q /\ mq_head q - mq_tail q = mq_capacity q)) /\
  (forall p h, mp_producers mp p = PuOccupancy h ->
     exists mp', schedule_run processor mp (pushes p 3) = Some (mp', [Answered p true]) /\
       let recorded := if h + 1 <? mq_tail q then two64 - (mq_tail q - (h + 1)) else h + 1 - mq_tail q in
       mq_high_water_mark (mp_queue mp') = Z.max (mq_high_water_mark q) recorded /\
       (mq_high_water_mark q <= mq_capacity q -> mq_capacity q < mq_high_water_mark (mp_queue mp') <-> h + 1 < mq_tail q)).
Proof.
  intros Hcap Hlen Hnew Hrun Hm q. destruct (mp_new_ok processor capacity s0 Hcap) as (mp0' & Hnew' & Hok0 & _ & _).
  rewrite Hnew in Hnew'. injection Hnew' as <-.
  destruct (schedule_run_ok processor s0 cs mp0 [] Hok0) as (mp' & tr' & Hrun' & Hok & Htr); [cbn; lia|].
  rewrite Hrun in Hrun'. injection Hrun' as <- <-. cbn [app] in Hok.
  pose proof (length_omap_le (fun l => match l with Enqueued _ c => Some c | _ => None end) tr) as Hadm.
  change (omap _ tr) with (admitted tr) in Hadm. pose proof (pl_queue _ _ _ _ Hok) as Hq. pose proof (ok_ring _ _ _ _ Hq) as Hr.
  pose proof (ring_head _ _ Hr) as Hhd. pose proof (ring_window _ _ Hr) as [Hw1 Hw2].
  assert (Hc63 : 0 < mq_capacity q <= two63).
  { destruct (ring_bits _ _ Hr) as (k & Hk & Hc). unfold q. rewrite Hc. split; [apply Z.pow_pos_nonneg; lia|].
    change two63 with (2 ^ 63). apply Z.pow_le_mono_r; lia. }
  fold q in Hhd, Hw1, Hw2. split_and!.
  - intros Hempty p c Hp Hroom. destruct (submit_alone processor s0 mp tr p c Hok Hm Hp Hroom) as (mp1 & H1 & [U1 U2 U3 U4 U5 U6]).
    exists (with_matching (request_stop mp1) (mp_queue mp1) MaStopped).
    assert (H2 : schedule_run processor mp1 [Stop; Matching] = Some (with_matching (request_stop mp1) (mp_queue mp1) MaStopped, [])).
    { cbn [schedule_run]. rewrite (step_live processor mp1) by (by rewrite U1, Hempty). cbn [schedule_run].
      rewrite (step_live processor (request_stop mp1)) by (cbn; by rewrite U1, Hempty). unfold matching_step. cbn. by rewrite U1, Hempty. }
    split; [by rewrite (schedule_run_app _ _ _ _ _ _ H1), H2|]. split; [done|].
    intros later mp2 tr2 H3. pose proof (stopped_for_good processor later (with_matching (request_stop mp1) (mp_queue mp1) MaStopped) mp2 tr2 eq_refl H3)
      as (_ & -> & -> & ->). cbn. by rewrite U3, U4, U5.
  - intros p v h weak Hp. pose proof (ok_producers _ _ _ _ Hq p) as Hpo. rewrite Hp in Hpo. cbn in Hpo. fold q in Hpo.
    rewrite step_live by done. unfold push_step. rewrite Hp. cbn [producer_step]. fold q.
    assert (Hu : u64 (h - mq_tail q) = if h <? mq_tail q then two64 + (h - mq_tail q) else h - mq_tail q).
    { destruct (Z.ltb_spec h (mq_tail q)); [|apply u64_small; lia]. unfold u64.
      rewrite <- (Z.mod_add _ 1) by lia. rewrite Z.mod_small; lia. }
    rewrite Hu. destruct (Z.ltb_spec h (mq_tail q)).
    + rewrite (proj2 (Z.leb_le _ _)) by lia. split; [by left|intros _; by eexists].
    + destruct (Z.leb_spec (mq_capacity q) (h - mq_tail q)); (split; [intros [mp1 Hx]|intros Hx]); [right; lia|by eexists|discriminate Hx|lia].
  - intros p h Hp. pose proof (ok_producers _ _ _ _ Hq p) as Hpo. rewrite Hp in Hpo. cbn in Hpo. fold q in Hpo.
    destruct (schedule_push processor 3 mp p _ PuIdle [Returned true] Hm ltac:(rewrite Hp; apply (occupancy_run 0))) as (mp1 & H1 & Hq1 & _).
    exists mp1. split; [exact H1|]. cbn zeta. rewrite Hq1. cbn [set_high_water_mark mq_high_water_mark]. fold q.
    assert (Hu : u64 (h + 1 - mq_tail q) = if h + 1 <? mq_tail q then two64 - (mq_tail q - (h + 1)) else h + 1 - mq_tail q).
    { destruct (Z.ltb_spec (h + 1) (mq_tail q)); [|apply u64_small; lia]. unfold u64.
      rewrite <- (Z.mod_add _ 1) by lia. rewrite Z.mod_small; lia. }
    rewrite Hu. split; [done|]. intros Hpeak. destruct (Z.ltb_spec (h + 1) (mq_tail q)); lia.
Qed.
(** All three happen: the schedules reach such states. *)
Definition recorded_from (capacity : Z) (cs : list Choice) : MatchingPipeline unit ExchangeCommand * list Label :=
  default ({| mp_queue := {| mq_capacity := 0; mq_mask := 0; mq_slots := []; mq_high_water_mark := 0; mq_head := 0; mq_tail := 0 |};
              mp_sequencer := CommandSequencer_new; mp_engine := tt; mp_sink := []; mp_commands_processed := 0; mp_commands_rejected := 0;
              mp_stop_requested := false; mp_producers := fun _ => PuIdle; mp_matching := MaLoop |}, []) (recorded capacity cs).
Definition overtaken : list Choice := [Submit 0 demo_command; Submit 1 demo_command] ++ pushes 1 7 ++ replicate 8 Matching.
Definition overtaken_late : list Choice :=
  [Submit 0 demo_command] ++ pushes 0 4 ++ [Submit 1 demo_command] ++ pushes 1 7 ++ replicate 16 Matching.
Lemma pipeline_races_witness :
  (exists mp', schedule_run recorder (recorded_from 4 [Matching; Matching]).1 ((Submit 0 demo_command :: pushes 0 7) ++ [Stop; Matching]) =
      Some (mp', [Submitted 0 demo_command; Enqueued 0 demo_command; Answered 0 true]) /\ mp_matching mp' = MaStopped) /\
  (mq_size (mp_queue (recorded_from 4 overtaken).1) = 0 /\
   exists mp', step recorder (recorded_from 4 overtaken).1 (Producer 0 false) = Some (mp', [Answered 0 false])) /\
  (exists mp', schedule_run recorder (recorded_from 4 overtaken_late).1 (pushes 0 3) = Some (mp', [Answered 0 true]) /\
     mq_high_water_mark (mp_queue mp') = two64 - 1).
Proof.
  set (new := default (recorded_from 4 []).1 (MatchingPipeline_new 4 tt)).
  assert (Hnew : MatchingPipeline_new 4 tt = Some new) by (vm_compute; reflexivity). split; [|split].
  - destruct (pipeline_races recorder 4 tt [Matching; Matching] new (recorded_from 4 [Matching; Matching]).1 (recorded_from 4 [Matching; Matching]).2)
      as [H _]; [lia|vm_compute; reflexivity|exact Hnew|vm_compute; reflexivity|vm_compute; discriminate|].
    destruct (H ltac:(vm_compute; reflexivity) 0%nat demo_command ltac:(vm_compute; reflexivity) ltac:(vm_compute; reflexivity)) as (mp' & H1 & H2 & _).
    exists mp'. split; [exact H1|exact H2].
  - split; [vm_compute; reflexivity|].
    destruct (pipeline_races recorder 4 tt overtaken new (recorded_from 4 overtaken).1 (recorded_from 4 overtaken).2)
      as (_ & H & _); [lia|vm_compute; reflexivity|exact Hnew|vm_compute; reflexivity|vm_compute; discriminate|].
    apply (H 0%nat demo_command 0 false); [vm_compute; reflexivity|]. left. vm_compute. reflexivity.
  - destruct (pipeline_races recorder 4 tt overtaken_late new (recorded_from 4 overtaken_late).1 (recorded_from 4 overtaken_late).2)
      as (_ & _ & H); [lia|vm_compute; reflexivity|exact Hnew|vm_compute; reflexivity|vm_compute; discriminate|].
    destruct (H 0%nat 0 ltac:(vm_compute; reflexivity)) as (mp' & H1 & H2 & _). exists mp'. split; [exact H1|].
    rewrite H2. vm_compute. reflexivity.
Defined.

(** C15: the market-data router delivers in order, in batches that fit, and
    drains.  From construction, under every interleaving of publishes with
    the routing thread's steps, measured or not: no step is undefined; what
    was handed downstream, what is in hand and what is queued is, in order, a
    subsequence of the wire messages published -- all of them if the queue
    was large enough -- and the rest is counted as dropped; each batch is
    non-empty, within the cap and, at the default cap, one unfragmented
    datagram; the counters count.  Once stop is requested, a routing thread
    that is not already past an empty pop delivers everything queued and ends
    within the number of steps given; one that is past it ends at its next
    step, and everything queued since stays in the queue. *)
Theorem router_delivers options xs : ro_queue_capacity options <= two63 -> 0 <= ro_max_batch options ->
  exists r0 r bs kept queued, MarketDataRouter_new options = Some r0 /\ router_run r0 xs = Some (r, bs) /\
  let ws := wire_messages MarketDataPublisher_new xs in
  (sublist kept ws /\ kept = concat bs ++ in_hand (rt_pc r) ++ queued /\
   (Z.of_nat (length ws) <= ro_queue_capacity options -> kept = ws) /\
   dq_dropped_count (rt_queue r) = u64 (Z.of_nat (length ws) - Z.of_nat (length kept))) /\
  (Forall (fun b => b <> [] /\ Z.of_nat (length b) <= Z.max 1 (ro_max_batch options)) bs /\
   (ro_max_batch options <= Packet.MAX_FRAMES_PER_DATAGRAM ->
      Forall (fun b => forall seq, Z.of_nat (length (Packet.pack_frames seq b)) <= Packet.MAX_DATAGRAM_PAYLOAD) bs)) /\
  (rt_routed r = u64 (Z.of_nat (length (concat bs))) /\ rt_batches r = u64 (Z.of_nat (length bs)) /\
   rt_max_batch_observed r = foldr Z.max 0 (Z.of_nat ∘ length <$> bs) /\
   (rt_measure_publish_cost r = true ->
      counted (Router.publish_cost r) (Z.of_nat (length ws)) (Z.of_nat (length kept)))) /\
  (rt_stop_requested r = true -> rt_pc r <> RoutingCheckStop -> rt_pc r <> RoutingDone ->
     exists r' bs', router_run r (replicate (4 + 3 * length queued) (DoRoute false)) = Some (r', bs') /\
       rt_pc r' = RoutingDone /\ concat (bs ++ bs') = kept) /\
  (rt_stop_requested r = true -> rt_pc r = RoutingCheckStop ->
     exists r', router_run r [DoRoute false] = Some (r', []) /\ rt_pc r' = RoutingDone /\
       Dropping.size (rt_queue r') = Z.of_nat (length queued) /\ kept = concat bs ++ queued).
Proof.
  intros Hc Hm. destruct (new_router_ok options Hc Hm) as (r0 & H0 & K0 & Hp & Hcap & _ & Hmax).
  destruct (run_ok xs r0 [] [] [] [] K0) as (r & bs & kept & queued & Hrun & K & Hq & Hm').
  rewrite Hp in K. cbn [app] in K. exists r0, r, bs, kept, queued. split; [exact H0|]. split; [exact Hrun|]. cbn zeta.
  pose proof (rk_log _ _ _ _ _ K) as Hlog. rewrite Hm', Hmax in Hlog.
  split; [|split; [|split; [split_and!; apply K|split]]].
  - split; [apply K|]. split; [apply K|]. split; [|apply K]. intros Hfit. destruct (rk_lost _ _ _ _ _ K) as [?|Hlost]; [done|]. rewrite Hq in Hlost. lia.
  - split; [exact Hlog|]. intros Hd. apply (Forall_impl _ _ _ Hlog). intros b [_ Hb] seq. apply Packet.batch_fits.
    change Packet.MAX_FRAMES_PER_DATAGRAM with 29 in *. lia.
  - intros Hst Hcs Hdone. destruct (router_drains (4 + 3 * length queued)%nat r _ kept queued bs K Hst) as (r' & bs' & Hr & K' & Hd).
    + by intros [?|?].
    + destruct (rt_pc r); cbn [pc_weight]; try case_bool_decide; lia.
    + exists r', bs'. split; [exact Hr|]. split; [exact Hd|]. pose proof (rk_split _ _ _ _ _ K') as E. rewrite Hd in E. cbn in E.
      by rewrite !app_nil_r in E.
  - intros Hst Hcs. eexists. split; [cbn; unfold Router.routing_step; rewrite Hcs, Hst; reflexivity|]. split; [done|].
    split; [exact (qi_size _ _ (rk_queue _ _ _ _ _ K))|]. pose proof (rk_split _ _ _ _ _ K) as E. by rewrite Hcs in E.
Qed.
Definition demo_ticks : PublishTicks :=
  {| tk_control_begin := 1; tk_control_end := 2; tk_publish_begin := 2; tk_push_begin := 5; tk_push_end := 9; tk_notify_end := 12;
     tk_publish_end := 20 |}.
Definition demo_removed (id : Z) : RouterStep := DoPublish demo_ticks 0
  (EvBookOrderRemoved {| bom_event_sequence := 1; bom_exchange_order_id := id; bom_instrument_id := 7; bom_side := Buy; bom_price := 100 |}).
Definition demo_router : MarketDataRouterOptions := {| ro_queue_capacity := 2; ro_max_batch := 29; ro_measure_publish_cost := true |}.
Lemma router_delivers_witness : exists r0 r bs, MarketDataRouter_new demo_router = Some r0 /\
  router_run r0 ([demo_removed 1; demo_removed 2; demo_removed 3; DoRoute false; DoStop]) = Some (r, bs) /\
  dq_dropped_count (rt_queue r) = 1 /\ exists n r' bs', router_run r (replicate n (DoRoute false)) = Some (r', bs') /\ rt_pc r' = RoutingDone.
Proof.
  destruct (router_delivers demo_router [demo_removed 1; demo_removed 2; demo_removed 3; DoRoute false; DoStop])
    as (r0 & r & bs & kept & queued & H0 & Hr & _ & _ & _ & Hd & _); [vm_compute; discriminate|vm_compute; discriminate|].
  exists r0, r, bs. split; [exact H0|]. split; [exact Hr|].
  vm_compute in H0. injection H0 as <-. vm_compute in Hr. injection Hr as <- <-.
  split; [reflexivity|]. destruct Hd as (r' & bs' & Hr' & Hpc & _); [reflexivity|discriminate|discriminate|].
  eexists _, r', bs'. split; [exact Hr'|exact Hpc].
Defined.
(** The other case: a message published after the routing thread's last,
    empty pop and before it looks at the stop flag stays in the queue. *)
Example router_stop_race : exists r0 r, MarketDataRouter_new demo_router = Some r0 /\
  router_run r0 [DoRoute false; demo_removed 1; DoStop; DoRoute false] = Some (r, []) /\
  rt_pc r = RoutingDone /\ Dropping.size (rt_queue r) = 1.
Proof. eexists _, _. split; [vm_compute; reflexivity|]. split; [vm_compute; reflexivity|]. by split. Qed.
