(* ===== verification/LatencyTracer.v ===== *)
(** * Order-path latency tracing: include/exchange/latency/latency_tracer.hpp

    A table of slots indexed by a hash of (account, client order id), stamped
    without locks by the client, the gateway and the matching thread.  Every
    stamp is a program over single atomic accesses ([Prog]), in the source's
    order, so that the same definition runs alone ([exec]) and interleaved
    with others ([run_threads]).  The clock's answer is the argument [now]. *)
From S2P Require Import Prelude Types OrderEntryCodec MpscQueue.

Definition kDefaultSlotCount : Z := Z.shiftl 1 16.

(** ** The shared memory *)
Inductive Field := FAccount | FClientOrder | FT0 | FT1 | FT2 | FT3First | FT3End | FT4Queued | FT4Written | FT5First | FT5Last
  | FGenerated | FDecoded | FFirstType.
#[export] Instance Field_eq_dec : EqDecision Field.
Proof. solve_decision. Defined.
(** [slots_] is a pointer of which only nullness is asked. *)
Inductive Cell := CEnabled | CMask | CSlots | CSlot (i : Z) (f : Field).
#[export] Instance Cell_eq_dec : EqDecision Cell.
Proof. solve_decision. Defined.
Definition Memory := Cell -> Z.
Definition Memory_zero : Memory := fun _ => 0.
Definition put (m : Memory) (c : Cell) (v : Z) : Memory := fun c' => if decide (c' = c) then v else m c'.

Inductive Prog (A : Type) :=
| Ret (a : A)
| Read (c : Cell) (k : Z -> Prog A)
| Write (c : Cell) (v : Z) (k : Prog A)
| CompareExchange (c : Cell) (expected desired : Z) (k : bool -> Prog A)
| FetchAdd32 (c : Cell) (n : Z) (k : Prog A).
Arguments Ret {A}. Arguments Read {A}. Arguments Write {A}. Arguments CompareExchange {A}. Arguments FetchAdd32 {A}.

(** One access; [None] when the program has returned. *)
Definition access {A} (p : Prog A) (m : Memory) : option (Prog A * Memory) :=
  match p with
  | Ret _ => None
  | Read c k => Some (k (m c), m)
  | Write c v k => Some (k, put m c v)
  | CompareExchange c expected desired k =>
      Some (if m c =? expected then (k true, put m c desired) else (k false, m))
  | FetchAdd32 c n k => Some (k, put m c (u32 (m c + n)))
  end.
Fixpoint exec {A} (p : Prog A) (m : Memory) : A * Memory :=
  match p with
  | Ret a => (a, m)
  | Read c k => exec (k (m c)) m
  | Write c v k => exec k (put m c v)
  | CompareExchange c expected desired k =>
      if m c =? expected then exec (k true) (put m c desired) else exec (k false) m
  | FetchAdd32 c n k => exec k (put m c (u32 (m c + n)))
  end.
(** Threads one access at a time; a turn of a thread that is done is idle. *)
Fixpoint run_threads (schedule : list nat) (threads : list (Prog unit)) (m : Memory) : list (Prog unit) * Memory :=
  match schedule with
  | [] => (threads, m)
  | t :: schedule =>
      match threads !! t ≫= fun p => access p m with
      | None => run_threads schedule threads m
      | Some (p, m) => run_threads schedule (<[t := p]> threads) m
      end
  end.

(** ** Keys *)
Abbreviation Key := (AccountId * ClientOrderId)%type (only parsing).
Definition inbound_key (message : OrderEntry.Message) : option Key :=
  match message with
  | OrderEntry.MsgNewOrder msg => Some (OrderEntry.no_account_id msg, OrderEntry.no_client_order_id msg)
  | OrderEntry.MsgCancelOrder msg => Some (OrderEntry.co_account_id msg, OrderEntry.co_client_order_id msg)
  | OrderEntry.MsgReplaceOrder msg => Some (OrderEntry.ro_account_id msg, OrderEntry.ro_original_client_order_id msg)
  | _ => None
  end.
Definition report_key (message : OrderEntry.Message) : option Key :=
  match message with
  | OrderEntry.MsgAccepted msg => Some (OrderEntry.ac_account_id msg, OrderEntry.ac_client_order_id msg)
  | OrderEntry.MsgRejected msg => Some (OrderEntry.rj_account_id msg, OrderEntry.rj_client_order_id msg)
  | OrderEntry.MsgCancelled msg => Some (OrderEntry.cn_account_id msg, OrderEntry.cn_client_order_id msg)
  | OrderEntry.MsgTradeReport msg => Some (OrderEntry.tr_account_id msg, OrderEntry.tr_client_order_id msg)
  | OrderEntry.MsgReplaced msg => Some (OrderEntry.rp_account_id msg, OrderEntry.rp_original_client_order_id msg)
  | _ => None
  end.
Definition command_key (command : ExchangeCommand) : option Key :=
  match command with
  | CmdNewOrder cmd => Some (noc_account_id cmd, noc_client_order_id cmd)
  | CmdCancelOrder cmd => Some (coc_account_id cmd, coc_client_order_id cmd)
  | CmdReplaceOrder cmd => Some (roc_account_id cmd, roc_original_client_order_id cmd)
  end.
Definition report_type (message : OrderEntry.Message) : OrderEntry.MessageType :=
  match message with
  | OrderEntry.MsgAccepted _ => OrderEntry.MtAccepted
  | OrderEntry.MsgRejected _ => OrderEntry.MtRejected
  | OrderEntry.MsgCancelled _ => OrderEntry.MtCancelled
  | OrderEntry.MsgReplaced _ => OrderEntry.MtReplaced
  | OrderEntry.MsgTradeReport _ => OrderEntry.MtTradeReport
  | _ => OrderEntry.MtNewOrder
  end.
Definition mix (k : Key) (mask : Z) : Z := Z.land (Z.lxor (u64 (k.1 * 11400714819323198485)) k.2) mask.

(** ** Slots *)
Definition find_slot {A} (k : Key) (found : option Z -> Prog A) : Prog A :=
  Read CEnabled (fun enabled =>
    if enabled =? 0 then found None
    else Read CMask (fun mask => Read CSlots (fun slots =>
      if slots =? 0 then found None
      else
        let slot := mix k mask in
        Read (CSlot slot FAccount) (fun account =>
          if negb (account =? k.1) then found None
          else Read (CSlot slot FClientOrder) (fun client_order =>
            if negb (client_order =? k.2) then found None else found (Some slot)))))).
Definition begin_slot {A} (k : Key) (found : option Z -> Prog A) : Prog A :=
  Read CEnabled (fun enabled =>
    if enabled =? 0 then found None
    else Read CMask (fun mask => Read CSlots (fun slots =>
      if slots =? 0 then found None
      else
        let slot := mix k mask in
        Write (CSlot slot FAccount) (fst k)
        (Write (CSlot slot FClientOrder) (snd k)
        (Write (CSlot slot FT1) 0
        (Write (CSlot slot FT2) 0
        (Write (CSlot slot FT3First) 0
        (Write (CSlot slot FT3End) 0
        (Write (CSlot slot FT4Queued) 0
        (Write (CSlot slot FT4Written) 0
        (Write (CSlot slot FT5First) 0
        (Write (CSlot slot FT5Last) 0
        (Write (CSlot slot FGenerated) 0
        (Write (CSlot slot FDecoded) 0
        (Write (CSlot slot FFirstType) 0
        (found (Some slot))))))))))))))))).
Definition find_from_report {A} (message : OrderEntry.Message) (found : option Z -> Prog A) : Prog A :=
  match report_key message with None => found None | Some k => find_slot k found end.
(** [if (slot == nullptr) return;] *)
Definition with_slot (body : Z -> Prog unit) (slot : option Z) : Prog unit :=
  match slot with None => Ret tt | Some slot => body slot end.

(** ** The public operations *)
Definition enable (slot_count : Z) : option (Prog unit) :=
  let* n := next_power_of_two (if slot_count =? 0 then kDefaultSlotCount else slot_count) in
  Some (Read CSlots (fun slots =>
    if slots =? 0 then Write CSlots 1 (Write CMask (u64 (n - 1)) (Write CEnabled 1 (Ret tt)))
    else Write CEnabled 1 (Ret tt))).
Definition disable : Prog unit := Write CEnabled 0 (Ret tt).

Definition stamp_client_submit (now : Z) (message : OrderEntry.Message) : Prog unit :=
  match inbound_key message with
  | None => Ret tt
  | Some k => begin_slot k (with_slot (fun slot => Write (CSlot slot FT0) now (Ret tt)))
  end.
Definition stamp_inbound (now : Z) (message : OrderEntry.Message) (field : Field) : Prog unit :=
  match inbound_key message with
  | None => Ret tt
  | Some k => find_slot k (with_slot (fun slot => Write (CSlot slot field) now (Ret tt)))
  end.
Definition stamp_command (now : Z) (command : ExchangeCommand) (field : Field) : Prog unit :=
  match command_key command with
  | None => Ret tt
  | Some k => find_slot k (with_slot (fun slot => Write (CSlot slot field) now (Ret tt)))
  end.
Definition stamp_server_decoded (now : Z) (message : OrderEntry.Message) : Prog unit := stamp_inbound now message FT1.
Definition stamp_exchange_begin (now : Z) (command : ExchangeCommand) : Prog unit := stamp_command now command FT2.
Definition stamp_exchange_end (now : Z) (command : ExchangeCommand) : Prog unit := stamp_command now command FT3End.
Definition stamp_first_event_if_unset (now : Z) (message : OrderEntry.Message) : Prog unit :=
  match report_key message with
  | None => Ret tt
  | Some k => find_slot k (with_slot (fun slot =>
      CompareExchange (CSlot slot FT3First) 0 now (fun exchanged =>
        let count := FetchAdd32 (CSlot slot FGenerated) 1 (Ret tt) in
        if exchanged then Write (CSlot slot FFirstType) (OrderEntry.type_raw (report_type message)) count else count)))
  end.
Definition stamp_writer_queued (now : Z) (message : OrderEntry.Message) : Prog unit :=
  find_from_report message (with_slot (fun slot => CompareExchange (CSlot slot FT4Queued) 0 now (fun _ => Ret tt))).
Definition stamp_socket_written (now : Z) (message : OrderEntry.Message) : Prog unit :=
  find_from_report message (with_slot (fun slot => CompareExchange (CSlot slot FT4Written) 0 now (fun _ => Ret tt))).
Definition stamp_client_decoded (now : Z) (message : OrderEntry.Message) : Prog unit :=
  match report_key message with
  | None => Ret tt
  | Some k => find_slot k (with_slot (fun slot =>
      CompareExchange (CSlot slot FT5First) 0 now (fun _ =>
        Write (CSlot slot FT5Last) now (FetchAdd32 (CSlot slot FDecoded) 1 (Ret tt)))))
  end.

(** The report type is the raw value of the enum: a slot nothing has reported
    on holds 0, which no enumerator has. *)
Record TraceSnapshot := {
  ts_account_id : AccountId;
  ts_client_order_id : ClientOrderId;
  ts_t0_client_submit : Z;
  ts_t1_server_decoded : Z;
  ts_t2_exchange_begin : Z;
  ts_t3_first_event : Z;
  ts_t3_exchange_end : Z;
  ts_t4_writer_queued : Z;
  ts_t4_socket_written : Z;
  ts_t5_client_first : Z;
  ts_t5_client_last : Z;
  ts_reports_generated : Z;
  ts_reports_decoded : Z;
  ts_first_report_type : Z;
}.
Definition snapshot (k : Key) : Prog (option TraceSnapshot) :=
  find_slot k (fun slot =>
    match slot with
    | None => Ret None
    | Some slot =>
        Read (CSlot slot FAccount) (fun account_id =>
        Read (CSlot slot FClientOrder) (fun client_order_id =>
        if negb (account_id =? k.1) || negb (client_order_id =? k.2) then Ret None
        else
          Read (CSlot slot FT0) (fun t0 =>
          Read (CSlot slot FT1) (fun t1 =>
          Read (CSlot slot FT2) (fun t2 =>
          Read (CSlot slot FT3First) (fun t3_first =>
          Read (CSlot slot FT3End) (fun t3_end =>
          Read (CSlot slot FT4Queued) (fun t4_queued =>
          Read (CSlot slot FT4Written) (fun t4_written =>
          Read (CSlot slot FT5First) (fun t5_first =>
          Read (CSlot slot FT5Last) (fun t5_last =>
          Read (CSlot slot FGenerated) (fun generated =>
          Read (CSlot slot FDecoded) (fun decoded =>
          Read (CSlot slot FFirstType) (fun first_type =>
          Ret (Some {| ts_account_id := account_id; ts_client_order_id := client_order_id; ts_t0_client_submit := t0;
                       ts_t1_server_decoded := t1; ts_t2_exchange_begin := t2; ts_t3_first_event := t3_first;
                       ts_t3_exchange_end := t3_end; ts_t4_writer_queued := t4_queued; ts_t4_socket_written := t4_written;
                       ts_t5_client_first := t5_first; ts_t5_client_last := t5_last; ts_reports_generated := generated;
                       ts_reports_decoded := decoded; ts_first_report_type := first_type |})))))))))))))))
    end).

(** ** The calls the program makes *)
Inductive Stamp :=
| ClientSubmit (now : Z) (message : OrderEntry.Message)
| ServerDecoded (now : Z) (message : OrderEntry.Message)
| ExchangeBegin (now : Z) (command : ExchangeCommand)
| FirstExecutionEvent (now : Z) (message : OrderEntry.Message)
| ExchangeEnd (now : Z) (command : ExchangeCommand)
| WriterQueued (now : Z) (message : OrderEntry.Message)
| SocketWritten (now : Z) (message : OrderEntry.Message)
| ClientDecoded (now : Z) (message : OrderEntry.Message).
Definition stamp (s : Stamp) : Prog unit :=
  match s with
  | ClientSubmit now m => stamp_client_submit now m
  | ServerDecoded now m => stamp_server_decoded now m
  | ExchangeBegin now c => stamp_exchange_begin now c
  | FirstExecutionEvent now m => stamp_first_event_if_unset now m
  | ExchangeEnd now c => stamp_exchange_end now c
  | WriterQueued now m => stamp_writer_queued now m
  | SocketWritten now m => stamp_socket_written now m
  | ClientDecoded now m => stamp_client_decoded now m
  end.
Inductive Call := Stamped (s : Stamp) | Enable (slot_count : Z) | Disable.
Definition call (c : Call) (m : Memory) : option Memory :=
  match c with
  | Stamped s => Some (exec (stamp s) m).2
  | Enable slot_count => let* p := enable slot_count in Some (exec p m).2
  | Disable => Some (exec disable m).2
  end.
Fixpoint calls (cs : list Call) (m : Memory) : option Memory :=
  match cs with [] => Some m | c :: cs => let* m := call c m in calls cs m end.

(** ** What a sample of one order is *)
Definition Sample := Field -> Z.
Definition fresh_sample (k : Key) (now : Z) : Sample :=
  fun f => match f with FAccount => k.1 | FClientOrder => k.2 | FT0 => now | _ => 0 end.
Definition set_field (f : Field) (v : Z) (s : Sample) : Sample := fun g => if decide (g = f) then v else s g.
Definition set_once (f : Field) (v : Z) (s : Sample) : Sample := if s f =? 0 then set_field f v s else s.
Definition count_field (f : Field) (s : Sample) : Sample := set_field f (u32 (s f + 1)) s.
Definition first_report (now type : Z) (s : Sample) : Sample :=
  count_field FGenerated (if s FT3First =? 0 then set_field FFirstType type (set_field FT3First now s) else s).
Definition stamp_key (s : Stamp) : option Key :=
  match s with
  | ClientSubmit _ m | ServerDecoded _ m => inbound_key m
  | ExchangeBegin _ c | ExchangeEnd _ c => command_key c
  | FirstExecutionEvent _ m | WriterQueued _ m | SocketWritten _ m | ClientDecoded _ m => report_key m
  end.
Definition stamp_effect (s : Stamp) : Sample -> Sample :=
  match s with
  | ClientSubmit now m => fun _ => match inbound_key m with Some k => fresh_sample k now | None => fun _ => 0 end
  | ServerDecoded now _ => set_field FT1 now
  | ExchangeBegin now _ => set_field FT2 now
  | FirstExecutionEvent now m => first_report now (OrderEntry.type_raw (report_type m))
  | ExchangeEnd now _ => set_field FT3End now
  | WriterQueued now _ => set_once FT4Queued now
  | SocketWritten now _ => set_once FT4Written now
  | ClientDecoded now _ => fun s => count_field FDecoded (set_field FT5Last now (set_once FT5First now s))
  end.
(** The sample kept for [k]: begun by its own submission, dropped by the
    submission of a key that hashes to the same slot, and otherwise changed
    only by stamps of [k] itself. *)
Definition trace_after (mask : Z) (k : Key) (t : bool * option Sample) (c : Call) : bool * option Sample :=
  match c with
  | Enable _ => (true, t.2)
  | Disable => (false, t.2)
  | Stamped s =>
      match stamp_key s with
      | None => t
      | Some k' =>
          if negb t.1 then t
          else if bool_decide (k' = k) then (t.1, match s with ClientSubmit now _ => Some (fresh_sample k now) | _ => stamp_effect s <$> t.2 end)
          else match s with ClientSubmit _ _ => if mix k' mask =? mix k mask then (t.1, None) else t | _ => t end
      end
  end.
Definition snapshot_of (s : Sample) : TraceSnapshot :=
  {| ts_account_id := s FAccount; ts_client_order_id := s FClientOrder; ts_t0_client_submit := s FT0;
     ts_t1_server_decoded := s FT1; ts_t2_exchange_begin := s FT2; ts_t3_first_event := s FT3First;
     ts_t3_exchange_end := s FT3End; ts_t4_writer_queued := s FT4Queued; ts_t4_socket_written := s FT4Written;
     ts_t5_client_first := s FT5First; ts_t5_client_last := s FT5Last; ts_reports_generated := s FGenerated;
     ts_reports_decoded := s FDecoded; ts_first_report_type := s FFirstType |}.

(** ** One call after another *)
Definition slot_sample (m : Memory) (i : Z) : Sample := fun f => m (CSlot i f).
Definition tracing (m : Memory) : bool := negb (m CEnabled =? 0) && negb (m CSlots =? 0).
Definition holds_key (m : Memory) (k : Key) : bool :=
  (m (CSlot (mix k (m CMask)) FAccount) =? k.1) && (m (CSlot (mix k (m CMask)) FClientOrder) =? k.2).
Lemma exec_find_slot {A} k (found : option Z -> Prog A) m :
  exec (find_slot k found) m = exec (found (if tracing m && holds_key m k then Some (mix k (m CMask)) else None)) m.
Proof.
  unfold find_slot, tracing, holds_key. cbn [exec]. destruct (m CEnabled =? 0); [done|]. cbn [exec].
  destruct (m CSlots =? 0); [done|]. cbn [exec negb andb]. destruct (_ =? k.1); [|done]. cbn [negb exec].
  by destruct (_ =? k.2).
Qed.

(** What running [p] on slot [i] does, when it touches nothing else. *)
Record does_to (i : Z) (m m' : Memory) (s : Sample) : Prop := {
  dt_slot : forall f, m' (CSlot i f) = s f;
  dt_rest : forall c, (forall f, c <> CSlot i f) -> m' c = m c;
}.
Lemma put_does_to i m s f v m0 : does_to i m0 m s -> does_to i m0 (put m (CSlot i f) v) (set_field f v s).
Proof.
  intros [H1 H2]. split; unfold put, set_field.
  - intros g. destruct (decide (g = f)) as [->|]; [by rewrite decide_True|]. rewrite decide_False by congruence. apply H1.
  - intros c Hc. rewrite decide_False by apply Hc. by apply H2.
Qed.
Lemma does_to_refl i m : does_to i m m (slot_sample m i).
Proof. by split. Qed.
Lemma cas_does_to {A} i m0 m s f v (k : bool -> Prog A) (Q : A * Memory -> Prop) : does_to i m0 m s ->
  (s f = 0 -> does_to i m0 (put m (CSlot i f) v) (set_field f v s) -> Q (exec (k true) (put m (CSlot i f) v))) ->
  (s f <> 0 -> Q (exec (k false) m)) -> Q (exec (CompareExchange (CSlot i f) 0 v k) m).
Proof.
  intros Hd H1 H2. cbn [exec]. rewrite (dt_slot _ _ _ _ Hd). destruct (Z.eqb_spec (s f) 0); [|by apply H2].
  apply H1; [done|]. by apply put_does_to.
Qed.
Lemma does_to_ext i m m' s s' : does_to i m m' s -> (forall f, s f = s' f) -> does_to i m m' s'.
Proof. intros [H1 H2] H. split; [|done]. intros f. by rewrite H1. Qed.
Lemma fetch_add_does_to i m0 m s f : does_to i m0 m s -> does_to i m0 (put m (CSlot i f) (u32 (m (CSlot i f) + 1))) (count_field f s).
Proof. intros H. rewrite (dt_slot _ _ _ _ H). by apply put_does_to. Qed.
Lemma set_once_does_to {A} i m0 m s f v (p : Prog A) (Q : A * Memory -> Prop) : does_to i m0 m s ->
  (forall m', does_to i m0 m' (set_once f v s) -> Q (exec p m')) -> Q (exec (CompareExchange (CSlot i f) 0 v (fun _ => p)) m).
Proof.
  intros Hd HQ. apply (cas_does_to i m0 m s); [done| |]; unfold set_once in HQ.
  - intros E Hp. apply HQ. by rewrite E.
  - intros E. apply HQ. by destruct (Z.eqb_spec (s f) 0).
Qed.

Lemma begin_does k now m : tracing m = true ->
  does_to (mix k (m CMask)) m (exec (begin_slot k (with_slot (fun slot => Write (CSlot slot FT0) now (Ret tt)))) m).2 (fresh_sample k now).
Proof.
  unfold tracing. rewrite andb_true_iff, !negb_true_iff. intros [He Hs]. unfold begin_slot. cbn [exec].
  rewrite He. cbn [exec]. rewrite Hs. cbn [exec with_slot snd]. eapply does_to_ext; [do 14 apply put_does_to; apply does_to_refl|].
  by intros [].
Qed.
Lemma not_tracing_begin {A} k (p : option Z -> Prog A) m : tracing m = false -> exec (begin_slot k p) m = exec (p None) m.
Proof. unfold tracing, begin_slot. cbn [exec]. destruct (m CEnabled =? 0); [done|]. cbn [exec negb andb]. by destruct (m CSlots =? 0). Qed.

Definition is_submit (s : Stamp) : bool := match s with ClientSubmit _ _ => true | _ => false end.
Lemma stamp_does s k m : stamp_key s = Some k -> is_submit s = false ->
  if tracing m && holds_key m k
  then does_to (mix k (m CMask)) m (exec (stamp s) m).2 (stamp_effect s (slot_sample m (mix k (m CMask))))
  else (exec (stamp s) m).2 = m.
Proof.
  intros Hk Hs. destruct s; try discriminate; cbn [stamp stamp_key stamp_effect] in *;
    unfold stamp_server_decoded, stamp_inbound, stamp_exchange_begin, stamp_exchange_end, stamp_command,
      stamp_first_event_if_unset, stamp_writer_queued, stamp_socket_written, stamp_client_decoded, find_from_report;
    rewrite Hk, exec_find_slot; destruct (tracing m && holds_key m k); cbn [with_slot]; try done;
    try (apply put_does_to, does_to_refl).
  - apply (cas_does_to (mix k (m CMask)) m m (slot_sample m (mix k (m CMask))) _ _ _ (fun r => does_to _ m r.2 _)); [apply does_to_refl| |]; unfold first_report.
    + intros -> Hd. by apply fetch_add_does_to, put_does_to.
    + intros Hn%Z.eqb_neq. rewrite Hn. apply fetch_add_does_to, does_to_refl.
  - apply (set_once_does_to (mix k (m CMask)) m m (slot_sample m (mix k (m CMask))) _ _ _ (fun r => does_to _ m r.2 _)); [apply does_to_refl|done].
  - apply (set_once_does_to (mix k (m CMask)) m m (slot_sample m (mix k (m CMask))) _ _ _ (fun r => does_to _ m r.2 _)); [apply does_to_refl|done].
  - apply (set_once_does_to (mix k (m CMask)) m m (slot_sample m (mix k (m CMask))) _ _ _ (fun r => does_to _ m r.2 _)); [apply does_to_refl|].
    intros m' Hd. by apply fetch_add_does_to, put_does_to.
Qed.

(** ** The table represents the samples *)
Record represents (mask : Z) (k : Key) (m : Memory) (t : bool * option Sample) : Prop := {
  rp_on : m CEnabled = Z.b2z t.1;
  rp_mask : m CMask = mask;
  rp_slots : m CSlots <> 0;
  rp_sample : if holds_key m k then exists s, t.2 = Some s /\ forall f, s f = m (CSlot (mix k mask) f) else t.2 = None;
}.
Lemma represents_tracing mask k m t : represents mask k m t -> tracing m = t.1.
Proof. intros [H _ Hs _]. unfold tracing. rewrite H, (proj2 (Z.eqb_neq _ _) Hs). by destruct t.1. Qed.
(** A change of one slot, seen from the key whose sample is watched. *)
Lemma represents_does mask k m t i m' s (t' : bool * option Sample) : represents mask k m t -> does_to i m m' s -> t'.1 = t.1 ->
  (i = mix k mask -> if bool_decide ((s FAccount, s FClientOrder) = k) then exists s', t'.2 = Some s' /\ forall f, s' f = s f else t'.2 = None) ->
  (i <> mix k mask -> t'.2 = t.2) -> represents mask k m' t'.
Proof.
  intros [H1 H2 H3 H4] [D1 D2] E1 Hin Hout. split; [by rewrite D2, H1, E1 by done|by rewrite D2 by done|by rewrite D2 by done|].
  unfold holds_key in *. rewrite (D2 CMask) by done. rewrite H2 in *. destruct (decide (i = mix k mask)) as [->|Hne].
  - specialize (Hin eq_refl). rewrite !D1. case_bool_decide as Hd.
    + replace k.1 with (s FAccount) by (by rewrite <- Hd). replace k.2 with (s FClientOrder) by (by rewrite <- Hd). rewrite !Z.eqb_refl. cbn. destruct Hin as (s' & -> & Hs). exists s'. split; [done|]. intros f. by rewrite Hs, D1.
    + destruct (Z.eqb_spec (s FAccount) k.1); [|done]. destruct (Z.eqb_spec (s FClientOrder) k.2); [|done].
      destruct Hd. destruct k; cbn in *; congruence.
  - rewrite Hout by done. rewrite !D2 by congruence. destruct (_ && _); [|done]. destruct H4 as (s' & -> & Hs).
    exists s'. split; [done|]. intros f. by rewrite Hs, D2 by congruence.
Qed.

Lemma effect_ids s k f (x : Sample) : stamp_key s = Some k -> is_submit s = false -> f = FAccount \/ f = FClientOrder ->
  stamp_effect s x f = x f.
Proof.
  intros _ Hs Hf. destruct s; try discriminate; cbn [stamp_effect]; unfold first_report, set_once, count_field, set_field;
    repeat case_match; destruct Hf; by subst.
Qed.
Lemma effect_ext s (x y : Sample) : (forall f, x f = y f) -> forall f, stamp_effect s x f = stamp_effect s y f.
Proof.
  intros H f. destruct s; cbn [stamp_effect]; unfold first_report, set_once, count_field, set_field; try rewrite !H; try done;
    repeat case_match; rewrite ?H; done.
Qed.
Lemma represents_stamp mask k m t s : represents mask k m t ->
  represents mask k (exec (stamp s) m).2 (trace_after mask k t (Stamped s)).
Proof.
  intros Hr. pose proof (represents_tracing _ _ _ _ Hr) as Ht. pose proof (rp_mask _ _ _ _ Hr) as Hm. cbn [trace_after].
  destruct (stamp_key s) as [k'|] eqn:Hk.
  2:{ destruct s; cbn [stamp stamp_key] in *; unfold stamp_client_submit, stamp_server_decoded, stamp_inbound, stamp_exchange_begin,
        stamp_exchange_end, stamp_command, stamp_first_event_if_unset, stamp_writer_queued, stamp_socket_written,
        stamp_client_decoded, find_from_report; by rewrite Hk. }
  destruct (is_submit s) eqn:Hs.
  - destruct s as [now msg| | | | | | |]; try discriminate. cbn [stamp stamp_key] in *. unfold stamp_client_submit. rewrite Hk.
    destruct t.1 eqn:Hon; cbn [negb]; [|by rewrite not_tracing_begin].
    pose proof (begin_does k' now m Ht) as Hd. rewrite Hm in Hd.
    assert (Hid : (fresh_sample k' now FAccount, fresh_sample k' now FClientOrder) = k') by by destruct k'.
    eapply represents_does; [exact Hr|exact Hd| | |]; rewrite ?Hid.
    + case_bool_decide; [done|]. by case_match.
    + intros ->. rewrite Z.eqb_refl. case_bool_decide as E; [subst k'; by eexists|done].
    + intros Hne. case_bool_decide as E; [by subst|]. by rewrite (proj2 (Z.eqb_neq _ _) Hne).
  - pose proof (stamp_does s k' m Hk Hs) as Hd. rewrite Ht, Hm in Hd.
    destruct t.1 eqn:Hon; cbn [negb andb] in *; [|by rewrite Hd].
    destruct (holds_key m k') eqn:Hh.
    + pose proof Hh as [E1%Z.eqb_eq E2%Z.eqb_eq]%andb_true_iff. rewrite Hm in E1, E2.
      assert (Hid : (stamp_effect s (slot_sample m (mix k' mask)) FAccount, stamp_effect s (slot_sample m (mix k' mask)) FClientOrder) = k').
      { rewrite !(effect_ids s k') by auto. unfold slot_sample. rewrite E1, E2. by destruct k'. }
      eapply represents_does; [exact Hr|exact Hd| | |]; rewrite ?Hid.
      * repeat case_match; done.
      * intros Heq. case_bool_decide as E.
        -- subst k'. pose proof (rp_sample _ _ _ _ Hr) as Hsam. rewrite Hh in Hsam. destruct Hsam as (s0 & Hs0 & Hs1).
           exists (stamp_effect s s0). split; [destruct s; try discriminate; cbn; by rewrite Hs0|]. by apply effect_ext.
        -- pose proof (rp_sample _ _ _ _ Hr) as Hsam.
           assert (holds_key m k = false) as Hnk.
           { unfold holds_key. rewrite Hm, <- Heq, E1, E2. apply andb_false_iff. destruct (Z.eqb_spec k'.1 k.1), (Z.eqb_spec k'.2 k.2); auto.
             destruct E. destruct k, k'; cbn in *; congruence. }
           rewrite Hnk in Hsam. by destruct s.
      * intros Hne. case_bool_decide as E; [by subst|]. by destruct s.
    + rewrite Hd. case_bool_decide as E; [subst k'|by destruct s]. pose proof (rp_sample _ _ _ _ Hr) as Hsam. rewrite Hh in Hsam.
      destruct t as [on x]. cbn in Hsam, Hon. subst x on. by destruct s.
Qed.

Definition slot_count_ok (n : Z) : Prop := 0 <= n <= two63.
Definition call_ok (c : Call) : Prop := match c with Enable n => slot_count_ok n | Stamped _ | Disable => True end.
Lemma exec_enable n m : slot_count_ok n -> exists p j, enable n = Some p /\ 0 <= j <= 63 /\ n <= 2 ^ j /\
  (exec p m).2 = if m CSlots =? 0 then put (put (put m CSlots 1) CMask (2 ^ j - 1)) CEnabled 1 else put m CEnabled 1.
Proof.
  intros Hn. unfold enable, slot_count_ok in *. set (n' := if n =? 0 then _ else n).
  assert (n' <= two63 /\ n <= n') as [Hn' Hle] by (unfold n'; destruct (Z.eqb_spec n 0); [change kDefaultSlotCount with 65536|]; lia).
  destruct (next_power_of_two_spec n' Hn') as (j & -> & Hj & Hnj).
  assert (2 ^ j <= 2 ^ 63) by (apply Z.pow_le_mono_r; lia). assert (0 < 2 ^ j) by (apply Z.pow_pos_nonneg; lia). change (2 ^ 63) with two63 in *.
  eexists _, j. split; [done|]. split; [done|]. split; [lia|]. cbn [exec]. rewrite u64_small by lia. by destruct (m CSlots =? 0).
Qed.
(** What the zeroed table says of a key: the key (0, 0) finds its slot there
    before anything is submitted. *)
Definition initial_sample (k : Key) : option Sample := if bool_decide (k = (0, 0)) then Some (fun _ => 0) else None.
Lemma represents_enabled n : slot_count_ok n -> exists m j, call (Enable n) Memory_zero = Some m /\ n <= 2 ^ j /\ 0 <= j /\
  m CSlots <> 0 /\ (forall i f, m (CSlot i f) = 0) /\ forall k, represents (2 ^ j - 1) k m (true, initial_sample k).
Proof.
  intros Hn. destruct (exec_enable n Memory_zero Hn) as (p & j & Hp & Hj & Hle & He). exists (exec p Memory_zero).2, j.
  cbn [call]. rewrite Hp, He. change (Memory_zero CSlots =? 0) with true. cbn iota.
  split; [done|]. split; [done|]. split; [lia|]. split; [done|]. split; [done|]. intros k. split; [done|done|done|].
  unfold holds_key, initial_sample.
  set (m := put _ CEnabled 1). change (m (CSlot (mix k (m CMask)) FAccount)) with 0. change (m (CSlot (mix k (m CMask)) FClientOrder)) with 0.
  case_bool_decide as E.
  - subst k. by eexists.
  - destruct (Z.eqb_spec 0 k.1), (Z.eqb_spec 0 k.2); try done. destruct E. destruct k; cbn in *; congruence.
Qed.
Lemma represents_call mask k m t c : represents mask k m t -> call_ok c -> exists m', call c m = Some m' /\
  represents mask k m' (trace_after mask k t c).
Proof.
  intros Hr Hc. assert (Hput : forall b, represents mask k (put m CEnabled (Z.b2z b)) (b, t.2)).
  { intros b. destruct Hr as [_ H2 H3 H4]. by split. }
  destruct c as [s|n|]; cbn [call].
  - eexists. split; [done|]. by apply represents_stamp.
  - destruct (exec_enable n m Hc) as (p & j & -> & _ & _ & He). eexists. split; [done|]. rewrite He.
    rewrite (proj2 (Z.eqb_neq _ _) (rp_slots _ _ _ _ Hr)). apply (Hput true).
  - eexists. split; [done|]. apply (Hput false).
Qed.
Lemma represents_calls mask k cs : forall m t, represents mask k m t -> Forall call_ok cs -> exists m', calls cs m = Some m' /\
  represents mask k m' (foldl (trace_after mask k) t cs).
Proof.
  induction cs as [|c cs IH]; intros m t Hr Hok; [by exists m|]. apply Forall_cons in Hok as [Hc Hok].
  destruct (represents_call mask k m t c Hr Hc) as (m' & E & Hr'). cbn [calls foldl]. rewrite E. by apply IH.
Qed.
Lemma snapshot_reads mask k m t : represents mask k m t ->
  exec (snapshot k) m = (if t.1 then snapshot_of <$> t.2 else None, m).
Proof.
  intros Hr. unfold snapshot. rewrite exec_find_slot, (represents_tracing _ _ _ _ Hr). pose proof (rp_sample _ _ _ _ Hr) as Hs.
  destruct t.1; [|done]. destruct (holds_key m k) eqn:Hh; cbn [andb].
  - destruct Hs as (s & -> & Hs). unfold holds_key in Hh. apply andb_true_iff in Hh as [H1 H2]. rewrite (rp_mask _ _ _ _ Hr) in *.
    cbn [exec]. rewrite H1, H2. cbn [negb orb exec fmap option_fmap option_map]. unfold snapshot_of. by rewrite !Hs.
  - by rewrite Hs.
Qed.

(** ** Any interleaving: a stamp lands only where its key hashes to *)
(** Whether a stamp may store into a time field, and what. *)
Definition stamps_field (s : Stamp) (f : Field) : option Z :=
  match s, f with
  | ClientSubmit now _, FT0 | ServerDecoded now _, FT1 | ExchangeBegin now _, FT2 | FirstExecutionEvent now _, FT3First
  | ExchangeEnd now _, FT3End | WriterQueued now _, FT4Queued | SocketWritten now _, FT4Written
  | ClientDecoded now _, FT5First | ClientDecoded now _, FT5Last => Some now
  | _, _ => None
  end.
Definition is_time (f : Field) : bool :=
  match f with FAccount | FClientOrder | FGenerated | FDecoded | FFirstType => false | _ => true end.
(** Every store a program can still make satisfies [P], where reads of the
    mask answer [mask]. *)
Fixpoint stores_ok {A} (mask : Z) (P : Cell -> Z -> Prop) (p : Prog A) : Prop :=
  match p with
  | Ret _ => True
  | Read c k => forall v, (c = CMask -> v = mask) -> stores_ok mask P (k v)
  | Write c v k => P c v /\ stores_ok mask P k
  | CompareExchange c expected desired k => P c desired /\ forall b, stores_ok mask P (k b)
  | FetchAdd32 c n k => (forall v, P c v) /\ stores_ok mask P k
  end.
Lemma run_threads_stores mask (P : Cell -> Z -> Prop) schedule : (forall v, ~ P CMask v) -> forall threads (m : Memory),
  m CMask = mask -> Forall (stores_ok mask P) threads ->
  forall c, let m' := (run_threads schedule threads m).2 in m' c = m c \/ P c (m' c).
Proof.
  intros HP. cbn zeta. induction schedule as [|i schedule IH]; intros threads m Hm Ht c; [by left|]. cbn [run_threads].
  destruct (threads !! i) as [p|] eqn:Hi; cbn [mbind option_bind]; [|by apply IH].
  destruct (access p m) as [[p' m']|] eqn:Ha; [|by apply IH].
  assert (Hp : stores_ok mask P p) by by eapply Forall_lookup_1.
  assert (Hstep : stores_ok mask P p' /\ forall c, m' c = m c \/ P c (m' c)).
  { assert (Hput : forall c0 v, P c0 v -> forall c, put m c0 v c = m c \/ P c (put m c0 v c)).
    { intros c0 v H c'. unfold put. destruct (decide (c' = c0)) as [->|]; [by right|by left]. }
    destruct p as [a|c0 k|c0 v k|c0 e d k|c0 n k]; cbn [access stores_ok] in *; try done.
    - injection Ha as <- <-. split; [apply Hp; by intros ->|by left].
    - injection Ha as <- <-. split; [apply Hp|]. apply Hput, Hp.
    - destruct Hp as [H1 H2]. destruct (_ =? _); injection Ha as <- <-; (split; [apply H2|]); [by apply Hput|by left].
    - injection Ha as <- <-. split; [apply Hp|]. apply Hput, Hp. }
  destruct Hstep as [Hp' Hm']. destruct (IH (<[i:=p']> threads) m') with (c := c) as [E|E].
  - destruct (Hm' CMask) as [E|E]; [congruence|by destruct (HP _ E)].
  - by apply Forall_insert.
  - rewrite E. apply Hm'.
  - by right.
Qed.
(** The stores of one stamp. *)
Definition own_store (mask : Z) (s : Stamp) (c : Cell) (v : Z) : Prop :=
  match c with
  | CSlot i f => (fun k => mix k mask) <$> stamp_key s = Some i /\ (is_time f = true -> v = 0 \/ stamps_field s f = Some v)
  | _ => False
  end.
Lemma stores_ok_find {A} mask P k (found : option Z -> Prog A) : stores_ok mask P (found None) ->
  stores_ok mask P (found (Some (mix k mask))) -> stores_ok mask P (find_slot k found).
Proof.
  intros H1 H2. unfold find_slot. cbn [stores_ok]. intros e _. destruct (e =? 0); [done|]. cbn [stores_ok]. intros mk Hmk sl _.
  rewrite Hmk by done. destruct (sl =? 0); [done|]. cbn [stores_ok]. intros a _. destruct (negb _); [done|]. cbn [stores_ok].
  intros b _. by destruct (negb _).
Qed.
Lemma stamp_stores mask s : stores_ok mask (own_store mask s) (stamp s).
Proof.
  destruct s; cbn [stamp]; unfold stamp_client_submit, stamp_server_decoded, stamp_inbound, stamp_exchange_begin, stamp_exchange_end,
    stamp_command, stamp_first_event_if_unset, stamp_writer_queued, stamp_socket_written, stamp_client_decoded, find_from_report;
    case_match eqn:Hk; try done;
    try (apply stores_ok_find; [done|]; cbn; rewrite Hk; first [naive_solver|split; [naive_solver|intros []; cbn; rewrite ?Hk; naive_solver]]).
  unfold begin_slot. cbn [stores_ok]. intros e _. destruct (e =? 0); [done|]. cbn [stores_ok]. intros mk Hmk sl _. rewrite Hmk by done.
  destruct (sl =? 0); [done|]. cbn. rewrite Hk. naive_solver.
Qed.

(** The tables every run of stamps starts from: enabled once, nothing
    stamped. *)
Definition stamps_run (mask : Z) (m : Memory) (stamps : list Stamp) (schedule : list nat) : Memory :=
  (run_threads schedule (stamp <$> stamps) m).2.
Lemma stamps_land m mask stamps schedule i f : m CMask = mask -> (forall i f, m (CSlot i f) = 0) -> is_time f = true ->
  let v := stamps_run mask m stamps schedule (CSlot i f) in
  v = 0 \/ exists s, s ∈ stamps /\ stamps_field s f = Some v /\ (fun k => mix k mask) <$> stamp_key s = Some i.
Proof.
  intros Hm Hz Hf. cbn zeta. unfold stamps_run.
  destruct (run_threads_stores mask (fun c v => exists s, s ∈ stamps /\ own_store mask s c v) schedule) with (threads := stamp <$> stamps) (m := m) (c := CSlot i f) as [E|(s & Hs & Hi & Hv)].
  - intros v (s & _ & []).
  - done.
  - apply Forall_fmap, Forall_forall. intros s Hs. cbn. pose proof (stamp_stores mask s) as H. revert H. generalize (stamp s).
    induction p as [a|c k IH|c v k IH|c e d k IH|c n k IH]; cbn; naive_solver.
  - left. by rewrite E, Hz.
  - destruct (Hv Hf) as [->|Hst]; [by left|]. right. by exists s.
Qed.

(** ** The tracer's contract *)

(** C33: the tracer keeps exactly the last sample of each order that its slot
    was not taken from.  Called one at a time, stamps of one order never show
    in another's snapshot: after any calls the snapshot of a key is what its
    own stamps made of the sample its last submission began (first stamps
    stay, counters count), and nothing once it is disabled or a submission
    that hashes to its slot has dropped it.  And under any interleaving of
    single accesses every time in a slot was stored by a stamp of that stage
    whose key hashes there, so only a hash collision can mix samples. *)
Theorem tracer_exact slot_count : slot_count_ok slot_count -> exists m0 mask, call (Enable slot_count) Memory_zero = Some m0 /\
  slot_count <= mask + 1 /\ m0 CMask = mask /\
  (forall cs k, Forall call_ok cs -> exists m, calls cs m0 = Some m /\
     exec (snapshot k) m =
       (let (on, sample) := foldl (trace_after mask k) (true, initial_sample k) cs in if on then snapshot_of <$> sample else None, m)) /\
  (forall stamps schedule i f, is_time f = true ->
     let v := stamps_run mask m0 stamps schedule (CSlot i f) in
     v = 0 \/ exists s, s ∈ stamps /\ stamps_field s f = Some v /\ (fun k => mix k mask) <$> stamp_key s = Some i).
Proof.
  intros Hn. destruct (represents_enabled slot_count Hn) as (m0 & j & E & Hle & _ & _ & Hz & Hr).
  assert (Hmask : m0 CMask = 2 ^ j - 1) by apply (Hr (0, 0)).
  exists m0, (2 ^ j - 1). split; [done|]. split; [lia|]. split; [done|]. split.
  - intros cs k Hok. destruct (represents_calls _ k cs m0 _ (Hr k) Hok) as (m & Em & Hm). exists m. split; [done|].
    rewrite (snapshot_reads _ _ _ _ Hm). by destruct (foldl _ _ cs).
  - intros. by apply stamps_land.
Qed.

Definition demo_request (account_id : AccountId) (client_order_id : ClientOrderId) : OrderEntry.Message :=
  OrderEntry.MsgNewOrder {| OrderEntry.no_account_id := account_id; OrderEntry.no_client_order_id := client_order_id;
    OrderEntry.no_instrument_id := 7; OrderEntry.no_side := Buy; OrderEntry.no_price := 100; OrderEntry.no_quantity := 5;
    OrderEntry.no_order_type := Limit; OrderEntry.no_time_in_force := GTC |}.
Definition demo_command (account_id : AccountId) (client_order_id : ClientOrderId) : ExchangeCommand :=
  CmdCancelOrder {| coc_command_sequence := 0; coc_account_id := account_id; coc_client_order_id := client_order_id;
    coc_instrument_id := 7 |}.
Definition demo_report : OrderEntry.Message :=
  OrderEntry.MsgCancelled {| OrderEntry.cn_account_id := 1; OrderEntry.cn_client_order_id := 1; OrderEntry.cn_exchange_order_id := 4;
    OrderEntry.cn_instrument_id := 7 |}.
Definition demo_calls : list Call :=
  [Stamped (ClientSubmit 10 (demo_request 1 1)); Stamped (ExchangeBegin 20 (demo_command 1 1));
   Stamped (FirstExecutionEvent 25 demo_report); Stamped (FirstExecutionEvent 26 demo_report);
   Stamped (ExchangeEnd 30 (demo_command 1 1)); Stamped (ClientSubmit 40 (demo_request 2 1));
   Stamped (ExchangeEnd 50 (demo_command 2 1)); Disable; Enable 8].
Definition demo_times (t : TraceSnapshot) : list Z :=
  [ts_t0_client_submit t; ts_t2_exchange_begin t; ts_t3_first_event t; ts_t3_exchange_end t; ts_reports_generated t; ts_first_report_type t].
Lemma tracer_exact_witness : exists m0 m, call (Enable 0) Memory_zero = Some m0 /\ calls demo_calls m0 = Some m /\
  demo_times <$> (exec (snapshot (1, 1)) m).1 = Some [10; 20; 25; 30; 2; 12].
Proof.
  destruct (tracer_exact 0) as (m0 & mask & E & _ & Hm & H & _); [split; vm_compute; discriminate|].
  destruct (H demo_calls (1, 1)) as (m & Em & Es); [repeat constructor; vm_compute; discriminate|].
  exists m0, m. split; [done|]. split; [done|]. rewrite Es. cbn [fst].
  assert (mask = 65535) as -> by (rewrite <- Hm; vm_compute in E; injection E as <-; reflexivity).
  vm_compute. reflexivity.
Defined.

(** Two orders in one slot: the stamp of the first, which has found its slot,
    is stored after the second's submission has taken it over, and shows in
    the second's snapshot. *)
Definition demo_race : list Stamp :=
  [ClientSubmit 10 (demo_request 1 1); ExchangeEnd 20 (demo_command 1 1); ClientSubmit 30 (demo_request 1 65537)].
Definition demo_race_schedule : list nat := replicate 17 0%nat ++ replicate 5 1%nat ++ replicate 17 2%nat ++ [1%nat].
Lemma collision_mixes_samples :
  (let* m0 := call (Enable 0) Memory_zero in
   let* s := (exec (snapshot (1, 65537)) (stamps_run 65535 m0 demo_race demo_race_schedule)).1 in
   Some (ts_t0_client_submit s, ts_t3_exchange_end s)) = Some (30, 20).
Proof. vm_compute. reflexivity. Qed.
