(* ===== verification/GatewayReports.v ===== *)
(** * Wire messages and exchange commands: order_entry_gateway.cpp,
      to_command and to_execution_reports

    What a client message asks of the exchange, and which private reports
    an exchange event becomes, each addressed by the (account, client order
    id) it is routed on. *)
From S2P Require Import Prelude Types OrderEntryCodec.

Definition OrderKey : Type := AccountId * ClientOrderId.

Definition to_command (message : OrderEntry.Message) : option ExchangeCommand :=
  match message with
  | OrderEntry.MsgNewOrder msg =>
      Some (CmdNewOrder
        {| noc_command_sequence := 0; noc_account_id := OrderEntry.no_account_id msg;
           noc_client_order_id := OrderEntry.no_client_order_id msg;
           noc_instrument_id := OrderEntry.no_instrument_id msg; noc_side := OrderEntry.no_side msg;
           noc_price := OrderEntry.no_price msg; noc_quantity := OrderEntry.no_quantity msg;
           noc_order_type := OrderEntry.no_order_type msg; noc_time_in_force := OrderEntry.no_time_in_force msg |})
  | OrderEntry.MsgCancelOrder msg =>
      Some (CmdCancelOrder
        {| coc_command_sequence := 0; coc_account_id := OrderEntry.co_account_id msg;
           coc_client_order_id := OrderEntry.co_client_order_id msg;
           coc_instrument_id := OrderEntry.co_instrument_id msg |})
  | OrderEntry.MsgReplaceOrder msg =>
      Some (CmdReplaceOrder
        {| roc_command_sequence := 0; roc_account_id := OrderEntry.ro_account_id msg;
           roc_original_client_order_id := OrderEntry.ro_original_client_order_id msg;
           roc_new_client_order_id := OrderEntry.ro_new_client_order_id msg;
           roc_instrument_id := OrderEntry.ro_instrument_id msg; roc_new_price := OrderEntry.ro_new_price msg;
           roc_new_quantity := OrderEntry.ro_new_quantity msg |})
  | _ => None
  end.

Definition trade_report (ev : TradeExecuted) (leg : TradeCounterparty) : OrderKey * OrderEntry.Message :=
  ((tcp_account_id leg, tcp_client_order_id leg),
   OrderEntry.MsgTradeReport
     {| OrderEntry.tr_account_id := tcp_account_id leg; OrderEntry.tr_client_order_id := tcp_client_order_id leg;
        OrderEntry.tr_exchange_order_id := tcp_exchange_order_id leg; OrderEntry.tr_instrument_id := te_instrument_id ev;
        OrderEntry.tr_price := te_price ev; OrderEntry.tr_quantity := te_quantity ev;
        OrderEntry.tr_remaining_quantity := tcp_remaining_quantity leg |}).
Definition to_execution_reports (event : ExchangeEvent) : list (OrderKey * OrderEntry.Message) :=
  match event with
  | EvOrderAccepted ev =>
      [((oa_account_id ev, oa_client_order_id ev),
        OrderEntry.MsgAccepted
          {| OrderEntry.ac_account_id := oa_account_id ev; OrderEntry.ac_client_order_id := oa_client_order_id ev;
             OrderEntry.ac_exchange_order_id := oa_exchange_order_id ev; OrderEntry.ac_instrument_id := oa_instrument_id ev;
             OrderEntry.ac_side := oa_side ev; OrderEntry.ac_price := oa_price ev; OrderEntry.ac_quantity := oa_quantity ev;
             OrderEntry.ac_order_type := oa_order_type ev; OrderEntry.ac_time_in_force := oa_time_in_force ev |})]
  | EvOrderRejected ev =>
      [((orj_account_id ev, orj_client_order_id ev),
        OrderEntry.MsgRejected
          {| OrderEntry.rj_account_id := orj_account_id ev; OrderEntry.rj_client_order_id := orj_client_order_id ev;
             OrderEntry.rj_instrument_id := orj_instrument_id ev; OrderEntry.rj_reason := orj_reason ev |})]
  | EvOrderCancelled ev =>
      [((ocn_account_id ev, ocn_client_order_id ev),
        OrderEntry.MsgCancelled
          {| OrderEntry.cn_account_id := ocn_account_id ev; OrderEntry.cn_client_order_id := ocn_client_order_id ev;
             OrderEntry.cn_exchange_order_id := ocn_exchange_order_id ev; OrderEntry.cn_instrument_id := ocn_instrument_id ev |})]
  | EvOrderReplaced ev =>
      [((orp_account_id ev, orp_original_client_order_id ev),
        OrderEntry.MsgReplaced
          {| OrderEntry.rp_account_id := orp_account_id ev;
             OrderEntry.rp_original_client_order_id := orp_original_client_order_id ev;
             OrderEntry.rp_new_client_order_id := orp_new_client_order_id ev;
             OrderEntry.rp_exchange_order_id := orp_exchange_order_id ev; OrderEntry.rp_instrument_id := orp_instrument_id ev;
             OrderEntry.rp_new_price := orp_new_price ev; OrderEntry.rp_new_quantity := orp_new_quantity ev |})]
  | EvTradeExecuted ev => [trade_report ev (te_buyer ev); trade_report ev (te_seller ev)]
  | EvBookOrderAdded _ | EvBookOrderReduced _ | EvBookOrderRemoved _ => []
  end.
