(* ===== verification/Oms.v ===== *)
(** * The order management system: src/trader/oms/order_management_system.cpp

    The trader's view of its own orders and the messages that change it.
    What the class does to the outside -- sends, order updates, fills -- is
    the list of outputs of each operation, in the order they happen.  The
    transport's answer to a send is the argument [sent].  Every operation
    runs under the class's mutex around its map accesses and the sinks are
    called outside it, so a sink that calls back in is a later operation. *)
From S2P Require Import Prelude Types OrderEntryCodec.

(** ** include/trader/oms/client_order.hpp *)
Inductive ClientOrderState := PendingNew | Live | PartiallyFilled | Filled | Rejected | Cancelled | Replaced.
#[export] Instance ClientOrderState_eq_dec : EqDecision ClientOrderState.
Proof. solve_decision. Defined.
Definition is_terminal (s : ClientOrderState) : bool :=
  match s with
  | Filled | Rejected | Cancelled | Replaced => true
  | PendingNew | Live | PartiallyFilled => false
  end.
Inductive PendingAction := NoAction | ActionCancel | ActionReplace.
#[export] Instance PendingAction_eq_dec : EqDecision PendingAction.
Proof. solve_decision. Defined.

Record ClientOrder := {
  co_account : AccountId;
  co_id : ClientOrderId;
  co_exchange_order_id : option ExchangeOrderId;
  co_instrument : InstrumentId;
  co_side : Side;
  co_price : Price;
  co_quantity : Quantity;
  co_remaining_quantity : Quantity;
  co_order_type : OrderType;
  co_time_in_force : TimeInForce;
  co_state : ClientOrderState;
  co_pending_action : PendingAction;
  co_last_reject_reason : RejectReason.t;
}.

Definition with_state (o : ClientOrder) (s : ClientOrderState) (p : PendingAction) (r : RejectReason.t) : ClientOrder :=
  {| co_account := co_account o; co_id := co_id o; co_exchange_order_id := co_exchange_order_id o;
     co_instrument := co_instrument o; co_side := co_side o; co_price := co_price o; co_quantity := co_quantity o;
     co_remaining_quantity := co_remaining_quantity o; co_order_type := co_order_type o;
     co_time_in_force := co_time_in_force o; co_state := s; co_pending_action := p; co_last_reject_reason := r |}.
Definition with_pending (o : ClientOrder) (p : PendingAction) : ClientOrder :=
  with_state o (co_state o) p (co_last_reject_reason o).
(** Price, quantities, state and exchange id at once. *)
Definition with_terms (o : ClientOrder) (xid : option ExchangeOrderId) (price : Price) (quantity remaining : Quantity)
    (s : ClientOrderState) : ClientOrder :=
  {| co_account := co_account o; co_id := co_id o; co_exchange_order_id := xid;
     co_instrument := co_instrument o; co_side := co_side o; co_price := price; co_quantity := quantity;
     co_remaining_quantity := remaining; co_order_type := co_order_type o;
     co_time_in_force := co_time_in_force o; co_state := s; co_pending_action := co_pending_action o;
     co_last_reject_reason := co_last_reject_reason o |}.

(** ** include/trader/oms/order_management_system.hpp *)
Record Fill := {
  fi_account_id : AccountId;
  fi_client_order_id : ClientOrderId;
  fi_instrument_id : InstrumentId;
  fi_side : Side;
  fi_price : Price;
  fi_quantity : Quantity;
}.
Inductive OmsOutput :=
| OutSend (m : OrderEntry.Message)
| OutUpdate (o : ClientOrder)
| OutFill (f : Fill).

Record OrderManagementSystem := {
  oms_account_id : AccountId;
  oms_next_client_order_id : ClientOrderId;
  oms_orders : gmap ClientOrderId ClientOrder;
}.
Definition OrderManagementSystem_new (account_id : AccountId) : OrderManagementSystem :=
  {| oms_account_id := account_id; oms_next_client_order_id := 1; oms_orders := ∅ |}.
Definition with_orders (oms : OrderManagementSystem) (m : gmap ClientOrderId ClientOrder) : OrderManagementSystem :=
  {| oms_account_id := oms_account_id oms; oms_next_client_order_id := oms_next_client_order_id oms; oms_orders := m |}.
(** [next_client_order_id_++]. *)
Definition take_id (oms : OrderManagementSystem) : ClientOrderId * OrderManagementSystem :=
  (oms_next_client_order_id oms,
   {| oms_account_id := oms_account_id oms; oms_next_client_order_id := u64 (oms_next_client_order_id oms + 1);
      oms_orders := oms_orders oms |}).
(** [orders_.emplace(id, order)]: an entry that is there stays. *)
Definition emplace (oms : OrderManagementSystem) (id : ClientOrderId) (o : ClientOrder) : OrderManagementSystem :=
  match oms_orders oms !! id with
  | Some _ => oms
  | None => with_orders oms (<[id := o]> (oms_orders oms))
  end.
Definition store (oms : OrderManagementSystem) (id : ClientOrderId) (o : ClientOrder) : OrderManagementSystem :=
  with_orders oms (<[id := o]> (oms_orders oms)).

Definition is_live (s : ClientOrderState) : bool := match s with Live | PartiallyFilled => true | _ => false end.
Definition order (oms : OrderManagementSystem) (id : ClientOrderId) : option ClientOrder := oms_orders oms !! id.
(** [walk] is the order in which the map is iterated. *)
Definition orders (oms : OrderManagementSystem) (walk : list ClientOrderId) : list ClientOrder :=
  omap (fun id => oms_orders oms !! id) walk.

Definition mark_send_failed (oms : OrderManagementSystem) (id : ClientOrderId) : OrderManagementSystem * list OmsOutput :=
  match oms_orders oms !! id with
  | None => (oms, [])
  | Some o => let o := with_state o Rejected NoAction RejectReason.InternalError in (store oms id o, [OutUpdate o])
  end.
Definition clear_pending_action (oms : OrderManagementSystem) (id : ClientOrderId) : OrderManagementSystem :=
  match oms_orders oms !! id with
  | None => oms
  | Some o => store oms id (with_pending o NoAction)
  end.

(** ** Requests *)
Definition fresh_order (oms : OrderManagementSystem) (id : ClientOrderId) (instrument_id : InstrumentId) (side : Side)
    (price : Price) (quantity : Quantity) (order_type : OrderType) (time_in_force : TimeInForce) : ClientOrder :=
  {| co_account := oms_account_id oms; co_id := id; co_exchange_order_id := None; co_instrument := instrument_id;
     co_side := side; co_price := price; co_quantity := quantity; co_remaining_quantity := quantity;
     co_order_type := order_type; co_time_in_force := time_in_force; co_state := PendingNew;
     co_pending_action := NoAction; co_last_reject_reason := RejectReason.None |}.

Definition submit_new_order (oms : OrderManagementSystem) (sent : bool) (instrument_id : InstrumentId) (side : Side)
    (price : Price) (quantity : Quantity) (order_type : OrderType) (time_in_force : TimeInForce)
    : OrderManagementSystem * list OmsOutput * ClientOrderId :=
  let (id, oms) := take_id oms in
  let oms := emplace oms id (fresh_order oms id instrument_id side price quantity order_type time_in_force) in
  let wire_message := OrderEntry.MsgNewOrder
    {| OrderEntry.no_account_id := oms_account_id oms; OrderEntry.no_client_order_id := id;
       OrderEntry.no_instrument_id := instrument_id; OrderEntry.no_side := side; OrderEntry.no_price := price;
       OrderEntry.no_quantity := quantity; OrderEntry.no_order_type := order_type;
       OrderEntry.no_time_in_force := time_in_force |} in
  if sent then (oms, [OutSend wire_message], id)
  else let (oms, out) := mark_send_failed oms id in (oms, OutSend wire_message :: out, id).

(** What cancel and replace require of their order. *)
Definition workable (oms : OrderManagementSystem) (id : ClientOrderId) : option ClientOrder :=
  match oms_orders oms !! id with
  | Some o => if negb (is_live (co_state o)) || negb (bool_decide (co_pending_action o = NoAction)) then None else Some o
  | None => None
  end.
Definition cancel_order (oms : OrderManagementSystem) (sent : bool) (client_order_id : ClientOrderId)
    : OrderManagementSystem * list OmsOutput * bool :=
  match workable oms client_order_id with
  | None => (oms, [], false)
  | Some o =>
      let oms := store oms client_order_id (with_pending o ActionCancel) in
      let wire_message := OrderEntry.MsgCancelOrder
        {| OrderEntry.co_account_id := oms_account_id oms; OrderEntry.co_client_order_id := client_order_id;
           OrderEntry.co_instrument_id := co_instrument o |} in
      if sent then (oms, [OutSend wire_message], true)
      else (clear_pending_action oms client_order_id, [OutSend wire_message], false)
  end.
(** The source reads the original order through its iterator after inserting
    the new one.  Where the insertion rehashes the map, the iterator is
    invalid and the source undefined; this is the operation where it does
    not ([UiGateway.reads_invalid_iterator] tells the two apart). *)
Definition replace_order (oms : OrderManagementSystem) (sent : bool) (client_order_id : ClientOrderId)
    (new_price : Price) (new_quantity : Quantity) : OrderManagementSystem * list OmsOutput * option ClientOrderId :=
  match workable oms client_order_id with
  | None => (oms, [], None)
  | Some o =>
      let oms := store oms client_order_id (with_pending o ActionReplace) in
      let (new_id, oms) := take_id oms in
      let oms := emplace oms new_id (fresh_order oms new_id (co_instrument o) (co_side o) new_price new_quantity
                                       (co_order_type o) (co_time_in_force o)) in
      let wire_message := OrderEntry.MsgReplaceOrder
        {| OrderEntry.ro_account_id := oms_account_id oms; OrderEntry.ro_original_client_order_id := client_order_id;
           OrderEntry.ro_new_client_order_id := new_id; OrderEntry.ro_instrument_id := co_instrument o;
           OrderEntry.ro_new_price := new_price; OrderEntry.ro_new_quantity := new_quantity |} in
      if sent then (oms, [OutSend wire_message], Some new_id)
      else (clear_pending_action (with_orders oms (delete new_id (oms_orders oms))) client_order_id,
            [OutSend wire_message], None)
  end.

(** ** Responses *)
Definition on_accepted (oms : OrderManagementSystem) (event : OrderEntry.Accepted) : OrderManagementSystem * list OmsOutput :=
  let id := OrderEntry.ac_client_order_id event in
  match oms_orders oms !! id with
  | None => (oms, [])
  | Some o =>
      let o := with_terms o (Some (OrderEntry.ac_exchange_order_id event)) (co_price o) (OrderEntry.ac_quantity event)
                 (OrderEntry.ac_quantity event) Live in
      (store oms id o, [OutUpdate o])
  end.
Definition on_rejected (oms : OrderManagementSystem) (event : OrderEntry.Rejected) : OrderManagementSystem * list OmsOutput :=
  let id := OrderEntry.rj_client_order_id event in
  match oms_orders oms !! id with
  | None => (oms, [])
  | Some o =>
      let o := with_state o (if bool_decide (co_state o = PendingNew) then Rejected else co_state o) NoAction
                 (OrderEntry.rj_reason event) in
      (store oms id o, [OutUpdate o])
  end.
Definition on_cancelled (oms : OrderManagementSystem) (event : OrderEntry.Cancelled) : OrderManagementSystem * list OmsOutput :=
  let id := OrderEntry.cn_client_order_id event in
  match oms_orders oms !! id with
  | None => (oms, [])
  | Some o =>
      let o := with_state o Cancelled NoAction (co_last_reject_reason o) in
      (store oms id o, [OutUpdate o])
  end.
Definition on_replaced (oms : OrderManagementSystem) (event : OrderEntry.Replaced) : OrderManagementSystem * list OmsOutput :=
  let original := OrderEntry.rp_original_client_order_id event in
  let new_id := OrderEntry.rp_new_client_order_id event in
  let (oms, out) :=
    match oms_orders oms !! original with
    | None => (oms, [])
    | Some o => let o := with_state o Replaced NoAction (co_last_reject_reason o) in (store oms original o, [OutUpdate o])
    end in
  match oms_orders oms !! new_id with
  | None => (oms, out)
  | Some o =>
      let o := with_terms o (Some (OrderEntry.rp_exchange_order_id event)) (OrderEntry.rp_new_price event)
                 (OrderEntry.rp_new_quantity event) (OrderEntry.rp_new_quantity event) Live in
      (store oms new_id o, out ++ [OutUpdate o])
  end.
Definition on_trade_report (oms : OrderManagementSystem) (event : OrderEntry.TradeReport) : OrderManagementSystem * list OmsOutput :=
  let id := OrderEntry.tr_client_order_id event in
  match oms_orders oms !! id with
  | None => (oms, [])
  | Some o =>
      let remaining := OrderEntry.tr_remaining_quantity event in
      let o := with_terms o (co_exchange_order_id o) (co_price o) (co_quantity o) remaining
                 (if remaining =? 0 then Filled else PartiallyFilled) in
      (store oms id o,
       [OutUpdate o;
        OutFill {| fi_account_id := oms_account_id oms; fi_client_order_id := id;
                   fi_instrument_id := OrderEntry.tr_instrument_id event; fi_side := co_side o;
                   fi_price := OrderEntry.tr_price event; fi_quantity := OrderEntry.tr_quantity event |}])
  end.
Definition handle_message (oms : OrderManagementSystem) (message : OrderEntry.Message) : OrderManagementSystem * list OmsOutput :=
  match message with
  | OrderEntry.MsgAccepted event => on_accepted oms event
  | OrderEntry.MsgRejected event => on_rejected oms event
  | OrderEntry.MsgCancelled event => on_cancelled oms event
  | OrderEntry.MsgReplaced event => on_replaced oms event
  | OrderEntry.MsgTradeReport event => on_trade_report oms event
  | OrderEntry.MsgNewOrder _ | OrderEntry.MsgCancelOrder _ | OrderEntry.MsgReplaceOrder _ => (oms, [])
  end.
