(* ===== verification/OmsMirror.v ===== *)
(** * The events of one command, as its parties see them

    A command is answered by one rejection, or by one acceptance,
    cancellation or replacement that repeats its fields, followed by nothing
    but trades of its own order and book events; and along these events the
    holds follow ([answered]).  The venue, with its risk gate, answers every
    admissible command so. *)
From S2P Require Import Prelude Types TickLadder SideIndex PriceQueues MatchingBook BookSpec MatchingEngine EngineSpec Directory EngineWf EngineRefine EngineProcess EngineRefinement EngineFacts EngineTheorems MapSums Ledger LedgerSpec LedgerSim LedgerSolvent LedgerMatch Risk Venue OrderEntryCodec GatewayReports Oms.

Definition command_account (c : ExchangeCommand) : AccountId :=
  match c with
  | CmdNewOrder c => noc_account_id c
  | CmdCancelOrder c => coc_account_id c
  | CmdReplaceOrder c => roc_account_id c
  end.
(** The order a command names, and the one it may leave resting. *)
Definition target_id (c : ExchangeCommand) : ClientOrderId :=
  match c with
  | CmdNewOrder c => noc_client_order_id c
  | CmdCancelOrder c => coc_client_order_id c
  | CmdReplaceOrder c => roc_original_client_order_id c
  end.
Definition result_id (c : ExchangeCommand) : ClientOrderId :=
  match c with
  | CmdNewOrder c => noc_client_order_id c
  | CmdCancelOrder c => coc_client_order_id c
  | CmdReplaceOrder c => roc_new_client_order_id c
  end.

Definition is_fill (k : HoldKey) (ev : ExchangeEvent) : Prop :=
  match ev with
  | EvTradeExecuted t => leg_key (aggressor_leg t) = k
  | EvBookOrderAdded _ | EvBookOrderReduced _ | EvBookOrderRemoved _ => True
  | _ => False
  end.
(** The first event of a command that is carried out. *)
Definition carries_out (c : ExchangeCommand) (ev : ExchangeEvent) : Prop :=
  match c, ev with
  | CmdNewOrder c, EvOrderAccepted a =>
      oa_account_id a = noc_account_id c /\ oa_client_order_id a = noc_client_order_id c /\
      oa_instrument_id a = noc_instrument_id c /\ oa_side a = noc_side c /\ oa_price a = noc_price c /\
      oa_quantity a = noc_quantity c /\ oa_time_in_force a = noc_time_in_force c
  | CmdCancelOrder c, EvOrderCancelled x =>
      ocn_account_id x = coc_account_id c /\ ocn_client_order_id x = coc_client_order_id c
  | CmdReplaceOrder c, EvOrderReplaced p =>
      orp_account_id p = roc_account_id c /\ orp_original_client_order_id p = roc_original_client_order_id c /\
      orp_new_client_order_id p = roc_new_client_order_id c /\ orp_instrument_id p = roc_instrument_id c /\
      orp_new_price p = roc_new_price c /\ orp_new_quantity p = roc_new_quantity c
  | _, _ => False
  end.
Definition refuses (c : ExchangeCommand) (ev : ExchangeEvent) : Prop :=
  match ev with
  | EvOrderRejected r => orj_account_id r = command_account c /\ orj_client_order_id r = target_id c
  | _ => False
  end.
(** All but an order that may not rest. *)
Definition may_rest (c : ExchangeCommand) : Prop :=
  match c with CmdNewOrder c => noc_time_in_force c = GTC | CmdReplaceOrder _ | CmdCancelOrder _ => True end.

(** Whenever [k] trades as the aggressor it has a hold. *)
Fixpoint own_held (k : HoldKey) (m : gmap HoldKey Hold) (evs : list ExchangeEvent) : Prop :=
  match evs with
  | [] => True
  | ev :: evs => match ev with EvTradeExecuted _ => is_Some (m !! k) | _ => True end /\ own_held k (holds_apply m ev) evs
  end.

Definition shaped (m : gmap HoldKey Hold) (c : ExchangeCommand) (evs : list ExchangeEvent) : Prop :=
  (exists ev, evs = [ev] /\ refuses c ev) \/
  (exists ev rest, evs = ev :: rest /\ carries_out c ev /\
     Forall (is_fill (command_account c, result_id c)) rest /\
     (may_rest c -> own_held (command_account c, result_id c) (holds_apply m ev) rest)).
Definition answered (m : gmap HoldKey Hold) (c : ExchangeCommand) (evs : list ExchangeEvent) : Prop :=
  stream_fits m evs /\ shaped m c evs.

(** ** Matching *)
Section Fill.
Context (x : ExchangeRestingOrder) (cseq : CommandSequence).
Let kx := ero_key x.

Lemma fill_shape fills : forall rem seq, Forall (is_fill kx) (fill_events x cseq rem fills seq).
Proof.
  induction fills as [|[r t] fills IH]; intros rem seq; [constructor|]. cbn [fill_events].
  constructor; [|constructor; [by destruct (_ =? 0)|apply IH]].
  unfold trade_event. cbn. unfold aggressor_leg, leg_key. cbn. by destruct (ero_side x).
Qed.
Lemma meet_shape st : Forall (is_fill kx) (spec_match_then_rest st x cseq).2.
Proof.
  unfold spec_match_then_rest, spec_match. destruct (spec_fill _ _ _ _) as [[fills rem] l].
  unfold spec_rest. destruct (_ || _); cbn; rewrite ?app_nil_r; [apply fill_shape|].
  apply Forall_app. split; [apply fill_shape|]. by constructor.
Qed.

Lemma trade_keeps m r t rem after seq : is_Some (m !! kx) -> ero_key r <> kx -> rem - t <> 0 ->
  is_Some (holds_apply m (trade_event x (book_order_of r) cseq t (rem - t) after seq) !! kx).
Proof.
  intros [h Hh] Hne Hz. unfold trade_event. cbn [holds_apply te_buyer te_seller].
  assert (Hx : forall m cp, is_Some (m !! kx) -> leg_key cp = kx -> tcp_remaining_quantity cp <> 0 -> is_Some (leg_holds m cp !! kx)).
  { intros m' cp [h' Hh'] Hk Hr. unfold leg_holds. rewrite Hk, Hh'.
    rewrite (proj2 (Z.eqb_neq _ _)) by done. by rewrite lookup_insert_eq. }
  assert (Hr : forall m cp, is_Some (m !! kx) -> leg_key cp <> kx -> is_Some (leg_holds m cp !! kx)).
  { intros m' cp Hm Hk. by rewrite leg_holds_ne. }
  destruct (ero_side x); [apply Hr; [apply Hx; [by exists h|done|done]|done]|apply Hx; [apply Hr; [by exists h|done]|done|done]].
Qed.

Lemma fill_own l : forall m rem seq, is_Some (m !! kx) -> Forall (fun r => ero_key r <> kx) l ->
  own_held kx m (fill_events x cseq rem (spec_fill (ero_side x) (ero_price x) rem l).1.1 seq).
Proof.
  induction l as [|r l IH]; intros m rem seq Hm Hl; cbn [spec_fill]; [done|].
  destruct (_ || _) eqn:Hstop; [done|]. apply orb_false_iff in Hstop as [Hz%Z.eqb_neq _].
  apply Forall_cons in Hl as [Hr Hl]. set (t := Z.min rem _).
  destruct (ero_remaining_quantity r - t =? 0) eqn:Hfull.
  - destruct (decide (rem - t = 0)) as [Hz0|Hnz].
    + rewrite Hz0, spec_fill_zero. cbn. split; [exact Hm|]. rewrite Hfull. by split.
    + pose proof (IH (holds_apply m (trade_event x (book_order_of r) cseq t (rem - t) (ero_remaining_quantity r - t) seq))
        (rem - t) (u64 (seq + 2)) (trade_keeps m r t rem _ seq Hm Hr Hnz) Hl) as Hrec.
      destruct (spec_fill _ _ (rem - t) l) as [[fills rem'] l']. cbn [fst fill_events own_held].
      split; [exact Hm|]. rewrite Hfull. split; [done|exact Hrec].
  - cbn [fst fill_events own_held]. split; [exact Hm|]. rewrite Hfull. by split.
Qed.
End Fill.

Lemma own_held_app k m evs evs' : own_held k m (evs ++ evs') <->
  own_held k m evs /\ own_held k (foldl holds_apply m evs) evs'.
Proof. revert m. induction evs as [|ev evs IH]; intros m; cbn; [tauto|]. rewrite IH. tauto. Qed.

Lemma meet_own st x cseq m : is_Some (m !! ero_key x) -> (forall r, live st r -> ero_key r <> ero_key x) -> spec_wf st ->
  own_held (ero_key x) m (spec_match_then_rest st x cseq).2.
Proof.
  intros Hm Hfresh Wf. unfold spec_match_then_rest, spec_match.
  pose proof (fill_own x cseq (sp_side st (ero_instrument_id x) (contra_side (ero_side x))) m
    (ero_remaining_quantity x) (sp_next_event_sequence st) Hm) as Hown.
  destruct (spec_fill _ _ _ _) as [[fills rem] l]. cbn [fst] in Hown.
  unfold spec_rest. assert (Hf : Forall (fun r => ero_key r <> ero_key x) (sp_side st (ero_instrument_id x) (contra_side (ero_side x)))).
  { apply Forall_forall. intros r Hr. apply Hfresh. destruct (wf_place _ Wf _ _ _ Hr) as (Hi & Hs & _).
    unfold live. by rewrite Hi, Hs. }
  destruct (_ || _); cbn [snd]; rewrite ?app_nil_r; [by apply Hown|].
  apply own_held_app. split; [by apply Hown|done].
Qed.

(** ** Commands *)
Section Commands.
Context (st : Spec) (Wf : spec_wf st) (sl : SpecLedger) (Hs : solvent sl) (Hx : holds_exact st (sl_holds sl)).

Lemma new_order_shaped cmd : 0 <= noc_quantity cmd -> shaped (sl_holds sl) (CmdNewOrder cmd) (spec_new_order st cmd).2.
Proof using Wf.
  intros Hq. unfold spec_new_order, shaped.
  destruct (bool_decide (is_Some _)) eqn:Hk; cbn [negb]; [|left; eexists; split; [reflexivity|done]].
  destruct (noc_price cmd <=? 0) eqn:Hp; [left; eexists; split; [reflexivity|done]|].
  destruct (noc_quantity cmd =? 0) eqn:Hz; [left; eexists; split; [reflexivity|done]|].
  destruct (key_live st _) eqn:Hlive; [left; eexists; split; [reflexivity|done]|].
  destruct (_ && _); [left; eexists; split; [reflexivity|done]|]. right. cbv zeta. fold (order_of st cmd).
  set (st0 := sp_bump_seq _). pose proof (meet_shape (order_of st cmd) (noc_command_sequence cmd) st0) as Hshape.
  pose proof (fun m Hm => meet_own st0 (order_of st cmd) (noc_command_sequence cmd) m Hm) as Hown.
  destruct (spec_match_then_rest _ _ _) as [st' evs]. eexists _, evs. split; [reflexivity|]. split; [done|].
  split; [exact Hshape|]. intros Ht. cbn in Ht. apply Hown.
  - cbn [holds_apply oa_time_in_force]. rewrite Ht. cbn [negb bool_decide decide]. rewrite bool_decide_true by done.
    cbn [negb]. unfold open_entry. cbn [h_remaining oa_quantity]. rewrite Hz. change (ero_key _) with (noc_account_id cmd, noc_client_order_id cmd).
    by rewrite lookup_insert_eq.
  - intros r Hr. by apply (key_live_false st).
  - by apply (spec_wf_books st).
Qed.

Lemma cancel_shaped cmd : shaped (sl_holds sl) (CmdCancelOrder cmd) (spec_cancel st cmd).2.
Proof.
  unfold spec_cancel, shaped. destruct (bool_decide _) eqn:Hk; cbn [negb]; [|left; eexists; split; [reflexivity|done]].
  destruct (find_order _ _ _) as [r|] eqn:Hf; [|left; eexists; split; [reflexivity|done]].
  right. eexists _, _. split; [reflexivity|]. split; [done|]. split; [by repeat constructor|by repeat split].
Qed.

Lemma replace_shaped cmd : 0 <= roc_new_quantity cmd ->
  (roc_new_client_order_id cmd = roc_original_client_order_id cmd \/
   key_live st (roc_account_id cmd, roc_new_client_order_id cmd) = false) ->
  shaped (sl_holds sl) (CmdReplaceOrder cmd) (spec_replace st cmd).2.
Proof using Wf Hx.
  intros Hq Hfresh. unfold spec_replace, shaped. destruct (bool_decide _) eqn:Hk; cbn [negb]; [|left; eexists; split; [reflexivity|done]].
  destruct (_ || _) eqn:Hbad; [left; eexists; split; [reflexivity|done]|]. apply orb_false_iff in Hbad as [Hp0 Hq0].
  destruct (find_order _ _ _) as [r|] eqn:Hf; [|left; eexists; split; [reflexivity|done]].
  destruct (find_order_live st Wf _ _ _ Hf) as (Hr & Hi & Hkey & Hkn). right.
  assert (Hp' : 0 < roc_new_price cmd) by lia. assert (Hq' : 0 < roc_new_quantity cmd) by lia.
  assert (Hopen : forall xid seq, is_Some (holds_apply (sl_holds sl) (replaced cmd xid seq) !!
    (roc_account_id cmd, roc_new_client_order_id cmd))).
  { intros xid seq. cbn. rewrite <- Hkey, (holds_exact_live _ _ _ Hx Hr). unfold open_entry. cbn [h_remaining].
    rewrite (proj2 (Z.eqb_neq _ _)) by lia. by rewrite lookup_insert_eq. }
  destruct (_ && _) eqn:Hin.
  - eexists _, _. split; [reflexivity|]. split; [done|]. split; [by repeat constructor|done].
  - cbv zeta. set (st0 := sp_bump_prio _). set (x := {| ero_exchange_order_id := _ |}).
    pose proof (meet_shape x (roc_command_sequence cmd) st0) as Hshape.
    pose proof (fun m Hm => meet_own st0 x (roc_command_sequence cmd) m Hm) as Hown.
    destruct (spec_match_then_rest _ _ _) as [st' evs]. eexists _, _. split; [reflexivity|]. split; [done|].
    split; [constructor; [done|exact Hshape]|]. intros _. cbn [own_held book_removed]. split; [done|]. apply Hown.
    + apply Hopen.
    + intros r' Hr'. apply (live_books (spec_drop st r _)) in Hr' as [Hl Hne]%(live_drop st Wf r _ Hr Hi Hkn); [|done].
      by apply (others_differ st cmd r).
    + by apply (spec_wf_books (spec_drop st r (roc_instrument_id cmd))); [|apply drop_wf].
Qed.

Lemma spec_process_answered c : command_ok st c -> funded sl c -> answered (sl_holds sl) c (spec_process st c).2.
Proof using Wf Hs Hx.
  intros Hc Hf. destruct (spec_process_ledger st Wf sl Hs Hx c Hc Hf) as (Hfit & _). split; [exact Hfit|].
  destruct c; cbn in Hc |- *; [apply new_order_shaped; lia|apply cancel_shaped|apply replace_shaped; [lia|tauto]].
Qed.
End Commands.

(** ** Through the risk gate *)
Section Gate.
Context (e : MatchingEngine MatchingBook) (lg : Ledger) (st : Spec) (sl : SpecLedger) (cash units : Z)
  (V : venue_wf e lg st sl cash units).

Lemma answered_reject c ev : refuses c ev -> answered (sl_holds sl) c [ev].
Proof. intros H. split; [by destruct ev|]. left. by exists ev. Qed.

Lemma settled_answered c e' lg' evs : command_ok st c -> funded sl c -> process_settled e lg c = Some (e', lg', evs) ->
  answered (sl_holds sl) c evs /\ lg_holds lg' = foldl holds_apply (sl_holds sl) evs.
Proof using V.
  intros Hc Hf. destruct V as [W R T Hs Hx _ _ _ _].
  destruct (process_simulates e st c W R Hc) as (e1 & Hp & _). unfold process_settled. rewrite Hp. intros [= _ <- <-].
  pose proof (spec_process_answered st (refines_spec_wf e st W R) sl Hs Hx c Hc Hf) as Ha. split; [exact Ha|].
  destruct Ha as [Hfit _]. rewrite (tk_holds _ _ (stream_tracks _ _ _ T Hfit)). apply sl_run_holds.
Qed.
Lemma gated_answered limits c e' lg' evs : command_ok st c -> priced c -> gated_process limits e lg c = Some (e', lg', evs) ->
  answered (sl_holds sl) c evs /\ lg_holds lg' = foldl holds_apply (sl_holds sl) evs.
Proof using V.
  intros Hc Hp. pose proof (tk_holds _ _ (vw_tracks _ _ _ _ _ _ V)) as Hholds. destruct c as [cmd|cmd|cmd]; cbn [gated_process].
  - destruct (knows_instrument _ _); cbn [negb]; [|intros [= _ <- <-]; split; [by apply answered_reject|exact Hholds]].
    destruct (bool_decide _) eqn:Hchk; cbn [negb]; [|intros [= _ <- <-]; split; [by apply answered_reject|exact Hholds]].
    apply bool_decide_eq_true in Hchk. apply settled_answered; [done|]. destruct V. cbn in Hc.
    eapply (check_new_order_funded lg sl); try done; lia.
  - by apply settled_answered.
  - destruct (knows_instrument _ _); cbn [negb]; [|intros [= _ <- <-]; split; [by apply answered_reject|exact Hholds]].
    destruct (bool_decide _) eqn:Hchk; cbn [negb]; [|intros [= _ <- <-]; split; [by apply answered_reject|exact Hholds]].
    apply bool_decide_eq_true in Hchk. apply settled_answered; [done|]. destruct V. cbn in Hc.
    eapply (check_replace_funded lg sl); try done; lia.
Qed.
End Gate.

(** ** The trader's orders against the exchange's holds

    [mirror a om m]: the GTC orders the order management system of account
    [a] believes live are exactly the account's open holds, with the same
    instrument, side, limit price and remaining quantity.  Reports handled
    one by one keep it along the events of the exchange. *)

Implicit Types (om : gmap ClientOrderId ClientOrder) (m : gmap HoldKey Hold).

(** ** Handlers as updates of one entry *)
Definition accept_entry (ev : OrderEntry.Accepted) (o : ClientOrder) : ClientOrder :=
  with_terms o (Some (OrderEntry.ac_exchange_order_id ev)) (co_price o) (OrderEntry.ac_quantity ev)
    (OrderEntry.ac_quantity ev) Live.
Definition reject_entry (ev : OrderEntry.Rejected) (o : ClientOrder) : ClientOrder :=
  with_state o (if bool_decide (co_state o = PendingNew) then Rejected else co_state o) NoAction (OrderEntry.rj_reason ev).
Definition cancel_entry (o : ClientOrder) : ClientOrder := with_state o Cancelled NoAction (co_last_reject_reason o).
Definition supersede_entry (o : ClientOrder) : ClientOrder := with_state o Replaced NoAction (co_last_reject_reason o).
Definition replace_entry (ev : OrderEntry.Replaced) (o : ClientOrder) : ClientOrder :=
  with_terms o (Some (OrderEntry.rp_exchange_order_id ev)) (OrderEntry.rp_new_price ev)
    (OrderEntry.rp_new_quantity ev) (OrderEntry.rp_new_quantity ev) Live.
Definition trade_entry (ev : OrderEntry.TradeReport) (o : ClientOrder) : ClientOrder :=
  let remaining := OrderEntry.tr_remaining_quantity ev in
  with_terms o (co_exchange_order_id o) (co_price o) (co_quantity o) remaining
    (if remaining =? 0 then Filled else PartiallyFilled).
Definition react om (message : OrderEntry.Message) : gmap ClientOrderId ClientOrder :=
  match message with
  | OrderEntry.MsgAccepted ev => alter (accept_entry ev) (OrderEntry.ac_client_order_id ev) om
  | OrderEntry.MsgRejected ev => alter (reject_entry ev) (OrderEntry.rj_client_order_id ev) om
  | OrderEntry.MsgCancelled ev => alter cancel_entry (OrderEntry.cn_client_order_id ev) om
  | OrderEntry.MsgReplaced ev =>
      alter (replace_entry ev) (OrderEntry.rp_new_client_order_id ev)
        (alter supersede_entry (OrderEntry.rp_original_client_order_id ev) om)
  | OrderEntry.MsgTradeReport ev => alter (trade_entry ev) (OrderEntry.tr_client_order_id ev) om
  | OrderEntry.MsgNewOrder _ | OrderEntry.MsgCancelOrder _ | OrderEntry.MsgReplaceOrder _ => om
  end.

Lemma alter_missing (f : ClientOrder -> ClientOrder) om id : om !! id = None -> alter f id om = om.
Proof. intros H. apply map_eq. intros i. rewrite lookup_alter. case_decide; [by subst; rewrite H|done]. Qed.
Lemma alter_present (f : ClientOrder -> ClientOrder) om id o : om !! id = Some o -> alter f id om = <[id := f o]> om.
Proof.
  intros H. apply map_eq. intros i. rewrite lookup_alter, lookup_insert. repeat case_decide; subst; rewrite ?H; done.
Qed.

Lemma handle_orders oms message : oms_orders (handle_message oms message).1 = react (oms_orders oms) message.
Proof.
  destruct message as [ev|ev|ev|ev|ev|ev|ev|ev]; cbn [handle_message react]; try done.
  - unfold on_accepted. destruct (oms_orders oms !! _) as [o|] eqn:H; cbn; [by rewrite (alter_present _ _ _ o)|by rewrite alter_missing].
  - unfold on_rejected. destruct (oms_orders oms !! _) as [o|] eqn:H; cbn; [by rewrite (alter_present _ _ _ o)|by rewrite alter_missing].
  - unfold on_cancelled. destruct (oms_orders oms !! _) as [o|] eqn:H; cbn; [by rewrite (alter_present _ _ _ o)|by rewrite alter_missing].
  - unfold on_replaced. destruct (oms_orders oms !! OrderEntry.rp_original_client_order_id ev) as [o|] eqn:H; cbn.
    + rewrite (alter_present supersede_entry _ _ o) by done.
      change (with_state o Replaced NoAction (co_last_reject_reason o)) with (supersede_entry o).
      destruct (_ !! OrderEntry.rp_new_client_order_id ev) as [n|] eqn:H'; cbn;
        [by rewrite (alter_present _ _ _ n)|by rewrite alter_missing].
    + rewrite (alter_missing supersede_entry) by done.
      destruct (_ !! OrderEntry.rp_new_client_order_id ev) as [n|] eqn:H'; cbn;
        [by rewrite (alter_present _ _ _ n)|by rewrite alter_missing].
  - unfold on_trade_report. destruct (oms_orders oms !! _) as [o|] eqn:H; cbn; [by rewrite (alter_present _ _ _ o)|by rewrite alter_missing].
Qed.
Lemma handle_account oms message : oms_account_id (handle_message oms message).1 = oms_account_id oms /\
  oms_next_client_order_id (handle_message oms message).1 = oms_next_client_order_id oms.
Proof.
  destruct message as [ev|ev|ev|ev|ev|ev|ev|ev]; cbn [handle_message]; try done;
    unfold on_accepted, on_rejected, on_cancelled, on_replaced, on_trade_report; repeat case_match; simplify_eq/=; done.
Qed.

(** ** The mirror *)
Definition working (o : ClientOrder) : Prop := is_live (co_state o) = true /\ co_time_in_force o = GTC.
Definition hold_of_client (o : ClientOrder) : Hold :=
  {| h_instrument_id := co_instrument o; h_side := co_side o; h_limit_price := co_price o;
     h_remaining := co_remaining_quantity o |}.
Definition mirror (a : AccountId) om m : Prop :=
  forall id h, m !! (a, id) = Some h <-> exists o, om !! id = Some o /\ working o /\ hold_of_client o = h.

(** The reports account [a] receives. *)
Definition reports_to (a : AccountId) (evs : list ExchangeEvent) : list OrderEntry.Message :=
  (filter (fun r => r.1.1 = a) (mjoin (to_execution_reports <$> evs))).*2.
Lemma reports_one a ev : reports_to a [ev] = (filter (fun r => r.1.1 = a) (to_execution_reports ev)).*2.
Proof. unfold reports_to. cbn. by rewrite app_nil_r. Qed.
Lemma reports_cons a ev evs : reports_to a (ev :: evs) = reports_to a [ev] ++ reports_to a evs.
Proof. unfold reports_to. cbn. by rewrite app_nil_r, filter_app, fmap_app. Qed.

Section Events.
Context (a : AccountId).

(** What an event must say of the account's orders. *)
Definition leg_heard om m (leg : TradeCounterparty) : Prop :=
  tcp_account_id leg = a -> is_Some (m !! leg_key leg) \/
  forall o, om !! tcp_client_order_id leg = Some o -> co_time_in_force o <> GTC.
Definition event_heard om m (ev : ExchangeEvent) : Prop :=
  match ev with
  | EvOrderAccepted ev => oa_account_id ev = a -> exists o, om !! oa_client_order_id ev = Some o /\
      co_instrument o = oa_instrument_id ev /\ co_side o = oa_side ev /\ co_price o = oa_price ev /\
      co_time_in_force o = oa_time_in_force ev
  | EvOrderReplaced ev => orp_account_id ev = a ->
      orp_new_client_order_id ev <> orp_original_client_order_id ev /\
      exists o n, om !! orp_original_client_order_id ev = Some o /\ om !! orp_new_client_order_id ev = Some n /\
        co_side n = co_side o /\ co_time_in_force n = co_time_in_force o /\ co_instrument n = orp_instrument_id ev
  | EvTradeExecuted ev => leg_heard om m (te_buyer ev) /\ leg_heard om m (te_seller ev)
  | _ => True
  end.

Lemma mirror_ext om m m' : mirror a om m -> (forall id, m' !! (a, id) = m !! (a, id)) -> mirror a om m'.
Proof. intros Hm He id h. rewrite He. apply Hm. Qed.
(** One order and one hold change together. *)
Lemma mirror_update om m om' m' id : mirror a om m ->
  (forall i, i <> id -> om' !! i = om !! i /\ m' !! (a, i) = m !! (a, i)) ->
  (forall h, m' !! (a, id) = Some h <-> exists o, om' !! id = Some o /\ working o /\ hold_of_client o = h) ->
  mirror a om' m'.
Proof.
  intros Hm Ho Hid i h. destruct (decide (i = id)) as [->|Hne]; [apply Hid|].
  destruct (Ho i Hne) as [-> ->]. apply Hm.
Qed.
Lemma mirror_held om m id h : mirror a om m -> m !! (a, id) = Some h ->
  exists o, om !! id = Some o /\ working o /\ hold_of_client o = h.
Proof. intros Hm. apply Hm. Qed.

Lemma leg_mirror om m ev leg : mirror a om m -> tcp_account_id leg = a -> leg_heard om m leg ->
  OrderEntry.tr_client_order_id ev = tcp_client_order_id leg -> OrderEntry.tr_remaining_quantity ev = tcp_remaining_quantity leg ->
  mirror a (alter (trade_entry ev) (OrderEntry.tr_client_order_id ev) om) (leg_holds m leg).
Proof.
  intros Hm Ha Hh Hid Hrem. rewrite Hid. set (id := tcp_client_order_id leg).
  assert (Hkey : leg_key leg = (a, id)) by (unfold leg_key; by rewrite Ha).
  apply (mirror_update om m _ _ id Hm).
  - intros i Hne. rewrite lookup_alter_ne by congruence. split; [done|]. apply leg_holds_ne. rewrite Hkey. congruence.
  - intros h. rewrite lookup_alter_eq. unfold leg_holds. rewrite Hkey. destruct (m !! (a, id)) as [h0|] eqn:Hk.
    + destruct (mirror_held _ _ _ _ Hm Hk) as (o & Ho & [Hl Ht] & <-). rewrite Ho. cbn [fmap option_fmap option_map].
      unfold trade_entry. rewrite Hrem. destruct (tcp_remaining_quantity leg =? 0) eqn:Hz.
      * rewrite lookup_delete_eq. split; [done|]. intros (o' & [= <-] & [Hl' _] & _). done.
      * rewrite lookup_insert_eq. split; [intros [= <-]; eexists; split; [reflexivity|by repeat split]|].
        by intros (o' & [= <-] & _ & <-).
    + rewrite Hk. split; [done|]. intros (o' & Ho' & [Hl Ht] & _). destruct (om !! id) as [o|] eqn:Ho; [|done].
      injection Ho' as <-. destruct (Hh Ha) as [Hs|Hn]; [rewrite Hkey, Hk in Hs; by destruct Hs|]. by destruct (Hn o Ho).
Qed.

Lemma other_leg om m leg : mirror a om m -> tcp_account_id leg <> a -> mirror a om (leg_holds m leg).
Proof. intros Hm Ha. apply (mirror_ext _ m); [done|]. intros id. apply leg_holds_ne. unfold leg_key. congruence. Qed.

Lemma accepted_mirror om m ev : mirror a om m -> event_fits m (EvOrderAccepted ev) -> event_heard om m (EvOrderAccepted ev) ->
  mirror a (foldl react om (reports_to a [EvOrderAccepted ev])) (holds_apply m (EvOrderAccepted ev)).
Proof.
  intros Hm [Hq Hnone] Hh. rewrite reports_one. cbn [to_execution_reports holds_apply].
  set (m' := if negb _ then m else _).
  assert (Hother : forall i, (a, i) <> (oa_account_id ev, oa_client_order_id ev) -> m' !! (a, i) = m !! (a, i)).
  { intros i Hne. unfold m'. destruct (negb _); [done|]. unfold open_entry. destruct (_ =? 0); [done|]. by apply lookup_insert_ne. }
  destruct (decide (oa_account_id ev = a)) as [Ha|Ha].
  2: { rewrite filter_cons_False by done. cbn. apply (mirror_ext _ m); [done|]. intros i. apply Hother. congruence. }
  rewrite filter_cons_True by done. cbn. destruct (Hh Ha) as (o & Ho & Hi & Hs & Hp & Ht). set (id := oa_client_order_id ev) in *.
  apply (mirror_update om m _ _ id Hm).
  - intros i Hne. rewrite lookup_alter_ne by congruence. split; [done|]. apply Hother. congruence.
  - intros h. rewrite lookup_alter_eq, Ho. cbn [fmap option_fmap option_map]. unfold m'. rewrite Ha.
    destruct (bool_decide (oa_time_in_force ev = GTC)) eqn:Hg; cbn [negb].
    + apply bool_decide_eq_true in Hg. unfold open_entry. cbn [h_remaining]. rewrite (proj2 (Z.eqb_neq _ _)) by lia.
      rewrite lookup_insert_eq. split.
      * intros [= <-]. eexists. split; [reflexivity|]. split; [split; [done|by cbn; rewrite Ht]|]. unfold hold_of_client. cbn. by rewrite Hi, Hs, Hp.
      * intros (o' & [= <-] & _ & <-). unfold hold_of_client. cbn. by rewrite Hi, Hs, Hp.
    + apply bool_decide_eq_false in Hg. split.
      * intros Hk. destruct (mirror_held _ _ _ _ Hm Hk) as (o' & Ho' & [_ Hg'] & _). congruence.
      * intros (o' & [= <-] & [_ Hg'] & _). cbn in Hg'. congruence.
Qed.

Lemma rejected_mirror om m ev : mirror a om m ->
  mirror a (foldl react om (reports_to a [EvOrderRejected ev])) m.
Proof.
  intros Hm. rewrite reports_one. cbn [to_execution_reports].
  destruct (decide (orj_account_id ev = a)) as [Ha|Ha]; [|by rewrite filter_cons_False].
  rewrite filter_cons_True by done. cbn. apply (mirror_update om m _ _ (orj_client_order_id ev) Hm).
  - intros i Hne. by rewrite lookup_alter_ne by congruence.
  - intros h. rewrite (Hm _ h), lookup_alter_eq. cbn [OrderEntry.rj_client_order_id].
    destruct (om !! orj_client_order_id ev) as [o|]; cbn [fmap option_fmap option_map]; [|done].
    unfold reject_entry. destruct (bool_decide (co_state o = PendingNew)) eqn:Hp.
    + apply bool_decide_eq_true in Hp. split; intros (o' & [= <-] & [Hl _] & _); [by rewrite Hp in Hl|done].
    + split; intros (o' & [= <-] & Hw & <-); eexists; (split; [reflexivity|by split]).
Qed.

Lemma cancelled_mirror om m ev : mirror a om m ->
  mirror a (foldl react om (reports_to a [EvOrderCancelled ev])) (holds_apply m (EvOrderCancelled ev)).
Proof.
  intros Hm. rewrite reports_one. cbn [to_execution_reports holds_apply].
  destruct (decide (ocn_account_id ev = a)) as [Ha|Ha].
  2: { rewrite filter_cons_False by done. cbn. apply (mirror_ext _ m); [done|]. intros i. apply lookup_delete_ne. congruence. }
  rewrite filter_cons_True by done. cbn. rewrite Ha. apply (mirror_update om m _ _ (ocn_client_order_id ev) Hm).
  - intros i Hne. rewrite lookup_alter_ne, lookup_delete_ne by congruence. done.
  - intros h. rewrite lookup_delete_eq, lookup_alter_eq. split; [done|].
    destruct (om !! ocn_client_order_id ev) as [o|]; intros (o' & Ho & [Hl _] & _); [injection Ho as <-; done|done].
Qed.

Lemma replaced_mirror om m ev : mirror a om m -> event_fits m (EvOrderReplaced ev) -> event_heard om m (EvOrderReplaced ev) ->
  mirror a (foldl react om (reports_to a [EvOrderReplaced ev])) (holds_apply m (EvOrderReplaced ev)).
Proof.
  intros Hm (Hq & (h0 & Hk & Hinst) & _) Hh. rewrite reports_one. cbn [to_execution_reports holds_apply].
  rewrite Hk. unfold open_entry. cbn [h_remaining]. rewrite (proj2 (Z.eqb_neq _ _)) by lia.
  destruct (decide (orp_account_id ev = a)) as [Ha|Ha].
  2: { rewrite filter_cons_False by done. cbn. apply (mirror_ext _ m); [done|]. intros i.
       rewrite lookup_insert_ne, lookup_delete_ne by congruence. done. }
  rewrite filter_cons_True by done. cbn. rewrite Ha in *.
  destruct (Hh Ha) as (Hne & o & n & Ho & Hn & Hs & Ht & Hi). set (id := orp_original_client_order_id ev) in *.
  set (id' := orp_new_client_order_id ev) in *.
  destruct (mirror_held _ _ _ _ Hm Hk) as (o0 & Ho0 & [_ Hg] & <-). rewrite Ho in Ho0. injection Ho0 as <-.
  assert (Hm1 : mirror a (alter supersede_entry id om) (delete (a, id) m)).
  { apply (mirror_update om m _ _ id Hm); [intros i Hi'; by rewrite lookup_alter_ne, lookup_delete_ne by congruence|].
    intros h. rewrite lookup_delete_eq, lookup_alter_eq, Ho. split; [done|]. by intros (o' & [= <-] & [? _] & _). }
  apply (mirror_update _ _ _ _ id' Hm1).
  - intros i Hi'. by rewrite lookup_alter_ne, lookup_insert_ne by congruence.
  - intros h. rewrite lookup_insert_eq, lookup_alter_eq, lookup_alter_ne, Hn by congruence. cbn [fmap option_fmap option_map].
    split.
    + intros [= <-]. eexists. split; [reflexivity|]. split; [split; [done|cbn; congruence]|]. unfold hold_of_client. cbn. by rewrite Hs, Hi.
    + intros (o' & [= <-] & _ & <-). unfold hold_of_client. cbn. by rewrite Hs, Hi.
Qed.

Lemma leg_reports om m ev leg : mirror a om m -> leg_heard om m leg ->
  mirror a (foldl react om (filter (fun r => r.1.1 = a) [trade_report ev leg]).*2) (leg_holds m leg).
Proof.
  intros Hm Hh. destruct (decide (tcp_account_id leg = a)) as [Ha|Ha].
  - rewrite filter_cons_True by done. cbn. by apply leg_mirror.
  - rewrite filter_cons_False by done. cbn. by apply other_leg.
Qed.
Lemma traded_mirror om m ev : mirror a om m -> event_fits m (EvTradeExecuted ev) -> event_heard om m (EvTradeExecuted ev) ->
  mirror a (foldl react om (reports_to a [EvTradeExecuted ev])) (holds_apply m (EvTradeExecuted ev)).
Proof.
  intros Hm (_ & _ & Hne & _) [Hb Hs]. rewrite reports_one. cbn [to_execution_reports holds_apply].
  change [trade_report ev (te_buyer ev); trade_report ev (te_seller ev)]
    with ([trade_report ev (te_buyer ev)] ++ [trade_report ev (te_seller ev)]).
  rewrite filter_app, fmap_app, foldl_app. apply leg_reports; [by apply leg_reports|].
  intros Ha. destruct (Hs Ha) as [Hh|Hn]; [left; by rewrite leg_holds_ne|right].
  intros o. destruct (decide (tcp_account_id (te_buyer ev) = a)) as [Hab|Hab].
  - rewrite filter_cons_True by done. cbn. rewrite lookup_alter_ne; [apply Hn|].
    intros He. apply Hne. unfold leg_key. congruence.
  - rewrite filter_cons_False by done. cbn. apply Hn.
Qed.

Theorem event_mirror om m ev : mirror a om m -> event_fits m ev -> event_heard om m ev ->
  mirror a (foldl react om (reports_to a [ev])) (holds_apply m ev).
Proof.
  intros Hm Hf Hh. destruct ev as [ev|ev|ev|ev|ev|ev|ev|ev]; try exact Hm.
  - by apply accepted_mirror.
  - by apply rejected_mirror.
  - by apply cancelled_mirror.
  - by apply replaced_mirror.
  - by apply traded_mirror.
Qed.

(** ** One command *)
(** What an entry keeps for life. *)
Definition fixed (o : ClientOrder) : InstrumentId * Side * TimeInForce := (co_instrument o, co_side o, co_time_in_force o).
Lemma alter_fixed (f : ClientOrder -> ClientOrder) om i id : (forall o, fixed (f o) = fixed o) ->
  fixed <$> alter f i om !! id = fixed <$> om !! id.
Proof. intros Hf. rewrite lookup_alter. case_decide; [subst; destruct (om !! _); cbn; by rewrite ?Hf|done]. Qed.
Lemma react_fixed om message id : fixed <$> react om message !! id = fixed <$> om !! id.
Proof. destruct message; cbn [react]; rewrite ?alter_fixed; done. Qed.
Lemma reacts_fixed messages : forall om id, fixed <$> foldl react om messages !! id = fixed <$> om !! id.
Proof. induction messages as [|msg messages IH]; intros om id; [done|]. cbn. by rewrite IH, react_fixed. Qed.
Lemma fixed_tif om om' id o : fixed <$> om' !! id = fixed <$> om !! id -> om' !! id = Some o ->
  exists o0, om !! id = Some o0 /\ fixed o0 = fixed o.
Proof. intros He Ho. rewrite Ho in He. destruct (om !! id) as [o0|]; [|done]. apply (inj Some) in He. by exists o0. Qed.

Definition never_rests om (k : HoldKey) : Prop := k.1 = a -> forall o, om !! k.2 = Some o -> co_time_in_force o <> GTC.
Lemma never_rests_reacts om k messages : never_rests om k -> never_rests (foldl react om messages) k.
Proof.
  intros Hn Hk o Ho. destruct (fixed_tif _ _ _ _ (reacts_fixed messages om k.2) Ho) as (o0 & Ho0 & Hf).
  injection Hf as _ _ <-. by apply (Hn Hk).
Qed.

Lemma fill_heard om m k ev : event_fits m ev -> is_fill k ev ->
  (match ev with EvTradeExecuted _ => is_Some (m !! k) | _ => True end) \/ never_rests om k -> event_heard om m ev.
Proof.
  intros Hf Hk Hown. destruct ev as [ev|ev|ev|ev|ev|ev|ev|ev]; try done. destruct Hf as (_ & _ & _ & Hr).
  assert (Ha : leg_heard om m (aggressor_leg ev)).
  { intros Ha. cbn in Hk. rewrite Hk. destruct Hown as [Ho|Hn]; [by left|right]. subst k. apply (Hn Ha). }
  assert (Hl : leg_heard om m (resting_leg ev)) by (intros _; by left).
  unfold aggressor_leg, resting_leg in *. cbn. by destruct (te_aggressor_side ev).
Qed.
Lemma fills_mirror k evs : forall om m, mirror a om m -> stream_fits m evs -> Forall (is_fill k) evs ->
  own_held k m evs \/ never_rests om k -> mirror a (foldl react om (reports_to a evs)) (foldl holds_apply m evs).
Proof.
  induction evs as [|ev evs IH]; intros om m Hm Hf Hk Hown; [done|]. destruct Hf as [Hf1 Hf2].
  apply Forall_cons in Hk as [Hk1 Hk2]. rewrite reports_cons, foldl_app. cbn [foldl].
  apply IH; [|done|done|].
  - apply event_mirror; [done|done|]. eapply fill_heard; [done|done|].
    destruct Hown as [[Ho _]|Hn]; [by left|by right].
  - destruct Hown as [[_ Ho]|Hn]; [by left|right]. by apply never_rests_reacts.
Qed.

(** What the order management system holds when its request is processed. *)
Definition requested om (c : ExchangeCommand) : Prop :=
  match c with
  | CmdNewOrder c => exists o, om !! noc_client_order_id c = Some o /\ co_instrument o = noc_instrument_id c /\
      co_side o = noc_side c /\ co_price o = noc_price c /\ co_time_in_force o = noc_time_in_force c
  | CmdCancelOrder _ => True
  | CmdReplaceOrder c => roc_new_client_order_id c <> roc_original_client_order_id c /\
      exists o n, om !! roc_original_client_order_id c = Some o /\ om !! roc_new_client_order_id c = Some n /\
        co_side n = co_side o /\ co_time_in_force n = co_time_in_force o /\ co_instrument n = roc_instrument_id c
  end.

Lemma carries_out_heard om m c ev : (command_account c = a -> requested om c) -> carries_out c ev -> event_heard om m ev.
Proof.
  intros Hreq Hc. destruct c as [c|c|c], ev as [ev|ev|ev|ev|ev|ev|ev|ev]; try contradiction; cbn in *; try done.
  - destruct Hc as (-> & -> & -> & -> & -> & _ & ->). intros Ha. destruct (Hreq Ha) as (o & ? & ? & ? & ? & ?). by exists o.
  - destruct Hc as (-> & -> & -> & -> & _). intros Ha. destruct (Hreq Ha) as (? & o & n & ? & ? & ? & ? & ?).
    split; [done|]. by exists o, n.
Qed.

Theorem answered_mirror om m c evs : mirror a om m -> answered m c evs -> (command_account c = a -> requested om c) ->
  mirror a (foldl react om (reports_to a evs)) (foldl holds_apply m evs).
Proof.
  intros Hm [Hfit [(ev & -> & Href)|(ev & rest & -> & Hc & Hrest & Hown)]] Hreq.
  - cbn [foldl]. apply event_mirror; [done|apply Hfit|by destruct ev].
  - destruct Hfit as [Hf1 Hf2]. rewrite reports_cons, foldl_app. cbn [foldl].
    apply (fills_mirror (command_account c, result_id c)); [|done|done|].
    + apply event_mirror; [done|done|]. by eapply carries_out_heard.
    + assert (Hdec : may_rest c \/ ~ may_rest c).
      { destruct c as [c| |]; cbn; [|by left|by left]. destruct (noc_time_in_force c); [by left|by right|by right]. }
      destruct Hdec as [Hmay|Hmay]; [left; by apply Hown|right]. apply never_rests_reacts. intros Ha o Ho.
      destruct c as [c| |]; cbn in *; try (by destruct Hmay).
      destruct (Hreq Ha) as (o' & Ho' & _ & _ & _ & Ht). congruence.
Qed.
End Events.
