(* ===== verification/OmsDesk.v ===== *)
(** * Reports that leave an order alone

    Which orders a stream of reports can touch ([answered_quiet]), and that
    an order's pending cancel or replace makes no difference to what the
    reports do to it ([same]). *)
From S2P Require Import Prelude Types Pipeline TickLadder SideIndex PriceQueues MatchingBook BookSpec MatchingEngine EngineSpec EngineProcess EngineFacts MapSums Ledger LedgerSpec LedgerSim LedgerSolvent LedgerMatch Risk Venue OrderEntryCodec GatewayReports Oms OmsMirror.

Implicit Types (om : gmap ClientOrderId ClientOrder) (m : gmap HoldKey Hold).

Definition message_ids (message : OrderEntry.Message) : list ClientOrderId :=
  match message with
  | OrderEntry.MsgAccepted ev => [OrderEntry.ac_client_order_id ev]
  | OrderEntry.MsgRejected ev => [OrderEntry.rj_client_order_id ev]
  | OrderEntry.MsgCancelled ev => [OrderEntry.cn_client_order_id ev]
  | OrderEntry.MsgReplaced ev => [OrderEntry.rp_original_client_order_id ev; OrderEntry.rp_new_client_order_id ev]
  | OrderEntry.MsgTradeReport ev => [OrderEntry.tr_client_order_id ev]
  | _ => []
  end.
Definition quiet (z : ClientOrderId) (message : OrderEntry.Message) : Prop := z ∉ message_ids message.

Lemma react_quiet om message z : quiet z message -> react om message !! z = om !! z.
Proof.
  unfold quiet. destruct message; cbn [message_ids react]; rewrite ?not_elem_of_cons; intros H; destruct_and?;
    rewrite ?lookup_alter_ne by congruence; done.
Qed.
Lemma reacts_quiet messages z : forall om, Forall (quiet z) messages -> foldl react om messages !! z = om !! z.
Proof.
  induction messages as [|msg messages IH]; intros om H; [done|]. apply Forall_cons in H as [H1 H2].
  cbn. by rewrite IH, react_quiet.
Qed.
Lemma react_insert om message z o : quiet z message -> react (<[z := o]> om) message = <[z := o]> (react om message).
Proof.
  intros H. apply map_eq. intros i. destruct (decide (i = z)) as [->|Hne].
  - by rewrite react_quiet, !lookup_insert_eq.
  - rewrite lookup_insert_ne by congruence. destruct message; cbn [react]; rewrite ?lookup_alter; repeat case_decide; subst;
      rewrite ?lookup_insert_ne by congruence; done.
Qed.
Lemma reacts_insert messages z o : forall om, Forall (quiet z) messages ->
  foldl react (<[z := o]> om) messages = <[z := o]> (foldl react om messages).
Proof.
  induction messages as [|msg messages IH]; intros om H; [done|]. apply Forall_cons in H as [H1 H2].
  cbn. by rewrite react_insert, IH.
Qed.

(** ** Orders a command's reports do not mention *)
Section Quiet.
Context (a : AccountId) (z : ClientOrderId).

Lemma one_quiet (k : OrderKey) message : (k.1 = a -> quiet z message) ->
  Forall (quiet z) (filter (fun r : OrderKey * OrderEntry.Message => r.1.1 = a) [(k, message)]).*2.
Proof.
  intros H. destruct (decide (k.1 = a)) as [Ha|Ha]; [|by rewrite filter_cons_False].
  rewrite filter_cons_True by done. cbn. constructor; [by apply H|constructor].
Qed.
Lemma trade_quiet m k ev : event_fits m (EvTradeExecuted ev) -> is_fill k (EvTradeExecuted ev) -> k <> (a, z) ->
  m !! (a, z) = None -> Forall (quiet z) (reports_to a [EvTradeExecuted ev]) /\ holds_apply m (EvTradeExecuted ev) !! (a, z) = None.
Proof.
  intros (_ & _ & _ & Hr) Hk Hne Hz.
  assert (Hleg : forall leg, leg_key leg <> (a, z) -> Forall (quiet z) (filter (fun r => r.1.1 = a) [trade_report ev leg]).*2).
  { intros leg Hl. apply one_quiet. cbn. intros Ha. unfold quiet. cbn. rewrite list_elem_of_singleton.
    intros ->. apply Hl. unfold leg_key. by rewrite Ha. }
  assert (Ha : leg_key (aggressor_leg ev) <> (a, z)) by (cbn in Hk; congruence).
  assert (Hrl : leg_key (resting_leg ev) <> (a, z)) by (intros He; rewrite He, Hz in Hr; by destruct Hr).
  assert (Hboth : leg_key (te_buyer ev) <> (a, z) /\ leg_key (te_seller ev) <> (a, z)).
  { unfold aggressor_leg, resting_leg in *. by destruct (te_aggressor_side ev). }
  destruct Hboth as [Hb Hs]. split.
  - rewrite reports_one. cbn [to_execution_reports].
    change [trade_report ev (te_buyer ev); trade_report ev (te_seller ev)]
      with ([trade_report ev (te_buyer ev)] ++ [trade_report ev (te_seller ev)]).
    rewrite filter_app, fmap_app. apply Forall_app. split; by apply Hleg.
  - cbn [holds_apply]. by rewrite !leg_holds_ne.
Qed.
Lemma fills_quiet k evs : forall m, stream_fits m evs -> Forall (is_fill k) evs -> k <> (a, z) -> m !! (a, z) = None ->
  Forall (quiet z) (reports_to a evs).
Proof.
  induction evs as [|ev evs IH]; intros m Hf Hk Hne Hz; [constructor|]. destruct Hf as [Hf1 Hf2].
  apply Forall_cons in Hk as [Hk1 Hk2]. rewrite reports_cons. apply Forall_app.
  destruct ev as [ev|ev|ev|ev|ev|ev|ev|ev]; try contradiction; try (split; [constructor|by apply (IH m)]).
  destruct (trade_quiet m k ev Hf1 Hk1 Hne Hz) as [H1 H2]. split; [exact H1|]. by eapply IH.
Qed.

(** The first event names the command's orders only. *)
Lemma first_quiet c ev : carries_out c ev \/ refuses c ev ->
  (command_account c = a -> z <> target_id c /\ z <> result_id c) -> Forall (quiet z) (reports_to a [ev]).
Proof.
  intros Hc Hz. rewrite reports_one.
  destruct c as [c|c|c], ev as [ev|ev|ev|ev|ev|ev|ev|ev]; try (by destruct Hc); (destruct Hc as [Hc|Hc]; try contradiction);
    cbn in Hc, Hz; cbn [to_execution_reports]; apply one_quiet; cbn; intros Ha; destruct_and?;
    (destruct Hz as [Hz1 Hz2]; [congruence|]); unfold quiet; cbn; rewrite ?not_elem_of_cons;
    repeat split; try congruence; apply not_elem_of_nil.
Qed.

Theorem answered_quiet m c evs : answered m c evs -> (command_account c = a -> z <> target_id c /\ z <> result_id c) ->
  m !! (a, z) = None -> Forall (quiet z) (reports_to a evs).
Proof.
  intros [Hfit [(ev & -> & Href)|(ev & rest & -> & Hc & Hrest & _)]] Hz Hm.
  - apply (first_quiet c); [by right|done].
  - destruct Hfit as [Hf1 Hf2]. rewrite reports_cons. apply Forall_app. split; [apply (first_quiet c); [by left|done]|].
    assert (Hne : (command_account c, result_id c) <> (a, z)) by (intros [= Ha He]; destruct (Hz Ha); congruence).
    apply (fills_quiet _ _ _ Hf2 Hrest Hne).
    destruct c as [c|c|c], ev as [ev|ev|ev|ev|ev|ev|ev|ev]; try contradiction; cbn in Hc |- *; destruct_and?.
    + destruct (negb _); [done|]. unfold open_entry. destruct (_ =? 0); [done|]. rewrite lookup_insert_ne; [done|]. cbn in Hne. congruence.
    + by apply lookup_delete_None; right.
    + destruct (m !! (orp_account_id ev, _)) as [h|]; [|exact Hm]. unfold open_entry. cbn in Hne. destruct (_ =? 0); rewrite ?lookup_insert_ne by congruence;
        by apply lookup_delete_None; right.
Qed.
End Quiet.

(** ** Pending actions do not matter *)
Definition same om1 om2 : Prop := forall id, flip with_pending NoAction <$> om1 !! id = flip with_pending NoAction <$> om2 !! id.
Definition same_order (o1 o2 : ClientOrder) : Prop := with_pending o1 NoAction = with_pending o2 NoAction.

Lemma same_orders o1 o2 : same_order o1 o2 -> co_instrument o1 = co_instrument o2 /\ co_side o1 = co_side o2 /\
  co_price o1 = co_price o2 /\ co_remaining_quantity o1 = co_remaining_quantity o2 /\
  co_time_in_force o1 = co_time_in_force o2 /\ co_state o1 = co_state o2.
Proof. intros H. by injection H. Qed.
Lemma same_lookup om1 om2 id o1 : same om1 om2 -> om1 !! id = Some o1 -> exists o2, om2 !! id = Some o2 /\ same_order o1 o2.
Proof.
  intros H H1. specialize (H id). rewrite H1 in H. destruct (om2 !! id) as [o2|]; [|done].
  apply (inj Some) in H. by exists o2.
Qed.
#[export] Instance same_equivalence : Equivalence same.
Proof.
  split; [by intros om id|intros om1 om2 H id; by rewrite H|intros om1 om2 om3 H1 H2 id; by rewrite H1, H2].
Qed.
Lemma alter_same (f : ClientOrder -> ClientOrder) om1 om2 i : (forall o1 o2, same_order o1 o2 -> same_order (f o1) (f o2)) ->
  same om1 om2 -> same (alter f i om1) (alter f i om2).
Proof.
  intros Hf H id. rewrite !lookup_alter. case_decide; [|apply H]. subst. specialize (H id).
  destruct (om1 !! id) as [o1|], (om2 !! id) as [o2|]; cbn in H |- *; try done. apply (inj Some) in H. f_equal. by apply Hf.
Qed.
#[export] Instance react_same : Proper (same ==> eq ==> same) react.
Proof.
  intros om1 om2 H message ? <-. destruct message as [ev|ev|ev|ev|ev|ev|ev|ev]; cbn [react]; try exact H;
    repeat apply alter_same; try exact H; intros o1 o2 Ho; destruct o1, o2; unfold same_order, with_pending, with_state in *;
    repeat match goal with t : OrderType |- _ => destruct t end; cbn in Ho; injection Ho; intros; subst; reflexivity.
Qed.
Lemma reacts_same messages : forall om1 om2, same om1 om2 -> same (foldl react om1 messages) (foldl react om2 messages).
Proof. induction messages as [|msg messages IH]; intros om1 om2 H; [done|]. cbn. apply IH. by rewrite H. Qed.

Lemma mirror_same a om1 om2 m : same om1 om2 -> mirror a om1 m -> mirror a om2 m.
Proof.
  intros Hs Hm id h. rewrite (Hm id h). split; intros (o & Ho & [Hl Ht] & <-).
  - destruct (same_lookup _ _ _ _ Hs Ho) as (o2 & Ho2 & E). destruct (same_orders _ _ E) as (E1 & E2 & E3 & E4 & E5 & E6).
    exists o2. split; [done|]. unfold working, hold_of_client. by rewrite <- E1, <- E2, <- E3, <- E4, <- E5, <- E6.
  - symmetry in Hs. destruct (same_lookup _ _ _ _ Hs Ho) as (o2 & Ho2 & E). destruct (same_orders _ _ E) as (E1 & E2 & E3 & E4 & E5 & E6).
    exists o2. split; [done|]. unfold working, hold_of_client. by rewrite <- E1, <- E2, <- E3, <- E4, <- E5, <- E6.
Qed.

(** Once answered, an order is never pending again. *)
Lemma react_answered om message id o : om !! id = Some o -> co_state o <> PendingNew ->
  exists o', react om message !! id = Some o' /\ co_state o' <> PendingNew.
Proof.
  intros Ho Hs. assert (Halter : forall f i om o, om !! id = Some o -> co_state o <> PendingNew ->
    (forall o, co_state o <> PendingNew -> co_state (f o) <> PendingNew) ->
    exists o', alter f i om !! id = Some o' /\ co_state o' <> PendingNew).
  { intros f i om0 o0 Ho0 Hs0 Hf. rewrite lookup_alter. case_decide as Hd; [rewrite Hd, Ho0; exists (f o0); split; [done|by apply Hf]|rewrite Ho0; by exists o0]. }
  destruct message as [ev|ev|ev|ev|ev|ev|ev|ev]; cbn [react]; try (by exists o); try (apply (Halter _ _ _ o); [done|done|]).
  - done.
  - intros o' H. cbn. by destruct (bool_decide _).
  - done.
  - destruct (Halter supersede_entry (OrderEntry.rp_original_client_order_id ev) om o Ho Hs ltac:(done)) as (o1 & H1 & H2).
    by apply (Halter _ _ _ o1).
  - intros o' H. unfold trade_entry. cbn. by destruct (_ =? 0).
Qed.
Lemma reacts_answered messages id : forall om o, om !! id = Some o -> co_state o <> PendingNew ->
  exists o', foldl react om messages !! id = Some o' /\ co_state o' <> PendingNew.
Proof.
  induction messages as [|msg messages IH]; intros om o Ho Hs; [by exists o|].
  destruct (react_answered om msg id o Ho Hs) as (o' & Ho' & Hs'). cbn. by apply (IH _ o').
Qed.

(** ** A desk and its exchange

    One account's order management system connected to the venue by two
    queues of messages, requests on their way up and reports on their way
    down, with everyone else's commands in between: what is sent arrives in
    order or, when the gateway cannot queue it, not at all.  [desk_mirror]
    is the agreement that survives every step. *)

Inductive Request :=
| RqSubmit (instrument_id : InstrumentId) (side : Side) (price : Price) (quantity : Quantity)
    (order_type : OrderType) (time_in_force : TimeInForce)
| RqCancel (client_order_id : ClientOrderId)
| RqReplace (client_order_id : ClientOrderId) (new_price : Price) (new_quantity : Quantity).
Definition request (oms : OrderManagementSystem) (sent : bool) (r : Request) : OrderManagementSystem * list OmsOutput :=
  match r with
  | RqSubmit i s p q ty tif => (submit_new_order oms sent i s p q ty tif).1
  | RqCancel id => (cancel_order oms sent id).1
  | RqReplace id p q => (replace_order oms sent id p q).1
  end.
(** The messages that go out: a failed send delivers none. *)
Definition sent_messages (sent : bool) (out : list OmsOutput) : list OrderEntry.Message :=
  if sent then omap (fun o => match o with OutSend m => Some m | _ => None end) out else [].

Record Desk := {
  dk_oms : OrderManagementSystem;
  dk_up : list OrderEntry.Message;
  dk_engine : MatchingEngine MatchingBook;
  dk_ledger : Ledger;
  dk_down : list OrderEntry.Message;
}.

(** [desk_reach ... a d cash units]: [d] is reached by account [a]'s desk. *)
Inductive desk_reach (universe : list InstrumentId) (expected : Z) (limits : RiskLimits) (a : AccountId)
    : Desk -> Z -> Z -> Prop :=
| dr_new : desk_reach universe expected limits a
    {| dk_oms := OrderManagementSystem_new a; dk_up := []; dk_engine := MatchingEngine_new universe expected;
       dk_ledger := Ledger_new; dk_down := [] |} 0 0
| dr_request oms up e lg down cash units sent r oms' out :
    desk_reach universe expected limits a {| dk_oms := oms; dk_up := up; dk_engine := e; dk_ledger := lg; dk_down := down |} cash units ->
    oms_next_client_order_id oms < two64 - 1 -> request oms sent r = (oms', out) ->
    desk_reach universe expected limits a
      {| dk_oms := oms'; dk_up := up ++ sent_messages sent out; dk_engine := e; dk_ledger := lg; dk_down := down |} cash units
| dr_exchange oms message up e lg down cash units cmd n e' lg' evs :
    desk_reach universe expected limits a
      {| dk_oms := oms; dk_up := message :: up; dk_engine := e; dk_ledger := lg; dk_down := down |} cash units ->
    to_command message = Some cmd -> act_ok e cash units (Submit (set_command_sequence n cmd)) ->
    act limits e lg (Submit (set_command_sequence n cmd)) = Some (e', lg', evs) ->
    desk_reach universe expected limits a
      {| dk_oms := oms; dk_up := up; dk_engine := e'; dk_ledger := lg'; dk_down := down ++ reports_to a evs |} cash units
| dr_lost oms message up e lg down cash units :
    desk_reach universe expected limits a
      {| dk_oms := oms; dk_up := message :: up; dk_engine := e; dk_ledger := lg; dk_down := down |} cash units ->
    desk_reach universe expected limits a
      {| dk_oms := oms; dk_up := up; dk_engine := e; dk_ledger := lg; dk_down := down |} cash units
| dr_other oms up e lg down cash units act_by e' lg' evs :
    desk_reach universe expected limits a {| dk_oms := oms; dk_up := up; dk_engine := e; dk_ledger := lg; dk_down := down |} cash units ->
    act_ok e cash units act_by -> (forall c, act_by = Submit c -> command_account c <> a) ->
    act limits e lg act_by = Some (e', lg', evs) ->
    desk_reach universe expected limits a
      {| dk_oms := oms; dk_up := up; dk_engine := e'; dk_ledger := lg'; dk_down := down ++ reports_to a evs |}
      (cash + cash_in act_by) (units + units_in act_by)
| dr_handle oms up e lg message down cash units :
    desk_reach universe expected limits a
      {| dk_oms := oms; dk_up := up; dk_engine := e; dk_ledger := lg; dk_down := message :: down |} cash units ->
    desk_reach universe expected limits a
      {| dk_oms := (handle_message oms message).1; dk_up := up; dk_engine := e; dk_ledger := lg; dk_down := down |} cash units.


(** ** Requests on their way up *)
Definition pending_entry om (id : ClientOrderId) (o : ClientOrder) : Prop := om !! id = Some o /\ co_state o = PendingNew.
Definition up_ok (a : AccountId) om (message : OrderEntry.Message) : Prop :=
  match message with
  | OrderEntry.MsgNewOrder msg => OrderEntry.no_account_id msg = a /\
      exists o, pending_entry om (OrderEntry.no_client_order_id msg) o /\ co_price o = OrderEntry.no_price msg /\
        fixed o = (OrderEntry.no_instrument_id msg, OrderEntry.no_side msg, OrderEntry.no_time_in_force msg)
  | OrderEntry.MsgCancelOrder msg => OrderEntry.co_account_id msg = a /\
      exists o, om !! OrderEntry.co_client_order_id msg = Some o /\ co_state o <> PendingNew
  | OrderEntry.MsgReplaceOrder msg => OrderEntry.ro_account_id msg = a /\
      exists o n, om !! OrderEntry.ro_original_client_order_id msg = Some o /\ co_state o <> PendingNew /\
        pending_entry om (OrderEntry.ro_new_client_order_id msg) n /\ fixed n = fixed o /\
        co_instrument n = OrderEntry.ro_instrument_id msg
  | _ => False
  end.
Definition created (message : OrderEntry.Message) : list ClientOrderId :=
  match message with
  | OrderEntry.MsgNewOrder msg => [OrderEntry.no_client_order_id msg]
  | OrderEntry.MsgReplaceOrder msg => [OrderEntry.ro_new_client_order_id msg]
  | _ => []
  end.

(** The orders once every report on its way has been handled. *)
Definition caught_up (oms : OrderManagementSystem) (down : list OrderEntry.Message) : gmap ClientOrderId ClientOrder :=
  foldl react (oms_orders oms) down.

Record desk_ok (a : AccountId) (oms : OrderManagementSystem) (up : list OrderEntry.Message) m (down : list OrderEntry.Message) : Prop := {
  do_account : oms_account_id oms = a;
  do_ids : forall id, is_Some (oms_orders oms !! id) -> id < oms_next_client_order_id oms;
  do_next : 0 < oms_next_client_order_id oms < two64;
  do_quiet : forall z, oms_next_client_order_id oms <= z -> Forall (quiet z) down;
  do_up : Forall (up_ok a (caught_up oms down)) up;
  do_created : NoDup (mjoin (created <$> up));
  do_mirror : mirror a (caught_up oms down) m;
}.

Lemma caught_up_dom oms down id : is_Some (caught_up oms down !! id) <-> is_Some (oms_orders oms !! id).
Proof. unfold caught_up. rewrite <- !(fmap_is_Some fixed), reacts_fixed. done. Qed.
Lemma fresh_none a oms up m down z : desk_ok a oms up m down -> oms_next_client_order_id oms <= z ->
  caught_up oms down !! z = None /\ m !! (a, z) = None.
Proof.
  intros D Hz. assert (Hn : caught_up oms down !! z = None).
  { destruct (caught_up oms down !! z) as [o|] eqn:E; [|done].
    assert (Hs : is_Some (oms_orders oms !! z)) by (apply (caught_up_dom oms down); by exists o).
    pose proof (do_ids _ _ _ _ _ D z Hs). lia. }
  split; [exact Hn|]. destruct (m !! (a, z)) as [h|] eqn:E; [|done].
  destruct (mirror_held _ _ _ _ _ (do_mirror _ _ _ _ _ D) E) as (o & Ho & _). congruence.
Qed.
Lemma pending_unheld a om m id o : mirror a om m -> pending_entry om id o -> m !! (a, id) = None.
Proof.
  intros Hm [Ho Hp]. destruct (m !! (a, id)) as [h|] eqn:E; [|done].
  destruct (mirror_held _ _ _ _ _ Hm E) as (o' & Ho' & [Hl _] & _). rewrite Ho in Ho'. injection Ho' as <-. by rewrite Hp in Hl.
Qed.

(** ** Invariance under unrelated change *)
Lemma up_ok_same a om1 om2 message : same om1 om2 -> up_ok a om1 message -> up_ok a om2 message.
Proof.
  intros Hs. assert (Hl : forall id o1, om1 !! id = Some o1 -> exists o2, om2 !! id = Some o2 /\ co_state o2 = co_state o1 /\
    co_price o2 = co_price o1 /\ fixed o2 = fixed o1).
  { intros id o1 H1. destruct (same_lookup _ _ _ _ Hs H1) as (o2 & H2 & E). exists o2. split; [done|].
    destruct (same_orders _ _ E) as (E1 & E2 & E3 & _ & E5 & E6). unfold fixed. by rewrite E1, E2, E3, E5, E6. }
  destruct message as [msg|msg|msg|msg|msg|msg|msg|msg]; cbn [up_ok]; try done.
  - intros (Ha & o & [Ho Hp] & Hpr & Hf). split; [done|]. destruct (Hl _ _ Ho) as (o2 & H2 & E1 & E2 & E3).
    exists o2. unfold pending_entry. by rewrite E1, E2, E3.
  - intros (Ha & o & Ho & Hp). split; [done|]. destruct (Hl _ _ Ho) as (o2 & H2 & E1 & _). exists o2. by rewrite E1.
  - intros (Ha & o & n & Ho & Hp & [Hn Hnp] & Hf & Hi). split; [done|].
    destruct (Hl _ _ Ho) as (o2 & H2 & E1 & _ & E3). destruct (Hl _ _ Hn) as (n2 & H2' & E1' & _ & E3').
    exists o2, n2. unfold pending_entry. rewrite E1, E1', E3, E3'. split_and!; try done. injection E3' as Ei _ _. congruence.
Qed.
(** A new entry leaves the requests before it alone. *)
Lemma up_ok_insert a om z o message : om !! z = None -> up_ok a om message -> up_ok a (<[z := o]> om) message.
Proof.
  intros Hz. assert (Hl : forall id o1, om !! id = Some o1 -> <[z := o]> om !! id = Some o1).
  { intros id o1 H1. rewrite lookup_insert_ne; [done|]. congruence. }
  destruct message as [msg|msg|msg|msg|msg|msg|msg|msg]; cbn [up_ok]; try done.
  - intros (Ha & o0 & [Ho Hp] & Hrest). split; [done|]. exists o0. split; [split; [by apply Hl|done]|done].
  - intros (Ha & o0 & Ho & Hp). split; [done|]. exists o0. split; [by apply Hl|done].
  - intros (Ha & o0 & n & Ho & Hp & [Hn Hnp] & Hrest). split; [done|]. exists o0, n.
    split; [by apply Hl|]. split; [done|]. split; [split; [by apply Hl|done]|done].
Qed.
(** So do reports about other orders. *)
Lemma up_ok_reacts a om messages message : up_ok a om message ->
  (forall z, z ∈ created message -> Forall (quiet z) messages) -> up_ok a (foldl react om messages) message.
Proof.
  intros Hu Hq. assert (Hc : forall z o, z ∈ created message -> pending_entry om z o -> pending_entry (foldl react om messages) z o).
  { intros z o Hz [Ho Hp]. split; [|done]. rewrite reacts_quiet by (by apply Hq). done. }
  destruct message as [msg|msg|msg|msg|msg|msg|msg|msg]; cbn [up_ok created] in *; try done.
  - destruct Hu as (Ha & o & Ho & Hrest). split; [done|]. exists o. split; [apply Hc; [set_solver|done]|done].
  - destruct Hu as (Ha & o & Ho & Hp). split; [done|]. by apply (reacts_answered _ _ _ o).
  - destruct Hu as (Ha & o & n & Ho & Hp & Hn & Hf & Hi). split; [done|].
    destruct (reacts_answered messages _ om o Ho Hp) as (o' & Ho' & Hp'). exists o', n.
    pose proof (reacts_fixed messages om (OrderEntry.ro_original_client_order_id msg)) as Hfo. rewrite Ho', Ho in Hfo.
    apply (inj Some) in Hfo. split; [done|]. split; [done|]. split; [apply Hc; [set_solver|done]|]. split; [congruence|done].
Qed.

(** ** The desk's steps keep the mirror *)


Lemma up_created a om up z : Forall (up_ok a om) up -> z ∈ mjoin (created <$> up) -> exists o, pending_entry om z o.
Proof.
  intros Hup (ids & Hz & (msg & -> & Hmsg)%list_elem_of_fmap)%list_elem_of_join.
  rewrite Forall_forall in Hup. specialize (Hup msg Hmsg).
  destruct msg as [msg|msg|msg|msg|msg|msg|msg|msg]; cbn in Hz, Hup; try (by apply not_elem_of_nil in Hz); apply list_elem_of_singleton in Hz as ->.
  - destruct Hup as (_ & o & Ho & _). by exists o.
  - destruct Hup as (_ & o & n & _ & _ & Hn & _). by exists n.
Qed.
Lemma created_known a oms up m down z : desk_ok a oms up m down -> z ∈ mjoin (created <$> up) -> z < oms_next_client_order_id oms.
Proof.
  intros D Hz. destruct (up_created _ _ _ _ (do_up _ _ _ _ _ D) Hz) as (o & Ho & _). apply (do_ids _ _ _ _ _ D).
  apply (caught_up_dom oms down). by exists o.
Qed.

Lemma push_ok a oms up m down msg : desk_ok a oms up m down -> up_ok a (caught_up oms down) msg -> (forall y, y ∈ created msg -> y ∉ mjoin (created <$> up)) ->
  desk_ok a oms (up ++ [msg]) m down.
Proof.
  intros D Hu Hc. destruct D as [D1 D2 D3 D4 D5 D6 D7]. split; try assumption.
  - apply Forall_app. split; [exact D5|by constructor].
  - rewrite fmap_app. rewrite join_app. cbn. rewrite app_nil_r.
    apply NoDup_app. split; [exact D6|]. split; [intros y Hy Hy'; by apply (Hc y)|].
    destruct msg; cbn; try apply NoDup_nil_2; apply NoDup_singleton.
Qed.

(** ** Requests *)
Section Requests.
Context (a : AccountId) (oms : OrderManagementSystem) (up : list OrderEntry.Message) (m : gmap HoldKey Hold)
  (down : list OrderEntry.Message) (D : desk_ok a oms up m down).
Let z := oms_next_client_order_id oms.

Lemma touch_ok oms' : same (oms_orders oms) (oms_orders oms') -> oms_account_id oms' = oms_account_id oms ->
  z <= oms_next_client_order_id oms' < two64 -> desk_ok a oms' up m down.
Proof using D.
  intros Hs Ha Hn. assert (Hc : same (caught_up oms down) (caught_up oms' down)) by (by apply reacts_same).
  destruct D as [D1 D2 D3 D4 D5 D6 D7]. split.
  - congruence.
  - intros id [o Ho]. symmetry in Hs. destruct (same_lookup _ _ _ _ Hs Ho) as (o' & Ho' & _).
    assert (id < z) by (apply D2; by exists o'). lia.
  - unfold z in *. lia.
  - intros y Hy. apply D4. unfold z in *. lia.
  - apply Forall_forall. intros msg Hmsg. rewrite Forall_forall in D5. eapply up_ok_same; [exact Hc|by apply D5].
  - exact D6.
  - by eapply mirror_same.
Qed.

Lemma add_entry_ok o : z < two64 - 1 -> is_live (co_state o) = false ->
  desk_ok a (with_orders (take_id oms).2 (<[z := o]> (oms_orders oms))) up m down.
Proof using D.
  intros Hlt Hlive. destruct (fresh_none _ _ _ _ _ z D ltac:(unfold z; lia)) as [Hfresh Hheld].
  pose proof D as [D1 D2 D3 D4 D5 D6 D7].
  assert (Hc : caught_up (with_orders (take_id oms).2 (<[z := o]> (oms_orders oms))) down = <[z := o]> (caught_up oms down)).
  { unfold caught_up. cbn. apply reacts_insert, D4. unfold z. lia. }
  set (oms1 := with_orders _ _) in *. assert (Hn : oms_next_client_order_id oms1 = z + 1).
  { cbn. apply u64_small. unfold z in *. lia. }
  assert (Ho1 : oms_orders oms1 = <[z := o]> (oms_orders oms)) by done.
  split; rewrite ?Hc, ?Hn, ?Ho1.
  - exact D1.
  - intros id [o' Ho']. destruct (decide (id = z)) as [->|Hne]; [unfold z; lia|].
    rewrite lookup_insert_ne in Ho' by congruence. assert (id < z) by (apply D2; by exists o'). unfold z in *. lia.
  - unfold z in *. lia.
  - intros y Hy. apply D4. unfold z in *. lia.
  - apply Forall_forall. intros msg Hmsg. rewrite Forall_forall in D5. by apply up_ok_insert; [|apply D5].
  - exact D6.
  - apply (mirror_update _ (caught_up oms down) m _ _ z D7).
    + intros i Hne. rewrite lookup_insert_ne by congruence. done.
    + intros h. rewrite Hheld, lookup_insert_eq. split; [done|]. intros (o' & [= <-] & [Hl _] & _). congruence.
Qed.

Lemma fresh_id_here : oms_orders oms !! z = None.
Proof using D.
  destruct (oms_orders oms !! z) as [o|] eqn:E; [|done]. assert (z < z); [|lia].
  apply (do_ids _ _ _ _ _ D). by exists o.
Qed.
Lemma emplace_fresh o : emplace (take_id oms).2 z o = with_orders (take_id oms).2 (<[z := o]> (oms_orders oms)).
Proof using D. unfold emplace. cbn [take_id snd oms_orders]. by rewrite fresh_id_here. Qed.
Lemma caught_up_add o : caught_up (with_orders (take_id oms).2 (<[z := o]> (oms_orders oms))) down = <[z := o]> (caught_up oms down).
Proof using D. unfold caught_up. cbn. apply reacts_insert, (do_quiet _ _ _ _ _ D). unfold z. lia. Qed.

Lemma submit_ok sent i s p q ty tif : z < two64 - 1 ->
  let r := submit_new_order oms sent i s p q ty tif in desk_ok a r.1.1 (up ++ sent_messages sent r.1.2) m down.
Proof using D.
  intros Hlt. unfold submit_new_order. change (take_id oms) with (z, (take_id oms).2). cbv beta iota zeta. rewrite emplace_fresh.
  set (o := fresh_order _ _ _ _ _ _ _ _). destruct sent; cbn [fst snd].
  - apply push_ok; [by apply (add_entry_ok o)| |].
    + rewrite caught_up_add. cbn. split; [apply D|]. exists o. unfold pending_entry. by rewrite lookup_insert_eq.
    + cbn. intros y ->%list_elem_of_singleton Hy. pose proof (created_known _ _ _ _ _ _ D Hy). unfold z in *. lia.
  - unfold mark_send_failed. cbn [with_orders oms_orders]. rewrite lookup_insert_eq. cbn [fst snd sent_messages]. rewrite app_nil_r.
    unfold store. cbn [with_orders oms_orders oms_account_id oms_next_client_order_id]. rewrite insert_insert_eq.
    exact (add_entry_ok (with_state o Rejected NoAction RejectReason.InternalError) Hlt eq_refl).
Qed.

Lemma workable_spec id o : workable oms id = Some o -> oms_orders oms !! id = Some o /\ is_live (co_state o) = true.
Proof.
  unfold workable. destruct (oms_orders oms !! id) as [o'|]; [|done].
  destruct (is_live (co_state o')) eqn:Hl; cbn [negb orb]; [|done]. destruct (bool_decide _); cbn; [|done]. by intros [= <-].
Qed.
Lemma pending_same om id o p : om !! id = Some o -> same om (<[id := with_pending o p]> om).
Proof.
  intros Ho i. destruct (decide (i = id)) as [->|Hne]; [by rewrite Ho, lookup_insert_eq|by rewrite lookup_insert_ne by congruence].
Qed.
(** A live order, with its reports in flight handled. *)
Lemma live_caught_up id o : oms_orders oms !! id = Some o -> is_live (co_state o) = true ->
  exists o', caught_up oms down !! id = Some o' /\ co_state o' <> PendingNew /\ fixed o' = fixed o.
Proof.
  intros Ho Hl. destruct (reacts_answered down id _ o Ho) as (o' & Ho' & Hp); [by destruct (co_state o)|].
  exists o'. split; [done|]. split; [done|]. pose proof (reacts_fixed down (oms_orders oms) id) as Hf.
  unfold caught_up in *. rewrite Ho', Ho in Hf. by apply (inj Some) in Hf.
Qed.

Lemma cancel_request_ok sent id :
  let r := cancel_order oms sent id in desk_ok a r.1.1 (up ++ sent_messages sent r.1.2) m down.
Proof using D.
  unfold cancel_order. destruct (workable oms id) as [o|] eqn:Hw.
  2: { cbn. destruct sent; cbn; rewrite app_nil_r; exact D. }
  destruct (workable_spec _ _ Hw) as [Ho Hl]. pose proof (do_next _ _ _ _ _ D) as Hn.
  assert (D1 : desk_ok a (store oms id (with_pending o ActionCancel)) up m down).
  { apply touch_ok; [by apply pending_same|done|unfold z; cbn; lia]. }
  destruct sent; cbn [fst snd sent_messages omap list_omap].
  - apply push_ok; [exact D1| |by intros y ?%not_elem_of_nil].
    cbn. split; [apply D|]. destruct (live_caught_up id o Ho Hl) as (o' & Ho' & Hp & _).
    assert (Hs : same (caught_up oms down) (caught_up (store oms id (with_pending o ActionCancel)) down)).
    { apply reacts_same. by apply pending_same. }
    destruct (same_lookup _ _ _ _ Hs Ho') as (o2 & Ho2 & E). destruct (same_orders _ _ E) as (_ & _ & _ & _ & _ & Est).
    exists o2. split; [exact Ho2|]. congruence.
  - rewrite app_nil_r. unfold clear_pending_action. cbn [store with_orders oms_orders]. rewrite lookup_insert_eq.
    apply touch_ok; [|done|unfold z; cbn; lia]. unfold store. cbn. rewrite insert_insert_eq.
    exact (pending_same _ _ o NoAction Ho).
Qed.
End Requests.

Lemma replace_request_ok a oms up m down sent id p q : desk_ok a oms up m down -> oms_next_client_order_id oms < two64 - 1 ->
  let r := replace_order oms sent id p q in desk_ok a r.1.1 (up ++ sent_messages sent r.1.2) m down.
Proof.
  intros D Hlt. unfold replace_order. destruct (workable oms id) as [o|] eqn:Hw.
  2: { cbn. destruct sent; cbn; rewrite app_nil_r; exact D. }
  destruct (workable_spec _ _ _ Hw) as [Ho Hl]. pose proof (do_next _ _ _ _ _ D) as Hn.
  set (oms1 := store oms id (with_pending o ActionReplace)). set (z := oms_next_client_order_id oms).
  assert (D1 : desk_ok a oms1 up m down).
  { apply (touch_ok _ _ _ _ _ D); [by apply pending_same|done|cbn; lia]. }
  change (take_id oms1) with (z, (take_id oms1).2). cbv beta iota zeta.
  change z with (oms_next_client_order_id oms1). rewrite (emplace_fresh _ _ _ _ _ D1). change (oms_next_client_order_id oms1) with z.
  set (n := fresh_order _ _ _ _ _ _ _ _). pose proof (add_entry_ok _ _ _ _ _ D1 n Hlt eq_refl) as D2.
  destruct sent; cbn [fst snd sent_messages omap list_omap].
  - apply push_ok; [exact D2| |].
    2: { cbn. intros y ->%list_elem_of_singleton Hy. pose proof (created_known _ _ _ _ _ _ D Hy). unfold z in *. lia. }
    change z with (oms_next_client_order_id oms1). rewrite (caught_up_add _ _ _ _ _ D1). change (oms_next_client_order_id oms1) with z.
    assert (Hz : id < z) by (apply (do_ids _ _ _ _ _ D); by exists o).
    destruct (live_caught_up oms1 down id (with_pending o ActionReplace)) as (o' & Ho' & Hp & Hf); [apply lookup_insert_eq|done|].
    cbn. split; [apply D|]. exists o', n. unfold pending_entry. rewrite lookup_insert_eq, lookup_insert_ne by lia.
    split; [exact Ho'|]. split; [exact Hp|]. split; [done|]. by rewrite Hf.
  - rewrite app_nil_r. assert (Hz : id < z) by (apply (do_ids _ _ _ _ _ D); by exists o).
    pose proof (fresh_id_here _ _ _ _ _ D) as Hfresh. unfold clear_pending_action. cbn [with_orders oms_orders].
    assert (Hdel : delete z (<[z := n]> (oms_orders oms1)) = oms_orders oms1).
    { rewrite delete_insert_eq. apply delete_id. cbn. rewrite lookup_insert_ne by lia. exact Hfresh. }
    rewrite Hdel. cbn [oms1 store with_orders oms_orders]. rewrite lookup_insert_eq.
    apply (touch_ok _ _ _ _ _ D); [|done|cbn; rewrite u64_small by lia; lia]. cbn. rewrite insert_insert_eq.
    exact (pending_same _ _ o NoAction Ho).
Qed.

Lemma request_ok a oms up m down sent r : desk_ok a oms up m down -> oms_next_client_order_id oms < two64 - 1 ->
  desk_ok a (request oms sent r).1 (up ++ sent_messages sent (request oms sent r).2) m down.
Proof.
  intros D Hlt. destruct r as [i s p q ty tif|id|id p q]; cbn [request].
  - by apply submit_ok.
  - by apply cancel_request_ok.
  - by apply replace_request_ok.
Qed.

(** ** The exchange *)
Lemma set_sequence_requests n c : command_account (set_command_sequence n c) = command_account c /\
  target_id (set_command_sequence n c) = target_id c /\ result_id (set_command_sequence n c) = result_id c.
Proof. by destruct c. Qed.
Lemma requested_sequence om n c : requested om c -> requested om (set_command_sequence n c).
Proof. by destruct c. Qed.

(** A request on top of the queue, as a command. *)
Lemma up_requested a om msg c : up_ok a om msg -> to_command msg = Some c ->
  requested om c /\ is_Some (om !! target_id c) /\ is_Some (om !! result_id c) /\
  (forall z o, pending_entry om z o -> z ∉ created msg -> z <> target_id c /\ z <> result_id c).
Proof.
  intros Hu Hc. destruct msg as [msg|msg|msg|msg|msg|msg|msg|msg]; try discriminate; injection Hc as <-; cbn in *.
  - destruct Hu as (Ha & o & [Ho Hp] & Hpr & Hf). unfold fixed in Hf. injection Hf as F1 F2 F3. split; [by exists o|].
    split; [by exists o|]. split; [by exists o|]. intros z o' Hz Hn. rewrite list_elem_of_singleton in Hn. done.
  - destruct Hu as (Ha & o & Ho & Hp). split; [done|]. split; [by exists o|]. split; [by exists o|].
    intros z o' [Hz Hz'] _. assert (z <> OrderEntry.co_client_order_id msg) by (intros ->; congruence). done.
  - destruct Hu as (Ha & o & n & Ho & Hp & [Hn Hnp] & Hf & Hi). unfold fixed in Hf. injection Hf as F1 F2 F3.
    split; [split; [intros E; congruence|exists o, n; split_and!; congruence]|].
    split; [by exists o|]. split; [by exists n|]. intros z o' [Hz Hz'] Hc. rewrite list_elem_of_singleton in Hc.
    split; [intros ->; congruence|done].
Qed.

(** Reports of an answered command join the queue on its way down. *)
Lemma reports_ok a oms up m down c evs : desk_ok a oms up m down -> answered m c evs ->
  (command_account c = a -> requested (caught_up oms down) c /\ is_Some (caught_up oms down !! target_id c) /\
     is_Some (caught_up oms down !! result_id c) /\
     forall z, z ∈ mjoin (created <$> up) -> z <> target_id c /\ z <> result_id c) ->
  desk_ok a oms up (foldl holds_apply m evs) (down ++ reports_to a evs).
Proof.
  intros D Hans Hreq. pose proof D as [D1 D2 D3 D4 D5 D6 D7].
  assert (Hc : caught_up oms (down ++ reports_to a evs) = foldl react (caught_up oms down) (reports_to a evs)).
  { unfold caught_up. apply foldl_app. }
  split; rewrite ?Hc; try assumption.
  - intros z Hz. apply Forall_app. split; [by apply D4|]. destruct (fresh_none _ _ _ _ _ z D Hz) as [Hn Hm].
    apply (answered_quiet a z m c); [done| |done]. intros Ha. destruct (Hreq Ha) as (_ & [o Ho] & [o' Ho'] & _). split; congruence.
  - apply Forall_forall. intros msg Hmsg. rewrite Forall_forall in D5. apply up_ok_reacts; [by apply D5|]. intros z Hz.
    assert (Hzc : z ∈ mjoin (created <$> up)).
    { apply list_elem_of_join. exists (created msg). split; [done|]. by apply list_elem_of_fmap_2. }
    destruct (up_created _ _ _ _ (do_up _ _ _ _ _ D) Hzc) as (o & Ho).
    apply (answered_quiet a z m c); [done| |by eapply pending_unheld]. intros Ha. by apply Hreq.
  - apply (answered_mirror a _ m c); [done|done|]. intros Ha. by apply Hreq.
Qed.

Lemma exchange_ok a oms msg up m down c n evs : desk_ok a oms (msg :: up) m down -> to_command msg = Some c ->
  answered m (set_command_sequence n c) evs -> desk_ok a oms up (foldl holds_apply m evs) (down ++ reports_to a evs).
Proof.
  intros D Hc Hans. destruct (set_sequence_requests n c) as (E1 & E2 & E3). pose proof D as [D1 D2 D3 D4 D5 D6 D7].
  apply Forall_cons in D5 as [Hmsg D5]. rewrite fmap_cons in D6. change (mjoin (created msg :: (created <$> up))) with (created msg ++ mjoin (created <$> up)) in D6.
  apply NoDup_app in D6 as (_ & Hdis & D6). destruct (up_requested _ _ _ _ Hmsg Hc) as (R1 & R2 & R3 & R4).
  assert (Dup : desk_ok a oms up m down) by (by split).
  apply (reports_ok _ _ _ _ _ (set_command_sequence n c)); [exact Dup|exact Hans|]. rewrite E1, E2, E3. intros Ha.
  split; [by apply requested_sequence|]. split; [done|]. split; [done|]. intros z Hz.
  destruct (up_created _ _ _ _ D5 Hz) as (o & Ho). apply (R4 z o Ho). intros Hz'. by apply (Hdis z).
Qed.

Lemma lost_ok a oms msg up m down : desk_ok a oms (msg :: up) m down -> desk_ok a oms up m down.
Proof.
  intros [D1 D2 D3 D4 D5 D6 D7]. apply Forall_cons in D5 as [_ D5]. split; try assumption.
  rewrite fmap_cons in D6. change (mjoin (created msg :: (created <$> up))) with (created msg ++ mjoin (created <$> up)) in D6.
  by apply NoDup_app in D6 as (_ & _ & D6).
Qed.

Lemma handle_ok a oms msg up m down : desk_ok a oms up m (msg :: down) -> desk_ok a (handle_message oms msg).1 up m down.
Proof.
  intros [D1 D2 D3 D4 D5 D6 D7]. destruct (handle_account oms msg) as [Ha Hn].
  assert (Hc : caught_up (handle_message oms msg).1 down = caught_up oms (msg :: down)).
  { unfold caught_up. by rewrite handle_orders. }
  split; rewrite ?Hc, ?Ha, ?Hn; try assumption.
  - intros id Hs. apply D2. rewrite handle_orders in Hs. by rewrite <- (fmap_is_Some fixed), react_fixed, fmap_is_Some in Hs.
  - intros z Hz. specialize (D4 z Hz). by apply Forall_cons in D4 as [_ D4].
Qed.

Lemma desk_new_ok a : desk_ok a (OrderManagementSystem_new a) [] ∅ [].
Proof.
  split; try done.
  - intros id [o Ho]. cbn in Ho. by rewrite lookup_empty in Ho.
  - constructor.
  - intros id h. rewrite lookup_empty. split; [done|]. intros (o & Ho & _). cbn in Ho. by rewrite lookup_empty in Ho.
Qed.

(** ** Every reached desk *)
Theorem desk_mirror universe expected limits a d cash units : Forall (fun id => 0 <= id) universe ->
  desk_reach universe expected limits a d cash units ->
  venue_history universe expected limits (dk_engine d) (dk_ledger d) cash units /\
  desk_ok a (dk_oms d) (dk_up d) (lg_holds (dk_ledger d)) (dk_down d).
Proof.
  intros Hu. induction 1 as [|oms up e lg down cash units sent r oms' out _ [H D] Hlt Hr
    |oms message up e lg down cash units cmd n e' lg' evs _ [H D] Hc Hok Hact|oms message up e lg down cash units _ [H D]
    |oms up e lg down cash units b e' lg' evs _ [H D] Hok Hb Hact|oms up e lg message down cash units _ [H D]];
    cbn [dk_oms dk_up dk_engine dk_ledger dk_down] in *.
  - split; [constructor|apply desk_new_ok].
  - split; [exact H|]. pose proof (request_ok a oms up _ down sent r D Hlt) as Hreq. by rewrite Hr in Hreq.
  - assert (H' : venue_history universe expected limits e' lg' cash units).
    { rewrite <- (Z.add_0_r cash), <- (Z.add_0_r units).
      by apply (vh_act _ _ _ e lg cash units (Submit (set_command_sequence n cmd)) e' lg' evs H). }
    split; [exact H'|]. destruct (history_venue _ _ _ _ _ _ _ Hu H) as (st & sl & V).
    destruct Hok as (_ & _ & Hp & st' & R' & Hcmd). rewrite (refines_unique e st' st R' (vw_refines _ _ _ _ _ _ V)) in Hcmd.
    destruct (gated_answered e lg st sl cash units V limits _ _ _ _ Hcmd Hp Hact) as [Hans Hl].
    rewrite <- (tk_holds _ _ (vw_tracks _ _ _ _ _ _ V)) in Hans, Hl. rewrite Hl. by eapply exchange_ok.
  - split; [exact H|]. by eapply lost_ok.
  - assert (H' : venue_history universe expected limits e' lg' (cash + cash_in b) (units + units_in b)) by (by apply (vh_act _ _ _ e lg cash units b e' lg' evs H)).
    split; [exact H'|]. destruct b as [acc amount|acc i amount|c].
    + injection Hact as <- <- <-. unfold deposit_cash. rewrite holds_with, app_nil_r. exact D.
    + injection Hact as <- <- <-. unfold deposit_position. rewrite holds_with, app_nil_r. exact D.
    + destruct (history_venue _ _ _ _ _ _ _ Hu H) as (st & sl & V).
      destruct Hok as (_ & _ & Hp & st' & R' & Hcmd). rewrite (refines_unique e st' st R' (vw_refines _ _ _ _ _ _ V)) in Hcmd.
      destruct (gated_answered e lg st sl cash units V limits _ _ _ _ Hcmd Hp Hact) as [Hans Hl].
      rewrite <- (tk_holds _ _ (vw_tracks _ _ _ _ _ _ V)) in Hans, Hl. rewrite Hl.
      apply (reports_ok _ _ _ _ _ c); [exact D|exact Hans|]. intros Ha. by destruct (Hb c eq_refl).
  - split; [exact H|]. by apply handle_ok.
Qed.
