(* ===== verification/OrderEntryClient.v ===== *)
(** * The trader's transport: src/trader/oms/order_entry_client.cpp

    The client's end of the order-entry connection: [send] writes one message
    whole on the caller's thread, [reader_loop] cuts the incoming bytes into
    frames and hands each decoded message to the sink.  What the socket
    answers is an argument; [oc_written] is what it has taken.  The latency
    stamps are in LatencyTracer.v. *)
From S2P Require Import Prelude Types ByteIO CommandCodec OrderEntryCodec.

Record OrderEntryClient := {
  oc_open : bool;
  oc_connected : bool;
  oc_read_buffer : list byte;
  oc_written : list byte;
}.
Definition OrderEntryClient_new : OrderEntryClient :=
  {| oc_open := false; oc_connected := false; oc_read_buffer := []; oc_written := [] |}.
Definition oc_with_buffer (c : OrderEntryClient) (buffer : list byte) : OrderEntryClient :=
  {| oc_open := oc_open c; oc_connected := oc_connected c; oc_read_buffer := buffer; oc_written := oc_written c |}.

(** [accepted] is the operating system's answer. *)
Definition connect (c : OrderEntryClient) (accepted : bool) : OrderEntryClient * bool :=
  if accepted
  then ({| oc_open := true; oc_connected := true; oc_read_buffer := oc_read_buffer c; oc_written := oc_written c |}, true)
  else (c, false).
(** After the join the reader has ended. *)
Definition disconnect (c : OrderEntryClient) : OrderEntryClient :=
  {| oc_open := false; oc_connected := false; oc_read_buffer := oc_read_buffer c; oc_written := oc_written c |}.

(** ** Sending *)
Inductive IoAnswer := IoTook (n : nat) | IoNotOk.
(** The write loop: what the socket took, and whether that was all. *)
Fixpoint write_loop (fuel : nat) (left : list byte) (answers : list IoAnswer) : list byte * bool :=
  match left, fuel with
  | [], _ => ([], true)
  | _, O => ([], false)
  | _, S fuel =>
      match answers with
      | IoTook n :: answers =>
          let n := Nat.min n (length left) in
          if (n =? 0)%nat then ([], false)
          else let (taken, ok) := write_loop fuel (drop n left) answers in (take n left ++ taken, ok)
      | IoNotOk :: _ | [] => ([], false)
      end
  end.
Definition send (c : OrderEntryClient) (message : OrderEntry.Message) (answers : list IoAnswer) : OrderEntryClient * bool :=
  let buffer := OrderEntry.encode_message message [] in
  let (taken, ok) := write_loop (length buffer) buffer answers in
  ({| oc_open := oc_open c; oc_connected := oc_connected c; oc_read_buffer := oc_read_buffer c;
      oc_written := oc_written c ++ taken |}, ok).

(** ** Reading *)
(** The first whole frame, and the bytes after it. *)
Definition first_frame (buffer : list byte) : option (list byte * list byte) :=
  match OrderEntry.decode_header buffer with
  | inr _ => None
  | inl header =>
      let frame_size := (OrderEntry.HEADER_SIZE + Z.to_nat (OrderEntry.hd_payload_size header))%nat in
      if (length buffer <? frame_size)%nat then None else Some (take frame_size buffer, drop frame_size buffer)
  end.
Fixpoint frames_loop (fuel : nat) (buffer : list byte) : list OrderEntry.Message * list byte :=
  match fuel with
  | O => ([], buffer)
  | S fuel =>
      match first_frame buffer with
      | None => ([], buffer)
      | Some (frame, rest) =>
          let (messages, rest) := frames_loop fuel rest in
          (match OrderEntry.decode_message frame with inl message => message :: messages | inr _ => messages end, rest)
      end
  end.
Inductive ReadAnswer := ReadOk (bytes : list byte) | ReadNotOk.
(** One call of [read] and the frames it completes; [None] when the loop ends. *)
Definition read_once (c : OrderEntryClient) (answer : ReadAnswer) : option (OrderEntryClient * list OrderEntry.Message) :=
  match answer with
  | ReadNotOk => None
  | ReadOk bytes =>
      let chunk := take 4096 bytes in
      if bool_decide (chunk = []) then None
      else
        let buffer := oc_read_buffer c ++ chunk in
        let (messages, rest) := frames_loop (length buffer) buffer in
        Some (oc_with_buffer c rest, messages)
  end.
(** What the reader leaves behind when its loop ends. *)
Definition reader_ends (c : OrderEntryClient) : OrderEntryClient :=
  {| oc_open := oc_open c; oc_connected := false; oc_read_buffer := oc_read_buffer c; oc_written := oc_written c |}.
(** The reader over the answers it gets, and what its sink is called with. *)
Fixpoint reader_loop (c : OrderEntryClient) (answers : list ReadAnswer) : OrderEntryClient * list OrderEntry.Message :=
  match answers with
  | [] => (c, [])
  | answer :: answers =>
      match read_once c answer with
      | None => (reader_ends c, [])
      | Some (c, heard) => let (c, later) := reader_loop c answers in (c, heard ++ later)
      end
  end.

(** ** The loops end and lose nothing *)
Lemma write_loop_taken fuel : forall left answers, (length left <= fuel)%nat -> exists rest,
  left = (write_loop fuel left answers).1 ++ rest /\ ((write_loop fuel left answers).2 = true <-> rest = []).
Proof.
  induction fuel as [|fuel IH]; intros left answers Hlen.
  { destruct left; [|cbn in Hlen; lia]. by exists []. }
  destruct left as [|b left]; [by exists []|]. cbn [write_loop].
  destruct answers as [|[n|] answers]; [by exists (b :: left)| |by exists (b :: left)].
  set (k := Nat.min n _). destruct (Nat.eqb_spec k 0) as [Hz|Hz]; [by exists (b :: left)|].
  destruct (IH (drop k (b :: left)) answers) as (rest & E & Hok); [rewrite length_drop; cbn in *; lia|].
  destruct (write_loop fuel (drop k (b :: left)) answers) as [taken ok]. cbn [fst snd] in *. exists rest. split; [|done].
  by rewrite <- app_assoc, <- E, take_drop.
Qed.

Lemma first_frame_parts buffer frame rest : first_frame buffer = Some (frame, rest) ->
  buffer = frame ++ rest /\ (OrderEntry.HEADER_SIZE <= length frame)%nat.
Proof.
  unfold first_frame. destruct (OrderEntry.decode_header buffer) as [h|]; [|done]. set (n := (_ + _)%nat).
  destruct (Nat.ltb_spec (length buffer) n); [done|]. intros [= <- <-]. rewrite take_drop, length_take. split; [done|lia].
Qed.
Lemma first_frame_message msg rest : OrderEntry.message_wf msg ->
  first_frame (OrderEntry.message_bytes msg ++ rest) = Some (OrderEntry.message_bytes msg, rest).
Proof.
  intros Hw. unfold first_frame, OrderEntry.message_bytes. rewrite <- app_assoc, OrderEntry.decode_oe_header by apply OrderEntry.oe_payload_range.
  cbn [OrderEntry.message_header OrderEntry.hd_payload_size]. pose proof (OrderEntry.length_oe_payload msg) as Hl.
  rewrite !app_assoc. set (whole := OrderEntry.header_bytes _ ++ _).
  assert (Hn : (OrderEntry.HEADER_SIZE + Z.to_nat (OrderEntry.payload_size_for (OrderEntry.message_type msg)))%nat = length whole).
  { unfold whole. rewrite length_app, OrderEntry.length_oe_header. lia. }
  rewrite Hn, length_app. destruct (Nat.ltb_spec (length whole + length rest) (length whole)); [lia|].
  by rewrite take_app_length, drop_app_length.
Qed.

(** ** A stream of messages, in any chunks *)
Definition stream_of (messages : list OrderEntry.Message) : list byte := mjoin (OrderEntry.message_bytes <$> messages).
Lemma stream_app l l' : stream_of (l ++ l') = stream_of l ++ stream_of l'.
Proof. unfold stream_of. by rewrite fmap_app, join_app. Qed.

Lemma stream_cons m l : stream_of (m :: l) = OrderEntry.message_bytes m ++ stream_of l.
Proof. done. Qed.
Lemma decode_header_front data rest : (OrderEntry.HEADER_SIZE <= length data)%nat ->
  OrderEntry.decode_header (data ++ rest) = OrderEntry.decode_header data.
Proof.
  intros Hl. unfold OrderEntry.decode_header. rewrite length_app, take_app_le by done.
  destruct (Nat.ltb_spec (length data + length rest) OrderEntry.HEADER_SIZE); [lia|].
  destruct (Nat.ltb_spec (length data) OrderEntry.HEADER_SIZE); [lia|done].
Qed.
(** An unfinished frame is left for later. *)
Lemma first_frame_short buffer future msg rest : OrderEntry.message_wf msg ->
  buffer ++ future = OrderEntry.message_bytes msg ++ rest -> (length buffer < length (OrderEntry.message_bytes msg))%nat ->
  first_frame buffer = None.
Proof.
  intros Hw E Hl. unfold first_frame. destruct (decide (length buffer < OrderEntry.HEADER_SIZE)%nat) as [Hs|Hs].
  { unfold OrderEntry.decode_header. by rewrite (proj2 (Nat.ltb_lt _ _) Hs). }
  rewrite <- (decode_header_front buffer future) by lia. rewrite E. unfold OrderEntry.message_bytes in *.
  rewrite <- app_assoc, OrderEntry.decode_oe_header by apply OrderEntry.oe_payload_range. cbn [OrderEntry.message_header OrderEntry.hd_payload_size].
  rewrite length_app, OrderEntry.length_oe_header in Hl. pose proof (OrderEntry.length_oe_payload msg) as Hp.
  rewrite (proj2 (Nat.ltb_lt _ _)); [done|lia].
Qed.

Lemma frames_loop_stream fuel : forall buffer future ms, Forall OrderEntry.message_wf ms -> (length buffer <= fuel)%nat ->
  buffer ++ future = stream_of ms -> exists heard later rest, ms = heard ++ later /\ frames_loop fuel buffer = (heard, rest) /\
    buffer = stream_of heard ++ rest /\ first_frame rest = None.
Proof.
  induction fuel as [|fuel IH]; intros buffer future ms Hw Hlen E.
  { destruct buffer; [|cbn in Hlen; lia]. by exists [], ms, []. }
  cbn [frames_loop]. destruct ms as [|m ms].
  { apply app_eq_nil in E as [-> _]. by exists [], [], []. }
  apply Forall_cons in Hw as [Hm Hw]. change (stream_of (m :: ms)) with (OrderEntry.message_bytes m ++ stream_of ms) in E.
  destruct (decide (length buffer < length (OrderEntry.message_bytes m))%nat) as [Hs|Hs].
  { rewrite (first_frame_short buffer future m (stream_of ms)) by done. exists [], (m :: ms), buffer. split_and!; try done.
    by apply (first_frame_short buffer future m (stream_of ms)). }
  destruct (app_eq_inv _ _ _ _ E) as [(k & E1 & E2)|(k & E1 & E2)].
  2:{ rewrite E1, length_app in Hs. assert (k = []) as -> by (destruct k; [done|cbn in Hs; lia]).
      rewrite app_nil_r in E1. subst buffer. destruct (IH [] future ms Hw ltac:(cbn; lia) E2) as (heard & later & rest & H1 & H2 & H3 & H4).
      destruct (app_eq_nil _ _ (eq_sym H3)) as [Hh ->]. pose proof (first_frame_message m [] Hm) as Hf. rewrite app_nil_r in Hf.
      pose proof (OrderEntry.decode_message_bytes m [] Hm) as Hd. rewrite app_nil_r in Hd. rewrite Hf, H2, Hd.
      exists (m :: heard), later, []. split_and!; [by rewrite H1|done| |done]. by rewrite stream_cons, Hh, !app_nil_r. }
  subst buffer. rewrite length_app in Hlen. assert (3 <= length (OrderEntry.message_bytes m))%nat.
  { unfold OrderEntry.message_bytes. rewrite length_app, OrderEntry.length_oe_header. unfold OrderEntry.HEADER_SIZE. lia. }
  destruct (IH k future ms Hw ltac:(lia) (eq_sym E2)) as (heard & later & rest & H1 & H2 & H3 & H4).
  pose proof (OrderEntry.decode_message_bytes m [] Hm) as Hd. rewrite app_nil_r in Hd. rewrite first_frame_message, H2, Hd by done.
  exists (m :: heard), later, rest. split_and!; [by rewrite H1|done| |done]. rewrite stream_cons, <- app_assoc. f_equal. exact H3.
Qed.

(** What the reader has heard of a stream cut in any way: everything that has
    arrived whole, and nothing else. *)
Record heard_of (c : OrderEntryClient) (arrived : list byte) (ms : list OrderEntry.Message)
    (out : OrderEntryClient * list OrderEntry.Message) : Prop := {
  hd_split : exists later, ms = out.2 ++ later /\
    match later with [] => oc_read_buffer out.1 = [] | m :: _ => (length (oc_read_buffer out.1) < length (OrderEntry.message_bytes m))%nat end;
  hd_bytes : arrived = stream_of out.2 ++ oc_read_buffer out.1;
  hd_client : out.1 = oc_with_buffer c (oc_read_buffer out.1);
  hd_frame : first_frame (oc_read_buffer out.1) = None;
}.
Lemma leftover_of rest future later : Forall OrderEntry.message_wf later -> rest ++ future = stream_of later -> first_frame rest = None ->
  match later with [] => rest = [] | m :: _ => (length rest < length (OrderEntry.message_bytes m))%nat end.
Proof.
  intros Hw E Hf. destruct later as [|m later]; [by apply app_eq_nil in E as [-> _]|]. apply Forall_cons in Hw as [Hm _].
  rewrite stream_cons in E. destruct (decide (length rest < length (OrderEntry.message_bytes m))%nat) as [|Hs]; [done|]. exfalso.
  destruct (app_eq_inv _ _ _ _ E) as [(k & E1 & _)|(k & E1 & _)].
  - by rewrite E1, first_frame_message in Hf.
  - assert (k = []) as -> by (rewrite E1, length_app in Hs; destruct k; [done|cbn in Hs; lia]).
    rewrite app_nil_r in E1. subst rest. pose proof (first_frame_message m [] Hm) as H. rewrite app_nil_r in H. congruence.
Qed.
Lemma reader_hears chunks : forall c future ms, Forall OrderEntry.message_wf ms -> first_frame (oc_read_buffer c) = None ->
  Forall (fun chunk => chunk <> [] /\ (length chunk <= 4096)%nat) chunks ->
  (oc_read_buffer c ++ mjoin chunks) ++ future = stream_of ms ->
  heard_of c (oc_read_buffer c ++ mjoin chunks) ms (reader_loop c (ReadOk <$> chunks)).
Proof.
  induction chunks as [|chunk chunks IH]; intros c future ms Hw Hf Hc E.
  { cbn [mjoin list_join] in *. rewrite app_nil_r in *. cbn [fmap list_fmap reader_loop]. split; cbn; try done; [|by destruct c].
    exists ms. split; [done|]. by eapply leftover_of. }
  apply Forall_cons in Hc as [[Hne Hlen] Hc]. cbn [fmap list_fmap reader_loop read_once]. rewrite take_ge by done.
  rewrite bool_decide_eq_false_2 by done. set (buffer := oc_read_buffer c ++ chunk).
  assert (E' : buffer ++ (mjoin chunks ++ future) = stream_of ms).
  { unfold buffer. rewrite <- E. cbn. by rewrite <- !app_assoc. }
  destruct (frames_loop_stream (length buffer) buffer _ ms Hw ltac:(lia) E') as (heard & later & rest & -> & -> & Hb & Hf').
  apply Forall_app in Hw as [_ Hw]. rewrite stream_app, Hb, <- app_assoc in E'. apply app_inv_head in E'.
  destruct (IH (oc_with_buffer c rest) future later Hw Hf' Hc) as [(later' & I1 & I1') I2 I3 I4]; [by rewrite <- app_assoc|].
  cbn [oc_with_buffer oc_read_buffer] in I2. destruct (reader_loop (oc_with_buffer c rest) (ReadOk <$> chunks)) as [c' heard']. cbn [fst snd] in *.
  split; cbn [fst snd].
  - exists later'. split; [by rewrite I1, app_assoc|done].
  - cbn [mjoin list_join]. rewrite stream_app, <- app_assoc, <- I2, (app_assoc (stream_of heard)), <- Hb. unfold buffer. by rewrite <- app_assoc.
  - exact I3.
  - exact I4.
Qed.
Definition chunk_ok (chunk : list byte) : Prop := chunk <> [] /\ (length chunk <= 4096)%nat.
Lemma reader_prefix client chunks future ms : Forall OrderEntry.message_wf ms -> oc_read_buffer client = [] -> Forall chunk_ok chunks ->
  mjoin chunks ++ future = stream_of ms -> (reader_loop client (ReadOk <$> chunks)).2 `prefix_of` ms.
Proof.
  intros Hw Hb Hc E. destruct (reader_hears chunks client future ms Hw) as [(later & H & _) _ _ _]; [by rewrite Hb|done|by rewrite Hb|].
  by exists later.
Qed.
Lemma send_appends c m answers : exists taken rest, oc_written (send c m answers).1 = oc_written c ++ taken /\
  taken ++ rest = OrderEntry.message_bytes m /\ ((send c m answers).2 = true <-> rest = []).
Proof.
  unfold send. rewrite OrderEntry.encode_message_bytes. cbn [app].
  destruct (write_loop_taken (length (OrderEntry.message_bytes m)) (OrderEntry.message_bytes m) answers (le_n _)) as (rest & E & H).
  destruct (write_loop _ _ _) as [taken ok]. by exists taken, rest.
Qed.
Lemma send_taken c m answers : exists rest, oc_written (send c m answers).1 ++ rest = oc_written c ++ OrderEntry.message_bytes m /\
  ((send c m answers).2 = true <-> rest = []).
Proof.
  destruct (send_appends c m answers) as (taken & rest & -> & E & H). exists rest. split; [|done]. by rewrite <- app_assoc, E.
Qed.
