(* ===== verification/CommandLine.v ===== *)
(** * Command lines: the parse_args of apps/*/main.cpp

    First numbers in text -- std::stoi, stoul, stoull, stoll and
    std::to_string -- then the loop over argv and each program's flags.

    The standard library's conversions, as the command lines and the HTTP
    front end use them, on a platform whose long has 64 bits: white space is
    skipped, a sign is taken, the longest run of digits is the number and
    what follows is ignored.  [None] is an exception. *)
From Stdlib Require Import String Ascii.
From stdpp Require Export pretty strings.
From stdpp Require Import functions.
From S2P Require Import Prelude Types.

Local Open Scope Z_scope.

Definition is_space (c : ascii) : bool :=
  let n := Z.of_N (N_of_ascii c) in (n =? 32) || ((9 <=? n) && (n <=? 13)).
Definition digit_of (c : ascii) : option Z :=
  let n := Z.of_N (N_of_ascii c) in if (48 <=? n) && (n <=? 57) then Some (n - 48) else None.
(** The number the text starts with, when it starts with a digit. *)
Fixpoint digits (acc : option Z) (s : string) : option Z :=
  match s with
  | EmptyString => acc
  | String c s => match digit_of c with Some d => digits (Some (10 * default 0 acc + d)) s | None => acc end
  end.
Fixpoint skip_space (s : string) : string :=
  match s with String c s' => if is_space c then skip_space s' else s | EmptyString => EmptyString end.
(** Whether there is a minus sign, and the magnitude. *)
Definition strto (s : string) : option (bool * Z) :=
  match skip_space s with
  | String "-" s => (fun v => (true, v)) <$> digits None s
  | String "+" s => (fun v => (false, v)) <$> digits None s
  | s => (fun v => (false, v)) <$> digits None s
  end.
(** An unsigned result of a negative text is its negation modulo 2^64. *)
Definition stoull (s : string) : option Z :=
  let* (negative, v) := strto s in
  if v <? two64 then Some (if negative : bool then u64 (- v) else v) else None.
Definition stoul (s : string) : option Z := stoull s.
Definition signed_in (bound : Z) (s : string) : option Z :=
  let* (negative, v) := strto s in
  let z := if negative : bool then - v else v in
  if (- bound <=? z) && (z <? bound) then Some z else None.
Definition stoll (s : string) : option Z := signed_in two63 s.
Definition stoi (s : string) : option Z := signed_in 2147483648 s.

(** ** What is printed is read back *)
Lemma digit_of_pretty x : (x < 10)%N -> digit_of (pretty_N_char x) = Some (Z.of_N x) /\ is_space (pretty_N_char x) = false /\
  pretty_N_char x <> "-"%char /\ pretty_N_char x <> "+"%char.
Proof.
  intros H. assert (x = 0 \/ x = 1 \/ x = 2 \/ x = 3 \/ x = 4 \/ x = 5 \/ x = 6 \/ x = 7 \/ x = 8 \/ x = 9)%N as Hx by lia.
  destruct Hx as [->|[->|[->|[->|[->|[->|[->|[->|[->| ->]]]]]]]]]; repeat split; vm_compute; discriminate.
Qed.
Lemma digits_go x : forall s, digits None (pretty_N_go x s) = if decide (x = 0%N) then digits None s else digits (Some (Z.of_N x)) s.
Proof.
  induction (N.lt_wf_0 x) as [x _ IH]. intros s. case_decide as Hx; [by subst|]. rewrite pretty_N_go_step by lia.
  assert (Hm : (x `mod` 10 < 10)%N) by (apply N.mod_lt; lia).
  rewrite IH by (apply N.div_lt; lia). destruct (digit_of_pretty _ Hm) as [Hd _]. cbn [digits]. rewrite Hd.
  pose proof (N.div_mod' x 10) as E.
  revert E. generalize (x `div` 10)%N (x `mod` 10)%N. intros q r E.
  case_decide as H0; cbn [default from_option id]; (f_equal; f_equal; lia).
Qed.
Lemma go_head x s : (0 < x)%N -> exists c s', pretty_N_go x s = String c s' /\ is_space c = false /\ c <> "-"%char /\ c <> "+"%char.
Proof.
  revert s. induction (N.lt_wf_0 x) as [x _ IH]. intros s Hx. rewrite pretty_N_go_step by lia.
  assert (Hm : (x `mod` 10 < 10)%N) by (apply N.mod_lt; lia).
  destruct (decide (x `div` 10 = 0)%N) as [E|E]; [|apply IH; [apply N.div_lt; lia|by apply N.neq_0_lt_0]].
  rewrite E, pretty_N_go_0. destruct (digit_of_pretty _ Hm) as (_ & H1 & H2 & H3). eauto 10.
Qed.
Lemma strto_digits s c s' : s = String c s' -> is_space c = false -> c <> "-"%char -> c <> "+"%char ->
  strto s = (fun v => (false, v)) <$> digits None s.
Proof.
  intros -> Hs Hm Hp. unfold strto. cbn [skip_space]. rewrite Hs.
  destruct c as [[] [] [] [] [] [] [] []]; done.
Qed.
Lemma strto_pretty_N n : strto (pretty n) = Some (false, Z.of_N n).
Proof.
  unfold pretty, pretty_N. case_decide as H; [by subst|]. destruct (go_head n EmptyString) as (c & s' & E & H1 & H2 & H3); [lia|].
  rewrite (strto_digits _ _ _ E H1 H2 H3), digits_go, decide_False by done. done.
Qed.
Lemma strto_minus n : strto ("-" +:+ pretty (n : N)) = Some (true, Z.of_N n).
Proof.
  change (strto ("-" +:+ pretty n)) with ((fun v => (true, v)) <$> digits None (pretty n)).
  unfold pretty, pretty_N. case_decide as H; [by subst|]. by rewrite digits_go, decide_False by done.
Qed.
Lemma strto_pretty z : strto (pretty z) = Some (z <? 0, Z.abs z).
Proof.
  destruct z as [|p|p]; [done| |].
  - change (pretty (Z.pos p)) with (pretty (N.pos p)). by rewrite strto_pretty_N.
  - change (pretty (Z.neg p)) with ("-" +:+ pretty (N.pos p)). by rewrite strto_minus.
Qed.
Lemma stoull_pretty z : 0 <= z < two64 -> stoull (pretty z) = Some z.
Proof.
  intros Hz. unfold stoull. rewrite strto_pretty. cbn [mbind option_bind]. rewrite Z.abs_eq by lia.
  by rewrite (proj2 (Z.ltb_lt _ _)), (proj2 (Z.ltb_ge _ _)) by lia.
Qed.
Lemma signed_in_pretty b z : - b <= z < b -> signed_in b (pretty z) = Some z.
Proof.
  intros Hz. unfold signed_in. rewrite strto_pretty. cbn [mbind option_bind].
  assert ((if z <? 0 then - Z.abs z else Z.abs z) = z) as -> by (destruct (Z.ltb_spec z 0); lia).
  by rewrite (proj2 (Z.leb_le _ _)), (proj2 (Z.ltb_lt _ _)) by lia.
Qed.

(** ** Arguments *)

(** What [parse_args] does: return, with [None] for a usage error, or let an
    exception of the standard library through. *)
Inductive Parsed (A : Type) := Returned (args : option A) | Threw.
Arguments Returned {A} args.
Arguments Threw {A}.
Definition parsed_bind {A B} (p : Parsed A) (k : A -> option B) : Parsed B :=
  match p with Returned args => Returned (args ≫= k) | Threw => Threw end.

(** The loop over argv: each flag takes the argument after it.  [catches]
    says whether the loop's body stands in a try block. *)
Module ArgumentLoop.
Section Loop.
Context {Args Field : Type} (fields : list Field) (flag : Field -> string) (assign : Field -> string -> Args -> option Args)
  (catches : bool).
Fixpoint parse_loop (argv : list string) (args : Args) : Parsed Args :=
  match argv with
  | [] => Returned (Some args)
  | a :: rest =>
      match find (fun f => String.eqb (flag f) a) fields with
      | None => Returned None
      | Some f =>
          match rest with
          | [] => Returned None
          | v :: rest =>
              match assign f v args with
              | Some args => parse_loop rest args
              | None => if catches then Returned None else Threw
              end
          end
      end
  end.

Context (distinct : NoDup (flag <$> fields)).
Lemma find_flag f : f ∈ fields -> find (fun f' => String.eqb (flag f') (flag f)) fields = Some f.
Proof using distinct.
  revert distinct. induction fields as [|f' l IH]; intros Hd Hf; [by inversion Hf|]. apply NoDup_cons in Hd as [H1 H2]. cbn.
  destruct (String.eqb_spec (flag f') (flag f)) as [E|E].
  - apply elem_of_cons in Hf as [->|Hf]; [done|]. rewrite E in H1. by destruct H1; apply list_elem_of_fmap_2.
  - apply elem_of_cons in Hf as [->|Hf]; [done|]. by apply IH.
Qed.
Lemma parse_one f v args args' rest : f ∈ fields -> assign f v args = Some args' ->
  parse_loop (flag f :: v :: rest) args = parse_loop rest args'.
Proof using distinct. intros Hf Ha. cbn [parse_loop]. by rewrite find_flag, Ha. Qed.
Lemma parse_bad f v args rest : f ∈ fields -> assign f v args = None ->
  parse_loop (flag f :: v :: rest) args = if catches then Returned None else Threw.
Proof using distinct. intros Hf Ha. cbn [parse_loop]. by rewrite find_flag, Ha. Qed.
Lemma parse_missing f args : f ∈ fields -> parse_loop [flag f] args = Returned None.
Proof using distinct. intros Hf. cbn [parse_loop]. by rewrite find_flag. Qed.
Lemma parse_unknown a rest args : a ∉ flag <$> fields -> parse_loop (a :: rest) args = Returned None.
Proof using Type.
  intros Ha. cbn [parse_loop]. destruct (find _ fields) as [f|] eqn:E; [|done]. apply find_some in E as [H1 H2%String.eqb_eq].
  subst a. by destruct Ha; apply list_elem_of_fmap_2, list_elem_of_In.
Qed.
(** A command line that sets each of some fields. *)
Definition settings (l : list (Field * string)) : list string := mjoin ((fun s => [flag s.1; s.2]) <$> l).
Lemma parse_settings l : forall args args' rest, Forall (fun s => s.1 ∈ fields) l ->
  foldl (fun args s => args ≫= assign s.1 s.2) (Some args) l = Some args' ->
  parse_loop (settings l ++ rest) args = parse_loop rest args'.
Proof using distinct.
  induction l as [|[f v] l IH]; intros args args' rest Hl Hs; [by injection Hs as ->|]. apply Forall_cons in Hl as [Hf Hl].
  cbn [foldl fst snd mbind option_bind] in Hs. destruct (assign f v args) as [args1|] eqn:E.
  - change (settings ((f, v) :: l) ++ rest) with (flag f :: v :: (settings l ++ rest)).
    rewrite (parse_one f v args args1) by done. by apply IH.
  - exfalso. clear -Hs. induction l as [|s l IH]; [done|]. by apply IH.
Qed.
End Loop.
End ArgumentLoop.
Import ArgumentLoop.
Ltac flags_distinct := match goal with |- ?P => apply (bool_decide_eq_true_1 P); vm_compute; reflexivity end.

(** The conversions: [static_cast<std::uint16_t>(std::stoul(v))] and its kin. *)
Inductive Width := Unsigned16 | Unsigned32 | Unsigned64 | Signed64 | Int.
Definition read_as (w : Width) (v : string) : option Z :=
  match w with
  | Unsigned16 => u16 <$> stoul v
  | Unsigned32 => u32 <$> stoul v
  | Unsigned64 => stoull v
  | Signed64 => stoll v
  | Int => stoi v
  end.
Definition fits (w : Width) (z : Z) : Prop :=
  match w with
  | Unsigned16 => 0 <= z < 65536
  | Unsigned32 => 0 <= z < two32
  | Unsigned64 => 0 <= z < two64
  | Signed64 => - two63 <= z < two63
  | Int => - 2147483648 <= z < 2147483648
  end.
Lemma read_fits w z : fits w z -> read_as w (pretty z) = Some z.
Proof.
  destruct w; cbn [fits read_as]; intros H; unfold stoul, stoll, stoi.
  - rewrite stoull_pretty by lia. cbn [fmap option_fmap option_map]. by rewrite u16_small by lia.
  - rewrite stoull_pretty by lia. cbn [fmap option_fmap option_map]. by rewrite u32_small by lia.
  - by rewrite stoull_pretty by lia.
  - by rewrite signed_in_pretty by lia.
  - by rewrite signed_in_pretty by lia.
Qed.
Lemma digits_nonneg s : forall acc z, default 0 acc >= 0 -> digits acc s = Some z -> 0 <= z.
Proof.
  induction s as [|c s IH]; intros acc z Ha; cbn [digits]; [intros ->; cbn in Ha; lia|]. destruct (digit_of c) as [d|] eqn:E; [|intros ->; cbn in Ha; lia].
  apply IH. unfold digit_of in E. cbv zeta in E. destruct (_ && _) eqn:Eb; [|done]. injection E as <-. apply andb_prop in Eb as [E1%Z.leb_le _].
  change (10 * default 0 acc + (Z.of_N (N_of_ascii c) - 48) >= 0). lia.
Qed.
Lemma strto_nonneg s negative z : strto s = Some (negative, z) -> 0 <= z.
Proof.
  unfold strto. intros H.
  assert (Hd : forall b t, (fun v => (b, v)) <$> digits None t = Some (negative, z) -> 0 <= z).
  { intros b t Ht. apply fmap_Some in Ht as (v & Hv & [= _ ->]). apply (digits_nonneg t None v); [cbn; lia|done]. }
  destruct (skip_space s) as [|c t]; [by eapply Hd|]. destruct c as [[] [] [] [] [] [] [] []]; by eapply Hd.
Qed.
Lemma stoull_range s z : stoull s = Some z -> 0 <= z < two64.
Proof.
  unfold stoull. destruct (strto s) as [[negative v]|] eqn:E; [|done]. cbn [mbind option_bind]. apply strto_nonneg in E.
  destruct (Z.ltb_spec v two64); [|done]. intros [= <-]. destruct negative; [apply u64_range|lia].
Qed.
Lemma signed_in_range b s z : signed_in b s = Some z -> - b <= z < b.
Proof.
  unfold signed_in. destruct (strto s) as [[negative v]|]; [|done]. cbn [mbind option_bind].
  destruct ((_ <=? _) && (_ <? _)) eqn:E; [|done]. apply andb_prop in E as [E1%Z.leb_le E2%Z.ltb_lt]. intros [= <-]. done.
Qed.
(** Whatever is read fits its type. *)
Lemma read_as_fits w v z : read_as w v = Some z -> fits w z.
Proof.
  destruct w; cbn [read_as fits]; unfold stoul, stoll, stoi; intros H.
  - apply fmap_Some in H as (x & _ & ->). unfold u16. apply Z.mod_pos_bound. lia.
  - apply fmap_Some in H as (x & _ & ->). apply u32_range.
  - by apply stoull_range in H.
  - by apply signed_in_range in H.
  - by apply signed_in_range in H.
Qed.
(** Numbers printed into a command line are what [assign] reads there. *)
Ltac run_settings := repeat first
  [ progress cbn -[read_as pretty] | rewrite read_fits by first [done | by cbn; lia | solve [eauto]] ].
(** A struct's numeric members, by name, each set in turn. *)
Lemma set_numbers {Num} `{EqDecision Num} (v : Num -> Z) l : forall g f,
  foldl (fun g f => <[f := v f]> g) g l f = if decide (f ∈ l) then v f else g f.
Proof.
  induction l as [|f' l IH]; intros g f; cbn [foldl]; [by rewrite decide_False by set_solver|]. rewrite IH.
  destruct (decide (f ∈ l)) as [H|H]; [by rewrite decide_True by set_solver|].
  destruct (decide (f = f')) as [->|Hf]; [by rewrite fn_lookup_insert, decide_True by set_solver|].
  rewrite fn_lookup_insert_ne by done. by rewrite decide_False by set_solver.
Qed.

(** ** apps/feed_generator: arguments *)
Module FeedGeneratorArgs.
Record Args := { output : string; orders : Z; seed : Z; instruments : Z }.
Record State := { args : Args; have_output : bool; have_orders : bool }.
Definition start : State :=
  {| args := {| output := EmptyString; orders := 0; seed := 42; instruments := 10 |}; have_output := false; have_orders := false |}.
Inductive Field := Output | Orders | Seed | Instruments.
Definition fields : list Field := [Output; Orders; Seed; Instruments].
Definition flag (f : Field) : string :=
  match f with Output => "--output" | Orders => "--orders" | Seed => "--seed" | Instruments => "--instruments" end.
Definition assign (f : Field) (v : string) (s : State) : option State :=
  let a := args s in
  match f with
  | Output => Some {| args := {| output := v; orders := orders a; seed := seed a; instruments := instruments a |};
                      have_output := true; have_orders := have_orders s |}
  | Orders => let* n := read_as Unsigned64 v in
              Some {| args := {| output := output a; orders := n; seed := seed a; instruments := instruments a |};
                      have_output := have_output s; have_orders := true |}
  | Seed => let* n := read_as Unsigned64 v in
            Some {| args := {| output := output a; orders := orders a; seed := n; instruments := instruments a |};
                    have_output := have_output s; have_orders := have_orders s |}
  | Instruments => let* n := read_as Unsigned32 v in
                   Some {| args := {| output := output a; orders := orders a; seed := seed a; instruments := n |};
                           have_output := have_output s; have_orders := have_orders s |}
  end.
Definition parse_args (argv : list string) : Parsed Args :=
  parsed_bind (parse_loop fields flag assign false argv start) (fun s =>
    if negb (have_output s) || negb (have_orders s) || (orders (args s) =? 0) || (instruments (args s) =? 0) then None
    else Some (args s)).

Lemma generator_distinct : NoDup (flag <$> fields).
Proof. flags_distinct. Qed.
Definition render (a : Args) : list string :=
  settings flag [(Output, output a); (Orders, pretty (orders a)); (Seed, pretty (seed a)); (Instruments, pretty (instruments a))].
Lemma generator_parse_render a : 0 < orders a < two64 -> 0 <= seed a < two64 -> 0 < instruments a < two32 ->
  parse_args (render a) = Returned (Some a).
Proof.
  intros Ho Hs Hi. destruct a as [out o s i]. cbn in Ho, Hs, Hi. unfold parse_args, render. rewrite <- (app_nil_r (settings _ _)).
  erewrite (parse_settings fields flag assign false generator_distinct); [|by repeat constructor; cbn; set_solver|].
  2:{ run_settings. reflexivity. }
  cbn. by rewrite (proj2 (Z.eqb_neq o 0)), (proj2 (Z.eqb_neq i 0)) by lia.
Qed.
End FeedGeneratorArgs.

(** ** apps/udp_sender: arguments *)
Module UdpSenderArgs.
Record Args := { input : string; host : string; port : Z; batch_size : Z }.
Record State := { args : Args; have_input : bool; have_host : bool; have_port : bool }.
Definition start : State :=
  {| args := {| input := EmptyString; host := EmptyString; port := 0; batch_size := 20 |};
     have_input := false; have_host := false; have_port := false |}.
Inductive Field := Input | Host | Port | BatchSize.
Definition fields : list Field := [Input; Host; Port; BatchSize].
Definition flag (f : Field) : string :=
  match f with Input => "--input" | Host => "--host" | Port => "--port" | BatchSize => "--batch-size" end.
Definition assign (f : Field) (v : string) (s : State) : option State :=
  let a := args s in
  match f with
  | Input => Some {| args := {| input := v; host := host a; port := port a; batch_size := batch_size a |};
                     have_input := true; have_host := have_host s; have_port := have_port s |}
  | Host => Some {| args := {| input := input a; host := v; port := port a; batch_size := batch_size a |};
                    have_input := have_input s; have_host := true; have_port := have_port s |}
  | Port => let* n := read_as Unsigned16 v in
            Some {| args := {| input := input a; host := host a; port := n; batch_size := batch_size a |};
                    have_input := have_input s; have_host := have_host s; have_port := true |}
  | BatchSize => let* n := read_as Unsigned64 v in
                 Some {| args := {| input := input a; host := host a; port := port a; batch_size := n |};
                         have_input := have_input s; have_host := have_host s; have_port := have_port s |}
  end.
Definition parse_args (argv : list string) : Parsed Args :=
  parsed_bind (parse_loop fields flag assign false argv start) (fun s =>
    if negb (have_input s) || negb (have_host s) || negb (have_port s) || (batch_size (args s) =? 0) then None
    else Some (args s)).

Lemma sender_distinct : NoDup (flag <$> fields).
Proof. flags_distinct. Qed.
Definition render (a : Args) : list string :=
  settings flag [(Input, input a); (Host, host a); (Port, pretty (port a)); (BatchSize, pretty (batch_size a))].
Lemma sender_parse_render a : 0 <= port a < 65536 -> 0 < batch_size a < two64 -> parse_args (render a) = Returned (Some a).
Proof.
  intros Hp Hb. destruct a as [i h p b]. cbn in Hp, Hb. unfold parse_args, render. rewrite <- (app_nil_r (settings _ _)).
  erewrite (parse_settings fields flag assign false sender_distinct); [|by repeat constructor; cbn; set_solver|].
  2:{ run_settings. reflexivity. }
  cbn. by rewrite (proj2 (Z.eqb_neq b 0)) by lia.
Qed.
End UdpSenderArgs.

(** ** apps/market_data_replay: arguments *)
Module ReplayArgs.
Inductive Number := TopLevels | IdleTimeoutMs | QueueCapacity | ConsumerDelayUs.
#[export] Instance Number_eq_dec : EqDecision Number.
Proof. solve_decision. Defined.
Record Args := {
  input : option string;
  listen_port : option Z;
  number : Number -> Z;
  snapshot_out : option string;
  snapshot_in : option string;
}.
Definition Args_default : Args :=
  {| input := None; listen_port := None;
     number := fun n => match n with TopLevels => 5 | IdleTimeoutMs => 1000 | QueueCapacity => 1024 | ConsumerDelayUs => 0 end;
     snapshot_out := None; snapshot_in := None |}.
Inductive Field := Input | Listen | Num (n : Number) | SnapshotOut | SnapshotIn.
Definition fields : list Field :=
  [Input; Listen; Num TopLevels; Num IdleTimeoutMs; Num QueueCapacity; Num ConsumerDelayUs; SnapshotOut; SnapshotIn].
Definition flag (f : Field) : string :=
  match f with
  | Input => "--input"
  | Listen => "--listen"
  | Num TopLevels => "--top-levels"
  | Num IdleTimeoutMs => "--idle-timeout-ms"
  | Num QueueCapacity => "--queue-capacity"
  | Num ConsumerDelayUs => "--consumer-delay-us"
  | SnapshotOut => "--snapshot-out"
  | SnapshotIn => "--snapshot-in"
  end.
Definition assign (f : Field) (v : string) (a : Args) : option Args :=
  match f with
  | Input => Some {| input := Some v; listen_port := listen_port a; number := number a; snapshot_out := snapshot_out a; snapshot_in := snapshot_in a |}
  | Listen =>
      let* port := read_as Unsigned16 v in
      Some {| input := input a; listen_port := Some port; number := number a; snapshot_out := snapshot_out a; snapshot_in := snapshot_in a |}
  | Num n =>
      let* z := read_as Unsigned64 v in
      Some {| input := input a; listen_port := listen_port a; number := <[n := z]> (number a);
              snapshot_out := snapshot_out a; snapshot_in := snapshot_in a |}
  | SnapshotOut => Some {| input := input a; listen_port := listen_port a; number := number a; snapshot_out := Some v; snapshot_in := snapshot_in a |}
  | SnapshotIn => Some {| input := input a; listen_port := listen_port a; number := number a; snapshot_out := snapshot_out a; snapshot_in := Some v |}
  end.
Definition parse_args (argv : list string) : Parsed Args :=
  parsed_bind (parse_loop fields flag assign false argv Args_default) (fun a =>
    if bool_decide (is_Some (input a) <-> is_Some (listen_port a)) then None else Some a).

Lemma replay_distinct : NoDup (flag <$> fields).
Proof. flags_distinct. Qed.
Definition numbers : list Number := [TopLevels; IdleTimeoutMs; QueueCapacity; ConsumerDelayUs].
Definition render (a : Args) : list string :=
  settings flag (from_option (fun v => [(Input, v)]) [] (input a) ++ from_option (fun p => [(Listen, pretty p)]) [] (listen_port a) ++
    ((fun n => (Num n, pretty (number a n))) <$> numbers) ++
    from_option (fun v => [(SnapshotOut, v)]) [] (snapshot_out a) ++ from_option (fun v => [(SnapshotIn, v)]) [] (snapshot_in a)).
Lemma replay_parse_render a : ~ (is_Some (input a) <-> is_Some (listen_port a)) -> from_option (fits Unsigned16) True (listen_port a) ->
  (forall n, fits Unsigned64 (number a n)) ->
  exists a', parse_args (render a) = Returned (Some a') /\ input a' = input a /\ listen_port a' = listen_port a /\
    snapshot_out a' = snapshot_out a /\ snapshot_in a' = snapshot_in a /\ forall n, number a' n = number a n.
Proof.
  intros Hm Hp Hn. destruct a as [i p z so si]. cbn [input listen_port number] in Hm, Hp, Hn. unfold parse_args, render.
  set (a' := {| input := i; listen_port := p; number := foldl (fun g f => <[f := z f]> g) (number Args_default) numbers;
                snapshot_out := so; snapshot_in := si |}).
  exists a'. split.
  - rewrite <- (app_nil_r (settings _ _)). rewrite (parse_settings fields flag assign false replay_distinct) with (args' := a').
    + cbn [parse_loop parsed_bind mbind option_bind input listen_port a']. by rewrite bool_decide_eq_false_2.
    + destruct i, p, so, si; repeat constructor; cbn; set_solver.
    + destruct i, p, so, si; run_settings; reflexivity.
  - repeat split; [done..|]. intros n. cbn [number a']. rewrite set_numbers. by rewrite decide_True by (destruct n; set_solver).
Qed.
End ReplayArgs.

(** ** apps/trading_server: arguments *)
Module ServerArgs.
Record Args := {
  tcp_port : Z;
  market_data_ports : list Z;
  http_port : Z;
  static_dir : string;
  sim_cash : Z;
  sim_position : Quantity;
}.
Definition Args_default : Args :=
  {| tcp_port := 7000; market_data_ports := []; http_port := 8080; static_dir := EmptyString;
     sim_cash := 100000000000000; sim_position := 1000000 |}.
Inductive Field := TcpPort | MarketDataPort | SimCash | SimPosition | HttpPort | StaticDir.
Definition fields : list Field := [TcpPort; MarketDataPort; SimCash; SimPosition; HttpPort; StaticDir].
Definition flag (f : Field) : string :=
  match f with
  | TcpPort => "--tcp-port"
  | MarketDataPort => "--market-data-port"
  | SimCash => "--sim-cash"
  | SimPosition => "--sim-position"
  | HttpPort => "--http-port"
  | StaticDir => "--static-dir"
  end.
Definition assign (f : Field) (v : string) (a : Args) : option Args :=
  let 'Build_Args tcp ports http dir cash position := a in
  match f with
  | TcpPort => (fun n => Build_Args n ports http dir cash position) <$> read_as Unsigned16 v
  | MarketDataPort => (fun n => Build_Args tcp (ports ++ [n]) http dir cash position) <$> read_as Unsigned16 v
  | SimCash => (fun n => Build_Args tcp ports http dir n position) <$> read_as Signed64 v
  | SimPosition => (fun n => Build_Args tcp ports http dir cash n) <$> read_as Unsigned64 v
  | HttpPort => (fun n => Build_Args tcp ports n dir cash position) <$> read_as Unsigned16 v
  | StaticDir => Some (Build_Args tcp ports http v cash position)
  end.
Definition parse_args (argv : list string) : Parsed Args :=
  parsed_bind (parse_loop fields flag assign false argv Args_default) (fun a =>
    let 'Build_Args tcp ports http dir cash position := a in
    Some (Build_Args tcp (if decide (ports = []) then [7001] else ports) http dir cash position)).

Lemma server_distinct : NoDup (flag <$> fields).
Proof. flags_distinct. Qed.
Definition render (a : Args) : list string :=
  settings flag [(TcpPort, pretty (tcp_port a))] ++ settings flag ((fun p => (MarketDataPort, pretty p)) <$> market_data_ports a) ++
  settings flag [(HttpPort, pretty (http_port a)); (StaticDir, static_dir a); (SimCash, pretty (sim_cash a)); (SimPosition, pretty (sim_position a))].
(** Repeated ports are all kept, in order; none at all means 7001. *)
Lemma server_parse_render a : fits Unsigned16 (tcp_port a) -> Forall (fits Unsigned16) (market_data_ports a) -> fits Unsigned16 (http_port a) ->
  fits Signed64 (sim_cash a) -> fits Unsigned64 (sim_position a) ->
  parse_args (render a) = Returned (Some (if decide (market_data_ports a = []) then
    {| tcp_port := tcp_port a; market_data_ports := [7001]; http_port := http_port a; static_dir := static_dir a;
       sim_cash := sim_cash a; sim_position := sim_position a |} else a)).
Proof.
  destruct a as [t ps h d c p]. cbn [tcp_port market_data_ports http_port sim_cash sim_position static_dir]. intros Ht Hps Hh Hc Hp.
  unfold parse_args, render. cbn [tcp_port market_data_ports http_port sim_cash sim_position static_dir].
  erewrite (parse_settings fields flag assign false server_distinct); [|by repeat constructor; cbn; set_solver|run_settings; reflexivity].
  rewrite (parse_settings fields flag assign false server_distinct) with (args' := Build_Args t ps 8080 EmptyString 100000000000000 1000000).
  - rewrite <- (app_nil_r (settings _ _)).
    erewrite (parse_settings fields flag assign false server_distinct); [|by repeat constructor; cbn; set_solver|run_settings; reflexivity].
    cbn. by case_decide.
  - apply Forall_fmap, Forall_forall. intros x _. cbn. set_solver.
  - change ps with ([] ++ ps) at 2. generalize (@nil Z). induction Hps as [|x ps Hx Hps IH]; intros l; cbn [fmap list_fmap foldl fst snd].
    + by rewrite app_nil_r.
    + cbn [mbind option_bind assign]. rewrite read_fits by done. cbn [fmap option_fmap option_map]. rewrite IH. by rewrite <- app_assoc.
Qed.
End ServerArgs.

(** ** A host and numbers: what the two strategy programs are told *)
Module HostAndNumbers.
Section Fields.
Context {Number : Type} `{EqDecision Number} (numbers : list Number) (number_flag : Number -> string) (width : Number -> Width).
Record Args := { host : string; number : Number -> Z }.
Definition fields : list (option Number) := None :: (Some <$> numbers).
Definition flag (f : option Number) : string := match f with None => "--host" | Some n => number_flag n end.
Definition assign (f : option Number) (v : string) (a : Args) : option Args :=
  match f with
  | None => Some {| host := v; number := number a |}
  | Some n => let* z := read_as (width n) v in Some {| host := host a; number := <[n := z]> (number a) |}
  end.
(** The loop of both programs; an exception is caught. *)
Definition parse (defaults : Args) (argv : list string) : Parsed Args := parse_loop fields flag assign true argv defaults.
Definition render (a : Args) : list string :=
  settings flag ((None, host a) :: ((fun n => (Some n, pretty (number a n))) <$> numbers)).

Context (distinct : NoDup (flag <$> fields)) (all : forall n, n ∈ numbers).
Lemma assign_numbers h z : (forall n, fits (width n) (z n)) -> forall g,
  foldl (fun a s => a ≫= assign s.1 s.2) (Some {| host := h; number := g |}) ((fun n => (Some n, pretty (z n))) <$> numbers) =
  Some {| host := h; number := foldl (fun g n => <[n := z n]> g) g numbers |}.
Proof using Type.
  intros Hz. clear distinct all. induction numbers as [|n l IH]; intros g; [done|]. cbn [fmap list_fmap foldl fst snd mbind option_bind assign].
  rewrite read_fits by done. cbn [mbind option_bind host number]. apply IH.
Qed.
Lemma numbers_parse_render defaults a : (forall n, fits (width n) (number a n)) ->
  exists a', parse defaults (render a) = Returned (Some a') /\ host a' = host a /\ forall n, number a' n = number a n.
Proof using distinct all.
  intros Hz. unfold parse, render. rewrite <- (app_nil_r (settings _ _)).
  rewrite (parse_settings fields flag assign true distinct)
    with (args' := {| host := host a; number := foldl (fun g n => <[n := number a n]> g) (number defaults) numbers |}).
  - eexists. split; [done|]. split; [done|]. intros n. cbn [number]. rewrite set_numbers. by rewrite decide_True.
  - constructor; [cbn; set_solver|]. apply Forall_fmap, Forall_forall. intros n Hn. cbn. right. by apply list_elem_of_fmap_2.
  - cbn [foldl fst snd mbind option_bind assign]. by apply assign_numbers.
Qed.
(** Whatever is accepted fits its members' types. *)
Lemma assign_fits f v a a' : assign f v a = Some a' -> (forall n, fits (width n) (number a n)) -> forall n, fits (width n) (number a' n).
Proof using Type.
  destruct f as [m|]; cbn [assign]; [|by intros [= <-]]. intros H Ha n. apply bind_Some in H as (z & Hz & [= <-]). cbn [number].
  destruct (decide (n = m)) as [->|Hn]; [rewrite fn_lookup_insert; by eapply read_as_fits|]. by rewrite fn_lookup_insert_ne.
Qed.
Lemma parse_fits k : forall argv defaults a, (List.length argv < k)%nat -> (forall n, fits (width n) (number defaults n)) ->
  parse defaults argv = Returned (Some a) -> forall n, fits (width n) (number a n).
Proof using Type.
  induction k as [|k IH]; intros argv defaults a Hk Hd H; [lia|]. unfold parse in *. destruct argv as [|w rest]; [by injection H as <-|].
  cbn [parse_loop] in H. destruct (find _ _) as [f|]; [|done]. destruct rest as [|v rest]; [done|].
  destruct (assign f v defaults) as [a1|] eqn:E; [|done]. cbn [List.length] in Hk.
  eapply (IH rest a1); [lia|by eapply assign_fits|exact H].
Qed.
(** A word that is no number is a usage error, not an exception. *)
Lemma parse_bad_number defaults n v rest : read_as (width n) v = None ->
  parse defaults (number_flag n :: v :: rest) = Returned None.
Proof using distinct all.
  intros Hv. unfold parse. change (number_flag n) with (flag (Some n)). rewrite (parse_bad fields flag assign true distinct); [done| |].
  - right. by apply list_elem_of_fmap_2.
  - cbn. by rewrite Hv.
Qed.
End Fields.
Arguments Args : clear implicits.
End HostAndNumbers.
Import HostAndNumbers.

(** ** apps/live_strategy_demo: arguments *)
Module LiveDemoArgs.
Inductive Number := TcpPort | HttpPort | AccountIdOf | InstrumentIdOf | QuoteSize | HalfSpread | MaxPosition | RequoteThreshold
  | PollIntervalMs | SeedCash | SeedPosition.
#[export] Instance Number_eq_dec : EqDecision Number.
Proof. solve_decision. Defined.
Definition numbers : list Number :=
  [TcpPort; HttpPort; AccountIdOf; InstrumentIdOf; QuoteSize; HalfSpread; MaxPosition; RequoteThreshold; PollIntervalMs; SeedCash; SeedPosition].
Definition number_flag (n : Number) : string :=
  match n with
  | TcpPort => "--tcp-port" | HttpPort => "--http-port" | AccountIdOf => "--account" | InstrumentIdOf => "--instrument"
  | QuoteSize => "--quote-size" | HalfSpread => "--half-spread" | MaxPosition => "--max-position"
  | RequoteThreshold => "--requote-threshold" | PollIntervalMs => "--poll-interval-ms" | SeedCash => "--seed-cash"
  | SeedPosition => "--seed-position"
  end.
Definition width (n : Number) : Width :=
  match n with
  | TcpPort | HttpPort => Unsigned16
  | InstrumentIdOf => Unsigned32
  | AccountIdOf | QuoteSize | MaxPosition | SeedPosition => Unsigned64
  | HalfSpread | RequoteThreshold | SeedCash => Signed64
  | PollIntervalMs => Int
  end.
Definition Args_default : Args Number :=
  {| host := "127.0.0.1";
     number := fun n =>
       match n with
       | TcpPort => 7000 | HttpPort => 8080 | AccountIdOf => 9001 | InstrumentIdOf => 1 | QuoteSize => 10 | HalfSpread => 2
       | MaxPosition => 2000 | RequoteThreshold => 2 | PollIntervalMs => 200 | SeedCash => 10000000000 | SeedPosition => 1000
       end |}.
Definition parse_args (argv : list string) : Parsed (Args Number) := parse numbers number_flag width Args_default argv.
Lemma demo_distinct : NoDup (flag number_flag <$> fields numbers).
Proof. flags_distinct. Qed.
Lemma demo_all n : n ∈ numbers.
Proof. destruct n; set_solver. Qed.
Lemma demo_parse_render a : (forall n, fits (width n) (number a n)) ->
  exists a', parse_args (render numbers number_flag a) = Returned (Some a') /\ host a' = host a /\ forall n, number a' n = number a n.
Proof. apply (HostAndNumbers.numbers_parse_render _ _ _ demo_distinct demo_all). Qed.
End LiveDemoArgs.

(** ** apps/market_simulator: arguments *)
Module SimulatorArgs.
Inductive Number := TcpPort | MarketDataPort | InstrumentIdOf | Seed | InitialPrice | WalkStep | QuoteIntervalMs | Steps | StatusIntervalMs
  | MmLevels | MmHalfSpread | MmLevelSpacing | MmQuoteSize | MmMaxPosition
  | MomentumLookback | MomentumThreshold | MomentumTradeSize | MomentumMaxPosition | MomentumCooldown | SeedCash | SeedPosition.
#[export] Instance Number_eq_dec : EqDecision Number.
Proof. solve_decision. Defined.
Definition numbers : list Number :=
  [TcpPort; MarketDataPort; InstrumentIdOf; Seed; InitialPrice; WalkStep; QuoteIntervalMs; Steps; StatusIntervalMs; MmLevels; MmHalfSpread;
   MmLevelSpacing; MmQuoteSize; MmMaxPosition; MomentumLookback; MomentumThreshold; MomentumTradeSize; MomentumMaxPosition;
   MomentumCooldown; SeedCash; SeedPosition].
Definition number_flag (n : Number) : string :=
  match n with
  | TcpPort => "--tcp-port" | MarketDataPort => "--market-data-port" | InstrumentIdOf => "--instrument" | Seed => "--seed"
  | InitialPrice => "--initial-price" | WalkStep => "--mm-walk-step" | QuoteIntervalMs => "--quote-interval-ms" | Steps => "--steps"
  | StatusIntervalMs => "--status-interval-ms" | MmLevels => "--mm-levels" | MmHalfSpread => "--mm-half-spread"
  | MmLevelSpacing => "--mm-level-spacing" | MmQuoteSize => "--mm-quote-size" | MmMaxPosition => "--mm-max-position"
  | MomentumLookback => "--momentum-lookback" | MomentumThreshold => "--momentum-threshold"
  | MomentumTradeSize => "--momentum-trade-size" | MomentumMaxPosition => "--momentum-max-position"
  | MomentumCooldown => "--momentum-cooldown" | SeedCash => "--seed-cash" | SeedPosition => "--seed-position"
  end.
Definition width (n : Number) : Width :=
  match n with
  | TcpPort | MarketDataPort => Unsigned16
  | InstrumentIdOf => Unsigned32
  | Seed | Steps | MmLevels | MmQuoteSize | MomentumLookback | MomentumTradeSize | MomentumCooldown | SeedPosition => Unsigned64
  | InitialPrice | WalkStep | MmHalfSpread | MmLevelSpacing | MmMaxPosition | MomentumThreshold | MomentumMaxPosition | SeedCash => Signed64
  | QuoteIntervalMs | StatusIntervalMs => Int
  end.
Definition Args_default : Args Number :=
  {| host := "127.0.0.1";
     number := fun n =>
       match n with
       | TcpPort => 7000 | MarketDataPort => 7002 | InstrumentIdOf => 1 | Seed => 42 | InitialPrice => 1000000 | WalkStep => 100
       | QuoteIntervalMs => 250 | Steps => 0 | StatusIntervalMs => 2000 | MmLevels => 2 | MmHalfSpread => 100 | MmLevelSpacing => 100
       | MmQuoteSize => 100 | MmMaxPosition => 2000 | MomentumLookback => 20 | MomentumThreshold => 100 | MomentumTradeSize => 50
       | MomentumMaxPosition => 500 | MomentumCooldown => 20 | SeedCash => 100000000000000 | SeedPosition => 1000000
       end |}.
Definition parse_args (argv : list string) : Parsed (Args Number) :=
  parsed_bind (parse numbers number_flag width Args_default argv) (fun a =>
    if (number a MmLevels =? 0) || (number a QuoteIntervalMs <=? 0) || (number a MomentumLookback =? 0) then None else Some a).
Lemma simulator_distinct : NoDup (flag number_flag <$> fields numbers).
Proof. flags_distinct. Qed.
Lemma simulator_all n : n ∈ numbers.
Proof. destruct n; set_solver. Qed.
Lemma simulator_parse_render a : (forall n, fits (width n) (number a n)) -> 0 < number a MmLevels -> 0 < number a QuoteIntervalMs ->
  0 < number a MomentumLookback ->
  exists a', parse_args (render numbers number_flag a) = Returned (Some a') /\ host a' = host a /\ forall n, number a' n = number a n.
Proof.
  intros Hz H1 H2 H3. destruct (HostAndNumbers.numbers_parse_render _ _ _ simulator_distinct simulator_all Args_default a Hz) as (a' & E & Hh & Hn).
  exists a'. split; [|done]. unfold parse_args. rewrite E. cbn [parsed_bind mbind option_bind]. rewrite !Hn.
  by rewrite (proj2 (Z.eqb_neq _ _)), (proj2 (Z.leb_gt _ _)), (proj2 (Z.eqb_neq _ _)) by lia.
Qed.
End SimulatorArgs.
