(* ===== verification/Positions.v ===== *)
(** * Positions and profit: src/trader/positions

    The two trackers fed by the order management system's fills.
    [PositionTracker] keeps what an account holds; [PnlTracker] keeps how its
    trading has done: a signed position, the signed notional of the open part
    and the realized profit.  Both keep an entry per account and instrument,
    default-inserted by the C++ [operator[]].  Every sum and product is
    written at its width.  Each method runs under the class's mutex. *)
From S2P Require Import Prelude Types MapSums Ledger Oms.

(** ** include/trader/positions/position_tracker.hpp *)
Record AccountPosition := {
  ap_cash : Balance;
  ap_holdings : gmap InstrumentId Quantity;
}.
Definition AccountPosition_zero : AccountPosition := {| ap_cash := 0; ap_holdings := ∅ |}.

Module PositionTracker.
(** The member [accounts_]. *)
Abbreviation t := (gmap AccountId AccountPosition) (only parsing).
Definition new : t := ∅.
(** [accounts_[account_id]] and a write through the reference. *)
Definition on_account (account_id : AccountId) (f : AccountPosition -> AccountPosition) (accounts : t) : t :=
  <[account_id := f (default AccountPosition_zero (accounts !! account_id))]> accounts.
Definition cash_add (d : Balance) (b : AccountPosition) : AccountPosition :=
  {| ap_cash := s64 (ap_cash b + d); ap_holdings := ap_holdings b |}.
(** [holdings[instrument_id] += d], at the width of [Quantity]. *)
Definition holding_add (i : InstrumentId) (d : Z) (b : AccountPosition) : AccountPosition :=
  {| ap_cash := ap_cash b; ap_holdings := <[i := u64 (default 0 (ap_holdings b !! i) + d)]> (ap_holdings b) |}.

Definition deposit_cash (accounts : t) (account_id : AccountId) (amount : Balance) : t :=
  on_account account_id (cash_add amount) accounts.
Definition deposit_position (accounts : t) (account_id : AccountId) (instrument_id : InstrumentId)
    (amount : Quantity) : t :=
  on_account account_id (holding_add instrument_id amount) accounts.
Definition apply (accounts : t) (fill : Fill) : t :=
  on_account (fi_account_id fill) (fun account =>
    let notional := s64 (s64 (fi_quantity fill) * fi_price fill) in
    match fi_side fill with
    | Buy => holding_add (fi_instrument_id fill) (fi_quantity fill) (cash_add (- notional) account)
    | Sell => holding_add (fi_instrument_id fill) (- fi_quantity fill) (cash_add notional account)
    end) accounts.

Definition cash (accounts : t) (account_id : AccountId) : Balance :=
  match accounts !! account_id with None => 0 | Some b => ap_cash b end.
Definition position (accounts : t) (account_id : AccountId) (instrument_id : InstrumentId) : Quantity :=
  match accounts !! account_id with
  | None => 0
  | Some b => match ap_holdings b !! instrument_id with None => 0 | Some q => q end
  end.
Definition account (accounts : t) (account_id : AccountId) : AccountPosition :=
  match accounts !! account_id with None => AccountPosition_zero | Some b => b end.
End PositionTracker.

(** ** include/trader/positions/pnl_tracker.hpp, pnl_tracker.cpp *)
Record InstrumentPnl := {
  pn_position : Z;
  pn_open_notional : Balance;
  pn_realized : Balance;
  pn_filled_quantity : Quantity;
  pn_fill_count : Z;
}.
Definition InstrumentPnl_zero : InstrumentPnl :=
  {| pn_position := 0; pn_open_notional := 0; pn_realized := 0; pn_filled_quantity := 0; pn_fill_count := 0 |}.
Record PnlSnapshot := {
  ps_position : Z;
  ps_average_entry_price : Price;
  ps_realized : Balance;
  ps_unrealized : Balance;
  ps_total : Balance;
  ps_filled_quantity : Quantity;
  ps_fill_count : Z;
}.
Definition PnlSnapshot_zero : PnlSnapshot :=
  {| ps_position := 0; ps_average_entry_price := 0; ps_realized := 0; ps_unrealized := 0; ps_total := 0;
     ps_filled_quantity := 0; ps_fill_count := 0 |}.

Module PnlTracker.
Abbreviation t := (gmap AccountId (gmap InstrumentId InstrumentPnl)) (only parsing).
Definition new : t := ∅.

Definition magnitude (value : Z) : Z := if value <? 0 then s64 (- value) else value.
Definition sign_of (value : Z) : Balance := if value <? 0 then -1 else 1.

(** [pnl_.position += delta], [pnl.open_notional += delta * price]. *)
Definition open_at (pnl : InstrumentPnl) (delta : Z) (price : Price) : InstrumentPnl :=
  {| pn_position := s64 (pn_position pnl + delta); pn_open_notional := s64 (pn_open_notional pnl + s64 (delta * price));
     pn_realized := pn_realized pnl; pn_filled_quantity := pn_filled_quantity pnl; pn_fill_count := pn_fill_count pnl |}.
(** The closing part of a fill that reduces the position by [closed]. *)
Definition close_at (pnl : InstrumentPnl) (open closed : Z) (price : Price) : InstrumentPnl :=
  let closed_notional := s64 (Z.quot (s64 (pn_open_notional pnl * closed)) open) in
  let direction := sign_of (pn_position pnl) in
  {| pn_position := s64 (pn_position pnl - s64 (direction * closed));
     pn_open_notional := s64 (pn_open_notional pnl - closed_notional);
     pn_realized := s64 (pn_realized pnl + s64 (s64 (s64 (direction * closed) * price) - closed_notional));
     pn_filled_quantity := pn_filled_quantity pnl; pn_fill_count := pn_fill_count pnl |}.
(** Whatever the fill has left past flat opens the other side. *)
Definition flip_at (pnl : InstrumentPnl) (delta closed : Z) (price : Price) : InstrumentPnl :=
  let flipped := s64 (magnitude delta - closed) in
  if 0 <? flipped then open_at pnl (if 0 <? delta then flipped else - flipped) price else pnl.
(** The guard against a remainder that outlives its position. *)
Definition flat_guard (pnl : InstrumentPnl) : InstrumentPnl :=
  if pn_position pnl =? 0
  then {| pn_position := pn_position pnl; pn_open_notional := 0; pn_realized := pn_realized pnl;
          pn_filled_quantity := pn_filled_quantity pnl; pn_fill_count := pn_fill_count pnl |}
  else pnl.
Definition reduce_at (pnl : InstrumentPnl) (delta : Z) (price : Price) : InstrumentPnl :=
  let open := magnitude (pn_position pnl) in
  let closed := Z.min open (magnitude delta) in
  flat_guard (flip_at (close_at pnl open closed price) delta closed price).
Definition counted (pnl : InstrumentPnl) (fill : Fill) : InstrumentPnl :=
  {| pn_position := pn_position pnl; pn_open_notional := pn_open_notional pnl; pn_realized := pn_realized pnl;
     pn_filled_quantity := u64 (pn_filled_quantity pnl + fi_quantity fill); pn_fill_count := u64 (pn_fill_count pnl + 1) |}.
Definition apply_to (pnl : InstrumentPnl) (fill : Fill) : InstrumentPnl :=
  let quantity := s64 (fi_quantity fill) in
  let delta := match fi_side fill with Buy => quantity | Sell => s64 (- quantity) end in
  let pnl := counted pnl fill in
  let opening_or_adding := (pn_position pnl =? 0) || Bool.eqb (0 <? pn_position pnl) (0 <? delta) in
  if opening_or_adding then open_at pnl delta (fi_price fill) else reduce_at pnl delta (fi_price fill).
(** [accounts_[account_id][instrument_id]]. *)
Definition entry (accounts : t) (account_id : AccountId) (instrument_id : InstrumentId) : InstrumentPnl :=
  default InstrumentPnl_zero (default ∅ (accounts !! account_id) !! instrument_id).
Definition apply (accounts : t) (fill : Fill) : t :=
  <[fi_account_id fill := <[fi_instrument_id fill := apply_to (entry accounts (fi_account_id fill) (fi_instrument_id fill)) fill]>
      (default ∅ (accounts !! fi_account_id fill))]> accounts.

Definition snapshot (accounts : t) (account_id : AccountId) (instrument_id : InstrumentId) (mark : option Price)
    : PnlSnapshot :=
  match accounts !! account_id with
  | None => PnlSnapshot_zero
  | Some instruments =>
      match instruments !! instrument_id with
      | None => PnlSnapshot_zero
      | Some pnl =>
          let unrealized :=
            match mark with Some mark => s64 (s64 (pn_position pnl * mark) - pn_open_notional pnl) | None => 0 end in
          {| ps_position := pn_position pnl;
             ps_average_entry_price :=
               if pn_position pnl =? 0 then 0 else s64 (Z.quot (pn_open_notional pnl) (pn_position pnl));
             ps_realized := pn_realized pnl;
             ps_unrealized := unrealized;
             ps_total := s64 (pn_realized pnl + unrealized);
             ps_filled_quantity := pn_filled_quantity pnl;
             ps_fill_count := pn_fill_count pnl |}
      end
  end.
(** The nested loops of the two totals; each addition is modulo 2^64, so
    the maps' iteration order does not matter. *)
Definition total_over (f : InstrumentPnl -> Z) (accounts : t) : Z :=
  map_fold (fun _ instruments total => map_fold (fun _ pnl total => u64 (total + f pnl)) total instruments) 0 accounts.
Definition total_filled_quantity (accounts : t) : Quantity := total_over pn_filled_quantity accounts.
Definition total_fill_count (accounts : t) : Z := total_over pn_fill_count accounts.
End PnlTracker.

(** ** What a stream of fills comes to *)
Definition signed_quantity (f : Fill) : Z := match fi_side f with Buy => fi_quantity f | Sell => - fi_quantity f end.
Definition net (fs : list Fill) : Z := foldr (fun f n => signed_quantity f + n) 0 fs.
(** Cash received less cash paid. *)
Definition flow (fs : list Fill) : Z := foldr (fun f n => n - signed_quantity f * fi_price f) 0 fs.
Definition volume (fs : list Fill) : Z := foldr (fun f n => fi_quantity f + n) 0 fs.
Definition of_account (a : AccountId) (f : Fill) : Prop := fi_account_id f = a.
Definition of_instrument (i : InstrumentId) (f : Fill) : Prop := fi_instrument_id f = i.
#[export] Typeclasses Opaque of_account of_instrument.
#[export] Instance of_account_dec a f : Decision (of_account a f) := decide (fi_account_id f = a).
#[export] Instance of_instrument_dec i f : Decision (of_instrument i f) := decide (fi_instrument_id f = i).

Lemma net_snoc fs f : net (fs ++ [f]) = net fs + signed_quantity f.
Proof. unfold net. induction fs as [|g fs IH]; cbn [foldr app]; lia. Qed.
Lemma flow_snoc fs f : flow (fs ++ [f]) = flow fs - signed_quantity f * fi_price f.
Proof. unfold flow. induction fs as [|g fs IH]; cbn [foldr app]; lia. Qed.
Lemma volume_snoc fs f : volume (fs ++ [f]) = volume fs + fi_quantity f.
Proof. unfold volume. induction fs as [|g fs IH]; cbn [foldr app]; lia. Qed.

(** ** The position tracker, per account *)
Lemma tracker_cash_apply accounts f a :
  PositionTracker.cash (PositionTracker.apply accounts f) a =
  if decide (of_account a f) then s64 (PositionTracker.cash accounts a - signed_quantity f * fi_price f)
  else PositionTracker.cash accounts a.
Proof.
  unfold PositionTracker.cash, PositionTracker.apply, PositionTracker.on_account, of_account.
  case_decide as Ha; [subst a; rewrite lookup_insert_eq|by rewrite lookup_insert_ne].
  replace (match accounts !! fi_account_id f with None => 0 | Some b => ap_cash b end)
    with (ap_cash (default AccountPosition_zero (accounts !! fi_account_id f))) by (by destruct (accounts !! _)).
  unfold signed_quantity. destruct (fi_side f); cbn.
  - rewrite Z.add_opp_r, s64_sub_idemp_r, <- s64_sub_idemp_r, s64_mul_idemp_l, s64_sub_idemp_r. done.
  - rewrite s64_add_idemp_r, <- s64_add_idemp_r, s64_mul_idemp_l, s64_add_idemp_r. f_equal. lia.
Qed.
Lemma tracker_position_apply accounts f a i :
  PositionTracker.position (PositionTracker.apply accounts f) a i =
  if decide (of_account a f /\ of_instrument i f) then u64 (PositionTracker.position accounts a i + signed_quantity f)
  else PositionTracker.position accounts a i.
Proof.
  unfold PositionTracker.position, PositionTracker.apply, PositionTracker.on_account, of_account, of_instrument.
  destruct (decide (fi_account_id f = a)) as [Ha|Ha].
  2:{ rewrite lookup_insert_ne by done. by rewrite decide_False by naive_solver. }
  subst a. rewrite lookup_insert_eq. unfold signed_quantity.
  destruct (decide (fi_instrument_id f = i)) as [Hi|Hi].
  - subst i. rewrite decide_True by done. destruct (accounts !! _) as [b|]; destruct (fi_side f); cbn;
      rewrite lookup_insert_eq; try done; by destruct (ap_holdings b !! _).
  - rewrite decide_False by naive_solver. destruct (accounts !! _) as [b|]; destruct (fi_side f); cbn;
      by rewrite lookup_insert_ne.
Qed.
Lemma tracker_cash fs a : forall accounts,
  s64 (PositionTracker.cash (foldl PositionTracker.apply accounts fs) a) =
  s64 (PositionTracker.cash accounts a + flow (filter (of_account a) fs)).
Proof.
  induction fs as [|f fs IH]; intros accounts; cbn [foldl].
  - rewrite filter_nil. cbn. f_equal. lia.
  - rewrite IH, tracker_cash_apply, filter_cons. case_decide; [|done]. rewrite s64_add_idemp_l. unfold flow. cbn [foldr]. f_equal. lia.
Qed.
Lemma tracker_position fs a i : forall accounts,
  u64 (PositionTracker.position (foldl PositionTracker.apply accounts fs) a i) =
  u64 (PositionTracker.position accounts a i + net (filter (of_instrument i) (filter (of_account a) fs))).
Proof.
  induction fs as [|f fs IH]; intros accounts; cbn [foldl].
  - rewrite !filter_nil. cbn. f_equal. lia.
  - rewrite IH, tracker_position_apply, filter_cons. destruct (decide (of_account a f)) as [Ha|Ha].
    + rewrite filter_cons. destruct (decide (of_instrument i f)) as [Hi|Hi].
      * rewrite decide_True by done. rewrite u64_add_idemp_l. unfold net. cbn [foldr]. f_equal. lia.
      * rewrite decide_False by naive_solver. done.
    + rewrite decide_False by naive_solver. done.
Qed.

(** ** The profit tracker, per entry *)
Lemma entry_apply accounts f a i :
  PnlTracker.entry (PnlTracker.apply accounts f) a i =
  if decide (of_account a f /\ of_instrument i f) then PnlTracker.apply_to (PnlTracker.entry accounts a i) f
  else PnlTracker.entry accounts a i.
Proof.
  unfold PnlTracker.apply, PnlTracker.entry, of_account, of_instrument.
  destruct (decide (fi_account_id f = a)) as [Ha|Ha]; [subst a; rewrite lookup_insert_eq; cbn [from_option id]|].
  - destruct (decide (fi_instrument_id f = i)) as [Hi|Hi]; [subst i; rewrite lookup_insert_eq|rewrite lookup_insert_ne by done].
    + by rewrite decide_True.
    + rewrite decide_False by naive_solver. done.
  - rewrite lookup_insert_ne by done. rewrite decide_False by naive_solver. done.
Qed.
Lemma entry_run fs a i : forall accounts,
  PnlTracker.entry (foldl PnlTracker.apply accounts fs) a i =
  foldl PnlTracker.apply_to (PnlTracker.entry accounts a i) (filter (of_instrument i) (filter (of_account a) fs)).
Proof.
  induction fs as [|f fs IH]; intros accounts; cbn [foldl]; [done|].
  rewrite IH, entry_apply, filter_cons. destruct (decide (of_account a f)) as [Ha|Ha].
  - rewrite filter_cons. destruct (decide (of_instrument i f)); [rewrite decide_True by done|rewrite decide_False by naive_solver]; done.
  - rewrite decide_False by naive_solver. done.
Qed.
Lemma snapshot_entry accounts a i mark :
  let pnl := PnlTracker.entry accounts a i in let snap := PnlTracker.snapshot accounts a i mark in
  ps_position snap = pn_position pnl /\ ps_realized snap = pn_realized pnl /\
  ps_filled_quantity snap = pn_filled_quantity pnl /\ ps_fill_count snap = pn_fill_count pnl /\
  ps_unrealized snap = match mark with Some p => s64 (s64 (pn_position pnl * p) - pn_open_notional pnl) | None => 0 end /\
  ps_total snap = s64 (pn_realized pnl + ps_unrealized snap).
Proof.
  cbn zeta. unfold PnlTracker.entry, PnlTracker.snapshot. destruct (accounts !! a) as [instruments|]; cbn.
  2:{ rewrite lookup_empty. cbn. by destruct mark. }
  destruct (instruments !! i) as [pnl|]; cbn; [done|by destruct mark].
Qed.

(** ** The slice of a cost basis *)
Lemma slice_bounds o c n P : 0 < n -> 0 <= c <= n -> Z.abs o <= n * P ->
  let cn := Z.quot (o * c) n in
  Z.abs cn <= Z.abs o /\ Z.abs (o - cn) <= (n - c) * P /\ (c = n -> cn = o).
Proof.
  intros Hn Hc Ho cn. split_and!.
  3:{ intros ->. unfold cn. apply Z.quot_mul. lia. }
  all: unfold cn; clear cn; destruct (Z.le_gt_cases 0 o) as [Hs|Hs].
  - pose proof (Z.quot_pos (o * c) n ltac:(nia) Hn). pose proof (Z.quot_le_mono (o * c) (o * n) n Hn ltac:(nia)) as H2.
    rewrite (Z.quot_mul o n) in H2 by lia. lia.
  - assert (E : o * c = - (- o * c)) by lia. rewrite E, Z.quot_opp_l by lia.
    pose proof (Z.quot_pos (- o * c) n ltac:(nia) Hn). pose proof (Z.quot_le_mono (- o * c) (- o * n) n Hn ltac:(nia)) as H2.
    rewrite (Z.quot_mul (- o) n) in H2 by lia. lia.
  - pose proof (Z.quot_rem' (o * c) n). pose proof (Z.rem_bound_pos (o * c) n ltac:(nia) Hn).
    pose proof (Z.quot_le_mono (o * c) (o * n) n Hn ltac:(nia)) as H2. rewrite (Z.quot_mul o n) in H2 by lia. nia.
  - assert (E : o * c = - (- o * c)) by lia. rewrite E, Z.quot_opp_l by lia.
    pose proof (Z.quot_rem' (- o * c) n). pose proof (Z.rem_bound_pos (- o * c) n ltac:(nia) Hn).
    pose proof (Z.quot_le_mono (- o * c) (- o * n) n Hn ltac:(nia)) as H2. rewrite (Z.quot_mul (- o) n) in H2 by lia. nia.
Qed.

Lemma abs_mul_le a b A B : Z.abs a <= A -> Z.abs b <= B -> Z.abs (a * b) <= A * B.
Proof. intros Ha Hb. rewrite Z.abs_mul. apply Z.mul_le_mono_nonneg; lia. Qed.
Lemma s64_abs z : Z.abs z < two63 -> s64 z = z.
Proof. intros. apply s64_small. lia. Qed.

(** ** An entry and the fills it has seen

    [Q] bounds the quantity ever filled and [P] the prices: the code's
    largest intermediate value is open notional times closed quantity. *)
Section Entry.
Context (Q P : Z) (HQ : 0 <= Q < two63) (HP : 0 <= P) (HQQP : Q * P * Q < two63) (HQP : 2 * (Q * P) < two63).

Record entry_ok (pnl : InstrumentPnl) (n c v : Z) : Prop := {
eo_position : pn_position pnl = n;
eo_net : Z.abs n <= v <= Q;
eo_open : Z.abs (pn_open_notional pnl) <= Z.abs n * P;
eo_flow : pn_realized pnl - pn_open_notional pnl = c;
eo_flow_bound : Z.abs c <= v * P;
}.

Lemma open_at_ok pnl n c v d p : entry_ok pnl n c v -> v + Z.abs d <= Q -> Z.abs p <= P ->
n = 0 \/ d = 0 \/ (0 < n <-> 0 < d) ->
entry_ok (PnlTracker.open_at pnl d p) (n + d) (c - d * p) (v + Z.abs d).
Proof using HQ HP HQQP HQP.
intros [H1 H2 H3 H4 H5] Hv Hp Hsign. pose proof (abs_mul_le d p (Z.abs d) P ltac:(lia) Hp) as Hdp.
assert (Hsum : Z.abs (n + d) = Z.abs n + Z.abs d) by lia.
pose proof (Z.mul_le_mono_nonneg_r (v + Z.abs d) Q P HP Hv) as HvP.
pose proof (Z.mul_le_mono_nonneg_r (Z.abs (n + d)) (v + Z.abs d) P HP ltac:(lia)) as HnP.
rewrite Hsum in HnP. rewrite !Z.mul_add_distr_r in *.
unfold PnlTracker.open_at. rewrite (s64_abs (d * p)) by lia. rewrite (s64_abs (pn_open_notional pnl + d * p)) by lia.
rewrite H1, (s64_abs (n + d)) by lia. split; cbn; rewrite ?Hsum, ?Z.mul_add_distr_r; lia.
Qed.
(** The truncated slice moves between realized and open; their difference,
  the cash flow, is exact. *)
Lemma close_at_ok pnl n c v closed p : entry_ok pnl n c v -> n <> 0 -> 0 <= closed <= Z.abs n -> v + closed <= Q -> Z.abs p <= P ->
  let d := - PnlTracker.sign_of n * closed in
  let pnl' := PnlTracker.close_at pnl (Z.abs n) closed p in
  entry_ok pnl' (n + d) (c - d * p) (v + closed) /\ (n + d = 0 -> pn_open_notional pnl' = 0).
Proof using HQ HP HQQP HQP.
intros [H1 H2 H3 H4 H5] Hn Hc Hv Hp d.
destruct (slice_bounds (pn_open_notional pnl) closed (Z.abs n) P ltac:(lia) Hc H3) as (B1 & B2 & B3).
assert (Hd : Z.abs d = closed /\ Z.abs (n + d) = Z.abs n - closed /\ PnlTracker.sign_of n * closed = - d).
{ unfold d, PnlTracker.sign_of. destruct (Z.ltb_spec n 0); lia. }
destruct Hd as (Hd & Hnd & Hdir). clearbody d. pose proof (abs_mul_le d p closed P ltac:(lia) Hp) as Hdp.
pose proof (Z.mul_le_mono_nonneg_r (v + closed) Q P HP Hv) as HvP.
pose proof (Z.mul_le_mono_nonneg_r (Z.abs n) v P HP ltac:(lia)) as HnP.
pose proof (Z.mul_le_mono_nonneg_r closed (Z.abs n) P HP ltac:(lia)) as HcP.
pose proof (abs_mul_le (pn_open_notional pnl) closed (Q * P) Q ltac:(lia) ltac:(lia)) as Hoc.
rewrite Z.mul_add_distr_r in HvP. rewrite Z.mul_sub_distr_r in B2.
unfold PnlTracker.close_at. cbn zeta. rewrite H1, Hdir, (s64_abs _ (Z.le_lt_trans _ _ _ Hoc HQQP)).
set (cn := Z.quot _ _) in *. clearbody cn.
rewrite (s64_abs cn) by lia. rewrite (s64_abs (- d)) by lia. rewrite Z.mul_opp_l. rewrite (s64_abs (- (d * p))) by lia.
rewrite (s64_abs (- (d * p) - cn)) by lia. rewrite (s64_abs (n - - d)) by lia.
rewrite (s64_abs (pn_open_notional pnl - cn)) by lia.
rewrite (s64_abs (pn_realized pnl + _)) by lia.
split; [split; cbn; rewrite ?Hnd, ?Z.mul_add_distr_r, ?Z.mul_sub_distr_r; lia|]. intros H0. cbn. assert (closed = Z.abs n) by lia. lia.
Qed.

Lemma magnitude_abs z : Z.abs z < two63 -> PnlTracker.magnitude z = Z.abs z.
Proof. intros Hz. unfold PnlTracker.magnitude. destruct (Z.ltb_spec z 0); [rewrite s64_abs|]; lia. Qed.
(** The guard has nothing to clear: a flat entry's basis is already zero. *)
Lemma flat_guard_id pnl : (pn_position pnl = 0 -> pn_open_notional pnl = 0) -> PnlTracker.flat_guard pnl = pnl.
Proof.
unfold PnlTracker.flat_guard. destruct (Z.eqb_spec (pn_position pnl) 0) as [E|E]; [|done].
intros Ho. specialize (Ho E). destruct pnl. cbn in *. by subst.
Qed.
Lemma entry_flat pnl n c v : entry_ok pnl n c v -> pn_position pnl = 0 -> pn_open_notional pnl = 0.
Proof using. intros [<- _ Ho _ _] E. rewrite E in Ho. lia. Qed.

Lemma reduce_at_ok pnl n c v d p : entry_ok pnl n c v -> v + Z.abs d <= Q -> Z.abs p <= P -> n <> 0 -> (0 < n <-> d <= 0) ->
entry_ok (PnlTracker.reduce_at pnl d p) (n + d) (c - d * p) (v + Z.abs d).
Proof using HQ HP HQQP HQP.
intros H Hv Hp Hn Hsign. pose proof (eo_net _ _ _ _ H). unfold PnlTracker.reduce_at.
rewrite (eo_position _ _ _ _ H), !magnitude_abs by lia. set (closed := Z.min (Z.abs n) (Z.abs d)).
destruct (close_at_ok pnl n c v closed p H Hn ltac:(lia) ltac:(lia) Hp) as [H1 Hz].
replace (- PnlTracker.sign_of n * closed) with (if 0 <? d then closed else - closed) in H1, Hz.
2:{ unfold PnlTracker.sign_of. destruct (Z.ltb_spec n 0), (Z.ltb_spec 0 d); lia. }
set (pnl1 := PnlTracker.close_at _ _ _ _) in *. clearbody pnl1.
assert (H2 : entry_ok (PnlTracker.flip_at pnl1 d closed p) (n + d) (c - d * p) (v + Z.abs d)).
{ unfold PnlTracker.flip_at. rewrite magnitude_abs, s64_abs by lia. destruct (Z.ltb_spec 0 (Z.abs d - closed)) as [Hf|Hf].
  - set (fl := if 0 <? d then _ else _). set (dc := if 0 <? d then _ else _) in *.
    assert (Hfl : Z.abs fl = Z.abs d - closed /\ d = dc + fl /\ n + dc = 0) by (unfold fl, dc; destruct (Z.ltb_spec 0 d); lia).
    destruct Hfl as (Hfl & E & Hflat). clearbody dc fl. rewrite E at 1 2. replace (n + (dc + fl)) with (n + dc + fl) by lia.
    replace (c - (dc + fl) * p) with (c - dc * p - fl * p) by lia. replace (v + Z.abs d) with (v + closed + Z.abs fl) by lia.
    apply open_at_ok; [exact H1|lia|exact Hp|left; exact Hflat].
  - replace (if 0 <? d then closed else - closed) with d in H1 by (destruct (Z.ltb_spec 0 d); lia).
    by replace (Z.abs d) with closed by lia. }
rewrite flat_guard_id; [done|]. by eapply entry_flat.
Qed.
Lemma apply_to_ok pnl n c v f : entry_ok pnl n c v -> 0 <= fi_quantity f -> v + fi_quantity f <= Q -> Z.abs (fi_price f) <= P ->
entry_ok (PnlTracker.apply_to pnl f) (n + signed_quantity f) (c - signed_quantity f * fi_price f) (v + fi_quantity f).
Proof using HQ HP HQQP HQP.
intros H Hq Hv Hp. pose proof (eo_net _ _ _ _ H) as Hn.
set (d := signed_quantity f). assert (Hd : Z.abs d = fi_quantity f) by (unfold d, signed_quantity; destruct (fi_side f); lia).
assert (H0 : entry_ok (PnlTracker.counted pnl f) n c v) by (destruct H; by split).
unfold PnlTracker.apply_to. rewrite (s64_abs (fi_quantity f)), (s64_abs (- fi_quantity f)) by lia.
change (match fi_side f with Buy => _ | Sell => _ end) with d. clearbody d.
rewrite (eo_position _ _ _ _ H0), <- Hd. case_match eqn:Eo.
- apply open_at_ok; [done|lia|done|]. apply orb_true_iff in Eo as [Eo|Eo]; [lia|].
  apply eqb_prop in Eo. destruct (Z.ltb_spec 0 n), (Z.ltb_spec 0 d); try done; lia.
- apply orb_false_iff in Eo as [En Eo]. apply eqb_false_iff in Eo.
  destruct (Z.ltb_spec 0 n), (Z.ltb_spec 0 d); try done; apply reduce_at_ok; done || lia.
Qed.
End Entry.

(** ** A run of fills *)
Definition fills_within (Q P : Z) (fs : list Fill) : Prop :=
  Forall (fun f => 0 <= fi_quantity f /\ Z.abs (fi_price f) <= P) fs /\ volume fs <= Q.
Lemma volume_nonneg fs : Forall (fun f => 0 <= fi_quantity f) fs -> 0 <= volume fs.
Proof. unfold volume. induction 1; cbn [foldr]; lia. Qed.
Lemma volume_filter (R : Fill -> Prop) `{!forall f, Decision (R f)} fs :
  Forall (fun f => 0 <= fi_quantity f) fs -> volume (filter R fs) <= volume fs.
Proof.
  unfold volume. induction 1 as [|f fs Hf Hfs IH]; [done|]. rewrite filter_cons. case_decide; cbn [foldr]; lia.
Qed.
Lemma fills_within_filter Q P (R : Fill -> Prop) `{!forall f, Decision (R f)} fs :
  fills_within Q P fs -> fills_within Q P (filter R fs).
Proof.
  intros [Hf Hv]. split; [by apply Forall_filter_keep|]. etransitivity; [apply volume_filter|done].
  eapply Forall_impl; [exact Hf|]. by intros f [? _].
Qed.
Lemma entry_of_fills Q P fs : 0 <= Q < two63 -> 0 <= P -> Q * P * Q < two63 -> 2 * (Q * P) < two63 ->
  fills_within Q P fs -> entry_ok Q P (foldl PnlTracker.apply_to InstrumentPnl_zero fs) (net fs) (flow fs) (volume fs).
Proof.
  intros HQ HP H1 H2. induction fs as [|f fs IH] using rev_ind; intros [Hf Hv]; [split; cbn; lia|].
  apply Forall_app in Hf as [Hfs [[Hq Hp] _]%Forall_cons]. rewrite volume_snoc in *.
  rewrite foldl_app, net_snoc, flow_snoc. apply apply_to_ok; try done. apply IH. split; [done|lia].
Qed.
Lemma apply_to_counts pnl f :
  pn_filled_quantity (PnlTracker.apply_to pnl f) = u64 (pn_filled_quantity pnl + fi_quantity f) /\
  pn_fill_count (PnlTracker.apply_to pnl f) = u64 (pn_fill_count pnl + 1).
Proof.
  unfold PnlTracker.apply_to, PnlTracker.reduce_at, PnlTracker.flat_guard, PnlTracker.flip_at, PnlTracker.open_at. cbn zeta.
  repeat case_match; done.
Qed.
Lemma counts_of_fills fs : let pnl := foldl PnlTracker.apply_to InstrumentPnl_zero fs in
  pn_filled_quantity pnl = u64 (volume fs) /\ pn_fill_count pnl = u64 (Z.of_nat (length fs)).
Proof.
  induction fs as [|f fs IH] using rev_ind; [done|]. cbn zeta in *. rewrite foldl_app. cbn [foldl].
  destruct (apply_to_counts (foldl PnlTracker.apply_to InstrumentPnl_zero fs) f) as [-> ->]. destruct IH as [-> ->].
  rewrite volume_snoc, length_app, !u64_add_idemp_l. split; [done|]. f_equal. cbn. lia.
Qed.

(** ** Summing over instruments *)
Definition sum_over {A} (g : A -> Z) (l : list A) : Z := foldr (fun x n => g x + n) 0 l.
Lemma sum_over_ext {A} (g h : A -> Z) l : (forall x, x ∈ l -> g x = h x) -> sum_over g l = sum_over h l.
Proof.
  unfold sum_over. induction l as [|x l IH]; intros H; [done|]. cbn [foldr]. rewrite (H x) by left. rewrite IH; [done|].
  intros y Hy. apply H. by right.
Qed.
Lemma sum_over_plus {A} (g h : A -> Z) l : sum_over (fun x => g x + h x) l = sum_over g l + sum_over h l.
Proof. unfold sum_over. induction l as [|x l IH]; cbn [foldr]; lia. Qed.
Lemma sum_over_at `{EqDecision A} (d : Z) (y : A) l : NoDup l -> sum_over (fun x => if decide (y = x) then d else 0) l =
  if decide (y ∈ l) then d else 0.
Proof.
  induction l as [|x l IH]; intros Hnd; [by rewrite decide_False by apply not_elem_of_nil|].
  apply NoDup_cons in Hnd as [Hx Hnd]. unfold sum_over in *. cbn [foldr]. rewrite (IH Hnd). clear IH.
  destruct (decide (y = x)) as [->|Hyx]; [rewrite (decide_False (P := x ∈ l)) by done; rewrite decide_True by left; lia|].
  destruct (decide (y ∈ l)); [rewrite decide_True by (by right)|rewrite decide_False; [|rewrite elem_of_cons; naive_solver]]; lia.
Qed.
Lemma s64_sum {A} (g h : A -> Z) l : (forall x, s64 (g x) = s64 (h x)) -> s64 (sum_over g l) = s64 (sum_over h l).
Proof.
  intros H. unfold sum_over. induction l as [|x l IH]; [done|]. cbn [foldr].
  rewrite <- s64_add_idemp_l, H, s64_add_idemp_l, <- s64_add_idemp_r, IH, s64_add_idemp_r. done.
Qed.
(** The cash of an account's fills is that of its instruments together. *)
Lemma flow_by_instrument syms fs : NoDup syms -> (forall f, f ∈ fs -> fi_instrument_id f ∈ syms) ->
  sum_over (fun i => flow (filter (of_instrument i) fs)) syms = flow fs.
Proof.
  intros Hnd. induction fs as [|f fs IH]; intros Hin; [clear; induction syms as [|x l IHl]; [done|unfold sum_over in *; cbn [foldr]; by rewrite IHl]|].
  transitivity (sum_over (fun i => (if decide (fi_instrument_id f = i) then - (signed_quantity f * fi_price f) else 0) +
                                   flow (filter (of_instrument i) fs)) syms).
  - apply sum_over_ext. intros i _. rewrite filter_cons. destruct (decide (of_instrument i f)) as [E|E]; unfold of_instrument in E.
    + rewrite decide_True by done. unfold flow. cbn [foldr]. lia.
    + rewrite decide_False by done. lia.
  - rewrite sum_over_plus, (sum_over_at _ (fi_instrument_id f) syms Hnd). rewrite decide_True by (apply Hin; left).
    rewrite IH by (intros g Hg; apply Hin; by right). unfold flow. cbn [foldr]. lia.
Qed.
