(* ===== verification/TraderRisk.v ===== *)
(** * The trader's own risk gate: src/trader/risk

    [TraderRiskEngine.check] against the position tracker, and the
    composition of the engine, the tracker and the order management system
    behind the latter's own operations.  Every fill the order management
    system reports goes to the tracker first and then to the observer the
    owner may have installed ([fan_out]); the observer is an argument, with
    its own state, and may read the tracker. *)
From S2P Require Import Prelude Types OrderEntryCodec Ledger Oms OmsDesk Positions.

Record TraderRiskLimits := { trl_max_order_quantity : Quantity }.
Definition TraderRiskLimits_default : TraderRiskLimits := {| trl_max_order_quantity := 1000000 |}.

(** ** trader_risk_engine.cpp *)
Definition check (limits : TraderRiskLimits) (account_id : AccountId) (instrument_id : InstrumentId) (side : Side)
    (price : Price) (quantity : Quantity) (positions : PositionTracker.t) : RejectReason.t :=
  if trl_max_order_quantity limits <? quantity then RejectReason.OrderTooLarge
  else
    match side with
    | Buy =>
        let notional := s64 (s64 quantity * price) in
        if PositionTracker.cash positions account_id <? notional then RejectReason.InsufficientFunds
        else RejectReason.None
    | Sell =>
        if PositionTracker.position positions account_id instrument_id <? quantity
        then RejectReason.InsufficientPosition
        else RejectReason.None
    end.

(** ** trader_risk_gated_oms.cpp *)
Record SubmitOutcome := {
  so_client_order_id : option ClientOrderId;
  so_local_reject_reason : RejectReason.t;
}.

Section GatedOms.
Context {X : Type} (extra_fill_sink : option (X -> PositionTracker.t -> Fill -> X)).

Record TraderRiskGatedOms := {
  tg_account_id : AccountId;
  tg_risk : TraderRiskLimits;
  tg_positions : PositionTracker.t;
  tg_oms : OrderManagementSystem;
  tg_observer : X;
}.
Definition TraderRiskGatedOms_new (account_id : AccountId) (limits : TraderRiskLimits) (observer : X) : TraderRiskGatedOms :=
  {| tg_account_id := account_id; tg_risk := limits; tg_positions := PositionTracker.new;
     tg_oms := OrderManagementSystem_new account_id; tg_observer := observer |}.
Definition tg_with_oms (g : TraderRiskGatedOms) (oms : OrderManagementSystem) : TraderRiskGatedOms :=
  {| tg_account_id := tg_account_id g; tg_risk := tg_risk g; tg_positions := tg_positions g; tg_oms := oms;
     tg_observer := tg_observer g |}.
Definition tg_with_positions (g : TraderRiskGatedOms) (p : PositionTracker.t) : TraderRiskGatedOms :=
  {| tg_account_id := tg_account_id g; tg_risk := tg_risk g; tg_positions := p; tg_oms := tg_oms g;
     tg_observer := tg_observer g |}.

(** The one [FillSink]: the tracker, then the observer if there is one. *)
Definition fan_out (g : TraderRiskGatedOms) (fill : Fill) : TraderRiskGatedOms :=
  let p := PositionTracker.apply (tg_positions g) fill in
  {| tg_account_id := tg_account_id g; tg_risk := tg_risk g; tg_positions := p; tg_oms := tg_oms g;
     tg_observer := match extra_fill_sink with None => tg_observer g | Some f => f (tg_observer g) p fill end |}.
(** What the order management system tells its sinks, in order. *)
Definition sink (g : TraderRiskGatedOms) (out : OmsOutput) : TraderRiskGatedOms :=
  match out with OutFill fill => fan_out g fill | OutSend _ | OutUpdate _ => g end.

Definition submit_new_order (g : TraderRiskGatedOms) (sent : bool) (instrument_id : InstrumentId) (side : Side)
    (price : Price) (quantity : Quantity) (order_type : OrderType) (time_in_force : TimeInForce)
    : TraderRiskGatedOms * list OmsOutput * SubmitOutcome :=
  let reason := check (tg_risk g) (tg_account_id g) instrument_id side price quantity (tg_positions g) in
  if negb (bool_decide (reason = RejectReason.None))
  then (g, [], {| so_client_order_id := None; so_local_reject_reason := reason |})
  else
    let '(oms, out, id) := Oms.submit_new_order (tg_oms g) sent instrument_id side price quantity order_type time_in_force in
    (foldl sink (tg_with_oms g oms) out, out,
     {| so_client_order_id := Some id; so_local_reject_reason := RejectReason.None |}).
Definition cancel_order (g : TraderRiskGatedOms) (sent : bool) (client_order_id : ClientOrderId)
    : TraderRiskGatedOms * list OmsOutput * bool :=
  let '(oms, out, ok) := Oms.cancel_order (tg_oms g) sent client_order_id in (foldl sink (tg_with_oms g oms) out, out, ok).
Definition replace_order (g : TraderRiskGatedOms) (sent : bool) (client_order_id : ClientOrderId) (new_price : Price)
    (new_quantity : Quantity) : TraderRiskGatedOms * list OmsOutput * option ClientOrderId :=
  let '(oms, out, id) := Oms.replace_order (tg_oms g) sent client_order_id new_price new_quantity in
  (foldl sink (tg_with_oms g oms) out, out, id).
Definition handle_message (g : TraderRiskGatedOms) (message : OrderEntry.Message) : TraderRiskGatedOms * list OmsOutput :=
  let (oms, out) := Oms.handle_message (tg_oms g) message in (foldl sink (tg_with_oms g oms) out, out).

Definition order (g : TraderRiskGatedOms) (client_order_id : ClientOrderId) : option ClientOrder :=
  Oms.order (tg_oms g) client_order_id.
Definition orders (g : TraderRiskGatedOms) (walk : list ClientOrderId) : list ClientOrder := Oms.orders (tg_oms g) walk.
Definition cash (g : TraderRiskGatedOms) : Balance := PositionTracker.cash (tg_positions g) (tg_account_id g).
Definition position (g : TraderRiskGatedOms) (instrument_id : InstrumentId) : Quantity :=
  PositionTracker.position (tg_positions g) (tg_account_id g) instrument_id.
Definition deposit_cash (g : TraderRiskGatedOms) (amount : Balance) : TraderRiskGatedOms :=
  tg_with_positions g (PositionTracker.deposit_cash (tg_positions g) (tg_account_id g) amount).
Definition deposit_position (g : TraderRiskGatedOms) (instrument_id : InstrumentId) (amount : Quantity) : TraderRiskGatedOms :=
  tg_with_positions g (PositionTracker.deposit_position (tg_positions g) (tg_account_id g) instrument_id amount).

(** ** What the sinks come to *)
Definition fills_in (outs : list OmsOutput) : list Fill := omap (fun o => match o with OutFill f => Some f | _ => None end) outs.
Lemma sink_all outs : forall g, let g' := foldl sink g outs in
  tg_account_id g' = tg_account_id g /\ tg_risk g' = tg_risk g /\ tg_oms g' = tg_oms g /\
  tg_positions g' = foldl PositionTracker.apply (tg_positions g) (fills_in outs).
Proof using.
  induction outs as [|o outs IH]; intros g; [done|]. cbn zeta in *. cbn [foldl].
  destruct (IH (sink g o)) as (-> & -> & -> & ->). by destruct o.
Qed.
End GatedOms.
Arguments TraderRiskGatedOms X : clear implicits.
