(* ===== verification/UiGateway.v ===== *)
(** * The browser's front door: src/ui_gateway/ui_gateway.cpp

    One session per demo account -- the trader's own gate, order management
    system and transport -- a copy of the exchange's books rebuilt from the
    feed, and a hub of latest values for the event streams.  The JSON library
    is a parameter ([JsonLib]), a request is what the HTTP library hands the
    handler, and what sockets and maps answer is [Outside].  A handler runs
    whole: sessions are only added under their mutex, and each operation on
    one is under its own. *)
From Stdlib Require Import String.
From S2P Require Import Prelude Types CommandLine ByteIO MarketDataCodec OrderEntryCodec Ledger TraderBook TraderBooks SequenceValidator FeedReplay Packet Oms OrderEntryClient Positions TraderRisk.

Local Open Scope Z_scope.
Local Open Scope list_scope.

(** ** nlohmann::json, as the source uses it

    [None] is an exception. *)
Class JsonLib := {
  json : Type;
  json_null : json;
  json_bool : bool -> json;
  json_int : Z -> json;
  json_string : string -> json;
  json_array : list json -> json;
  json_object : list (string * json) -> json;
  dump : json -> string;
  parse : string -> option json;
  at_key : json -> string -> option json;
  contains : json -> string -> bool;
  get_u64 : json -> option Z;
  get_s64 : json -> option Z;
  get_u32 : json -> option Z;
  get_string : json -> option string;
}.

(** ** Names of enumerators: include/exchange/core/types.hpp, client_order.hpp *)
Definition side_to_string (side : Side) : string := if bool_decide (side = Buy) then "Buy" else "Sell".
Definition order_type_to_string (t : OrderType) : string := match t with Limit => "Limit" end.
Definition time_in_force_to_string (t : TimeInForce) : string := match t with GTC => "GTC" | IOC => "IOC" | FOK => "FOK" end.
Definition reject_reason_to_string (r : RejectReason.t) : string :=
  match r with
  | RejectReason.None => "None"
  | RejectReason.InvalidPrice => "InvalidPrice"
  | RejectReason.InvalidQuantity => "InvalidQuantity"
  | RejectReason.DuplicateOrderId => "DuplicateOrderId"
  | RejectReason.UnknownOrderId => "UnknownOrderId"
  | RejectReason.InvalidInstrument => "InvalidInstrument"
  | RejectReason.InsufficientLiquidity => "InsufficientLiquidity"
  | RejectReason.InvalidReplacement => "InvalidReplacement"
  | RejectReason.InternalError => "InternalError"
  | RejectReason.InsufficientFunds => "InsufficientFunds"
  | RejectReason.InsufficientPosition => "InsufficientPosition"
  | RejectReason.OrderTooLarge => "OrderTooLarge"
  | RejectReason.AccountMismatch => "AccountMismatch"
  end.
Definition client_order_state_to_string (s : ClientOrderState) : string :=
  match s with
  | PendingNew => "PendingNew"
  | Live => "Live"
  | PartiallyFilled => "PartiallyFilled"
  | Filled => "Filled"
  | Rejected => "Rejected"
  | Cancelled => "Cancelled"
  | Replaced => "Replaced"
  end.
Definition parse_side (text : string) : option Side :=
  if bool_decide (text = "Buy") then Some Buy
  else if bool_decide (text = "Sell") then Some Sell
  else None.
Definition parse_time_in_force (text : string) : option TimeInForce :=
  if bool_decide (text = "GTC") then Some GTC
  else if bool_decide (text = "IOC") then Some IOC
  else if bool_decide (text = "FOK") then Some FOK
  else None.
Definition pending_action_to_string (action : PendingAction) : string :=
  match action with NoAction => "None" | ActionCancel => "Cancel" | ActionReplace => "Replace" end.
Definition instrument_id_of (event : MarketData.Event) : InstrumentId :=
  match event with
  | MarketData.EvAddOrder ev => MarketData.ao_instrument_id ev
  | MarketData.EvCancelOrder ev => MarketData.co_instrument_id ev
  | MarketData.EvModifyOrder ev => MarketData.mo_instrument_id ev
  | MarketData.EvTrade ev => MarketData.tr_instrument_id ev
  | MarketData.EvClearBook ev => MarketData.cb_instrument_id ev
  end.

(** ** SseHub: the latest payload of each topic *)
Module SseHub.
Record Entry := { en_payload : string; en_revision : Z }.
Record t := { hb_global_revision : Z; hb_topics : gmap string Entry }.
Definition new : t := {| hb_global_revision := 0; hb_topics := ∅ |}.
Definition publish (hub : t) (topic payload : string) : t :=
  let revision := u64 (hb_global_revision hub + 1) in
  {| hb_global_revision := revision; hb_topics := <[topic := {| en_payload := payload; en_revision := revision |}]> (hb_topics hub) |}.
(** What one connection has been given; a topic it has never looked at
    counts as 0. *)
Abbreviation Cursors := (gmap string Z) (only parsing).
Definition unseen (hub : t) (cursors : Cursors) (topic : string) : bool :=
  match hb_topics hub !! topic with Some e => default 0 (cursors !! topic) <? en_revision e | None => false end.
(** [has_pending]: the first such topic of the map's iteration order [walk];
    every topic looked at gets its cursor. *)
Fixpoint has_pending (hub : t) (walk : list string) (cursors : Cursors) : Cursors * option string :=
  match walk with
  | [] => (cursors, None)
  | topic :: walk =>
      let cursors := <[topic := default 0 (cursors !! topic)]> cursors in
      if unseen hub cursors topic then (cursors, Some topic) else has_pending hub walk cursors
  end.
(** [wait_next] with the hub as it is when the wait ends: [None] after the
    time-out.  The outer [option] is [topics_.at]. *)
Definition wait_next (hub : t) (walk : list string) (cursors : Cursors) : option (Cursors * option string) :=
  match has_pending hub walk cursors with
  | (cursors, None) => Some (cursors, None)
  | (cursors, Some ready_topic) =>
      let* entry := hb_topics hub !! ready_topic in
      Some (<[ready_topic := en_revision entry]> cursors, Some (en_payload entry))
  end.
End SseHub.

(** ** State *)
Record UiGatewayOptions := {
  uo_demo_account_ids : list AccountId;
  uo_demo_instrument_ids : list InstrumentId;
  uo_demo_starting_cash : Balance;
  uo_demo_starting_position : Quantity;
  uo_per_account_risk_limits : TraderRiskLimits;
  uo_book_depth : Z;
}.
Definition UiGatewayOptions_default : UiGatewayOptions :=
  {| uo_demo_account_ids := [1001; 1002; 1003]; uo_demo_instrument_ids := [1; 2]; uo_demo_starting_cash := 10000000000;
     uo_demo_starting_position := 1000; uo_per_account_risk_limits := TraderRiskLimits_default; uo_book_depth := 10 |}.
(** [ss_sends] is no field of the source: every message the session's sender
    was called with and what it answered, for the properties. *)
Record Session := {
  ss_gated : TraderRiskGatedOms unit;
  ss_client : OrderEntryClient;
  ss_connected : bool;
  ss_sends : list (OrderEntry.Message * bool);
}.
Record UiGateway := {
  ug_options : UiGatewayOptions;
  ug_sessions : gmap AccountId Session;
  ug_validator : SequenceValidator;
  ug_market_data_outcome : ReplayOutcome;
  ug_sse_hub : SseHub.t;
}.
Definition UiGateway_new (options : UiGatewayOptions) : UiGateway :=
  {| ug_options := options; ug_sessions := ∅; ug_validator := SequenceValidator_new;
     ug_market_data_outcome := ReplayOutcome_new; ug_sse_hub := SseHub.new |}.
Definition ug_with_sessions (g : UiGateway) (m : gmap AccountId Session) : UiGateway :=
  {| ug_options := ug_options g; ug_sessions := m; ug_validator := ug_validator g;
     ug_market_data_outcome := ug_market_data_outcome g; ug_sse_hub := ug_sse_hub g |}.
Definition ug_with_feed (g : UiGateway) (v : SequenceValidator) (o : ReplayOutcome) : UiGateway :=
  {| ug_options := ug_options g; ug_sessions := ug_sessions g; ug_validator := v; ug_market_data_outcome := o;
     ug_sse_hub := ug_sse_hub g |}.
Definition ug_publish (g : UiGateway) (topic payload : string) : UiGateway :=
  {| ug_options := ug_options g; ug_sessions := ug_sessions g; ug_validator := ug_validator g;
     ug_market_data_outcome := ug_market_data_outcome g; ug_sse_hub := SseHub.publish (ug_sse_hub g) topic payload |}.

(** What the world answers during one request: whether a connection is
    accepted, what a socket takes, the order a map of orders is walked, and
    whether that map rehashes when an order is added to it. *)
Record Outside := {
  ou_accepted : bool;
  ou_takes : list IoAnswer;
  ou_walk : list ClientOrderId;
  ou_rehashes : bool;
}.
Record Request := { rq_matches : list string; rq_depth : string; rq_body : string }.
Definition matched (req : Request) (n : nat) : string := default EmptyString (rq_matches req !! n).
(** [None] is the library's default status. *)
Record Response := { rs_status : option Z; rs_content : string }.

(** A handler's body: it may throw ([None]) after it has changed the state. *)
Definition Attempt (A : Type) := UiGateway -> UiGateway * option A.
Definition done {A} (a : A) : Attempt A := fun g => (g, Some a).
Definition throwing {A} (o : option A) : Attempt A := fun g => (g, o).
Definition current : Attempt UiGateway := fun g => (g, Some g).
Definition and_then {A B} (h : Attempt A) (k : A -> Attempt B) : Attempt B :=
  fun g => match h g with (g, Some a) => k a g | (g, None) => (g, None) end.
Notation "'let!' p ':=' e 'in' k" := (and_then e (fun p => k)) (at level 200, p pattern, right associativity).

Section Json.
Context `{Json : JsonLib}.

Definition order_to_json (order : ClientOrder) : json :=
  json_object
    [("account_id", json_int (co_account order));
     ("client_order_id", json_int (co_id order));
     ("exchange_order_id", match co_exchange_order_id order with Some id => json_int id | None => json_null end);
     ("instrument_id", json_int (co_instrument order));
     ("side", json_string (side_to_string (co_side order)));
     ("price", json_int (co_price order));
     ("quantity", json_int (co_quantity order));
     ("remaining_quantity", json_int (co_remaining_quantity order));
     ("order_type", json_string (order_type_to_string (co_order_type order)));
     ("time_in_force", json_string (time_in_force_to_string (co_time_in_force order)));
     ("state", json_string (client_order_state_to_string (co_state order)));
     ("pending_action", json_string (pending_action_to_string (co_pending_action order)));
     ("last_reject_reason", json_string (reject_reason_to_string (co_last_reject_reason order)))]%string.
Definition level_to_json (level : OrderBook.PriceLevelView) : json :=
  json_object
    [("price", json_int (OrderBook.plv_price level));
     ("quantity", json_int (OrderBook.plv_aggregate_quantity level));
     ("order_count", json_int (OrderBook.plv_order_count level))]%string.
Definition set_content (body : json) : Response := {| rs_status := None; rs_content := dump body |}.
Definition send_json_error (status : Z) (error : string) : Response :=
  {| rs_status := Some status; rs_content := dump (json_object [("error"%string, json_string error)]) |}.
(** [catch (const std::exception&)]. *)
Definition catching (h : Attempt Response) (g : UiGateway) : UiGateway * Response :=
  let (g, r) := h g in (g, default (send_json_error 400 "bad_request") r).

Definition broadcast_order (g : UiGateway) (account_id : AccountId) (order : ClientOrder) : UiGateway :=
  let event := json_object [("type", json_string "order"); ("account_id", json_int account_id); ("order", order_to_json order)]%string in
  ug_publish g ("order:" +:+ pretty account_id)%string (dump event).
Definition book_sides (o : ReplayOutcome) (instrument_id : InstrumentId) (depth : Z) : json * json :=
  match find_book (rp_books o) instrument_id with
  | Some book => (json_array (level_to_json <$> OrderBook.top_bids book (Z.to_nat depth)),
                  json_array (level_to_json <$> OrderBook.top_asks book (Z.to_nat depth)))
  | None => (json_array [], json_array [])
  end.
Definition broadcast_book (g : UiGateway) (instrument_id : InstrumentId) : UiGateway :=
  let (bids, asks) := book_sides (ug_market_data_outcome g) instrument_id (uo_book_depth (ug_options g)) in
  let event := json_object [("type", json_string "book"); ("instrument_id", json_int instrument_id); ("bids", bids); ("asks", asks)]%string in
  ug_publish g ("book:" +:+ pretty instrument_id)%string (dump event).

(** ** Sessions *)
Definition Session_new (account_id : AccountId) (limits : TraderRiskLimits) (accepted : bool) : Session :=
  let (client, connected) := connect OrderEntryClient_new accepted in
  {| ss_gated := TraderRiskGatedOms_new account_id limits tt; ss_client := client; ss_connected := connected; ss_sends := [] |}.
Definition seeded (options : UiGatewayOptions) (s : Session) : Session :=
  let gated := deposit_cash (ss_gated s) (uo_demo_starting_cash options) in
  let gated := foldl (fun gated instrument_id => deposit_position gated instrument_id (uo_demo_starting_position options))
                 gated (uo_demo_instrument_ids options) in
  {| ss_gated := gated; ss_client := ss_client s; ss_connected := ss_connected s; ss_sends := ss_sends s |}.
Definition find_or_create_session (out : Outside) (account_id : AccountId) (g : UiGateway) : UiGateway * option Session :=
  match ug_sessions g !! account_id with
  | Some session => (g, Some session)
  | None =>
      if negb (bool_decide (account_id ∈ uo_demo_account_ids (ug_options g))) then (g, None)
      else
        let session := seeded (ug_options g) (Session_new account_id (uo_per_account_risk_limits (ug_options g)) (ou_accepted out)) in
        (ug_with_sessions g (<[account_id := session]> (ug_sessions g)), Some session)
  end.
(** The session's operation [op], given the transport's answer to the one
    message it may send, with every order update broadcast.  The message does
    not depend on the answer ([sends_alike]). *)
Definition sent_message (outs : list OmsOutput) : option OrderEntry.Message :=
  head (omap (fun o => match o with OutSend m => Some m | _ => None end) outs).
Definition broadcast_updates (account_id : AccountId) (outs : list OmsOutput) (g : UiGateway) : UiGateway :=
  foldl (fun g o => match o with OutUpdate order => broadcast_order g account_id order | _ => g end) g outs.
Definition on_session {R} (out : Outside) (account_id : AccountId) (session : Session)
    (op : bool -> TraderRiskGatedOms unit * list OmsOutput * R) : Attempt R :=
  fun g =>
    let (client, sent) :=
      match sent_message (op true).1.2 with
      | Some message => OrderEntryClient.send (ss_client session) message (ou_takes out)
      | None => (ss_client session, true)
      end in
    let '(gated, outs, r) := op sent in
    let sends := match sent_message (op true).1.2 with Some message => ss_sends session ++ [(message, sent)] | None => ss_sends session end in
    let session := {| ss_gated := gated; ss_client := client; ss_connected := ss_connected session; ss_sends := sends |} in
    (broadcast_updates account_id outs (ug_with_sessions g (<[account_id := session]> (ug_sessions g))), Some r).
(** The reader thread of a session: one read of its socket, unless it has
    ended. *)
Definition hear (account_id : AccountId) (g : UiGateway) (message : OrderEntry.Message) : UiGateway :=
  match ug_sessions g !! account_id with
  | None => g
  | Some session =>
      let (gated, outs) := @TraderRisk.handle_message unit None (ss_gated session) message in
      broadcast_updates account_id outs
        (ug_with_sessions g (<[account_id := {| ss_gated := gated; ss_client := ss_client session; ss_connected := ss_connected session;
                                        ss_sends := ss_sends session |}]>
                               (ug_sessions g)))
  end.
Definition session_reads (account_id : AccountId) (answer : ReadAnswer) (g : UiGateway) : UiGateway :=
  match ug_sessions g !! account_id with
  | None => g
  | Some session =>
      let with_client client :=
        ug_with_sessions g (<[account_id := {| ss_gated := ss_gated session; ss_client := client; ss_connected := ss_connected session;
                                               ss_sends := ss_sends session |}]>
                              (ug_sessions g)) in
      if negb (oc_connected (ss_client session)) then g
      else
        match read_once (ss_client session) answer with
        | None => with_client (reader_ends (ss_client session))
        | Some (client, messages) => foldl (hear account_id) (with_client client) messages
        end
  end.

(** ** The market-data thread *)
(** Every frame of a packet, whatever applying it answers. *)
Fixpoint apply_frames (fs : string -> option (list byte)) (frames : list (MarketData.Event + MarketData.DecodeError))
    (v : SequenceValidator) (o : ReplayOutcome) : option (SequenceValidator * ReplayOutcome) :=
  match frames with
  | [] => Some (v, o)
  | frame :: frames => let* (_, v, o) := apply_frame_result fs frame v ReplayOptions_default o in apply_frames fs frames v o
  end.
Definition events_in (frames : list (MarketData.Event + MarketData.DecodeError)) : list MarketData.Event :=
  omap (fun f => match f with inl event => Some event | inr _ => None end) frames.
Definition batch_frames (batch : list (list byte)) : list (MarketData.Event + MarketData.DecodeError) :=
  mjoin ((fun d => match Packet.unpack_frames d with inl packet => Packet.up_frames packet | inr _ => [] end) <$> batch).
Fixpoint unique (l : list Z) : list Z :=
  match l with
  | x :: (y :: _) as l' => if x =? y then unique l' else x :: unique l'
  | _ => l
  end.
Definition market_data_batch (fs : string -> option (list byte)) (g : UiGateway) (batch : list (list byte)) : option UiGateway :=
  let frames := batch_frames batch in
  let touched := instrument_id_of <$> events_in frames in
  let* (v, o) := apply_frames fs frames (ug_validator g) (ug_market_data_outcome g) in
  let touched := unique (merge_sort Z.le touched) in
  Some (foldl broadcast_book (ug_with_feed g v o) touched).

(** ** REST handlers *)
Definition handle_health (g : UiGateway) : UiGateway * Response := (g, set_content (json_object [("status", json_string "ok")]%string)).
Definition handle_list_accounts (g : UiGateway) : UiGateway * Response :=
  (g, set_content (json_object [("account_ids"%string, json_array (json_int <$> uo_demo_account_ids (ug_options g)))])).
(** The rest of a handler runs for a session, if there is one. *)
Definition for_session (out : Outside) (account_id : AccountId) (body : Session -> Attempt Response) : Attempt Response :=
  fun g =>
    match find_or_create_session out account_id g with
    | (g, None) => (g, Some (send_json_error 404 "unknown_account"))
    | (g, Some session) => body session g
    end.
Definition handle_get_account (out : Outside) (req : Request) : UiGateway -> UiGateway * Response :=
  catching
    (let! account_id := throwing (stoull (matched req 1)) in
     for_session out account_id (fun session =>
       let! g := current in
       let positions := (fun instrument_id =>
         json_object [("instrument_id", json_int instrument_id);
                      ("quantity", json_int (TraderRisk.position (ss_gated session) instrument_id))]%string)
         <$> uo_demo_instrument_ids (ug_options g) in
       let orders := order_to_json <$> TraderRisk.orders (ss_gated session) (ou_walk out) in
       done (set_content (json_object
         [("account_id", json_int account_id); ("cash", json_int (TraderRisk.cash (ss_gated session)));
          ("positions", json_array positions); ("orders", json_array orders)]%string)))).
Definition handle_get_book (req : Request) : UiGateway -> UiGateway * Response :=
  catching
    (let! instrument_id := throwing (u32 <$> stoul (matched req 1)) in
     let! g := current in
     let! depth := throwing (if bool_decide (rq_depth req = EmptyString) then Some (uo_book_depth (ug_options g)) else stoull (rq_depth req)) in
     let (bids, asks) := book_sides (ug_market_data_outcome g) instrument_id depth in
     done (set_content (json_object [("instrument_id", json_int instrument_id); ("bids", bids); ("asks", asks)]%string))).

Definition member {A} (body : json) (key : string) (get : json -> option A) : Attempt A := throwing (at_key body key ≫= get).
Definition handle_submit_order (out : Outside) (req : Request) : UiGateway -> UiGateway * Response :=
  catching
    (let! body := throwing (parse (rq_body req)) in
     let! account_id := member body "account_id" get_u64 in
     for_session out account_id (fun session =>
       let! side := member body "side" get_string in
       match parse_side side with
       | None => done (send_json_error 400 "invalid_side")
       | Some side =>
           let! parsed := (if contains body "time_in_force"
                           then let! text := member body "time_in_force" get_string in done (parse_time_in_force text)
                           else done (Some GTC)) in
           match parsed with
           | None => done (send_json_error 400 "invalid_time_in_force")
           | Some time_in_force =>
               let! instrument_id := member body "instrument_id" get_u32 in
               let! price := member body "price" get_s64 in
               let! quantity := member body "quantity" get_u64 in
               let! outcome := on_session out account_id session (fun sent =>
                 @TraderRisk.submit_new_order unit None (ss_gated session) sent instrument_id side price quantity Limit time_in_force) in
               done (set_content (json_object
                 match so_client_order_id outcome with
                 | Some id => [("accepted", json_bool true); ("client_order_id", json_int id)]%string
                 | None => [("accepted", json_bool false);
                            ("reject_reason", json_string (reject_reason_to_string (so_local_reject_reason outcome)))]%string
                 end))
           end
       end)).
Definition handle_cancel_order (out : Outside) (req : Request) : UiGateway -> UiGateway * Response :=
  catching
    (let! account_id := throwing (stoull (matched req 1)) in
     let! client_order_id := throwing (stoull (matched req 2)) in
     for_session out account_id (fun session =>
       let! ok := on_session out account_id session (fun sent =>
         @TraderRisk.cancel_order unit None (ss_gated session) sent client_order_id) in
       done (set_content (json_object [("ok"%string, json_bool ok)])))).
Definition handle_replace_order (out : Outside) (req : Request) : UiGateway -> UiGateway * Response :=
  catching
    (let! account_id := throwing (stoull (matched req 1)) in
     let! client_order_id := throwing (stoull (matched req 2)) in
     for_session out account_id (fun session =>
       let! body := throwing (parse (rq_body req)) in
       let! new_price := member body "new_price" get_s64 in
       let! new_quantity := member body "new_quantity" get_u64 in
       let! new_client_order_id := on_session out account_id session (fun sent =>
         @TraderRisk.replace_order unit None (ss_gated session) sent client_order_id new_price new_quantity) in
       done (set_content (json_object
         (("ok"%string, json_bool (bool_decide (is_Some new_client_order_id))) ::
          match new_client_order_id with Some id => [("new_client_order_id"%string, json_int id)] | None => [] end))))).
Definition blank_line : string := String (Ascii.ascii_of_nat 10) (String (Ascii.ascii_of_nat 10) EmptyString).
(** [handle_stream]'s provider: the next chunk of the stream, and whether the
    stream goes on. *)
Definition stream_chunk (g : UiGateway) (closed : bool) (walk : list string) (cursors : gmap string Z)
    : option (gmap string Z * option string) :=
  if closed then Some (cursors, None)
  else
    let* (cursors, next) := SseHub.wait_next (ug_sse_hub g) walk cursors in
    Some (cursors, Some match next with
                        | None => (": keep-alive" +:+ blank_line)
                        | Some payload => ("data: " +:+ payload +:+ blank_line)
                        end%string).

(** The routes the constructor registers. *)
Inductive Route := Health | ListAccounts | GetAccount | GetBook | SubmitOrder | CancelOrder | ReplaceOrder.
Definition handle (out : Outside) (route : Route) (req : Request) (g : UiGateway) : UiGateway * Response :=
  match route with
  | Health => handle_health g
  | ListAccounts => handle_list_accounts g
  | GetAccount => handle_get_account out req g
  | GetBook => handle_get_book req g
  | SubmitOrder => handle_submit_order out req g
  | CancelOrder => handle_cancel_order out req g
  | ReplaceOrder => handle_replace_order out req g
  end.
(** [OrderManagementSystem::replace_order] reads the original order through
    its iterator after adding the new one; a rehash invalidates it, and the
    read is undefined.  Whether request [req] gets that far. *)
Definition reads_invalid_iterator (out : Outside) (route : Route) (req : Request) (g : UiGateway) : bool :=
  match route with
  | ReplaceOrder => default false
      (let* account_id := stoull (matched req 1) in
       let* client_order_id := stoull (matched req 2) in
       let* session := ug_sessions g !! account_id in
       let* body := parse (rq_body req) in
       let* _ := at_key body "new_price" ≫= get_s64 in
       let* _ := at_key body "new_quantity" ≫= get_u64 in
       let* _ := workable (tg_oms (ss_gated session)) client_order_id in
       Some (ou_rehashes out))
  | _ => false
  end.
End Json.
