(* ===== verification/UiClaims.v ===== *)
(** * What the browser's front door promises

    The event streams against an abstract stream of latest values, the REST
    handlers against the session they name, and the books it shows against
    the feed. *)
From Stdlib Require Import String.
From S2P Require Import Prelude Types CommandLine PriceQueues MatchingBook BookSpec MatchingEngine EngineSpec EngineRefine EngineRefinement EngineFacts EngineTheorems ByteIO CommandCodec MarketDataCodec OrderEntryCodec Ledger TraderBook TraderBookSpec TraderBooks SequenceValidator FeedReplay FeedPublisher FeedCommands FeedHistory FeedBooks Packet FeedRecovery FeedMirror Oms OmsDesk LatencyTracer OrderEntryClient Positions TraderRisk UiGateway.

Local Open Scope Z_scope.
Local Open Scope list_scope.

(** ** The event streams *)
Inductive StreamAct := Publish (topic payload : string) | Wait (walk : list string).
(** The hub and one connection's cursors; the answers of the waits. *)
Definition hub_act (st : SseHub.t * gmap string Z) (a : StreamAct) : option (SseHub.t * gmap string Z * list (option string)) :=
  match a with
  | Publish topic payload => Some (SseHub.publish st.1 topic payload, st.2, [])
  | Wait walk => let* (cursors, next) := SseHub.wait_next st.1 walk st.2 in Some (st.1, cursors, [next])
  end.
Fixpoint hub_run (st : SseHub.t * gmap string Z) (acts : list StreamAct) : option (SseHub.t * gmap string Z * list (option string)) :=
  match acts with
  | [] => Some (st, [])
  | a :: acts => let* (st, out) := hub_act st a in let* (st, outs) := hub_run st acts in Some (st, out ++ outs)
  end.
(** The abstract stream: the latest payload of every topic, and the topics
    whose latest payload the connection has not had. *)
Record Stream := { st_latest : gmap string string; st_unseen : gset string }.
Definition Stream_new : Stream := {| st_latest := ∅; st_unseen := ∅ |}.
Definition stream_act (s : Stream) (a : StreamAct) : Stream * list (option string) :=
  match a with
  | Publish topic payload =>
      ({| st_latest := <[topic := payload]> (st_latest s); st_unseen := {[topic]} ∪ st_unseen s |}, [])
  | Wait walk =>
      match head (filter (fun topic => topic ∈ st_unseen s) walk) with
      | None => (s, [None])
      | Some topic => ({| st_latest := st_latest s; st_unseen := st_unseen s ∖ {[topic]} |}, [st_latest s !! topic])
      end
  end.
Fixpoint stream_run (s : Stream) (acts : list StreamAct) : Stream * list (option string) :=
  match acts with
  | [] => (s, [])
  | a :: acts => let (s, out) := stream_act s a in let (s, outs) := stream_run s acts in (s, out ++ outs)
  end.
(** A walk visits the topics there are. *)
Definition walks (s : Stream) (walk : list string) : Prop := forall topic, topic ∈ walk <-> is_Some (st_latest s !! topic).
Lemma walks_dom s walk : (list_to_set walk : gset string) = dom (st_latest s) -> walks s walk.
Proof. intros E topic. by rewrite <- elem_of_dom, <- E, elem_of_list_to_set. Qed.
Fixpoint acts_ok (s : Stream) (acts : list StreamAct) : Prop :=
  match acts with
  | [] => True
  | a :: acts => match a with Wait walk => walks s walk | Publish _ _ => True end /\ acts_ok (stream_act s a).1 acts
  end.

Record streams (n : Z) (st : SseHub.t * gmap string Z) (s : Stream) : Prop := {
  sr_global : SseHub.hb_global_revision st.1 = n;
  sr_latest : forall t, SseHub.en_payload <$> SseHub.hb_topics st.1 !! t = st_latest s !! t;
  sr_cursor : forall t, default 0 (st.2 !! t) <= n;
  sr_revision : forall t e, SseHub.hb_topics st.1 !! t = Some e -> SseHub.en_revision e <= n;
  sr_unseen : forall t, SseHub.unseen st.1 st.2 t = bool_decide (t ∈ st_unseen s);
}.
Lemma streams_new : streams 0 (SseHub.new, ∅) Stream_new.
Proof. by split. Qed.
Lemma streams_publish n st s topic payload : 0 <= n -> n + 1 < two64 -> streams n st s ->
  streams (n + 1) (SseHub.publish st.1 topic payload, st.2) (stream_act s (Publish topic payload)).1.
Proof.
  intros H0 Hn [H1 H2 H3 H4 H5]. unfold SseHub.publish. rewrite H1, u64_small by lia. split; cbn.
  - done.
  - intros t. destruct (decide (t = topic)) as [->|]; [by rewrite !lookup_insert_eq|by rewrite !lookup_insert_ne].
  - intros t. specialize (H3 t). lia.
  - intros t e. destruct (decide (t = topic)) as [->|]; [rewrite lookup_insert_eq; intros [= <-]; cbn; lia|].
    rewrite lookup_insert_ne by done. intros H%H4. lia.
  - intros t. specialize (H5 t). specialize (H3 t). unfold SseHub.unseen in *. cbn. destruct (decide (t = topic)) as [->|].
    + rewrite lookup_insert_eq. cbn. rewrite bool_decide_eq_true_2 by set_solver. apply Z.ltb_lt. lia.
    + rewrite lookup_insert_ne, H5 by done. apply bool_decide_ext. set_solver.
Qed.
Lemma pending_head n hub s walk : forall cursors, streams n (hub, cursors) s -> exists cursors',
  SseHub.has_pending hub walk cursors = (cursors', head (filter (fun topic => topic ∈ st_unseen s) walk)) /\ streams n (hub, cursors') s.
Proof.
  induction walk as [|topic walk IH]; intros cursors Hs; [by exists cursors|]. cbn [SseHub.has_pending].
  set (cursors1 := <[topic := _]> cursors).
  assert (Hd : forall t, default 0 (cursors1 !! t) = default 0 (cursors !! t)).
  { intros t. unfold cursors1. destruct (decide (t = topic)) as [->|]; [by rewrite lookup_insert_eq|by rewrite lookup_insert_ne]. }
  assert (Hs1 : streams n (hub, cursors1) s).
  { destruct Hs as [H1 H2 H3 H4 H5]. split; try done; cbn in *; intros t; [by rewrite Hd|]. rewrite <- H5. unfold SseHub.unseen. by rewrite Hd. }
  rewrite filter_cons. pose proof (sr_unseen _ _ _ Hs1 topic) as E. cbn in E. rewrite E. case_bool_decide as Hin.
  - rewrite decide_True by done. by exists cursors1.
  - rewrite decide_False by done. by apply IH.
Qed.
Lemma streams_wait n st s walk : streams n st s -> walks s walk -> exists cursors next,
  SseHub.wait_next st.1 walk st.2 = Some (cursors, next) /\ (stream_act s (Wait walk)).2 = [next] /\
  streams n (st.1, cursors) (stream_act s (Wait walk)).1.
Proof.
  destruct st as [hub cursors]. intros Hs Hw. cbn [fst snd]. unfold SseHub.wait_next. cbn [stream_act].
  destruct (pending_head n hub s walk cursors Hs) as (cursors' & -> & Hs'). destruct (head (filter _ walk)) as [topic|] eqn:Eh.
  2:{ by exists cursors', None. }
  assert (Hin : topic ∈ walk).
  { assert (topic ∈ filter (fun topic => topic ∈ st_unseen s) walk) as H%list_elem_of_filter; [|apply H].
    destruct (filter _ walk); [done|]. injection Eh as ->. by left. }
  apply Hw in Hin as [payload Hp]. pose proof (sr_latest _ _ _ Hs' topic) as Hl. rewrite Hp in Hl. cbn in Hl.
  destruct (SseHub.hb_topics hub !! topic) as [e|] eqn:He; [|done]. injection Hl as Hl. cbn [mbind option_bind].
  exists (<[topic := SseHub.en_revision e]> cursors'), (Some (SseHub.en_payload e)). split; [done|]. cbn [snd fst].
  split; [by rewrite Hp, Hl|]. destruct Hs' as [H1 H2 H3 H4 H5]. cbn [fst snd] in *. split; cbn.
  - done.
  - done.
  - intros t. destruct (decide (t = topic)) as [->|]; [rewrite lookup_insert_eq; cbn; by eapply H4|]. rewrite lookup_insert_ne by done. apply H3.
  - done.
  - intros t. specialize (H5 t). unfold SseHub.unseen in *. destruct (decide (t = topic)) as [->|].
    + rewrite He, lookup_insert_eq. cbn. rewrite Z.ltb_irrefl. symmetry. apply bool_decide_eq_false_2. set_solver.
    + rewrite lookup_insert_ne, H5 by done. apply bool_decide_ext. set_solver.
Qed.
Lemma hub_run_streams acts : forall n st s, 0 <= n -> n + Z.of_nat (length acts) < two64 -> streams n st s -> acts_ok s acts ->
  exists n' st', hub_run st acts = Some (st', (stream_run s acts).2) /\ streams n' st' (stream_run s acts).1.
Proof.
  induction acts as [|a acts IH]; intros n st s H0 Hn Hs Hok; [by exists n, st|]. destruct Hok as [Ha Hok]. cbn [length] in Hn.
  cbn [hub_run stream_run]. destruct a as [topic payload|walk].
  - destruct (IH (n + 1) _ _ ltac:(lia) ltac:(lia) (streams_publish n st s topic payload H0 ltac:(lia) Hs) Hok) as (n' & st' & E & Hs').
    cbn [hub_act mbind option_bind] in *. cbn [stream_act] in *. cbn [fst] in *. rewrite E. destruct (stream_run _ acts) as [s' outs]. by exists n', st'.
  - destruct (streams_wait n st s walk Hs Ha) as (cursors & next & E & Ho & Hs1). cbn [hub_act]. rewrite E. cbn [mbind option_bind].
    destruct (IH n _ _ H0 ltac:(lia) Hs1 Hok) as (n' & st' & E' & Hs'). destruct (stream_act s (Wait walk)) as [s1 out]. cbn [fst snd] in *.
    subst out. rewrite E'. destruct (stream_run s1 acts) as [s' outs]. by exists n', st'.
Qed.
(** Waits alone hand over every unseen topic once. *)
Lemma quiet_waits ws : forall s, Forall (walks s) ws -> (forall t, t ∈ st_unseen s -> is_Some (st_latest s !! t)) ->
  (size (st_unseen s) <= length ws)%nat ->
  omap id (stream_run s (Wait <$> ws)).2 ≡ₚ omap (fun t => st_latest s !! t) (elements (st_unseen s)) /\
  st_unseen (stream_run s (Wait <$> ws)).1 = ∅.
Proof.
  induction ws as [|w ws IH]; intros s Hw Hl Hn.
  { assert (st_unseen s = ∅) as E by (apply leibniz_equiv, size_empty_iff; cbn in Hn; lia). cbn. by rewrite E, elements_empty. }
  apply Forall_cons in Hw as [Hw Hws]. cbn [fmap list_fmap stream_run stream_act]. destruct (head _) as [topic|] eqn:Eh.
  - assert (Hin : topic ∈ st_unseen s).
    { assert (topic ∈ filter (fun topic => topic ∈ st_unseen s) w) as H%list_elem_of_filter; [|apply H].
      destruct (filter _ w); [done|]. injection Eh as ->. by left. }
    set (s1 := {| st_latest := st_latest s; st_unseen := _ |}).
    assert (Hsz : size (st_unseen s) = S (size (st_unseen s1))).
    { cbn [s1 st_unseen]. rewrite size_difference_alt. assert ((st_unseen s ∩ {[topic]} : gset string) = {[topic]}) as -> by set_solver.
      rewrite size_singleton. assert (size (st_unseen s) <> 0%nat); [|lia]. intros E%size_empty_inv. set_solver. }
    destruct (IH s1 Hws ltac:(cbn; set_solver) ltac:(cbn in *; lia)) as [IH1 IH2].
    destruct (stream_run s1 (Wait <$> ws)) as [s' outs]. cbn [fst snd] in *. split; [|done].
    destruct (Hl topic Hin) as [p Hp]. rewrite Hp. cbn [omap list_omap app id]. change (list_omap (option string) string id outs) with (omap id outs).
    rewrite IH1. cbn [s1 st_latest st_unseen].
    assert (E : elements (st_unseen s) ≡ₚ topic :: elements (st_unseen s ∖ {[topic]})).
    { apply NoDup_Permutation; [apply NoDup_elements|constructor; [set_solver|apply NoDup_elements]|].
      intros t. rewrite elem_of_cons, !elem_of_elements. destruct (decide (t = topic)); set_solver. }
    rewrite E. cbn. by rewrite Hp.
  - assert (E : st_unseen s = ∅).
    { apply set_eq. intros t. split; [|set_solver]. intros Ht. destruct (Hl t Ht) as [p Hp].
      assert (t ∈ filter (fun topic => topic ∈ st_unseen s) w) as Hf by (apply list_elem_of_filter; split; [done|apply Hw; by eexists]).
      destruct (filter _ w); [set_solver|done]. }
    destruct (IH s Hws Hl) as [IH1 IH2]; [rewrite E, size_empty; lia|].
    destruct (stream_run s (Wait <$> ws)) as [s' outs]. cbn [fst snd] in *. split; [|done]. cbn. exact IH1.
Qed.

Lemma unseen_have_latest acts : forall s, (forall t, t ∈ st_unseen s -> is_Some (st_latest s !! t)) ->
  forall t, t ∈ st_unseen (stream_run s acts).1 -> is_Some (st_latest (stream_run s acts).1 !! t).
Proof.
  induction acts as [|a acts IH]; intros s Hs t; [apply Hs|]. cbn [stream_run].
  assert (Ha : forall t, t ∈ st_unseen (stream_act s a).1 -> is_Some (st_latest (stream_act s a).1 !! t)).
  { intros t'. destruct a as [topic payload|walk]; cbn [stream_act].
    - cbn. intros [->%elem_of_singleton|H]%elem_of_union; [by rewrite lookup_insert_eq; eexists|].
      destruct (decide (t' = topic)) as [->|]; [by rewrite lookup_insert_eq; eexists|]. rewrite lookup_insert_ne by done. by apply Hs.
    - destruct (head _) as [topic|]; [|apply Hs]. cbn. intros H. apply Hs. set_solver. }
  destruct (stream_act s a) as [s1 out]. specialize (IH s1 Ha t). by destruct (stream_run s1 acts).
Qed.
Definition starve (n : nat) (a b pa pb : string) : list StreamAct :=
  Publish b pb :: mjoin (replicate n [Publish a pa; Wait [a; b]]).
Lemma starved n (a b pa : string) : a <> b -> forall s, (stream_run s (mjoin (replicate n [Publish a pa; Wait [a; b]]))).2 = replicate n (Some pa).
Proof.
  intros Hab. induction n as [|n IH]; intros s; [done|]. cbn [replicate mjoin list_join app stream_run stream_act].
  rewrite filter_cons, decide_True by (cbn; set_solver). cbn [head].
  match goal with |- context [stream_run ?s1 _] => specialize (IH s1); destruct (stream_run s1 _) as [s' outs] end.
  cbn [snd] in *. rewrite IH. cbn. by rewrite lookup_insert_eq.
Qed.

(** C32: an event stream gives each topic's latest value once.  Whatever is
    published and in whatever order the hub's map is walked, the answers of a
    connection's waits are those of the abstract stream: a wait gives the
    latest payload of some topic published since the connection last had it,
    and times out exactly when there is none; once publishing pauses, as many
    waits as there are unseen topics give each of their latest payloads once
    and nothing more follows.  But which unseen topic comes first is the
    map's choice: if one that precedes another is published before every
    wait, the other is never given, however many waits are made. *)
Theorem sse_latest_wins acts : acts_ok Stream_new acts -> Z.of_nat (length acts) < two64 ->
  exists st, hub_run (SseHub.new, ∅) acts = Some (st, (stream_run Stream_new acts).2) /\
    (let s := (stream_run Stream_new acts).1 in
     forall ws, Forall (walks s) ws -> (size (st_unseen s) <= length ws)%nat ->
       omap id (stream_run s (Wait <$> ws)).2 ≡ₚ omap (fun t => st_latest s !! t) (elements (st_unseen s)) /\
       st_unseen (stream_run s (Wait <$> ws)).1 = ∅) /\
    (forall n a b pa pb, a <> b -> (stream_run Stream_new (starve n a b pa pb)).2 = replicate n (Some pa)).
Proof.
  intros Hok Hn. destruct (hub_run_streams acts 0 _ _ ltac:(lia) ltac:(lia) streams_new Hok) as (n' & st & E & _).
  exists st. split; [exact E|]. split.
  - intros s ws Hw Hs. apply quiet_waits; [done| |done]. apply unseen_have_latest. cbn. set_solver.
  - intros n a b pa pb Hab. unfold starve. cbn [stream_run stream_act].
    match goal with |- context [stream_run ?s1 _] => pose proof (starved n a b pa Hab s1) as H; by destruct (stream_run s1 _) end.
Qed.
Definition demo_acts : list StreamAct :=
  [Publish "book:1" "b1"; Publish "order:1001" "o1"; Publish "book:1" "b2"; Wait ["order:1001"; "book:1"];
   Wait ["order:1001"; "book:1"]; Wait ["book:1"; "order:1001"]].
Lemma sse_latest_wins_witness : exists st, hub_run (SseHub.new, ∅) demo_acts = Some (st, [Some "o1"; Some "b2"; None])%string.
Proof.
  destruct (sse_latest_wins demo_acts) as (st & E & _).
  - cbn [acts_ok demo_acts]. split_and!; try done; apply walks_dom; vm_compute; reflexivity.
  - vm_compute. reflexivity.
  - exists st. rewrite E. vm_compute. reflexivity.
Defined.

(** ** The books *)
Section Feed.
Context `{Json : JsonLib} (fs : string -> option (list byte)).

Fixpoint feed_batches (g : UiGateway) (batches : list (list (list byte))) : option UiGateway :=
  match batches with [] => Some g | b :: batches => let* g := market_data_batch fs g b in feed_batches g batches end.
(** The events whose number the validator finds in order; it moves to every
    number it sees. *)
Fixpoint in_order (v : SequenceValidator) (evs : list MarketData.Event) : list MarketData.Event :=
  match evs with
  | [] => []
  | ev :: evs =>
      let (v, c) := SequenceValidator.check v (sequence_of ev) in
      if decide (sc_outcome c = InOrder) then ev :: in_order v evs else in_order v evs
  end.
Definition seen (v : SequenceValidator) (evs : list MarketData.Event) : SequenceValidator :=
  foldl (fun v ev => (SequenceValidator.check v (sequence_of ev)).1) v evs.

Lemma apply_frames_refines frames : forall v o M, books_rep (rp_books o) M -> exists o',
  apply_frames fs frames v o = Some (seen v (events_in frames), o') /\
  books_rep (rp_books o') (spec_feed M (in_order v (events_in frames))).1.
Proof.
  induction frames as [|[ev|err] frames IH]; intros v o M Hb; [by exists o| |].
  2:{ cbn [apply_frames apply_frame_result stop_on_decode_error ReplayOptions_default mbind option_bind]. by apply IH. }
  cbn [apply_frames]. unfold apply_frame_result. cbn [recovery_snapshot_path stop_on_sequence_error ReplayOptions_default].
  change (events_in (inl ev :: frames)) with (ev :: events_in frames). cbn [in_order seen foldl].
  destruct (SequenceValidator.check v (sequence_of ev)) as [v1 c] eqn:Ec. cbn [fst]. destruct (decide (sc_outcome c = InOrder)) as [Hc|Hc].
  - unfold process_event. cbn [with_stats rp_books rp_stats].
    destruct (apply_event_refines ev (rp_books o) M (count CtMessages (rp_stats o)) Hb) as (bm & E & Hb1). rewrite E.
    cbn [mbind option_bind spec_feed]. destruct (spec_apply M ev) as [M1 err]. cbn [fst] in *.
    edestruct (IH v1) as (o' & E' & Hb'); [|exists o'; split; [exact E'|]]; [exact Hb1|]. by destruct (spec_feed M1 _).
  - cbn [mbind option_bind]. by apply IH.
Qed.
Lemma events_in_app f1 f2 : events_in (f1 ++ f2) = events_in f1 ++ events_in f2.
Proof. apply omap_app. Qed.
Lemma in_order_app evs1 : forall v evs2, in_order v (evs1 ++ evs2) = in_order v evs1 ++ in_order (seen v evs1) evs2.
Proof.
  induction evs1 as [|ev evs1 IH]; intros v evs2; [done|]. cbn [app in_order seen foldl].
  destruct (SequenceValidator.check v (sequence_of ev)) as [v1 c]. cbn [fst]. case_decide; by rewrite IH.
Qed.
Lemma mirror_feed_app evs1 : forall M evs2, (spec_feed M (evs1 ++ evs2)).1 = (spec_feed (spec_feed M evs1).1 evs2).1.
Proof.
  induction evs1 as [|ev evs1 IH]; intros M evs2; [done|]. cbn [app spec_feed]. destruct (spec_apply M ev) as [M1 err]. specialize (IH M1 evs2).
  destruct (spec_feed M1 (evs1 ++ evs2)), (spec_feed M1 evs1). exact IH.
Qed.
Lemma broadcasts_keep ids : forall g, let g' := foldl broadcast_book g ids in
  ug_options g' = ug_options g /\ ug_sessions g' = ug_sessions g /\ ug_validator g' = ug_validator g /\
  ug_market_data_outcome g' = ug_market_data_outcome g.
Proof.
  induction ids as [|i ids IH]; intros g; [done|]. cbn [foldl]. cbn zeta in IH. destruct (IH (broadcast_book g i)) as (-> & -> & -> & ->).
  unfold broadcast_book. by destruct (book_sides _ _ _).
Qed.
Lemma feed_batches_refines batches : forall g M, books_rep (rp_books (ug_market_data_outcome g)) M -> exists g',
  let evs := events_in (mjoin (batch_frames <$> batches)) in
  feed_batches g batches = Some g' /\ ug_sessions g' = ug_sessions g /\ ug_options g' = ug_options g /\
  books_rep (rp_books (ug_market_data_outcome g')) (spec_feed M (in_order (ug_validator g) evs)).1.
Proof.
  induction batches as [|b batches IH]; intros g M Hb; [by exists g|]. cbn [feed_batches fmap list_fmap mjoin list_join].
  unfold market_data_batch. destruct (apply_frames_refines (batch_frames b) (ug_validator g) _ M Hb) as (o & -> & Hb1).
  cbn [mbind option_bind]. set (g1 := foldl broadcast_book _ _).
  destruct (broadcasts_keep (unique (merge_sort Z.le (instrument_id_of <$> events_in (batch_frames b))))
    (ug_with_feed g (seen (ug_validator g) (events_in (batch_frames b))) o)) as (E1 & E2 & E3 & E4). fold g1 in E1, E2, E3, E4.
  destruct (IH g1 _ ltac:(rewrite E4; exact Hb1)) as (g' & H1 & H2 & H3 & H4). exists g'. cbn zeta in *.
  split; [done|]. split; [by rewrite H2, E2|]. split; [by rewrite H3, E1|].
  rewrite events_in_app, in_order_app, mirror_feed_app. rewrite E3 in H4. exact H4.
Qed.
Lemma in_order_numbered evs : forall v n, numbered n evs -> awaits v n -> 0 < n -> n + Z.of_nat (length evs) <= two64 ->
  in_order v evs = evs /\ seen v evs = seen_after v n evs.
Proof.
  induction evs as [|ev evs IH]; intros v n Hnum Ha H0 Hn; [done|]. destruct Hnum as [Hs Hnum]. cbn [length] in Hn.
  cbn [in_order seen foldl]. rewrite Hs, (check_awaited v n Ha) by lia. cbn [sc_outcome plain_check fst]. rewrite decide_True by done.
  destruct (IH {| last_seen := Some n |} (n + 1) Hnum) as [E1 E2]; [right; cbn; f_equal; lia|lia|lia|]. rewrite E1.
  change (foldl _ ?v' evs) with (seen v' evs). rewrite E2. split; [done|].
  destruct evs; cbn [seen_after length]; do 2 f_equal; lia.
Qed.
(** The event that shows a gap is dropped with the ones that are lost. *)
Lemma gap_drops_one before ev after n m : numbered n before -> before <> [] -> numbered m (ev :: after) ->
  0 < n -> n + Z.of_nat (length before) < m -> m + Z.of_nat (length (ev :: after)) <= two64 ->
  in_order SequenceValidator_new (before ++ ev :: after) = before ++ after.
Proof.
  intros Hb Hne [Hs Ha] H0 Hg Hm. rewrite in_order_app. cbn [length] in Hm.
  destruct (in_order_numbered before SequenceValidator_new n Hb) as [-> ->]; [by left|lia|lia|]. f_equal. cbn [in_order].
  destruct before as [|b before]; [done|]. cbn [seen_after]. set (l := n + _ - 1). unfold SequenceValidator.check at 1. cbn [last_seen].
  assert (l + 1 < m) by (unfold l; lia). assert (0 <= l) by (unfold l; cbn [length]; lia). rewrite Hs, u64_small by lia.
  rewrite (proj2 (Z.eqb_neq m (l + 1))), (proj2 (Z.eqb_neq m l)), (proj2 (Z.ltb_ge m l)) by lia. cbn [sc_outcome].
  rewrite decide_False by done. apply (in_order_numbered after _ (m + 1)); [done|right; cbn; f_equal; lia|lia|lia].
Qed.

Lemma published_apply now p ev p' m M : publish now p ev = (p', Some m) -> (spec_apply M m).1 = feed_apply M ev.
Proof.
  intros Hp. unfold spec_apply, feed_apply. destruct ev as [a|a|a|a|a|a|a|a]; cbn in Hp; try done; injection Hp as <- <-; cbn; try done;
    by repeat case_match.
Qed.
Lemma published_feed evs : forall clock p M, (spec_feed M (publish_all clock p evs).2).1 = feed_run M evs.
Proof.
  induction evs as [|ev evs IH]; intros clock p M; [done|]. cbn [publish_all]. unfold feed_run in *. cbn [foldl].
  destruct (publish (clock O) p ev) as [p1 [m|]] eqn:Hp.
  - specialize (IH (fun k => clock (S k)) p1 (feed_apply M ev)). destruct (publish_all _ p1 evs) as [p2 ms]. cbn [snd spec_feed] in *.
    pose proof (published_apply _ _ _ _ _ M Hp) as E. destruct (spec_apply M m) as [M1 err]. cbn in E. subst M1.
    by destruct (spec_feed _ ms).
  - apply publish_private in Hp as [-> Hop]. specialize (IH (fun k => clock (S k)) p M).
    assert (feed_apply M ev = M) as -> by (unfold feed_apply; by rewrite Hop). by destruct (publish_all _ p evs).
Qed.
Lemma published_numbered clock evs : (forall k, u64_ok (clock k)) -> Forall wire_ok evs -> forall n, 0 < n ->
  n + Z.of_nat (length evs) < two64 -> numbered n (publish_all clock {| mp_next_sequence := n |} evs).2 /\
  (length (publish_all clock {| mp_next_sequence := n |} evs).2 <= length evs)%nat.
Proof.
  intros Hc Hw. revert clock Hc. induction Hw as [|ev evs Hev Hw IH]; intros clock Hc n Hn0 Hn; [done|].
  cbn [length] in *. cbn [publish_all]. specialize (IH (fun k => clock (S k)) (fun k => Hc (S k))).
  destruct (publish (clock O) _ ev) as [[n'] [m|]] eqn:Hp.
  - destruct (publish_wf _ _ _ _ _ Hp Hev (Hc O)) as (_ & Hs & Hn'); [cbn; unfold u64_ok; lia|]. cbn in Hn', Hs. subst n'.
    rewrite u64_small by lia. destruct (IH (n + 1) ltac:(lia) ltac:(lia)) as [I1 I2]. destruct (publish_all _ _ evs) as [p2 ms].
    cbn in *. split; [done|lia].
  - apply publish_private in Hp as [[= ->] _]. destruct (IH n ltac:(lia) ltac:(lia)) as [I1 I2]. destruct (publish_all _ _ evs). cbn in *. split; [done|lia].
Qed.
Lemma packed_frames batches : Forall batch_ok batches -> batch_frames (datagrams_of batches) = inl <$> mjoin batches.*2.
Proof.
  unfold datagrams_of, batch_frames. induction 1 as [|[k b] batches (Hk & Hne & Hlen & Hwf) Hbs IH]; [done|].
  cbn [fst snd] in *. change Packet.MAX_FRAMES_PER_DATAGRAM with 29 in Hlen.
  destruct (Packet.unpack_pack k b Hk Hne ltac:(lia) Hwf) as (h & Hu & _).
  cbn [fmap list_fmap fst snd mjoin list_join]. rewrite Hu. cbn [Packet.up_frames]. rewrite fmap_app. f_equal. exact IH.
Qed.
Lemma events_in_all (evs : list MarketData.Event) : events_in (inl <$> evs) = evs.
Proof. induction evs as [|ev evs IH]; [done|]. cbn. f_equal. exact IH. Qed.
Lemma ui_mirrors options universe expected cmds e evs clock batches i s :
  history universe expected cmds e evs -> Forall command_wf cmds ->
  Z.of_nat (length cmds) < two64 - 1 -> Z.of_nat (length evs) < two64 - 1 -> (forall k, u64_ok (clock k)) ->
  mjoin (mjoin batches).*2 = (publish_all clock MarketDataPublisher_new evs).2 ->
  Forall (fun b => u64_ok b.1 /\ b.2 <> [] /\ Z.of_nat (length b.2) <= Packet.MAX_FRAMES_PER_DATAGRAM) (mjoin batches) -> 0 <= i ->
  exists g, feed_batches (UiGateway_new options) (datagrams_of <$> batches) = Some g /\
    OrderBook.all_orders (manager_book_for (rp_books (ug_market_data_outcome g)) i) s ≡ₚ view_of <$> side_orders e i s /\
    OrderBook.best (manager_book_for (rp_books (ug_market_data_outcome g)) i) s =
      (fun o => level_of (side_orders e i s) (bo_price o)) <$> head (side_orders e i s).
Proof using Json fs.
  intros Hh Hc Hn Hm Hclock Hb Hbs Hi. destruct (history_feed _ _ _ _ _ Hh Hc Hn) as (F1 & F2 & F3).
  destruct (history_refines _ _ _ _ _ Hh) as (W & R & _).
  pose proof (publish_all_wf clock evs Hclock F3 1 ltac:(lia) ltac:(lia)) as Hwf.
  change {| mp_next_sequence := 1 |} with MarketDataPublisher_new in Hwf. rewrite <- Hb in Hwf.
  assert (Hok : Forall batch_ok (mjoin batches)).
  { apply Forall_forall. intros b Hin. rewrite Forall_forall in Hbs. destruct (Hbs b Hin) as (B1 & B2 & B3).
    split; [done|]. split; [done|]. split; [done|]. apply Forall_forall. intros ev Hev. rewrite Forall_forall in Hwf. apply Hwf.
    apply list_elem_of_join. exists b.2. split; [done|]. by apply list_elem_of_fmap_2. }
  destruct (feed_batches_refines (datagrams_of <$> batches) (UiGateway_new options) ∅ new_books_rep) as (g & Hg & _ & _ & Hrep).
  assert (Hev : events_in (mjoin (batch_frames <$> (datagrams_of <$> batches))) = (publish_all clock MarketDataPublisher_new evs).2).
  { rewrite <- Hb. clear - Hok. induction batches as [|b bs IH]; [done|]. cbn [mjoin list_join fmap list_fmap] in *.
    apply Forall_app in Hok as [H1 H2]. rewrite events_in_app, packed_frames, events_in_all, fmap_app, join_app by done. f_equal. by apply IH. }
  cbn zeta in Hrep. rewrite Hev in Hrep. cbn [ug_validator UiGateway_new] in Hrep.
  destruct (published_numbered clock evs Hclock F3 1 ltac:(lia) ltac:(lia)) as [Hnum Hlen]. change {| mp_next_sequence := 1 |} with MarketDataPublisher_new in *.
  destruct (in_order_numbered _ SequenceValidator_new 1 Hnum) as [Hin _]; [by left|lia|lia|]. rewrite Hin, published_feed in Hrep.
  exists g. split; [exact Hg|]. split; [by eapply mirrored_orders|by eapply mirrored_best].
Qed.
End Feed.

(** C29: the books the browser is shown.  Whatever datagrams arrive in
    whatever batches, the market-data thread goes on, touches no session, and
    its books are the priority lists of exactly the events whose sequence
    number was the next one.  So a gap costs more than what was lost: the
    event that shows it, which every strategy's subscriber applies, is
    dropped too.  And when nothing is lost, every book holds the exchange's
    resting orders, with its best price, quantity and count. *)
Theorem ui_books_follow_feed `{Json : JsonLib} fs options :
  (forall batches, exists g, feed_batches fs (UiGateway_new options) batches = Some g /\ ug_sessions g = ∅ /\
     forall i s, OrderBook.all_orders (manager_book_for (rp_books (ug_market_data_outcome g)) i) s =
       so_side (mirror_book (spec_feed ∅ (in_order SequenceValidator_new (events_in (mjoin (batch_frames <$> batches))))).1 i) s) /\
  (forall before ev after n m, numbered n before -> before <> [] -> numbered m (ev :: after) ->
     0 < n -> n + Z.of_nat (length before) < m -> m + Z.of_nat (length (ev :: after)) <= two64 ->
     in_order SequenceValidator_new (before ++ ev :: after) = before ++ after) /\
  (forall universe expected cmds e evs clock batches i s, history universe expected cmds e evs -> Forall command_wf cmds ->
     Z.of_nat (length cmds) < two64 - 1 -> Z.of_nat (length evs) < two64 - 1 -> (forall k, u64_ok (clock k)) ->
     mjoin (mjoin batches).*2 = (publish_all clock MarketDataPublisher_new evs).2 ->
     Forall (fun b => u64_ok b.1 /\ b.2 <> [] /\ Z.of_nat (length b.2) <= Packet.MAX_FRAMES_PER_DATAGRAM) (mjoin batches) -> 0 <= i ->
     exists g, feed_batches fs (UiGateway_new options) (datagrams_of <$> batches) = Some g /\
       OrderBook.all_orders (manager_book_for (rp_books (ug_market_data_outcome g)) i) s ≡ₚ view_of <$> side_orders e i s /\
       OrderBook.best (manager_book_for (rp_books (ug_market_data_outcome g)) i) s =
         (fun o => level_of (side_orders e i s) (bo_price o)) <$> head (side_orders e i s)).
Proof.
  split; [|split; [intros; by eapply gap_drops_one|intros; by eapply ui_mirrors]].
  intros batches. destruct (feed_batches_refines fs batches (UiGateway_new options) ∅ new_books_rep) as (g & Hg & Hs & _ & Hrep).
  exists g. split; [exact Hg|]. split; [exact Hs|]. intros i s. by destruct (Hrep i).
Qed.

(** ** The sessions *)
Section Sessions.
Context `{Json : JsonLib}.
Implicit Types (g : UiGateway) (a : AccountId).

Definition names_account a (m : OrderEntry.Message) : Prop := fst <$> inbound_key m = Some a.
(** What a session's operation does, whatever the transport answers. *)
Record own_op {R} a (s : Session) (op : bool -> TraderRiskGatedOms unit * list OmsOutput * R) : Prop := {
  oo_account : forall sent, tg_account_id (op sent).1.1 = tg_account_id (ss_gated s) /\
    oms_account_id (tg_oms (op sent).1.1) = oms_account_id (tg_oms (ss_gated s));
  oo_alike : forall sent, sent_message (op sent).1.2 = sent_message (op true).1.2;
  oo_names : forall m, sent_message (op true).1.2 = Some m -> names_account a m;
}.
Lemma sinks_keep outs (gt : TraderRiskGatedOms unit) : tg_account_id (foldl (sink None) gt outs) = tg_account_id gt /\
  tg_oms (foldl (sink None) gt outs) = tg_oms gt.
Proof. destruct (sink_all None outs gt) as (-> & _ & -> & _). done. Qed.
Lemma own_submit a s i sd p q ty tif : oms_account_id (tg_oms (ss_gated s)) = a ->
  own_op a s (fun sent => @TraderRisk.submit_new_order unit None (ss_gated s) sent i sd p q ty tif).
Proof.
  intros <-. split.
  - intros sent. unfold TraderRisk.submit_new_order. destruct (negb _); [done|]. unfold Oms.submit_new_order, take_id, emplace, mark_send_failed, store, with_orders.
    cbn [oms_orders oms_account_id]. destruct sent; repeat case_match; simplify_eq; cbn [fst snd];
      match goal with |- context [foldl (sink None) ?g ?outs] => destruct (sinks_keep outs g) as [-> ->] end; done.
  - intros sent. unfold TraderRisk.submit_new_order. destruct (negb _); [done|]. unfold Oms.submit_new_order, take_id, mark_send_failed.
    destruct sent; [done|]. by destruct (oms_orders (emplace _ _ _) !! _).
  - intros m. unfold TraderRisk.submit_new_order. destruct (negb _); [done|]. cbn. unfold emplace.
    repeat case_match; intros [= <-]; done.
Qed.
Lemma own_cancel a s id : oms_account_id (tg_oms (ss_gated s)) = a ->
  own_op a s (fun sent => @TraderRisk.cancel_order unit None (ss_gated s) sent id).
Proof.
  intros <-. unfold TraderRisk.cancel_order, Oms.cancel_order. destruct (workable _ id) as [o|]; [|by split].
  split; [intros []|intros []|]; cbn; unfold clear_pending_action, store; cbn; try (by repeat case_match).
  by intros m [= <-].
Qed.
Lemma own_replace a s id p q : oms_account_id (tg_oms (ss_gated s)) = a ->
  own_op a s (fun sent => @TraderRisk.replace_order unit None (ss_gated s) sent id p q).
Proof.
  intros <-. unfold TraderRisk.replace_order, Oms.replace_order. destruct (workable _ id) as [o|]; [|by split].
  split; [intros []|intros []|]; cbn; unfold clear_pending_action, emplace, store; cbn; repeat case_match; simplify_eq; cbn; try done;
    by intros m [= <-].
Qed.

(** The bytes on one account's connection: one part per message sent, each
    naming the account; the whole encoding where the send answered true, a
    proper prefix of it where it answered false. *)
Definition part_of a (send : OrderEntry.Message * bool) (part : list byte) : Prop :=
  names_account a send.1 /\ exists rest, part ++ rest = OrderEntry.message_bytes send.1 /\ (send.2 = true <-> rest = []).
Definition own_bytes a (s : Session) : Prop := exists parts,
  oc_written (ss_client s) = mjoin parts /\ Forall2 (part_of a) (ss_sends s) parts.
Record session_ok (options : UiGatewayOptions) a (s : Session) : Prop := {
  so_demo : a ∈ uo_demo_account_ids options;
  so_gate : tg_account_id (ss_gated s) = a;
  so_oms : oms_account_id (tg_oms (ss_gated s)) = a;
  so_bytes : own_bytes a s;
}.
Definition ug_ok (options : UiGatewayOptions) g : Prop :=
  ug_options g = options /\ forall a s, ug_sessions g !! a = Some s -> session_ok options a s.
(** Only the session of [a] and the hub may have changed. *)
Definition confined a g g' : Prop :=
  ug_options g' = ug_options g /\ ug_validator g' = ug_validator g /\ ug_market_data_outcome g' = ug_market_data_outcome g /\
  forall b, b <> a -> ug_sessions g' !! b = ug_sessions g !! b.
Lemma confined_refl a g : confined a g g.
Proof. done. Qed.
Lemma confined_trans a g1 g2 g3 : confined a g1 g2 -> confined a g2 g3 -> confined a g1 g3.
Proof. intros (A1 & A2 & A3 & A4) (B1 & B2 & B3 & B4). split_and!; try congruence. intros b Hb. by rewrite B4, A4. Qed.

Lemma broadcast_updates_keep a outs : forall g, let g' := broadcast_updates a outs g in
  ug_sessions g' = ug_sessions g /\ ug_options g' = ug_options g /\ ug_validator g' = ug_validator g /\
  ug_market_data_outcome g' = ug_market_data_outcome g.
Proof.
  induction outs as [|o outs IH]; intros g; [done|]. unfold broadcast_updates in *. cbn zeta in IH. cbn [foldl].
  destruct o as [m|order|f]; [apply IH| |apply IH]. destruct (IH (broadcast_order g a order)) as (-> & -> & -> & ->). done.
Qed.
(** Replacing [a]'s session by a good one, and broadcasting. *)
Lemma store_session options a s outs g : ug_ok options g -> session_ok options a s ->
  let g' := broadcast_updates a outs (ug_with_sessions g (<[a := s]> (ug_sessions g))) in ug_ok options g' /\ confined a g g'.
Proof.
  intros [Ho Hs] Hok. cbn zeta. destruct (broadcast_updates_keep a outs (ug_with_sessions g (<[a := s]> (ug_sessions g)))) as (E1 & E2 & E3 & E4).
  split.
  - split; [by rewrite E2|]. intros b s'. rewrite E1. cbn. destruct (decide (b = a)) as [->|]; [rewrite lookup_insert_eq; by intros [= <-]|].
    rewrite lookup_insert_ne by done. apply Hs.
  - split_and!; [by rewrite E2|by rewrite E3|by rewrite E4|]. intros b Hb. rewrite E1. cbn. by rewrite lookup_insert_ne.
Qed.
Lemma seeded_ok options a accepted : a ∈ uo_demo_account_ids options ->
  session_ok options a (seeded options (Session_new a (uo_per_account_risk_limits options) accepted)).
Proof.
  intros Ha. assert (Hf : forall ids gt, let gt' := foldl (fun (gated : TraderRiskGatedOms unit) i => deposit_position gated i (uo_demo_starting_position options)) gt ids in
    tg_account_id gt' = tg_account_id gt /\ tg_oms gt' = tg_oms gt).
  { induction ids as [|i ids IH]; intros gt; [done|]. cbn [foldl]. cbn zeta in IH. by destruct (IH (deposit_position gt i (uo_demo_starting_position options))) as [-> ->]. }
  unfold seeded, Session_new, connect. destruct accepted; (split; [done|cbn; by rewrite (proj1 (Hf _ _))|cbn; by rewrite (proj2 (Hf _ _))|by exists []]).
Qed.
Lemma find_session options out a g : ug_ok options g ->
  match find_or_create_session out a g with
  | (g', Some s) => ug_ok options g' /\ confined a g g' /\ ug_sessions g' !! a = Some s
  | (g', None) => g' = g /\ a ∉ uo_demo_account_ids options
  end.
Proof.
  intros Hg. pose proof Hg as [Ho Hs]. unfold find_or_create_session. destruct (ug_sessions g !! a) as [s|] eqn:Ea; [done|].
  rewrite Ho. case_bool_decide as Hd; cbn [negb]; [|done].
  destruct (store_session options a _ [] g Hg (seeded_ok options a (ou_accepted out) Hd)) as [H1 H2]. split; [exact H1|]. split; [exact H2|].
  cbn. by rewrite lookup_insert_eq.
Qed.
Lemma on_session_ok {R} options out a s (op : bool -> TraderRiskGatedOms unit * list OmsOutput * R) g :
  ug_ok options g -> ug_sessions g !! a = Some s -> own_op a s op ->
  ug_ok options (on_session out a s op g).1 /\ confined a g (on_session out a s op g).1.
Proof.
  intros Hg Ha [O1 O2 O3]. pose proof (proj2 Hg a s Ha) as [S1 S2 S3 (parts & S4 & S5)]. unfold on_session.
  set (transport := match sent_message _ with Some m => _ | None => _ end).
  assert (Hw : forall gated connected, own_bytes a {| ss_gated := gated; ss_client := transport.1; ss_connected := connected;
    ss_sends := match sent_message (op true).1.2 with Some m => ss_sends s ++ [(m, transport.2)] | None => ss_sends s end |}).
  { intros gated connected. unfold transport. destruct (sent_message (op true).1.2) as [m|] eqn:Em; [|by exists parts].
    destruct (send_appends (ss_client s) m (ou_takes out)) as (taken & rest & Et & Er & Hok).
    exists (parts ++ [taken]). cbn [ss_client ss_sends]. rewrite Et, S4, join_app. cbn. rewrite app_nil_r. split; [done|].
    apply Forall2_app; [done|]. constructor; [|done]. split; [by apply O3|]. by exists rest. }
  destruct transport as [client sent]. cbn [fst snd] in Hw. destruct (O1 sent) as [A1 A2]. destruct (op sent) as [[gated outs] r]. cbn [fst snd] in *.
  apply store_session; [done|]. by split; cbn [ss_gated]; [|rewrite A1|rewrite A2|].
Qed.
Lemma handled_account (gt : TraderRiskGatedOms unit) m : let gt' := (@TraderRisk.handle_message unit None gt m).1 in
  tg_account_id gt' = tg_account_id gt /\ oms_account_id (tg_oms gt') = oms_account_id (tg_oms gt).
Proof.
  unfold TraderRisk.handle_message. assert (H : oms_account_id (Oms.handle_message (tg_oms gt) m).1 = oms_account_id (tg_oms gt)).
  { destruct m; cbn [Oms.handle_message]; try done;
      unfold on_accepted, on_rejected, on_cancelled, on_replaced, on_trade_report, store, with_orders; repeat case_match; simplify_eq; done. }
  destruct (Oms.handle_message (tg_oms gt) m) as [oms outs]. cbn [fst] in *. destruct (sinks_keep outs (tg_with_oms gt oms)) as [-> ->]. done.
Qed.
Lemma hear_ok options a g m : ug_ok options g -> ug_ok options (hear a g m) /\ confined a g (hear a g m).
Proof.
  intros Hg. unfold hear. destruct (ug_sessions g !! a) as [s|] eqn:Ea; [|done]. pose proof (proj2 Hg a s Ea) as [S1 S2 S3 S4].
  pose proof (handled_account (ss_gated s) m) as [E1 E2]. destruct (@TraderRisk.handle_message unit None (ss_gated s) m) as [gated outs].
  cbn [fst] in *. apply store_session; [done|]. by split; cbn; [|rewrite E1|rewrite E2|].
Qed.
Lemma session_reads_ok options a answer g : ug_ok options g ->
  ug_ok options (session_reads a answer g) /\ confined a g (session_reads a answer g).
Proof.
  intros Hg. unfold session_reads. destruct (ug_sessions g !! a) as [s|] eqn:Ea; [|done]. pose proof (proj2 Hg a s Ea) as [S1 S2 S3 S4].
  destruct (negb _); [done|].
  assert (Hset : forall client, oc_written client = oc_written (ss_client s) ->
    let g' := ug_with_sessions g (<[a := {| ss_gated := ss_gated s; ss_client := client; ss_connected := ss_connected s; ss_sends := ss_sends s |}]> (ug_sessions g)) in
    ug_ok options g' /\ confined a g g').
  { intros client E. apply (store_session options a _ [] g Hg). split; cbn; [done..|]. destruct S4 as (parts & E1 & E2). exists parts. cbn. by rewrite E. }
  unfold read_once. destruct answer as [bytes|]; [|by apply Hset]. case_bool_decide; [by apply Hset|].
  destruct (frames_loop _ _) as [messages rest]. destruct (Hset (oc_with_buffer (ss_client s) rest) eq_refl) as [H1 H2].
  revert H1 H2. generalize (ug_with_sessions g (<[a := {| ss_gated := ss_gated s; ss_client := oc_with_buffer (ss_client s) rest;
    ss_connected := ss_connected s; ss_sends := ss_sends s |}]> (ug_sessions g))). induction messages as [|m messages IH]; intros g1 H1 H2; [done|]. cbn [foldl].
  destruct (hear_ok options a g1 m H1) as [H3 H4]. apply IH; [done|]. by eapply confined_trans.
Qed.

(** Handlers, by their steps. *)
Definition keeps {A} (h : Attempt A) : Prop := forall g, (h g).1 = g.
Definition safe {A} options a s (h : Attempt A) : Prop := forall g, ug_ok options g -> ug_sessions g !! a = Some s ->
  ug_ok options (h g).1 /\ confined a g (h g).1.
Lemma keeps_throwing {A} (o : option A) : keeps (throwing o).
Proof. done. Qed.
Lemma keeps_done {A} (x : A) : keeps (done x).
Proof. done. Qed.
Lemma keeps_current : keeps current.
Proof. done. Qed.
Lemma keeps_then {A B} (h : Attempt A) (k : A -> Attempt B) : keeps h -> (forall x, keeps (k x)) -> keeps (and_then h k).
Proof. intros H1 H2 g. unfold and_then. specialize (H1 g). destruct (h g) as [g1 [x|]]; cbn in *; subst; [apply H2|done]. Qed.
Lemma keeps_safe {A} options a s (h : Attempt A) : keeps h -> safe options a s h.
Proof. intros H g Hg Ha. rewrite H. done. Qed.
Lemma safe_then {A B} options a s (h : Attempt A) (k : A -> Attempt B) : keeps h -> (forall x, safe options a s (k x)) ->
  safe options a s (and_then h k).
Proof. intros H1 H2 g Hg Ha. unfold and_then. specialize (H1 g). destruct (h g) as [g1 [x|]]; cbn in *; subst; [by apply H2|done]. Qed.
Lemma safe_op {R A} options a s out (op : bool -> TraderRiskGatedOms unit * list OmsOutput * R) (k : R -> Attempt A) :
  (session_ok options a s -> own_op a s op) -> (forall r, keeps (k r)) -> safe options a s (and_then (on_session out a s op) k).
Proof.
  intros Ho Hk g Hg Ha. pose proof (proj2 Hg a s Ha) as Hs.
  destruct (on_session_ok options out a s op g Hg Ha (Ho Hs)) as [H1 H2]. unfold and_then.
  destruct (on_session out a s op g) as [g1 [r|]]; cbn in *; [by rewrite Hk|done].
Qed.
End Sessions.
Create HintDb ui.
#[export] Hint Resolve keeps_throwing keeps_done keeps_current keeps_then keeps_safe safe_then safe_op own_submit own_cancel own_replace so_oms : ui.

Section Requests.
Context `{Json : JsonLib} (fs : string -> option (list byte)).

Definition unknown_account : Response := send_json_error 404 "unknown_account".
Lemma for_session_ok options out a body g : ug_ok options g -> (forall s, safe options a s (body s)) ->
  let r := for_session out a body g in
  ug_ok options r.1 /\ confined a g r.1 /\ (a ∉ uo_demo_account_ids options -> r = (g, Some unknown_account)).
Proof.
  intros Hg Hb. unfold for_session. pose proof (find_session options out a g Hg) as Hf.
  destruct (find_or_create_session out a g) as [g1 [s|]].
  - destruct Hf as (H1 & H2 & H3). destruct (Hb s g1 H1 H3) as [H4 H5]. split; [done|]. split; [by eapply confined_trans|].
    intros Hn. destruct Hn. by destruct (proj2 H1 a s H3).
  - destruct Hf as [-> Hn]. done.
Qed.
(** The account a request is for, when it gets as far as naming one. *)
Definition named_account (route : Route) (req : Request) : option AccountId :=
  match route with
  | GetAccount => stoull (matched req 1)
  | CancelOrder | ReplaceOrder => let* a := stoull (matched req 1) in let* _ := stoull (matched req 2) in Some a
  | SubmitOrder => let* body := parse (rq_body req) in at_key body "account_id" ≫= get_u64
  | Health | ListAccounts | GetBook => None
  end.
Lemma named_handler options named (h : Attempt Response) g : ug_ok options g ->
  match named with
  | None => (h g).1 = g
  | Some a => ug_ok options (h g).1 /\ confined a g (h g).1 /\ (a ∉ uo_demo_account_ids options -> h g = (g, Some unknown_account))
  end ->
  let r := catching h g in
  ug_ok options r.1 /\ match named with
                       | None => r.1 = g
                       | Some a => confined a g r.1 /\ (a ∉ uo_demo_account_ids options -> r = (g, unknown_account))
                       end.
Proof.
  unfold catching. intros Hg H. destruct named as [a|].
  - destruct H as (H1 & H2 & H3). destruct (h g) as [g1 r]. cbn [fst] in *. split; [done|]. split; [done|]. intros Ha. by injection (H3 Ha) as -> ->.
  - destruct (h g) as [g1 r]. cbn in *. by subst.
Qed.
Lemma then_throwing {A B} (o : option A) (k : A -> Attempt B) g :
  and_then (throwing o) k g = match o with Some x => k x g | None => (g, None) end.
Proof. by destruct o. Qed.
Lemma submit_body_safe options out a s body : safe options a s
  (let! side := member body "side" get_string in
   match parse_side side with
   | None => done (send_json_error 400 "invalid_side")
   | Some side =>
       let! parsed := (if contains body "time_in_force"
                       then let! text := member body "time_in_force" get_string in done (parse_time_in_force text)
                       else done (Some GTC)) in
       match parsed with
       | None => done (send_json_error 400 "invalid_time_in_force")
       | Some time_in_force =>
           let! instrument_id := member body "instrument_id" get_u32 in
           let! price := member body "price" get_s64 in
           let! quantity := member body "quantity" get_u64 in
           let! outcome := on_session out a s (fun sent =>
             @TraderRisk.submit_new_order unit None (ss_gated s) sent instrument_id side price quantity Limit time_in_force) in
           done (set_content (json_object
             match so_client_order_id outcome with
             | Some id => [("accepted", json_bool true); ("client_order_id", json_int id)]%string
             | None => [("accepted", json_bool false);
                        ("reject_reason", json_string (reject_reason_to_string (so_local_reject_reason outcome)))]%string
             end))
       end
   end).
Proof.
  unfold member. apply safe_then; [auto with ui|]. intros side. destruct (parse_side side); [|auto with ui].
  apply safe_then; [destruct (contains _ _); auto with ui|]. intros [tif|]; [|auto with ui].
  do 3 (apply safe_then; [auto with ui|]; intros ?). apply safe_op; [|auto with ui]. intros [_ _ Hs _]. by apply own_submit.
Qed.
Lemma route_ok options out route req g : ug_ok options g ->
  let r := handle out route req g in
  ug_ok options r.1 /\ match named_account route req with
                       | None => r.1 = g
                       | Some a => confined a g r.1 /\ (a ∉ uo_demo_account_ids options -> r = (g, unknown_account))
                       end.
Proof.
  intros Hg. destruct route; cbn [handle]; try done;
    match goal with |- context [named_account ?route _] => apply (named_handler options (named_account route req) _ g Hg) end; cbn [named_account].
  - rewrite then_throwing. destruct (stoull _) as [a|]; [|done]. apply (for_session_ok options out a _ g Hg). intros s. apply safe_then; auto with ui.
  - rewrite then_throwing. destruct (u32 <$> stoul _) as [i|]; [|done]. unfold and_then at 1, current. rewrite then_throwing.
    case_match; [|done]. by destruct (book_sides _ _ _).
  - rewrite then_throwing. destruct (parse _) as [body|]; [|done]. cbn iota.
    change (member body "account_id" get_u64) with (throwing (at_key body "account_id" ≫= get_u64)). rewrite then_throwing.
    destruct (at_key body "account_id" ≫= get_u64) as [a|]; [|done]. apply (for_session_ok options out a _ g Hg). intros s. apply submit_body_safe.
  - rewrite then_throwing. destruct (stoull _) as [a|]; [|done]. rewrite then_throwing. destruct (stoull _) as [id|]; [|done].
    apply (for_session_ok options out a _ g Hg). intros s. apply safe_op; [|auto with ui]. intros [_ _ Hs _]. by apply own_cancel.
  - rewrite then_throwing. destruct (stoull _) as [a|]; [|done]. rewrite then_throwing. destruct (stoull _) as [id|]; [|done].
    apply (for_session_ok options out a _ g Hg). intros s. unfold member. do 3 (apply safe_then; [auto with ui|]; intros ?).
    apply safe_op; [|auto with ui]. intros [_ _ Hs _]. by apply own_replace.
Qed.

Inductive UiStep :=
| UiRequest (out : Outside) (route : Route) (req : Request)
| UiReads (account_id : AccountId) (answer : ReadAnswer)
| UiBatch (datagrams : list (list byte)).
Definition ui_step g (s : UiStep) : option UiGateway :=
  match s with
  | UiRequest out route req => if reads_invalid_iterator out route req g then None else Some (handle out route req g).1
  | UiReads a answer => Some (session_reads a answer g)
  | UiBatch datagrams => market_data_batch fs g datagrams
  end.
Fixpoint ui_run g (steps : list UiStep) : option UiGateway :=
  match steps with [] => Some g | s :: steps => let* g := ui_step g s in ui_run g steps end.
Definition ui_inv options g : Prop := ug_ok options g /\ exists M, books_rep (rp_books (ug_market_data_outcome g)) M.
(** The run stops at a replace that reads the moved iterator, and only there. *)
Definition stops_at_replace g (steps : list UiStep) : Prop := exists before out req after g',
  steps = before ++ UiRequest out ReplaceOrder req :: after /\ ui_run g before = Some g' /\
  reads_invalid_iterator out ReplaceOrder req g' = true.
Lemma ui_step_ok options g st : ui_inv options g ->
  match ui_step g st with
  | Some g' => ui_inv options g'
  | None => exists out req, st = UiRequest out ReplaceOrder req /\ reads_invalid_iterator out ReplaceOrder req g = true
  end.
Proof.
  intros [Hg [M HM]]. destruct st as [out route req|a answer|batch]; cbn [ui_step].
  - destruct (reads_invalid_iterator out route req g) eqn:Hr; [destruct route; try done; by exists out, req|].
    destruct (route_ok options out route req g Hg) as [H1 H2]. split; [done|]. exists M.
    destruct (named_account route req) as [a|]; [|by rewrite H2]. by destruct H2 as ((_ & _ & -> & _) & _).
  - destruct (session_reads_ok options a answer g Hg) as [H1 (_ & _ & H2 & _)]. split; [done|]. exists M. by rewrite H2.
  - destruct (feed_batches_refines fs [batch] g M HM) as (g1 & E & Es & Eo & Hb). cbn [feed_batches] in E.
    destruct (market_data_batch fs g batch) as [g2|]; [|done]. injection E as ->.
    split; [|by eexists]. destruct Hg as [Ho Hs]. split; [by rewrite Eo|]. intros a s. rewrite Es. apply Hs.
Qed.
Lemma ui_run_ok options steps : forall g, ui_inv options g ->
  match ui_run g steps with Some g' => ui_inv options g' | None => stops_at_replace g steps end.
Proof.
  induction steps as [|st steps IH]; intros g Hg; [done|]. cbn [ui_run]. pose proof (ui_step_ok options g st Hg) as Hst.
  destruct (ui_step g st) as [g1|] eqn:E; cbn [mbind option_bind].
  - specialize (IH g1 Hst). destruct (ui_run g1 steps) as [g2|]; [done|].
    destruct IH as (before & out & req & after & g' & -> & Hr & Hi). exists (st :: before), out, req, after, g'. cbn. by rewrite E.
  - destruct Hst as (out & req & -> & Hi). by exists [], out, req, steps, g.
Qed.
End Requests.

(** C30: sessions are private to their accounts.  Whatever requests, reads of
    the sessions' sockets and market-data batches the gateway is given, every
    step is defined but one kind: a replace of a workable order at whose
    insertion the map of orders rehashes, which then reads an invalidated
    iterator.  Up to there, there are sessions for demo accounts only, each
    gate and order manager is its account's own, and every message its sender
    was given names that account: the bytes on its connection are, in order,
    the whole encodings of those whose send answered true and a proper prefix
    of each whose send answered false.  From any such state a request (that
    is not such a replace) changes no other session and no book; one for any
    other account changes nothing at all and is answered 404. *)
Theorem ui_sessions_private `{Json : JsonLib} fs options steps :
  match ui_run fs (UiGateway_new options) steps with
  | None => exists before out req after g, steps = before ++ UiRequest out ReplaceOrder req :: after /\
      ui_run fs (UiGateway_new options) before = Some g /\ reads_invalid_iterator out ReplaceOrder req g = true
  | Some g =>
      (forall a s, ug_sessions g !! a = Some s ->
         a ∈ uo_demo_account_ids options /\ tg_account_id (ss_gated s) = a /\ oms_account_id (tg_oms (ss_gated s)) = a /\
         exists parts, oc_written (ss_client s) = mjoin parts /\
           Forall2 (fun (send : OrderEntry.Message * bool) part => (fst <$> inbound_key send.1 = Some a) /\
             exists rest, part ++ rest = OrderEntry.message_bytes send.1 /\ (send.2 = true <-> rest = [])) (ss_sends s) parts) /\
      (forall out route req, reads_invalid_iterator out route req g = false -> let (g', r) := handle out route req g in
         ug_market_data_outcome g' = ug_market_data_outcome g /\
         match named_account route req with
         | None => g' = g
         | Some a => (forall b, b <> a -> ug_sessions g' !! b = ug_sessions g !! b) /\
                     (a ∉ uo_demo_account_ids options -> g' = g /\ r = unknown_account)
         end)
  end.
Proof.
  assert (Hinv : ui_inv options (UiGateway_new options)).
  { split; [split; [done|by intros a s]|]. by exists ∅; apply new_books_rep. }
  pose proof (ui_run_ok fs options steps (UiGateway_new options) Hinv) as Hrun.
  destruct (ui_run fs (UiGateway_new options) steps) as [g|]; [|exact Hrun]. destruct Hrun as [Hok _]. split.
  - intros a s Hs. by destruct (proj2 Hok a s Hs).
  - intros out route req _. destruct (route_ok options out route req g Hok) as [_ H]. destruct (handle out route req g) as [g' r]. cbn [fst] in H.
    destruct (named_account route req) as [a|]; [|by subst]. destruct H as [(_ & _ & H1 & H2) H3]. split; [done|]. split; [done|].
    intros Ha. by injection (H3 Ha) as -> ->.
Qed.

(** ** Submitting an order *)
Definition session_for options (out : Outside) (a : AccountId) (g : UiGateway) : Session :=
  default (seeded options (Session_new a (uo_per_account_risk_limits options) (ou_accepted out))) (ug_sessions g !! a).
Lemma parse_side_to_string side : parse_side (side_to_string side) = Some side.
Proof. by destruct side. Qed.
Lemma parse_time_in_force_to_string tif : parse_time_in_force (time_in_force_to_string tif) = Some tif.
Proof. by destruct tif. Qed.
Section Submit.
Context `{Json : JsonLib}.
Record order_body (body : json) (a : AccountId) (i : InstrumentId) (side : Side) (p : Price) (q : Quantity) (tif : TimeInForce) : Prop := {
  ob_account : at_key body "account_id" ≫= get_u64 = Some a;
  ob_side : at_key body "side" ≫= get_string = Some (side_to_string side);
  ob_tif : if contains body "time_in_force" then at_key body "time_in_force" ≫= get_string = Some (time_in_force_to_string tif) else tif = GTC;
  ob_instrument : at_key body "instrument_id" ≫= get_u32 = Some i;
  ob_price : at_key body "price" ≫= get_s64 = Some p;
  ob_quantity : at_key body "quantity" ≫= get_u64 = Some q;
}.
Definition submit_response (outcome : SubmitOutcome) : Response :=
  set_content (json_object
    match so_client_order_id outcome with
    | Some id => [("accepted", json_bool true); ("client_order_id", json_int id)]%string
    | None => [("accepted", json_bool false);
               ("reject_reason", json_string (reject_reason_to_string (so_local_reject_reason outcome)))]%string
    end).
Lemma find_session_for out a g : let options := ug_options g in a ∈ uo_demo_account_ids options ->
  exists g1, find_or_create_session out a g = (g1, Some (session_for options out a g)).
Proof.
  cbn zeta. intros Ha. unfold find_or_create_session, session_for. destruct (ug_sessions g !! a) as [s|]; [by eexists|].
  rewrite bool_decide_eq_true_2 by done. by eexists.
Qed.
Lemma handle_submit out req g body a i side p q tif : parse (rq_body req) = Some body -> order_body body a i side p q tif ->
  a ∈ uo_demo_account_ids (ug_options g) ->
  exists g1, let '(g', r) := on_session out a (session_for (ug_options g) out a g) (fun sent =>
      @TraderRisk.submit_new_order unit None (ss_gated (session_for (ug_options g) out a g)) sent i side p q Limit tif) g1 in
    handle out SubmitOrder req g = (g', default (send_json_error 400 "bad_request") (submit_response <$> r)).
Proof.
  intros Hb [B1 B2 B3 B4 B5 B6] Ha. destruct (find_session_for out a g Ha) as [g1 Hf]. exists g1.
  cbn [handle]. unfold handle_submit_order, catching. rewrite then_throwing, Hb. unfold member.
  rewrite then_throwing, B1. unfold for_session. rewrite Hf. rewrite then_throwing, B2, parse_side_to_string. unfold and_then at 1.
  assert (Ht : (if contains body "time_in_force"
                then let! text := throwing (at_key body "time_in_force" ≫= get_string) in done (parse_time_in_force text)
                else done (Some GTC)) g1 = (g1, Some (Some tif))).
  { destruct (contains body _); [|by subst]. rewrite then_throwing, B3. by rewrite parse_time_in_force_to_string. }
  rewrite Ht, !then_throwing, B4. rewrite then_throwing, B5, then_throwing, B6. unfold and_then at 1.
  by destruct (on_session _ _ _ _ _) as [g2 [o|]].
Qed.
Lemma on_session_store {R} out a s (op : bool -> TraderRiskGatedOms unit * list OmsOutput * R) g :
  exists client sent, (match sent_message (op true).1.2 with
                       | Some m => OrderEntryClient.send (ss_client s) m (ou_takes out) | None => (ss_client s, true) end) = (client, sent) /\
    (on_session out a s op g).2 = Some (op sent).2 /\
    ug_sessions (on_session out a s op g).1 !! a =
      Some {| ss_gated := (op sent).1.1; ss_client := client; ss_connected := ss_connected s;
              ss_sends := match sent_message (op true).1.2 with Some m => ss_sends s ++ [(m, sent)] | None => ss_sends s end |}.
Proof.
  unfold on_session. destruct (match sent_message _ with Some m => _ | None => _ end) as [client sent]. exists client, sent.
  destruct (op sent) as [[gated outs] r]. cbn [fst snd]. split; [done|]. split; [done|].
  match goal with |- context [broadcast_updates a outs ?g'] => destruct (broadcast_updates_keep a outs g') as (-> & _) end.
  cbn. by rewrite lookup_insert_eq.
Qed.
End Submit.
Lemma session_for_ok options out a g : ug_ok options g -> a ∈ uo_demo_account_ids options -> session_ok options a (session_for options out a g).
Proof.
  intros [_ Hs] Ha. unfold session_for. destruct (ug_sessions g !! a) as [s|] eqn:E; [by apply Hs|]. by apply seeded_ok.
Qed.
(** What the order management system makes of the transport's answer. *)
Lemma submit_new (gt : TraderRiskGatedOms unit) sent i side p q tif : let id := oms_next_client_order_id (tg_oms gt) in
  oms_orders (tg_oms gt) !! id = None -> check (tg_risk gt) (tg_account_id gt) i side p q (tg_positions gt) = RejectReason.None ->
  let r := @TraderRisk.submit_new_order unit None gt sent i side p q Limit tif in
  sent_message r.1.2 = Some (OrderEntry.MsgNewOrder
    {| OrderEntry.no_account_id := oms_account_id (tg_oms gt); OrderEntry.no_client_order_id := id; OrderEntry.no_instrument_id := i;
       OrderEntry.no_side := side; OrderEntry.no_price := p; OrderEntry.no_quantity := q; OrderEntry.no_order_type := Limit;
       OrderEntry.no_time_in_force := tif |}) /\
  r.2 = {| so_client_order_id := Some id; so_local_reject_reason := RejectReason.None |} /\
  co_state <$> order r.1.1 id = Some (if sent then PendingNew else Rejected).
Proof.
  intros id Hid Hc. unfold TraderRisk.submit_new_order. rewrite Hc. rewrite bool_decide_eq_true_2 by done. cbn [negb].
  unfold Oms.submit_new_order, take_id. fold id. unfold emplace. cbn [oms_orders]. rewrite Hid.
  destruct sent.
  - cbn. split; [done|]. split; [done|]. unfold order, Oms.order. cbn. by rewrite lookup_insert_eq.
  - unfold mark_send_failed, with_orders. cbn [oms_orders]. rewrite lookup_insert_eq. cbn. split; [done|]. split; [done|].
    unfold order, Oms.order, store. cbn. by rewrite lookup_insert_eq.
Qed.
Lemma submit_refused (gt : TraderRiskGatedOms unit) sent i side p q tif :
  check (tg_risk gt) (tg_account_id gt) i side p q (tg_positions gt) <> RejectReason.None ->
  @TraderRisk.submit_new_order unit None gt sent i side p q Limit tif =
    (gt, [], {| so_client_order_id := None; so_local_reject_reason := check (tg_risk gt) (tg_account_id gt) i side p q (tg_positions gt) |}).
Proof. intros Hc. unfold TraderRisk.submit_new_order. by rewrite bool_decide_eq_false_2. Qed.

(** C31: what becomes of a submitted order.  From any reachable state and
    whatever the socket takes, an order with a legal body for a demo account
    is judged by the session's own gate.  Refused, the answer carries the
    gate's reason and the session is as it was.  Passed, the answer is
    "accepted" with the next client order id, and exactly the order asked
    for, in that account's name, is what the connection is given: all of it,
    and the order is pending; or, the write failing, a proper part, and the
    order is already rejected while the answer still says accepted. *)
Theorem ui_submit_exact `{Json : JsonLib} fs options steps g out req body a i side p q tif :
  ui_run fs (UiGateway_new options) steps = Some g -> parse (rq_body req) = Some body -> order_body body a i side p q tif ->
  a ∈ uo_demo_account_ids options ->
  let s := session_for options out a g in
  let id := oms_next_client_order_id (tg_oms (ss_gated s)) in
  let reason := check (tg_risk (ss_gated s)) a i side p q (tg_positions (ss_gated s)) in
  oms_orders (tg_oms (ss_gated s)) !! id = None ->
  let (g', r) := handle out SubmitOrder req g in
  exists s', ug_sessions g' !! a = Some s' /\
    if decide (reason = RejectReason.None) then
      r = set_content (json_object [("accepted", json_bool true); ("client_order_id", json_int id)]%string) /\
      exists rest, oc_written (ss_client s') ++ rest = oc_written (ss_client s) ++ OrderEntry.message_bytes (OrderEntry.MsgNewOrder
          {| OrderEntry.no_account_id := a; OrderEntry.no_client_order_id := id; OrderEntry.no_instrument_id := i;
             OrderEntry.no_side := side; OrderEntry.no_price := p; OrderEntry.no_quantity := q; OrderEntry.no_order_type := Limit;
             OrderEntry.no_time_in_force := tif |}) /\
        co_state <$> order (ss_gated s') id = Some (if decide (rest = []) then PendingNew else Rejected)
    else
      r = set_content (json_object [("accepted", json_bool false); ("reject_reason", json_string (reject_reason_to_string reason))]%string) /\
      s' = s.
Proof.
  intros Hrun Hbody Hob Ha s id reason Hid.
  assert (Hinv : ui_inv options (UiGateway_new options)).
  { split; [split; [done|by intros b s0]|]. by exists ∅; apply new_books_rep. }
  pose proof (ui_run_ok fs options steps (UiGateway_new options) Hinv) as Hinv'. rewrite Hrun in Hinv'. destruct Hinv' as [Hok _]. pose proof (proj1 Hok) as Ho. pose proof (session_for_ok options out a g Hok Ha) as [_ Sg So _].
  fold s in Sg, So. rewrite <- Ho in Ha. destruct (handle_submit out req g body a i side p q tif Hbody Hob Ha) as [g1 Hh]. rewrite Ho in Hh. fold s in Hh.
  set (op := fun sent : bool => @TraderRisk.submit_new_order unit None (ss_gated s) sent i side p q Limit tif) in *.
  destruct (on_session_store out a s op g1) as (client & sent & Ht & Hr & Hs). destruct (on_session out a s op g1) as [g2 r]. rewrite Hh.
  cbn [fst snd] in *. subst r. eexists. split; [exact Hs|]. cbn [fmap option_fmap option_map default from_option id].
  destruct (decide (reason = RejectReason.None)) as [Hc|Hc].
  - unfold reason in Hc. rewrite <- Sg in Hc. destruct (submit_new (ss_gated s) true i side p q tif Hid Hc) as (E1 & _ & _).
    fold (op true) in E1. rewrite E1, So in Ht. destruct (submit_new (ss_gated s) sent i side p q tif Hid Hc) as (_ & E2 & E3).
    fold (op sent) in E2, E3. rewrite E2. split; [done|].
    match type of Ht with send _ ?m _ = _ => destruct (send_taken (ss_client s) m (ou_takes out)) as (rest & T1 & T2) end.
    rewrite Ht in T1, T2. cbn [fst snd] in T1, T2. exists rest. split; [exact T1|]. cbn [ss_gated]. unfold id. rewrite E3.
    f_equal. destruct (decide (rest = [])) as [Hn|Hn]; [by rewrite (proj2 T2 Hn)|]. destruct sent; [|done]. by destruct Hn; apply T2.
  - unfold reason in *. rewrite <- Sg in Hc |- *. pose proof (submit_refused (ss_gated s) sent i side p q tif Hc) as E.
    fold (op sent) in E. pose proof (submit_refused (ss_gated s) true i side p q tif Hc) as E'. fold (op true) in E'.
    rewrite E' in Ht. cbn in Ht. injection Ht as <- <-. rewrite E. split; [done|]. cbn. by destruct s.
Qed.

(** A JSON library that reads one text. *)
Inductive DemoJson := DNull | DBool (b : bool) | DInt (z : Z) | DString (s : string) | DArray (l : list DemoJson)
  | DObject (l : list (string * DemoJson)).
Definition demo_at (j : DemoJson) (key : string) : option DemoJson :=
  match j with DObject l => snd <$> List.find (fun x => bool_decide (x.1 = key)) l | _ => None end.
Definition demo_int (lo hi : Z) (j : DemoJson) : option Z :=
  match j with DInt z => if (lo <=? z) && (z <? hi) then Some z else None | _ => None end.
Definition demo_body : DemoJson :=
  DObject [("account_id", DInt 1001); ("side", DString "Buy"); ("instrument_id", DInt 1); ("price", DInt 100); ("quantity", DInt 5);
           ("new_price", DInt 101); ("new_quantity", DInt 4)]%string.
Definition demo_json : JsonLib :=
  {| json := DemoJson; json_null := DNull; json_bool := DBool; json_int := DInt; json_string := DString; json_array := DArray;
     json_object := DObject;
     dump := fun j => match demo_at j "accepted" with Some (DBool true) => "accepted" | Some _ => "refused" | None => "other" end%string;
     parse := fun s => if bool_decide (s = "buy"%string) then Some demo_body else None; at_key := demo_at;
     contains := fun j key => bool_decide (is_Some (demo_at j key)); get_u64 := demo_int 0 two64; get_s64 := demo_int (- two63) two63;
     get_u32 := demo_int 0 two32; get_string := fun j => match j with DString s => Some s | _ => None end |}.
Definition demo_request : Request := {| rq_matches := []; rq_depth := EmptyString; rq_body := "buy" |}.
(** The connection takes 10 bytes and breaks. *)
Definition demo_outside : Outside := {| ou_accepted := true; ou_takes := [IoTook 10; IoNotOk]; ou_walk := []; ou_rehashes := false |}.
Lemma ui_submit_exact_witness :
  let r := @handle demo_json demo_outside SubmitOrder demo_request (UiGateway_new UiGatewayOptions_default) in
  rs_content r.2 = "accepted"%string /\
  exists s', ug_sessions r.1 !! 1001 = Some s' /\ co_state <$> order (ss_gated s') 1 = Some Rejected /\ length (oc_written (ss_client s')) = 10%nat.
Proof.
  pose proof (ui_submit_exact (Json := demo_json) (fun _ => None) UiGatewayOptions_default [] (UiGateway_new UiGatewayOptions_default)
    demo_outside demo_request demo_body 1001 1 Buy 100 5 GTC eq_refl eq_refl) as H.
  specialize (H ltac:(split; vm_compute; reflexivity) ltac:(cbn; left) ltac:(vm_compute; reflexivity)).
  cbn zeta. destruct (@handle demo_json demo_outside SubmitOrder demo_request _) as [g' r] eqn:E.
  assert (Hl : length <$> (oc_written ∘ ss_client <$> ug_sessions g' !! 1001) = Some 10%nat).
  { change g' with (g', r).1. rewrite <- E. vm_compute. reflexivity. }
  destruct H as (s' & Hs & H). rewrite Hs in Hl. cbn in Hl. injection Hl as Hl.
  rewrite decide_True in H by (vm_compute; reflexivity). destruct H as (-> & rest & Hw & Ho). split; [vm_compute; reflexivity|].
  exists s'. split; [exact Hs|]. split; [|exact Hl].
  change (oms_next_client_order_id _) with 1 in Ho. rewrite Ho. f_equal. destruct (decide (rest = [])) as [->|]; [|done].
  apply (f_equal length) in Hw. rewrite app_nil_r, Hl in Hw. vm_compute in Hw. discriminate.
Defined.

(** The run of C30 can stop: the order is submitted and accepted, and the map
    rehashes as it is replaced. *)
Definition demo_open : Outside := {| ou_accepted := true; ou_takes := [IoTook 100]; ou_walk := []; ou_rehashes := true |}.
Definition demo_accepted : OrderEntry.Message :=
  OrderEntry.MsgAccepted {| OrderEntry.ac_account_id := 1001; OrderEntry.ac_client_order_id := 1; OrderEntry.ac_exchange_order_id := 7;
    OrderEntry.ac_instrument_id := 1; OrderEntry.ac_side := Buy; OrderEntry.ac_price := 100; OrderEntry.ac_quantity := 5;
    OrderEntry.ac_order_type := Limit; OrderEntry.ac_time_in_force := GTC |}.
Definition demo_replace : Request := {| rq_matches := ["all"; "1001"; "1"]; rq_depth := EmptyString; rq_body := "buy" |}%string.
Example replace_can_stop :
  let run steps := @ui_run demo_json (fun _ => None) (UiGateway_new UiGatewayOptions_default) steps in
  let steps := [UiRequest demo_open SubmitOrder demo_request; UiReads 1001 (ReadOk (OrderEntry.message_bytes demo_accepted))] in
  bool_decide (is_Some (run steps)) = true /\ run (steps ++ [UiRequest demo_open ReplaceOrder demo_replace]) = None.
Proof. split; vm_compute; reflexivity. Qed.
