(* ===== verification/FillReports.v ===== *)
(** * Fills and settlements

    What the exchange's ledger settles for an account at a trade
    ([event_fills]) is what the order management system reports as fills
    when the trade's reports arrive ([fills_of]): the sides of its own
    orders are those the exchange traded on.  The tracker fed by the fills
    therefore follows the ledger ([tracker_follows]). *)
From S2P Require Import Prelude Types TickLadder SideIndex PriceQueues MatchingBook BookSpec MatchingEngine EngineSpec EngineProcess EngineRefinement EngineFacts MapSums Ledger LedgerSpec LedgerSim LedgerSolvent LedgerMatch Risk Venue OrderEntryCodec GatewayReports Oms OmsMirror OmsDesk Positions TraderRisk.

Implicit Types (om : gmap ClientOrderId ClientOrder) (m : gmap HoldKey Hold).

Section Fills.
Context (a : AccountId).

(** What one message reports as a fill. *)
Definition fill_of om (message : OrderEntry.Message) : option Fill :=
  match message with
  | OrderEntry.MsgTradeReport ev =>
      (fun s => {| fi_account_id := a; fi_client_order_id := OrderEntry.tr_client_order_id ev;
                   fi_instrument_id := OrderEntry.tr_instrument_id ev; fi_side := s; fi_price := OrderEntry.tr_price ev;
                   fi_quantity := OrderEntry.tr_quantity ev |}) <$> (co_side <$> om !! OrderEntry.tr_client_order_id ev)
  | _ => None
  end.
Definition fills_of om (messages : list OrderEntry.Message) : list Fill := omap (fill_of om) messages.

Lemma fills_of_app om ms1 ms2 : fills_of om (ms1 ++ ms2) = fills_of om ms1 ++ fills_of om ms2.
Proof. apply omap_app. Qed.
Lemma fill_of_sides om1 om2 message : (forall id, id ∈ message_ids message -> co_side <$> om1 !! id = co_side <$> om2 !! id) ->
  fill_of om1 message = fill_of om2 message.
Proof. destruct message; try done. intros H. cbn. rewrite H; [done|]. by apply list_elem_of_singleton. Qed.
Lemma fills_of_sides om1 om2 messages :
  (forall message id, message ∈ messages -> id ∈ message_ids message -> co_side <$> om1 !! id = co_side <$> om2 !! id) ->
  fills_of om1 messages = fills_of om2 messages.
Proof.
  induction messages as [|msg messages IH]; intros H; [done|]. unfold fills_of in *. cbn.
  rewrite (fill_of_sides om1 om2 msg) by (intros id; apply H; left).
  rewrite IH; [done|]. intros message id Hm. apply H. by right.
Qed.
Lemma side_of_fixed om1 om2 id : fixed <$> om1 !! id = fixed <$> om2 !! id -> co_side <$> om1 !! id = co_side <$> om2 !! id.
Proof.
  intros H. destruct (om1 !! id) as [o1|], (om2 !! id) as [o2|]; try done. cbn in *. injection H as _ E _. by rewrite E.
Qed.
Lemma fills_of_reacts om messages messages' : fills_of (foldl react om messages) messages' = fills_of om messages'.
Proof. apply fills_of_sides. intros message id _ _. apply side_of_fixed, reacts_fixed. Qed.

Lemma handle_fills oms message : oms_account_id oms = a ->
  fills_in (Oms.handle_message oms message).2 = option_list (fill_of (oms_orders oms) message).
Proof.
  intros Ha. destruct message as [ev|ev|ev|ev|ev|ev|ev|ev]; cbn [Oms.handle_message fill_of]; try done.
  - unfold on_accepted. by destruct (_ !! _).
  - unfold on_rejected. by destruct (_ !! _).
  - unfold on_cancelled. by destruct (_ !! _).
  - unfold on_replaced. destruct (oms_orders oms !! _) as [o|]; cbn; by destruct (_ !! _).
  - unfold on_trade_report. rewrite Ha. by destruct (_ !! _).
Qed.

(** ** What an event settles for the account *)
Definition leg_fill (ev : TradeExecuted) (leg : TradeCounterparty) (side : Side) : list Fill :=
  if decide (tcp_account_id leg = a)
  then [{| fi_account_id := a; fi_client_order_id := tcp_client_order_id leg; fi_instrument_id := te_instrument_id ev;
           fi_side := side; fi_price := te_price ev; fi_quantity := te_quantity ev |}]
  else [].
Definition event_fills (ev : ExchangeEvent) : list Fill :=
  match ev with
  | EvTradeExecuted ev => leg_fill ev (te_buyer ev) Buy ++ leg_fill ev (te_seller ev) Sell
  | _ => []
  end.
Definition aggressed (s : Side) (ev : ExchangeEvent) : Prop :=
  match ev with EvTradeExecuted t => te_aggressor_side t = s | _ => True end.

Lemma leg_fills_of om ev leg side : (tcp_account_id leg = a -> co_side <$> om !! tcp_client_order_id leg = Some side) ->
  fills_of om (filter (fun r => r.1.1 = a) [trade_report ev leg]).*2 = leg_fill ev leg side.
Proof.
  intros H. unfold leg_fill. destruct (decide (tcp_account_id leg = a)) as [Ha|Ha].
  - rewrite filter_cons_True by done. unfold fills_of. cbn. by rewrite (H Ha).
  - by rewrite filter_cons_False.
Qed.
(** A held order's side is the order's. *)
Lemma held_side om m leg side i q : mirror a om m -> leg_fits m leg side i q -> is_Some (m !! leg_key leg) ->
  tcp_account_id leg = a -> co_side <$> om !! tcp_client_order_id leg = Some side.
Proof.
  intros Hm Hf [h Hh] Ha. destruct (Hf h Hh) as (Hs & _). unfold leg_key in Hh. rewrite Ha in Hh.
  destruct (mirror_held a om m _ h Hm Hh) as (o & Ho & _ & Eh). rewrite Ho. cbn. f_equal. by rewrite <- Hs, <- Eh.
Qed.
Lemma trade_fills om m ev k : mirror a om m -> event_fits m (EvTradeExecuted ev) -> is_fill k (EvTradeExecuted ev) ->
  is_Some (m !! k) \/ (k.1 = a -> co_side <$> om !! k.2 = Some (te_aggressor_side ev)) ->
  fills_of om (reports_to a [EvTradeExecuted ev]) = event_fills (EvTradeExecuted ev).
Proof.
  intros Hm (Hb & Hs & _ & Hr) Hk Hown. cbn in Hk.
  assert (Hagg : tcp_account_id (aggressor_leg ev) = a -> is_Some (m !! leg_key (aggressor_leg ev)) \/
            co_side <$> om !! tcp_client_order_id (aggressor_leg ev) = Some (te_aggressor_side ev)).
  { rewrite <- Hk in Hown. intros Ha. destruct Hown as [Hown|Hown]; [by left|right]. by apply Hown. }
  rewrite reports_one. cbn [to_execution_reports event_fills].
  change [trade_report ev (te_buyer ev); trade_report ev (te_seller ev)]
    with ([trade_report ev (te_buyer ev)] ++ [trade_report ev (te_seller ev)]).
  rewrite filter_app, fmap_app, fills_of_app. unfold aggressor_leg, resting_leg in *.
  f_equal; apply leg_fills_of; intros Ha; destruct (te_aggressor_side ev); try (by eapply held_side; eauto);
    (destruct (Hagg Ha) as [Hh|Hh]; [by eapply held_side|done]).
Qed.

Lemma no_trade_fills om ev : (forall t, ev <> EvTradeExecuted t) -> fills_of om (reports_to a [ev]) = event_fills ev.
Proof.
  intros H. rewrite reports_one. destruct ev as [ev|ev|ev|ev|ev|ev|ev|ev]; cbn [to_execution_reports event_fills]; try done;
    try (by destruct (H ev)); rewrite filter_cons; by case_decide.
Qed.
Lemma fills_settle k s evs : forall om m, mirror a om m -> stream_fits m evs -> Forall (is_fill k) evs ->
  own_held k m evs \/ (never_rests a om k /\ Forall (aggressed s) evs /\ (k.1 = a -> co_side <$> om !! k.2 = Some s)) ->
  fills_of om (reports_to a evs) = mjoin (event_fills <$> evs).
Proof.
  induction evs as [|ev evs IH]; intros om m Hm Hf Hk Hown; [done|]. destruct Hf as [Hf1 Hf2].
  apply Forall_cons in Hk as [Hk1 Hk2]. rewrite reports_cons, fills_of_app. cbn [fmap list_fmap].
  change (mjoin (event_fills ev :: (event_fills <$> evs))) with (event_fills ev ++ mjoin (event_fills <$> evs)).
  assert (Hev : match ev with EvTradeExecuted _ => is_Some (m !! k) | _ => True end \/ never_rests a om k).
  { destruct Hown as [[Ho _]|(Hn & _)]; [by left|by right]. }
  f_equal.
  - destruct ev as [ev|ev|ev|ev|ev|ev|ev|ev]; try by apply no_trade_fills.
    apply (trade_fills om m _ k); [done|done|done|]. destruct Hown as [[Ho _]|(_ & [<- _]%Forall_cons & Hs)]; [by left|by right].
  - rewrite <- (fills_of_reacts om (reports_to a [ev])). apply (IH _ (holds_apply m ev)); [|done|done|].
    + apply event_mirror; [done|done|]. by eapply fill_heard.
    + destruct Hown as [[_ Ho]|(Hn & [_ Hs]%Forall_cons & Hk')]; [by left|right]. split; [by apply never_rests_reacts|]. split; [done|].
      intros Ha. rewrite <- (Hk' Ha). apply side_of_fixed, reacts_fixed.
Qed.

(** ** The events of a command *)
Definition sided (c : ExchangeCommand) (evs : list ExchangeEvent) : Prop :=
  match c with CmdNewOrder c => Forall (aggressed (noc_side c)) evs | _ => True end.
Lemma answered_fills om m c evs : mirror a om m -> answered m c evs -> (command_account c = a -> requested om c) -> sided c evs ->
  fills_of om (reports_to a evs) = mjoin (event_fills <$> evs).
Proof.
  intros Hm [Hfit [(ev & -> & Href)|(ev & rest & -> & Hc & Hrest & Hown)]] Hreq Hsided.
  - rewrite no_trade_fills by (by destruct ev). cbn. by rewrite app_nil_r.
  - destruct Hfit as [Hf1 Hf2]. rewrite reports_cons, fills_of_app. cbn [fmap list_fmap].
    change (mjoin (event_fills ev :: (event_fills <$> rest))) with (event_fills ev ++ mjoin (event_fills <$> rest)).
    f_equal; [apply no_trade_fills; by destruct c, ev|].
    assert (Hm' : mirror a (foldl react om (reports_to a [ev])) (holds_apply m ev)).
    { apply event_mirror; [done|done|]. by eapply carries_out_heard. }
    rewrite <- (fills_of_reacts om (reports_to a [ev])).
    set (s := match c with CmdNewOrder c => noc_side c | _ => Buy end).
    apply (fills_settle (command_account c, result_id c) s _ _ (holds_apply m ev)); [done|done|done|].
    assert (Hdec : may_rest c \/ ~ may_rest c).
    { destruct c as [c| |]; cbn; [|by left|by left]. destruct (noc_time_in_force c); [by left|by right|by right]. }
    destruct Hdec as [Hmay|Hmay]; [left; by apply Hown|right].
    destruct c as [c| |]; cbn in *; try (by destruct Hmay). apply Forall_cons in Hsided as [_ Hsided]. split; [|split; [done|]].
    + apply never_rests_reacts. intros Ha o Ho. destruct (Hreq Ha) as (o' & Ho' & _ & _ & _ & Ht). cbn in *. congruence.
    + cbn. intros Ha. destruct (Hreq Ha) as (o' & Ho' & _ & Es & _).
      rewrite (side_of_fixed _ om) by apply reacts_fixed. rewrite Ho'. cbn. by rewrite Es.
Qed.
End Fills.

(** ** The aggressor trades on its own side *)
Lemma fill_events_sided x cseq fills : forall rem seq, Forall (aggressed (ero_side x)) (fill_events x cseq rem fills seq).
Proof.
  induction fills as [|[r t] fills IH]; intros rem seq; [constructor|]. cbn [fill_events].
  constructor; [done|constructor; [by destruct (_ =? 0)|apply IH]].
Qed.
Lemma meet_sided st x cseq : Forall (aggressed (ero_side x)) (spec_match_then_rest st x cseq).2.
Proof.
  unfold spec_match_then_rest, spec_match. destruct (spec_fill _ _ _ _) as [[fills rem] l].
  unfold spec_rest. destruct (_ || _); cbn; rewrite ?app_nil_r; [apply fill_events_sided|].
  apply Forall_app. split; [apply fill_events_sided|by constructor].
Qed.
Lemma new_order_sided st cmd : Forall (aggressed (noc_side cmd)) (spec_new_order st cmd).2.
Proof.
  unfold spec_new_order. cbn zeta. repeat (case_match; [by repeat constructor|]).
  set (x := {| ero_side := _ |}). pose proof (meet_sided (sp_bump_seq (sp_bump_prio (sp_bump_xid st))) x (noc_command_sequence cmd)) as Hx.
  destruct (spec_match_then_rest _ _ _) as [st1 evs]. by constructor.
Qed.

(** ** A gated command's events and its ledger *)
Section Gate.
Context (e : MatchingEngine MatchingBook) (lg : Ledger) (st : Spec) (sl : SpecLedger) (cash units : Z)
  (V : venue_wf e lg st sl cash units).

Lemma settled_events c e' lg' evs : command_ok st c -> process_settled e lg c = Some (e', lg', evs) ->
  evs = (spec_process st c).2 /\ lg' = apply_all lg evs.
Proof using V.
  intros Hc. destruct V as [W R _ _ _ _ _ _ _]. destruct (process_simulates e st c W R Hc) as (e1 & Hp & _).
  unfold process_settled. rewrite Hp. by intros [= _ <- <-].
Qed.
Lemma gated_sided limits c e' lg' evs : command_ok st c -> gated_process limits e lg c = Some (e', lg', evs) ->
  sided c evs /\ lg' = apply_all lg evs.
Proof using V.
  intros Hc Hg. assert (Hset : process_settled e lg c = Some (e', lg', evs) -> sided c evs /\ lg' = apply_all lg evs).
  { intros Hs. destruct (settled_events c e' lg' evs Hc Hs) as [Hevs Hl]. split; [|exact Hl]. subst evs.
    destruct c as [cmd| |]; [apply new_order_sided|done|done]. }
  destruct c as [cmd|cmd|cmd]; cbn [gated_process] in Hg; [| |].
  - do 2 (destruct (negb _) in Hg; [injection Hg as _ <- <-; split; [by repeat constructor|done]|]). by apply Hset.
  - by apply Hset.
  - do 2 (destruct (negb _) in Hg; [injection Hg as _ <- <-; split; [done|done]|]). by apply Hset.
Qed.
End Gate.

(** ** The tracker follows the ledger *)
Section Follow.
Context (a : AccountId).

Definition follows (tracker : PositionTracker.t) (sl : SpecLedger) : Prop :=
  PositionTracker.cash tracker a = s64 (amount (sl_cash sl) a) /\
  forall i, PositionTracker.position tracker a i = u64 (amount (sl_units sl) (a, i)).

Lemma leg_follows tracker sl ev leg side : follows tracker sl ->
  follows (foldl PositionTracker.apply tracker (leg_fill a ev leg side))
    (sl_leg sl leg side (te_instrument_id ev) (te_price ev) (te_quantity ev)).
Proof.
  intros [Hc Hp]. unfold leg_fill. case_decide as Ha; cbn [foldl].
  - split.
    + rewrite tracker_cash_apply, decide_True, Hc by done. cbn [sl_cash sl_leg]. rewrite amount_add_at, decide_True by done.
      rewrite s64_sub_idemp_l. f_equal. unfold signed_quantity, side_sign. destruct side; cbn; lia.
    + intros i. rewrite tracker_position_apply, Hp. cbn [sl_units sl_leg]. rewrite amount_add_at.
      unfold of_account, of_instrument. cbn [fi_account_id fi_instrument_id]. destruct (decide (te_instrument_id ev = i)) as [Hi|Hi].
      * rewrite !decide_True by (by rewrite ?Ha, ?Hi). rewrite u64_add_idemp_l. f_equal. unfold signed_quantity, side_sign. destruct side; cbn; lia.
      * rewrite !decide_False by naive_solver congruence. f_equal. lia.
  - split; [|intros i]; cbn [sl_cash sl_units sl_leg]; rewrite amount_add_at, decide_False by congruence; rewrite Z.add_0_r; [done|apply Hp].
Qed.
Lemma event_follows tracker sl ev : follows tracker sl ->
  follows (foldl PositionTracker.apply tracker (event_fills a ev)) (sl_apply sl ev).
Proof.
  intros H. destruct ev as [ev|ev|ev|ev|ev|ev|ev|ev]; try exact H. cbn [event_fills sl_apply].
  rewrite foldl_app. by apply leg_follows, leg_follows.
Qed.
Lemma events_follow evs : forall tracker sl, follows tracker sl ->
  follows (foldl PositionTracker.apply tracker (mjoin (event_fills a <$> evs))) (sl_run sl evs).
Proof.
  induction evs as [|ev evs IH]; intros tracker sl H; [done|]. cbn [fmap list_fmap].
  change (mjoin (event_fills a ev :: (event_fills a <$> evs))) with (event_fills a ev ++ mjoin (event_fills a <$> evs)).
  rewrite foldl_app. by apply IH, event_follows.
Qed.
End Follow.
