(* ===== verification/TraderDesk.v ===== *)
(** * A risk-gated trader at its exchange

    [TraderRiskGatedOms] with the venue of Venue.v on the other end, the
    requests on their way up and the reports on their way down.  Seeding
    funds both sides, as the applications do.  Forgetting the gate gives a
    run of OmsDesk.v's desk ([trader_desk]); the tracker, once the reports on
    their way are handled, is the ledger's account ([trader_follows]). *)
From S2P Require Import Prelude Types Pipeline TickLadder SideIndex PriceQueues MatchingBook BookSpec MatchingEngine EngineSpec EngineProcess EngineRefinement EngineFacts MapSums Ledger LedgerSpec LedgerSim LedgerSolvent LedgerMatch Risk Venue OrderEntryCodec GatewayReports Oms OmsMirror OmsDesk Positions TraderRisk FillReports.

Implicit Types (om : gmap ClientOrderId ClientOrder) (m : gmap HoldKey Hold).

(** Whose action it is. *)
Definition acts_for (b : Action) : AccountId :=
  match b with SeedCash acc _ => acc | SeedPosition acc _ _ => acc | Submit c => command_account c end.

Section Trader.
Context {X : Type} (extra : option (X -> PositionTracker.t -> Fill -> X)).

Definition gate_request (g : TraderRiskGatedOms X) (sent : bool) (r : Request) : TraderRiskGatedOms X * list OmsOutput :=
  match r with
  | RqSubmit i s p q ty tif => (TraderRisk.submit_new_order extra g sent i s p q ty tif).1
  | RqCancel id => (TraderRisk.cancel_order extra g sent id).1
  | RqReplace id p q => (TraderRisk.replace_order extra g sent id p q).1
  end.

Record Trader := {
  tr_gate : TraderRiskGatedOms X;
  tr_up : list OrderEntry.Message;
  tr_engine : MatchingEngine MatchingBook;
  tr_ledger : Ledger;
  tr_down : list OrderEntry.Message;
}.
Definition desk_of (t : Trader) : Desk :=
  {| dk_oms := tg_oms (tr_gate t); dk_up := tr_up t; dk_engine := tr_engine t; dk_ledger := tr_ledger t; dk_down := tr_down t |}.

Inductive trader_reach (universe : list InstrumentId) (expected : Z) (limits : RiskLimits) (own : TraderRiskLimits)
    (observer : X) (a : AccountId) : Trader -> Z -> Z -> Prop :=
| tr_new : trader_reach universe expected limits own observer a
    {| tr_gate := TraderRiskGatedOms_new a own observer; tr_up := []; tr_engine := MatchingEngine_new universe expected;
       tr_ledger := Ledger_new; tr_down := [] |} 0 0
| tr_seed_cash g up e lg down cash units amount e' lg' evs :
    trader_reach universe expected limits own observer a
      {| tr_gate := g; tr_up := up; tr_engine := e; tr_ledger := lg; tr_down := down |} cash units ->
    act_ok e cash units (SeedCash a amount) -> act limits e lg (SeedCash a amount) = Some (e', lg', evs) ->
    trader_reach universe expected limits own observer a
      {| tr_gate := TraderRisk.deposit_cash g amount; tr_up := up; tr_engine := e'; tr_ledger := lg'; tr_down := down |}
      (cash + amount) units
| tr_seed_position g up e lg down cash units i amount e' lg' evs :
    trader_reach universe expected limits own observer a
      {| tr_gate := g; tr_up := up; tr_engine := e; tr_ledger := lg; tr_down := down |} cash units ->
    act_ok e cash units (SeedPosition a i amount) -> act limits e lg (SeedPosition a i amount) = Some (e', lg', evs) ->
    trader_reach universe expected limits own observer a
      {| tr_gate := TraderRisk.deposit_position g i amount; tr_up := up; tr_engine := e'; tr_ledger := lg'; tr_down := down |}
      cash (units + amount)
| tr_request g up e lg down cash units sent r g' out :
    trader_reach universe expected limits own observer a
      {| tr_gate := g; tr_up := up; tr_engine := e; tr_ledger := lg; tr_down := down |} cash units ->
    oms_next_client_order_id (tg_oms g) < two64 - 1 -> gate_request g sent r = (g', out) ->
    trader_reach universe expected limits own observer a
      {| tr_gate := g'; tr_up := up ++ sent_messages sent out; tr_engine := e; tr_ledger := lg; tr_down := down |} cash units
| tr_exchange g message up e lg down cash units cmd n e' lg' evs :
    trader_reach universe expected limits own observer a
      {| tr_gate := g; tr_up := message :: up; tr_engine := e; tr_ledger := lg; tr_down := down |} cash units ->
    to_command message = Some cmd -> act_ok e cash units (Submit (set_command_sequence n cmd)) ->
    act limits e lg (Submit (set_command_sequence n cmd)) = Some (e', lg', evs) ->
    trader_reach universe expected limits own observer a
      {| tr_gate := g; tr_up := up; tr_engine := e'; tr_ledger := lg'; tr_down := down ++ reports_to a evs |} cash units
| tr_lost g message up e lg down cash units :
    trader_reach universe expected limits own observer a
      {| tr_gate := g; tr_up := message :: up; tr_engine := e; tr_ledger := lg; tr_down := down |} cash units ->
    trader_reach universe expected limits own observer a
      {| tr_gate := g; tr_up := up; tr_engine := e; tr_ledger := lg; tr_down := down |} cash units
| tr_other g up e lg down cash units b e' lg' evs :
    trader_reach universe expected limits own observer a
      {| tr_gate := g; tr_up := up; tr_engine := e; tr_ledger := lg; tr_down := down |} cash units ->
    act_ok e cash units b -> acts_for b <> a -> act limits e lg b = Some (e', lg', evs) ->
    trader_reach universe expected limits own observer a
      {| tr_gate := g; tr_up := up; tr_engine := e'; tr_ledger := lg'; tr_down := down ++ reports_to a evs |}
      (cash + cash_in b) (units + units_in b)
| tr_handle g up e lg message down cash units :
    trader_reach universe expected limits own observer a
      {| tr_gate := g; tr_up := up; tr_engine := e; tr_ledger := lg; tr_down := message :: down |} cash units ->
    trader_reach universe expected limits own observer a
      {| tr_gate := (TraderRisk.handle_message extra g message).1; tr_up := up; tr_engine := e; tr_ledger := lg; tr_down := down |}
      cash units.

(** ** The gate's operations, projected *)
Lemma gate_oms g sent r : let out := gate_request g sent r in
  (out = (g, []) \/ exists oms', request (tg_oms g) sent r = (oms', out.2) /\ tg_oms out.1 = oms') /\
  tg_account_id out.1 = tg_account_id g /\ tg_risk out.1 = tg_risk g /\
  tg_positions out.1 = foldl PositionTracker.apply (tg_positions g) (fills_in out.2).
Proof using.
  cbn zeta. destruct r as [i s p q ty tif|id|id p q]; cbn [gate_request].
  - unfold TraderRisk.submit_new_order. destruct (negb _); [split; [by left|done]|].
    destruct (Oms.submit_new_order _ _ _ _ _ _ _ _) as [[oms out] id] eqn:E. cbn [fst snd].
    destruct (sink_all extra out (tg_with_oms g oms)) as (-> & -> & -> & ->).
    split; [right; exists oms; cbn [request]; by rewrite E|done].
  - unfold TraderRisk.cancel_order. destruct (Oms.cancel_order _ _ _) as [[oms out] ok] eqn:E. cbn [fst snd].
    destruct (sink_all extra out (tg_with_oms g oms)) as (-> & -> & -> & ->).
    split; [right; exists oms; cbn [request]; by rewrite E|done].
  - unfold TraderRisk.replace_order. destruct (Oms.replace_order _ _ _ _ _) as [[oms out] rid] eqn:E. cbn [fst snd].
    destruct (sink_all extra out (tg_with_oms g oms)) as (-> & -> & -> & ->).
    split; [right; exists oms; cbn [request]; by rewrite E|done].
Qed.
Lemma gate_handle g message : let out := TraderRisk.handle_message extra g message in
  tg_oms out.1 = (Oms.handle_message (tg_oms g) message).1 /\ tg_account_id out.1 = tg_account_id g /\ tg_risk out.1 = tg_risk g /\
  tg_positions out.1 = foldl PositionTracker.apply (tg_positions g) (fills_in (Oms.handle_message (tg_oms g) message).2).
Proof using.
  cbn zeta. unfold TraderRisk.handle_message. destruct (Oms.handle_message _ _) as [oms out] eqn:E. cbn.
  destruct (sink_all extra out (tg_with_oms g oms)) as (-> & -> & -> & ->). done.
Qed.

(** A trader's run is a desk's run. *)
Lemma trader_desk universe expected limits own observer a t cash units :
  trader_reach universe expected limits own observer a t cash units -> desk_reach universe expected limits a (desk_of t) cash units.
Proof using.
  induction 1 as [|g up e lg down cash units amount e' lg' evs _ IH Hok Hact|g up e lg down cash units i amount e' lg' evs _ IH Hok Hact
    |g up e lg down cash units sent r g' out _ IH Hlt Hr|g message up e lg down cash units cmd n e' lg' evs _ IH Hc Hok Hact
    |g message up e lg down cash units _ IH|g up e lg down cash units b e' lg' evs _ IH Hok Hb Hact
    |g up e lg message down cash units _ IH]; unfold desk_of in *; cbn [tr_gate tr_up tr_engine tr_ledger tr_down] in *.
  - constructor.
  - pose proof (dr_other _ _ _ _ _ _ _ _ _ _ _ _ _ _ _ IH Hok ltac:(done) Hact) as H. injection Hact as _ _ <-.
    cbn in H. by rewrite app_nil_r, Z.add_0_r in H.
  - pose proof (dr_other _ _ _ _ _ _ _ _ _ _ _ _ _ _ _ IH Hok ltac:(done) Hact) as H. injection Hact as _ _ <-.
    cbn in H. by rewrite app_nil_r, Z.add_0_r in H.
  - destruct (gate_oms g sent r) as [Ho _]. rewrite Hr in Ho. cbn [fst snd] in Ho. destruct Ho as [[= -> ->]|(oms' & Hreq & ->)].
    + cbn. replace (up ++ sent_messages sent []) with up by (destruct sent; by rewrite app_nil_r). exact IH.
    + by eapply dr_request.
  - by eapply dr_exchange.
  - by eapply dr_lost.
  - eapply dr_other; [exact IH|exact Hok| |exact Hact]. by intros c ->.
  - destruct (gate_handle g message) as [-> _]. by apply dr_handle.
Qed.
End Trader.
Arguments Trader X : clear implicits.

(** ** The tracker against the ledger *)
Definition agrees (a : AccountId) (tracker : PositionTracker.t) (lg : Ledger) : Prop :=
  PositionTracker.cash tracker a = cash_total (balances lg a) /\
  forall i, PositionTracker.position tracker a i = units_total lg a i.
Lemma agrees_follows a tracker lg sl : tracks lg sl -> agrees a tracker lg <-> follows a tracker sl.
Proof.
  intros [[F1 _ F3 _ _] _ _]. unfold agrees, follows. rewrite F1. split; intros [H1 H2]; (split; [done|]); intros i; by rewrite H2, F3.
Qed.

Lemma deposit_cash_run fs a d : forall tracker, let run tr := foldl PositionTracker.apply tr fs in
  PositionTracker.cash (run (PositionTracker.deposit_cash tracker a d)) a = s64 (PositionTracker.cash (run tracker) a + d) /\
  forall i, PositionTracker.position (run (PositionTracker.deposit_cash tracker a d)) a i = PositionTracker.position (run tracker) a i.
Proof.
  intros tracker. cbn zeta. induction fs as [|f fs [IH1 IH2]] using rev_ind.
  - cbn. unfold PositionTracker.cash, PositionTracker.position, PositionTracker.deposit_cash, PositionTracker.on_account.
    rewrite lookup_insert_eq. split; [|intros i]; by destruct (tracker !! a).
  - rewrite !foldl_app. cbn [foldl]. split; [|intros i].
    + rewrite !tracker_cash_apply, IH1. case_decide; [|done]. rewrite s64_sub_idemp_l, s64_add_idemp_l. f_equal. lia.
    + by rewrite !tracker_position_apply, IH2.
Qed.
Lemma deposit_position_run fs a j d : forall tracker, let run tr := foldl PositionTracker.apply tr fs in
  PositionTracker.cash (run (PositionTracker.deposit_position tracker a j d)) a = PositionTracker.cash (run tracker) a /\
  forall i, PositionTracker.position (run (PositionTracker.deposit_position tracker a j d)) a i =
    if decide (i = j) then u64 (PositionTracker.position (run tracker) a i + d) else PositionTracker.position (run tracker) a i.
Proof.
  intros tracker. cbn zeta. induction fs as [|f fs [IH1 IH2]] using rev_ind.
  - cbn. unfold PositionTracker.cash, PositionTracker.position, PositionTracker.deposit_position, PositionTracker.on_account.
    rewrite lookup_insert_eq. split; [by destruct (tracker !! a)|intros i].
    case_decide as Hi; [subst i; cbn; rewrite lookup_insert_eq; destruct (tracker !! a) as [b|]; [cbn; by destruct (ap_holdings b !! j)|by cbn; rewrite lookup_empty]|].
    cbn. rewrite lookup_insert_ne by done. destruct (tracker !! a); [done|by cbn; rewrite lookup_empty].
  - rewrite !foldl_app. cbn [foldl]. split; [|intros i].
    + by rewrite !tracker_cash_apply, IH1.
    + rewrite !tracker_position_apply, IH2. repeat case_decide; try done. rewrite !u64_add_idemp_l. f_equal. lia.
Qed.

(** ** Requests leave the sides of known orders alone *)
Definition same_sides (oms oms' : OrderManagementSystem) : Prop :=
  forall id, id < oms_next_client_order_id oms -> co_side <$> oms_orders oms' !! id = co_side <$> oms_orders oms !! id.
Lemma pending_sides oms id o p z : oms_orders oms !! id = Some o ->
  co_side <$> <[id := with_pending o p]> (oms_orders oms) !! z = co_side <$> oms_orders oms !! z.
Proof.
  intros Ho. destruct (decide (z = id)) as [->|Hne]; [by rewrite lookup_insert_eq, Ho|by rewrite lookup_insert_ne].
Qed.
Lemma request_sides oms sent r : (forall id, is_Some (oms_orders oms !! id) -> id < oms_next_client_order_id oms) ->
  same_sides oms (request oms sent r).1.
Proof.
  intros Hids z Hz. set (n := oms_next_client_order_id oms) in *.
  assert (Hn : oms_orders oms !! n = None).
  { destruct (oms_orders oms !! n) as [o|] eqn:E; [|done]. pose proof (Hids n (mk_is_Some _ _ E)). lia. }
  destruct r as [i s p q ty tif|id|id p q]; cbn [request].
  - unfold Oms.submit_new_order, take_id, emplace, mark_send_failed. cbn. fold n. rewrite Hn. destruct sent; cbn.
    + by rewrite lookup_insert_ne by lia.
    + rewrite lookup_insert_eq. cbn. by rewrite !lookup_insert_ne by lia.
  - unfold Oms.cancel_order. destruct (workable oms id) as [o|] eqn:Hw; [|done]. destruct (workable_spec _ _ _ Hw) as [Ho _].
    destruct sent; cbn; [by apply pending_sides|]. unfold clear_pending_action. cbn. rewrite lookup_insert_eq. cbn.
    rewrite insert_insert_eq. exact (pending_sides oms id o NoAction z Ho).
  - unfold Oms.replace_order. destruct (workable oms id) as [o|] eqn:Hw; [|done]. destruct (workable_spec _ _ _ Hw) as [Ho _].
    pose proof (Hids id (mk_is_Some _ _ Ho)). unfold take_id, emplace. cbn. rewrite lookup_insert_ne by lia. fold n. rewrite Hn.
    destruct sent; cbn.
    + rewrite lookup_insert_ne by lia. by apply pending_sides.
    + unfold clear_pending_action. cbn. rewrite delete_insert_eq, delete_id by (by rewrite lookup_insert_ne by lia).
      rewrite lookup_insert_eq. cbn. rewrite insert_insert_eq. exact (pending_sides oms id o NoAction z Ho).
Qed.
Lemma request_no_fills oms sent r : fills_in (request oms sent r).2 = [].
Proof.
  destruct r as [i s p q ty tif|id|id p q]; cbn [request].
  - unfold Oms.submit_new_order, take_id, mark_send_failed. destruct sent; [done|]. cbn. by destruct (_ !! _).
  - unfold Oms.cancel_order. destruct (workable oms id); [|done]. by destruct sent.
  - unfold Oms.replace_order, take_id. destruct (workable oms id); [|done]. by destruct sent.
Qed.

(** ** Every reached trader *)
Section Reached.
Context {X : Type} (extra : option (X -> PositionTracker.t -> Fill -> X)).

(** The tracker once every report on its way has been handled. *)
Definition settled_tracker (t : Trader X) : PositionTracker.t :=
  foldl PositionTracker.apply (tg_positions (tr_gate t))
    (fills_of (oms_account_id (tg_oms (tr_gate t))) (oms_orders (tg_oms (tr_gate t))) (tr_down t)).

Lemma request_fills g sent r down up m a : desk_ok a (tg_oms g) up m down ->
  let g' := (gate_request extra g sent r).1 in
  fills_of a (oms_orders (tg_oms g')) down = fills_of a (oms_orders (tg_oms g)) down /\ tg_positions g' = tg_positions g.
Proof using.
  intros D. cbn zeta. destruct (gate_oms extra g sent r) as [Ho (_ & _ & Hp)]. destruct Ho as [Ho|(oms' & Hreq & Ho)].
  - by rewrite Ho.
  - rewrite Ho, Hp. pose proof (request_no_fills (tg_oms g) sent r) as Hno. rewrite Hreq in Hno. cbn [snd] in Hno. rewrite Hno. split; [|done].
    pose proof (request_sides (tg_oms g) sent r (do_ids _ _ _ _ _ D)) as Hs. rewrite Hreq in Hs.
    apply fills_of_sides. intros message id Hm Hid. apply Hs. destruct (Z.lt_ge_cases id (oms_next_client_order_id (tg_oms g))) as [?|Hge]; [done|].
    pose proof (do_quiet _ _ _ _ _ D id Hge) as Hq. rewrite Forall_forall in Hq. by destruct (Hq message Hm).
Qed.
(** One command's settlement, seen from the tracker. *)
Lemma exchange_agrees limits universe expected e lg cash units c e' lg' evs a om down m positions :
  Forall (fun id => 0 <= id) universe -> venue_history universe expected limits e lg cash units ->
  act_ok e cash units (Submit c) -> act limits e lg (Submit c) = Some (e', lg', evs) ->
  lg_holds lg = m -> mirror a (foldl react om down) m -> (command_account c = a -> requested (foldl react om down) c) ->
  agrees a (foldl PositionTracker.apply positions (fills_of a om down)) lg ->
  agrees a (foldl PositionTracker.apply positions (fills_of a om (down ++ reports_to a evs))) lg'.
Proof using.
  intros Hu Hh Hok Hact Hm Hmir Hreq Hag. destruct (history_venue _ _ _ _ _ _ _ Hu Hh) as (st & sl & V).
  destruct Hok as (_ & _ & Hp & st' & R' & Hcmd). rewrite (refines_unique e st' st R' (vw_refines _ _ _ _ _ _ V)) in Hcmd.
  destruct (gated_answered e lg st sl cash units V limits _ _ _ _ Hcmd Hp Hact) as [Hans _].
  destruct (gated_sided e lg st sl cash units V limits _ _ _ _ Hcmd Hact) as [Hsided ->].
  pose proof (vw_tracks _ _ _ _ _ _ V) as T. rewrite (tk_holds _ _ T) in Hm. subst m.
  rewrite fills_of_app, foldl_app, <- (fills_of_reacts a om down), <- (fills_of_reacts a om down).
  rewrite (answered_fills a _ _ c evs Hmir Hans Hreq Hsided), fills_of_reacts.
  apply (agrees_follows _ _ _ _ (stream_tracks _ _ _ T (proj1 Hans))), events_follow.
  by apply (agrees_follows _ _ _ _ T).
Qed.

(** Seeding, on both sides and elsewhere. *)
Lemma seed_cash_agrees a fs positions lg amount : agrees a (foldl PositionTracker.apply positions fs) lg ->
  agrees a (foldl PositionTracker.apply (PositionTracker.deposit_cash positions a amount) fs) (Ledger.deposit_cash lg a amount).
Proof using.
  intros [I1 I2]. destruct (deposit_cash_run fs a amount positions) as [E1 E2].
  split; [|intros j]; rewrite ?E1, ?E2; unfold Ledger.deposit_cash, units_total; rewrite balances_with, decide_True by done;
    cbn; [by rewrite I1|apply I2].
Qed.
Lemma seed_position_agrees a fs positions lg i amount : agrees a (foldl PositionTracker.apply positions fs) lg ->
  agrees a (foldl PositionTracker.apply (PositionTracker.deposit_position positions a i amount) fs)
    (Ledger.deposit_position lg a i amount).
Proof using.
  intros [I1 I2]. destruct (deposit_position_run fs a i amount positions) as [E1 E2].
  split; [|intros j]; unfold Ledger.deposit_position, units_total; rewrite balances_with, decide_True by done; rewrite ?E1, ?E2; [exact I1|].
  cbn. unfold slot_add. rewrite I2. unfold units_total. case_decide as E; [subst j; by rewrite lookup_insert_eq|by rewrite lookup_insert_ne].
Qed.
Lemma other_seed_agrees a a' tracker lg f : agrees a tracker lg -> a <> a' -> agrees a tracker (with_account lg a' f).
Proof using. intros [I1 I2] Hne. unfold agrees, units_total in *. rewrite balances_with, decide_False by done. by split. Qed.
Lemma handle_agrees a g message down lg : oms_account_id (tg_oms g) = a ->
  agrees a (foldl PositionTracker.apply (tg_positions g) (fills_of a (oms_orders (tg_oms g)) (message :: down))) lg ->
  let g' := (TraderRisk.handle_message extra g message).1 in
  agrees a (foldl PositionTracker.apply (tg_positions g') (fills_of a (oms_orders (tg_oms g')) down)) lg.
Proof using.
  intros Ha. cbn zeta. destruct (gate_handle extra g message) as (Ho & _ & _ & Hp). rewrite Ho, Hp, (handle_fills a (tg_oms g) message Ha).
  rewrite handle_orders. change (react (oms_orders (tg_oms g)) message) with (foldl react (oms_orders (tg_oms g)) [message]).
  rewrite fills_of_reacts, <- foldl_app. unfold fills_of. cbn [omap list_omap]. by destruct (fill_of _ _ message).
Qed.

Theorem trader_follows universe expected limits own observer a t cash units : Forall (fun id => 0 <= id) universe ->
  trader_reach extra universe expected limits own observer a t cash units ->
  (tg_account_id (tr_gate t) = a /\ tg_risk (tr_gate t) = own) /\ agrees a (settled_tracker t) (tr_ledger t).
Proof using.
  intros Hu H. assert (Hgen : forall t cash units, trader_reach extra universe expected limits own observer a t cash units ->
    venue_history universe expected limits (tr_engine t) (tr_ledger t) cash units /\
    desk_ok a (tg_oms (tr_gate t)) (tr_up t) (lg_holds (tr_ledger t)) (tr_down t)).
  { intros t' c' u' Ht. exact (desk_mirror _ _ _ _ _ _ _ Hu (trader_desk _ _ _ _ _ _ _ _ _ _ Ht)). }
  unfold settled_tracker. assert (Hacc : oms_account_id (tg_oms (tr_gate t)) = a) by apply (do_account _ _ _ _ _ (proj2 (Hgen _ _ _ H))).
  rewrite Hacc. clear Hacc. induction H as [|g up e lg down cash units amount e' lg' evs Hr IH Hok Hact|g up e lg down cash units i amount e' lg' evs Hr IH Hok Hact
    |g up e lg down cash units sent r g' out Hr IH Hlt Hreq|g message up e lg down cash units cmd n e' lg' evs Hr IH Hc Hok Hact
    |g message up e lg down cash units Hr IH|g up e lg down cash units b e' lg' evs Hr IH Hok Hb Hact
    |g up e lg message down cash units Hr IH]; try (destruct (Hgen _ _ _ Hr) as [Hh D]); cbn [tr_gate tr_up tr_engine tr_ledger tr_down] in *.
  - done.
  - destruct IH as [[<- Hrisk] IH]. injection Hact as _ <- _. split; [by split|]. by apply seed_cash_agrees.
  - destruct IH as [[<- Hrisk] IH]. injection Hact as _ <- _. split; [by split|]. by apply seed_position_agrees.
  - destruct (gate_oms extra g sent r) as (_ & Ha & Hk & _). destruct (request_fills g sent r down up _ a D) as [Hf Hp].
    rewrite Hreq in Ha, Hk, Hf, Hp. cbn [fst] in Ha, Hk, Hf, Hp. rewrite Hf, Hp, Ha, Hk. exact IH.
  - destruct IH as [IH1 IH2]. split; [exact IH1|]. destruct (set_sequence_requests n cmd) as (E1 & E2 & E3).
    pose proof (do_up _ _ _ _ _ D) as [Hmsg _]%Forall_cons. destruct (up_requested _ _ _ _ Hmsg Hc) as (R1 & _).
    eapply exchange_agrees; [exact Hu|exact Hh|exact Hok|exact Hact|reflexivity|apply (do_mirror _ _ _ _ _ D)| |exact IH2].
    intros _. by apply requested_sequence.
  - exact IH.
  - destruct IH as [IH1 IH2]. split; [exact IH1|]. destruct b as [acc amount|acc i amount|c]; cbn in Hb.
    + injection Hact as _ <- <-. rewrite app_nil_r. by apply other_seed_agrees.
    + injection Hact as _ <- <-. rewrite app_nil_r. by apply other_seed_agrees.
    + eapply exchange_agrees; [exact Hu|exact Hh|exact Hok|exact Hact|reflexivity|apply (do_mirror _ _ _ _ _ D)|done|exact IH2].
  - destruct IH as [IH1 IH2]. destruct (gate_handle extra g message) as (_ & Ha & Hk & _). rewrite Ha, Hk. split; [exact IH1|].
    by apply handle_agrees; [apply (do_account _ _ _ _ _ D)|].
Qed.
End Reached.
