(* ===== verification/Strategies.v ===== *)
(** * The strategies: include/trader/strategies, src/trader/strategies

    The order policies that run on the reconstructed books: one resting
    quote kept at a price, the two market makers, the momentum and the
    cross-venue strategy, and the runtime that calls them.  A strategy holds
    a reference to its [TraderRiskGatedOms]; here it takes and returns it,
    with the outputs of each request.  [sent] is the transport's answer to a
    send, [direction] the draw of the walk's generator, [net_position] what
    the owner's callback returns. *)
From S2P Require Import Prelude Types MarketDataCodec TraderBook TraderBooks Ledger OrderEntryCodec Oms Positions TraderRisk.

(** ** strategy_runtime.cpp

    Equivalent keys of an unordered_multimap are visited in an order the
    container chooses: [equal_range]. *)
Section Runtime.
Context {S : Type} (equal_range : list (InstrumentId * S) -> InstrumentId -> list S).
Definition subscribe (sinks : list (InstrumentId * S)) (instrument_id : InstrumentId) (sink : S) : list (InstrumentId * S) :=
sinks ++ [(instrument_id, sink)].
Definition event_instrument_id (event : MarketData.Event) : InstrumentId :=
  match event with
  | MarketData.EvAddOrder e => MarketData.ao_instrument_id e
  | MarketData.EvCancelOrder e => MarketData.co_instrument_id e
  | MarketData.EvModifyOrder e => MarketData.mo_instrument_id e
  | MarketData.EvTrade e => MarketData.tr_instrument_id e
  | MarketData.EvClearBook e => MarketData.cb_instrument_id e
  end.
(** The calls [on_event] makes, and the books: [book_for] creates a book. *)
Definition on_event (sinks : list (InstrumentId * S)) (event : MarketData.Event) (books : BookManager)
    : BookManager * list (S * InstrumentId * OrderBook.OrderBook) :=
  let instrument_id := event_instrument_id event in
  let order_book := manager_book_for books instrument_id in
  (store_book books instrument_id order_book, (fun sink => (sink, instrument_id, order_book)) <$> equal_range sinks instrument_id).
End Runtime.

(** ** resting_quote.hpp *)
Definition abs_diff (a b : Price) : Price := if b <? a then s64 (a - b) else s64 (b - a).
Record RestingQuote := {
  rq_instrument_id : InstrumentId;
  rq_side : Side;
  rq_size : Quantity;
  rq_requote_threshold : Price;
  rq_order_id : option ClientOrderId;
}.
Definition RestingQuote_new (instrument_id : InstrumentId) (side : Side) (size : Quantity) (requote_threshold : Price) : RestingQuote :=
  {| rq_instrument_id := instrument_id; rq_side := side; rq_size := size; rq_requote_threshold := requote_threshold;
     rq_order_id := None |}.
Definition rq_with (q : RestingQuote) (id : option ClientOrderId) : RestingQuote :=
  {| rq_instrument_id := rq_instrument_id q; rq_side := rq_side q; rq_size := rq_size q;
     rq_requote_threshold := rq_requote_threshold q; rq_order_id := id |}.

Definition in_flight (o : ClientOrder) : bool :=
  bool_decide (co_state o = PendingNew) || negb (bool_decide (co_pending_action o = NoAction)).

Module Quote.
Section Ops.
Context {X : Type} (extra : option (X -> PositionTracker.t -> Fill -> X)).
(** The part after the [if (order_id_)] block. *)
Definition submit (g : TraderRiskGatedOms X) (q : RestingQuote) (sent : bool) (desired_price : option Price)
    : TraderRiskGatedOms X * list OmsOutput * RestingQuote * bool :=
  match desired_price with
  | None => (g, [], q, false)
  | Some p =>
      let '(g, out, outcome) := TraderRisk.submit_new_order extra g sent (rq_instrument_id q) (rq_side q) p (rq_size q) Limit GTC in
      (g, out, rq_with q (so_client_order_id outcome), bool_decide (is_Some (so_client_order_id outcome)))
  end.
Definition update (g : TraderRiskGatedOms X) (q : RestingQuote) (sent : bool) (desired_price : option Price)
    : TraderRiskGatedOms X * list OmsOutput * RestingQuote * bool :=
  match rq_order_id q with
  | None => submit g q sent desired_price
  | Some order_id =>
      match TraderRisk.order g order_id with
      | None => submit g (rq_with q None) sent desired_price
      | Some order =>
          if is_terminal (co_state order) then submit g (rq_with q None) sent desired_price
          else if in_flight order then (g, [], q, false)
          else
            match desired_price with
            | None => let '(g, out, ok) := TraderRisk.cancel_order extra g sent order_id in (g, out, q, ok)
            | Some p =>
                if (abs_diff (co_price order) p <? rq_requote_threshold q) && (co_remaining_quantity order =? rq_size q)
                then (g, [], q, false)
                else
                  let '(g, out, new_id) := TraderRisk.replace_order extra g sent order_id p (rq_size q) in
                  match new_id with
                  | Some new_id => (g, out, rq_with q (Some new_id), true)
                  | None => (g, out, q, false)
                  end
            end
      end
  end.
Definition withdraw (g : TraderRiskGatedOms X) (q : RestingQuote) (sent : bool)
    : TraderRiskGatedOms X * list OmsOutput * RestingQuote * bool :=
  match rq_order_id q with
  | None => (g, [], q, false)
  | Some order_id =>
      let '(g, out, ok) := TraderRisk.cancel_order extra g sent order_id in (g, out, rq_with q None, ok)
  end.
End Ops.
End Quote.

(** ** market_maker_strategy.cpp *)
Record MarketMakerConfig := {
  mm_instrument_id : InstrumentId;
  mm_quote_size : Quantity;
  mm_half_spread : Price;
  mm_max_position : Quantity;
  mm_requote_threshold : Price;
}.
Record MarketMakerStrategy := {
  mm_config : MarketMakerConfig;
  mm_bid_order_id : option ClientOrderId;
  mm_ask_order_id : option ClientOrderId;
}.
Module MarketMaker.
Section Ops.
Context {X : Type} (extra : option (X -> PositionTracker.t -> Fill -> X)).
Definition new (config : MarketMakerConfig) : MarketMakerStrategy :=
{| mm_config := config; mm_bid_order_id := None; mm_ask_order_id := None |}.
Definition submit (config : MarketMakerConfig) (g : TraderRiskGatedOms X) (side : Side) (sent : bool) (desired_price : option Price)
    : TraderRiskGatedOms X * list OmsOutput * option ClientOrderId :=
  match desired_price with
  | None => (g, [], None)
  | Some p =>
      let '(g, out, outcome) :=
        TraderRisk.submit_new_order extra g sent (mm_instrument_id config) side p (mm_quote_size config) Limit GTC in
      (g, out, so_client_order_id outcome)
  end.
Definition update_side (config : MarketMakerConfig) (g : TraderRiskGatedOms X) (side : Side) (order_id : option ClientOrderId)
    (sent : bool) (desired_price : option Price) : TraderRiskGatedOms X * list OmsOutput * option ClientOrderId :=
  match order_id with
  | None => submit config g side sent desired_price
  | Some id =>
      match TraderRisk.order g id with
      | None => submit config g side sent desired_price
      | Some order =>
          if is_terminal (co_state order) then submit config g side sent desired_price
          else if in_flight order then (g, [], order_id)
          else
            match desired_price with
            | None => let '(g, out, _) := TraderRisk.cancel_order extra g sent id in (g, out, order_id)
            | Some p =>
                if abs_diff (co_price order) p <? mm_requote_threshold config then (g, [], order_id)
                else
                  let '(g, out, new_id) := TraderRisk.replace_order extra g sent id p (mm_quote_size config) in
                  (g, out, match new_id with Some new_id => Some new_id | None => order_id end)
            end
      end
  end.
Definition mid_of (bid ask : OrderBook.PriceLevelView) : Price :=
Z.quot (s64 (OrderBook.plv_price bid + OrderBook.plv_price ask)) 2.
(** An order of ours that still counts when looking for a transient cross. *)
Definition current (g : TraderRiskGatedOms X) (order_id : option ClientOrderId) : option Price :=
  match order_id ≫= TraderRisk.order g with
  | Some o => if is_terminal (co_state o) then None else Some (co_price o)
  | None => None
  end.
Definition on_book_update (mm : MarketMakerStrategy) (g : TraderRiskGatedOms X) (sent_bid sent_ask : bool)
    (instrument_id : InstrumentId) (book : OrderBook.OrderBook) : TraderRiskGatedOms X * list OmsOutput * MarketMakerStrategy :=
  let config := mm_config mm in
  if negb (instrument_id =? mm_instrument_id config) then (g, [], mm)
  else
    match OrderBook.best_bid book, OrderBook.best_ask book with
    | Some best_bid, Some best_ask =>
        let mid := mid_of best_bid best_ask in
        let at_position_cap := mm_max_position config <=? TraderRisk.position g (mm_instrument_id config) in
        let desired_bid := if at_position_cap then None else Some (s64 (mid - mm_half_spread config)) in
        let desired_ask := s64 (mid + mm_half_spread config) in
        let bid_would_cross_current_ask :=
          match desired_bid, current g (mm_ask_order_id mm) with Some b, Some a => a <=? b | _, _ => false end in
        let ask_would_cross_current_bid :=
          match current g (mm_bid_order_id mm) with Some b => desired_ask <=? b | None => false end in
        if bid_would_cross_current_ask && negb ask_would_cross_current_bid then
          let '(g, out, ask) := update_side config g Sell (mm_ask_order_id mm) sent_ask (Some desired_ask) in
          let '(g, out', bid) := update_side config g Buy (mm_bid_order_id mm) sent_bid desired_bid in
          (g, out ++ out', {| mm_config := config; mm_bid_order_id := bid; mm_ask_order_id := ask |})
        else
          let '(g, out, bid) := update_side config g Buy (mm_bid_order_id mm) sent_bid desired_bid in
          let '(g, out', ask) := update_side config g Sell (mm_ask_order_id mm) sent_ask (Some desired_ask) in
          (g, out ++ out', {| mm_config := config; mm_bid_order_id := bid; mm_ask_order_id := ask |})
    | _, _ => (g, [], mm)
    end.
End Ops.
End MarketMaker.

(** ** ladder_market_maker.cpp *)
Record LadderMarketMakerConfig := {
  lm_instrument_id : InstrumentId;
  lm_levels_per_side : nat;
  lm_half_spread : Price;
  lm_level_spacing : Price;
  lm_quote_size : Quantity;
  lm_max_position : Z;
  lm_requote_threshold : Price;
}.
(** reference_price_walk.hpp; the generator's draw is an argument. *)
Record ReferencePriceWalkConfig := { rw_initial_price : Price; rw_step_size : Price; rw_min_price : Price; rw_max_price : Price }.
Record ReferencePriceWalk := { rw_config : ReferencePriceWalkConfig; rw_price : Price; rw_steps_taken : Z }.
Definition ReferencePriceWalk_new (config : ReferencePriceWalkConfig) : ReferencePriceWalk :=
  {| rw_config := config; rw_price := rw_initial_price config; rw_steps_taken := 0 |}.
Definition walk_step (w : ReferencePriceWalk) (direction : Z) : ReferencePriceWalk :=
  let c := rw_config w in
  let price := s64 (rw_price w + s64 (direction * rw_step_size c)) in
  {| rw_config := c; rw_price := Z.min (rw_max_price c) (Z.max (rw_min_price c) price);
     rw_steps_taken := u64 (rw_steps_taken w + 1) |}.

Record LadderMarketMaker := {
  lm_config : LadderMarketMakerConfig;
  lm_walk : ReferencePriceWalk;
  lm_bids : list RestingQuote;
  lm_asks : list RestingQuote;
}.
Module Ladder.
Section Ops.
Context {X : Type} (extra : option (X -> PositionTracker.t -> Fill -> X)).
Definition new (config : LadderMarketMakerConfig) (walk : ReferencePriceWalkConfig) : LadderMarketMaker :=
  let quotes side := replicate (lm_levels_per_side config)
    (RestingQuote_new (lm_instrument_id config) side (lm_quote_size config) (lm_requote_threshold config)) in
  {| lm_config := config; lm_walk := ReferencePriceWalk_new walk; lm_bids := quotes Buy; lm_asks := quotes Sell |}.
Definition bid_price_for (config : LadderMarketMakerConfig) (level : nat) (reference : Price) : Price :=
s64 (s64 (reference - lm_half_spread config) - s64 (Z.of_nat level * lm_level_spacing config)).
Definition ask_price_for (config : LadderMarketMakerConfig) (level : nat) (reference : Price) : Price :=
s64 (s64 (reference + lm_half_spread config) + s64 (Z.of_nat level * lm_level_spacing config)).
(** The two update loops, from level [level] on; [sent] by level. *)
Fixpoint update_quotes (g : TraderRiskGatedOms X) (quotes : list RestingQuote) (sent : nat -> bool) (level : nat)
    (desired : nat -> option Price) : TraderRiskGatedOms X * list OmsOutput * list RestingQuote * Z :=
  match quotes with
  | [] => (g, [], [], 0)
  | q :: quotes =>
      let '(g, out, q, ok) := Quote.update extra g q (sent level) (desired level) in
      let '(g, out', quotes, n) := update_quotes g quotes sent (S level) desired in
      (g, out ++ out', q :: quotes, (if ok : bool then 1 else 0) + n)
  end.
Definition on_quote_cycle (lm : LadderMarketMaker) (g : TraderRiskGatedOms X) (direction net_position : Z)
    (sent_bid sent_ask : nat -> bool) : TraderRiskGatedOms X * list OmsOutput * LadderMarketMaker * Z :=
  let config := lm_config lm in
  let previous_reference := rw_price (lm_walk lm) in
  let walk := walk_step (lm_walk lm) direction in
  let reference := rw_price walk in
  let withdraw_bids := lm_max_position config <=? net_position in
  let withdraw_asks := net_position <=? s64 (- lm_max_position config) in
  let rising := previous_reference <=? reference in
  let desired_bid level := if withdraw_bids then None else Some (bid_price_for config level reference) in
  let desired_ask level := if withdraw_asks then None else Some (ask_price_for config level reference) in
  if rising then
    let '(g, out, asks, n) := update_quotes g (lm_asks lm) sent_ask 0 desired_ask in
    let '(g, out', bids, n') := update_quotes g (lm_bids lm) sent_bid 0 desired_bid in
    (g, out ++ out', {| lm_config := config; lm_walk := walk; lm_bids := bids; lm_asks := asks |}, n + n')
  else
    let '(g, out, bids, n) := update_quotes g (lm_bids lm) sent_bid 0 desired_bid in
    let '(g, out', asks, n') := update_quotes g (lm_asks lm) sent_ask 0 desired_ask in
    (g, out ++ out', {| lm_config := config; lm_walk := walk; lm_bids := bids; lm_asks := asks |}, n + n').
Fixpoint withdraw_quotes (g : TraderRiskGatedOms X) (quotes : list RestingQuote) (sent : nat -> bool) (level : nat)
    : TraderRiskGatedOms X * list OmsOutput * list RestingQuote * Z :=
  match quotes with
  | [] => (g, [], [], 0)
  | q :: quotes =>
      let '(g, out, q, ok) := Quote.withdraw extra g q (sent level) in
      let '(g, out', quotes, n) := withdraw_quotes g quotes sent (S level) in
      (g, out ++ out', q :: quotes, (if ok : bool then 1 else 0) + n)
  end.
Definition withdraw_all (lm : LadderMarketMaker) (g : TraderRiskGatedOms X) (sent_bid sent_ask : nat -> bool)
    : TraderRiskGatedOms X * list OmsOutput * LadderMarketMaker * Z :=
  let '(g, out, bids, n) := withdraw_quotes g (lm_bids lm) sent_bid 0 in
  let '(g, out', asks, n') := withdraw_quotes g (lm_asks lm) sent_ask 0 in
  (g, out ++ out', {| lm_config := lm_config lm; lm_walk := lm_walk lm; lm_bids := bids; lm_asks := asks |}, n + n').
End Ops.
End Ladder.

(** ** momentum_strategy.cpp *)
Record MomentumStrategyConfig := {
  ms_instrument_id : InstrumentId;
  ms_lookback : Z;
  ms_entry_threshold : Price;
  ms_trade_size : Quantity;
  ms_max_position : Z;
  ms_cross_slack : Price;
  ms_cooldown_updates : Z;
}.
Record MomentumStrategy := {
  ms_config : MomentumStrategyConfig;
  ms_mids : list Price;
  ms_updates_since_order : Z;
  ms_updates_seen : Z;
  ms_orders_sent : Z;
}.
Module Momentum.
Section Ops.
Context {X : Type} (extra : option (X -> PositionTracker.t -> Fill -> X)).
Definition new (config : MomentumStrategyConfig) : MomentumStrategy :=
{| ms_config := config; ms_mids := []; ms_updates_since_order := 0; ms_updates_seen := 0; ms_orders_sent := 0 |}.
Definition signal_of (lookback : Z) (mids : list Price) : option Price :=
  if Z.of_nat (length mids) <=? lookback then None
  else
    let* back := last mids in
    let* front := head mids in
    Some (s64 (back - front)).
Definition signal (m : MomentumStrategy) : option Price := signal_of (ms_lookback (ms_config m)) (ms_mids m).
(** [pop_front] until at most [lookback + 1] midpoints are left. *)
Fixpoint trim (lookback : Z) (mids : list Price) : list Price :=
  match mids with
  | [] => []
  | mid :: rest => if u64 (lookback + 1) <? Z.of_nat (length mids) then trim lookback rest else mids
  end.
Definition headroom (config : MomentumStrategyConfig) (position : Z) (side : Side) : Quantity :=
  let room := match side with
              | Buy => s64 (ms_max_position config - position)
              | Sell => s64 (ms_max_position config + position)
              end in
  if room <=? 0 then 0 else Z.min (ms_trade_size config) (u64 room).
Definition with_updates (m : MomentumStrategy) (mids : list Price) (since seen sent : Z) : MomentumStrategy :=
{| ms_config := ms_config m; ms_mids := mids; ms_updates_since_order := since; ms_updates_seen := seen; ms_orders_sent := sent |}.
(** The rest of [on_book_update], for a signal: [waiting] has the update in
  its window and counters. *)
Definition send (waiting : MomentumStrategy) (g : TraderRiskGatedOms X) (net_position : Z) (sent : bool) (side : Side)
    (limit_price : Price) : TraderRiskGatedOms X * list OmsOutput * MomentumStrategy :=
  let config := ms_config waiting in
  let quantity := headroom config net_position side in
  if quantity =? 0 then (g, [], waiting)
  else
    let '(g, out, outcome) :=
      TraderRisk.submit_new_order extra g sent (ms_instrument_id config) side limit_price quantity Limit IOC in
    (g, out, with_updates waiting (ms_mids waiting) 0 (ms_updates_seen waiting)
       (if bool_decide (is_Some (so_client_order_id outcome)) then u64 (ms_orders_sent waiting + 1) else ms_orders_sent waiting)).
Definition on_book_update (m : MomentumStrategy) (g : TraderRiskGatedOms X) (net_position : Z) (sent : bool)
    (instrument_id : InstrumentId) (book : OrderBook.OrderBook) : TraderRiskGatedOms X * list OmsOutput * MomentumStrategy :=
  let config := ms_config m in
  if negb (instrument_id =? ms_instrument_id config) then (g, [], m)
  else
    match OrderBook.best_bid book, OrderBook.best_ask book with
    | Some best_bid, Some best_ask =>
        let seen := u64 (ms_updates_seen m + 1) in
        let mids := trim (ms_lookback config) (ms_mids m ++ [MarketMaker.mid_of best_bid best_ask]) in
        match signal_of (ms_lookback config) mids with
        | None => (g, [], with_updates m mids (ms_updates_since_order m) seen (ms_orders_sent m))
        | Some current_signal =>
            let since := u64 (ms_updates_since_order m + 1) in
            let waiting := with_updates m mids since seen (ms_orders_sent m) in
            if since <=? ms_cooldown_updates config then (g, [], waiting)
            else
              if ms_entry_threshold config <=? current_signal
              then send waiting g net_position sent Buy (s64 (OrderBook.plv_price best_ask + ms_cross_slack config))
              else if current_signal <=? s64 (- ms_entry_threshold config)
              then send waiting g net_position sent Sell (Z.max 1 (s64 (OrderBook.plv_price best_bid - ms_cross_slack config)))
              else (g, [], waiting)
        end
    | _, _ => (g, [], m)
    end.
End Ops.
End Momentum.

(** ** cross_venue_arbitrage_strategy.cpp *)
Record CrossVenueArbConfig := { av_instrument_id : InstrumentId; av_trade_size : Quantity; av_min_edge : Price }.
Record CrossVenueArbStrategy := {
  av_config : CrossVenueArbConfig;
  av_a_best_bid : option OrderBook.PriceLevelView;
  av_a_best_ask : option OrderBook.PriceLevelView;
  av_b_best_bid : option OrderBook.PriceLevelView;
  av_b_best_ask : option OrderBook.PriceLevelView;
}.
Module Arb.
Section Ops.
Context {X : Type} (extra : option (X -> PositionTracker.t -> Fill -> X)).
Definition new (config : CrossVenueArbConfig) : CrossVenueArbStrategy :=
{| av_config := config; av_a_best_bid := None; av_a_best_ask := None; av_b_best_bid := None; av_b_best_ask := None |}.
(** Whether [bid] is at least [min_edge] above [ask]. *)
Definition edge (config : CrossVenueArbConfig) (ask bid : option OrderBook.PriceLevelView) : option (Price * Price) :=
  let* a := ask in
  let* b := bid in
  if av_min_edge config <=? s64 (OrderBook.plv_price b - OrderBook.plv_price a)
  then Some (OrderBook.plv_price a, OrderBook.plv_price b) else None.
Definition leg (config : CrossVenueArbConfig) (g : TraderRiskGatedOms X) (sent : bool) (side : Side) (price : Price)
  : TraderRiskGatedOms X * list OmsOutput :=
(TraderRisk.submit_new_order extra g sent (av_instrument_id config) side price (av_trade_size config) Limit IOC).1.
(** Venue A's gate and outputs, then venue B's. *)
Definition evaluate (v : CrossVenueArbStrategy) (a b : TraderRiskGatedOms X) (sent_a sent_b : bool)
    : (TraderRiskGatedOms X * list OmsOutput) * (TraderRiskGatedOms X * list OmsOutput) :=
  let config := av_config v in
  match edge config (av_a_best_ask v) (av_b_best_bid v) with
  | Some (ask, bid) => (leg config a sent_a Buy ask, leg config b sent_b Sell bid)
  | None =>
      match edge config (av_b_best_ask v) (av_a_best_bid v) with
      | Some (ask, bid) => (leg config a sent_a Sell bid, leg config b sent_b Buy ask)
      | None => ((a, []), (b, []))
      end
  end.
Definition on_venue_a_update (v : CrossVenueArbStrategy) (a b : TraderRiskGatedOms X) (sent_a sent_b : bool)
    (instrument_id : InstrumentId) (book : OrderBook.OrderBook)
    : CrossVenueArbStrategy * ((TraderRiskGatedOms X * list OmsOutput) * (TraderRiskGatedOms X * list OmsOutput)) :=
  if negb (instrument_id =? av_instrument_id (av_config v)) then (v, ((a, []), (b, [])))
  else
    let v := {| av_config := av_config v; av_a_best_bid := OrderBook.best_bid book; av_a_best_ask := OrderBook.best_ask book;
                av_b_best_bid := av_b_best_bid v; av_b_best_ask := av_b_best_ask v |} in
    (v, evaluate v a b sent_a sent_b).
Definition on_venue_b_update (v : CrossVenueArbStrategy) (a b : TraderRiskGatedOms X) (sent_a sent_b : bool)
    (instrument_id : InstrumentId) (book : OrderBook.OrderBook)
    : CrossVenueArbStrategy * ((TraderRiskGatedOms X * list OmsOutput) * (TraderRiskGatedOms X * list OmsOutput)) :=
  if negb (instrument_id =? av_instrument_id (av_config v)) then (v, ((a, []), (b, [])))
  else
    let v := {| av_config := av_config v; av_a_best_bid := av_a_best_bid v; av_a_best_ask := av_a_best_ask v;
                av_b_best_bid := OrderBook.best_bid book; av_b_best_ask := OrderBook.best_ask book |} in
    (v, evaluate v a b sent_a sent_b).
End Ops.
End Arb.
