(* ===== verification/StrategyFacts.v ===== *)
(** * What the strategies send

    Each request's effect on the order management system behind the gate
    ([touches]), the cases of a quote's update, the ladder's phases, and the
    momentum strategy's window and cooldown. *)
From S2P Require Import Prelude Types TraderBook MapSums Ledger OrderEntryCodec Oms OmsMirror OmsDesk Positions TraderRisk Strategies.

(** ** Requests touch their own order *)
Section Requests.
Context {X : Type} (extra : option (X -> PositionTracker.t -> Fill -> X)).
Implicit Types (g : TraderRiskGatedOms X).

Definition ids_known g : Prop := forall id, is_Some (TraderRisk.order g id) -> id < oms_next_client_order_id (tg_oms g).
(** Only [own] and a fresh id change; ids only grow. *)
Definition touches g g' (own : option ClientOrderId) : Prop :=
  (forall id, Some id <> own -> id < oms_next_client_order_id (tg_oms g) -> TraderRisk.order g' id = TraderRisk.order g id) /\
  oms_next_client_order_id (tg_oms g) <= oms_next_client_order_id (tg_oms g') <= oms_next_client_order_id (tg_oms g) + 1 /\
  (ids_known g -> ids_known g').

Lemma touches_nothing g own : touches g g own.
Proof using. split; [done|]. split; [lia|done]. Qed.

Lemma touch_own g0 id (o o' : ClientOrder) : TraderRisk.order g0 id = Some o ->
  touches g0 (tg_with_oms g0 (store (tg_oms g0) id o')) (Some id).
Proof using.
  unfold touches, ids_known, TraderRisk.order, Oms.order. intros Ho. cbn. split_and!; try lia.
  - intros z Hz _. rewrite lookup_insert_ne; [done|]. congruence.
  - intros Hk z. destruct (decide (z = id)) as [->|Hne]; [intros _; apply Hk; by exists o|]. rewrite lookup_insert_ne by congruence. apply Hk.
Qed.

Context (g : TraderRiskGatedOms X) (sent : bool) (Hnext : 0 <= oms_next_client_order_id (tg_oms g) < two64 - 1).
Let next := oms_next_client_order_id (tg_oms g).

Lemma submit_touches i s p q ty tif : ids_known g ->
  let '(g', out, outcome) := TraderRisk.submit_new_order extra g sent i s p q ty tif in
  touches g g' None /\
  match so_client_order_id outcome with
  | None => g' = g /\ out = []
  | Some id => id = next /\ (exists o, TraderRisk.order g' id = Some o /\ (co_state o = PendingNew \/ is_terminal (co_state o) = true)) /\
      exists m rest, out = OutSend (OrderEntry.MsgNewOrder m) :: rest /\ OrderEntry.no_side m = s /\ OrderEntry.no_price m = p /\
        OrderEntry.no_quantity m = q /\ OrderEntry.no_time_in_force m = tif /\ OrderEntry.no_instrument_id m = i /\
        Forall (fun x => exists o, x = OutUpdate o) rest
  end.
Proof using Hnext.
  intros Hk. unfold TraderRisk.submit_new_order. destruct (negb _); [split; [apply touches_nothing|done]|].
  destruct (Oms.submit_new_order (tg_oms g) sent i s p q ty tif) as [[oms out] id] eqn:E.
  destruct (sink_all extra out (tg_with_oms g oms)) as (_ & _ & Ho & _). cbn [so_client_order_id].
  assert (Hf : oms_orders (tg_oms g) !! next = None).
  { destruct (oms_orders (tg_oms g) !! next) as [o|] eqn:Eo; [|done]. pose proof (Hk next (mk_is_Some _ _ Eo)). unfold next in *. lia. }
  unfold Oms.submit_new_order, take_id, emplace in E. cbn in E. fold next in E. rewrite Hf in E.
  unfold touches, ids_known, TraderRisk.order, Oms.order in *. rewrite Ho. cbn [tg_with_oms tg_oms].
  destruct sent; [injection E as <- <- <-|].
  - cbn. split; [split_and!|].
    + intros id _ Hid. rewrite lookup_insert_ne; [done|]. unfold next. lia.
    + rewrite u64_small by (unfold next in *; lia). unfold next in *. lia.
    + rewrite u64_small by (unfold next in *; lia). unfold next in *. lia.
    + intros _ id. rewrite u64_small by (unfold next in *; lia). destruct (decide (id = next)) as [->|Hne]; [unfold next; lia|].
      rewrite lookup_insert_ne by congruence. intros Hs. specialize (Hk id Hs). unfold next in *. lia.
    + split; [done|]. split; [eexists; split; [apply lookup_insert_eq|by left]|]. eexists _, []. by split_and!.
  - unfold mark_send_failed in E. cbn in E. rewrite lookup_insert_eq in E. injection E as <- <- <-. cbn. rewrite insert_insert_eq.
    split; [split_and!|].
    + intros id _ Hid. rewrite lookup_insert_ne; [done|]. unfold next. lia.
    + rewrite u64_small by (unfold next in *; lia). unfold next in *. lia.
    + rewrite u64_small by (unfold next in *; lia). unfold next in *. lia.
    + intros _ id. rewrite u64_small by (unfold next in *; lia). destruct (decide (id = next)) as [->|Hne]; [unfold next; lia|].
      rewrite lookup_insert_ne by congruence. intros Hs. specialize (Hk id Hs). unfold next in *. lia.
    + split; [done|]. split; [eexists; split; [apply lookup_insert_eq|by right]|]. eexists _, _. split_and!; try done. repeat constructor. by eexists.
Qed.

Lemma cancel_spec id o : TraderRisk.order g id = Some o -> is_live (co_state o) = true -> co_pending_action o = NoAction ->
  let '(g', out, ok) := TraderRisk.cancel_order extra g sent id in
  touches g g' (Some id) /\ ok = sent /\ (exists m, out = [OutSend (OrderEntry.MsgCancelOrder m)] /\ OrderEntry.co_client_order_id m = id) /\
  TraderRisk.order g' id = Some (with_pending o (if sent then ActionCancel else NoAction)).
Proof using.
  intros Ho Hl Hp. unfold TraderRisk.cancel_order, Oms.cancel_order, workable. unfold TraderRisk.order, Oms.order in Ho. rewrite Ho, Hl, Hp.
  cbn [negb orb bool_decide]. rewrite bool_decide_eq_true_2 by done. cbn [negb]. destruct sent; cbn.
  - split; [by apply (touch_own g id o)|]. split; [done|]. split; [by eexists|]. unfold TraderRisk.order, Oms.order. cbn. apply lookup_insert_eq.
  - unfold clear_pending_action. cbn. rewrite lookup_insert_eq. cbn. unfold store. cbn. rewrite insert_insert_eq.
    split; [exact (touch_own g id o (with_pending o NoAction) Ho)|]. split; [done|]. split; [by eexists|].
    unfold TraderRisk.order, Oms.order. cbn. by rewrite lookup_insert_eq.
Qed.
Lemma replace_spec id o p q : ids_known g -> TraderRisk.order g id = Some o -> is_live (co_state o) = true -> co_pending_action o = NoAction ->
  let '(g', out, new_id) := TraderRisk.replace_order extra g sent id p q in
  touches g g' (Some id) /\ new_id = (if sent then Some next else None) /\
  (exists m, out = [OutSend (OrderEntry.MsgReplaceOrder m)] /\ OrderEntry.ro_original_client_order_id m = id /\
     OrderEntry.ro_new_client_order_id m = next /\ OrderEntry.ro_new_price m = p /\ OrderEntry.ro_new_quantity m = q) /\
  TraderRisk.order g' id = Some (with_pending o (if sent then ActionReplace else NoAction)) /\
  (sent = true -> exists n, TraderRisk.order g' next = Some n /\ co_state n = PendingNew).
Proof using Hnext.
  intros Hk Ho Hl Hp. pose proof (Hk id (mk_is_Some _ _ Ho)) as Hid. unfold TraderRisk.order, Oms.order in Ho.
  assert (Hf : oms_orders (tg_oms g) !! next = None).
  { destruct (oms_orders (tg_oms g) !! next) as [n|] eqn:En; [|done]. pose proof (Hk next (mk_is_Some _ _ En)). unfold next in *. lia. }
  unfold TraderRisk.replace_order, Oms.replace_order, workable. rewrite Ho, Hl, Hp. rewrite bool_decide_eq_true_2 by done.
  unfold take_id, emplace. cbn. fold next. rewrite lookup_insert_ne, Hf by (unfold next; lia). destruct sent; cbn.
  - unfold touches, ids_known, TraderRisk.order, Oms.order. cbn. rewrite u64_small by (unfold next in *; lia). split_and!; try (unfold next in *; lia).
    + intros z Hz Hlt. rewrite !lookup_insert_ne by (congruence || (unfold next; lia)). done.
    + intros _ z. destruct (decide (z = next)) as [->|Hne]; [unfold next; lia|]. rewrite lookup_insert_ne by congruence.
      destruct (decide (z = id)) as [->|Hne']; [unfold next; lia|]. rewrite lookup_insert_ne by congruence. intros Hs. specialize (Hk z Hs). unfold next in *. lia.
    + done.
    + eexists. by split_and!.
    + rewrite lookup_insert_ne by (unfold next; lia). by rewrite lookup_insert_eq.
    + intros _. eexists. split; [apply lookup_insert_eq|done].
  - unfold clear_pending_action. cbn. rewrite delete_insert_eq, delete_id by (by rewrite lookup_insert_ne by (unfold next; lia)).
    rewrite lookup_insert_eq. unfold store. cbn. rewrite insert_insert_eq.
    unfold touches, ids_known, TraderRisk.order, Oms.order. cbn. rewrite u64_small by (unfold next in *; lia). split_and!; try (unfold next in *; lia).
    + intros z Hz Hlt. by rewrite lookup_insert_ne by congruence.
    + intros _ z. destruct (decide (z = id)) as [->|Hne']; [unfold next; lia|]. rewrite lookup_insert_ne by congruence. intros Hs. specialize (Hk z Hs). unfold next in *. lia.
    + done.
    + eexists. by split_and!.
    + by rewrite lookup_insert_eq.
Qed.
End Requests.

(** ** A quote's update *)
Definition settled {X} (g : TraderRiskGatedOms X) (id : option ClientOrderId) (o : ClientOrder) : Prop :=
  exists i, id = Some i /\ TraderRisk.order g i = Some o /\ is_terminal (co_state o) = false /\ in_flight o = false.
(** What a quote may send on its way to a desired price. *)
Definition quote_sends (q : RestingQuote) (desired : option Price) (out : OmsOutput) : Prop :=
  match out with
  | OutSend (OrderEntry.MsgNewOrder m) => OrderEntry.no_side m = rq_side q /\ OrderEntry.no_quantity m = rq_size q /\
      desired = Some (OrderEntry.no_price m)
  | OutSend (OrderEntry.MsgReplaceOrder m) => rq_order_id q = Some (OrderEntry.ro_original_client_order_id m) /\
      OrderEntry.ro_new_quantity m = rq_size q /\ desired = Some (OrderEntry.ro_new_price m)
  | OutSend (OrderEntry.MsgCancelOrder m) => rq_order_id q = Some (OrderEntry.co_client_order_id m) /\ desired = None
  | OutSend _ | OutFill _ => False
  | OutUpdate _ => True
  end.
Lemma working_live o : is_terminal (co_state o) = false -> in_flight o = false ->
  is_live (co_state o) = true /\ co_pending_action o = NoAction.
Proof.
  unfold in_flight. intros Ht [Hs Hp]%orb_false_iff. apply bool_decide_eq_false in Hs. apply negb_false_iff, bool_decide_eq_true in Hp.
  split; [|done]. by destruct (co_state o).
Qed.
Lemma pending_unsettled o p : p <> NoAction -> in_flight (with_pending o p) = true.
Proof. intros Hp. unfold in_flight. cbn. rewrite (bool_decide_eq_false_2 _ Hp). apply orb_true_r. Qed.

Record updated {X} (g : TraderRiskGatedOms X) (q : RestingQuote) (sent : bool) (desired : option Price)
    (g' : TraderRiskGatedOms X) (out : list OmsOutput) (q' : RestingQuote) : Prop := {
  ud_touches : touches g g' (rq_order_id q);
  ud_static : q' = rq_with q (rq_order_id q');
  ud_id : rq_order_id q' = rq_order_id q \/ rq_order_id q' = None \/ rq_order_id q' = Some (oms_next_client_order_id (tg_oms g));
  ud_fresh : rq_order_id q' = Some (oms_next_client_order_id (tg_oms g)) ->
    oms_next_client_order_id (tg_oms g') = oms_next_client_order_id (tg_oms g) + 1;
  ud_sends : Forall (quote_sends q desired) out;
  ud_settled : sent = true -> forall o, settled g' (rq_order_id q') o ->
    exists p, desired = Some p /\ abs_diff (co_price o) p < rq_requote_threshold q;
}.

Section Update.
Context {X : Type} (extra : option (X -> PositionTracker.t -> Fill -> X)) (g : TraderRiskGatedOms X) (sent : bool)
  (Hnext : 0 <= oms_next_client_order_id (tg_oms g) < two64 - 1) (Hk : ids_known g).

Lemma submit_updated q id desired : rq_order_id q = id ->
  (forall o, ~ settled g id o) ->
  let '(g', out, q', _) := Quote.submit extra g (rq_with q None) sent desired in updated g q sent desired g' out q'.
Proof using Hnext Hk.
  intros Hid Hold. unfold Quote.submit. destruct desired as [p|].
  2:{ split; cbn; [apply touches_nothing|done|by right; left|done|constructor|]. intros _ o (i & [=] & _). }
  pose proof (submit_touches extra g sent Hnext (rq_instrument_id q) (rq_side q) p (rq_size q) Limit GTC Hk) as Hs.
  cbn [rq_with rq_instrument_id rq_side rq_size].
  destruct (TraderRisk.submit_new_order _ _ _ _ _ _ _ _ _) as [[g' out] outcome]. destruct Hs as [Ht Hs].
  assert (Ht' : touches g g' (rq_order_id q)).
  { destruct Ht as (H1 & H2 & H3). split; [|done]. intros z _ Hz. by apply H1. }
  destruct (so_client_order_id outcome) as [new_id|] eqn:Ei.
  - destruct Hs as (-> & (o & Ho & Hst) & m & rest & -> & Hm1 & Hm2 & Hm3 & _ & _ & Hrest).
    split; cbn; try done.
    + by right; right.
    + intros _. destruct Ht as (_ & H2 & H3). destruct (decide (oms_next_client_order_id (tg_oms g') = oms_next_client_order_id (tg_oms g))); [|lia].
      pose proof (H3 Hk _ (mk_is_Some _ _ Ho)). lia.
    + constructor; [cbn; by rewrite Hm1, Hm2, Hm3|]. eapply Forall_impl; [exact Hrest|]. by intros x (o' & ->).
    + intros _ o' (i & [= <-] & Ho' & Hterm & Hfl). rewrite Ho in Ho'. injection Ho' as <-. exfalso. unfold in_flight in Hfl.
      destruct Hst as [Hst|Hst]; [rewrite Hst in Hfl; done|congruence].
  - destruct Hs as [-> ->]. split; cbn; try done; [by right; left|]. intros _ o (i & [=] & _).
Qed.

Lemma update_spec q desired : let '(g', out, q', _) := Quote.update extra g q sent desired in updated g q sent desired g' out q'.
Proof using Hnext Hk.
  unfold Quote.update. destruct (rq_order_id q) as [id|] eqn:Hid.
  2:{ pose proof (submit_updated q None desired Hid ltac:(by intros o (i & [=] & _))) as H.
      replace (rq_with q None) with q in H by (destruct q; cbn in Hid; by subst). exact H. }
  destruct (TraderRisk.order g id) as [o|] eqn:Ho.
  2:{ apply (submit_updated q (Some id) desired Hid). intros o (i & [= <-] & Ho' & _). congruence. }
  destruct (is_terminal (co_state o)) eqn:Hterm.
  { apply (submit_updated q (Some id) desired Hid). intros o' (i & [= <-] & Ho' & Ht & _). congruence. }
  destruct (in_flight o) eqn:Hfl.
  { split; [apply touches_nothing|by destruct q|by left|rewrite Hid; intros [= ->]; pose proof (Hk _ (mk_is_Some _ _ Ho)); lia|constructor|].
    intros _ o' (i & Hi & Ho' & _ & Hfl'). rewrite Hid in Hi. injection Hi as <-. congruence. }
  destruct (working_live o Hterm Hfl) as [Hl Hp]. pose proof (Hk _ (mk_is_Some _ _ Ho)) as Hlt. destruct desired as [p|].
  2:{ pose proof (cancel_spec extra g sent id o Ho Hl Hp) as Hc. destruct (TraderRisk.cancel_order _ _ _ _) as [[g' out] ok].
      destruct Hc as (Ht & -> & (m & -> & Hm) & Ho'). split; try done.
      - by rewrite Hid.
      - by destruct q.
      - by left.
      - rewrite Hid. intros [= ->]. lia.
      - constructor; [cbn; split; congruence|constructor].
      - intros -> o' (i & Hi & Hoi & _ & Hfl'). rewrite Hid in Hi. injection Hi as <-. rewrite Ho' in Hoi. injection Hoi as <-.
        by rewrite pending_unsettled in Hfl'. }
  destruct ((_ <? _) && _) eqn:Hclose.
  { apply andb_true_iff in Hclose as [Hclose%Z.ltb_lt _].
    split; [apply touches_nothing|by destruct q|by left|rewrite Hid; intros [= ->]; lia|constructor|].
    intros _ o' (i & Hi & Hoi & _). rewrite Hid in Hi. injection Hi as <-. rewrite Ho in Hoi. injection Hoi as <-. by exists p. }
  pose proof (replace_spec extra g sent Hnext id o p (rq_size q) Hk Ho Hl Hp) as Hr.
  destruct (TraderRisk.replace_order _ _ _ _ _ _) as [[g' out] new_id].
  destruct Hr as (Ht & -> & (m & -> & Hm1 & Hm2 & Hm3 & Hm4) & Ho' & Hn). destruct sent.
  - destruct (Hn eq_refl) as (n & Hno & Hnp). split; cbn; try done.
    + by rewrite Hid.
    + by right; right.
    + intros _. destruct Ht as (_ & H2 & H3). pose proof (H3 Hk _ (mk_is_Some _ _ Hno)). lia.
    + constructor; [cbn; split_and!; congruence|constructor].
    + intros _ o' (i & [= <-] & Hoi & _ & Hfl'). rewrite Hno in Hoi. injection Hoi as <-. unfold in_flight in Hfl'. by rewrite Hnp in Hfl'.
  - split; cbn; try done.
    + by rewrite Hid.
    + by destruct q.
    + by left.
    + rewrite Hid. intros [= ->]. lia.
    + constructor; [cbn; split_and!; congruence|constructor].
Qed.
End Update.

(** ** A side of the ladder *)
Definition quote_ids (quotes : list RestingQuote) : list ClientOrderId := omap rq_order_id quotes.
Definition order_price (out : OmsOutput) : option Price :=
  match out with
  | OutSend (OrderEntry.MsgNewOrder m) => Some (OrderEntry.no_price m)
  | OutSend (OrderEntry.MsgReplaceOrder m) => Some (OrderEntry.ro_new_price m)
  | _ => None
  end.
Lemma quote_sends_price q desired out p : quote_sends q desired out -> order_price out = Some p -> desired = Some p.
Proof. destruct out as [m| |]; [|done..]. destruct m; try done; cbn; intros H [= <-]; by destruct H as (_ & _ & H). Qed.

Record side_ok {X} (g : TraderRiskGatedOms X) (quotes : list RestingQuote) : Prop := {
  so_nodup : NoDup (quote_ids quotes);
  so_known : Forall (fun id => id < oms_next_client_order_id (tg_oms g)) (quote_ids quotes);
}.
(** What a pass over a side leaves. *)
Record swept {X} (g : TraderRiskGatedOms X) (quotes : list RestingQuote) (sent : nat -> bool) (level : nat) (desired : nat -> option Price)
    (g' : TraderRiskGatedOms X) (out : list OmsOutput) (quotes' : list RestingQuote) : Prop := {
  sw_known : ids_known g';
  sw_next : oms_next_client_order_id (tg_oms g) <= oms_next_client_order_id (tg_oms g') <=
            oms_next_client_order_id (tg_oms g) + Z.of_nat (length quotes);
  sw_others : forall id, id < oms_next_client_order_id (tg_oms g) -> id ∉ quote_ids quotes ->
    TraderRisk.order g' id = TraderRisk.order g id;
  sw_side : side_ok g' quotes';
  sw_ids : forall id, id ∈ quote_ids quotes' -> id ∈ quote_ids quotes \/ oms_next_client_order_id (tg_oms g) <= id;
  sw_static : Forall2 (fun q q' => q' = rq_with q (rq_order_id q')) quotes quotes';
  sw_sends : Forall (fun x => forall p, order_price x = Some p -> exists k, (k < length quotes)%nat /\ desired (level + k)%nat = Some p) out;
  sw_settled : (forall k, sent k = true) -> forall k q' o, quotes' !! k = Some q' -> settled g' (rq_order_id q') o ->
    exists p, desired (level + k)%nat = Some p /\ abs_diff (co_price o) p < rq_requote_threshold q';
}.

Lemma settled_frame {X} (g g' : TraderRiskGatedOms X) i o : (forall id, i = Some id -> TraderRisk.order g' id = TraderRisk.order g id) ->
  settled g' i o -> settled g i o.
Proof. intros Hf (id & -> & Ho & Hrest). exists id. rewrite <- (Hf id eq_refl). done. Qed.
Lemma quote_ids_cons q quotes : quote_ids (q :: quotes) = option_list (rq_order_id q) ++ quote_ids quotes.
Proof. unfold quote_ids. cbn. by destruct (rq_order_id q). Qed.

Section Sweep.
Context {X : Type} (extra : option (X -> PositionTracker.t -> Fill -> X)) (sent : nat -> bool) (desired : nat -> option Price).

Lemma sweep quotes : forall (g : TraderRiskGatedOms X) level, ids_known g -> side_ok g quotes ->
  0 <= oms_next_client_order_id (tg_oms g) -> oms_next_client_order_id (tg_oms g) + Z.of_nat (length quotes) < two64 - 1 ->
  let '(g', out, quotes', _) := Ladder.update_quotes extra g quotes sent level desired in swept g quotes sent level desired g' out quotes'.
Proof using.
  induction quotes as [|q quotes IH]; intros g level Hk [Hnd Hlt] H0 Hfit; cbn [Ladder.update_quotes].
  { split; [done|cbn; lia|done|by split|by left|constructor|constructor|done]. }
  rewrite quote_ids_cons in Hnd, Hlt. apply NoDup_app in Hnd as (_ & Hdis & Hnd). apply Forall_app in Hlt as [Hq Hlt].
  cbn [length] in Hfit. pose proof (update_spec extra g (sent level) ltac:(lia) Hk q (desired level)) as Hu.
  destruct (Quote.update extra g q (sent level) (desired level)) as [[[g1 out1] q1] ok1]. destruct Hu as [(T1 & T2 & T3) U2 U3 U4 U5 U6].
  assert (S1 : side_ok g1 quotes).
  { split; [exact Hnd|]. eapply Forall_impl; [exact Hlt|]. intros id Hid. cbn in Hid |- *. lia. }
  pose proof (IH g1 (S level) (T3 Hk) S1 ltac:(lia) ltac:(lia)) as Hs.
  destruct (Ladder.update_quotes extra g1 quotes sent (S level) desired) as [[[g2 out2] quotes2] n2].
  destruct Hs as [W1 W2 W3 [W4 W4'] W5 W6 W7 W8].
  assert (Hq1 : forall id, rq_order_id q1 = Some id -> id < oms_next_client_order_id (tg_oms g1) /\ id ∉ quote_ids quotes).
  { intros id Hid. destruct U3 as [E|[E|E]]; rewrite E in Hid; [|done|].
    - rewrite Hid in Hq, Hdis. cbn [option_list] in Hq. apply Forall_cons in Hq as [Hq _]. cbn in Hq. split; [lia|]. apply Hdis. cbn. by left.
    - injection Hid as <-. rewrite (U4 E). split; [lia|]. intros Hin. rewrite Forall_forall in Hlt. specialize (Hlt _ Hin). cbn in Hlt. lia. }
  split; cbn [length].
  - exact W1.
  - lia.
  - intros id Hid Hnot. rewrite quote_ids_cons, not_elem_of_app in Hnot. destruct Hnot as [Hn1 Hn2].
    rewrite W3 by (done || lia). apply T1; [|done]. intros E. rewrite <- E in Hn1. apply Hn1. cbn. by left.
  - split.
    + rewrite quote_ids_cons. apply NoDup_app. split; [destruct (rq_order_id q1); [apply NoDup_singleton|constructor]|]. split; [|exact W4].
      intros id Hid Hin. destruct (rq_order_id q1) as [id1|]; [|by apply not_elem_of_nil in Hid].
      apply list_elem_of_singleton in Hid as ->. destruct (Hq1 id1 eq_refl) as [? Hn]. destruct (W5 id1 Hin); [done|lia].
    + rewrite quote_ids_cons. apply Forall_app. split; [|exact W4']. destruct (rq_order_id q1) as [id1|]; [|constructor].
      constructor; [|constructor]. destruct (Hq1 id1 eq_refl). cbn. lia.
  - intros id Hid. rewrite !quote_ids_cons, elem_of_app in *. destruct Hid as [Hid|Hid].
    + destruct (rq_order_id q1) as [id1|]; [|by apply not_elem_of_nil in Hid]. apply list_elem_of_singleton in Hid as ->.
      destruct U3 as [E|[E|E]]; [|done|injection E as ->; right; lia]. left; left. rewrite <- E. cbn. by left.
    + destruct (W5 id Hid); [by left; right|right; lia].
  - by constructor.
  - apply Forall_app. split.
    + eapply Forall_impl; [exact U5|]. intros x Hx p Hp. exists 0%nat. rewrite Nat.add_0_r. split; [lia|]. by eapply quote_sends_price.
    + eapply Forall_impl; [exact W7|]. intros x Hx p Hp. destruct (Hx p Hp) as (k & Hklt & Hdk). exists (S k). split; [lia|].
      by rewrite Nat.add_succ_r.
  - intros Hsent k q' o Hk' Hset. destruct k as [|k]; cbn in Hk'.
    + injection Hk' as <-. rewrite Nat.add_0_r. assert (Hset1 : settled g1 (rq_order_id q1) o).
      { apply (settled_frame g1 g2); [|done]. intros id Hid. destruct (Hq1 id Hid). by apply W3. }
      destruct (U6 (Hsent level) o Hset1) as (p & Hp & Hd). exists p. split; [done|]. rewrite U2. exact Hd.
    + rewrite Nat.add_succ_r. by apply (W8 Hsent k q' o).
Qed.
End Sweep.

(** ** The momentum strategy *)
Record MomentumInput (X : Type) := {
  mi_gate : TraderRiskGatedOms X;
  mi_net_position : Z;
  mi_sent : bool;
  mi_instrument_id : InstrumentId;
  mi_book : OrderBook.OrderBook;
}.
Arguments mi_gate {X}. Arguments mi_net_position {X}. Arguments mi_sent {X}. Arguments mi_instrument_id {X}. Arguments mi_book {X}.

(** The midpoint an update adds to the window. *)
Definition sampled {X} (config : MomentumStrategyConfig) (u : MomentumInput X) : option Price :=
  if mi_instrument_id u =? ms_instrument_id config then
    let* bid := OrderBook.best_bid (mi_book u) in
    let* ask := OrderBook.best_ask (mi_book u) in
    Some (MarketMaker.mid_of bid ask)
  else None.
Definition mids_seen {X} (config : MomentumStrategyConfig) (us : list (MomentumInput X)) : list Price := omap (sampled config) us.
(** The newest [n] elements. *)
Definition newest {A} (n : nat) (l : list A) : list A := drop (length l - n) l.
Lemma newest_snoc {A} n (l : list A) x : newest n (newest n l ++ [x]) = newest n (l ++ [x]).
Proof.
  unfold newest. rewrite !length_app, length_drop. cbn. destruct (decide (n <= length l)%nat) as [Hn|Hn].
  - replace (length l - (length l - n))%nat with n by lia. replace (n + 1 - n)%nat with 1%nat by lia.
    destruct n as [|n].
    + rewrite Nat.sub_0_r, Nat.sub_0_r, drop_all. cbn. rewrite drop_ge; [done|]. rewrite length_app. cbn. lia.
    + rewrite !drop_app_le by (rewrite ?length_drop; lia). rewrite drop_drop. f_equal. f_equal. lia.
  - replace (length l - n)%nat with 0%nat by lia. rewrite drop_0, Nat.sub_0_r. done.
Qed.

Section Momentum.
Context {X : Type} (extra : option (X -> PositionTracker.t -> Fill -> X)) (config : MomentumStrategyConfig)
  (Hlook : 0 <= ms_lookback config < two63).
Let window : nat := Z.to_nat (ms_lookback config + 1).

Definition momentum_step (s : MomentumStrategy * list (list OmsOutput)) (u : MomentumInput X) : MomentumStrategy * list (list OmsOutput) :=
  let '(_, out, m) := Momentum.on_book_update extra s.1 (mi_gate u) (mi_net_position u) (mi_sent u) (mi_instrument_id u) (mi_book u) in
  (m, s.2 ++ [out]).
Definition momentum_run (us : list (MomentumInput X)) : MomentumStrategy * list (list OmsOutput) :=
  foldl momentum_step (Momentum.new config, []) us.

Lemma trim_newest mids : Momentum.trim (ms_lookback config) mids = newest window mids.
Proof using Hlook.
  unfold newest, window. induction mids as [|mid mids IH]; [by rewrite drop_nil|]. cbn [Momentum.trim].
  rewrite u64_small by lia. cbn [length]. destruct (Z.ltb_spec (ms_lookback config + 1) (Z.of_nat (S (length mids)))) as [Hlt|Hge].
  - rewrite IH. replace (S (length mids) - Z.to_nat (ms_lookback config + 1))%nat
      with (S (length mids - Z.to_nat (ms_lookback config + 1))) by lia. done.
  - replace (S (length mids) - _)%nat with 0%nat by lia. done.
Qed.
(** The signal spans exactly [lookback] updates. *)
Lemma signal_newest mids now : Momentum.signal_of (ms_lookback config) (newest window (mids ++ [now])) =
  if Z.of_nat (length mids) <? ms_lookback config then None
  else (fun past => s64 (now - past)) <$> (mids ++ [now]) !! (length mids - Z.to_nat (ms_lookback config))%nat.
Proof using Hlook.
  unfold Momentum.signal_of, newest, window. rewrite length_drop, length_app. cbn [length].
  destruct (Z.ltb_spec (Z.of_nat (length mids)) (ms_lookback config)) as [Hlt|Hge].
  - rewrite (proj2 (Z.leb_le _ _)) by lia. done.
  - rewrite (proj2 (Z.leb_gt _ _)) by lia.
    replace (length mids + 1 - Z.to_nat (ms_lookback config + 1))%nat with (length mids - Z.to_nat (ms_lookback config))%nat by lia.
    set (d := (length mids - Z.to_nat (ms_lookback config))%nat).
    assert (Hlast : last (drop d (mids ++ [now])) = Some now) by (rewrite drop_app_le by lia; apply last_snoc).
    rewrite Hlast, head_lookup, lookup_drop, Nat.add_0_r. by destruct (_ !! d).
Qed.

(** An order the signal [now - past] justifies within the cap. *)
Definition momentum_order (past now : Price) (u : MomentumInput X) (m : OrderEntry.NewOrder) : Prop :=
  OrderEntry.no_instrument_id m = ms_instrument_id config /\ OrderEntry.no_time_in_force m = IOC /\
  0 < OrderEntry.no_quantity m <= ms_trade_size config /\
  match OrderEntry.no_side m with
  | Buy => mi_net_position u + OrderEntry.no_quantity m <= ms_max_position config /\
      ms_entry_threshold config <= s64 (now - past) /\
      exists ask, OrderBook.best_ask (mi_book u) = Some ask /\
        OrderEntry.no_price m = s64 (OrderBook.plv_price ask + ms_cross_slack config)
  | Sell => - ms_max_position config <= mi_net_position u - OrderEntry.no_quantity m /\
      s64 (now - past) <= s64 (- ms_entry_threshold config) /\
      exists bid, OrderBook.best_bid (mi_book u) = Some bid /\
        OrderEntry.no_price m = Z.max 1 (s64 (OrderBook.plv_price bid - ms_cross_slack config))
  end.
Definition input_ok (u : MomentumInput X) : Prop :=
  ids_known (mi_gate u) /\ 0 <= oms_next_client_order_id (tg_oms (mi_gate u)) < two64 - 1 /\
  Z.abs (mi_net_position u) + ms_max_position config < two63.

Context (Hmax : 0 <= ms_max_position config) (Hsize : 0 <= ms_trade_size config).

Lemma headroom_spec u side : input_ok u -> let q := Momentum.headroom config (mi_net_position u) side in
  0 <= q <= ms_trade_size config /\ (q = 0 \/ match side with
    | Buy => mi_net_position u + q <= ms_max_position config
    | Sell => - ms_max_position config <= mi_net_position u - q
    end).
Proof using Hlook Hmax Hsize.
  intros (_ & _ & Hnet). unfold Momentum.headroom. cbn zeta. rewrite !s64_small by lia.
  set (room := match side with Buy => _ | Sell => _ end). destruct (Z.leb_spec room 0); [lia|].
  rewrite u64_small by (unfold room in *; destruct side; lia). split; [lia|]. right. unfold room in *. destruct side; lia.
Qed.

(** What an update that finds a signal does with it. *)
Definition ordered (mids : list Price) (u : MomentumInput X) (since : Z) (out : list OmsOutput) (m' : MomentumStrategy) : Prop :=
  out <> [] -> ms_updates_since_order m' = 0 /\ ms_cooldown_updates config < u64 (since + 1) /\
    exists past now o rest, sampled config u = Some now /\
      (mids ++ [now]) !! (length mids - Z.to_nat (ms_lookback config))%nat = Some past /\ ms_lookback config <= Z.of_nat (length mids) /\
      out = OutSend (OrderEntry.MsgNewOrder o) :: rest /\ momentum_order past now u o.
Lemma send_ordered mids u since past now waiting side price : ms_config waiting = config -> input_ok u ->
  sampled config u = Some now -> (mids ++ [now]) !! (length mids - Z.to_nat (ms_lookback config))%nat = Some past ->
  ms_lookback config <= Z.of_nat (length mids) -> ms_cooldown_updates config < u64 (since + 1) ->
  match side with
  | Buy => ms_entry_threshold config <= s64 (now - past) /\
      exists ask, OrderBook.best_ask (mi_book u) = Some ask /\ price = s64 (OrderBook.plv_price ask + ms_cross_slack config)
  | Sell => s64 (now - past) <= s64 (- ms_entry_threshold config) /\
      exists bid, OrderBook.best_bid (mi_book u) = Some bid /\ price = Z.max 1 (s64 (OrderBook.plv_price bid - ms_cross_slack config))
  end ->
  let '(_, out, m') := Momentum.send extra waiting (mi_gate u) (mi_net_position u) (mi_sent u) side price in
  ms_config m' = config /\ ms_mids m' = ms_mids waiting /\ ms_updates_since_order m' ∈ [ms_updates_since_order waiting; 0] /\
  ordered mids u since out m'.
Proof using Hlook Hmax Hsize.
  intros Hc Hu Hnow Hpast Hfull Hcool Hprice. unfold Momentum.send. rewrite Hc. destruct (headroom_spec u side Hu) as [Hq Hcap]. cbn zeta in Hcap.
  set (q := Momentum.headroom _ _ _) in *. destruct (Z.eqb_spec q 0) as [Hz|Hz]; [split_and!; [done|done|by left|done]|].
  destruct Hu as (Hk & Hnext & _).
  pose proof (submit_touches extra (mi_gate u) (mi_sent u) Hnext (ms_instrument_id config) side price q Limit IOC Hk) as Hs.
  destruct (TraderRisk.submit_new_order _ _ _ _ _ _ _ _ _) as [[g' out] outcome]. destruct Hs as [_ Hs].
  split_and!; [done|done|by right; left|]. intros Hne. split; [done|]. split; [exact Hcool|].
  destruct (so_client_order_id outcome); [|by destruct Hs].
  destruct Hs as (_ & _ & o & rest & -> & E1 & E2 & E3 & E4 & E5 & _). exists past, now, o, rest. split_and!; try done.
  unfold momentum_order. rewrite E1, E2, E3, E4, E5. destruct Hcap as [?|Hcap]; [lia|]. split_and!; try done; try lia.
  destruct side; by split.
Qed.

(** One update of a strategy whose window holds [mids]. *)
Lemma momentum_update m mids u : ms_config m = config -> ms_mids m = newest window mids -> input_ok u ->
  let '(_, out, m') := Momentum.on_book_update extra m (mi_gate u) (mi_net_position u) (mi_sent u) (mi_instrument_id u) (mi_book u) in
  ms_config m' = config /\ ms_mids m' = newest window (mids ++ option_list (sampled config u)) /\
  ms_updates_since_order m' ∈ [ms_updates_since_order m; u64 (ms_updates_since_order m + 1); 0] /\
  ordered mids u (ms_updates_since_order m) out m'.
Proof using Hlook Hmax Hsize.
  intros Hc Hm Hu. set (since := ms_updates_since_order m). unfold Momentum.on_book_update. rewrite Hc.
  assert (Hs : sampled config u = if mi_instrument_id u =? ms_instrument_id config then
    let* bid := OrderBook.best_bid (mi_book u) in let* ask := OrderBook.best_ask (mi_book u) in Some (MarketMaker.mid_of bid ask) else None) by done.
  destruct (mi_instrument_id u =? ms_instrument_id config); cbn [negb].
  2:{ rewrite Hs, app_nil_r. split_and!; [done|done|by left|done]. }
  destruct (OrderBook.best_bid (mi_book u)) as [bid|] eqn:Hbid; [|rewrite Hs, app_nil_r; split_and!; [done|done|by left|done]].
  destruct (OrderBook.best_ask (mi_book u)) as [ask|] eqn:Hask; [|rewrite Hs, app_nil_r; split_and!; [done|done|by left|done]].
  set (now := MarketMaker.mid_of bid ask) in *. rewrite Hs. cbn [option_list]. rewrite Hm, trim_newest, newest_snoc, signal_newest. fold since.
  destruct (Z.ltb_spec (Z.of_nat (length mids)) (ms_lookback config)) as [Hfill|Hfull]; [split_and!; [done|done|by left|done]|].
  destruct ((mids ++ [now]) !! _) as [past|] eqn:Hpast; cbn [fmap option_fmap option_map]; [|split_and!; [done|done|by left|done]].
  destruct (Z.leb_spec (u64 (since + 1)) (ms_cooldown_updates config)) as [Hcool|Hcool].
  { split_and!; [done|done|by right; left|done]. }
  set (waiting := Momentum.with_updates m _ _ _ _).
  assert (Hgo : forall side price,
    (let '(_, out, m') := Momentum.send extra waiting (mi_gate u) (mi_net_position u) (mi_sent u) side price in
     ms_config m' = config /\ ms_mids m' = ms_mids waiting /\ ms_updates_since_order m' ∈ [ms_updates_since_order waiting; 0] /\
     ordered mids u since out m') ->
    let '(_, out, m') := Momentum.send extra waiting (mi_gate u) (mi_net_position u) (mi_sent u) side price in
    ms_config m' = config /\ ms_mids m' = newest window (mids ++ [now]) /\
    ms_updates_since_order m' ∈ [since; u64 (since + 1); 0] /\ ordered mids u since out m').
  { intros side price. destruct (Momentum.send _ _ _ _ _ _ _) as [[g' out] m']. intros (H1 & H2 & H3 & H4). split_and!; try done. by right. }
  destruct (Z.leb_spec (ms_entry_threshold config) (s64 (now - past))) as [Hup|Hup].
  { apply Hgo, (send_ordered mids u since past now); try done. split; [done|]. by exists ask. }
  destruct (Z.leb_spec (s64 (now - past)) (s64 (- ms_entry_threshold config))) as [Hdn|Hdn].
  { apply Hgo, (send_ordered mids u since past now); try done. split; [done|]. by exists bid. }
  split_and!; [done|done|by right; left|done].
Qed.

(** ** Runs: the last [since] updates sent nothing *)
Record momentum_ok (us : list (MomentumInput X)) (m : MomentumStrategy) (outs : list (list OmsOutput)) : Prop := {
  mk_config : ms_config m = config;
  mk_mids : ms_mids m = newest window (mids_seen config us);
  mk_outs : length outs = length us;
  mk_since : 0 <= ms_updates_since_order m <= Z.of_nat (length outs);
  mk_quiet : forall k, Z.of_nat (length outs) - ms_updates_since_order m <= Z.of_nat k -> (k < length outs)%nat -> outs !! k = Some [];
}.
Lemma mids_seen_snoc (us : list (MomentumInput X)) u : mids_seen config (us ++ [u]) = mids_seen config us ++ option_list (sampled config u).
Proof using. unfold mids_seen. rewrite omap_app. cbn. by destruct (sampled config u). Qed.
Lemma momentum_runs us : Z.of_nat (length us) < two64 -> Forall input_ok us ->
  momentum_ok us (momentum_run us).1 (momentum_run us).2.
Proof using Hlook Hmax Hsize.
  induction us as [|u us IH] using rev_ind; intros Hlen Hus.
  { split; cbn; try done; lia. }
  rewrite length_app in Hlen. cbn in Hlen. apply Forall_app in Hus as [Hus [Hu _]%Forall_cons].
  unfold momentum_run in *. rewrite foldl_app. cbn [foldl]. set (s := foldl _ _ us) in *. destruct (IH ltac:(lia) Hus) as [I1 I2 I3 I4 I5].
  unfold momentum_step. pose proof (momentum_update s.1 (mids_seen config us) u I1 I2 Hu) as H.
  destruct (Momentum.on_book_update _ _ _ _ _ _ _) as [[g' out] m']. destruct H as (H1 & H2 & H3 & H4). cbn [fst snd].
  split.
  - exact H1.
  - by rewrite mids_seen_snoc.
  - rewrite !length_app, I3. done.
  - rewrite length_app. cbn. rewrite !elem_of_cons in H3. rewrite u64_small in H3 by lia.
    destruct H3 as [->|[->|[->|?%not_elem_of_nil]]]; [lia..|done].
  - intros k Hk1 Hk2. rewrite length_app in Hk1, Hk2. cbn in Hk1, Hk2. rewrite !elem_of_cons in H3. rewrite u64_small in H3 by lia.
    assert (Hout : ms_updates_since_order m' <> 0 -> out = []) by (intros Hne; destruct out; [done|]; by destruct (H4 ltac:(done))).
    destruct (decide (k = length s.2)) as [->|Hne].
    + rewrite lookup_app_r, Nat.sub_diag by lia. cbn. f_equal. apply Hout. lia.
    + rewrite lookup_app_l by lia. apply I5; [|lia]. destruct H3 as [H3|[H3|[H3|?%not_elem_of_nil]]]; try done; lia.
Qed.
(** The [k]-th update's order, if it sent one. *)
Definition order_at (us : list (MomentumInput X)) (outs : list (list OmsOutput)) (k : nat) (out : list OmsOutput) : Prop :=
  exists u past now o rest, us !! k = Some u /\ sampled config u = Some now /\
    let mids := mids_seen config (take k us) in
    (mids ++ [now]) !! (length mids - Z.to_nat (ms_lookback config))%nat = Some past /\ ms_lookback config <= Z.of_nat (length mids) /\
    out = OutSend (OrderEntry.MsgNewOrder o) :: rest /\ momentum_order past now u o /\
    forall j, Z.of_nat k - ms_cooldown_updates config <= Z.of_nat j -> (j < k)%nat -> outs !! j = Some [].
Lemma orders_at us : Z.of_nat (length us) < two64 -> Forall input_ok us ->
  forall k out, (momentum_run us).2 !! k = Some out -> out <> [] -> order_at us (momentum_run us).2 k out.
Proof using Hlook Hmax Hsize.
  induction us as [|u us IH] using rev_ind; intros Hlen Hus k out Hk Hne; [done|].
  rewrite length_app in Hlen. cbn in Hlen. apply Forall_app in Hus as [Hus [Hu _]%Forall_cons].
  specialize (IH ltac:(lia) Hus). destruct (momentum_runs us ltac:(lia) Hus) as [I1 I2 I3 I4 I5].
  unfold momentum_run in *. rewrite foldl_app in *. cbn [foldl] in *. set (s := foldl _ _ us) in *. unfold momentum_step in *.
  pose proof (momentum_update s.1 (mids_seen config us) u I1 I2 Hu) as H.
  destruct (Momentum.on_book_update _ _ _ _ _ _ _) as [[g' out'] m']. destruct H as (_ & _ & _ & H4). cbn [fst snd] in *.
  apply lookup_app_Some in Hk as [Hk|[Hge Hk]].
  - destruct (IH k out Hk Hne) as (u0 & past & now & o & rest & E1 & E2 & E3 & E4 & E5 & E6 & E7).
    pose proof (lookup_lt_Some _ _ _ Hk). exists u0, past, now, o, rest. rewrite lookup_app_l, take_app_le by lia.
    cbn zeta. split_and!; try done. intros j Hj1 Hj2. rewrite lookup_app_l by lia. by apply E7.
  - apply list_lookup_singleton_Some in Hk as [Hz <-]. assert (k = length us) as -> by lia.
    destruct (H4 Hne) as (_ & Hcool & past & now & o & rest & E1 & E2 & E3 & E4 & E5). rewrite u64_small in Hcool by lia.
    exists u, past, now, o, rest. rewrite take_app_length, lookup_app_r, Nat.sub_diag by lia. cbn zeta. split_and!; try done.
    intros j Hj1 Hj2. rewrite lookup_app_l by lia. apply I5; lia.
Qed.
End Momentum.

(** ** The walk and the ladder's prices *)
Lemma walk_bounds w direction : let c := rw_config w in
  -1 <= direction <= 1 -> 0 <= rw_step_size c -> rw_min_price c <= rw_price w <= rw_max_price c ->
  - two63 <= rw_min_price c - rw_step_size c -> rw_max_price c + rw_step_size c < two63 ->
  let w' := walk_step w direction in
  rw_config w' = c /\ rw_min_price c <= rw_price w' <= rw_max_price c /\ Z.abs (rw_price w' - rw_price w) <= rw_step_size c.
Proof.
  cbn zeta. intros Hd Hs Hp H1 H2. unfold walk_step. cbn [rw_config rw_price].
  assert (Hm : Z.abs (direction * rw_step_size (rw_config w)) <= rw_step_size (rw_config w)).
  { assert (direction = -1 \/ direction = 0 \/ direction = 1) as [->|[->| ->]] by lia; lia. }
  rewrite (s64_small (direction * _)), s64_small by lia. split; [done|lia].
Qed.
(** What the prices of a ladder must fit in. *)
Definition ladder_fits (config : LadderMarketMakerConfig) (reference : Price) : Prop :=
  0 < lm_half_spread config /\ 0 <= lm_level_spacing config /\
  2 * (Z.abs reference + lm_half_spread config + Z.of_nat (lm_levels_per_side config) * lm_level_spacing config) < two63.
Lemma ladder_prices config reference level : ladder_fits config reference -> (level < lm_levels_per_side config)%nat ->
  Ladder.bid_price_for config level reference <= reference - lm_half_spread config /\
  reference + lm_half_spread config <= Ladder.ask_price_for config level reference /\
  - two63 < 2 * Ladder.bid_price_for config level reference /\ 2 * Ladder.ask_price_for config level reference < two63.
Proof.
  intros (H1 & H2 & H3) Hl. unfold Ladder.bid_price_for, Ladder.ask_price_for.
  assert (0 <= Z.of_nat level * lm_level_spacing config <= Z.of_nat (lm_levels_per_side config) * lm_level_spacing config) by nia.
  rewrite (s64_small (reference - _)), (s64_small (reference + _)), (s64_small (Z.of_nat level * _)), !s64_small by lia. lia.
Qed.
(** The prices a cycle wants, where it wants any. *)
Lemma ladder_wants config reference net k p : ladder_fits config reference -> (k < lm_levels_per_side config)%nat ->
  ((if lm_max_position config <=? net then None else Some (Ladder.bid_price_for config k reference)) = Some p ->
     p <= reference - lm_half_spread config /\ net < lm_max_position config /\ 2 * Z.abs p < two63) /\
  ((if net <=? - lm_max_position config then None else Some (Ladder.ask_price_for config k reference)) = Some p ->
     reference + lm_half_spread config <= p /\ - lm_max_position config < net /\ 2 * Z.abs p < two63).
Proof.
  intros Hfit Hk. destruct (ladder_prices config reference k Hfit Hk) as (? & ? & ? & ?). destruct Hfit as (? & ? & ?). split.
  - destruct (Z.leb_spec (lm_max_position config) net); [done|]. intros [= <-]. lia.
  - destruct (Z.leb_spec net (- lm_max_position config)); [done|]. intros [= <-]. lia.
Qed.
(** A walk's bounds fit because the ladder's prices do. *)
Lemma ladder_walk w config direction : let c := rw_config w in
  (forall reference, rw_min_price c <= reference <= rw_max_price c -> ladder_fits config reference) ->
  -1 <= direction <= 1 -> 0 <= rw_step_size c /\ 2 * rw_step_size c < two63 -> rw_min_price c <= rw_price w <= rw_max_price c ->
  let w' := walk_step w direction in
  rw_config w' = c /\ rw_min_price c <= rw_price w' <= rw_max_price c /\ Z.abs (rw_price w' - rw_price w) <= rw_step_size c.
Proof.
  cbn zeta. intros Hfits Hd [Hs1 Hs2] Hw. destruct (Hfits (rw_min_price (rw_config w))) as (? & ? & ?); [lia|].
  destruct (Hfits (rw_max_price (rw_config w))) as (? & ? & ?); [lia|]. apply walk_bounds; try done; nia.
Qed.
Lemma abs_diff_exact a b : 2 * Z.abs a < two63 -> 2 * Z.abs b < two63 -> abs_diff a b = Z.abs (a - b).
Proof. intros. unfold abs_diff. destruct (Z.ltb_spec b a); rewrite s64_small; lia. Qed.

(** ** Two sides of one ladder *)
Lemma side_ok_comm {X} (g : TraderRiskGatedOms X) a b : side_ok g (a ++ b) -> side_ok g (b ++ a).
Proof.
  intros [H1 H2]. unfold quote_ids in H1, H2. rewrite omap_app in H1, H2.
  assert (HP : omap rq_order_id a ++ omap rq_order_id b ≡ₚ omap rq_order_id b ++ omap rq_order_id a) by apply Permutation_app_comm.
  split; unfold quote_ids; rewrite omap_app; [by rewrite <- HP|by rewrite <- HP].
Qed.
Lemma side_ok_left {X} (g : TraderRiskGatedOms X) a b : side_ok g (a ++ b) -> side_ok g a.
Proof.
  intros [H1 H2]. unfold quote_ids in *. rewrite omap_app in H1, H2. apply NoDup_app in H1 as [H1 _]. apply Forall_app in H2 as [H2 _].
  by split.
Qed.
Lemma side_ok_disjoint {X} (g : TraderRiskGatedOms X) a b id : side_ok g (a ++ b) -> id ∈ quote_ids a -> id ∉ quote_ids b.
Proof. intros [H1 _]. unfold quote_ids in *. rewrite omap_app in H1. apply NoDup_app in H1 as (_ & H & _). apply H. Qed.
Lemma side_ok_lt {X} (g : TraderRiskGatedOms X) a id : side_ok g a -> id ∈ quote_ids a -> id < oms_next_client_order_id (tg_oms g).
Proof. intros [_ H] Hid. rewrite Forall_forall in H. exact (H id Hid). Qed.
Lemma quote_ids_in q quotes id : q ∈ quotes -> rq_order_id q = Some id -> id ∈ quote_ids quotes.
Proof. intros Hq Hid. apply list_elem_of_omap. by exists q. Qed.

Section Both.
Context {X : Type} (extra : option (X -> PositionTracker.t -> Fill -> X)) (g : TraderRiskGatedOms X)
  (sent1 sent2 : nat -> bool) (want1 want2 : nat -> option Price).

(** One side, then the other: the first side's orders stay as they were left. *)
Lemma both_swept first second : ids_known g -> side_ok g (first ++ second) -> 0 <= oms_next_client_order_id (tg_oms g) ->
  oms_next_client_order_id (tg_oms g) + Z.of_nat (length first + length second) < two64 - 1 ->
  let '(g1, out1, first', _) := Ladder.update_quotes extra g first sent1 0 want1 in
  let '(g2, out2, second', _) := Ladder.update_quotes extra g1 second sent2 0 want2 in
  swept g first sent1 0 want1 g1 out1 first' /\ swept g1 second sent2 0 want2 g2 out2 second' /\
  side_ok g2 (first' ++ second') /\
  (forall q o, q ∈ first' -> settled g2 (rq_order_id q) o -> settled g1 (rq_order_id q) o).
Proof using.
  intros Hk Hok H0 Hfit. pose proof (sweep extra sent1 want1 first g 0%nat Hk (side_ok_left _ _ _ Hok) H0 ltac:(lia)) as S1.
  destruct (Ladder.update_quotes extra g first sent1 0 want1) as [[[g1 out1] first'] n1].
  pose proof (sw_next _ _ _ _ _ _ _ _ S1) as N1. pose proof (side_ok_left _ _ _ (side_ok_comm _ _ _ Hok)) as Hsec.
  assert (Hsec1 : side_ok g1 second).
  { destruct Hsec as [Hnd Hlt]. split; [exact Hnd|]. eapply Forall_impl; [exact Hlt|]. intros id Hid. cbn in *. lia. }
  pose proof (sweep extra sent2 want2 second g1 0%nat (sw_known _ _ _ _ _ _ _ _ S1) Hsec1 ltac:(lia) ltac:(lia)) as S2.
  destruct (Ladder.update_quotes extra g1 second sent2 0 want2) as [[[g2 out2] second'] n2].
  assert (Hdis : forall id, id ∈ quote_ids first' -> id < oms_next_client_order_id (tg_oms g1) /\ id ∉ quote_ids second).
  { intros id Hid. split; [by apply (side_ok_lt g1 first'), Hid; apply S1|]. destruct (sw_ids _ _ _ _ _ _ _ _ S1 id Hid) as [Hin|Hnew].
    - by apply (side_ok_disjoint g first second).
    - intros Hin. pose proof (side_ok_lt _ _ _ Hsec Hin). lia. }
  pose proof (sw_side _ _ _ _ _ _ _ _ S1) as [A1 A2]. pose proof (sw_side _ _ _ _ _ _ _ _ S2) as [B1 B2].
  pose proof (sw_next _ _ _ _ _ _ _ _ S2) as N2.
  split_and!; [exact S1|exact S2| |].
  - unfold quote_ids in *. split; unfold quote_ids; rewrite omap_app.
    + apply NoDup_app. split_and!; [exact A1| |exact B1]. intros id Hid Hin. destruct (Hdis id Hid) as [Hlt Hn].
      destruct (sw_ids _ _ _ _ _ _ _ _ S2 id Hin); [done|lia].
    + apply Forall_app. split; [|exact B2]. eapply Forall_impl; [exact A2|]. intros id Hid. cbn in *. lia.
  - intros q o Hq. apply settled_frame. intros id Hid. destruct (Hdis id (quote_ids_in _ _ _ Hq Hid)). by apply S2.
Qed.
End Both.

(** A ladder at work: one quote per level, no two with the same order. *)
Record ladder_ok {X} (g : TraderRiskGatedOms X) (lm : LadderMarketMaker) : Prop := {
  lo_known : ids_known g;
  lo_quotes : side_ok g (lm_bids lm ++ lm_asks lm);
  lo_levels : length (lm_bids lm) = lm_levels_per_side (lm_config lm) /\ length (lm_asks lm) = lm_levels_per_side (lm_config lm);
  lo_thresholds : Forall (fun q => rq_requote_threshold q = lm_requote_threshold (lm_config lm)) (lm_bids lm ++ lm_asks lm);
  lo_walk : let c := rw_config (lm_walk lm) in rw_min_price c <= rw_price (lm_walk lm) <= rw_max_price c;
}.

Section SweptPrices.
Context {X : Type} (g g' : TraderRiskGatedOms X) (quotes quotes' : list RestingQuote) (sent : nat -> bool) (want : nat -> option Price)
  (out : list OmsOutput) (S : swept g quotes sent 0 want g' out quotes').

Lemma swept_length : length quotes' = length quotes.
Proof using S. symmetry. eapply Forall2_length, S. Qed.
Lemma swept_thresholds threshold : Forall (fun q => rq_requote_threshold q = threshold) quotes ->
  Forall (fun q => rq_requote_threshold q = threshold) quotes'.
Proof using S.
  intros H. pose proof (sw_static _ _ _ _ _ _ _ _ S) as F. clear S. induction F as [|q q' l l' E F IH]; [constructor|].
  apply Forall_cons in H as [H1 H2]. constructor; [by rewrite E|by apply IH].
Qed.
Lemma swept_wants p : p ∈ omap order_price out -> exists k, (k < length quotes)%nat /\ want k = Some p.
Proof using S.
  intros (x & Hx & Hp)%list_elem_of_omap. pose proof (sw_sends _ _ _ _ _ _ _ _ S) as H. rewrite Forall_forall in H. exact (H x Hx p Hp).
Qed.
Lemma swept_settled q o : (forall k, sent k = true) -> q ∈ quotes' -> settled g' (rq_order_id q) o ->
  exists k p, (k < length quotes)%nat /\ want k = Some p /\ abs_diff (co_price o) p < rq_requote_threshold q.
Proof using S.
  intros Hs (k & Hk)%list_elem_of_lookup Hset. destruct (sw_settled _ _ _ _ _ _ _ _ S Hs k q o Hk Hset) as (p & Hp & Hd).
  exists k, p. rewrite <- swept_length. split; [by eapply lookup_lt_Some|]. done.
Qed.
End SweptPrices.
