(* ===== verification/Applications.v ===== *)
(** * The command-line programs: apps/*/main.cpp

    The two feed tools whole: the generator of event files and the sender that
    streams one as datagrams; CommandLine.v has how they read their arguments.
    What the random engine draws, whether a file opens and whether the socket
    takes a datagram are arguments.  Printing is left out. *)
From Stdlib Require Import String Ascii.
From S2P Require Import Prelude Types CommandLine ByteIO CommandCodec MarketDataCodec TraderBook TraderBookSpec TraderBooks SequenceValidator FeedReplay FeedPublisher FeedHistory FeedBooks Packet FeedRecovery FeedMirror GatewayReports OrderEntryCodec LatencyTracer Oms OrderEntryClient Positions TraderRisk Strategies StrategyFacts.

Local Open Scope Z_scope.
Local Open Scope list_scope.

(** ** apps/feed_generator: the program *)
Module FeedGenerator.
Record OpenOrder := { op_instrument_id : InstrumentId; op_order_id : OrderId }.
#[export] Instance OpenOrder_eq_dec : EqDecision OpenOrder.
Proof. solve_decision. Defined.
Inductive EventKind := Add | Cancel | Modify | Trade | Clear.
(** What the seeded engine gives in one round of the loop to each
    distribution that is asked; [dr_index] takes the number of open orders. *)
Record Draws := {
  dr_timestamp_step : Z;
  dr_event_kind : Z;
  dr_instrument : Z;
  dr_side : Z;
  dr_price_jitter : Z;
  dr_quantity : Z;
  dr_index : Z -> Z;
}.
(** The locals of [main]; the file is the writer's. *)
Record Generator := {
  gn_mid_price : list Price;
  gn_open_orders : list OpenOrder;
  gn_next_seq : Sequence;
  gn_next_order_id : OrderId;
  gn_timestamp : Timestamp;
  gn_adds_emitted : Z;
  gn_file : list byte;
}.
(** [mid_price] has [instruments + 1] elements in 32 bits; with none, the
    loop that fills it stores out of range. *)
Definition mid_prices (instruments : Z) : option (list Price) :=
  let size := u32 (instruments + 1) in
  if size =? 0 then None
  else Some (foldl (fun m i => <[Z.to_nat i := s64 (100000 + i * 1000)]> m) (replicate (Z.to_nat size) 0) (seqZ 1 instruments)).
Definition start (instruments : Z) : option Generator :=
  let* mid := mid_prices instruments in
  Some {| gn_mid_price := mid; gn_open_orders := []; gn_next_seq := 1; gn_next_order_id := 1; gn_timestamp := 1000000000;
          gn_adds_emitted := 0; gn_file := [] |}.
Definition pick_kind (d : Draws) (g : Generator) : EventKind :=
  if decide (gn_open_orders g = []) then Add
  else
    let roll := dr_event_kind d in
    if roll <? 70 then Add
    else if roll <? 85 then Cancel
    else if roll <? 95 then Modify
    else if roll <? 99 then Trade
    else Clear.
(** The state once the event is written. *)
Definition wrote (g : Generator) (event : MarketData.Event) (mid : list Price) (open : list OpenOrder) (next_order_id adds : Z) : Generator :=
  {| gn_mid_price := mid; gn_open_orders := open; gn_next_seq := gn_next_seq g; gn_next_order_id := next_order_id;
     gn_timestamp := gn_timestamp g; gn_adds_emitted := adds; gn_file := write_event (gn_file g) event |}.
Definition at_least_100 (p : Price) : Price := if p <? 100 then 100 else p.
Definition side_of (d : Draws) : Side := if dr_side d =? 0 then Buy else Sell.
Definition add (d : Draws) (seq : Sequence) (g : Generator) : option Generator :=
  let instrument := dr_instrument d in
  let* mid := gn_mid_price g !! Z.to_nat instrument in
  let mid := at_least_100 (s64 (mid + dr_price_jitter d)) in
  let order_id := gn_next_order_id g in
  let event := MarketData.EvAddOrder
    {| MarketData.ao_sequence_number := seq; MarketData.ao_timestamp_ns := gn_timestamp g; MarketData.ao_order_id := order_id;
       MarketData.ao_instrument_id := instrument; MarketData.ao_price := mid; MarketData.ao_quantity := dr_quantity d;
       MarketData.ao_side := side_of d |} in
  Some (wrote g event (<[Z.to_nat instrument := mid]> (gn_mid_price g))
          (gn_open_orders g ++ [{| op_instrument_id := instrument; op_order_id := order_id |}])
          (u64 (order_id + 1)) (u64 (gn_adds_emitted g + 1))).
Definition cancel (d : Draws) (seq : Sequence) (g : Generator) : option Generator :=
  let open := gn_open_orders g in
  let idx := Z.to_nat (dr_index d (Z.of_nat (List.length open))) in
  let* chosen := open !! idx in
  let* back := last open in
  let event := MarketData.EvCancelOrder
    {| MarketData.co_sequence_number := seq; MarketData.co_timestamp_ns := gn_timestamp g;
       MarketData.co_order_id := op_order_id chosen; MarketData.co_instrument_id := op_instrument_id chosen |} in
  Some (wrote g event (gn_mid_price g) (take (List.length open - 1) (<[idx := back]> open)) (gn_next_order_id g) (gn_adds_emitted g)).
Definition modify (d : Draws) (seq : Sequence) (g : Generator) : option Generator :=
  let open := gn_open_orders g in
  let* chosen := open !! Z.to_nat (dr_index d (Z.of_nat (List.length open))) in
  let* mid := gn_mid_price g !! Z.to_nat (op_instrument_id chosen) in
  let event := MarketData.EvModifyOrder
    {| MarketData.mo_sequence_number := seq; MarketData.mo_timestamp_ns := gn_timestamp g;
       MarketData.mo_order_id := op_order_id chosen; MarketData.mo_instrument_id := op_instrument_id chosen;
       MarketData.mo_new_price := at_least_100 (s64 (mid + dr_price_jitter d)); MarketData.mo_new_quantity := dr_quantity d |} in
  Some (wrote g event (gn_mid_price g) open (gn_next_order_id g) (gn_adds_emitted g)).
Definition trade (d : Draws) (seq : Sequence) (g : Generator) : option Generator :=
  let instrument := dr_instrument d in
  let* mid := gn_mid_price g !! Z.to_nat instrument in
  let event := MarketData.EvTrade
    {| MarketData.tr_sequence_number := seq; MarketData.tr_timestamp_ns := gn_timestamp g; MarketData.tr_instrument_id := instrument;
       MarketData.tr_price := mid; MarketData.tr_quantity := dr_quantity d; MarketData.tr_aggressor_side := side_of d |} in
  Some (wrote g event (gn_mid_price g) (gn_open_orders g) (gn_next_order_id g) (gn_adds_emitted g)).
Definition clear (d : Draws) (seq : Sequence) (g : Generator) : option Generator :=
  let instrument := dr_instrument d in
  let event := MarketData.EvClearBook
    {| MarketData.cb_sequence_number := seq; MarketData.cb_timestamp_ns := gn_timestamp g; MarketData.cb_instrument_id := instrument |} in
  Some (wrote g event (gn_mid_price g) (filter (fun o => op_instrument_id o <> instrument) (gn_open_orders g))
          (gn_next_order_id g) (gn_adds_emitted g)).
(** One round of the loop. *)
Definition round (d : Draws) (g : Generator) : option Generator :=
  let seq := gn_next_seq g in
  let g :=
    {| gn_mid_price := gn_mid_price g; gn_open_orders := gn_open_orders g; gn_next_seq := u64 (seq + 1);
       gn_next_order_id := gn_next_order_id g; gn_timestamp := u64 (gn_timestamp g + dr_timestamp_step d);
       gn_adds_emitted := gn_adds_emitted g; gn_file := gn_file g |} in
  match pick_kind d g with
  | Add => add d seq g
  | Cancel => cancel d seq g
  | Modify => modify d seq g
  | Trade => trade d seq g
  | Clear => clear d seq g
  end.
(** [while (adds_emitted < args->orders)]; [None] when undefined or still
    running after [fuel] rounds. *)
Fixpoint generate (fuel : nat) (draws : nat -> Draws) (orders : Z) (g : Generator) : option Generator :=
  if gn_adds_emitted g <? orders then
    match fuel with
    | O => None
    | S fuel => let* g := round (draws O) g in generate fuel (fun k => draws (S k)) orders g
    end
  else Some g.
(** How [main] ends. *)
Inductive Exit := Failed | Wrote (path : string) (g : Generator) | Terminated.
Definition main (opens : string -> bool) (draws : nat -> Draws) (fuel : nat) (argv : list string) : option Exit :=
  match FeedGeneratorArgs.parse_args argv with
  | Threw => Some Terminated
  | Returned None => Some Failed
  | Returned (Some args) =>
      if negb (opens (FeedGeneratorArgs.output args)) then Some Failed
      else
        let* g := start (FeedGeneratorArgs.instruments args) in
        let* g := generate fuel draws (FeedGeneratorArgs.orders args) g in
        Some (Wrote (FeedGeneratorArgs.output args) g)
  end.
End FeedGenerator.

(** ** apps/udp_sender: the program *)
Module UdpSender.
Record Sender := {
  sn_batch : list MarketData.Event;
  sn_packet_sequence : Z;
  sn_events_sent : Z;
  sn_packets_sent : Z;
  sn_decode_failures_skipped : Z;
  sn_sent : list (list byte);
}.
Definition Sender_new : Sender :=
  {| sn_batch := []; sn_packet_sequence := 1; sn_events_sent := 0; sn_packets_sent := 0; sn_decode_failures_skipped := 0; sn_sent := [] |}.
Section Run.
(** Whether [send_to] takes the datagram. *)
Context (takes : list byte -> bool) (batch_size : Z).
Definition flush_batch (s : Sender) : Sender :=
  if decide (sn_batch s = []) then s
  else
    let datagram := Packet.pack_frames (sn_packet_sequence s) (sn_batch s) in
    if takes datagram then
      {| sn_batch := []; sn_packet_sequence := u64 (sn_packet_sequence s + 1);
         sn_events_sent := u64 (sn_events_sent s + Z.of_nat (List.length (sn_batch s)));
         sn_packets_sent := u64 (sn_packets_sent s + 1); sn_decode_failures_skipped := sn_decode_failures_skipped s;
         sn_sent := sn_sent s ++ [datagram] |}
    else
      {| sn_batch := []; sn_packet_sequence := sn_packet_sequence s; sn_events_sent := sn_events_sent s;
         sn_packets_sent := sn_packets_sent s; sn_decode_failures_skipped := sn_decode_failures_skipped s; sn_sent := sn_sent s |}.
Definition take_frame (frame : MarketData.Event + MarketData.DecodeError) (s : Sender) : Sender :=
  match frame with
  | inr _ =>
      {| sn_batch := sn_batch s; sn_packet_sequence := sn_packet_sequence s; sn_events_sent := sn_events_sent s;
         sn_packets_sent := sn_packets_sent s; sn_decode_failures_skipped := u64 (sn_decode_failures_skipped s + 1);
         sn_sent := sn_sent s |}
  | inl event =>
      let s := {| sn_batch := sn_batch s ++ [event]; sn_packet_sequence := sn_packet_sequence s; sn_events_sent := sn_events_sent s;
                  sn_packets_sent := sn_packets_sent s; sn_decode_failures_skipped := sn_decode_failures_skipped s;
                  sn_sent := sn_sent s |} in
      if batch_size <=? Z.of_nat (List.length (sn_batch s)) then flush_batch s else s
  end.
(** The loop, and the flush that follows it. *)
Fixpoint send_loop (fuel : nat) (file : list byte) (s : Sender) : option Sender :=
  match fuel with
  | O => None
  | S fuel =>
      match next_event file with
      | (None, _) => Some (flush_batch s)
      | (Some frame, file) => send_loop fuel file (take_frame frame s)
      end
  end.
End Run.
Inductive Exit := Failed | Sent (s : Sender) | Terminated.
(** [socket_opens] and [takes] are the socket's answers. *)
Definition main (fs : string -> option (list byte)) (socket_opens : bool) (takes : list byte -> bool) (argv : list string) : option Exit :=
  match UdpSenderArgs.parse_args argv with
  | Threw => Some Terminated
  | Returned None => Some Failed
  | Returned (Some args) =>
      match fs (UdpSenderArgs.input args) with
      | None => Some Failed
      | Some file =>
          if negb socket_opens then Some Failed
          else
            let* s := send_loop takes (UdpSenderArgs.batch_size args) (S (List.length file)) file Sender_new in
            Some (Sent s)
      end
  end.
End UdpSender.

(** ** The generator keeps its books *)
Module GeneratorFacts.
Import OrderBook.
Import FeedGenerator.
(** The orders of a book. *)
Definition holds (m : SpecOrders) (id : OrderId) : Prop := exists s, id ∈ ov_order_id <$> so_side m s.
Lemma find_holds m id : so_find m id = None <-> ~ holds m id.
Proof. rewrite so_find_none. unfold holds. split; [intros H [s Hs]; by apply (H s)|intros H s Hs; apply H; by exists s]. Qed.
Lemma holds_find m id : holds m id -> exists s, so_find m id = Some s.
Proof. intros H. destruct (so_find m id) as [s|] eqn:E; [by exists s|]. by apply find_holds in E. Qed.
Lemma holds_empty id : ~ holds so_empty id.
Proof. intros [[] H]; by apply elem_of_nil in H. Qed.
Lemma holds_drop m d id : holds (so_drop m d) id <-> holds m id /\ id <> d.
Proof.
  unfold holds. split.
  - intros [s (x & -> & Hx)%list_elem_of_fmap]. rewrite so_drop_side in Hx. apply elem_of_ov_drop in Hx as [Hx Hne].
    split; [|done]. exists s. by apply list_elem_of_fmap_2.
  - intros [[s (x & -> & Hx)%list_elem_of_fmap] Hne]. exists s. rewrite so_drop_side. apply list_elem_of_fmap_2. by apply elem_of_ov_drop.
Qed.
Lemma holds_insert m s x id : holds (so_insert m s x) id <-> id = ov_order_id x \/ holds m id.
Proof.
  unfold holds, so_insert. setoid_rewrite so_set_side. split.
  - intros [s' Hs]. case_decide as E; [|by right; exists s']. subst s'. rewrite ov_insert_Permutation in Hs. cbn in Hs.
    apply elem_of_cons in Hs as [->|Hs]; [by left|]. right. by exists s.
  - intros [->|[s' Hs]].
    + exists s. rewrite decide_True by done. rewrite ov_insert_Permutation. cbn. by left.
    + exists s'. case_decide as E; [|done]. subst s'. rewrite ov_insert_Permutation. cbn. by right.
Qed.
Lemma spec_feed_snoc evs ev : forall M, spec_feed M (evs ++ [ev]) =
  let (M1, n) := spec_feed M evs in let (M2, err) := spec_apply M1 ev in (M2, (n + match err with Some _ => 1 | None => 0 end)%nat).
Proof.
  induction evs as [|e evs IH]; intros M; cbn [app spec_feed].
  - destruct (spec_apply M ev) as [M2 [e|]]; done.
  - destruct (spec_apply M e) as [M1 err]. rewrite IH. destruct (spec_feed M1 evs) as [M2 n]. destruct (spec_apply M2 ev) as [M3 err'].
    f_equal. destruct err, err'; lia.
Qed.

(** What one message does to the books that hold exactly some open orders. *)
Definition mirrors_open (M : Mirror) (open : list OpenOrder) : Prop :=
  forall i id, holds (mirror_book M i) id <-> {| op_instrument_id := i; op_order_id := id |} ∈ open.
Definition applies (M : Mirror) (ev : MarketData.Event) (open : list OpenOrder) : Prop :=
  (spec_apply M ev).2 = None /\ mirrors_open (spec_apply M ev).1 open.
Section Applied.
Context (M : Mirror) (open : list OpenOrder) (HM : mirrors_open M open) (Hids : NoDup (op_order_id <$> open)).

Lemma open_books i id : holds (mirror_book M i) id <-> {| op_instrument_id := i; op_order_id := id |} ∈ open.
Proof using HM. apply HM. Qed.
Lemma applies_update ev i f m open' : event_op ev = Some (i, f) -> f (mirror_book M i) = (m, None) ->
  (forall id, holds m id <-> {| op_instrument_id := i; op_order_id := id |} ∈ open') ->
  (forall j id, j <> i -> {| op_instrument_id := j; op_order_id := id |} ∈ open' <-> {| op_instrument_id := j; op_order_id := id |} ∈ open) ->
  applies M ev open'.
Proof using HM.
  intros He Hf Hi Hj. unfold applies, spec_apply. rewrite He, Hf. split; [done|]. intros j id. cbn [fst].
  rewrite mirror_book_insert. case_decide as E; [by subst|]. rewrite open_books. symmetry. by apply Hj.
Qed.
Lemma applies_add a : 0 < MarketData.ao_price a -> 0 < MarketData.ao_quantity a ->
  MarketData.ao_order_id a ∉ op_order_id <$> open ->
  applies M (MarketData.EvAddOrder a)
    (open ++ [{| op_instrument_id := MarketData.ao_instrument_id a; op_order_id := MarketData.ao_order_id a |}]).
Proof using HM.
  intros Hp Hq Hid. eapply applies_update; [done| | |].
  - unfold spec_add. rewrite (proj2 (Z.leb_gt _ _)), (proj2 (Z.eqb_neq _ _)) by lia.
    rewrite (proj2 (find_holds _ _)); [done|]. intros H%HM. apply Hid. by apply (list_elem_of_fmap_2 op_order_id) in H.
  - intros id. rewrite holds_insert, open_books, elem_of_app, list_elem_of_singleton. cbn. split; [intros [->|]; auto|intros [|[= ->]]; auto].
  - intros j id Hj. rewrite elem_of_app, list_elem_of_singleton. naive_solver.
Qed.
Lemma applies_modify a : 0 < MarketData.mo_new_price a -> 0 < MarketData.mo_new_quantity a ->
  {| op_instrument_id := MarketData.mo_instrument_id a; op_order_id := MarketData.mo_order_id a |} ∈ open ->
  applies M (MarketData.EvModifyOrder a) open.
Proof using HM.
  intros Hp Hq Ho. destruct (holds_find (mirror_book M (MarketData.mo_instrument_id a)) (MarketData.mo_order_id a)) as [s Hs]; [by apply HM|].
  eapply applies_update; [done| | |done].
  - unfold spec_modify. rewrite (proj2 (Z.leb_gt _ _)), (proj2 (Z.eqb_neq _ _)) by lia. by rewrite Hs.
  - intros id. rewrite holds_insert, holds_drop, open_books. cbn. destruct (decide (id = MarketData.mo_order_id a)) as [->|]; naive_solver.
Qed.
(** Taking an order out of the vector: the last one moves into its place. *)
Lemma swap_out (l : list OpenOrder) idx x y : l !! idx = Some x -> last l = Some y ->
  exists rest, l ≡ₚ x :: rest /\ take (List.length l - 1) (<[idx := y]> l) ≡ₚ rest.
Proof using Type.
  intros Hx Hy. destruct l as [|z l _] using rev_ind; [done|]. rewrite last_snoc in Hy. injection Hy as ->.
  rewrite length_app. cbn [List.length]. assert (List.length l + 1 - 1 = List.length l)%nat as -> by lia.
  destruct (decide (idx = List.length l)) as [->|Hne].
  - rewrite list_lookup_middle in Hx by done. injection Hx as ->. exists l. split; [by rewrite Permutation_app_comm|].
    rewrite <- (Nat.add_0_r (List.length l)) at 2. rewrite insert_app_r. by rewrite take_app_length.
  - assert (idx < List.length l)%nat as Hlt by (apply lookup_lt_Some in Hx; rewrite length_app in Hx; cbn in Hx; lia).
    rewrite lookup_app_l in Hx by done. rewrite insert_app_l by done.
    rewrite take_app_length' by (by rewrite length_insert).
    apply list_elem_of_split_length in Hx as (l1 & l2 & -> & ->). exists (l1 ++ y :: l2).
    rewrite <- (Nat.add_0_r (List.length l1)), insert_app_r. cbn [insert list_insert]. split; [|done]. rewrite <- !app_assoc. cbn.
    rewrite <- Permutation_middle. constructor. apply Permutation_app; [done|]. by rewrite <- Permutation_cons_append.
Qed.
Lemma applies_cancel a rest :
  open ≡ₚ {| op_instrument_id := MarketData.co_instrument_id a; op_order_id := MarketData.co_order_id a |} :: rest ->
  applies M (MarketData.EvCancelOrder a) rest.
Proof using HM Hids.
  intros Hp. set (o := {| op_instrument_id := _; op_order_id := _ |}) in Hp.
  assert (Ho : o ∈ open) by (rewrite Hp; by left). rewrite Hp in Hids. apply NoDup_cons in Hids as [Hn Hr].
  destruct (holds_find (mirror_book M (MarketData.co_instrument_id a)) (MarketData.co_order_id a)) as [s Hs]; [by apply HM|].
  eapply applies_update; [done| | |].
  - unfold spec_cancel_order. by rewrite Hs.
  - intros id. rewrite holds_drop, open_books, Hp, elem_of_cons. split.
    + intros [[[= ->]|H] Hne]; [done|done].
    + intros H. split; [by right|]. intros ->. apply Hn. by apply (list_elem_of_fmap_2 op_order_id) in H.
  - intros j id Hj. rewrite Hp, elem_of_cons. unfold o. naive_solver.
Qed.
Lemma applies_clear a :
  applies M (MarketData.EvClearBook a) (filter (fun o => op_instrument_id o <> MarketData.cb_instrument_id a) open).
Proof using HM.
  eapply applies_update; [done|done| |].
  - intros id. rewrite list_elem_of_filter. cbn. split; [intros H; by destruct (holds_empty id)|naive_solver].
  - intros j id Hj. rewrite list_elem_of_filter. cbn. naive_solver.
Qed.
Lemma applies_trade a : applies M (MarketData.EvTrade a) open.
Proof using HM. done. Qed.
End Applied.
End GeneratorFacts.

(** ** Rounds of the generator *)
Module GeneratorRuns.
Import FeedGenerator GeneratorFacts.
Definition adds_in (evs : list MarketData.Event) : Z := Z.of_nat (List.length (filter (fun ev => event_counter ev = CtAdds) evs)).
(** The draws are within the distributions' bounds. *)
Record draws_ok (instruments : Z) (d : Draws) : Prop := {
  dk_timestamp_step : 1 <= dr_timestamp_step d <= 1000;
  dk_instrument : 1 <= dr_instrument d <= instruments;
  dk_quantity : 1 <= dr_quantity d <= 100;
  dk_price_jitter : -50 <= dr_price_jitter d <= 50;
  dk_index : forall n, 0 < n -> 0 <= dr_index d n < n;
}.
(** After [n] rounds. *)
Record generated (instruments : Z) (n : nat) (g : Generator) (evs : list MarketData.Event) : Prop := {
  ge_file : gn_file g = event_file evs;
  ge_length : List.length evs = n;
  ge_seq : gn_next_seq g = Z.of_nat n + 1;
  ge_numbered : numbered 1 evs;
  ge_wf : Forall MarketData.event_wf evs;
  ge_errors : (spec_feed ∅ evs).2 = O;
  ge_books : mirrors_open (spec_feed ∅ evs).1 (gn_open_orders g);
  ge_ids : NoDup (op_order_id <$> gn_open_orders g);
  ge_open : Forall (fun o => 1 <= op_instrument_id o <= instruments /\ 1 <= op_order_id o < gn_next_order_id g) (gn_open_orders g);
  ge_next_id : gn_next_order_id g = adds_in evs + 1;
  ge_mid : forall i, 1 <= i <= instruments -> exists p, gn_mid_price g !! Z.to_nat i = Some p /\
    100 <= p <= 100000 + 1000 * two32 + 50 * Z.of_nat n;
  ge_time : 1000000000 <= gn_timestamp g <= 1000000000 + 1000 * Z.of_nat n;
  ge_adds : gn_adds_emitted g = adds_in evs;
}.
Lemma adds_in_snoc evs ev : adds_in (evs ++ [ev]) = adds_in evs + (if decide (event_counter ev = CtAdds) then 1 else 0).
Proof. unfold adds_in. rewrite filter_app, length_app, filter_cons, filter_nil. case_decide; cbn [List.length]; lia. Qed.
Lemma adds_in_bound evs : 0 <= adds_in evs <= Z.of_nat (List.length evs).
Proof. unfold adds_in. pose proof (length_filter (fun ev => event_counter ev = CtAdds) evs). lia. Qed.
Lemma at_least_bounds p hi : p <= hi -> 100 <= hi -> 100 <= at_least_100 p <= hi.
Proof. unfold at_least_100. destruct (Z.ltb_spec p 100); lia. Qed.

(** The tables of a fresh generator. *)
Lemma fill_keeps l : forall (m : list Price) k, (forall i, i ∈ l -> Z.to_nat i <> k) ->
  foldl (fun m i => <[Z.to_nat i := s64 (100000 + i * 1000)]> m) m l !! k = m !! k.
Proof.
  induction l as [|i l IH]; intros m k Hk; [done|]. cbn [foldl]. rewrite IH by set_solver. apply list_lookup_insert_ne. set_solver.
Qed.
Lemma fill_mid l : NoDup l -> Forall (fun i => 0 <= i) l -> forall (m : list Price) i, i ∈ l -> (Z.to_nat i < List.length m)%nat ->
  foldl (fun m i => <[Z.to_nat i := s64 (100000 + i * 1000)]> m) m l !! Z.to_nat i = Some (s64 (100000 + i * 1000)).
Proof.
  induction 1 as [|j l Hj Hl IH]; intros H0 m i Hi Hm; [by apply elem_of_nil in Hi|]. apply Forall_cons in H0 as [H0 Hl0]. cbn [foldl].
  apply elem_of_cons in Hi as [->|Hi]; [|apply IH; [done|done|by rewrite length_insert]].
  rewrite fill_keeps; [by apply list_lookup_insert_eq|]. intros i Hi. rewrite Forall_forall in Hl0. pose proof (Hl0 i Hi).
  intros E. assert (i = j) by lia. by subst.
Qed.
Lemma start_generated instruments : 0 < instruments < two32 - 1 -> exists g, start instruments = Some g /\ generated instruments 0 g [].
Proof.
  intros Hn. unfold start, mid_prices. rewrite u32_small, (proj2 (Z.eqb_neq _ _)) by lia. cbn [mbind option_bind].
  eexists. split; [reflexivity|]. split; try done; cbn [gn_mid_price gn_open_orders gn_timestamp].
  - intros i id. cbn. split; [|by intros H%elem_of_nil]. unfold mirror_book. rewrite lookup_empty. intros H. by destruct (holds_empty id).
  - constructor.
  - intros i Hi. eexists. rewrite fill_mid; [split; [done|]|apply NoDup_seqZ| |by apply elem_of_seqZ; lia|rewrite length_replicate; lia].
    + rewrite s64_small by lia. cbn. lia.
    + apply Forall_forall. intros j Hj%elem_of_seqZ. lia.
Qed.

(** What a written event adds. *)
Section Written.
Context (instruments : Z) (n : nat) (g0 g : Generator) (evs : list MarketData.Event) (ev : MarketData.Event).
Context (Hg : generated instruments n g0 evs) (Hinstr : instruments < two32) (Hn : Z.of_nat n < 2 ^ 50).
Context (Hseq : sequence_of ev = gn_next_seq g0) (Hwf : MarketData.event_wf ev).
Lemma written :
  applies (spec_feed ∅ evs).1 ev (gn_open_orders g) ->
  gn_file g = write_event (gn_file g0) ev -> gn_next_seq g = gn_next_seq g0 + 1 ->
  NoDup (op_order_id <$> gn_open_orders g) ->
  Forall (fun o => 1 <= op_instrument_id o <= instruments /\ 1 <= op_order_id o < gn_next_order_id g) (gn_open_orders g) ->
  (let k := if decide (event_counter ev = CtAdds) then 1 else 0 in
   gn_next_order_id g = gn_next_order_id g0 + k /\ gn_adds_emitted g = gn_adds_emitted g0 + k) ->
  (forall i, 1 <= i <= instruments -> exists p, gn_mid_price g !! Z.to_nat i = Some p /\
    100 <= p <= 100000 + 1000 * two32 + 50 * Z.of_nat (S n)) ->
  gn_timestamp g0 <= gn_timestamp g <= gn_timestamp g0 + 1000 ->
  generated instruments (S n) g (evs ++ [ev]).
Proof using Hg Hseq Hwf.
  intros [Ha Hb] Hf Hs Hids Hopen [Hk1 Hk2] Hmid Ht. destruct Hg as [G1 G2 G3 G4 G5 G6 G7 G8 G9 G10 G11 G12 G13].
  pose proof (spec_feed_snoc evs ev ∅) as Hfeed. destruct (spec_feed ∅ evs) as [M1 k1]. cbn [fst snd] in *.
  destruct (spec_apply M1 ev) as [M2 err]. cbn [fst snd] in *. subst err k1.
  split; rewrite ?Hfeed, ?adds_in_snoc; try done.
  - rewrite Hf, G1. unfold event_file. by rewrite foldl_app.
  - rewrite length_app, G2. cbn. lia.
  - rewrite Hs, G3. lia.
  - apply messages_numbered_app. split; [done|]. cbn. rewrite G2, Hseq, G3. split; [lia|done].
  - apply Forall_app. split; [done|]. constructor; [done|constructor].
  - rewrite Hk1, G10. lia.
  - lia.
  - rewrite Hk2, G13. done.
Qed.
End Written.
End GeneratorRuns.

(** ** Every round writes one valid message *)
Module GeneratorLoop.
Import FeedGenerator GeneratorFacts GeneratorRuns.
Section Round.
Context (instruments : Z) (n : nat) (g0 : Generator) (evs : list MarketData.Event) (d : Draws).
Context (Hg : generated instruments n g0 evs) (Hinstr : instruments < two32) (Hn : Z.of_nat n < 2 ^ 50) (Hd : draws_ok instruments d).
(** The state the chosen case starts from. *)
Definition clocked : Generator :=
  {| gn_mid_price := gn_mid_price g0; gn_open_orders := gn_open_orders g0; gn_next_seq := u64 (gn_next_seq g0 + 1);
     gn_next_order_id := gn_next_order_id g0; gn_timestamp := u64 (gn_timestamp g0 + dr_timestamp_step d);
     gn_adds_emitted := gn_adds_emitted g0; gn_file := gn_file g0 |}.
Lemma clocked_seq : gn_next_seq clocked = gn_next_seq g0 + 1.
Proof using All. cbn [clocked gn_next_seq]. pose proof (ge_seq _ _ _ _ Hg). rewrite u64_small by lia. done. Qed.
Lemma clocked_time : gn_timestamp g0 <= gn_timestamp clocked <= gn_timestamp g0 + 1000.
Proof using All. cbn [clocked gn_timestamp]. pose proof (ge_time _ _ _ _ Hg). pose proof (dk_timestamp_step _ _ Hd). rewrite u64_small by lia. lia. Qed.
Lemma seq_ok : u64_ok (gn_next_seq g0).
Proof using All. unfold u64_ok. pose proof (ge_seq _ _ _ _ Hg). lia. Qed.
Lemma time_ok : u64_ok (gn_timestamp clocked).
Proof using All. unfold u64_ok. pose proof clocked_time. pose proof (ge_time _ _ _ _ Hg). lia. Qed.
Lemma adds_small : 0 <= adds_in evs <= Z.of_nat n.
Proof using All. pose proof (adds_in_bound evs). pose proof (ge_length _ _ _ _ Hg). lia. Qed.
(** A price moved by a draw. *)
Lemma moved_price i : 1 <= i <= instruments -> exists p, gn_mid_price g0 !! Z.to_nat i = Some p /\ s64_ok p /\
  100 <= at_least_100 (s64 (p + dr_price_jitter d)) <= 100000 + 1000 * two32 + 50 * Z.of_nat (S n).
Proof using All.
  intros Hi. destruct (ge_mid _ _ _ _ Hg i Hi) as (p & Hp & Hb). pose proof (dk_price_jitter _ _ Hd). exists p. split; [done|].
  unfold s64_ok. rewrite s64_small by lia. split; [lia|]. apply at_least_bounds; lia.
Qed.
Lemma mid_kept i : 1 <= i <= instruments -> exists p, gn_mid_price g0 !! Z.to_nat i = Some p /\
  100 <= p <= 100000 + 1000 * two32 + 50 * Z.of_nat (S n).
Proof using All. intros Hi. destruct (ge_mid _ _ _ _ Hg i Hi) as (p & Hp & Hb). exists p. split; [done|lia]. Qed.
Lemma quantity_ok : 0 < dr_quantity d < two64.
Proof using All. pose proof (dk_quantity _ _ Hd). lia. Qed.
Lemma open_ids_below : gn_next_order_id g0 ∉ op_order_id <$> gn_open_orders g0.
Proof using All. intros (o & Ho & Hin)%list_elem_of_fmap. pose proof (ge_open _ _ _ _ Hg) as H. rewrite Forall_forall in H. apply H in Hin. lia. Qed.
Lemma open_bounds o : o ∈ gn_open_orders g0 -> 1 <= op_instrument_id o <= instruments /\ u64_ok (op_order_id o).
Proof using All.
  intros Ho. pose proof (ge_open _ _ _ _ Hg) as H. rewrite Forall_forall in H. apply H in Ho.
  pose proof (ge_next_id _ _ _ _ Hg). pose proof adds_small. unfold u64_ok. lia.
Qed.

(** [g] is what the round ends in. *)
Definition advanced (added : bool) (g : Generator) : Prop :=
  exists ev, generated instruments (S n) g (evs ++ [ev]) /\ (added = true -> event_counter ev = CtAdds).
Ltac wf := repeat split; try done; try apply seq_ok; try apply time_ok; unfold u32_ok, u64_ok, s64_ok in *; cbn; try lia.

Lemma add_advances : exists g, add d (gn_next_seq g0) clocked = Some g /\ advanced true g.
Proof using All.
  pose proof (dk_instrument _ _ Hd) as Hi. pose proof quantity_ok as Hq. destruct (moved_price _ Hi) as (p & Hp & _ & Hb).
  pose proof adds_small as Ha. pose proof (ge_next_id _ _ _ _ Hg) as Hid. pose proof (ge_adds _ _ _ _ Hg) as Had.
  unfold add. cbn [clocked gn_mid_price]. rewrite Hp. cbn [mbind option_bind]. eexists. split; [reflexivity|]. eexists (MarketData.EvAddOrder _). split; [|done].
  eapply (written instruments n g0 _ evs _ Hg). 4: reflexivity.
  - done.
  - wf.
  - cbn [wrote gn_open_orders]. apply applies_add; [apply (ge_books _ _ _ _ Hg)|cbn; lia|cbn; lia|apply open_ids_below].
  - apply clocked_seq.
  - cbn [wrote gn_open_orders clocked]. rewrite fmap_app. apply NoDup_app. split; [apply (ge_ids _ _ _ _ Hg)|]. split; [|apply NoDup_singleton].
    intros x Hx ->%list_elem_of_singleton. by apply open_ids_below.
  - cbn [wrote gn_open_orders gn_next_order_id clocked]. rewrite u64_small by lia. apply Forall_app. split.
    + eapply Forall_impl; [apply (ge_open _ _ _ _ Hg)|]. cbn. intros o. lia.
    + constructor; [cbn; lia|constructor].
  - cbn [wrote gn_next_order_id gn_adds_emitted clocked event_counter]. rewrite decide_True, !u64_small by first [done | lia]. cbn zeta. lia.
  - cbn [wrote gn_mid_price clocked]. intros i Hi'. destruct (decide (Z.to_nat i = Z.to_nat (dr_instrument d))) as [E|E].
    + rewrite E. rewrite list_lookup_insert_eq by (by eapply lookup_lt_Some). eexists. split; [done|lia].
    + rewrite list_lookup_insert_ne by done. by apply mid_kept.
  - apply clocked_time.
Qed.
Lemma index_of_open : gn_open_orders g0 <> [] -> exists o,
  gn_open_orders g0 !! Z.to_nat (dr_index d (Z.of_nat (List.length (gn_open_orders g0)))) = Some o /\ o ∈ gn_open_orders g0.
Proof using All.
  intros Hne. destruct (lookup_lt_is_Some_2 (gn_open_orders g0) (Z.to_nat (dr_index d (Z.of_nat (List.length (gn_open_orders g0)))))) as [o Ho].
  - pose proof (dk_index _ _ Hd (Z.of_nat (List.length (gn_open_orders g0)))). destruct (gn_open_orders g0); [done|]. cbn [List.length] in *. lia.
  - exists o. split; [done|]. by eapply list_elem_of_lookup_2.
Qed.
Lemma cancel_advances : gn_open_orders g0 <> [] -> exists g, cancel d (gn_next_seq g0) clocked = Some g /\ advanced false g.
Proof using All.
  intros Hne. destruct (index_of_open Hne) as (o & Ho & Hin). destruct (open_bounds o Hin) as [Hoi Hou].
  destruct (last (gn_open_orders g0)) as [back|] eqn:Hl; [|by apply last_None in Hl].
  destruct (swap_out _ _ _ _ Ho Hl) as (rest & P1 & P2).
  unfold cancel. cbn [clocked gn_open_orders]. rewrite Ho. cbn [mbind option_bind]. rewrite Hl. cbn [mbind option_bind].
  eexists. split; [reflexivity|]. eexists. split; [|done].
  pose proof (ge_ids _ _ _ _ Hg) as Hids. pose proof (ge_open _ _ _ _ Hg) as Hop. rewrite P1 in Hids, Hop.
  eapply (written instruments n g0 _ evs _ Hg). 4: reflexivity.
  - done.
  - wf.
  - cbn [wrote gn_open_orders]. apply (applies_cancel _ (gn_open_orders g0)); [apply (ge_books _ _ _ _ Hg)|apply (ge_ids _ _ _ _ Hg)|]. cbn.
    etransitivity; [exact P1|]. destruct o. constructor. by symmetry.
  - apply clocked_seq.
  - cbn [wrote gn_open_orders]. rewrite P2. by apply NoDup_cons in Hids as [_ ?].
  - cbn [wrote gn_open_orders gn_next_order_id clocked]. rewrite P2. by apply Forall_cons in Hop as [_ ?].
  - cbn [wrote gn_next_order_id gn_adds_emitted clocked event_counter]. rewrite decide_False by done. cbn zeta. lia.
  - apply mid_kept.
  - apply clocked_time.
Qed.
Lemma modify_advances : gn_open_orders g0 <> [] -> exists g, modify d (gn_next_seq g0) clocked = Some g /\ advanced false g.
Proof using All.
  intros Hne. destruct (index_of_open Hne) as (o & Ho & Hin). destruct (open_bounds o Hin) as [Hoi Hou]. pose proof quantity_ok as Hq.
  destruct (moved_price _ Hoi) as (p & Hp & _ & Hb).
  unfold modify. cbn [clocked gn_open_orders gn_mid_price]. rewrite Ho. cbn [mbind option_bind]. rewrite Hp. cbn [mbind option_bind].
  eexists. split; [reflexivity|]. eexists. split; [|done]. eapply (written instruments n g0 _ evs _ Hg). 4: reflexivity.
  - done.
  - wf.
  - cbn [wrote gn_open_orders]. apply applies_modify; [apply (ge_books _ _ _ _ Hg)|cbn; lia|cbn; lia|]. by destruct o.
  - apply clocked_seq.
  - apply (ge_ids _ _ _ _ Hg).
  - apply (ge_open _ _ _ _ Hg).
  - cbn [wrote gn_next_order_id gn_adds_emitted clocked event_counter]. rewrite decide_False by done. cbn zeta. lia.
  - apply mid_kept.
  - apply clocked_time.
Qed.
Lemma trade_advances : exists g, trade d (gn_next_seq g0) clocked = Some g /\ advanced false g.
Proof using All.
  pose proof (dk_instrument _ _ Hd) as Hi. pose proof quantity_ok as Hq. destruct (moved_price _ Hi) as (p & Hp & Hs & _).
  unfold trade. cbn [clocked gn_mid_price]. rewrite Hp. cbn [mbind option_bind].
  eexists. split; [reflexivity|]. eexists. split; [|done]. eapply (written instruments n g0 _ evs _ Hg). 4: reflexivity.
  - done.
  - wf.
  - apply applies_trade, (ge_books _ _ _ _ Hg).
  - apply clocked_seq.
  - apply (ge_ids _ _ _ _ Hg).
  - apply (ge_open _ _ _ _ Hg).
  - cbn [wrote gn_next_order_id gn_adds_emitted clocked event_counter]. rewrite decide_False by done. cbn zeta. lia.
  - apply mid_kept.
  - apply clocked_time.
Qed.
Lemma clear_advances : exists g, clear d (gn_next_seq g0) clocked = Some g /\ advanced false g.
Proof using All.
  pose proof (dk_instrument _ _ Hd) as Hi. eexists. split; [reflexivity|]. eexists. split; [|done].
  eapply (written instruments n g0 _ evs _ Hg). 4: reflexivity.
  - done.
  - wf.
  - cbn [wrote gn_open_orders]. apply applies_clear, (ge_books _ _ _ _ Hg).
  - apply clocked_seq.
  - cbn [wrote gn_open_orders]. eapply sublist_NoDup; [apply (ge_ids _ _ _ _ Hg)|]. apply fmap_sublist, sublist_filter.
  - cbn [wrote gn_open_orders gn_next_order_id clocked]. apply Forall_filter_keep, (ge_open _ _ _ _ Hg).
  - cbn [wrote gn_next_order_id gn_adds_emitted clocked event_counter]. rewrite decide_False by done. cbn zeta. lia.
  - apply mid_kept.
  - apply clocked_time.
Qed.
Lemma round_advances : exists g, round d g0 = Some g /\ advanced (dr_event_kind d <? 70) g.
Proof using All.
  unfold round. fold clocked. unfold pick_kind. change (gn_open_orders clocked) with (gn_open_orders g0).
  assert (Hw : forall g, advanced true g -> advanced (dr_event_kind d <? 70) g) by (intros g (ev & H1 & H2); exists ev; auto).
  destruct (decide (gn_open_orders g0 = [])) as [E|E].
  { destruct add_advances as (g & -> & H). eauto. }
  destruct (_ <? 70) eqn:H70; [destruct add_advances as (g & -> & H); eauto|].
  destruct (_ <? 85); [by apply cancel_advances|]. destruct (_ <? 95); [by apply modify_advances|].
  destruct (_ <? 99); [apply trade_advances|apply clear_advances].
Qed.
End Round.
End GeneratorLoop.

Module FeedToolFacts.
Import FeedGenerator GeneratorFacts GeneratorRuns GeneratorLoop UdpSender.
(** ** The generator ends *)

(** In any [window] rounds in a row the engine asks for an add. *)
Definition adds_within (window : nat) (draws : nat -> Draws) : Prop :=
  forall k, exists j, (j < window)%nat /\ dr_event_kind (draws (k + j)%nat) < 70.
(** The next add is less than [w] rounds away. *)
Definition enough (window : nat) (orders : Z) (draws : nat -> Draws) (g : Generator) (fuel : nat) : Prop :=
  gn_adds_emitted g < orders -> exists w,
    (exists j, (j < w)%nat /\ dr_event_kind (draws j) < 70) /\ (w + Z.to_nat (orders - gn_adds_emitted g - 1) * window <= fuel)%nat.
Lemma enough_next window orders draws g g1 fuel : adds_within window draws -> gn_adds_emitted g < orders ->
  (gn_adds_emitted g1 = gn_adds_emitted g + 1 \/ gn_adds_emitted g1 = gn_adds_emitted g /\ 70 <= dr_event_kind (draws O)) ->
  enough window orders draws g (S fuel) -> enough window orders (fun k => draws (S k)) g1 fuel.
Proof.
  intros Hwin Hlt Hg He Hlt1. destruct (He Hlt) as (w & (j & Hj & Hk) & Hf). destruct Hg as [E|[E H70]].
  - exists window. split; [destruct (Hwin 1%nat) as (j1 & ? & ?); by exists j1|].
    assert (Z.to_nat (orders - gn_adds_emitted g - 1) = S (Z.to_nat (orders - gn_adds_emitted g1 - 1))) as Er by lia.
    rewrite Er in Hf. cbn [Nat.mul] in Hf. lia.
  - exists (w - 1)%nat. split.
    + destruct j as [|j]; [lia|]. exists j. split; [lia|done].
    + rewrite E. lia.
Qed.
Lemma generate_ends instruments window orders : instruments < two32 -> forall fuel draws n g evs,
  (forall k, draws_ok instruments (draws k)) -> adds_within window draws -> generated instruments n g evs ->
  gn_adds_emitted g <= orders -> enough window orders draws g fuel -> Z.of_nat (n + fuel) <= 2 ^ 50 ->
  exists g' evs', generate fuel draws orders g = Some g' /\ generated instruments (List.length evs') g' evs' /\
    gn_adds_emitted g' = orders /\ (List.length evs' <= n + fuel)%nat.
Proof.
  intros Hi. induction fuel as [|fuel IH]; intros draws n g evs Hd Hwin Hg Ho He Hn; cbn [generate];
    destruct (Z.ltb_spec (gn_adds_emitted g) orders) as [Hlt|Hge].
  - destruct (He Hlt) as (w & (j & Hj & _) & Hf). lia.
  - exists g, evs. rewrite (ge_length _ _ _ _ Hg). split; [done|]. split; [done|]. split; [lia|lia].
  - destruct (round_advances instruments n g evs (draws O) Hg Hi ltac:(lia) (Hd O)) as (g1 & -> & ev & Hg1 & Hadd). cbn [mbind option_bind].
    pose proof (ge_adds _ _ _ _ Hg) as A0. pose proof (ge_adds _ _ _ _ Hg1) as A1. rewrite adds_in_snoc in A1.
    assert (Hk : gn_adds_emitted g1 = gn_adds_emitted g + 1 \/ gn_adds_emitted g1 = gn_adds_emitted g /\ 70 <= dr_event_kind (draws O)).
    { destruct (decide (event_counter ev = CtAdds)) as [E|E]; [left; lia|right]. split; [lia|].
      destruct (Z.ltb_spec (dr_event_kind (draws O)) 70); [|done]. by destruct E; apply Hadd. }
    destruct (IH (fun k => draws (S k)) (S n) g1 (evs ++ [ev])) as (g' & evs' & E & Hg' & Ha & Hl).
    + intros k. apply Hd.
    + intros k. destruct (Hwin (S k)) as (j1 & ? & ?). by exists j1.
    + done.
    + destruct Hk; lia.
    + by apply (enough_next window orders draws g).
    + lia.
    + exists g', evs'. split; [done|]. split; [done|]. split; [done|lia].
  - exists g, evs. rewrite (ge_length _ _ _ _ Hg). split; [done|]. split; [done|]. split; [lia|lia].
Qed.

(** ** The sender's packets *)
Section Send.
Context (takes : list byte -> bool) (batch_size : Z) (Hbs : 1 <= batch_size <= Packet.MAX_FRAMES_PER_DATAGRAM).
(** [batches] are the packets tried so far, each with the number it was
    tried under; those the socket took are numbered from 1. *)
Record sending (s : Sender) (evs : list MarketData.Event) (batches : list (Z * list MarketData.Event)) : Prop := {
  se_events : mjoin batches.*2 ++ sn_batch s = evs;
  se_batch : Z.of_nat (List.length (sn_batch s)) <= batch_size;
  se_ok : Forall batch_ok batches;
  se_sent : sn_sent s = datagrams_of (filter (fun b => takes (Packet.pack_frames b.1 b.2) = true) batches);
  se_numbers : (filter (fun b => takes (Packet.pack_frames b.1 b.2) = true) batches).*1 = seqZ 1 (Z.of_nat (List.length (sn_sent s)));
  se_sequence : sn_packet_sequence s = Z.of_nat (List.length (sn_sent s)) + 1;
  se_packets : sn_packets_sent s = Z.of_nat (List.length (sn_sent s));
  se_skipped : sn_decode_failures_skipped s = 0;
}.
Lemma sending_new : sending Sender_new [] [].
Proof using Hbs. split; try done. cbn. lia. Qed.
Lemma sent_short s evs batches : sending s evs batches -> (List.length (sn_sent s) <= List.length evs)%nat.
Proof using Type.
  intros [H1 _ H3 H4 _ _ _ _]. rewrite H4, <- H1, length_app. unfold datagrams_of. rewrite length_fmap.
  etransitivity; [apply length_filter|]. clear - H3. induction H3 as [|[k b] batches (_ & Hne & _) H IH]; [cbn; lia|].
  change (mjoin ((k, b) :: batches).*2) with (b ++ mjoin batches.*2). rewrite length_app. cbn [List.length]. cbn in Hne.
  destruct b; [done|]. cbn [List.length]. lia.
Qed.
Lemma flush_sending s evs batches : Forall MarketData.event_wf evs -> Z.of_nat (List.length evs) < two64 - 2 -> sending s evs batches ->
  exists batches', sending (flush_batch takes s) evs batches' /\ sn_batch (flush_batch takes s) = [].
Proof using Hbs.
  intros Hwf Hn Hs. pose proof (sent_short _ _ _ Hs) as Hlen. destruct Hs as [H1 H2 H3 H4 H5 H6 H7 H8].
  unfold flush_batch. destruct (decide (sn_batch s = [])) as [E|E]; [by exists batches|].
  exists (batches ++ [(sn_packet_sequence s, sn_batch s)]).
  assert (Hev : mjoin (batches ++ [(sn_packet_sequence s, sn_batch s)]).*2 = evs).
  { rewrite fmap_app, join_app. cbn [fmap list_fmap mjoin list_join snd]. by rewrite app_nil_r. }
  assert (Hok : Forall batch_ok (batches ++ [(sn_packet_sequence s, sn_batch s)])).
  { apply Forall_app. split; [done|]. constructor; [|constructor]. split; [cbn; unfold u64_ok; lia|]. split; [done|]. split; [cbn; lia|].
    cbn. rewrite <- H1 in Hwf. by apply Forall_app in Hwf as [_ ?]. }
  destruct (takes (Packet.pack_frames (sn_packet_sequence s) (sn_batch s))) eqn:Ht.
  - split; [|done]. split; cbn [sn_batch sn_sent sn_packet_sequence sn_packets_sent sn_decode_failures_skipped]; try done.
    + by rewrite app_nil_r.
    + cbn. lia.
    + rewrite filter_app, filter_cons, decide_True by done. unfold datagrams_of. rewrite fmap_app, H4. done.
    + rewrite filter_app, filter_cons, decide_True, fmap_app, H5, length_app by done. cbn [List.length fmap list_fmap fst].
      rewrite Nat2Z.inj_add, seqZ_app by lia. rewrite H6. cbn. by rewrite Z.add_comm.
    + rewrite length_app. cbn [List.length]. rewrite u64_small by lia. lia.
    + rewrite length_app. cbn [List.length]. rewrite u64_small by lia. lia.
  - split; [|done]. split; cbn [sn_batch sn_sent sn_packet_sequence sn_packets_sent sn_decode_failures_skipped]; try done.
    + by rewrite app_nil_r.
    + cbn. lia.
    + rewrite filter_app, filter_cons, decide_False by (cbn [fst snd]; congruence). by rewrite filter_nil, app_nil_r.
    + rewrite filter_app, filter_cons, decide_False by (cbn [fst snd]; congruence). by rewrite filter_nil, app_nil_r.
Qed.
Lemma take_sending s evs batches ev : Forall MarketData.event_wf (evs ++ [ev]) -> Z.of_nat (List.length (evs ++ [ev])) < two64 - 2 ->
  sending s evs batches -> Z.of_nat (List.length (sn_batch s)) < batch_size ->
  exists batches', sending (take_frame takes batch_size (inl ev) s) (evs ++ [ev]) batches' /\
    Z.of_nat (List.length (sn_batch (take_frame takes batch_size (inl ev) s))) < batch_size.
Proof using Hbs.
  intros Hwf Hn [H1 H2 H3 H4 H5 H6 H7 H8] Hb. unfold take_frame. set (s1 := {| sn_batch := sn_batch s ++ [ev] |}).
  assert (Hs1 : sending s1 (evs ++ [ev]) batches).
  { split; cbn [s1 sn_batch sn_sent sn_packet_sequence sn_packets_sent sn_decode_failures_skipped]; try done.
    - by rewrite app_assoc, H1.
    - rewrite length_app. cbn [List.length]. lia. }
  destruct (Z.leb_spec batch_size (Z.of_nat (List.length (sn_batch s1)))) as [Hle|Hlt]; [|by exists batches].
  destruct (flush_sending _ _ _ Hwf Hn Hs1) as (batches' & Hs' & E). exists batches'. split; [done|]. rewrite E. cbn. lia.
Qed.
Lemma send_events evs : Forall MarketData.event_wf evs -> forall before s batches fuel,
  Forall MarketData.event_wf before -> Z.of_nat (List.length (before ++ evs)) < two64 - 2 -> sending s before batches ->
  Z.of_nat (List.length (sn_batch s)) < batch_size -> (List.length evs < fuel)%nat ->
  exists s' batches', send_loop takes batch_size fuel (Packet.events_bytes evs) s = Some s' /\ sending s' (before ++ evs) batches' /\ sn_batch s' = [].
Proof using Hbs.
  induction 1 as [|ev evs Hev Hevs IH]; intros before s batches fuel Hwf Hn Hs Hb Hf; (destruct fuel as [|fuel]; [cbn in Hf; lia|]).
  - cbn [send_loop]. change (next_event (Packet.events_bytes [])) with (@None (MarketData.Event + MarketData.DecodeError), @nil byte).
    rewrite app_nil_r in *. destruct (flush_sending _ _ _ Hwf Hn Hs) as (batches' & Hs' & E). by exists (flush_batch takes s), batches'.
  - cbn [send_loop List.length] in *. change (Packet.events_bytes (ev :: evs)) with (MarketData.event_bytes ev ++ Packet.events_bytes evs).
    rewrite next_event_frame by done. rewrite (cons_middle ev before evs), app_assoc in Hn.
    assert (Hwf1 : Forall MarketData.event_wf (before ++ [ev])) by (apply Forall_app; split; [done|by constructor; [|constructor]]).
    destruct (take_sending s before batches ev Hwf1) as (batches1 & Hs1 & Hb1); [rewrite length_app in Hn; lia|done|done|].
    destruct (IH (before ++ [ev]) _ batches1 fuel Hwf1 Hn Hs1 Hb1) as (s' & batches' & E & H1 & H2); [lia|].
    exists s', batches'. split; [done|]. by rewrite <- app_assoc in H1.
Qed.
Lemma send_file evs : Forall MarketData.event_wf evs -> Z.of_nat (List.length evs) < two64 - 2 ->
  exists s batches, send_loop takes batch_size (S (List.length (event_file evs))) (event_file evs) Sender_new = Some s /\
    sending s evs batches /\ sn_batch s = [].
Proof using Hbs.
  intros Hwf Hn. rewrite event_file_bytes. pose proof (Packet.length_events_bytes_ge evs).
  apply (send_events evs Hwf [] Sender_new []); [constructor|done|apply sending_new|cbn; lia|lia].
Qed.
End Send.
End FeedToolFacts.

(** ** From the generator to the books *)
Module FeedTools.
Import FeedGenerator GeneratorFacts GeneratorRuns UdpSender FeedToolFacts.
Lemma receive_in_order fs evs : Forall MarketData.event_wf evs -> forall n fd M, numbered n evs -> 0 < n ->
  n + Z.of_nat (List.length evs) <= two64 -> awaits (fd_validator fd) n -> books_rep (rp_books (fd_outcome fd)) M -> counted (fd_outcome fd) ->
  exists fd' notes, receive_frames fs FeedSubscriberOptions_replay fd (inl <$> evs) = Some (fd', notes) /\ notes.*1 = evs /\
    books_rep (rp_books (fd_outcome fd')) (spec_feed M evs).1 /\ grown (List.length evs) (spec_feed M evs).2 (fd_outcome fd) (fd_outcome fd') /\
    fd_packet_errors fd' = fd_packet_errors fd.
Proof.
  induction 1 as [|ev evs Hev Hevs IH]; intros n fd M Hnum Hn0 Hn Ha Hb Hc.
  { exists fd, []. split; [done|]. split; [done|]. split; [done|]. split; [|done]. destruct Hc. unfold grown. cbn.
    rewrite !Z.add_0_r, !u64_small by done. done. }
  destruct Hnum as [Hs Hnum]. cbn [List.length] in Hn. cbn [fmap list_fmap receive_frames]. unfold receive_frame.
  destruct (frame_in_order fs FeedSubscriberOptions_replay ev (fd_validator fd) (fd_outcome fd) M n Hs ltac:(lia) Ha Hb Hc)
    as (o1 & -> & Hb1 & Hc1 & G1). cbn [mbind option_bind].
  destruct (IH (n + 1) (fd_with fd {| last_seen := Some n |} o1) (spec_apply M ev).1) as (fd' & notes & E & H1 & H2 & H3 & H4); try done;
    [lia|lia|right; cbn; f_equal; lia|].
  change (list_fmap _ _ inl evs) with (@inl _ MarketData.DecodeError <$> evs). rewrite E. cbn [mbind option_bind].
  exists fd'. eexists. split; [reflexivity|]. split; [cbn; by f_equal|]. cbn [fd_outcome fd_with] in H3.
  pose proof (grown_trans _ _ _ _ _ _ _ G1 H3) as G. cbn [spec_feed List.length]. destruct (spec_apply M ev) as [M1 err]. cbn [fst snd] in *.
  destruct (spec_feed M1 evs) as [M2 k]. split; [done|]. split; [|done]. by destruct err.
Qed.

(** The books list exactly these orders. *)
Definition lists_exactly (bm : BookManager) (open : list OpenOrder) : Prop :=
  forall i id, (exists s, id ∈ OrderBook.ov_order_id <$> OrderBook.all_orders (manager_book_for bm i) s) <->
    {| op_instrument_id := i; op_order_id := id |} ∈ open.
Definition no_failure (n : nat) (stats : ReplayStats) : Prop :=
  rs_messages_processed stats = Z.of_nat n /\ rs_decode_failures stats = 0 /\ rs_sequence_failures stats = 0 /\ rs_book_errors stats = 0.
Lemma shown bm evs open : books_rep bm (spec_feed ∅ evs).1 -> mirrors_open (spec_feed ∅ evs).1 open -> lists_exactly bm open.
Proof.
  intros Hb Hm i id. rewrite <- (Hm i id). unfold holds. destruct (Hb i) as [_ Ho]. split; intros [s Hs]; exists s; [by rewrite <- Ho|by rewrite Ho].
Qed.
Lemma clean_run n o : Z.of_nat n < two64 -> grown n 0 ReplayOutcome_new o -> rp_stopped_early o = false /\ no_failure n (rp_stats o).
Proof.
  intros Hn (G1 & G2 & G3 & _ & G5 & G6). split; [done|]. unfold no_failure. rewrite G2, G3, G5, G6. cbn. rewrite Z.add_0_l, u64_small by lia. done.
Qed.
Lemma replay_generated instruments fs options ns path g evs : generated instruments (List.length evs) g evs -> Z.of_nat (List.length evs) <= 2 ^ 50 ->
  fs path = Some (gn_file g) -> exists o, run_replay fs ns path options = Some o /\ rp_stopped_early o = false /\
    no_failure (List.length evs) (rp_stats o) /\ lists_exactly (rp_books o) (gn_open_orders g).
Proof.
  intros Hg Hn Hf. rewrite (ge_file _ _ _ _ Hg) in Hf.
  destruct (replay_in_order fs options ns path evs 1 Hf (ge_wf _ _ _ _ Hg) (ge_numbered _ _ _ _ Hg)) as (o & Hr & Hb & G); [lia|lia|].
  rewrite (ge_errors _ _ _ _ Hg) in G. destruct (clean_run (List.length evs) _ ltac:(lia) G) as [C1 C2].
  eexists. split; [exact Hr|]. split; [done|]. split; [done|]. apply (shown _ evs); [done|apply (ge_books _ _ _ _ Hg)].
Qed.
Lemma receive_sent instruments fs takes batch_size s batches g evs : 1 <= batch_size <= Packet.MAX_FRAMES_PER_DATAGRAM ->
  generated instruments (List.length evs) g evs -> Z.of_nat (List.length evs) <= 2 ^ 50 ->
  sending takes batch_size s evs batches -> sn_batch s = [] -> (forall d, takes d = true) ->
  exists fd notes, receive_batch fs FeedSubscriberOptions_replay FeedSubscriber_new (sn_sent s) = Some (fd, notes) /\ notes.*1 = evs /\
    fd_packet_errors fd = 0 /\ no_failure (List.length evs) (rp_stats (fd_outcome fd)) /\
    lists_exactly (rp_books (fd_outcome fd)) (gn_open_orders g).
Proof.
  intros Hbs Hg Hn [H1 _ H3 H4 _ _ _ _] He Ht. rewrite He, app_nil_r in H1.
  assert (Hall : filter (fun b => takes (Packet.pack_frames b.1 b.2) = true) batches = batches).
  { clear - Ht. induction batches as [|b l IH]; [done|]. rewrite filter_cons, decide_True by apply Ht. by rewrite IH. }
  rewrite H4, Hall. unfold receive_batch. rewrite receive_packed by done. rewrite H1. set (fd0 := {| fd_validator := _ |}).
  destruct (receive_in_order fs evs (ge_wf _ _ _ _ Hg) 1 fd0 ∅ (ge_numbered _ _ _ _ Hg)) as (fd & notes & Hr & R1 & R2 & R3 & R4);
    [lia|lia|by left|apply new_books_rep|by split; split|].
  rewrite (ge_errors _ _ _ _ Hg) in R3. destruct (clean_run (List.length evs) _ ltac:(lia) R3) as [_ C2].
  exists fd, notes. split; [exact Hr|]. split; [done|]. split; [done|]. split; [done|].
  apply (shown _ evs); [done|apply (ge_books _ _ _ _ Hg)].
Qed.
End FeedTools.
(** ** apps/market_simulator: its participants and configurations *)
Module Simulator.
Import HostAndNumbers SimulatorArgs.
(** What the strategies are configured with. *)
Definition walk_config (a : Args SimulatorArgs.Number) : ReferencePriceWalkConfig :=
  {| rw_initial_price := number a InitialPrice; rw_step_size := number a WalkStep;
     rw_min_price := Z.quot (number a InitialPrice) 2; rw_max_price := Z.quot (s64 (number a InitialPrice * 3)) 2 |}.
Definition mm_config (a : Args SimulatorArgs.Number) : LadderMarketMakerConfig :=
  {| lm_instrument_id := number a InstrumentIdOf; lm_levels_per_side := Z.to_nat (number a MmLevels); lm_half_spread := number a MmHalfSpread;
     lm_level_spacing := number a MmLevelSpacing; lm_quote_size := number a MmQuoteSize; lm_max_position := number a MmMaxPosition;
     lm_requote_threshold := number a WalkStep |}.
Definition momentum_config (a : Args SimulatorArgs.Number) : MomentumStrategyConfig :=
  {| ms_instrument_id := number a InstrumentIdOf; ms_lookback := number a MomentumLookback; ms_entry_threshold := number a MomentumThreshold;
     ms_trade_size := number a MomentumTradeSize; ms_max_position := number a MomentumMaxPosition; ms_cross_slack := number a WalkStep;
     ms_cooldown_updates := number a MomentumCooldown |}.

(** A participant's counters: every request that reached the socket. *)
Record Requests := { new_orders : Z; replaces : Z; cancels : Z }.
Definition Requests_zero : Requests := {| new_orders := 0; replaces := 0; cancels := 0 |}.
Definition count_request (r : Requests) (message : OrderEntry.Message) : Requests :=
  match message with
  | OrderEntry.MsgNewOrder _ => {| new_orders := u64 (new_orders r + 1); replaces := replaces r; cancels := cancels r |}
  | OrderEntry.MsgReplaceOrder _ => {| new_orders := new_orders r; replaces := u64 (replaces r + 1); cancels := cancels r |}
  | OrderEntry.MsgCancelOrder _ => {| new_orders := new_orders r; replaces := replaces r; cancels := u64 (cancels r + 1) |}
  | _ => r
  end.
Definition orders_sent (r : Requests) : Z := u64 (new_orders r + replaces r).
Definition requests_sent (r : Requests) : Z := u64 (orders_sent r + cancels r).
(** The sender the order management system is given. *)
Definition participant_send (client : OrderEntryClient) (r : Requests) (message : OrderEntry.Message) (answers : list IoAnswer)
    : OrderEntryClient * Requests * bool :=
  let (client, sent) := OrderEntryClient.send client message answers in
  (client, if sent then count_request r message else r, sent).

(** Thousands separators. *)
Fixpoint grouped (leading i : nat) (digits : string) : string :=
  match digits with
  | EmptyString => EmptyString
  | String c digits =>
      let rest := String c (grouped leading (S i) digits) in
      if (leading <=? i)%nat && ((i - leading) mod 3 =? 0)%nat then String ","%char rest else rest
  end.
Definition format_count (value : Z) : string :=
  let digits := pretty value in
  let leading := if (String.length digits mod 3 =? 0)%nat then 3%nat else (String.length digits mod 3)%nat in
  grouped leading 0 digits.
Fixpoint without_commas (s : string) : string :=
  match s with
  | EmptyString => EmptyString
  | String c s => if Ascii.eqb c ","%char then without_commas s else String c (without_commas s)
  end.

Lemma grouped_digits leading s : forall i, without_commas (grouped leading i s) = without_commas s.
Proof.
  induction s as [|c s IH]; intros i; [done|]. cbn [grouped without_commas]. destruct (_ && _); cbn [without_commas]; rewrite IH; done.
Qed.
Lemma requests_counted ms : Forall (fun m => is_Some (inbound_key m)) ms -> forall r, new_orders r + replaces r + cancels r + Z.of_nat (List.length ms) < two64 ->
  0 <= new_orders r -> 0 <= replaces r -> 0 <= cancels r ->
  requests_sent (foldl count_request r ms) = new_orders r + replaces r + cancels r + Z.of_nat (List.length ms).
Proof.
  induction 1 as [|m ms [k Hm] Hms IH]; intros r Hn H1 H2 H3; cbn [foldl List.length] in *.
  - unfold requests_sent, orders_sent. rewrite (u64_small (new_orders r + _)), u64_small by lia. lia.
  - destruct m; try done; (rewrite IH; cbn [count_request new_orders replaces cancels]; rewrite ?u64_small by lia; lia).
Qed.

Lemma fresh_side {X} (g : TraderRiskGatedOms X) quotes : Forall (fun q => rq_order_id q = None) quotes -> side_ok g quotes.
Proof.
  intros H. assert (E : quote_ids quotes = []) by (induction H as [|q l Hq _ IH]; [done|]; by rewrite quote_ids_cons, Hq, IH).
  split; rewrite E; constructor.
Qed.
(** What the argument checks and a sane spread buy: the ladder starts in the
    state its theorem asks for, and the momentum strategy within its bounds. *)
Lemma simulator_ready argv a : SimulatorArgs.parse_args argv = Returned (Some a) ->
  0 <= number a InitialPrice -> 0 < number a MmHalfSpread -> 0 <= number a MmLevelSpacing ->
  2 * (2 * number a InitialPrice + number a MmHalfSpread + number a MmLevels * number a MmLevelSpacing) < two63 ->
  let lm := Ladder.new (mm_config a) (walk_config a) in
  (0 < lm_levels_per_side (lm_config lm))%nat /\ ladder_ok (TraderRiskGatedOms_new 9002 TraderRiskLimits_default PnlTracker.new) lm /\
  (forall reference, rw_min_price (rw_config (lm_walk lm)) <= reference <= rw_max_price (rw_config (lm_walk lm)) ->
     ladder_fits (lm_config lm) reference) /\
  0 < ms_lookback (momentum_config a) < two64.
Proof.
  intros Hp H1 H2 H3 H4. unfold SimulatorArgs.parse_args, parsed_bind in Hp.
  destruct (parse _ _ _ _ _) as [[a1|]|] eqn:E; [|done|done]. cbn [mbind option_bind] in Hp.
  assert (Hd : forall n, CommandLine.fits (SimulatorArgs.width n) (number SimulatorArgs.Args_default n)) by (intros []; cbn; lia).
  pose proof (parse_fits _ _ _ _ argv _ a1 (Nat.lt_succ_diag_r _) Hd E) as Hf.
  destruct (number a1 MmLevels =? 0) eqn:E1; [done|]. destruct (_ <=? 0) eqn:E2; [done|]. destruct (number a1 MomentumLookback =? 0) eqn:E3; [done|].
  injection Hp as <-. pose proof (Hf MmLevels) as F1. pose proof (Hf MomentumLookback) as F2. cbn in F1, F2. cbn zeta.
  assert (Hq : 0 <= Z.quot (number a1 InitialPrice) 2 <= number a1 InitialPrice /\
    number a1 InitialPrice <= Z.quot (s64 (number a1 InitialPrice * 3)) 2 <= 2 * number a1 InitialPrice).
  { rewrite s64_small by nia. rewrite !Z.quot_div_nonneg by lia. split; split; try (apply Z.div_pos; lia).
    all: try (apply Z.div_le_upper_bound; lia). apply Z.div_le_lower_bound; lia. }
  split; [cbn; lia|]. split; [|split; [|cbn; lia]].
  - split; cbn.
    + intros id. unfold TraderRisk.order, Oms.order. cbn. rewrite lookup_empty. by intros [? [=]].
    + apply fresh_side. apply Forall_app. split; by apply Forall_replicate.
    + by rewrite !length_replicate.
    + apply Forall_app. split; by apply Forall_replicate.
    + lia.
  - intros reference Hr. cbn in Hr. split; [done|]. split; [done|]. cbn. rewrite Z2Nat.id by lia. lia.
Qed.
End Simulator.

Import FeedGenerator GeneratorFacts GeneratorRuns UdpSender FeedToolFacts FeedTools.

(** C17: the feed tools, from command line to books.  Whatever the seeded
    engine draws within its distributions, provided an add is asked for
    within every [window] rounds, the generator ends and has written as many
    adds as it was told to: every message is well formed, numbered from 1 up,
    and names orders rightly, for a replay of the file processes all of them
    without a failure and its books list exactly the orders the generator
    holds open.  The sender's packets cut that file in order, fit a datagram
    and are numbered from 1 as the socket takes them; when it takes all, the
    subscriber hears every message and its books are the same. *)
Theorem feed_tools_deliver ga sa opens draws window fs :
  0 < FeedGeneratorArgs.orders ga -> FeedGeneratorArgs.orders ga * Z.of_nat window <= 2 ^ 50 -> (0 < window)%nat ->
  0 <= FeedGeneratorArgs.seed ga < two64 -> 0 < FeedGeneratorArgs.instruments ga < two32 - 1 ->
  opens (FeedGeneratorArgs.output ga) = true ->
  (forall k, draws_ok (FeedGeneratorArgs.instruments ga) (draws k)) -> adds_within window draws ->
  UdpSenderArgs.input sa = FeedGeneratorArgs.output ga -> 0 <= UdpSenderArgs.port sa < 65536 ->
  1 <= UdpSenderArgs.batch_size sa <= Packet.MAX_FRAMES_PER_DATAGRAM ->
  exists g evs,
    FeedGenerator.main opens draws (Z.to_nat (FeedGeneratorArgs.orders ga) * window) (FeedGeneratorArgs.render ga) =
      Some (Wrote (FeedGeneratorArgs.output ga) g) /\
    gn_file g = event_file evs /\ numbered 1 evs /\ Forall MarketData.event_wf evs /\ adds_in evs = FeedGeneratorArgs.orders ga /\
    (fs (FeedGeneratorArgs.output ga) = Some (gn_file g) ->
     (forall options ns, exists o, run_replay fs ns (FeedGeneratorArgs.output ga) options = Some o /\ rp_stopped_early o = false /\
        no_failure (List.length evs) (rp_stats o) /\ lists_exactly (rp_books o) (gn_open_orders g)) /\
     (forall takes, exists s batches,
        UdpSender.main fs true takes (UdpSenderArgs.render sa) = Some (Sent s) /\ mjoin batches.*2 = evs /\
        (let taken := filter (fun b => takes (Packet.pack_frames b.1 b.2) = true) batches in
         sn_sent s = datagrams_of taken /\ taken.*1 = seqZ 1 (sn_packets_sent s)) /\
        Forall (fun d => Z.of_nat (List.length d) <= Packet.MAX_DATAGRAM_PAYLOAD) (sn_sent s) /\ sn_decode_failures_skipped s = 0 /\
        ((forall d, takes d = true) -> exists fd notes,
           receive_batch fs FeedSubscriberOptions_replay FeedSubscriber_new (sn_sent s) = Some (fd, notes) /\ notes.*1 = evs /\
           fd_packet_errors fd = 0 /\ no_failure (List.length evs) (rp_stats (fd_outcome fd)) /\
           lists_exactly (rp_books (fd_outcome fd)) (gn_open_orders g)))).
Proof.
  intros Ho How Hwin Hseed Hi Hop Hd Hadd Hin Hport Hbs.
  assert (Ho2 : FeedGeneratorArgs.orders ga <= 2 ^ 50) by nia.
  destruct (start_generated _ Hi) as (g0 & Hs0 & Hg0). assert (A0 : gn_adds_emitted g0 = 0) by apply (ge_adds _ _ _ _ Hg0).
  destruct (generate_ends (FeedGeneratorArgs.instruments ga) window (FeedGeneratorArgs.orders ga) ltac:(lia) (Z.to_nat (FeedGeneratorArgs.orders ga) * window) draws O g0 []
    Hd Hadd Hg0) as (g & evs & Hgen & Hg & Ha & Hl); [lia| |rewrite Nat.add_0_l, Nat2Z.inj_mul, Z2Nat.id by lia; done|].
  { intros _. exists window. split; [apply (Hadd O)|]. rewrite A0.
    assert (Z.to_nat (FeedGeneratorArgs.orders ga) = S (Z.to_nat (FeedGeneratorArgs.orders ga - 0 - 1))) as -> by lia. cbn [Nat.mul]. lia. }
  assert (Hn : Z.of_nat (List.length evs) <= 2 ^ 50) by nia.
  exists g, evs. unfold FeedGenerator.main. rewrite FeedGeneratorArgs.generator_parse_render by lia. cbn beta iota. rewrite Hop. cbn [negb]. rewrite Hs0.
  cbn [mbind option_bind]. rewrite Hgen. split; [done|]. split; [apply (ge_file _ _ _ _ Hg)|]. split; [apply (ge_numbered _ _ _ _ Hg)|].
  split; [apply (ge_wf _ _ _ _ Hg)|]. split; [by rewrite <- (ge_adds _ _ _ _ Hg)|]. intros Hfs. split.
  { intros options ns. by eapply replay_generated. }
  intros takes. destruct (send_file takes (UdpSenderArgs.batch_size sa) Hbs evs (ge_wf _ _ _ _ Hg)) as (s & batches & Hs & Hse & He); [lia|].
  exists s, batches. unfold UdpSender.main. change Packet.MAX_FRAMES_PER_DATAGRAM with 29 in Hbs. rewrite UdpSenderArgs.sender_parse_render by lia.
  rewrite Hin, Hfs. cbn [negb]. rewrite (ge_file _ _ _ _ Hg), Hs. split; [done|]. pose proof Hse as [H1 H2 H3 H4 H5 H6 H7 H8].
  split; [by rewrite <- H1, He, app_nil_r|]. split; [by rewrite H7|]. split; [|split; [done|]].
  - rewrite H4. apply Forall_fmap, Forall_filter_keep. eapply Forall_impl; [exact H3|]. intros b (_ & _ & Hb & _). pose proof (Packet.batch_fits b.1 b.2 Hb) as Hfit. exact Hfit.
  - intros Ht. by eapply (receive_sent _ fs takes (UdpSenderArgs.batch_size sa) s batches).
Qed.
Definition demo_draws (k : nat) : Draws :=
  {| dr_timestamp_step := 5; dr_event_kind := if Nat.even k then 10 else 80; dr_instrument := 1; dr_side := 0; dr_price_jitter := -3;
     dr_quantity := 7; dr_index := fun _ => 0 |}.
Definition demo_generator_args : FeedGeneratorArgs.Args :=
  {| FeedGeneratorArgs.output := "events.bin"; FeedGeneratorArgs.orders := 3; FeedGeneratorArgs.seed := 42; FeedGeneratorArgs.instruments := 2 |}.
Definition demo_sender_args : UdpSenderArgs.Args :=
  {| UdpSenderArgs.input := "events.bin"; UdpSenderArgs.host := "127.0.0.1"; UdpSenderArgs.port := 9000; UdpSenderArgs.batch_size := 20 |}.
(** The one file there is, is the one the generator writes. *)
Definition demo_files (path : string) : option (list byte) :=
  if decide (path = "events.bin") then
    match FeedGenerator.main (fun _ => true) demo_draws 6 (FeedGeneratorArgs.render demo_generator_args) with
    | Some (Wrote _ g) => Some (gn_file g)
    | _ => None
    end
  else None.
Lemma feed_tools_deliver_witness : exists g evs s o,
  FeedGenerator.main (fun _ => true) demo_draws 6 (FeedGeneratorArgs.render demo_generator_args) = Some (Wrote "events.bin" g) /\
  gn_file g = event_file evs /\ numbered 1 evs /\ adds_in evs = 3 /\
  run_replay demo_files 0 "events.bin" ReplayOptions_default = Some o /\ lists_exactly (rp_books o) (gn_open_orders g) /\
  UdpSender.main demo_files true (fun _ => true) (UdpSenderArgs.render demo_sender_args) = Some (Sent s).
Proof.
  assert (Hd : forall k, draws_ok 2 (demo_draws k)) by (intros k; split; cbn [demo_draws dr_timestamp_step dr_instrument dr_quantity dr_price_jitter dr_index]; lia).
  assert (Ha : adds_within 2 demo_draws).
  { intros k. destruct (Nat.even k) eqn:E.
    - exists O. split; [lia|]. rewrite Nat.add_0_r. cbn [demo_draws dr_event_kind]. by rewrite E.
    - exists 1%nat. split; [lia|]. cbn [demo_draws dr_event_kind]. by rewrite Nat.add_1_r, Nat.even_succ, <- Nat.negb_even, E. }
  destruct (feed_tools_deliver demo_generator_args demo_sender_args (fun _ => true) demo_draws 2 demo_files
    ltac:(vm_compute; reflexivity) ltac:(vm_compute; discriminate) ltac:(lia) ltac:(vm_compute; split; [discriminate|reflexivity])
    ltac:(vm_compute; split; reflexivity) eq_refl Hd Ha eq_refl ltac:(vm_compute; split; [discriminate|reflexivity])
    ltac:(vm_compute; split; discriminate)) as (g & evs & H1 & H2 & H3 & _ & H4 & H5).
  change (FeedGenerator.main (fun _ => true) demo_draws 6 (FeedGeneratorArgs.render demo_generator_args) = Some (Wrote "events.bin" g)) in H1.
  assert (Hf : demo_files "events.bin" = Some (gn_file g)) by (unfold demo_files; rewrite decide_True by done; by rewrite H1).
  destruct (H5 Hf) as [H6 H7]. destruct (H6 ReplayOptions_default 0) as (o & Ho & _ & _ & Hl).
  destruct (H7 (fun _ => true)) as (s & _ & Hs & _).
  exists g, evs, s, o. do 6 (split; [assumption|]). assumption.
Defined.
