(* ===== verification/OmsClaims.v ===== *)
(** * Properties of the order management system

    The trader's view of its orders agrees with the exchange's book. *)
From S2P Require Import Prelude Types Pipeline ByteIO CommandCodec MarketDataCodec OrderEntryCodec FeedPublisher FeedHistory TickLadder SideIndex PriceQueues MatchingBook BookSpec MatchingEngine EngineSpec Directory EngineWf EngineRefine EngineProcess EngineRefinement EngineFacts EngineTheorems EngineClaims MapSums Ledger LedgerSpec LedgerSim LedgerSolvent LedgerMatch Risk Venue LedgerClaims OmsMirror GatewayReports Oms OmsDesk.

(** Handle every report on its way. *)
Definition handle_all (oms : OrderManagementSystem) (messages : list OrderEntry.Message) : OrderManagementSystem :=
  foldl (fun oms message => (handle_message oms message).1) oms messages.
Lemma handle_all_orders messages : forall oms, oms_orders (handle_all oms messages) = caught_up oms messages.
Proof.
  unfold caught_up. induction messages as [|msg messages IH]; intros oms; [done|]. cbn [handle_all foldl].
  change (foldl _ (handle_message oms msg).1 messages) with (handle_all (handle_message oms msg).1 messages).
  by rewrite IH, handle_orders.
Qed.

(** C7: the trader's orders are the exchange's.  Whatever an account's desk
    asks for, whatever everyone else does, however the messages between the
    two interleave and whichever requests the gateway loses: once the
    reports on their way are handled, the good-till-cancel orders the order
    management system holds live are exactly the account's orders resting
    in the exchange's books, with the same instrument, side, price and
    remaining quantity -- cancels, replaces and fills racing each other
    included. *)
Theorem desk_mirrors_exchange universe expected limits a d cash units id i s price remaining :
  Forall (fun id => 0 <= id) universe -> desk_reach universe expected limits a d cash units ->
  (exists o, order (handle_all (dk_oms d) (dk_down d)) id = Some o /\ is_live (co_state o) = true /\
     co_time_in_force o = GTC /\ co_instrument o = i /\ co_side o = s /\ co_price o = price /\
     co_remaining_quantity o = remaining) <->
  (0 <= i /\ exists o, o ∈ side_orders (dk_engine d) i s /\ bo_key o = (a, id) /\ bo_price o = price /\
     bo_remaining_quantity o = remaining).
Proof.
  intros Hu Hd. destruct (desk_mirror _ _ _ _ _ _ _ Hu Hd) as [Hh D].
  destruct (history_venue _ _ _ _ _ _ _ Hu Hh) as (st & sl & V).
  set (hv := {| hv_instrument_id := i; hv_side := s; hv_limit_price := price; hv_remaining := remaining |}).
  pose proof (held_iff _ _ _ _ _ _ V a id hv) as Hheld. cbn in Hheld.
  transitivity (find_hold (dk_ledger d) a id = Some hv).
  - unfold order. rewrite handle_all_orders. unfold find_hold.
    pose proof (do_mirror _ _ _ _ _ D id) as Hm. split.
    + intros (o & Ho & Hl & Ht & <- & <- & <- & <-).
      rewrite (proj2 (Hm (hold_of_client o))) by (by exists o). done.
    + destruct (lg_holds (dk_ledger d) !! (a, id)) as [h|] eqn:Hk; [|done]. intros [= E1 E2 E3 E4].
      destruct (proj1 (Hm h) eq_refl) as (o & Ho & [Hl Ht] & <-). by exists o.
  - rewrite Hheld. split; [intros (o & Hi & Ho & Hrest); split; [done|by exists o]|intros (Hi & o & Ho & Hrest); by exists o].
Qed.

(** Account 1's desk buys into account 2's resting sell. *)
Definition desk_exec (d : Desk) (b : Action) (up : list OrderEntry.Message) : Desk :=
  match act RiskLimits_default (dk_engine d) (dk_ledger d) b with
  | Some (e, lg, evs) => {| dk_oms := dk_oms d; dk_up := up; dk_engine := e; dk_ledger := lg; dk_down := dk_down d ++ reports_to 1 evs |}
  | None => d
  end.
Definition desk_request (d : Desk) (r : Request) : Desk :=
  let out := request (dk_oms d) true r in
  {| dk_oms := out.1; dk_up := dk_up d ++ sent_messages true out.2; dk_engine := dk_engine d;
     dk_ledger := dk_ledger d; dk_down := dk_down d |}.
Definition acts (d : Desk) (b : Action) : bool :=
  match act RiskLimits_default (dk_engine d) (dk_ledger d) b with Some _ => true | None => false end.
Lemma reach_request universe expected d cash units r : desk_reach universe expected RiskLimits_default 1 d cash units ->
  oms_next_client_order_id (dk_oms d) < two64 - 1 ->
  desk_reach universe expected RiskLimits_default 1 (desk_request d r) cash units.
Proof.
  intros H Hlt. unfold desk_request. destruct d as [oms up e lg down]. cbn [dk_oms dk_up dk_engine dk_ledger dk_down] in *.
  destruct (request oms true r) as [oms' out] eqn:E. by eapply dr_request.
Qed.
Lemma reach_other universe expected d cash units b : desk_reach universe expected RiskLimits_default 1 d cash units ->
  act_ok (dk_engine d) cash units b -> (forall c, b = Submit c -> command_account c <> 1) -> acts d b = true ->
  desk_reach universe expected RiskLimits_default 1 (desk_exec d b (dk_up d)) (cash + cash_in b) (units + units_in b).
Proof.
  unfold acts, desk_exec. intros H Hok Hb. destruct d as [oms up e lg down]. cbn [dk_oms dk_up dk_engine dk_ledger dk_down] in *.
  destruct (act RiskLimits_default e lg b) as [[[e' lg'] evs]|] eqn:E; [|done]. intros _. by eapply dr_other.
Qed.
Lemma reach_exchange universe expected d cash units message up cmd n :
  desk_reach universe expected RiskLimits_default 1 d cash units -> dk_up d = message :: up -> to_command message = Some cmd ->
  act_ok (dk_engine d) cash units (Submit (set_command_sequence n cmd)) -> acts d (Submit (set_command_sequence n cmd)) = true ->
  desk_reach universe expected RiskLimits_default 1 (desk_exec d (Submit (set_command_sequence n cmd)) up) cash units.
Proof.
  unfold acts, desk_exec. intros H Hup Hc Hok. destruct d as [oms up' e lg down]. cbn [dk_oms dk_up dk_engine dk_ledger dk_down] in *. subst up'.
  destruct (act RiskLimits_default e lg _) as [[[e' lg'] evs]|] eqn:E; [|done]. intros _. by eapply dr_exchange.
Qed.

Definition desk00 : Desk :=
  {| dk_oms := OrderManagementSystem_new 1; dk_up := []; dk_engine := MatchingEngine_new [7] 0; dk_ledger := Ledger_new; dk_down := [] |}.
Definition desk0 : Desk := desk_exec (desk_exec desk00 (SeedCash 1 1000) []) (SeedPosition 2 7 10) [].
Definition desk1 : Desk := desk_exec desk0 (Submit shop_sell) [].
Definition desk2 : Desk := desk_request desk1 (RqSubmit 7 Buy 101 8 Limit GTC).
Definition desk_command : ExchangeCommand := CmdNewOrder (shop_new 1 1 Buy 101 8).
Definition desk3 : Desk := desk_exec desk2 (Submit desk_command) [].

Lemma processed_to (e e' : MatchingEngine MatchingBook) st c evs : engine_wf e -> refines e st -> command_ok st c ->
  process e c = Some (e', evs) -> refines e' (spec_process st c).1.
Proof. intros W R Hc Hp. destruct (process_simulates e st c W R Hc) as (e1 & P1 & _ & R1). congruence. Qed.
Lemma act_submit_ok (e : MatchingEngine MatchingBook) st c cash units : refines e st -> command_ok st c -> priced c ->
  cash < two63 -> units < two64 -> act_ok e cash units (Submit c).
Proof. intros R Hc Hp H1 H2. unfold act_ok. cbn [cash_in units_in]. split; [lia|]. split; [lia|]. split; [exact Hp|by exists st]. Qed.
Lemma desk_acts_ok : act_ok (dk_engine desk0) 1000 10 (Submit shop_sell) /\ act_ok (dk_engine desk2) 1000 10 (Submit desk_command).
Proof.
  pose proof (new_refines (B := MatchingBook) [7] 0 ltac:(repeat constructor; lia)) as [W0 R0].
  change (MatchingEngine_new [7] 0) with (dk_engine desk0) in W0, R0.
  assert (Hc0 : command_ok (sp_new [7]) shop_sell) by (unfold command_ok, shop_sell, shop_new; solve_ok).
  assert (R1 : refines (dk_engine desk2) (spec_process (sp_new [7]) shop_sell).1).
  { eapply (processed_to (dk_engine desk0)); [exact W0|exact R0|exact Hc0|vm_compute; reflexivity]. }
  split; (eapply act_submit_ok; [eassumption| |vm_compute; reflexivity|lia|lia]); [exact Hc0|].
  unfold command_ok, desk_command, shop_new. solve_ok.
Qed.
Lemma desk_request_up : exists message, dk_up desk2 = [message] /\ to_command message = Some (set_command_sequence 0 desk_command).
Proof. eexists; split; vm_compute; reflexivity. Qed.
Lemma desk_witness_reach : desk_reach [7] 0 RiskLimits_default 1 desk3 1000 10.
Proof.
  assert (H0 : desk_reach [7] 0 RiskLimits_default 1 desk0 1000 10).
  { apply (reach_other _ _ (desk_exec desk00 (SeedCash 1 1000) []) 1000 0 (SeedPosition 2 7 10)); [|split; [cbn; lia|split; cbn; lia]|done|reflexivity].
    apply (reach_other _ _ desk00 0 0 (SeedCash 1 1000)); [constructor|split; [cbn; lia|split; cbn; lia]|done|reflexivity]. }
  assert (H1 : desk_reach [7] 0 RiskLimits_default 1 desk1 1000 10).
  { apply (reach_other _ _ desk0 1000 10 (Submit shop_sell)); [exact H0|apply desk_acts_ok|intros c [= <-]; discriminate|vm_compute; reflexivity]. }
  assert (H2 : desk_reach [7] 0 RiskLimits_default 1 desk2 1000 10) by (apply reach_request; [exact H1|vm_compute; reflexivity]).
  destruct desk_request_up as (message & Hup & Hc).
  assert (Hs : desk_command = set_command_sequence 1 (set_command_sequence 0 desk_command)) by (vm_compute; reflexivity).
  unfold desk3. rewrite Hs. apply (reach_exchange [7] 0 desk2 1000 10 message [] (set_command_sequence 0 desk_command) 1);
    [exact H2|exact Hup|exact Hc|rewrite <- Hs; apply desk_acts_ok|vm_compute; reflexivity].
Qed.
Lemma desk_mirrors_exchange_witness : dk_down desk3 <> [] /\ exists o, o ∈ side_orders (dk_engine desk3) 7 Buy /\
  bo_key o = (1, 1) /\ bo_price o = 101 /\ bo_remaining_quantity o = 3.
Proof.
  split; [vm_compute; discriminate|].
  destruct (desk_mirrors_exchange [7] 0 RiskLimits_default 1 desk3 1000 10 1 7 Buy 101 3) as [H _];
    [repeat constructor; lia|exact desk_witness_reach|].
  destruct H as (_ & o & H1 & H2 & H3 & H4); [|by exists o].
  eexists. split; [vm_compute; reflexivity|]. by repeat split.
Defined.

Lemma requests_typed message c n : OrderEntry.message_wf message -> to_command message = Some c -> u64_ok n ->
  command_wf (set_command_sequence n c).
Proof. destruct message; intros Hm [= <-] Hn; cbn in *; tauto. Qed.
Lemma reports_typed ev : FeedHistory.wire_ok ev -> Forall (fun r => OrderEntry.message_wf r.2) (to_execution_reports ev).
Proof.
  destruct ev as [ev|ev|ev|ev|ev|ev|ev|ev]; cbn; intros H; rewrite ?Forall_cons, ?Forall_nil; cbn; unfold leg_ok in *; tauto.
Qed.
(** C28: nothing is narrowed on the wire.  A request within its types makes a
    command within its types, whatever sequence number it is given; and the
    events of any admissible history of such commands fit: every execution
    report, and every market-data message published for an event at any
    clock reading, is within the types of its fields and is what the
    receiver decodes from its encoding, whatever bytes follow it. *)
Theorem wire_values_typed universe expected cmds e evs : history universe expected cmds e evs -> Forall command_wf cmds ->
  Z.of_nat (length cmds) < two64 - 1 ->
  (forall message c n, OrderEntry.message_wf message -> to_command message = Some c -> u64_ok n ->
     command_wf (set_command_sequence n c)) /\
  Forall (fun ev =>
    (forall k m rest, (k, m) ∈ to_execution_reports ev ->
       OrderEntry.message_wf m /\ OrderEntry.decode_message (OrderEntry.encode_message m [] ++ rest) = inl m) /\
    (forall now p p' m rest, FeedPublisher.publish now p ev = (p', Some m) -> u64_ok now -> u64_ok (mp_next_sequence p) ->
       MarketData.event_wf m /\ MarketData.decode_event (MarketData.encode_event m [] ++ rest) = inl m)) evs.
Proof.
  intros Hh Hc Hn. split; [apply requests_typed|]. destruct (history_feed _ _ _ _ _ Hh Hc Hn) as (_ & _ & Hw).
  eapply Forall_impl; [exact Hw|]. intros ev Hev. split.
  - intros k m rest Hin. pose proof (reports_typed ev Hev) as H. rewrite Forall_forall in H. specialize (H _ Hin). cbn in H. split; [done|].
    rewrite OrderEntry.encode_message_bytes. by apply OrderEntry.decode_message_bytes.
  - intros now p p' m rest Hp H1 H2. destruct (publish_wf now p ev p' m Hp Hev H1 H2) as [Hm _]. split; [done|].
    rewrite MarketData.encode_event_bytes. by apply MarketData.decode_event_bytes.
Qed.
Lemma wire_values_typed_witness : exists ev, ev ∈ (demo_run demo).2 /\ to_execution_reports ev <> [] /\
  Forall (fun r => OrderEntry.message_wf r.2) (to_execution_reports ev).
Proof.
  assert (Hc : Forall command_wf demo).
  { unfold demo, demo_new. repeat constructor; vm_compute; (discriminate || reflexivity). }
  destruct (wire_values_typed [7] 0 demo demo_engine (demo_run demo).2 demo_history Hc ltac:(vm_compute; reflexivity)) as [_ H].
  destruct ((demo_run demo).2) as [|ev evs] eqn:E; [vm_compute in E; discriminate|]. apply Forall_cons in H as [[H _] _].
  exists ev. split; [by left|]. split.
  - assert (Ev : head (demo_run demo).2 = Some ev) by (rewrite E; reflexivity). vm_compute in Ev. injection Ev as <-. discriminate.
  - apply Forall_forall. intros [k m] Hin. exact (proj1 (H k m [] Hin)).
Defined.
