(* ===== verification/TraderClaims.v ===== *)
(** * Properties of the trader's accounts and its risk gate *)
From S2P Require Import Prelude Types Pipeline OrderEntryCodec TickLadder SideIndex PriceQueues MatchingBook BookSpec MatchingEngine EngineSpec Directory EngineWf EngineRefine EngineProcess EngineRefinement EngineFacts EngineTheorems EngineClaims MapSums Ledger LedgerSpec LedgerSim LedgerSolvent LedgerMatch Risk Venue LedgerClaims OmsMirror GatewayReports Oms OmsDesk OmsClaims Positions TraderRisk FillReports TraderDesk.

(** C23: profit is accounted for to the tick.  Feed the fills of any number of
    accounts to the profit tracker and to a position tracker, an account's
    own within quantity Q at prices within P.  Then each instrument's signed
    position is what the position tracker's holding changed by, its turnover
    and count are the fills', and the totals at any marks sum to the change
    of the account's cash plus its net positions at those marks: the
    truncating division that splits a cost basis never loses a tick. *)
Theorem pnl_is_trading_profit Q P a fills syms (mark : InstrumentId -> Price) tracker :
  0 <= Q < two63 -> 0 <= P -> Q * P * Q < two63 -> 2 * (Q * P) < two63 ->
  fills_within Q P (filter (of_account a) fills) -> NoDup syms ->
  (forall f, f ∈ fills -> of_account a f -> fi_instrument_id f ∈ syms) ->
  let pnl := foldl PnlTracker.apply PnlTracker.new fills in
  let held := foldl PositionTracker.apply tracker fills in
  let snap i := PnlTracker.snapshot pnl a i (Some (mark i)) in
  (forall i, let own := filter (of_instrument i) (filter (of_account a) fills) in
     u64 (PositionTracker.position held a i) = u64 (PositionTracker.position tracker a i + ps_position (snap i)) /\
     ps_filled_quantity (snap i) = volume own /\ ps_fill_count (snap i) = u64 (Z.of_nat (length own))) /\
  s64 (sum_over (fun i => ps_total (snap i)) syms) =
  s64 (PositionTracker.cash held a - PositionTracker.cash tracker a + sum_over (fun i => ps_position (snap i) * mark i) syms).
Proof.
  intros HQ HP H1 H2 Hfills Hnd Hsyms. cbn zeta. set (mine := filter (of_account a) fills) in *.
  assert (Hentry : forall i, PnlTracker.entry (foldl PnlTracker.apply PnlTracker.new fills) a i =
            foldl PnlTracker.apply_to InstrumentPnl_zero (filter (of_instrument i) mine)).
  { intros i. by rewrite entry_run. }
  assert (Hok : forall i, fills_within Q P (filter (of_instrument i) mine)) by (intros i; by apply fills_within_filter).
  assert (Hsnap : forall i, let snap := PnlTracker.snapshot (foldl PnlTracker.apply PnlTracker.new fills) a i (Some (mark i)) in
    let own := filter (of_instrument i) mine in
    ps_position snap = net own /\ ps_filled_quantity snap = volume own /\ ps_fill_count snap = u64 (Z.of_nat (length own)) /\
    s64 (ps_total snap) = s64 (flow own + net own * mark i)).
  { intros i. cbn zeta. destruct (snapshot_entry (foldl PnlTracker.apply PnlTracker.new fills) a i (Some (mark i))) as (E1 & _ & E3 & E4 & E5 & E6).
    rewrite Hentry in E1, E3, E4, E5, E6. destruct (entry_of_fills Q P _ HQ HP H1 H2 (Hok i)) as [F1 F2 _ F4 _].
    destruct (counts_of_fills (filter (of_instrument i) mine)) as [C1 C2]. rewrite E1, E3, E4, E6, E5, C1, C2, F1.
    split; [done|]. split; [apply u64_small; lia|]. split; [done|].
    rewrite s64_idemp, s64_add_idemp_r, <- s64_add_idemp_r, s64_sub_idemp_l, s64_add_idemp_r. f_equal. lia. }
  split.
  - intros i. destruct (Hsnap i) as (-> & -> & -> & _). split; [apply tracker_position|done].
  - etransitivity; [apply (s64_sum _ (fun i => flow (filter (of_instrument i) mine) + net (filter (of_instrument i) mine) * mark i)); apply Hsnap|].
    rewrite sum_over_plus, flow_by_instrument by (try done; intros f [Hf Hm]%list_elem_of_filter; by apply Hsyms).
    rewrite (sum_over_ext (fun i => net _ * mark i) (fun i => ps_position (PnlTracker.snapshot (foldl PnlTracker.apply PnlTracker.new fills) a i (Some (mark i))) * mark i))
      by (intros i _; by destruct (Hsnap i) as (-> & _)).
    rewrite <- s64_add_idemp_l. set (n := sum_over _ syms). pose proof (tracker_cash fills a tracker) as Hc. fold mine in Hc.
    rewrite <- (s64_add_idemp_l (_ - _)). f_equal. f_equal. rewrite <- s64_sub_idemp_l, Hc, s64_sub_idemp_l. f_equal. lia.
Qed.
Definition fill_at (a : AccountId) (i : InstrumentId) (s : Side) (price : Price) (quantity : Quantity) : Fill :=
  {| fi_account_id := a; fi_client_order_id := 1; fi_instrument_id := i; fi_side := s; fi_price := price; fi_quantity := quantity |}.
Definition round_trip : list Fill :=
  [fill_at 1 7 Buy 100 1; fill_at 1 7 Buy 101 2; fill_at 2 7 Sell 101 2; fill_at 1 7 Sell 103 2; fill_at 1 8 Sell 50 1;
   fill_at 1 7 Sell 99 4].
Lemma pnl_is_trading_profit_witness :
  let pnl := foldl PnlTracker.apply PnlTracker.new round_trip in
  ps_position (PnlTracker.snapshot pnl 1 7 (Some 105)) = -3 /\ ps_realized (PnlTracker.snapshot pnl 1 7 (Some 105)) = 3 /\
  s64 (sum_over (fun i => ps_total (PnlTracker.snapshot pnl 1 i (Some 105))) [7; 8]) = s64 (350 + (-3 * 105 + (-1 * 105 + 0))).
Proof.
  split; [vm_compute; reflexivity|]. split; [vm_compute; reflexivity|].
  destruct (pnl_is_trading_profit 100 1000 1 round_trip [7; 8] (fun _ => 105) PositionTracker.new) as [_ H].
  - lia.
  - lia.
  - lia.
  - lia.
  - split; [repeat constructor; vm_compute; discriminate|vm_compute; discriminate].
  - repeat constructor; set_solver.
  - intros f Hf _. unfold round_trip in Hf. repeat (apply elem_of_cons in Hf as [->|Hf]; [set_solver|]). by apply not_elem_of_nil in Hf.
  - etransitivity; [exact H|vm_compute; reflexivity].
Defined.
(** The slice is taken by multiplying first, in 64 bits: closing four million
    units bought at 2000000 ticks, at the same price, realizes a profit. *)
Example basis_product_overflows :
  let pnl := foldl PnlTracker.apply_to InstrumentPnl_zero [fill_at 1 7 Buy 2000000 4000000; fill_at 1 7 Sell 2000000 4000000] in
  pn_position pnl = 0 /\ pn_realized pnl = 9223372036854.
Proof. vm_compute. split; reflexivity. Qed.

(** C8: the trader's books are the exchange's.  Whatever the trader asks for
    through its risk gate, whatever others do, however messages interleave
    and whichever requests the gateway loses: once the reports on their way
    are handled, the gate's cash and every position are exactly the
    account's totals in the exchange's ledger. *)
Theorem tracker_mirrors_ledger {X : Type} (extra : option (X -> PositionTracker.t -> Fill -> X)) universe expected limits own observer
    a t cash units i : Forall (fun id => 0 <= id) universe ->
  trader_reach extra universe expected limits own observer a t cash units ->
  let g := foldl (fun g message => (TraderRisk.handle_message extra g message).1) (tr_gate t) (tr_down t) in
  TraderRisk.cash g = cash_total (balances (tr_ledger t) a) /\
  TraderRisk.position g i = default 0 (position_total (balances (tr_ledger t) a) !! i).
Proof.
  intros Hu H. destruct t as [g up e lg down]. cbn zeta. cbn [tr_gate tr_down tr_ledger]. revert g H.
  induction down as [|message down IH]; intros g H; cbn [foldl]; [|by eapply IH, tr_handle].
  destruct (trader_follows extra _ _ _ _ _ _ _ _ _ Hu H) as [[Ha _] [H1 H2]]. cbn [tr_gate tr_ledger] in *.
  unfold TraderRisk.cash, TraderRisk.position. rewrite Ha. split; [exact H1|exact (H2 i)].
Qed.

Definition watch_pnl : option (PnlTracker.t -> PositionTracker.t -> Fill -> PnlTracker.t) :=
  Some (fun pnl _ f => PnlTracker.apply pnl f).
(** The trader of OmsClaims.v's desk. *)
Definition trader_at (g : TraderRiskGatedOms PnlTracker.t) (d : Desk) : Trader PnlTracker.t :=
  {| tr_gate := g; tr_up := dk_up d; tr_engine := dk_engine d; tr_ledger := dk_ledger d; tr_down := dk_down d |}.
Definition gate0 : TraderRiskGatedOms PnlTracker.t :=
  TraderRisk.deposit_cash (TraderRiskGatedOms_new 1 TraderRiskLimits_default PnlTracker.new) 1000.
Definition gate1 : TraderRiskGatedOms PnlTracker.t := (gate_request watch_pnl gate0 true (RqSubmit 7 Buy 101 8 Limit GTC)).1.
Abbreviation shop_trader := (trader_reach watch_pnl [7] 0 RiskLimits_default TraderRiskLimits_default PnlTracker.new 1).
Lemma act_desk d b up : acts d b = true -> exists e lg evs, act RiskLimits_default (dk_engine d) (dk_ledger d) b = Some (e, lg, evs) /\
  desk_exec d b up = {| dk_oms := dk_oms d; dk_up := up; dk_engine := e; dk_ledger := lg; dk_down := dk_down d ++ reports_to 1 evs |}.
Proof.
  unfold acts, desk_exec. destruct (act _ _ _ b) as [[[e lg] evs]|]; [|done]. intros _. by exists e, lg, evs.
Qed.
Lemma trader_other g d cash units b : shop_trader (trader_at g d) cash units -> act_ok (dk_engine d) cash units b ->
  acts_for b <> 1 -> acts d b = true -> shop_trader (trader_at g (desk_exec d b (dk_up d))) (cash + cash_in b) (units + units_in b).
Proof.
  intros H Hok Hb Ha. destruct (act_desk d b (dk_up d) Ha) as (e & lg & evs & Hact & ->). by eapply tr_other.
Qed.
Lemma trader_witness_reach : shop_trader (trader_at gate0 desk1) 1000 10 /\ shop_trader (trader_at gate1 desk3) 1000 10.
Proof.
  assert (H0 : shop_trader (trader_at gate0 desk0) 1000 10).
  { apply (trader_other _ (desk_exec desk00 (SeedCash 1 1000) []) 1000 0 (SeedPosition 2 7 10)); [|split; [cbn; lia|split; cbn; lia]|done|reflexivity].
    change 1000 with (0 + 1000) at 2. eapply tr_seed_cash; [constructor|split; [cbn; lia|split; cbn; lia]|reflexivity]. }
  assert (H1 : shop_trader (trader_at gate0 desk1) 1000 10).
  { apply (trader_other _ desk0 1000 10 (Submit shop_sell)); [exact H0|apply desk_acts_ok|done|vm_compute; reflexivity]. }
  split; [exact H1|]. assert (H2 : shop_trader (trader_at gate1 desk2) 1000 10).
  { unfold trader_at. replace (dk_up desk2) with ([] ++ sent_messages true (gate_request watch_pnl gate0 true (RqSubmit 7 Buy 101 8 Limit GTC)).2)
      by (vm_compute; reflexivity).
    change (dk_engine desk2) with (dk_engine desk1). change (dk_ledger desk2) with (dk_ledger desk1). change (dk_down desk2) with (dk_down desk1).
    eapply tr_request; [exact H1|vm_compute; reflexivity|]. apply surjective_pairing. }
  destruct desk_request_up as (message & Hup & Hc).
  assert (Hs : desk_command = set_command_sequence 1 (set_command_sequence 0 desk_command)) by (vm_compute; reflexivity).
  destruct (act_desk desk2 (Submit desk_command) [] ltac:(vm_compute; reflexivity)) as (e & lg & evs & Hact & Hd).
  unfold desk3, trader_at. rewrite Hd. cbn [dk_up dk_engine dk_ledger dk_down].
  eapply tr_exchange; [|exact Hc|rewrite <- Hs; apply desk_acts_ok|rewrite <- Hs; exact Hact].
  unfold trader_at in H2. by rewrite Hup in H2.
Qed.
Lemma tracker_mirrors_ledger_witness :
  let g := foldl (fun g message => (TraderRisk.handle_message watch_pnl g message).1) gate1 (dk_down desk3) in
  TraderRisk.position g 7 = 5 /\ TraderRisk.cash g = cash_total (balances (dk_ledger desk3) 1).
Proof.
  split; [vm_compute; reflexivity|].
  apply (tracker_mirrors_ledger watch_pnl [7] 0 RiskLimits_default TraderRiskLimits_default PnlTracker.new 1 (trader_at gate1 desk3) 1000 10 7);
    [repeat constructor; lia|apply trader_witness_reach].
Defined.

(** Both checks are this decision, on different amounts. *)
Definition affordable (cap cash units : Z) (s : Side) (p q : Z) : RejectReason.t :=
  if cap <? q then RejectReason.OrderTooLarge
  else match s with
       | Buy => if cash <? q * p then RejectReason.InsufficientFunds else RejectReason.None
       | Sell => if units <? q then RejectReason.InsufficientPosition else RejectReason.None
       end.
Lemma affordable_less cap c u c' u' s p q : c' <= c -> u' <= u -> affordable cap c u s p q <> RejectReason.None ->
  affordable cap c' u' s p q = affordable cap c u s p q.
Proof. intros Hc Hu. unfold affordable. destruct (cap <? q), s; try done; repeat case_match; done || lia. Qed.
Lemma no_holds_reserve_nothing lg sl a i : tracks lg sl -> (forall c, find_hold lg a c = None) ->
  reserved_cash (sl_holds sl) a = 0 /\ reserved_units (sl_holds sl) a i = 0.
Proof.
  intros T Hn. unfold reserved_cash, reserved_units. rewrite <- (tk_holds _ _ T).
  split; apply msum_zero; intros [a' c] h Hk; cbn; case_decide as E; try done; subst a'; specialize (Hn c); unfold find_hold in Hn; by rewrite Hk in Hn.
Qed.

(** C22: where the two size caps judge a quantity alike, the gate is never
    stricter than the exchange, and exact when nothing is open.  For a trader
    with every report handled and an order worth less than 2^63: what the gate
    refuses is sent nowhere and leaves no trace; a quantity above the trader's
    own cap is refused as too large, whatever the exchange's cap is; and if
    both caps or neither refuse the quantity, an order the gate refuses would
    be refused by the exchange for the same reason, and with no order of the
    account resting the two checks answer alike. *)
Theorem gate_agrees_with_exchange {X : Type} (extra : option (X -> PositionTracker.t -> Fill -> X)) universe expected limits own observer
    a t cash units n id i s p q ty tif sent : Forall (fun id => 0 <= id) universe ->
  trader_reach extra universe expected limits own observer a t cash units -> tr_down t = [] ->
  0 <= q -> 0 < p -> q * p < two63 ->
  let r := check own a i s p q (tg_positions (tr_gate t)) in
  let exchange := check_new_order limits {| noc_command_sequence := n; noc_account_id := a; noc_client_order_id := id;
    noc_instrument_id := i; noc_side := s; noc_price := p; noc_quantity := q; noc_order_type := ty; noc_time_in_force := tif |}
    (tr_ledger t) in
  let caps_alike := (trl_max_order_quantity own < q <-> max_order_quantity limits < q) in
  (r <> RejectReason.None -> TraderRisk.submit_new_order extra (tr_gate t) sent i s p q ty tif =
     (tr_gate t, [], {| so_client_order_id := None; so_local_reject_reason := r |})) /\
  (trl_max_order_quantity own < q <-> r = RejectReason.OrderTooLarge) /\
  (caps_alike -> r <> RejectReason.None -> exchange = r) /\
  (caps_alike -> (forall c, find_hold (tr_ledger t) a c = None) -> exchange = r).
Proof.
  intros Hu H Hdown Hq Hp Hn. destruct (trader_follows extra _ _ _ _ _ _ _ _ _ Hu H) as [[Ha Hrisk] Hag].
  unfold settled_tracker in Hag. rewrite Hdown in Hag. destruct Hag as [Hcash Hpos]. cbn [fills_of omap list_omap foldl] in Hcash, Hpos.
  pose proof (desk_mirror _ _ _ _ _ _ _ Hu (trader_desk extra _ _ _ _ _ _ _ _ _ H)) as [Hh _]. cbn [desk_of dk_engine dk_ledger] in Hh.
  destruct (history_venue _ _ _ _ _ _ _ Hu Hh) as (st & sl & V). destruct V as [_ _ T Hs _ Htc Htu Hfc Hfu]. cbn zeta.
  pose proof (reserved_cash_range sl Hs a) as Hrc.
  pose proof (reserved_units_range sl Hs a i) as Hru.
  assert (Hgate : check own a i s p q (tg_positions (tr_gate t)) =
    affordable (trl_max_order_quantity own) (amount (sl_cash sl) a) (amount (sl_units sl) (a, i)) s p q).
  { unfold check, affordable. change (s64 (s64 q * p)) with (notional q p). rewrite (notional_exact q p), Hcash, Hpos by lia.
    by rewrite (cash_total_exact (tr_ledger t) sl), (units_total_exact (tr_ledger t) sl) by (done || lia). }
  match goal with |- context [check_new_order ?l ?c ?g] => set (exchange := check_new_order l c g) end.
  assert (Hex : exchange = affordable (max_order_quantity limits) (free_cash sl a) (free_units sl a i) s p q).
  { unfold exchange, check_new_order, affordable. cbn [noc_quantity noc_side noc_account_id noc_price noc_instrument_id].
    by rewrite (notional_exact q p), (available_cash_exact (tr_ledger t) sl), (available_position_exact (tr_ledger t) sl) by (done || lia). }
  assert (Hcaps : (trl_max_order_quantity own < q <-> max_order_quantity limits < q) -> forall c u,
    affordable (max_order_quantity limits) c u s p q = affordable (trl_max_order_quantity own) c u s p q).
  { intros Hc c u. unfold affordable. by replace (max_order_quantity limits <? q) with (trl_max_order_quantity own <? q) by lia. }
  rewrite Hex. unfold free_cash, free_units. split_and!.
  - intros Hr. unfold TraderRisk.submit_new_order. rewrite Hrisk, Ha. by rewrite bool_decide_eq_false_2.
  - rewrite Hgate. unfold affordable. destruct (Z.ltb_spec (trl_max_order_quantity own) q); [done|].
    split; [lia|]. destruct s; by case_match.
  - intros Hc Hr. rewrite Hcaps by done. rewrite Hgate in *. apply affordable_less; done || lia.
  - intros Hc Hnone. rewrite Hcaps by done. destruct (no_holds_reserve_nothing _ sl a i T Hnone) as [-> ->]. by rewrite !Z.sub_0_r, Hgate.
Qed.
Lemma gate_agrees_with_exchange_witness :
  check_new_order RiskLimits_default {| noc_command_sequence := 1; noc_account_id := 1; noc_client_order_id := 1;
    noc_instrument_id := 7; noc_side := Buy; noc_price := 101; noc_quantity := 10; noc_order_type := Limit;
    noc_time_in_force := GTC |} (dk_ledger desk1) = RejectReason.InsufficientFunds.
Proof.
  destruct (gate_agrees_with_exchange watch_pnl [7] 0 RiskLimits_default TraderRiskLimits_default PnlTracker.new 1 (trader_at gate0 desk1)
    1000 10 1 1 7 Buy 101 10 Limit GTC true) as (_ & _ & H & _);
    [repeat constructor; lia|apply trader_witness_reach|vm_compute; reflexivity|lia|lia|lia|].
  specialize (H ltac:(cbn; lia) ltac:(vm_compute; discriminate)). etransitivity; [exact H|vm_compute; reflexivity].
Defined.
