(* ===== verification/StrategyClaims.v ===== *)
(** * What the strategies guarantee

    The bounds a momentum order obeys, the prices a ladder quotes, and what
    a refused replace leaves behind. *)
From S2P Require Import Prelude Types TraderBook MapSums Ledger OrderEntryCodec Oms OmsMirror OmsDesk Positions TraderRisk TraderDesk Strategies StrategyFacts.

(** C36: every momentum order is within its configuration.  Over any run of
    book updates, whatever the books, positions and gates: an update that
    sends anything sends one immediate-or-cancel order for the configured
    instrument, of at most [trade_size], that keeps the net position within
    [max_position], priced [cross_slack] through the touch of that update;
    the midpoint moved by the entry threshold over exactly the last
    [lookback] sampled midpoints; and none of the [cooldown_updates] updates
    before it sent anything. *)
Theorem momentum_bounded {X} (extra : option (X -> PositionTracker.t -> Fill -> X)) config us k out :
  0 <= ms_lookback config < two63 -> 0 <= ms_max_position config -> 0 <= ms_trade_size config ->
  Z.of_nat (length us) < two64 -> Forall (input_ok config) us ->
  let sent := (momentum_run extra config us).2 in
  length sent = length us /\ (sent !! k = Some out -> out <> [] -> order_at config us sent k out).
Proof.
  intros H1 H2 H3 H4 Hus. cbn zeta. split; [exact (mk_outs _ _ _ _ (momentum_runs extra config H1 H2 H3 us H4 Hus))|].
  exact (orders_at extra config H1 H2 H3 us H4 Hus k out).
Qed.

(** A book with one order on each side. *)
Definition top_book (bid ask : Price) : OrderBook.OrderBook :=
  (OrderBook.add_order (OrderBook.add_order OrderBook.OrderBook_new 1 bid 10 Buy).1 2 ask 10 Sell).1.
Definition rich_gate : TraderRiskGatedOms unit :=
  TraderRisk.deposit_cash (TraderRiskGatedOms_new 1 TraderRiskLimits_default tt) 100000.
Definition trend_config : MomentumStrategyConfig :=
  {| ms_instrument_id := 7; ms_lookback := 2; ms_entry_threshold := 3; ms_trade_size := 5; ms_max_position := 7;
     ms_cross_slack := 1; ms_cooldown_updates := 0 |}.
Definition trend_at (position bid : Z) : MomentumInput unit :=
  {| mi_gate := rich_gate; mi_net_position := position; mi_sent := true; mi_instrument_id := 7; mi_book := top_book bid (bid + 2) |}.
Definition trend : list (MomentumInput unit) := [trend_at 0 100; trend_at 0 101; trend_at 0 104; trend_at 5 105; trend_at 7 110].
Definition trend_sent : list (list OmsOutput) := (momentum_run None trend_config trend).2.
Lemma fresh_gate_known {X} (g : TraderRiskGatedOms X) : oms_orders (tg_oms g) = ∅ -> ids_known g.
Proof. intros H id. unfold TraderRisk.order, Oms.order. rewrite H, lookup_empty. by intros [? [=]]. Qed.
Lemma momentum_bounded_witness :
  omap order_price (mjoin trend_sent) = [107; 108] /\
  order_at trend_config trend trend_sent 3 (default [] (trend_sent !! 3%nat)).
Proof.
  split; [vm_compute; reflexivity|].
  assert (Hin : Forall (input_ok trend_config) trend).
  { repeat constructor; solve [apply fresh_gate_known; reflexivity | cbn; lia]. }
  destruct (momentum_bounded None trend_config trend 3 (default [] (trend_sent !! 3%nat))) as [_ H];
    [cbn; lia|cbn; lia|cbn; lia|cbn; lia|exact Hin|]. apply H; vm_compute; [reflexivity|discriminate].
Defined.

(** C37: a ladder never quotes through itself.  For a ladder whose prices
    fit 64 bits at every reference of the walk ([ladder_fits]: a positive
    half spread, a spacing that is not negative) and whatever the walk draws,
    the position is and the transport answers: the reference stays in the
    walk's bounds and moves at most one step; each price sent for an ask is at
    least [half_spread] above it and for a bid as much below, so every bid of
    a cycle is below every ask of it; at a position cap that side sends no
    price; the side the reference moves away from is never quoted first.  And
    against what rests already: if the requote threshold is at most twice the
    half spread and every send of the side quoted first succeeds, a quote of
    that side that is settled afterwards is clear of every price the other
    side sends.  Neither condition can be dropped: see
    [wide_threshold_crosses] and [failed_send_crosses]. *)
Theorem ladder_never_crosses_itself {X} (extra : option (X -> PositionTracker.t -> Fill -> X)) (g : TraderRiskGatedOms X) lm direction net
    sent_bid sent_ask : ladder_ok g lm ->
  (forall reference, rw_min_price (rw_config (lm_walk lm)) <= reference <= rw_max_price (rw_config (lm_walk lm)) ->
     ladder_fits (lm_config lm) reference) ->
  -1 <= direction <= 1 -> 0 <= rw_step_size (rw_config (lm_walk lm)) /\ 2 * rw_step_size (rw_config (lm_walk lm)) < two63 -> 0 <= lm_max_position (lm_config lm) < two63 ->
  0 <= oms_next_client_order_id (tg_oms g) ->
  oms_next_client_order_id (tg_oms g) + 2 * Z.of_nat (lm_levels_per_side (lm_config lm)) < two64 - 1 ->
  let '(g', out, lm', _) := Ladder.on_quote_cycle extra lm g direction net sent_bid sent_ask in
  let config := lm_config lm in
  let reference := rw_price (lm_walk lm') in
  let rising := rw_price (lm_walk lm) <=? reference in
  let clear o := 2 * Z.abs (co_price o) < two63 in
  ladder_ok g' lm' /\ Z.abs (reference - rw_price (lm_walk lm)) <= rw_step_size (rw_config (lm_walk lm)) /\
  exists bids asks, out = (if rising then asks ++ bids else bids ++ asks) /\
    (forall p, p ∈ omap order_price bids -> p <= reference - lm_half_spread config /\ net < lm_max_position config) /\
    (forall p, p ∈ omap order_price asks -> reference + lm_half_spread config <= p /\ - lm_max_position config < net) /\
    (lm_requote_threshold config <= 2 * lm_half_spread config ->
     (rising = true -> (forall k, sent_ask k = true) ->
        forall q o p, q ∈ lm_asks lm' -> settled g' (rq_order_id q) o -> clear o -> p ∈ omap order_price bids -> p < co_price o) /\
     (rising = false -> (forall k, sent_bid k = true) ->
        forall q o p, q ∈ lm_bids lm' -> settled g' (rq_order_id q) o -> clear o -> p ∈ omap order_price asks -> co_price o < p)).
Proof.
  intros [Hk Hq [Lb La] Ht Hw] Hfits Hd Hs Hmax H0 Hfit. cbn zeta in Hw. unfold Ladder.on_quote_cycle.
  destruct (ladder_walk (lm_walk lm) (lm_config lm) direction Hfits Hd Hs Hw) as (W1 & W2 & W3).
  set (reference := rw_price (walk_step (lm_walk lm) direction)) in *. rewrite (s64_small (- _)) by lia.
  set (want_bid := fun level : nat => if lm_max_position (lm_config lm) <=? net then None else _).
  set (want_ask := fun level : nat => if net <=? - lm_max_position (lm_config lm) then None else _). apply Forall_app in Ht as [Tb Ta].
  assert (Hbid := fun k p (Hlt : (k < length (lm_bids lm))%nat) =>
    proj1 (ladder_wants _ _ net k p (Hfits reference W2) ltac:(by rewrite <- Lb))).
  assert (Hask := fun k p (Hlt : (k < length (lm_asks lm))%nat) =>
    proj2 (ladder_wants _ _ net k p (Hfits reference W2) ltac:(by rewrite <- La))).
  destruct (rw_price (lm_walk lm) <=? reference) eqn:Hrising.
  - pose proof (both_swept extra g sent_ask sent_bid want_ask want_bid _ _ Hk (side_ok_comm _ _ _ Hq) H0 ltac:(lia)) as HB.
    destruct (Ladder.update_quotes extra g (lm_asks lm) _ 0 _) as [[[g1 asks] asks'] n1].
    destruct (Ladder.update_quotes extra g1 (lm_bids lm) _ 0 _) as [[[g2 bids] bids'] n2]. destruct HB as (S1 & S2 & Hok & Hkeep).
    cbn [lm_walk lm_config lm_asks lm_bids]. fold reference. rewrite Hrising. pose proof (swept_thresholds _ _ _ _ _ _ _ S1 _ Ta) as Ta'.
    pose proof (swept_thresholds _ _ _ _ _ _ _ S2 _ Tb) as Tb'.
    split; [|split; [exact W3|exists bids, asks; split_and!; try done]].
    + split; cbn; [apply S2|by apply side_ok_comm|by rewrite (swept_length _ _ _ _ _ _ _ S1), (swept_length _ _ _ _ _ _ _ S2)|by apply Forall_app|exact W2].
    + intros p (k & Hlt & Hp)%(swept_wants _ _ _ _ _ _ _ S2). by destruct (Hbid k p Hlt Hp) as (? & ? & _).
    + intros p (k & Hlt & Hp)%(swept_wants _ _ _ _ _ _ _ S1). by destruct (Hask k p Hlt Hp) as (? & ? & _).
    + intros Hthr. split; [|done]. intros _ Hsa q o p Hin Hset Hclear (k & Hlt & Hp)%(swept_wants _ _ _ _ _ _ _ S2). destruct (Hbid k p Hlt Hp) as (Hp' & _ & _).
      destruct (swept_settled _ _ _ _ _ _ _ S1 q o Hsa Hin (Hkeep q o Hin Hset)) as (k' & p' & Hlt' & Hw' & Hd').
      destruct (Hask k' p' Hlt' Hw') as (? & _ & ?). rewrite Forall_forall in Ta'. rewrite (Ta' q Hin), abs_diff_exact in Hd' by done. lia.
  - pose proof (both_swept extra g sent_bid sent_ask want_bid want_ask _ _ Hk Hq H0 ltac:(lia)) as HB.
    destruct (Ladder.update_quotes extra g (lm_bids lm) _ 0 _) as [[[g1 bids] bids'] n1].
    destruct (Ladder.update_quotes extra g1 (lm_asks lm) _ 0 _) as [[[g2 asks] asks'] n2]. destruct HB as (S1 & S2 & Hok & Hkeep).
    cbn [lm_walk lm_config lm_asks lm_bids]. fold reference. rewrite Hrising. pose proof (swept_thresholds _ _ _ _ _ _ _ S1 _ Tb) as Tb'.
    pose proof (swept_thresholds _ _ _ _ _ _ _ S2 _ Ta) as Ta'.
    split; [|split; [exact W3|exists bids, asks; split_and!; try done]].
    + split; cbn; [apply S2|done|by rewrite (swept_length _ _ _ _ _ _ _ S1), (swept_length _ _ _ _ _ _ _ S2)|by apply Forall_app|exact W2].
    + intros p (k & Hlt & Hp)%(swept_wants _ _ _ _ _ _ _ S1). by destruct (Hbid k p Hlt Hp) as (? & ? & _).
    + intros p (k & Hlt & Hp)%(swept_wants _ _ _ _ _ _ _ S2). by destruct (Hask k p Hlt Hp) as (? & ? & _).
    + intros Hthr. split; [done|]. intros _ Hsb q o p Hin Hset Hclear (k & Hlt & Hp)%(swept_wants _ _ _ _ _ _ _ S2). destruct (Hask k p Hlt Hp) as (Hp' & _ & _).
      destruct (swept_settled _ _ _ _ _ _ _ S1 q o Hsb Hin (Hkeep q o Hin Hset)) as (k' & p' & Hlt' & Hw' & Hd').
      destruct (Hbid k' p' Hlt' Hw') as (? & _ & ?). rewrite Forall_forall in Tb'. rewrite (Tb' q Hin), abs_diff_exact in Hd' by done. lia.
Qed.
Definition ladder_config : LadderMarketMakerConfig :=
  {| lm_instrument_id := 7; lm_levels_per_side := 2; lm_half_spread := 5; lm_level_spacing := 2; lm_quote_size := 3;
     lm_max_position := 100; lm_requote_threshold := 4 |}.
Definition ladder0 : LadderMarketMaker :=
  Ladder.new ladder_config {| rw_initial_price := 100; rw_step_size := 2; rw_min_price := 50; rw_max_price := 200 |}.
Definition ladder_gate : TraderRiskGatedOms unit := TraderRisk.deposit_position rich_gate 7 50.
Lemma ladder_never_crosses_itself_witness :
  let '(g', out, lm', _) := Ladder.on_quote_cycle None ladder0 ladder_gate 1 0 (fun _ => true) (fun _ => true) in
  omap order_price out = [107; 109; 97; 95] /\ ladder_ok g' lm'.
Proof.
  assert (H0 : ladder_ok ladder_gate ladder0).
  { split; [by apply fresh_gate_known| |done|by repeat constructor|by vm_compute]. split; constructor. }
  pose proof (ladder_never_crosses_itself None ladder_gate ladder0 1 0 (fun _ => true) (fun _ => true) H0) as H.
  assert (E : omap order_price (Ladder.on_quote_cycle None ladder0 ladder_gate 1 0 (fun _ => true) (fun _ => true)).1.1.2 = [107; 109; 97; 95])
    by (vm_compute; reflexivity).
  destruct (Ladder.on_quote_cycle None ladder0 ladder_gate 1 0 _ _) as [[[g' out] lm'] n]. split; [exact E|].
  apply H; clear; try done; try lia; cbn; try lia. intros reference Hr. unfold ladder_fits. cbn. lia.
Defined.

(** A ladder of one level whose ask at 102 has been accepted while the
    position cap withheld its bid; then the reference rises by 5. *)
Definition tight_ladder (threshold : Price) : LadderMarketMaker :=
  Ladder.new {| lm_instrument_id := 7; lm_levels_per_side := 1; lm_half_spread := 2; lm_level_spacing := 2; lm_quote_size := 3;
                lm_max_position := 100; lm_requote_threshold := threshold |}
    {| rw_initial_price := 100; rw_step_size := 5; rw_min_price := 50; rw_max_price := 200 |}.
Definition ask_rests (threshold : Price) : TraderRiskGatedOms unit * LadderMarketMaker :=
  let '(g, _, lm, _) := Ladder.on_quote_cycle None (tight_ladder threshold) ladder_gate 0 100 (fun _ => true) (fun _ => true) in
  ((TraderRisk.handle_message None g (OrderEntry.MsgAccepted
      {| OrderEntry.ac_account_id := 1; OrderEntry.ac_client_order_id := 1; OrderEntry.ac_exchange_order_id := 1;
         OrderEntry.ac_instrument_id := 7; OrderEntry.ac_side := Sell; OrderEntry.ac_price := 102; OrderEntry.ac_quantity := 3; OrderEntry.ac_order_type := Limit;
         OrderEntry.ac_time_in_force := GTC |})).1, lm).
(** The bid sent next, and the ask that stays. *)
Definition crosses_itself (threshold : Price) (sent_ask : nat -> bool) : Prop :=
  let '(g, lm) := ask_rests threshold in
  let '(g', out, lm', _) := Ladder.on_quote_cycle None lm g 1 0 (fun _ => true) sent_ask in
  (exists m, OutSend (OrderEntry.MsgNewOrder m) ∈ out /\ OrderEntry.no_side m = Buy /\ OrderEntry.no_price m = 103) /\
  exists q o, q ∈ lm_asks lm' /\ settled g' (rq_order_id q) o /\ co_price o = 102.
(** A threshold of 10 is more than twice the half spread of 2. *)
Example wide_threshold_crosses : crosses_itself 10 (fun _ => true).
Proof.
  split; [eexists; split; [vm_compute; repeat (apply list_elem_of_here || apply list_elem_of_further)|split; reflexivity]|].
  eexists _, _. split; [apply (list_elem_of_lookup_2 _ 0%nat); vm_compute; reflexivity|].
  split; [eexists; split; [vm_compute; reflexivity|]; split; [vm_compute; reflexivity|split; vm_compute; reflexivity]|reflexivity].
Qed.
(** The ask's replacement could not be sent. *)
Example failed_send_crosses : crosses_itself 1 (fun _ => false).
Proof.
  split; [eexists; split; [vm_compute; repeat (apply list_elem_of_here || apply list_elem_of_further)|split; reflexivity]|].
  eexists _, _. split; [apply (list_elem_of_lookup_2 _ 0%nat); vm_compute; reflexivity|].
  split; [eexists; split; [vm_compute; reflexivity|]; split; [vm_compute; reflexivity|split; vm_compute; reflexivity]|reflexivity].
Qed.

Definition hears {X} (extra : option (X -> PositionTracker.t -> Fill -> X)) g (message : OrderEntry.Message) : TraderRiskGatedOms X :=
  (TraderRisk.handle_message extra g message).1.
Lemma hears_order {X} (extra : option (X -> PositionTracker.t -> Fill -> X)) h message z :
  TraderRisk.order (hears extra h message) z = react (oms_orders (tg_oms h)) message !! z.
Proof. rewrite <- handle_orders. unfold hears, TraderRisk.order. by destruct (gate_handle extra h message) as (-> & _). Qed.
Lemma hears_quiet {X} (extra : option (X -> PositionTracker.t -> Fill -> X)) z messages : forall h, Forall (quiet z) messages ->
  TraderRisk.order (foldl (hears extra) h messages) z = TraderRisk.order h z.
Proof.
  induction messages as [|message messages IH]; intros h Hq; [done|]. apply Forall_cons in Hq as [H1 H2].
  cbn [foldl]. rewrite IH, hears_order by done. by apply react_quiet.
Qed.

(** C38: a refused replace leaves a quote stuck.  A quote whose replace is
    sent holds the replacement's identifier from then on; the exchange's
    refusal names the original order, which goes on resting as it was.
    Whatever arrives afterwards about other orders, the quote sends nothing
    any more at any price, and withdrawing it cancels nothing. *)
Theorem rejected_replace_sticks {X} (extra : option (X -> PositionTracker.t -> Fill -> X)) (g : TraderRiskGatedOms X) q id o p rejected later :
  ids_known g -> 0 <= oms_next_client_order_id (tg_oms g) < two64 - 1 ->
  rq_order_id q = Some id -> TraderRisk.order g id = Some o -> is_live (co_state o) = true -> co_pending_action o = NoAction ->
  (abs_diff (co_price o) p <? rq_requote_threshold q) && (co_remaining_quantity o =? rq_size q) = false ->
  OrderEntry.rj_client_order_id rejected = id -> Forall (quiet (oms_next_client_order_id (tg_oms g))) later ->
  let '(g1, out, q1, ok) := Quote.update extra g q true (Some p) in
  let g2 := hears extra g1 (OrderEntry.MsgRejected rejected) in
  let g3 := foldl (hears extra) g2 later in
  ok = true /\ TraderRisk.order g2 id = Some (with_state o (co_state o) NoAction (OrderEntry.rj_reason rejected)) /\
  (forall sent desired, Quote.update extra g3 q1 sent desired = (g3, [], q1, false)) /\
  (forall sent, (Quote.withdraw extra g3 q1 sent).1.1.2 = []).
Proof.
  intros Hk Hnext Hid Ho Hl Hp Hfar Hrj Hlater. set (next := oms_next_client_order_id (tg_oms g)) in *.
  pose proof (replace_spec extra g true Hnext id o p (rq_size q) Hk Ho Hl Hp) as Hr. pose proof (Hk id (mk_is_Some _ _ Ho)) as Hlt.
  unfold Quote.update. rewrite Hid, Ho. assert (Hterm : is_terminal (co_state o) = false) by (by destruct (co_state o)).
  assert (Hfl : in_flight o = false).
  { unfold in_flight. rewrite Hp. destruct (co_state o); done. }
  rewrite Hterm, Hfl, Hfar. destruct (TraderRisk.replace_order extra g true id p (rq_size q)) as [[g1 out] new_id].
  destruct Hr as (_ & -> & _ & Ho' & Hn). destruct (Hn eq_refl) as (n & Hno & Hnp). fold next in Hno |- *.
  set (g2 := hears extra g1 (OrderEntry.MsgRejected rejected)). set (g3 := foldl (hears extra) g2 later).
  assert (H3 : TraderRisk.order g3 next = Some n).
  { unfold g3. rewrite hears_quiet by done. unfold g2. rewrite hears_order, react_quiet; [done|].
    unfold quiet, message_ids. rewrite Hrj. intros E%list_elem_of_singleton. lia. }
  split_and!; [done| | |].
  - unfold g2. rewrite hears_order. cbn [react]. rewrite Hrj. rewrite (alter_present _ _ _ _ Ho'), lookup_insert_eq.
    unfold reject_entry. f_equal. destruct o as [? ? ? ? ? ? ? ? ? ? st ? ?]; cbn in *. by destruct st.
  - intros sent desired. unfold Quote.update. cbn [rq_with rq_order_id]. rewrite H3. unfold in_flight. rewrite Hnp. done.
  - intros sent. unfold Quote.withdraw, TraderRisk.cancel_order, Oms.cancel_order, workable. cbn [rq_with rq_order_id].
    unfold TraderRisk.order, Oms.order in H3. rewrite H3, Hnp. done.
Qed.
(** A quote of 3 at 100, accepted, moved to 108, and the move refused. *)
Definition quote_gate : TraderRiskGatedOms unit :=
  let '(g, _, _, _) := Quote.update None ladder_gate (RestingQuote_new 7 Buy 3 4) true (Some 100) in
  (TraderRisk.handle_message None g (OrderEntry.MsgAccepted
     {| OrderEntry.ac_account_id := 1; OrderEntry.ac_client_order_id := 1; OrderEntry.ac_exchange_order_id := 1;
        OrderEntry.ac_instrument_id := 7; OrderEntry.ac_side := Buy; OrderEntry.ac_price := 100; OrderEntry.ac_quantity := 3; OrderEntry.ac_order_type := Limit;
        OrderEntry.ac_time_in_force := GTC |})).1.
Definition stuck_quote : RestingQuote := rq_with (RestingQuote_new 7 Buy 3 4) (Some 1).
Definition refusal : OrderEntry.Rejected :=
  {| OrderEntry.rj_account_id := 1; OrderEntry.rj_client_order_id := 1; OrderEntry.rj_instrument_id := 7;
     OrderEntry.rj_reason := RejectReason.InsufficientFunds |}.
Lemma rejected_replace_sticks_witness :
  let '(g1, out, q1, ok) := Quote.update None quote_gate stuck_quote true (Some 108) in
  let g2 := hears None g1 (OrderEntry.MsgRejected refusal) in
  omap order_price out = [108] /\ forall sent desired, Quote.update None g2 q1 sent desired = (g2, [], q1, false).
Proof.
  destruct (TraderRisk.order quote_gate 1) as [o|] eqn:Ho; [|vm_compute in Ho; discriminate].
  assert (Ho' := Ho). vm_compute in Ho'.
  assert (Hk : ids_known quote_gate).
  { assert (H : map_Forall (fun id _ => id < oms_next_client_order_id (tg_oms quote_gate)) (oms_orders (tg_oms quote_gate)))
      by (apply (bool_decide_unpack _); vm_compute; exact I). intros id [x Hx]. exact (H id x Hx). }
  pose proof (rejected_replace_sticks None quote_gate stuck_quote 1 o 108 refusal [] Hk) as H.
  assert (E : omap order_price (Quote.update None quote_gate stuck_quote true (Some 108)).1.1.2 = [108]) by (vm_compute; reflexivity).
  destruct (Quote.update None quote_gate stuck_quote true (Some 108)) as [[[g1 out] q1] ok]. split; [exact E|].
  injection Ho' as <-. apply H; [|reflexivity|exact Ho|reflexivity|reflexivity|vm_compute; reflexivity|reflexivity|constructor].
  vm_compute. split; [discriminate|reflexivity].
Defined.
