(* ===== verification/Gateway.v ===== *)
(** * The order-entry gateway: state and operations

    include/exchange/gateway/order_entry_gateway.hpp and
    src/exchange/gateway/order_entry_gateway.cpp.  A [Connection*] is the
    connection's place in [connections_], from which nothing is ever removed;
    what the socket has accepted is kept with it.  The maps guarded by
    [sessions_mutex_] are the record [Sessions].  Latency stamps are left
    out; the I/O counters are modelled.  The threads that run these
    operations are in GatewayThreads.v. *)
From S2P Require Import Prelude Types ByteIO CommandCodec OrderEntryCodec Ledger SpscQueue GatewayReports.

Definition SessionId : Type := Z.
Record GatewayOptions := {
  go_outbound_queue_capacity : Z;
  go_pending_report_capacity : Z;
  go_writer_batch : Z;
  go_enable_io_metrics : bool;
}.
(** The fields of OrderEntryIoMetrics. *)
Inductive Metric := ReadSyscalls | BytesRead | FramesDecoded | WriteSyscalls | BytesWritten | ReportsEnqueued
  | ReportsWritten | WriteErrors | OutboundDrops.
#[export] Instance Metric_eq_dec : EqDecision Metric.
Proof. solve_decision. Defined.

(** ** One connection *)
Record Socket := { so_written : list byte; so_shut_down : bool }.
Record Writer := {
  wr_buf : list byte;
  wr_offset : nat;
  wr_pending : list OrderEntry.Message;
}.
Record Connection := {
  cn_session_id : SessionId;
  cn_socket : Socket;
  cn_read_buffer : list byte;
  cn_writer : Writer;
  cn_outbound : SpscQueue OrderEntry.Message;
  cn_session_outbound : SpscQueue OrderEntry.Message;
  cn_replay_backlog : list OrderEntry.Message;
  cn_account_id : option AccountId;
  cn_closed : bool;
  cn_write_interest : bool;
  cn_dirty : bool;
}.
Definition set_cn_socket (x : Socket) (conn : Connection) : Connection :=
  {| cn_session_id := cn_session_id conn; cn_socket := x; cn_read_buffer := cn_read_buffer conn;
     cn_writer := cn_writer conn; cn_outbound := cn_outbound conn; cn_session_outbound := cn_session_outbound conn;
     cn_replay_backlog := cn_replay_backlog conn; cn_account_id := cn_account_id conn; cn_closed := cn_closed conn;
     cn_write_interest := cn_write_interest conn; cn_dirty := cn_dirty conn |}.
Definition set_cn_read_buffer (x : list byte) (conn : Connection) : Connection :=
  {| cn_session_id := cn_session_id conn; cn_socket := cn_socket conn; cn_read_buffer := x;
     cn_writer := cn_writer conn; cn_outbound := cn_outbound conn; cn_session_outbound := cn_session_outbound conn;
     cn_replay_backlog := cn_replay_backlog conn; cn_account_id := cn_account_id conn; cn_closed := cn_closed conn;
     cn_write_interest := cn_write_interest conn; cn_dirty := cn_dirty conn |}.
Definition set_cn_writer (x : Writer) (conn : Connection) : Connection :=
  {| cn_session_id := cn_session_id conn; cn_socket := cn_socket conn; cn_read_buffer := cn_read_buffer conn;
     cn_writer := x; cn_outbound := cn_outbound conn; cn_session_outbound := cn_session_outbound conn;
     cn_replay_backlog := cn_replay_backlog conn; cn_account_id := cn_account_id conn; cn_closed := cn_closed conn;
     cn_write_interest := cn_write_interest conn; cn_dirty := cn_dirty conn |}.
Definition set_cn_outbound (x : SpscQueue OrderEntry.Message) (conn : Connection) : Connection :=
  {| cn_session_id := cn_session_id conn; cn_socket := cn_socket conn; cn_read_buffer := cn_read_buffer conn;
     cn_writer := cn_writer conn; cn_outbound := x; cn_session_outbound := cn_session_outbound conn;
     cn_replay_backlog := cn_replay_backlog conn; cn_account_id := cn_account_id conn; cn_closed := cn_closed conn;
     cn_write_interest := cn_write_interest conn; cn_dirty := cn_dirty conn |}.
Definition set_cn_session_outbound (x : SpscQueue OrderEntry.Message) (conn : Connection) : Connection :=
  {| cn_session_id := cn_session_id conn; cn_socket := cn_socket conn; cn_read_buffer := cn_read_buffer conn;
     cn_writer := cn_writer conn; cn_outbound := cn_outbound conn; cn_session_outbound := x;
     cn_replay_backlog := cn_replay_backlog conn; cn_account_id := cn_account_id conn; cn_closed := cn_closed conn;
     cn_write_interest := cn_write_interest conn; cn_dirty := cn_dirty conn |}.
Definition set_cn_replay_backlog (x : list OrderEntry.Message) (conn : Connection) : Connection :=
  {| cn_session_id := cn_session_id conn; cn_socket := cn_socket conn; cn_read_buffer := cn_read_buffer conn;
     cn_writer := cn_writer conn; cn_outbound := cn_outbound conn; cn_session_outbound := cn_session_outbound conn;
     cn_replay_backlog := x; cn_account_id := cn_account_id conn; cn_closed := cn_closed conn;
     cn_write_interest := cn_write_interest conn; cn_dirty := cn_dirty conn |}.
Definition set_cn_account_id (x : option AccountId) (conn : Connection) : Connection :=
  {| cn_session_id := cn_session_id conn; cn_socket := cn_socket conn; cn_read_buffer := cn_read_buffer conn;
     cn_writer := cn_writer conn; cn_outbound := cn_outbound conn; cn_session_outbound := cn_session_outbound conn;
     cn_replay_backlog := cn_replay_backlog conn; cn_account_id := x; cn_closed := cn_closed conn;
     cn_write_interest := cn_write_interest conn; cn_dirty := cn_dirty conn |}.
Definition set_cn_closed (x : bool) (conn : Connection) : Connection :=
  {| cn_session_id := cn_session_id conn; cn_socket := cn_socket conn; cn_read_buffer := cn_read_buffer conn;
     cn_writer := cn_writer conn; cn_outbound := cn_outbound conn; cn_session_outbound := cn_session_outbound conn;
     cn_replay_backlog := cn_replay_backlog conn; cn_account_id := cn_account_id conn; cn_closed := x;
     cn_write_interest := cn_write_interest conn; cn_dirty := cn_dirty conn |}.
Definition set_cn_write_interest (x : bool) (conn : Connection) : Connection :=
  {| cn_session_id := cn_session_id conn; cn_socket := cn_socket conn; cn_read_buffer := cn_read_buffer conn;
     cn_writer := cn_writer conn; cn_outbound := cn_outbound conn; cn_session_outbound := cn_session_outbound conn;
     cn_replay_backlog := cn_replay_backlog conn; cn_account_id := cn_account_id conn; cn_closed := cn_closed conn;
     cn_write_interest := x; cn_dirty := cn_dirty conn |}.
Definition set_cn_dirty (x : bool) (conn : Connection) : Connection :=
  {| cn_session_id := cn_session_id conn; cn_socket := cn_socket conn; cn_read_buffer := cn_read_buffer conn;
     cn_writer := cn_writer conn; cn_outbound := cn_outbound conn; cn_session_outbound := cn_session_outbound conn;
     cn_replay_backlog := cn_replay_backlog conn; cn_account_id := cn_account_id conn; cn_closed := cn_closed conn;
     cn_write_interest := cn_write_interest conn; cn_dirty := x |}.

Definition Connection_new (id : SessionId) (outbound_capacity : Z) : option Connection :=
  let* outbound := SpscQueue_new outbound_capacity in
  let* session_outbound := SpscQueue_new outbound_capacity in
  Some {| cn_session_id := id; cn_socket := {| so_written := []; so_shut_down := false |}; cn_read_buffer := [];
          cn_writer := {| wr_buf := []; wr_offset := 0; wr_pending := [] |}; cn_outbound := outbound;
          cn_session_outbound := session_outbound; cn_replay_backlog := []; cn_account_id := None; cn_closed := false;
          cn_write_interest := false; cn_dirty := false |}.

(** ** The gateway *)
Record Sessions := {
  ss_account_sessions : gmap AccountId (list nat);
  ss_order_owner : gmap OrderKey nat;
  ss_pending_reports : gmap AccountId (list OrderEntry.Message);
}.
Definition set_order_owner (m : gmap OrderKey nat) (ss : Sessions) : Sessions :=
  {| ss_account_sessions := ss_account_sessions ss; ss_order_owner := m; ss_pending_reports := ss_pending_reports ss |}.
Definition set_pending_reports (m : gmap AccountId (list OrderEntry.Message)) (ss : Sessions) : Sessions :=
  {| ss_account_sessions := ss_account_sessions ss; ss_order_owner := ss_order_owner ss; ss_pending_reports := m |}.

(** [gw_wake]: a [poller_.wake()] the I/O thread has not collected yet. *)
Record Gateway := {
  gw_sessions : Sessions;
  gw_connections : list Connection;
  gw_dirty : SpscQueue nat;
  gw_dirty_overflow : bool;
  gw_wake : bool;
  gw_listen_armed : bool;
  gw_next_session_id : SessionId;
  gw_stop : bool;
  gw_metrics : Metric -> Z;
}.
Definition set_gw_sessions (x : Sessions) (gw : Gateway) : Gateway :=
  {| gw_sessions := x; gw_connections := gw_connections gw; gw_dirty := gw_dirty gw;
     gw_dirty_overflow := gw_dirty_overflow gw; gw_wake := gw_wake gw; gw_listen_armed := gw_listen_armed gw;
     gw_next_session_id := gw_next_session_id gw; gw_stop := gw_stop gw; gw_metrics := gw_metrics gw |}.
Definition set_gw_connections (x : list Connection) (gw : Gateway) : Gateway :=
  {| gw_sessions := gw_sessions gw; gw_connections := x; gw_dirty := gw_dirty gw;
     gw_dirty_overflow := gw_dirty_overflow gw; gw_wake := gw_wake gw; gw_listen_armed := gw_listen_armed gw;
     gw_next_session_id := gw_next_session_id gw; gw_stop := gw_stop gw; gw_metrics := gw_metrics gw |}.
Definition set_gw_dirty (x : SpscQueue nat) (gw : Gateway) : Gateway :=
  {| gw_sessions := gw_sessions gw; gw_connections := gw_connections gw; gw_dirty := x;
     gw_dirty_overflow := gw_dirty_overflow gw; gw_wake := gw_wake gw; gw_listen_armed := gw_listen_armed gw;
     gw_next_session_id := gw_next_session_id gw; gw_stop := gw_stop gw; gw_metrics := gw_metrics gw |}.
Definition set_gw_dirty_overflow (x : bool) (gw : Gateway) : Gateway :=
  {| gw_sessions := gw_sessions gw; gw_connections := gw_connections gw; gw_dirty := gw_dirty gw;
     gw_dirty_overflow := x; gw_wake := gw_wake gw; gw_listen_armed := gw_listen_armed gw;
     gw_next_session_id := gw_next_session_id gw; gw_stop := gw_stop gw; gw_metrics := gw_metrics gw |}.
Definition set_gw_wake (x : bool) (gw : Gateway) : Gateway :=
  {| gw_sessions := gw_sessions gw; gw_connections := gw_connections gw; gw_dirty := gw_dirty gw;
     gw_dirty_overflow := gw_dirty_overflow gw; gw_wake := x; gw_listen_armed := gw_listen_armed gw;
     gw_next_session_id := gw_next_session_id gw; gw_stop := gw_stop gw; gw_metrics := gw_metrics gw |}.
Definition set_gw_listen_armed (x : bool) (gw : Gateway) : Gateway :=
  {| gw_sessions := gw_sessions gw; gw_connections := gw_connections gw; gw_dirty := gw_dirty gw;
     gw_dirty_overflow := gw_dirty_overflow gw; gw_wake := gw_wake gw; gw_listen_armed := x;
     gw_next_session_id := gw_next_session_id gw; gw_stop := gw_stop gw; gw_metrics := gw_metrics gw |}.
Definition set_gw_stop (x : bool) (gw : Gateway) : Gateway :=
  {| gw_sessions := gw_sessions gw; gw_connections := gw_connections gw; gw_dirty := gw_dirty gw;
     gw_dirty_overflow := gw_dirty_overflow gw; gw_wake := gw_wake gw; gw_listen_armed := gw_listen_armed gw;
     gw_next_session_id := gw_next_session_id gw; gw_stop := x; gw_metrics := gw_metrics gw |}.
Definition set_gw_metrics (x : Metric -> Z) (gw : Gateway) : Gateway :=
  {| gw_sessions := gw_sessions gw; gw_connections := gw_connections gw; gw_dirty := gw_dirty gw;
     gw_dirty_overflow := gw_dirty_overflow gw; gw_wake := gw_wake gw; gw_listen_armed := gw_listen_armed gw;
     gw_next_session_id := gw_next_session_id gw; gw_stop := gw_stop gw; gw_metrics := x |}.

Definition connection (gw : Gateway) (c : nat) : option Connection := gw_connections gw !! c.
Definition on_connection (c : nat) (f : Connection -> Connection) (gw : Gateway) : Gateway :=
  set_gw_connections (alter f c (gw_connections gw)) gw.
Definition is_closed (gw : Gateway) (c : nat) : bool := default true (cn_closed <$> connection gw c).

Section Operations.
Context (options : GatewayOptions).

(** The constructor, and [start] with the answers of listen,
    set_non_blocking, is_open and add. *)
Definition OrderEntryGateway_new : option Gateway :=
  let* dirty := SpscQueue_new 65536 in
  Some {| gw_sessions := {| ss_account_sessions := ∅; ss_order_owner := ∅; ss_pending_reports := ∅ |};
          gw_connections := []; gw_dirty := dirty; gw_dirty_overflow := false; gw_wake := false;
          gw_listen_armed := false; gw_next_session_id := 1; gw_stop := false; gw_metrics := fun _ => 0 |}.
Definition start (gw : Gateway) (listening non_blocking open added : bool) : Gateway * bool :=
  if listening && non_blocking && open && added then (set_gw_listen_armed true gw, true) else (gw, false).
Definition stop (gw : Gateway) : Gateway := set_gw_wake true (set_gw_stop true gw).

Definition count (m : Metric) (n : Z) (gw : Gateway) : Gateway :=
  if go_enable_io_metrics options
  then set_gw_metrics (fun m' => if decide (m' = m) then u64 (gw_metrics gw m + n) else gw_metrics gw m') gw
  else gw.

(** ** Accepting *)
Definition pause_listen (gw : Gateway) : Gateway := set_gw_listen_armed false gw.
(** [added]: the poller's answer. *)
Definition maybe_resume_listen (gw : Gateway) (added : bool) : Gateway :=
  if gw_listen_armed gw || gw_stop gw then gw
  else if added then set_gw_listen_armed true gw else gw.
(** One socket accepted: its set_non_blocking and its poller_.add. *)
Definition accept_one (gw : Gateway) (non_blocking added : bool) : option (Gateway * bool) :=
  if negb non_blocking then Some (pause_listen gw, false)
  else
    let* conn := Connection_new (gw_next_session_id gw) (go_outbound_queue_capacity options) in
    if negb added then Some (pause_listen gw, false)
    else
      Some ({| gw_sessions := gw_sessions gw; gw_connections := gw_connections gw ++ [conn]; gw_dirty := gw_dirty gw;
               gw_dirty_overflow := gw_dirty_overflow gw; gw_wake := gw_wake gw; gw_listen_armed := gw_listen_armed gw;
               gw_next_session_id := u64 (gw_next_session_id gw + 1); gw_stop := gw_stop gw;
               gw_metrics := gw_metrics gw |}, true).

(** ** Sessions: the parts that hold sessions_mutex_ *)
Definition bind_session (c : nat) (account_id : AccountId) (gw : Gateway) : Gateway :=
  let ss := gw_sessions gw in
  let sessions := <[account_id := default [] (ss_account_sessions ss !! account_id) ++ [c]]> (ss_account_sessions ss) in
  match ss_pending_reports ss !! account_id with
  | Some pending =>
      on_connection c (set_cn_replay_backlog pending)
        (set_gw_sessions {| ss_account_sessions := sessions; ss_order_owner := ss_order_owner ss;
                            ss_pending_reports := delete account_id (ss_pending_reports ss) |} gw)
  | None =>
      set_gw_sessions {| ss_account_sessions := sessions; ss_order_owner := ss_order_owner ss;
                         ss_pending_reports := ss_pending_reports ss |} gw
  end.
Definition unbind_session (c : nat) (account_id : AccountId) (gw : Gateway) : Gateway :=
  let ss := gw_sessions gw in
  let sessions :=
    match ss_account_sessions ss !! account_id with
    | Some bound =>
        let bound := filter (fun c' => c' <> c) bound in
        if bool_decide (bound = []) then delete account_id (ss_account_sessions ss)
        else <[account_id := bound]> (ss_account_sessions ss)
    | None => ss_account_sessions ss
    end in
  set_gw_sessions {| ss_account_sessions := sessions;
                     ss_order_owner := filter (fun kv => kv.2 <> c) (ss_order_owner ss);
                     ss_pending_reports := ss_pending_reports ss |} gw.
Definition try_emplace (key : OrderKey) (c : nat) (m : gmap OrderKey nat) : gmap OrderKey nat :=
  match m !! key with Some _ => m | None => <[key := c]> m end.
Definition claim_order_ownership (c : nat) (account_id : AccountId) (message : OrderEntry.Message) (gw : Gateway) : Gateway :=
  let claim id := set_gw_sessions (set_order_owner (try_emplace (account_id, id) c (ss_order_owner (gw_sessions gw)))
                                     (gw_sessions gw)) gw in
  match message with
  | OrderEntry.MsgNewOrder m => claim (OrderEntry.no_client_order_id m)
  | OrderEntry.MsgCancelOrder m => claim (OrderEntry.co_client_order_id m)
  | OrderEntry.MsgReplaceOrder m => claim (OrderEntry.ro_original_client_order_id m)
  | _ => gw
  end.

Definition mismatch_rejection (command : ExchangeCommand) : OrderEntry.Rejected :=
  match command with
  | CmdNewOrder cmd =>
      {| OrderEntry.rj_account_id := noc_account_id cmd; OrderEntry.rj_client_order_id := noc_client_order_id cmd;
         OrderEntry.rj_instrument_id := noc_instrument_id cmd; OrderEntry.rj_reason := RejectReason.AccountMismatch |}
  | CmdCancelOrder cmd =>
      {| OrderEntry.rj_account_id := coc_account_id cmd; OrderEntry.rj_client_order_id := coc_client_order_id cmd;
         OrderEntry.rj_instrument_id := coc_instrument_id cmd; OrderEntry.rj_reason := RejectReason.AccountMismatch |}
  | CmdReplaceOrder cmd =>
      {| OrderEntry.rj_account_id := roc_account_id cmd; OrderEntry.rj_client_order_id := roc_original_client_order_id cmd;
         OrderEntry.rj_instrument_id := roc_instrument_id cmd; OrderEntry.rj_reason := RejectReason.AccountMismatch |}
  end.
(** The push; [true] when the writer is to be notified. *)
Definition reject_account_mismatch (c : nat) (command : ExchangeCommand) (gw : Gateway) : option (Gateway * bool) :=
  let* conn := connection gw c in
  let* (q, pushed) := try_push (cn_session_outbound conn) (OrderEntry.MsgRejected (mismatch_rejection command)) in
  let gw := on_connection c (set_cn_session_outbound q) gw in
  Some (if pushed then count ReportsEnqueued 1 gw else gw, pushed).

(** ** Routing *)
Definition first_open (gw : Gateway) (sessions : list nat) : option nat := head (filter (fun c => is_closed gw c = false) sessions).
Definition route_target (gw : Gateway) (key : OrderKey) : option nat :=
  let any := first_open gw (default [] (ss_account_sessions (gw_sessions gw) !! key.1)) in
  match ss_order_owner (gw_sessions gw) !! key with
  | Some c => if is_closed gw c then any else Some c
  | None => any
  end.
Definition deliver (c : nat) (message : OrderEntry.Message) (gw : Gateway) : option (Gateway * bool) :=
  let* conn := connection gw c in
  let* (q, pushed) := try_push (cn_outbound conn) message in
  let gw := on_connection c (set_cn_outbound q) gw in
  Some (if pushed then count ReportsEnqueued 1 gw else count OutboundDrops 1 gw, pushed).
(** [wake] and [wake_count]. *)
Definition add_wake (wake : list nat) (target : nat) : list nat :=
  match wake with
  | [] => [target]
  | [t] => if decide (t = target) then wake else [t; target]
  | _ => wake
  end.
(** One turn of the loop over the reports. *)
Definition route_report (key : OrderKey) (message : OrderEntry.Message) (wake : list nat) (gw : Gateway)
    : option (Gateway * list nat) :=
  match route_target gw key with
  | Some target =>
      let* (gw, pushed) := deliver target message gw in
      Some (gw, if pushed then add_wake wake target else wake)
  | None =>
      if go_pending_report_capacity options =? 0 then Some (gw, wake)
      else
        let m := ss_pending_reports (gw_sessions gw) in
        let pending := default [] (m !! key.1) in
        let pending := if go_pending_report_capacity options <=? Z.of_nat (length pending) then tail pending else pending in
        Some (set_gw_sessions (set_pending_reports (<[key.1 := pending ++ [message]]> m) (gw_sessions gw)) gw, wake)
  end.
(** [lg]: the ledger as the matching thread has it at this event. *)
Definition update_order_ownership (lg : Ledger) (event : ExchangeEvent) (gw : Gateway) : Gateway :=
  let m := ss_order_owner (gw_sessions gw) in
  let put m := set_gw_sessions (set_order_owner m (gw_sessions gw)) gw in
  match event with
  | EvOrderRejected ev =>
      match find_hold lg (orj_account_id ev) (orj_client_order_id ev) with
      | None => put (delete (orj_account_id ev, orj_client_order_id ev) m)
      | Some _ => gw
      end
  | EvOrderCancelled ev => put (delete (ocn_account_id ev, ocn_client_order_id ev) m)
  | EvOrderReplaced ev =>
      let original := (orp_account_id ev, orp_original_client_order_id ev) in
      match m !! original with
      | Some owner => put (delete original (<[(orp_account_id ev, orp_new_client_order_id ev) := owner]> m))
      | None => gw
      end
  | EvTradeExecuted ev =>
      let drop_leg m (leg : TradeCounterparty) :=
        if tcp_remaining_quantity leg =? 0 then delete (tcp_account_id leg, tcp_client_order_id leg) m else m in
      put (drop_leg (drop_leg m (te_buyer ev)) (te_seller ev))
  | _ => gw
  end.

(** ** The dirty list *)
(** The compare-exchange of [mark_dirty]; [true] when it changed the flag. *)
Definition mark_dirty (c : nat) (gw : Gateway) : option (Gateway * bool) :=
  let* conn := connection gw c in
  Some (if cn_dirty conn then (gw, false) else (on_connection c (set_cn_dirty true) gw, true)).
(** [dirty_.try_push(&conn)] access by access, as its two callers on
    different threads may be inside it at once. *)
Definition push_dirty_room (head : Z) (gw : Gateway) : option Z :=
  let tail := sq_tail (gw_dirty gw) in
  if push_full (gw_dirty gw) head tail then None else Some tail.
Definition push_dirty_construct (c : nat) (head : Z) (gw : Gateway) : option Gateway :=
  let* q := push_construct (gw_dirty gw) head c in
  Some (set_gw_dirty q gw).
Definition push_dirty_publish (head tail : Z) (gw : Gateway) : Gateway :=
  set_gw_dirty (push_publish (gw_dirty gw) head tail) gw.
Definition pop_dirty (gw : Gateway) : option (option nat * Gateway) :=
  let* (c, q) := try_pop (gw_dirty gw) in
  Some (c, set_gw_dirty q gw).

(** ** Writing *)
(** With the poller's answer to [mod]; [true] when the connection is to be
    closed. *)
Definition enable_write (c : nat) (modified : bool) (gw : Gateway) : option (Gateway * bool) :=
  let* conn := connection gw c in
  Some (if cn_closed conn || cn_write_interest conn then (gw, false)
        else if modified then (on_connection c (set_cn_write_interest true) gw, false)
        else (gw, true)).
Definition disable_write (c : nat) (modified : bool) (gw : Gateway) : option (Gateway * bool) :=
  let* conn := connection gw c in
  Some (if negb (cn_write_interest conn) then (gw, false)
        else if modified then (on_connection c (set_cn_write_interest false) gw, false)
        else (gw, true)).
Definition pop_outbound (c : nat) (gw : Gateway) : option (option OrderEntry.Message * Gateway) :=
  let* conn := connection gw c in
  match cn_replay_backlog conn with
  | message :: rest => Some (Some message, on_connection c (set_cn_replay_backlog rest) gw)
  | [] =>
      let* (session, q) := try_pop (cn_session_outbound conn) in
      match session with
      | Some message => Some (Some message, on_connection c (set_cn_session_outbound q) gw)
      | None =>
          let* (message, q) := try_pop (cn_outbound conn) in
          Some (message, on_connection c (set_cn_outbound q) gw)
      end
  end.
(** Append one message to the batch being encoded. *)
Definition encode_into (message : OrderEntry.Message) (w : Writer) : Writer :=
  {| wr_buf := OrderEntry.encode_message message (wr_buf w); wr_offset := wr_offset w;
     wr_pending := wr_pending w ++ [message] |}.
Definition Writer_clear : Writer := {| wr_buf := []; wr_offset := 0; wr_pending := [] |}.
Definition batch_limit : Z := if go_writer_batch options =? 0 then 1 else go_writer_batch options.

(** What [socket.write] answers: [n] bytes are taken, no more than the span
    has. *)
Inductive WriteResult := Wrote (n : nat) | WriteWouldBlock | WriteFailed.
Inductive WriteOutcome := WriteAgain | WriteMore | WriteBlocked | WriteClose.
Definition bytes_left (w : Writer) : list byte := drop (wr_offset w) (wr_buf w).
Definition write_some (c : nat) (r : WriteResult) (gw : Gateway) : option (Gateway * WriteOutcome) :=
  let* conn := connection gw c in
  let w := cn_writer conn in
  let gw := count WriteSyscalls 1 gw in
  match r with
  | WriteWouldBlock => Some (gw, WriteBlocked)
  | WriteFailed => Some (count WriteErrors 1 gw, WriteClose)
  | Wrote n =>
      let n := Nat.min n (length (bytes_left w)) in
      let gw := count BytesWritten (Z.of_nat n) gw in
      if (n =? 0)%nat then Some (count WriteErrors 1 gw, WriteClose)
      else
        let conn := set_cn_socket {| so_written := so_written (cn_socket conn) ++ take n (bytes_left w);
                                     so_shut_down := so_shut_down (cn_socket conn) |} conn in
        let w := {| wr_buf := wr_buf w; wr_offset := wr_offset w + n; wr_pending := wr_pending w |} in
        if (wr_offset w <? length (wr_buf w))%nat
        then Some (on_connection c (fun _ => set_cn_writer w conn) gw, WriteMore)
        else Some (on_connection c (fun _ => set_cn_writer Writer_clear conn)
                     (count ReportsWritten (Z.of_nat (length (wr_pending w))) gw), WriteAgain)
  end.

(** ** Reading *)
(** The first frame of the buffer: [None] when there is no whole one. *)
Definition next_frame (buffer : list byte) : option (list byte * list byte) :=
  match OrderEntry.decode_header buffer with
  | inr _ => None
  | inl header =>
      let frame_size := (OrderEntry.HEADER_SIZE + Z.to_nat (OrderEntry.hd_payload_size header))%nat in
      if (length buffer <? frame_size)%nat then None else Some (take frame_size buffer, drop frame_size buffer)
  end.
Definition message_account (message : OrderEntry.Message) : AccountId :=
  match message with
  | OrderEntry.MsgNewOrder m => OrderEntry.no_account_id m
  | OrderEntry.MsgCancelOrder m => OrderEntry.co_account_id m
  | OrderEntry.MsgReplaceOrder m => OrderEntry.ro_account_id m
  | OrderEntry.MsgAccepted m => OrderEntry.ac_account_id m
  | OrderEntry.MsgRejected m => OrderEntry.rj_account_id m
  | OrderEntry.MsgCancelled m => OrderEntry.cn_account_id m
  | OrderEntry.MsgReplaced m => OrderEntry.rp_account_id m
  | OrderEntry.MsgTradeReport m => OrderEntry.tr_account_id m
  end.
End Operations.
