(* ===== verification/GatewayThreads.v ===== *)
(** * The order-entry gateway: its two threads

    The I/O thread ([io_loop] and what it calls) and the matching thread
    inside [route_event], as program counters over the shared [Gateway]: a
    step is one access to shared state -- a critical section of
    [sessions_mutex_], an operation of a queue that has one producer, an
    access of [try_push] to [dirty_], which has two, an atomic flag -- with
    the thread-local work up to the next.  [route_event] holds the mutex across
    its reports, one step each; an I/O section that needs it waits.  What
    the operating system and the pipeline answer is the step's [Answers];
    the matching thread routes any event, with any ledger.  Every schedule of
    the two threads is a run, up to the point where both are inside
    [dirty_.try_push], which the ring's contract does not allow. *)
From S2P Require Import Prelude Types ByteIO CommandCodec OrderEntryCodec Ledger SpscQueue GatewayReports Gateway.

(** ** What is asked of the outside *)
Inductive IoEvent :=
| EvWake
| EvListener
| EvSession (c : nat) (readable writable broken : bool).
Inductive AcceptResult := AcWouldBlock | AcFailed | AcSocket (non_blocking added : bool).
Inductive ReadResult := ReadData (bytes : list byte) | ReadWouldBlock | ReadEnd.
(** A step consults the answer it asks for; [an_yes] is the poller's to add
    and mod and the pipeline's to submit. *)
Record Answers := {
  an_event : IoEvent;
  an_accept : AcceptResult;
  an_read : ReadResult;
  an_write : WriteResult;
  an_yes : bool;
}.

(** ** Program counters *)
(** [NfHead] to [NfPublish] are inside [dirty_.try_push], with the indices
    it has loaded. *)
Inductive NotifyPc := NfMark | NfHead | NfTail (head : Z) | NfConstruct (head tail : Z) | NfPublish (head tail : Z) | NfOverflow | NfWake.
(** Where [close_connection] and [enable_write] return to. *)
Inductive IoCont := KLoop | KDrain | KSweep (rest : list nat).
Inductive IoPc :=
| IoLoop
| IoStopped
| IoAccept
| IoRead (c : nat) (writable : bool)
| IoFrames (c : nat) (writable : bool)
| IoBind (c : nat) (writable : bool) (message : OrderEntry.Message) (command : ExchangeCommand)
| IoBound (c : nat) (writable : bool) (message : OrderEntry.Message) (command : ExchangeCommand)
| IoMismatch (c : nat) (writable : bool) (command : ExchangeCommand)
| IoNotify (n : NotifyPc) (c : nat) (writable : bool) (claim : option (OrderEntry.Message * ExchangeCommand))
| IoClaim (c : nat) (writable : bool) (message : OrderEntry.Message) (command : ExchangeCommand)
| IoSubmit (c : nat) (writable : bool) (command : ExchangeCommand)
| IoWrite (c : nat)
| IoBatch (c : nat)
| IoQuiet (c : nat)
| IoClosing (c : nat) (k : IoCont)
| IoUnbind (c : nat) (k : IoCont)
| IoClosed (c : nat) (k : IoCont)
| IoDrain
| IoUndirty (c : nat)
| IoEnable (c : nat) (k : IoCont)
| IoOverflow
| IoSweep (rest : list nat).
Definition continue (k : IoCont) : IoPc :=
  match k with KLoop => IoLoop | KDrain => IoDrain | KSweep rest => IoSweep rest end.

Inductive MtPc :=
| MtIdle
| MtRoute (reports : list (OrderKey * OrderEntry.Message)) (wake : list nat) (lg : Ledger) (event : ExchangeEvent)
| MtNotify (n : NotifyPc) (c : nat) (rest : list nat).
Definition holds_mutex (pc : MtPc) : bool := match pc with MtRoute _ _ _ _ => true | _ => false end.

Section Threads.
Context (options : GatewayOptions).

Definition notify_step (n : NotifyPc) (c : nat) (gw : Gateway) : option (Gateway * option NotifyPc) :=
  match n with
  | NfMark => let* (gw, changed) := mark_dirty c gw in Some (gw, Some (if changed : bool then NfHead else NfWake))
  | NfHead => Some (gw, Some (NfTail (sq_head (gw_dirty gw))))
  | NfTail head => Some (gw, Some (match push_dirty_room head gw with Some tail => NfConstruct head tail | None => NfOverflow end))
  | NfConstruct head tail => let* gw := push_dirty_construct c head gw in Some (gw, Some (NfPublish head tail))
  | NfPublish head tail => Some (push_dirty_publish head tail gw, Some NfWake)
  | NfOverflow => Some (set_gw_dirty_overflow true gw, Some NfWake)
  | NfWake => Some (set_gw_wake true gw, None)
  end.

(** ** The I/O thread *)
Definition loop_step (an : Answers) (gw : Gateway) : Gateway * IoPc :=
  if gw_stop gw then (gw, IoStopped)
  else
    match an_event an with
    | EvWake => (set_gw_wake false gw, IoDrain)
    | EvListener => (gw, if gw_listen_armed gw then IoAccept else IoLoop)
    | EvSession c readable writable broken =>
        (gw, if is_closed gw c then IoLoop
             else if broken then (if readable then IoRead c false else IoClosing c KLoop)
             else if readable then IoRead c writable
             else if writable then IoWrite c else IoLoop)
    end.
Definition accept_step (an : Answers) (gw : Gateway) : option (Gateway * IoPc) :=
  if gw_stop gw then Some (gw, IoLoop)
  else
    match an_accept an with
    | AcWouldBlock => Some (gw, IoLoop)
    | AcFailed => Some (pause_listen gw, IoLoop)
    | AcSocket non_blocking added =>
        let* (gw, again) := accept_one options gw non_blocking added in
        Some (gw, if again : bool then IoAccept else IoLoop)
    end.
Definition read_step (c : nat) (writable : bool) (an : Answers) (gw : Gateway) : Gateway * IoPc :=
  if is_closed gw c then (gw, IoLoop)
  else
    let gw := count options ReadSyscalls 1 gw in
    match an_read an with
    | ReadWouldBlock => (gw, if writable then IoWrite c else IoLoop)
    | ReadEnd => (gw, IoClosing c KLoop)
    | ReadData bytes =>
        let chunk := take 4096 bytes in
        let gw := count options BytesRead (Z.of_nat (length chunk)) gw in
        if bool_decide (chunk = []) then (gw, IoClosing c KLoop)
        else (on_connection c (fun conn => set_cn_read_buffer (cn_read_buffer conn ++ chunk) conn) gw, IoFrames c writable)
    end.
Definition frames_step (c : nat) (writable : bool) (gw : Gateway) : option (Gateway * IoPc) :=
  let* conn := connection gw c in
  Some
    match next_frame (cn_read_buffer conn) with
    | None => (gw, IoRead c writable)
    | Some (frame, rest) =>
        let gw := on_connection c (set_cn_read_buffer rest) gw in
        match OrderEntry.decode_message frame with
        | inr _ => (gw, IoFrames c writable)
        | inl message =>
            let gw := count options FramesDecoded 1 gw in
            match to_command message with
            | None => (gw, IoFrames c writable)
            | Some command =>
                (gw, match cn_account_id conn with
                     | None => IoBind c writable message command
                     | Some a => if a =? message_account message then IoClaim c writable message command
                                 else IoMismatch c writable command
                     end)
            end
        end
    end.
(** [enable_write] and what follows it. *)
Definition enable_step (c : nat) (k : IoCont) (an : Answers) (gw : Gateway) : option (Gateway * IoPc) :=
  let* (gw, close) := enable_write c (an_yes an) gw in
  Some (gw, if close : bool then IoClosing c k else continue k).
Definition write_step (c : nat) (an : Answers) (gw : Gateway) : option (Gateway * IoPc) :=
  let* conn := connection gw c in
  if cn_closed conn then Some (gw, IoLoop)
  else if (wr_offset (cn_writer conn) <? length (wr_buf (cn_writer conn)))%nat then
    let* (gw, outcome) := write_some options c (an_write an) gw in
    match outcome with
    | WriteAgain => Some (gw, IoWrite c)
    | WriteMore | WriteBlocked => enable_step c KLoop an gw
    | WriteClose => Some (gw, IoClosing c KLoop)
    end
  else
    let* (first, gw) := pop_outbound c gw in
    Some (match first with
          | None => (gw, IoQuiet c)
          | Some message => (on_connection c (set_cn_writer (encode_into message Writer_clear)) gw, IoBatch c)
          end).
Definition batch_step (c : nat) (gw : Gateway) : option (Gateway * IoPc) :=
  let* conn := connection gw c in
  if Z.of_nat (length (wr_pending (cn_writer conn))) <? batch_limit options then
    let* (more, gw) := pop_outbound c gw in
    Some (match more with
          | None => (gw, IoWrite c)
          | Some message => (on_connection c (set_cn_writer (encode_into message (cn_writer conn))) gw, IoBatch c)
          end)
  else Some (gw, IoWrite c).

(** The commands a step hands to the pipeline, with the session they come
    from. *)
Definition Submission : Type := nat * ExchangeCommand.
Definition quiet_step (s : option (Gateway * IoPc)) : option (Gateway * IoPc * list Submission) :=
  let* (gw, pc) := s in Some (gw, pc, []).
Definition io_step (locked : bool) (pc : IoPc) (an : Answers) (gw : Gateway) : option (Gateway * IoPc * list Submission) :=
  match pc with
  | IoLoop => Some (loop_step an gw, [])
  | IoStopped => Some (gw, IoStopped, [])
  | IoAccept => quiet_step (accept_step an gw)
  | IoRead c w => Some (read_step c w an gw, [])
  | IoFrames c w => quiet_step (frames_step c w gw)
  | IoBind c w message command =>
      if locked then Some (gw, pc, [])
      else Some (bind_session c (message_account message) gw, IoBound c w message command, [])
  | IoBound c w message command =>
      Some (on_connection c (set_cn_account_id (Some (message_account message))) gw, IoNotify NfMark c w (Some (message, command)), [])
  | IoMismatch c w command =>
      let* (gw, pushed) := reject_account_mismatch options c command gw in
      Some (gw, if pushed : bool then IoNotify NfMark c w None else IoFrames c w, [])
  | IoNotify n c w claim =>
      let* (gw, next) := notify_step n c gw in
      Some (gw, match next, claim with
                | Some n, _ => IoNotify n c w claim
                | None, Some (message, command) => IoClaim c w message command
                | None, None => IoFrames c w
                end, [])
  | IoClaim c w message command =>
      if locked then Some (gw, pc, [])
      else Some (claim_order_ownership c (message_account message) message gw, IoSubmit c w command, [])
  | IoSubmit c w command => Some (gw, IoFrames c w, if an_yes an then [(c, command)] else [])
  | IoWrite c => quiet_step (write_step c an gw)
  | IoBatch c => quiet_step (batch_step c gw)
  | IoQuiet c =>
      let* (gw, close) := disable_write c (an_yes an) gw in
      Some (gw, if close : bool then IoClosing c KLoop else IoLoop, [])
  | IoClosing c k =>
      if is_closed gw c then Some (gw, continue k, [])
      else Some (on_connection c (set_cn_closed true) gw, IoUnbind c k, [])
  | IoUnbind c k =>
      let* conn := connection gw c in
      match cn_account_id conn with
      | None => Some (gw, IoClosed c k, [])
      | Some a => if locked then Some (gw, pc, []) else Some (unbind_session c a gw, IoClosed c k, [])
      end
  | IoClosed c k =>
      let gw := on_connection c (fun conn =>
        set_cn_socket {| so_written := so_written (cn_socket conn); so_shut_down := true |} conn) gw in
      Some (maybe_resume_listen gw (an_yes an), continue k, [])
  | IoDrain =>
      let* (popped, gw) := pop_dirty gw in
      Some (gw, match popped with Some c => IoUndirty c | None => IoOverflow end, [])
  | IoUndirty c => Some (on_connection c (set_cn_dirty false) gw, if is_closed gw c then IoDrain else IoEnable c KDrain, [])
  | IoEnable c k => quiet_step (enable_step c k an gw)
  | IoOverflow =>
      if gw_dirty_overflow gw then Some (set_gw_dirty_overflow false gw, IoSweep (seq 0 (length (gw_connections gw))), [])
      else Some (gw, IoLoop, [])
  | IoSweep [] => Some (gw, IoLoop, [])
  | IoSweep (c :: rest) =>
      let* conn := connection gw c in
      Some (on_connection c (set_cn_dirty false) gw,
            if cn_dirty conn && negb (cn_closed conn) then IoEnable c (KSweep rest) else IoSweep rest, [])
  end.

(** ** The matching thread *)
Definition notify_all (wake : list nat) : MtPc := match wake with [] => MtIdle | c :: rest => MtNotify NfMark c rest end.
(** [extra_event_sink] is called on the event first; it has no access to the
    gateway. *)
Definition matching_step (pc : MtPc) (event : ExchangeEvent) (lg : Ledger) (gw : Gateway) : option (Gateway * MtPc) :=
  match pc with
  | MtIdle => Some (gw, match to_execution_reports event with [] => MtIdle | reports => MtRoute reports [] lg event end)
  | MtRoute ((key, message) :: reports) wake lg event =>
      let* (gw, wake) := route_report options key message wake gw in Some (gw, MtRoute reports wake lg event)
  | MtRoute [] wake lg event => Some (update_order_ownership lg event gw, notify_all wake)
  | MtNotify n c rest =>
      let* (gw, next) := notify_step n c gw in
      Some (gw, match next with Some n => MtNotify n c rest | None => notify_all rest end)
  end.

(** ** Both *)
Record World := {
  wd_gateway : Gateway;
  wd_io : IoPc;
  wd_matching : MtPc;
  wd_events : list ExchangeEvent;        (* every event the matching thread has begun to route *)
  wd_submitted : list Submission;        (* every command the pipeline has accepted *)
}.
Inductive Choice :=
| ChIo (an : Answers)
| ChMatching (event : ExchangeEvent) (lg : Ledger)
| ChStop.
Definition world_move (w : World) (ch : Choice) : option World :=
  match ch with
  | ChIo an =>
      let* (gw, pc, submitted) := io_step (holds_mutex (wd_matching w)) (wd_io w) an (wd_gateway w) in
      Some {| wd_gateway := gw; wd_io := pc; wd_matching := wd_matching w; wd_events := wd_events w;
              wd_submitted := wd_submitted w ++ submitted |}
  | ChMatching event lg =>
      let* (gw, pc) := matching_step (wd_matching w) event lg (wd_gateway w) in
      Some {| wd_gateway := gw; wd_io := wd_io w; wd_matching := pc;
              wd_events := match wd_matching w with MtIdle => wd_events w ++ [event] | _ => wd_events w end;
              wd_submitted := wd_submitted w |}
  | ChStop => Some {| wd_gateway := stop (wd_gateway w); wd_io := wd_io w; wd_matching := wd_matching w;
                      wd_events := wd_events w; wd_submitted := wd_submitted w |}
  end.
(** [dirty_] is a single-producer ring with two producers: the matching
    thread and, through [bind_session] and [reject_account_mismatch], the I/O
    thread.  A thread is inside its [try_push] from the load of [head_] to
    the store of it. *)
Definition in_push (n : NotifyPc) : bool :=
  match n with NfTail _ | NfConstruct _ _ | NfPublish _ _ => true | NfMark | NfHead | NfOverflow | NfWake => false end.
Definition io_in_push (pc : IoPc) : bool := match pc with IoNotify n _ _ _ => in_push n | _ => false end.
Definition matching_in_push (pc : MtPc) : bool := match pc with MtNotify n _ _ => in_push n | _ => false end.
Definition pushes_overlap (w : World) : bool := io_in_push (wd_io w) && matching_in_push (wd_matching w).
(** Nothing is known of a run in which both are: what follows may be a data
    race on the slot, and the model does not go on. *)
Definition world_step (w : World) (ch : Choice) : option World :=
  let* w := world_move w ch in
  if pushes_overlap w then None else Some w.
Fixpoint world_run (w : World) (schedule : list Choice) : option World :=
  match schedule with
  | [] => Some w
  | ch :: schedule => let* w := world_step w ch in world_run w schedule
  end.
(** The gateway as [start] leaves it. *)
Definition World_start : option World :=
  let* gw := OrderEntryGateway_new in
  Some {| wd_gateway := (start gw true true true true).1; wd_io := IoLoop; wd_matching := MtIdle; wd_events := [];
          wd_submitted := [] |}.
End Threads.
