(* ===== verification/GatewayFacts.v ===== *)
(** * The order-entry gateway: what its state holds

    [gw_ok B R gw]: [B] binds connections to accounts, [R] is the log of
    reports routed so far.  Per connection, the bytes its socket has taken
    and those still in its buffer are whole encodings; the reports among
    them, then the backlog, then the outbound queue are reports of the bound
    account in log order; everything else is an account-mismatch answer. *)
From S2P Require Import Prelude Types TickLadder SideIndex PriceQueues MatchingBook BookSpec MatchingEngine EngineSpec EngineFacts Ledger LedgerSpec LedgerSim Venue ByteIO CommandCodec OrderEntryCodec GatewayReports OmsMirror SpscQueue Gateway GatewayThreads.

Abbreviation Log := (list (OrderKey * OrderEntry.Message)) (only parsing).
Definition for_account (a : AccountId) (R : Log) : list OrderEntry.Message := (filter (fun r => r.1.1 = a) R).*2.
Definition belongs (b : option AccountId) (R : Log) : list OrderEntry.Message :=
  match b with Some a => for_account a R | None => [] end.
Definition foreign (b : option AccountId) (message : OrderEntry.Message) : Prop :=
  match b with
  | Some a => exists r, message = OrderEntry.MsgRejected r /\ OrderEntry.rj_reason r = RejectReason.AccountMismatch /\
                OrderEntry.rj_account_id r <> a
  | None => False
  end.
(** Messages tagged [true] when they are routed reports. *)
Abbreviation Tagged := (list (bool * OrderEntry.Message)) (only parsing).
Definition reports_of (tagged : Tagged) : list OrderEntry.Message := (filter (fun t => t.1 = true) tagged).*2.

Record queues_ok (b : option AccountId) (R : Log) (conn : Connection) (out so : list OrderEntry.Message) (tagged : Tagged) : Prop := {
  qo_outbound : queue_is (cn_outbound conn) out;
  qo_session : queue_is (cn_session_outbound conn) so;
  qo_foreign : Forall (foreign b) so;
  qo_tagged : Forall (fun t => t.1 = false -> foreign b t.2) tagged;
  qo_reports : reports_of tagged ++ cn_replay_backlog conn ++ out `sublist_of` belongs b R;
}.
Definition wire_ok (so : Socket) (w : Writer) (tagged : Tagged) : Prop :=
  so_written so ++ bytes_left w = mjoin (OrderEntry.message_bytes <$> tagged.*2) /\ (wr_offset w <= length (wr_buf w))%nat.
Definition conn_ok (b : option AccountId) (R : Log) (conn : Connection) : Prop :=
  exists out so tagged, queues_ok b R conn out so tagged /\ wire_ok (cn_socket conn) (cn_writer conn) tagged.

Definition valid (gw : Gateway) (c : nat) : Prop := (c < length (gw_connections gw))%nat.
Record gw_ok (B : nat -> option AccountId) (R : Log) (gw : Gateway) : Prop := {
  ok_connections : forall c conn, connection gw c = Some conn -> conn_ok (B c) R conn;
  ok_dirty : exists l, queue_is (gw_dirty gw) l /\ Forall (valid gw) l;
  ok_owner : forall key c, ss_order_owner (gw_sessions gw) !! key = Some c -> B c = Some key.1;
  ok_sessions : forall a cs, ss_account_sessions (gw_sessions gw) !! a = Some cs -> Forall (fun c => B c = Some a) cs;
  ok_pending : forall a ms, ss_pending_reports (gw_sessions gw) !! a = Some ms -> ms `sublist_of` for_account a R;
  ok_bound : forall c, is_Some (B c) -> valid gw c;
}.

(** ** Logs *)
Lemma for_account_app a R1 R2 : for_account a (R1 ++ R2) = for_account a R1 ++ for_account a R2.
Proof. unfold for_account. by rewrite filter_app, fmap_app. Qed.
Lemma for_account_hit (key : OrderKey) m : for_account key.1 [(key, m)] = [m].
Proof. unfold for_account. by rewrite filter_cons_True. Qed.
Lemma belongs_grows b R1 R2 : belongs b R1 `sublist_of` belongs b (R1 ++ R2).
Proof. destruct b as [a|]; cbn; [|done]. rewrite for_account_app. by apply sublist_inserts_r. Qed.
Lemma reports_of_app t1 t2 : reports_of (t1 ++ t2) = reports_of t1 ++ reports_of t2.
Proof. unfold reports_of. by rewrite filter_app, fmap_app. Qed.

(** ** Untouched parts *)
Definition core (gw : Gateway) : list Connection * SpscQueue nat * Sessions := (gw_connections gw, gw_dirty gw, gw_sessions gw).
Lemma gw_ok_core B R gw gw' : core gw' = core gw -> gw_ok B R gw -> gw_ok B R gw'.
Proof.
  intros [= E1 E2 E3] [K1 K2 K3 K4 K5 K6]. split; unfold connection, valid in *; rewrite ?E1, ?E2, ?E3; assumption.
Qed.
Lemma core_count options m n gw : core (count options m n gw) = core gw.
Proof. unfold count. by destruct (go_enable_io_metrics options). Qed.
Lemma core_connection gw gw' c : core gw' = core gw -> connection gw' c = connection gw c.
Proof. intros [= E _ _]. unfold connection. by rewrite E. Qed.

Lemma connection_valid gw c : valid gw c <-> is_Some (connection gw c).
Proof. unfold valid, connection. symmetry. apply lookup_lt_is_Some. Qed.
Lemma connection_on gw c f c' :
  connection (on_connection c f gw) c' = if decide (c = c') then f <$> connection gw c' else connection gw c'.
Proof.
  unfold connection, on_connection. cbn. destruct (decide (c = c')) as [<-|Hne].
  - apply list_lookup_alter_eq.
  - by apply list_lookup_alter_ne.
Qed.
Lemma valid_on gw c f c' : valid (on_connection c f gw) c' <-> valid gw c'.
Proof. unfold valid, on_connection. cbn. by rewrite length_alter. Qed.
Lemma on_connection_on gw c f g : on_connection c g (on_connection c f gw) = on_connection c (fun conn => g (f conn)) gw.
Proof. unfold on_connection, set_gw_connections. cbn. by rewrite (list_alter_alter_eq g f). Qed.
Lemma core_on gw gw' c f : core gw' = core gw -> core (on_connection c f gw') = core (on_connection c f gw).
Proof. intros [= E1 E2 E3]. unfold core, on_connection. cbn. by rewrite E1, E2, E3. Qed.

Lemma conn_ok_grows b R1 R2 conn : conn_ok b R1 conn -> conn_ok b (R1 ++ R2) conn.
Proof.
  intros (out & so & tagged & [Q1 Q2 Q3 Q4 Q5] & Hw). exists out, so, tagged. split; [|done]. split; try done.
  etrans; [exact Q5|apply belongs_grows].
Qed.
Lemma gw_ok_grows B R1 R2 gw : gw_ok B R1 gw -> gw_ok B (R1 ++ R2) gw.
Proof.
  intros [K1 K2 K3 K4 K5 K6]. split; try done.
  - intros c conn Hc. by apply conn_ok_grows, K1.
  - intros a ms Hms. rewrite for_account_app. by apply sublist_inserts_r, K5.
Qed.

(** A change to one connection. *)
Lemma on_connection_ok B R gw c f : gw_ok B R gw ->
  (forall conn, connection gw c = Some conn -> conn_ok (B c) R conn -> conn_ok (B c) R (f conn)) ->
  gw_ok B R (on_connection c f gw).
Proof.
  intros [K1 K2 K3 K4 K5 K6] Hf. split; try done.
  - intros c' conn'. rewrite connection_on. case_decide as E; [subst c'|by apply K1].
    destruct (connection gw c) as [conn|] eqn:Hc; [|done]. intros [= <-]. apply Hf; [done|by apply K1].
  - destruct K2 as (l & Hl & Hv). exists l. split; [done|]. eapply Forall_impl; [exact Hv|]. intros c' Hc'. by rewrite valid_on.
  - intros c' Hc'. rewrite valid_on. by apply K6.
Qed.
(** One that leaves what is queued and written alone. *)
Definition same_traffic (conn conn' : Connection) : Prop :=
  cn_socket conn' = cn_socket conn /\ cn_writer conn' = cn_writer conn /\ cn_outbound conn' = cn_outbound conn /\
  cn_session_outbound conn' = cn_session_outbound conn /\ cn_replay_backlog conn' = cn_replay_backlog conn.
Lemma same_traffic_ok b R conn conn' : same_traffic conn conn' -> conn_ok b R conn -> conn_ok b R conn'.
Proof.
  intros (E1 & E2 & E3 & E4 & E5) (out & so & tagged & [Q1 Q2 Q3 Q4 Q5] & Hw). exists out, so, tagged.
  rewrite E1, E2. split; [|done]. split; rewrite ?E3, ?E4, ?E5; done.
Qed.
Lemma on_connection_same B R gw c f : (forall conn, same_traffic conn (f conn)) -> gw_ok B R gw -> gw_ok B R (on_connection c f gw).
Proof. intros Hf K. apply on_connection_ok; [done|]. intros conn _. by apply same_traffic_ok. Qed.

(** ** Connections *)
Lemma Connection_new_ok b R id capacity : capacity <= two63 ->
  exists conn, Connection_new id capacity = Some conn /\ conn_ok b R conn /\ cn_account_id conn = None.
Proof.
  intros Hc. unfold Connection_new. destruct (SpscQueue_new_is (T := OrderEntry.Message) capacity Hc) as (q & -> & Hq & _).
  eexists. split; [reflexivity|]. split; [|done]. exists [], [], []. split.
  - split; cbn; try done. apply sublist_nil_l.
  - split; [done|]. cbn. lia.
Qed.

Lemma pop_outbound_ok b R gw c conn out so tagged : connection gw c = Some conn -> queues_ok b R conn out so tagged ->
  exists r f, pop_outbound c gw = Some (r, on_connection c f gw) /\
    cn_writer (f conn) = cn_writer conn /\ cn_socket (f conn) = cn_socket conn /\ cn_account_id (f conn) = cn_account_id conn /\
    match r with
    | None => same_traffic conn (f conn)
    | Some m => exists t out' so', queues_ok b R (f conn) out' so' (tagged ++ [(t, m)])
    end.
Proof.
  intros Hc [Q1 Q2 Q3 Q4 Q5]. unfold pop_outbound. rewrite Hc. destruct (cn_replay_backlog conn) as [|m rest] eqn:Hb.
  - destruct (try_pop_is _ _ Q2) as (r & q & -> & Hr & _). destruct r as [m|].
    + destruct Hr as (so' & -> & Hq). apply Forall_cons in Q3 as [Hm Q3].
      exists (Some m), (set_cn_session_outbound q). split; [done|]. do 3 (split; [done|]).
      exists false, out, so'. split; cbn; try done.
      * apply Forall_app. by split; [|constructor].
      * rewrite Hb, reports_of_app. cbn. by rewrite app_nil_r.
    + destruct Hr as [-> _]. destruct (try_pop_is _ _ Q1) as (r & q' & -> & Hr & _).
      exists r, (set_cn_outbound q'). split; [done|]. do 3 (split; [done|]). destruct r as [m|].
      * destruct Hr as (out' & -> & Hq). exists true, out', []. split; cbn; try done.
        -- apply Forall_app. by split; [|constructor].
        -- rewrite Hb, reports_of_app. cbn. cbn in Q5. rewrite <- app_assoc. exact Q5.
      * destruct Hr as [_ ->]. by repeat split.
  - exists (Some m), (set_cn_replay_backlog rest). split; [done|]. do 3 (split; [done|]).
    exists true, out, so. split; cbn; try done.
    + apply Forall_app. by split; [|constructor].
    + rewrite reports_of_app. cbn. rewrite <- app_assoc. exact Q5.
Qed.

Lemma wire_encode so w tagged t m : wire_ok so w tagged -> wire_ok so (encode_into m w) (tagged ++ [(t, m)]).
Proof.
  intros [Hw Ho]. split; cbn; rewrite OrderEntry.encode_message_bytes.
  - unfold bytes_left in *. cbn. rewrite drop_app_le by done. rewrite app_assoc, Hw, !fmap_app. cbn.
    rewrite join_app. cbn. by rewrite app_nil_r.
  - rewrite length_app. lia.
Qed.
Lemma wire_clear so w tagged : wire_ok so w tagged -> (length (wr_buf w) <= wr_offset w)%nat -> wire_ok so Writer_clear tagged.
Proof.
  intros [Hw Ho] Hl. split; [|done]. rewrite <- Hw. unfold bytes_left. cbn. by rewrite (drop_ge (wr_buf w)) by done.
Qed.
Lemma wire_write so w tagged n : wire_ok so w tagged -> (n <= length (bytes_left w))%nat ->
  wire_ok {| so_written := so_written so ++ take n (bytes_left w); so_shut_down := so_shut_down so |}
    {| wr_buf := wr_buf w; wr_offset := wr_offset w + n; wr_pending := wr_pending w |} tagged.
Proof.
  intros [Hw Ho] Hn. unfold bytes_left in *. rewrite length_drop in Hn. split; cbn; [|lia].
  rewrite <- app_assoc. unfold bytes_left. cbn. rewrite <- drop_drop, take_drop. exact Hw.
Qed.

(** ** The order-entry gateway: every step is defined and keeps the state

    The I/O thread's program counter against the bindings, and the two step
    functions. *)

Definition cont_ok (gw : Gateway) (k : IoCont) : Prop := match k with KSweep rest => Forall (valid gw) rest | _ => True end.
Definition claim_ok (B : nat -> option AccountId) (c : nat) (message : OrderEntry.Message) (command : ExchangeCommand) : Prop :=
  B c = Some (message_account message) /\ to_command message = Some command.
Definition pc_ok (B : nat -> option AccountId) (gw : Gateway) (pc : IoPc) : Prop :=
  match pc with
  | IoLoop | IoStopped | IoAccept | IoDrain | IoOverflow => True
  | IoRead c _ | IoFrames c _ | IoWrite c | IoBatch c | IoQuiet c | IoUndirty c => valid gw c
  | IoBind c _ message command => valid gw c /\ B c = None /\ to_command message = Some command
  | IoBound c _ message command | IoClaim c _ message command => claim_ok B c message command
  | IoMismatch c _ command => exists a, B c = Some a /\ command_account command <> a
  | IoNotify _ c _ claim => valid gw c /\ match claim with Some (message, command) => claim_ok B c message command | None => True end
  | IoSubmit c _ command => B c = Some (command_account command)
  | IoClosing c k | IoUnbind c k | IoClosed c k | IoEnable c k => valid gw c /\ cont_ok gw k
  | IoSweep rest => Forall (valid gw) rest
  end.
Definition accounts_ok (B : nat -> option AccountId) (gw : Gateway) (pc : IoPc) : Prop :=
  forall c conn, connection gw c = Some conn ->
    cn_account_id conn = match pc with IoBound c' _ _ _ => if decide (c = c') then None else B c | _ => B c end.
Definition io_ok B (R : list (OrderKey * OrderEntry.Message)) (gw : Gateway) (pc : IoPc) : Prop :=
  gw_ok B R gw /\ accounts_ok B gw pc /\ pc_ok B gw pc.
Definition binding (pc : IoPc) : bool := match pc with IoBound _ _ _ _ => true | _ => false end.

(** ** What a step may change without a thought *)
(** The same connections, up to everything but their accounts. *)
Definition same_accounts (gw gw' : Gateway) : Prop := (cn_account_id <$> gw_connections gw') = (cn_account_id <$> gw_connections gw).
Lemma same_accounts_refl gw gw' : gw_connections gw' = gw_connections gw -> same_accounts gw gw'.
Proof. unfold same_accounts. by intros ->. Qed.
Lemma same_accounts_on gw gw' c f : gw_connections gw' = gw_connections gw -> (forall conn, cn_account_id (f conn) = cn_account_id conn) ->
  same_accounts gw (on_connection c f gw').
Proof.
  intros E Hf. unfold same_accounts, on_connection. cbn. rewrite E. apply list_eq. intros i. rewrite !list_lookup_fmap.
  destruct (decide (c = i)) as [<-|Hne].
  - rewrite list_lookup_alter_eq. destruct (gw_connections gw !! c); cbn; [by rewrite Hf|done].
  - by rewrite list_lookup_alter_ne by done.
Qed.
Lemma same_accounts_valid gw gw' c : same_accounts gw gw' -> valid gw c -> valid gw' c.
Proof. intros E%(f_equal length). rewrite !length_fmap in E. unfold valid. by rewrite E. Qed.
Lemma same_accounts_ok B gw gw' pc pc' : same_accounts gw gw' -> binding pc = false -> binding pc' = false ->
  accounts_ok B gw pc -> accounts_ok B gw' pc'.
Proof.
  intros E Hp Hp' H c conn' Hc. assert (Hm : (cn_account_id <$> gw_connections gw') !! c = Some (cn_account_id conn')).
  { rewrite list_lookup_fmap. unfold connection in Hc. by rewrite Hc. }
  rewrite E, list_lookup_fmap in Hm. destruct (gw_connections gw !! c) as [conn|] eqn:Hc0; [|done]. injection Hm as <-.
  rewrite (H c conn Hc0). by destruct pc, pc'.
Qed.
Lemma same_accounts_pc B gw gw' pc : same_accounts gw gw' -> pc_ok B gw pc -> pc_ok B gw' pc.
Proof.
  intros E. pose proof (fun c => same_accounts_valid gw gw' c E) as Hv.
  assert (HF : forall l, Forall (valid gw) l -> Forall (valid gw') l) by (intros l Hl; eapply Forall_impl; [exact Hl|exact Hv]).
  destruct pc; cbn; try done; try (by apply Hv); try (by apply HF); try (intros [H1 H2]; split; [by apply Hv|done]);
    (intros [H1 H2]; split; [by apply Hv|]; by destruct k; cbn in *; auto).
Qed.
Lemma io_ok_step B R gw gw' pc pc' : same_accounts gw gw' -> binding pc = false -> binding pc' = false ->
  io_ok B R gw pc -> gw_ok B R gw' -> pc_ok B gw' pc' -> io_ok B R gw' pc'.
Proof. intros E Hp Hp' (_ & Ha & _) Hg Hc. split; [done|]. split; [|done]. by apply (same_accounts_ok B gw gw' pc). Qed.
Lemma gw_ok_same_core B R gw gw' : core gw' = core gw -> gw_ok B R gw -> gw_ok B R gw' /\ same_accounts gw gw'.
Proof. intros E Hg. split; [by apply (gw_ok_core B R gw)|]. apply same_accounts_refl. by injection E. Qed.
Lemma continue_ok B gw k : cont_ok gw k -> pc_ok B gw (continue k).
Proof. by destruct k. Qed.
Lemma valid_lookup gw c : valid gw c -> exists conn, connection gw c = Some conn.
Proof. intros [conn H]%connection_valid. by exists conn. Qed.

(** ** Notifying the writer, from either thread *)
(** Inside [dirty_.try_push]: the loaded [head_] is still the ring's, there
    is room for one more, and once constructed the slot holds [c]. *)
Definition slot_free (q : SpscQueue nat) (head tail : Z) : Prop :=
  sq_head q = head /\ sq_size q <= u64 (head - tail) < sq_capacity q.
Definition push_ok (n : NotifyPc) (c : nat) (q : SpscQueue nat) : Prop :=
  match n with
  | NfTail head => sq_head q = head
  | NfConstruct head tail => slot_free q head tail
  | NfPublish head tail => slot_free q head tail /\ sq_storage q !! sq_cell q head = Some (Some c)
  | NfMark | NfHead | NfOverflow | NfWake => True
  end.
Lemma push_ok_out n c q : in_push n = false -> push_ok n c q.
Proof. by destruct n. Qed.
(** A pop by the consumer leaves a push in progress alone. *)
Lemma push_ok_pop n c q l r q' : queue_is q l -> try_pop q = Some (r, q') -> push_ok n c q -> push_ok n c q'.
Proof.
  intros Hq E H. destruct (try_pop_is q l Hq) as (r0 & q0 & E0 & Hr & Hcap). rewrite E0 in E. injection E as <- <-.
  destruct r0 as [v|]; [|by destruct Hr as [_ ->]]. destruct Hr as (rest & -> & Hq').
  pose proof (qi_size _ _ Hq) as Hs. pose proof (qi_size _ _ Hq') as Hs'. rewrite length_cons in Hs.
  assert (Eh : sq_head q0 = sq_head q /\ sq_mask q0 = sq_mask q /\ exists i, i = sq_tail q /\ sq_storage q0 = <[sq_cell q i := None]> (sq_storage q)).
  { unfold try_pop in E0. destruct (sq_tail q =? sq_head q); [done|]. destruct (sq_storage q !! _) as [[x|]|]; [|done..].
    injection E0 as _ <-. by repeat (split || eexists). }
  destruct Eh as (Eh & Em & i & -> & Est).
  assert (Hfree : forall head tail, slot_free q head tail -> slot_free q0 head tail).
  { intros head tail [H1 H2]. split; [congruence|]. rewrite Hcap. lia. }
  destruct n; cbn in *; auto; [congruence|]. destruct H as [H Hc]. split; [by apply Hfree|]. destruct H as [<- Hroom].
  assert (Hcell : sq_cell q0 (sq_head q) = sq_cell q (sq_head q)) by (unfold sq_cell; by rewrite Em). rewrite Hcell, Est.
  rewrite list_lookup_insert_ne; [done|]. rewrite (qi_head _ _ Hq), (sq_cell_u64 q (v :: rest)) by done.
  rewrite <- (Z.add_0_r (sq_tail q)) at 1. intros Heq. apply (sq_cell_inj q (v :: rest)) in Heq; [cbn in Heq; lia|done|lia|cbn; lia].
Qed.
Lemma gw_ok_dirty B R gw q l : gw_ok B R gw -> queue_is q l -> Forall (valid gw) l -> gw_ok B R (set_gw_dirty q gw).
Proof. intros [K1 K2 K3 K4 K5 K6] Hq Hl. split; try done. by exists l. Qed.
Lemma notify_step_ok B R gw n c : gw_ok B R gw -> valid gw c -> push_ok n c (gw_dirty gw) ->
  exists gw' next, notify_step n c gw = Some (gw', next) /\ gw_ok B R gw' /\ same_accounts gw gw' /\
    match next with Some n' => push_ok n' c (gw_dirty gw') | None => True end /\ (in_push n = false -> gw_dirty gw' = gw_dirty gw).
Proof.
  intros Hg Hv Hp. destruct (ok_dirty _ _ _ Hg) as (l & Hl & Hf). pose proof (qi_size _ _ Hl) as Hsize.
  destruct n as [| |head|head tail|head tail| |]; cbn in *.
  - unfold mark_dirty. destruct (valid_lookup gw c Hv) as (conn & ->). destruct (cn_dirty conn); cbn.
    + eexists _, _. split; [done|]. split; [done|by split; [apply same_accounts_refl|]].
    + eexists _, _. split; [done|]. split; [by apply on_connection_same|by split; [apply same_accounts_on|]].
  - eexists _, _. split; [done|]. split; [done|by split; [apply same_accounts_refl|]].
  - eexists _, _. split; [done|]. split; [done|]. split; [by apply same_accounts_refl|]. split; [|done].
    unfold push_dirty_room, push_full. destruct (Z.leb_spec (sq_capacity (gw_dirty gw)) (u64 (head - sq_tail (gw_dirty gw)))); cbn; [done|].
    split; [done|]. rewrite <- Hp. unfold sq_size in *. rewrite Hp in *. lia.
  - destruct Hp as [<- Hroom]. unfold push_dirty_construct.
    destruct (push_construct_is (gw_dirty gw) l c Hl ltac:(lia)) as (q & -> & Hq & Hcell & Eh & Et & Ec). cbn.
    eexists _, _. split; [done|]. split; [by apply (gw_ok_dirty B R gw q l)|]. split; [by apply same_accounts_refl|]. split; [|done].
    cbn. split; [|done]. split; [done|]. rewrite (qi_size _ _ Hq), Ec. lia.
  - destruct Hp as [[<- Hroom] Hcell]. unfold push_dirty_publish. eexists _, _. split; [done|]. split; [|by split; [apply same_accounts_refl|]].
    apply (gw_ok_dirty B R gw _ (l ++ [c])); [done|apply push_publish_is; [done..|lia]|]. apply Forall_app. by split; [|repeat constructor].
  - eexists _, _. split; [done|]. destruct (gw_ok_same_core B R gw (set_gw_dirty_overflow true gw) eq_refl Hg). by split.
  - eexists _, _. split; [done|]. destruct (gw_ok_same_core B R gw (set_gw_wake true gw) eq_refl Hg). by split.
Qed.

(** ** Reading *)
Lemma command_message message command : to_command message = Some command ->
  command_account command = message_account message.
Proof. by destruct message; intros [= <-]. Qed.

Lemma read_step_ok options B R gw c w an : io_ok B R gw (IoRead c w) ->
  io_ok B R (read_step options c w an gw).1 (read_step options c w an gw).2 /\ binding (read_step options c w an gw).2 = false.
Proof.
  intros Hok. pose proof Hok as (Hg & Ha & Hv). unfold read_step. cbn in Hv.
  destruct (is_closed gw c); [split; [|done]; by apply (io_ok_step B R gw _ (IoRead c w))|].
  set (gw1 := count options ReadSyscalls 1 gw). assert (E1 : core gw1 = core gw) by apply core_count.
  assert (Hplain : forall gw' pc, core gw' = core gw -> binding pc = false -> (valid gw' c -> pc_ok B gw' pc) -> io_ok B R gw' pc).
  { intros gw' pc E Hb Hpc. destruct (gw_ok_same_core B R gw gw' E Hg) as [Hg' Hs].
    apply (io_ok_step B R gw gw' (IoRead c w)); try done. apply Hpc. by apply (same_accounts_valid gw). }
  destruct (an_read an) as [bytes| |].
  - set (gw2 := count options BytesRead _ gw1). assert (E2 : core gw2 = core gw) by (unfold gw2; by rewrite core_count).
    case_bool_decide; cbn; (split; [|done]).
    + by apply Hplain.
    + assert (Hs : same_accounts gw (on_connection c (fun conn => set_cn_read_buffer (cn_read_buffer conn ++ take 4096 bytes) conn) gw2)).
      { apply same_accounts_on; [by injection E2|done]. }
      apply (io_ok_step B R gw _ (IoRead c w)); try done; [|by apply (same_accounts_valid gw)].
      apply on_connection_same; [done|]. by apply (gw_ok_core B R gw).
  - destruct w; cbn; (split; [by apply Hplain|done]).
  - cbn. split; [by apply Hplain|done].
Qed.

Lemma frames_step_ok options B R gw c w : io_ok B R gw (IoFrames c w) ->
  exists gw' pc, frames_step options c w gw = Some (gw', pc) /\ io_ok B R gw' pc /\ binding pc = false.
Proof.
  intros Hok. pose proof Hok as (Hg & Ha & Hv). cbn in Hv. unfold frames_step.
  destruct (valid_lookup gw c Hv) as (conn & Hc). rewrite Hc. pose proof (Ha c conn Hc) as Hacc. cbn in Hacc.
  destruct (next_frame (cn_read_buffer conn)) as [[frame rest]|].
  2: { eexists _, _. split; [done|]. split; [|done]. by apply (io_ok_step B R gw _ (IoFrames c w)). }
  set (gw1 := on_connection c (set_cn_read_buffer rest) gw).
  assert (Hg1 : gw_ok B R gw1) by (by apply on_connection_same).
  assert (Hplain : forall gw' pc, core gw' = core gw1 -> binding pc = false -> (valid gw' c -> pc_ok B gw' pc) -> io_ok B R gw' pc).
  { intros gw' pc E Hb Hpc. assert (Hs : same_accounts gw gw').
    { unfold same_accounts. injection E as -> _ _. by apply same_accounts_on. }
    apply (io_ok_step B R gw gw' (IoFrames c w)); try done; [by apply (gw_ok_core B R gw1)|].
    apply Hpc. by apply (same_accounts_valid gw). }
  destruct (OrderEntry.decode_message frame) as [message|e].
  2: { eexists _, _. split; [done|]. split; [by apply Hplain|done]. }
  assert (E2 : core (count options FramesDecoded 1 gw1) = core gw1) by apply core_count.
  destruct (to_command message) as [command|] eqn:Hcmd.
  2: { eexists _, _. split; [done|]. split; [by apply Hplain|done]. }
  destruct (cn_account_id conn) as [a|] eqn:Hca.
  - destruct (Z.eqb_spec a (message_account message)) as [->|Hne]; (eexists _, _; split; [done|]; split; [|done]); apply Hplain; try done.
    intros _. exists a. split; [done|]. rewrite (command_message _ _ Hcmd). congruence.
  - eexists _, _; split; [done|]; split; [|done]. by apply Hplain.
Qed.

(** ** Writing *)
Lemma conn_ok_of B R gw c conn : gw_ok B R gw -> connection gw c = Some conn -> exists out so tagged,
  queues_ok (B c) R conn out so tagged /\ wire_ok (cn_socket conn) (cn_writer conn) tagged.
Proof. intros Hg Hc. exact (ok_connections _ _ _ Hg c conn Hc). Qed.
(** Replace one connection by a good one. *)
Lemma on_connection_to B R gw c conn f : gw_ok B R gw -> connection gw c = Some conn -> conn_ok (B c) R (f conn) ->
  gw_ok B R (on_connection c f gw).
Proof. intros Hg Hc Hf. apply on_connection_ok; [done|]. intros conn' Hc' _. rewrite Hc in Hc'. by injection Hc' as <-. Qed.
Lemma same_accounts_to gw gw' c conn f : gw_connections gw' = gw_connections gw -> connection gw c = Some conn ->
  cn_account_id (f conn) = cn_account_id conn -> same_accounts gw (on_connection c f gw').
Proof.
  intros E Hc Hf. unfold same_accounts, on_connection. cbn. rewrite E. apply list_eq. intros i. rewrite !list_lookup_fmap.
  destruct (decide (c = i)) as [<-|Hne]; [|by rewrite list_lookup_alter_ne by done].
  rewrite list_lookup_alter_eq. unfold connection in Hc. rewrite Hc. cbn. by rewrite Hf.
Qed.

Lemma enable_step_ok B R gw c k an : gw_ok B R gw -> valid gw c -> cont_ok gw k ->
  exists gw' pc, enable_step c k an gw = Some (gw', pc) /\ gw_ok B R gw' /\ same_accounts gw gw' /\ pc_ok B gw' pc /\ binding pc = false.
Proof.
  intros Hg Hv Hk. unfold enable_step, enable_write. destruct (valid_lookup gw c Hv) as (conn & ->).
  assert (Hsame : exists gw' pc, Some (gw, continue k) = Some (gw', pc) /\ gw_ok B R gw' /\ same_accounts gw gw' /\ pc_ok B gw' pc /\ binding pc = false).
  { eexists _, _. split; [done|]. split; [done|]. split; [by apply same_accounts_refl|]. split; [by apply continue_ok|by destruct k]. }
  destruct (cn_closed conn || cn_write_interest conn); [exact Hsame|]. destruct (an_yes an).
  - assert (Hs : same_accounts gw (on_connection c (set_cn_write_interest true) gw)) by (by apply same_accounts_on).
    eexists _, _. split; [done|]. split; [by apply on_connection_same|]. split; [done|]. split; [|by destruct k].
    apply (same_accounts_pc B gw); [done|by apply continue_ok].
  - eexists _, _. split; [done|]. split; [done|]. split; [by apply same_accounts_refl|by split].
Qed.

(** Pop one message and put it into the batch that [w] is. *)
Lemma pop_encode_ok B R gw c conn out so tagged w : gw_ok B R gw -> connection gw c = Some conn ->
  queues_ok (B c) R conn out so tagged -> wire_ok (cn_socket conn) (cn_writer conn) tagged -> wire_ok (cn_socket conn) w tagged ->
  exists r gw', pop_outbound c gw = Some (r, gw') /\ same_accounts gw gw' /\
    match r with
    | None => gw_ok B R gw'
    | Some m => gw_ok B R (on_connection c (set_cn_writer (encode_into m w)) gw') /\
        same_accounts gw (on_connection c (set_cn_writer (encode_into m w)) gw')
    end.
Proof.
  intros Hg Hc Hq Hw0 Hw. destruct (pop_outbound_ok _ _ _ _ _ _ _ _ Hc Hq) as (r & f & -> & E1 & E2 & E3 & Hr).
  exists r, (on_connection c f gw). split; [done|]. split; [by apply (same_accounts_to gw gw c conn)|]. destruct r as [m|].
  - destruct Hr as (t & out' & so' & [Q1 Q2 Q3 Q4 Q5]). rewrite on_connection_on. split; [|by apply (same_accounts_to gw gw c conn)].
    apply (on_connection_to B R gw c conn); [done|done|]. exists out', so', (tagged ++ [(t, m)]).
    split; [by split|]. cbn. rewrite E2. by apply wire_encode.
  - apply (on_connection_to B R gw c conn); [done|done|]. apply (same_traffic_ok _ _ conn); [done|]. by exists out, so, tagged.
Qed.

Lemma write_some_ok options B R gw c conn r : gw_ok B R gw -> connection gw c = Some conn ->
  exists gw' outcome, write_some options c r gw = Some (gw', outcome) /\ gw_ok B R gw' /\ same_accounts gw gw'.
Proof.
  intros Hg Hc. unfold write_some. rewrite Hc. set (gw1 := count options WriteSyscalls 1 gw).
  assert (E1 : core gw1 = core gw) by apply core_count.
  assert (Hplain : forall gw', core gw' = core gw -> gw_ok B R gw' /\ same_accounts gw gw') by (intros gw' E; by apply gw_ok_same_core).
  assert (Herr : forall gw', core gw' = core gw -> core (count options WriteErrors 1 gw') = core gw) by (intros gw' E; by rewrite core_count).
  destruct r as [n| |]; [|by eexists _, _; split; [done|apply Hplain]|by eexists _, _; split; [done|apply Hplain, Herr]].
  set (w := cn_writer conn). set (n' := Nat.min n (length (bytes_left w))).
  set (gw2 := count options BytesWritten _ gw1). assert (E2 : core gw2 = core gw) by (unfold gw2; by rewrite core_count).
  destruct (n' =? 0)%nat; [by eexists _, _; split; [done|apply Hplain, Herr]|].
  destruct (conn_ok_of _ _ _ _ _ Hg Hc) as (out & so & tagged & [Q1 Q2 Q3 Q4 Q5] & Hw).
  assert (Hw' := wire_write _ _ _ n' Hw ltac:(apply Nat.le_min_r)). fold w in Hw'.
  assert (Hon : forall gw' sk wr, core gw' = core gw -> wire_ok sk wr tagged ->
    gw_ok B R (on_connection c (fun _ => set_cn_writer wr (set_cn_socket sk conn)) gw') /\
    same_accounts gw (on_connection c (fun _ => set_cn_writer wr (set_cn_socket sk conn)) gw')).
  { intros gw' sk wr E Hwr. split; [|apply (same_accounts_to gw gw' c conn); [by injection E|done|done]].
    apply (gw_ok_core B R (on_connection c (fun _ => set_cn_writer wr (set_cn_socket sk conn)) gw)); [by apply core_on|].
    apply (on_connection_to B R gw c conn); [done|done|]. exists out, so, tagged. by split. }
  cbn [wr_offset wr_buf wr_pending]. destruct (Nat.ltb_spec (wr_offset w + n') (length (wr_buf w))) as [Hlt|Hge].
  - eexists _, _. split; [done|]. by apply Hon.
  - eexists _, _. split; [done|]. apply Hon; [by rewrite core_count|]. apply (wire_clear _ _ _ Hw'). exact Hge.
Qed.

Lemma write_step_ok options B R gw c an : io_ok B R gw (IoWrite c) ->
  exists gw' pc, write_step options c an gw = Some (gw', pc) /\ io_ok B R gw' pc /\ binding pc = false.
Proof.
  intros Hok. pose proof Hok as (Hg & Ha & Hv). cbn in Hv. unfold write_step.
  destruct (valid_lookup gw c Hv) as (conn & Hc). rewrite Hc.
  destruct (cn_closed conn).
  { eexists _, _. split; [done|]. split; [by apply (io_ok_step B R gw _ (IoWrite c))|done]. }
  destruct (Nat.ltb_spec (wr_offset (cn_writer conn)) (length (wr_buf (cn_writer conn)))) as [Hlt|Hge].
  - destruct (write_some_ok options B R gw c conn (an_write an) Hg Hc) as (gw1 & outcome & -> & Hg1 & Hs1).
    assert (Hv1 : valid gw1 c) by (by apply (same_accounts_valid gw)).
    assert (Hplain : forall pc, binding pc = false -> pc_ok B gw1 pc -> exists gw' pc', Some (gw1, pc) = Some (gw', pc') /\
      io_ok B R gw' pc' /\ binding pc' = false).
    { intros pc Hb Hpc. eexists _, _. split; [done|]. split; [by apply (io_ok_step B R gw _ (IoWrite c))|done]. }
    assert (Hen : exists gw' pc, enable_step c KLoop an gw1 = Some (gw', pc) /\ io_ok B R gw' pc /\ binding pc = false).
    { destruct (enable_step_ok B R gw1 c KLoop an Hg1 Hv1 I) as (gw2 & pc & -> & Hg2 & Hs2 & Hpc & Hb).
      eexists _, _. split; [done|]. split; [|done]. apply (io_ok_step B R gw _ (IoWrite c)); try done. unfold same_accounts in *. congruence. }
    destruct outcome; [by apply Hplain|exact Hen|exact Hen|by apply Hplain].
  - destruct (conn_ok_of _ _ _ _ _ Hg Hc) as (out & so & tagged & Hq & Hw).
    destruct (pop_encode_ok B R gw c conn out so tagged Writer_clear Hg Hc Hq Hw) as (r & gw1 & -> & Hs1 & Hr); [by apply (wire_clear _ _ _ Hw)|].
    destruct r as [m|]; (eexists _, _; split; [done|]; split; [|done]).
    + destruct Hr as [Hg2 Hs2]. apply (io_ok_step B R gw _ (IoWrite c)); try done. by apply (same_accounts_valid gw).
    + apply (io_ok_step B R gw _ (IoWrite c)); try done. by apply (same_accounts_valid gw).
Qed.

Lemma batch_step_ok options B R gw c : io_ok B R gw (IoBatch c) ->
  exists gw' pc, batch_step options c gw = Some (gw', pc) /\ io_ok B R gw' pc /\ binding pc = false.
Proof.
  intros Hok. pose proof Hok as (Hg & Ha & Hv). cbn in Hv. unfold batch_step.
  destruct (valid_lookup gw c Hv) as (conn & Hc). rewrite Hc.
  destruct (Z.of_nat (length (wr_pending (cn_writer conn))) <? batch_limit options).
  2: { eexists _, _. split; [done|]. split; [by apply (io_ok_step B R gw _ (IoBatch c))|done]. }
  destruct (conn_ok_of _ _ _ _ _ Hg Hc) as (out & so & tagged & Hq & Hw).
  destruct (pop_encode_ok B R gw c conn out so tagged (cn_writer conn) Hg Hc Hq Hw Hw) as (r & gw1 & -> & Hs1 & Hr).
  destruct r as [m|]; (eexists _, _; split; [done|]; split; [|done]).
  - destruct Hr as [Hg2 Hs2]. apply (io_ok_step B R gw _ (IoBatch c)); try done. by apply (same_accounts_valid gw).
  - apply (io_ok_step B R gw _ (IoBatch c)); try done. by apply (same_accounts_valid gw).
Qed.

(** ** Sessions *)
Definition bound_too (B : nat -> option AccountId) (c : nat) (a : AccountId) : nat -> option AccountId :=
  fun c' => if decide (c = c') then Some a else B c'.
Lemma bound_too_eq B c a : bound_too B c a c = Some a.
Proof. unfold bound_too. by rewrite decide_True. Qed.
Lemma bound_too_grows B c a c' a' : B c = None -> B c' = Some a' -> bound_too B c a c' = Some a'.
Proof. unfold bound_too. intros Hn Hs. rewrite decide_False; [done|congruence]. Qed.
Lemma sessions_ok B R gw ss : gw_ok B R gw ->
  (forall key c, ss_order_owner ss !! key = Some c -> B c = Some key.1) ->
  (forall a cs, ss_account_sessions ss !! a = Some cs -> Forall (fun c => B c = Some a) cs) ->
  (forall a ms, ss_pending_reports ss !! a = Some ms -> ms `sublist_of` for_account a R) -> gw_ok B R (set_gw_sessions ss gw).
Proof. intros [K1 K2 _ _ _ K6] H1 H2 H3. by split. Qed.
(** A connection that is not bound has seen no message. *)
Lemma unbound_ok a R conn ms : conn_ok None R conn -> ms `sublist_of` for_account a R ->
  conn_ok (Some a) R conn /\ conn_ok (Some a) R (set_cn_replay_backlog ms conn).
Proof.
  intros (out & so & tagged & [Q1 Q2 Q3 Q4 Q5] & Hw) Hms. apply sublist_nil_r, app_eq_nil in Q5 as [Hr [Hb ->]%app_eq_nil].
  assert (tagged = []) as ->.
  { destruct tagged as [|[[] m] tagged]; [done|done|]. by apply Forall_cons in Q4 as [Hf _]; destruct (Hf eq_refl). }
  assert (so = []) as -> by (destruct so; [done|by apply Forall_cons in Q3 as [? _]]).
  split; exists [], [], []; (split; [|done]); split; cbn; try done.
  - rewrite Hb. apply sublist_nil_l.
  - by rewrite app_nil_r.
Qed.
Lemma rebind_ok B R gw c a ss f : gw_ok B R gw -> B c = None -> valid gw c ->
  (forall conn, conn_ok None R conn -> conn_ok (Some a) R (f conn)) ->
  (forall key c', ss_order_owner ss !! key = Some c' -> bound_too B c a c' = Some key.1) ->
  (forall a' cs, ss_account_sessions ss !! a' = Some cs -> Forall (fun c' => bound_too B c a c' = Some a') cs) ->
  (forall a' ms, ss_pending_reports ss !! a' = Some ms -> ms `sublist_of` for_account a' R) ->
  gw_ok (bound_too B c a) R (on_connection c f (set_gw_sessions ss gw)).
Proof.
  intros [K1 K2 K3 K4 K5 K6] Hn Hv Hf H1 H2 H3. split; try done.
  - intros c' conn' Hc'. rewrite connection_on in Hc'. unfold bound_too. case_decide as E; [subst c'|by apply K1].
    change (connection (set_gw_sessions ss gw) c) with (connection gw c) in Hc'.
    destruct (connection gw c) as [conn|] eqn:Hc; [|done]. injection Hc' as <-. apply Hf. rewrite <- Hn. by apply K1.
  - destruct K2 as (l & Hl & Hlv). exists l. split; [done|]. eapply Forall_impl; [exact Hlv|]. intros c' Hc'. by rewrite valid_on.
  - intros c' Hc'. rewrite valid_on. unfold bound_too in Hc'. case_decide; [by subst|by apply K6].
Qed.
Lemma on_connection_id c gw : on_connection c id gw = gw.
Proof. destruct gw. unfold on_connection, set_gw_connections. cbn. f_equal. apply list_eq. intros i.
  destruct (decide (c = i)) as [<-|]; [rewrite list_lookup_alter_eq; by destruct (_ !! c)|by rewrite list_lookup_alter_ne]. Qed.
Lemma bind_ok B R gw c a : gw_ok B R gw -> B c = None -> valid gw c ->
  gw_ok (bound_too B c a) R (bind_session c a gw) /\ same_accounts gw (bind_session c a gw).
Proof.
  intros Hg Hn Hv. pose proof Hg as [K1 K2 K3 K4 K5 K6]. unfold bind_session.
  assert (H1 : forall key c', ss_order_owner (gw_sessions gw) !! key = Some c' -> bound_too B c a c' = Some key.1).
  { intros key c' Hk. by apply bound_too_grows, K3. }
  set (sessions := <[a := _]> (ss_account_sessions (gw_sessions gw))).
  assert (H2 : forall a' cs, sessions !! a' = Some cs -> Forall (fun c' => bound_too B c a c' = Some a') cs).
  { assert (Hold : forall a' cs, ss_account_sessions (gw_sessions gw) !! a' = Some cs -> Forall (fun c' => bound_too B c a c' = Some a') cs).
    { intros a' cs Hcs. eapply Forall_impl; [by apply (K4 a' cs)|]. intros c' Hc'. by apply bound_too_grows. }
    intros a' cs. unfold sessions. destruct (decide (a = a')) as [<-|Hne]; [|rewrite lookup_insert_ne by done; apply Hold].
    rewrite lookup_insert_eq. intros [= <-]. apply Forall_app. split; [|constructor; [apply bound_too_eq|constructor]].
    destruct (ss_account_sessions (gw_sessions gw) !! a) as [old|] eqn:Ho; [by apply Hold|constructor]. }
  destruct (ss_pending_reports (gw_sessions gw) !! a) as [ms|] eqn:Hp.
  - split; [|by apply same_accounts_on]. apply rebind_ok; try done.
    + intros conn Hconn. apply (unbound_ok a R conn ms Hconn). by apply K5.
    + intros a' ms'. cbn. intros [_ Hms']%lookup_delete_Some. by apply K5.
  - split; [|by apply same_accounts_refl].
    match goal with |- gw_ok _ _ (set_gw_sessions ?ss gw) => rewrite <- (on_connection_id c (set_gw_sessions ss gw)) end.
    apply rebind_ok; try done. intros conn Hconn. apply (unbound_ok a R conn [] Hconn). apply sublist_nil_l.
Qed.
Lemma unbind_ok B R gw c a : gw_ok B R gw -> gw_ok B R (unbind_session c a gw).
Proof.
  intros Hg. pose proof Hg as [K1 K2 K3 K4 K5 K6]. apply sessions_ok; [done|..]; cbn.
  - intros key c' [Hk _]%map_lookup_filter_Some. by apply K3.
  - intros a' cs. destruct (ss_account_sessions (gw_sessions gw) !! a) as [bound|] eqn:Hb; [|apply K4].
    case_bool_decide; [intros [_ Hcs]%lookup_delete_Some; by apply K4|].
    intros [[<- <-]|[_ Hcs]]%lookup_insert_Some; [|by apply K4]. apply Forall_filter_keep. by apply K4.
  - exact K5.
Qed.
Lemma claim_order_ok B R gw c a message : gw_ok B R gw -> B c = Some a -> gw_ok B R (claim_order_ownership c a message gw).
Proof.
  intros Hg Hb. assert (Hclaim : forall id, gw_ok B R (set_gw_sessions (set_order_owner
    (try_emplace (a, id) c (ss_order_owner (gw_sessions gw))) (gw_sessions gw)) gw)).
  { intros id. pose proof Hg as [_ _ K3 K4 K5 _]. apply sessions_ok; [done| |done|done]. cbn. intros key c'. unfold try_emplace.
    case_match; [apply K3|]. intros [[<- <-]|[_ Hk]]%lookup_insert_Some; [done|by apply K3]. }
  by destruct message; cbn.
Qed.
Lemma same_accounts_sessions gw ss : same_accounts gw (set_gw_sessions ss gw).
Proof. by apply same_accounts_refl. Qed.

Lemma reject_ok options B R gw c a command : gw_ok B R gw -> valid gw c -> B c = Some a -> command_account command <> a ->
  exists gw' pushed, reject_account_mismatch options c command gw = Some (gw', pushed) /\ gw_ok B R gw' /\ same_accounts gw gw'.
Proof.
  intros Hg Hv Hb Hne. unfold reject_account_mismatch. destruct (valid_lookup gw c Hv) as (conn & Hc). rewrite Hc.
  destruct (conn_ok_of _ _ _ _ _ Hg Hc) as (out & so & tagged & [Q1 Q2 Q3 Q4 Q5] & Hw).
  destruct (try_push_is _ _ (OrderEntry.MsgRejected (mismatch_rejection command)) Q2) as (q & pushed & -> & Hq & _).
  assert (Hg' : gw_ok B R (on_connection c (set_cn_session_outbound q) gw)).
  { apply (on_connection_to B R gw c conn); [done|done|]. destruct pushed.
    - eexists out, _, tagged. split; [|exact Hw]. split; cbn; [done|exact Hq| |done|done]. apply Forall_app. split; [done|].
      constructor; [|constructor]. rewrite Hb. cbn. eexists. split; [done|]. by destruct command.
    - destruct Hq as [-> _]. by exists out, so, tagged. }
  eexists _, _. split; [done|]. destruct pushed; cbn [fst].
  - split; [apply (gw_ok_core B R _ _ (core_count _ _ _ _) Hg')|]. unfold same_accounts.
    pose proof (core_count options ReportsEnqueued 1 (on_connection c (set_cn_session_outbound q) gw)) as E. injection E as -> _ _. by apply same_accounts_on.
  - split; [exact Hg'|by apply same_accounts_on].
Qed.
