(* ===== verification/GatewayRuns.v ===== *)
(** * The order-entry gateway: every run

    The steps of both threads assembled: from [World_start], under any
    schedule, no step is undefined until both threads are inside
    [dirty_.try_push], and the invariant of GatewayFacts.v holds against the
    reports of the events routed so far. *)
From S2P Require Import Prelude Types ByteIO CommandCodec OrderEntryCodec TickLadder SideIndex PriceQueues MatchingBook BookSpec MatchingEngine EngineSpec EngineFacts Ledger LedgerSpec LedgerSim Venue OmsMirror SpscQueue GatewayReports Gateway GatewayThreads GatewayFacts.

(** ** The I/O thread *)
Section Io.
Context (options : GatewayOptions) (Hcap : go_outbound_queue_capacity options <= two63).
Implicit Types (B : nat -> option AccountId) (R : list (OrderKey * OrderEntry.Message)).

Definition io_goes B R (r : option (Gateway * IoPc * list Submission)) : Prop :=
  exists gw pc sub B', r = Some (gw, pc, sub) /\ io_ok B' R gw pc /\ (forall c a, B c = Some a -> B' c = Some a) /\
    (forall c w m cmd, pc = IoBound c w m cmd -> B c = None) /\ Forall (fun s : Submission => B s.1 = Some (command_account s.2)) sub.
Lemma goes_on B R gw pc sub : io_ok B R gw pc -> binding pc = false ->
  Forall (fun s : Submission => B s.1 = Some (command_account s.2)) sub -> io_goes B R (Some (gw, pc, sub)).
Proof. intros H Hb Hs. exists gw, pc, sub, B. split; [done|]. split; [done|]. split; [done|]. split; [|done]. by intros c w m cmd ->. Qed.
Lemma goes_quietly B R s : (exists gw pc, s = Some (gw, pc) /\ io_ok B R gw pc /\ binding pc = false) -> io_goes B R (quiet_step s).
Proof. intros (gw & pc & -> & H & Hb). by apply goes_on. Qed.
(** A step that leaves accounts alone. *)
Lemma goes_same B R gw pc gw' pc' : io_ok B R gw pc -> binding pc = false -> binding pc' = false -> gw_ok B R gw' -> same_accounts gw gw' ->
  pc_ok B gw pc' -> io_goes B R (Some (gw', pc', [])).
Proof.
  intros H Hb Hb' Hg Hs Hpc. apply goes_on; [|done|constructor]. apply (io_ok_step B R gw gw' pc pc'); try done.
  by apply (same_accounts_pc B gw).
Qed.
Lemma goes_core B R gw pc gw' pc' : io_ok B R gw pc -> binding pc = false -> binding pc' = false -> core gw' = core gw ->
  pc_ok B gw pc' -> io_goes B R (Some (gw', pc', [])).
Proof. intros H Hb Hb' E Hpc. pose proof H as (Hg & _). destruct (gw_ok_same_core B R gw gw' E Hg). by apply (goes_same B R gw pc). Qed.

Lemma accept_goes B R gw an : io_ok B R gw IoAccept -> io_goes B R (quiet_step (accept_step options an gw)).
Proof.
  intros H. pose proof H as (Hg & Ha & _). unfold accept_step. destruct (gw_stop gw); [by apply (goes_core B R gw IoAccept)|].
  destruct (an_accept an) as [| |nb added]; [by apply (goes_core B R gw IoAccept)..|]. unfold accept_one.
  destruct nb; [|by apply (goes_core B R gw IoAccept)]. cbn [negb].
  destruct (Connection_new_ok None R (gw_next_session_id gw) _ Hcap) as (conn & -> & Hnew & Hacc).
  destruct added; [|by apply (goes_core B R gw IoAccept)]. cbn [negb]. apply goes_on; [|done|constructor].
  assert (Hnone : B (length (gw_connections gw)) = None).
  { destruct (B _) as [a|] eqn:E; [|done]. pose proof (ok_bound _ _ _ Hg _ (mk_is_Some _ _ E)) as Hv. unfold valid in Hv. lia. }
  assert (Hlook : forall c conn', (gw_connections gw ++ [conn]) !! c = Some conn' ->
    connection gw c = Some conn' \/ c = length (gw_connections gw) /\ conn' = conn).
  { intros c conn' [Hl|[Hge Hl]]%lookup_app_Some; [by left|right].
    apply list_lookup_singleton_Some in Hl as [Hz <-]. split; [lia|done]. }
  destruct Hg as [K1 K2 K3 K4 K5 K6]. split; [|split; [|exact I]].
  - split; try done.
    + intros c conn' Hl. destruct (Hlook c conn' Hl) as [Hl'|[-> ->]]; [by apply K1|]. by rewrite Hnone.
    + destruct K2 as (l & Hl & Hv). exists l. split; [done|]. eapply Forall_impl; [exact Hv|]. unfold valid. cbn. intros c. rewrite length_app. lia.
    + intros c Hc. unfold valid. cbn. rewrite length_app. pose proof (K6 c Hc). unfold valid in *. lia.
  - intros c conn' Hl. destruct (Hlook c conn' Hl) as [Hl'|[-> ->]]; [by apply (Ha c)|]. by rewrite Hnone.
Qed.

Lemma binding_goes B R gw c w message command locked : io_ok B R gw (IoBind c w message command) ->
  io_goes B R (io_step options locked (IoBind c w message command)
    {| an_event := EvWake; an_accept := AcFailed; an_read := ReadEnd; an_write := WriteFailed; an_yes := false |} gw).
Proof.
  intros H. pose proof H as (Hg & Ha & Hv & Hn & Hc). cbn [io_step]. destruct locked; [by apply goes_on|].
  destruct (bind_ok B R gw c (message_account message) Hg Hn Hv) as [Hg' Hs].
  eexists _, _, _, (bound_too B c (message_account message)). split; [done|]. split; [|split; [|split; [|constructor]]].
  - split; [done|]. split; [|by split; [apply bound_too_eq|]].
    intros c' conn' Hc'. assert (Hm : (cn_account_id <$> gw_connections (bind_session c (message_account message) gw)) !! c' = Some (cn_account_id conn')).
    { rewrite list_lookup_fmap. unfold connection in Hc'. by rewrite Hc'. }
    rewrite Hs, list_lookup_fmap in Hm. destruct (gw_connections gw !! c') as [conn|] eqn:E; [|done]. injection Hm as <-.
    rewrite (Ha c' conn E). unfold bound_too. destruct (decide (c' = c)) as [->|Hne]; [done|]. by rewrite decide_False.
  - intros c' a Hb. by apply bound_too_grows.
  - by intros ? ? ? ? [= <- _ _ _].
Qed.
Lemma bound_goes B R gw c w message command : io_ok B R gw (IoBound c w message command) ->
  io_goes B R (Some (on_connection c (set_cn_account_id (Some (message_account message))) gw, IoNotify NfMark c w (Some (message, command)), [])).
Proof.
  intros (Hg & Ha & Hb & Hcmd). apply goes_on; [|done|constructor].
  assert (Hv : valid gw c) by (apply (ok_bound _ _ _ Hg); by rewrite Hb).
  split; [by apply on_connection_same|]. split; [|by split; [apply valid_on|]].
  intros c' conn'. rewrite connection_on. case_decide as E; [subst c'|].
  - destruct (connection gw c); [|done]. by intros [= <-].
  - intros Hc'. rewrite (Ha c' conn' Hc'). by rewrite decide_False by congruence.
Qed.

Lemma loop_goes B R gw locked an : io_ok B R gw IoLoop -> io_goes B R (io_step options locked IoLoop an gw).
Proof.
  intros H. pose proof H as (Hg & Ha & Hpc). cbn [io_step pc_ok] in Hpc |- *.
  unfold loop_step. destruct (gw_stop gw); [by apply (goes_core B R gw IoLoop)|]. destruct (an_event an) as [| |c rd wr br].
  + by apply (goes_core B R gw IoLoop).
  + destruct (gw_listen_armed gw); by apply (goes_core B R gw IoLoop).
  + destruct (is_closed gw c) eqn:Hcl; [by apply (goes_core B R gw IoLoop)|].
    assert (Hv : valid gw c) by (apply connection_valid; unfold is_closed in Hcl; destruct (connection gw c); [done|discriminate]).
    destruct br, rd, wr; by apply (goes_core B R gw IoLoop).
Qed.
Lemma closed_goes B R gw c k locked an : io_ok B R gw (IoClosed c k) -> io_goes B R (io_step options locked (IoClosed c k) an gw).
Proof.
  intros H. pose proof H as (Hg & Ha & Hpc). cbn [io_step pc_ok] in Hpc |- *.
  destruct Hpc as [Hv Hk]. set (f := fun conn => set_cn_socket _ conn).
  assert (E : core (maybe_resume_listen (on_connection c f gw) (an_yes an)) = core (on_connection c f gw)).
  { unfold maybe_resume_listen. destruct (_ || _); [done|]. by destruct (an_yes an). }
  eapply goes_same; [exact H|done|by destruct k| | |by apply continue_ok].
  + apply (gw_ok_core B R _ _ E), on_connection_ok; [done|]. intros conn _ (out & so & tagged & [Q1 Q2 Q3 Q4 Q5] & Hw).
    exists out, so, tagged. by split.
  + unfold same_accounts. injection E as -> _ _. by apply same_accounts_on.
Qed.
Lemma drain_goes B R gw locked an : io_ok B R gw IoDrain -> io_goes B R (io_step options locked IoDrain an gw).
Proof.
  intros H. pose proof H as (Hg & Ha & Hpc). cbn [io_step pc_ok] in Hpc |- *.
  unfold pop_dirty. destruct (ok_dirty _ _ _ Hg) as (l & Hl & Hf). destruct (try_pop_is _ _ Hl) as (r & q & -> & Hr & _).
  assert (Hg' : gw_ok B R (set_gw_dirty q gw)).
  { destruct Hg as [K1 K2 K3 K4 K5 K6]. split; try done. destruct r as [c|].
    - destruct Hr as (rest & -> & Hq). exists rest. split; [done|]. by apply Forall_cons in Hf as [_ ?].
    - destruct Hr as [-> ->]. by exists []. }
  eapply goes_same; [exact H|done|by destruct r|exact Hg'|by apply same_accounts_refl|]. destruct r as [c|]; [|done].
  destruct Hr as (rest & -> & _). by apply Forall_cons in Hf as [? _].
Qed.
Lemma sweep_goes B R gw rest locked an : io_ok B R gw (IoSweep rest) -> io_goes B R (io_step options locked (IoSweep rest) an gw).
Proof.
  intros H. pose proof H as (Hg & Ha & Hpc). cbn [io_step pc_ok] in Hpc |- *.
  destruct rest as [|c rest]; [by eapply goes_core|]. apply Forall_cons in Hpc as [Hv Hrest]. destruct (valid_lookup gw c Hv) as (conn & ->).
  destruct (cn_dirty conn && negb (cn_closed conn)); (eapply goes_same; [exact H|done|done|by apply on_connection_same|by apply same_accounts_on|done]).
Qed.
Definition io_push (gw : Gateway) (pc : IoPc) : Prop := match pc with IoNotify n c _ _ => push_ok n c (gw_dirty gw) | _ => True end.
Lemma io_step_goes B R gw pc locked an : io_ok B R gw pc -> io_push gw pc -> io_goes B R (io_step options locked pc an gw).
Proof.
  intros H Hp. pose proof H as (Hg & Ha & Hpc). destruct pc; cbn [io_step]; cbn [pc_ok] in Hpc.
  - exact (loop_goes B R gw locked an H).
  - by apply goes_on.
  - by apply accept_goes.
  - destruct (read_step_ok options B R gw c writable an H) as [H' Hb]. destruct (read_step options c writable an gw) as [gw' pc']. by apply goes_on.
  - by apply goes_quietly, frames_step_ok.
  - exact (binding_goes B R gw c writable message command locked H).
  - by apply bound_goes.
  - destruct Hpc as (a & Hb & Hne). assert (Hv : valid gw c) by (apply (ok_bound _ _ _ Hg); by rewrite Hb).
    destruct (reject_ok options B R gw c a command Hg Hv Hb Hne) as (gw' & pushed & -> & Hg' & Hs).
    destruct pushed; by apply (goes_same B R gw (IoMismatch c writable command)).
  - destruct Hpc as [Hv Hcl]. destruct (notify_step_ok B R gw n c Hg Hv Hp) as (gw' & next & -> & Hg' & Hs & _).
    destruct next as [n'|]; [|destruct claim as [[message command]|]]; by apply (goes_same B R gw (IoNotify n c writable claim)) || by eapply goes_same.
  - destruct locked; [by apply goes_on|]. destruct Hpc as [Hb Hcmd].
    eapply goes_same; [exact H|done|done|by apply claim_order_ok|destruct message; by apply same_accounts_refl|].
    cbn. by rewrite (command_message _ _ Hcmd).
  - apply goes_on; [|done|destruct (an_yes an); [by repeat constructor|constructor]].
    apply (io_ok_step B R gw gw (IoSubmit c writable command)); [by apply same_accounts_refl|done..|].
    cbn. apply (ok_bound _ _ _ Hg). by rewrite Hpc.
  - by apply goes_quietly, write_step_ok.
  - by apply goes_quietly, batch_step_ok.
  - unfold disable_write. destruct (valid_lookup gw c Hpc) as (conn & ->). destruct (cn_write_interest conn); cbn; [|by eapply goes_core].
    destruct (an_yes an); [|by eapply goes_core]. eapply goes_same; [exact H|done|done|by apply on_connection_same|by apply same_accounts_on|done].
  - destruct Hpc as [Hv Hk]. destruct (is_closed gw c); [eapply goes_core; [exact H|done|by destruct k|done|by apply continue_ok]|].
    eapply goes_same; [exact H|done|done|by apply on_connection_same|by apply same_accounts_on|done].
  - destruct Hpc as [Hv Hk]. destruct (valid_lookup gw c Hv) as (conn & ->). destruct (cn_account_id conn) as [a|]; [|by eapply goes_core].
    destruct locked; [by apply goes_on|]. eapply goes_same; [exact H|done|done|by apply unbind_ok|by apply same_accounts_refl|done].
  - exact (closed_goes B R gw c k locked an H).
  - exact (drain_goes B R gw locked an H).
  - assert (Hs : same_accounts gw (on_connection c (set_cn_dirty false) gw)) by (by apply same_accounts_on).
    destruct (is_closed gw c); (eapply goes_same; [exact H|done|done|by apply on_connection_same|exact Hs|done]).
  - destruct Hpc as [Hv Hk]. destruct (enable_step_ok B R gw c k an Hg Hv Hk) as (gw' & pc & E & Hg' & Hs & Hpc' & Hb).
    apply goes_quietly. exists gw', pc. split; [exact E|]. split; [|done]. by apply (io_ok_step B R gw gw' (IoEnable c k)).
  - destruct (gw_dirty_overflow gw); [|by eapply goes_core]. eapply goes_core; [exact H|done|done|done|].
    cbn. apply Forall_forall. intros c Hc%elem_of_seq. unfold valid. lia.
  - exact (sweep_goes B R gw rest locked an H).
Qed.
(** Only draining and notifying touch the dirty ring. *)
Lemma dirty_on c f gw : gw_dirty (on_connection c f gw) = gw_dirty gw.
Proof. done. Qed.
Lemma dirty_count m n gw : gw_dirty (count options m n gw) = gw_dirty gw.
Proof. by injection (core_count options m n gw). Qed.
Lemma enable_step_dirty c k an gw gw' pc : enable_step c k an gw = Some (gw', pc) -> gw_dirty gw' = gw_dirty gw.
Proof. unfold enable_step, enable_write. intros H. by repeat (case_match || simplify_option_eq). Qed.
Lemma pop_outbound_dirty c gw r gw' : pop_outbound c gw = Some (r, gw') -> gw_dirty gw' = gw_dirty gw.
Proof. unfold pop_outbound. intros H. by repeat (case_match || simplify_option_eq). Qed.
Lemma write_some_dirty c r gw gw' o : write_some options c r gw = Some (gw', o) -> gw_dirty gw' = gw_dirty gw.
Proof.
  unfold write_some. intros H. by repeat (case_match || simplify_option_eq || rewrite ?dirty_on, ?dirty_count).
Qed.
Lemma io_step_dirty locked pc an gw gw' pc' sub : io_step options locked pc an gw = Some (gw', pc', sub) ->
  match pc with
  | IoDrain => exists r, try_pop (gw_dirty gw) = Some (r, gw_dirty gw')
  | IoNotify n c _ _ => exists next, notify_step n c gw = Some (gw', next)
  | _ => gw_dirty gw' = gw_dirty gw
  end.
Proof.
  destruct pc; cbn [io_step]; intros H.
  all: unfold quiet_step, loop_step, accept_step, accept_one, read_step, frames_step, write_step, batch_step, disable_write,
    reject_account_mismatch, maybe_resume_listen, pop_dirty, bind_session, unbind_session in H.
  all: repeat (case_match || simplify_option_eq).
  all: rewrite ?dirty_on, ?dirty_count; cbn [gw_dirty set_gw_wake set_gw_listen_armed pause_listen].
  all: try (by eauto).
  all: try (by destruct message).
  all: repeat match goal with
    | H : write_some _ _ _ _ = Some _ |- _ => apply write_some_dirty in H
    | H : pop_outbound _ _ = Some _ |- _ => apply pop_outbound_dirty in H
    | H : enable_step _ _ _ _ = Some _ |- _ => apply enable_step_dirty in H
    end; congruence.
Qed.
Lemma io_step_pushes B R gw pc locked an gw' pc' sub : io_ok B R gw pc -> io_push gw pc ->
  io_step options locked pc an gw = Some (gw', pc', sub) -> io_push gw' pc'.
Proof.
  intros H Hp E. destruct pc as [| | | | | | | |n c w claim| | | | | | | | | | | | |]; cbn [io_step] in E.
  9: { destruct H as (Hg & _ & Hv & _). destruct (notify_step_ok B R gw n c Hg Hv Hp) as (gw1 & next & E1 & _ & _ & Hn & _).
    rewrite E1 in E. destruct next as [n'|]; [|destruct claim as [[message command]|]]; by simplify_option_eq. }
  all: unfold quiet_step, loop_step, accept_step, accept_one, read_step, frames_step, write_step, batch_step, enable_step,
    disable_write, reject_account_mismatch, pop_dirty in E.
  all: repeat (case_match || simplify_option_eq); try done; by destruct k.
Qed.
End Io.

(** ** The matching thread *)
Section Matching.
Context (options : GatewayOptions).
Implicit Types (B : nat -> option AccountId) (R : list (OrderKey * OrderEntry.Message)).

Lemma route_target_bound B R gw key c : gw_ok B R gw -> route_target gw key = Some c -> B c = Some key.1.
Proof.
  intros Hg. assert (Hany : first_open gw (default [] (ss_account_sessions (gw_sessions gw) !! key.1)) = Some c -> B c = Some key.1).
  { unfold first_open. intros Hh. destruct (ss_account_sessions (gw_sessions gw) !! key.1) as [cs|] eqn:Hcs; [|done]. cbn in Hh.
    apply head_Some_elem_of, list_elem_of_filter in Hh as [_ Hin]. pose proof (ok_sessions _ _ _ Hg _ _ Hcs) as Hf.
    rewrite Forall_forall in Hf. by apply Hf. }
  unfold route_target. destruct (ss_order_owner (gw_sessions gw) !! key) as [c'|] eqn:Ho; [|exact Hany].
  destruct (is_closed gw c'); [exact Hany|]. intros [= <-]. by apply (ok_owner _ _ _ Hg).
Qed.
(** A report goes to a session of its account, or waits for one. *)
Lemma route_report_ok B R gw key message wake : gw_ok B R gw -> Forall (fun c => is_Some (B c)) wake ->
  exists gw' wake', route_report options key message wake gw = Some (gw', wake') /\ gw_ok B (R ++ [(key, message)]) gw' /\
    same_accounts gw gw' /\ Forall (fun c => is_Some (B c)) wake'.
Proof.
  intros Hg Hw. pose proof (gw_ok_grows B R [(key, message)] gw Hg) as Hg1. unfold route_report.
  destruct (route_target gw key) as [c|] eqn:Ht.
  - pose proof (route_target_bound _ _ _ _ _ Hg Ht) as Hb.
    destruct (valid_lookup gw c) as (conn & Hc); [apply (ok_bound _ _ _ Hg); by rewrite Hb|].
    unfold deliver. rewrite Hc. destruct (conn_ok_of _ _ _ _ _ Hg Hc) as (out & so & tagged & [Q1 Q2 Q3 Q4 Q5] & Hwire).
    destruct (try_push_is _ _ message Q1) as (q & pushed & -> & Hq & _).
    set (gw1 := on_connection c (set_cn_outbound q) gw).
    assert (Hg2 : gw_ok B (R ++ [(key, message)]) gw1).
    { apply (on_connection_to B _ gw c conn); [done|done|]. destruct pushed.
      - exists (out ++ [message]), so, tagged. split; [|done]. split; cbn; try done. rewrite Hb in *. cbn in *.
        rewrite for_account_app, for_account_hit, !app_assoc, <- (app_assoc (reports_of tagged)).
        apply sublist_app; [exact Q5|done].
      - destruct Hq as [-> _]. apply (conn_ok_grows (B c) R [(key, message)]). exists out, so, tagged. by split. }
    assert (Hs : same_accounts gw gw1) by (by apply same_accounts_on).
    assert (Hcount : forall m, gw_ok B (R ++ [(key, message)]) (count options m 1 gw1) /\ same_accounts gw (count options m 1 gw1)).
    { intros m. destruct (gw_ok_same_core B _ gw1 (count options m 1 gw1) (core_count _ _ _ _) Hg2) as [H1 H2].
      split; [done|]. unfold same_accounts in *. congruence. }
    eexists _, _. split; [done|]. destruct pushed; (split; [by apply Hcount|]; split; [by apply Hcount|]); [|done].
    unfold add_wake. destruct wake as [|t [|t' wake]]; [by repeat constructor| |done].
    case_decide; [done|]. apply Forall_cons in Hw as [Hw _]. by repeat constructor.
  - destruct (go_pending_report_capacity options =? 0).
    { eexists _, _. split; [done|]. split; [done|]. split; [by apply same_accounts_refl|done]. }
    eexists _, _. split; [done|]. split; [|split; [by apply same_accounts_refl|done]].
    pose proof Hg1 as [_ _ K3 K4 K5 _]. apply sessions_ok; [done|done|done|]. cbn. intros a ms.
    destruct (decide (key.1 = a)) as [<-|Hne]; [|rewrite lookup_insert_ne by done; apply K5]. rewrite lookup_insert_eq. intros [= <-].
    rewrite for_account_app, for_account_hit. apply sublist_app; [|done].
    assert (Hold : default [] (ss_pending_reports (gw_sessions gw) !! key.1) `sublist_of` for_account key.1 R).
    { destruct (ss_pending_reports (gw_sessions gw) !! key.1) as [ms|] eqn:Hms; [by apply (ok_pending _ _ _ Hg)|apply sublist_nil_l]. }
    case_match; [|exact Hold]. etrans; [|exact Hold]. destruct (default [] _) as [|m ms']; [done|]. by apply sublist_cons.
Qed.
Lemma update_ownership_ok B R lg event gw : gw_ok B R gw -> gw_ok B R (update_order_ownership lg event gw).
Proof.
  intros Hg. pose proof Hg as [_ _ K3 K4 K5 _].
  assert (Hput : forall m : gmap OrderKey nat, (forall key c, m !! key = Some c -> B c = Some key.1) -> gw_ok B R (set_gw_sessions (set_order_owner m (gw_sessions gw)) gw)).
  { intros m Hm. by apply sessions_ok. }
  assert (Hdel : forall m : gmap OrderKey nat, (forall key c, m !! key = Some c -> B c = Some key.1) -> forall k key c,
    delete k m !! key = Some c -> B c = Some key.1).
  { intros m Hm k key c [_ Hk]%lookup_delete_Some. by apply Hm. }
  destruct event as [ev|ev|ev|ev|ev|ev|ev|ev]; cbn [update_order_ownership]; try exact Hg.
  - destruct (find_hold _ _ _); [exact Hg|]. by apply Hput, Hdel.
  - by apply Hput, Hdel.
  - case_match eqn:Ho; [|exact Hg]. apply Hput, Hdel. intros key c [[<- <-]|[_ Hk]]%lookup_insert_Some; [|by apply K3].
    apply (K3 _ _ Ho).
  - apply Hput. assert (Hleg : forall (m : gmap OrderKey nat) leg, (forall key c, m !! key = Some c -> B c = Some key.1) -> forall key c,
      (if tcp_remaining_quantity leg =? 0 then delete ((tcp_account_id leg, tcp_client_order_id leg) : OrderKey) m else m) !! key = Some c -> B c = Some key.1).
    { intros m leg Hm. destruct (tcp_remaining_quantity leg =? 0); [by apply Hdel|exact Hm]. }
    apply Hleg, Hleg, K3.
Qed.

(** The reports of the event in hand that are still to be routed. *)
Definition reports_left (pc : MtPc) : list (OrderKey * OrderEntry.Message) :=
  match pc with MtRoute reports _ _ _ => reports | _ => [] end.
Definition mt_ok B (pc : MtPc) : Prop :=
  match pc with
  | MtIdle => True
  | MtRoute _ wake _ _ => Forall (fun c => is_Some (B c)) wake
  | MtNotify _ c rest => Forall (fun c => is_Some (B c)) (c :: rest)
  end.
Lemma notify_all_ok B wake : Forall (fun c => is_Some (B c)) wake -> mt_ok B (notify_all wake) /\ reports_left (notify_all wake) = [].
Proof. by destruct wake. Qed.
Lemma route_report_dirty key message wake gw gw' wake' : route_report options key message wake gw = Some (gw', wake') ->
  gw_dirty gw' = gw_dirty gw.
Proof.
  unfold route_report, deliver. intros H. repeat (case_match || simplify_option_eq); try done; by rewrite (dirty_count options).
Qed.
Lemma update_ownership_dirty lg event gw : gw_dirty (update_order_ownership lg event gw) = gw_dirty gw.
Proof. unfold update_order_ownership. by repeat case_match. Qed.
Definition mt_push (gw : Gateway) (pc : MtPc) : Prop := match pc with MtNotify n c _ => push_ok n c (gw_dirty gw) | _ => True end.
Lemma notify_all_push gw wake : mt_push gw (notify_all wake).
Proof. by destruct wake. Qed.
Lemma matching_step_goes B R gw pc event lg : gw_ok B R gw -> mt_ok B pc -> mt_push gw pc -> exists gw' pc' new,
  matching_step options pc event lg gw = Some (gw', pc') /\ gw_ok B (R ++ new) gw' /\ same_accounts gw gw' /\ mt_ok B pc' /\
  mt_push gw' pc' /\ (matching_in_push pc = false -> gw_dirty gw' = gw_dirty gw) /\
  new ++ reports_left pc' = match pc with MtIdle => to_execution_reports event | _ => reports_left pc end.
Proof.
  intros Hg Hm Hp. destruct pc as [|[|[key message] reports] wake lg' event'|n c rest]; cbn [matching_step].
  - exists gw. destruct (to_execution_reports event) as [|r rs]; (eexists _, []; split; [done|]; rewrite app_nil_r;
      split; [done|]; split; [by apply same_accounts_refl|by split_and!; [try constructor|..]]).
  - destruct (notify_all_ok B wake Hm) as [Hn E]. eexists _, _, []. split; [done|]. rewrite app_nil_r.
    split; [by apply update_ownership_ok|]. split; [|by split_and!; [|apply notify_all_push|intros _; apply update_ownership_dirty|rewrite E]].
    unfold update_order_ownership. destruct event'; try (by apply same_accounts_refl); case_match; by apply same_accounts_refl.
  - destruct (route_report_ok B R gw key message wake Hg Hm) as (gw' & wake' & E & Hg' & Hs & Hw). rewrite E.
    pose proof (route_report_dirty _ _ _ _ _ _ E). by eexists _, _, [(key, message)].
  - apply Forall_cons in Hm as [Hc Hrest]. assert (Hv : valid gw c) by (by apply (ok_bound _ _ _ Hg)).
    destruct (notify_step_ok B R gw n c Hg Hv Hp) as (gw' & next & -> & Hg' & Hs & Hn & Hd). eexists _, _, []. split; [done|]. rewrite app_nil_r.
    split; [done|]. split; [done|]. destruct next as [n'|]; [by split; [constructor|]|].
    destruct (notify_all_ok B rest Hrest) as [Ho E]. split; [done|]. split; [apply notify_all_push|by split].
Qed.
End Matching.

(** ** Both threads *)
Section World.
Context (options : GatewayOptions) (Hcap : go_outbound_queue_capacity options <= two63).
Implicit Types (B : nat -> option AccountId) (R : list (OrderKey * OrderEntry.Message)).

Record world_ok B R (w : World) : Prop := {
  wo_io : io_ok B R (wd_gateway w) (wd_io w);
  wo_matching : mt_ok B (wd_matching w);
  wo_log : R ++ reports_left (wd_matching w) = mjoin (to_execution_reports <$> wd_events w);
  wo_submitted : Forall (fun s : Submission => B s.1 = Some (command_account s.2)) (wd_submitted w);
  wo_io_push : io_push (wd_gateway w) (wd_io w);
  wo_mt_push : mt_push (wd_gateway w) (wd_matching w);
  wo_apart : pushes_overlap w = false;
}.
Lemma world_start_ok : exists w, World_start = Some w /\ world_ok (fun _ => None) [] w.
Proof.
  unfold World_start, OrderEntryGateway_new. destruct (SpscQueue_new_is (T := nat) 65536 ltac:(done)) as (q & -> & Hq & _).
  eexists. split; [done|]. split; cbn; try done.
  split; [|by split; [intros c conn|]]. split; cbn; try done.
  by exists [].
Qed.
Lemma mt_ok_grows B B' pc : (forall c a, B c = Some a -> B' c = Some a) -> mt_ok B pc -> mt_ok B' pc.
Proof.
  intros HB. assert (HF : forall l, Forall (fun c => is_Some (B c)) l -> Forall (fun c => is_Some (B' c)) l).
  { intros l Hl. eapply Forall_impl; [exact Hl|]. intros c [a Ha]. exists a. by apply HB. }
  destruct pc; cbn; [done|apply HF|apply HF].
Qed.
(** A bound connection's account has been stored, for good. *)
Definition settled B (w : World) (c : nat) : Prop := is_Some (B c) /\ forall x m cmd, wd_io w <> IoBound c x m cmd.
(** While one thread is inside [try_push], the other's steps leave its slot
    alone. *)
Lemma push_ok_kept B R gw gw' locked pc an pc' sub n c : io_ok B R gw pc -> io_push gw pc -> io_in_push pc && in_push n = false ->
  io_step options locked pc an gw = Some (gw', pc', sub) -> push_ok n c (gw_dirty gw) -> push_ok n c (gw_dirty gw').
Proof.
  intros H Hp Hap E Hn. destruct (in_push n) eqn:Hin; [|by apply push_ok_out]. rewrite andb_true_r in Hap.
  pose proof (io_step_dirty options locked pc an gw gw' pc' sub E) as Hd. destruct H as (Hg & _ & Hpc).
  destruct pc as [| | | | | | | |m c' w claim| | | | | | | | | | | | |]; try (by rewrite Hd).
  - destruct Hd as (next & Hd). destruct Hpc as [Hv _]. destruct (notify_step_ok B R gw m c' Hg Hv Hp) as (gw1 & nx & E1 & _ & _ & _ & Hsame).
    rewrite E1 in Hd. injection Hd as <- _. by rewrite (Hsame Hap).
  - destruct Hd as (r & Hd). destruct (ok_dirty _ _ _ Hg) as (l & Hl & _). exact (push_ok_pop n c _ l r _ Hl Hd Hn).
Qed.
Lemma world_move_ok B R w ch : world_ok B R w -> exists w' B' R', world_move options w ch = Some w' /\
  (pushes_overlap w' = false -> world_ok B' R' w') /\
  (forall c a, B c = Some a -> B' c = Some a) /\ (forall c, settled B w c -> settled B' w' c).
Proof.
  intros [Hio Hmt Hlog Hsub Hpi Hpm Hap]. destruct ch as [an|event lg|]; cbn [world_move].
  - destruct (io_step_goes options Hcap B R _ _ (holds_mutex (wd_matching w)) an Hio Hpi) as (gw & pc & sub & B' & E & Hio' & HB & Hnew & Hs).
    rewrite E. eexists _, B', R. split; [done|]. split; [|split; [done|]].
    + intros Hap'. split; cbn; [done|by apply (mt_ok_grows B)|done| | | |exact Hap'].
      * apply Forall_app. split; (eapply Forall_impl; [eassumption|]; intros s; apply HB).
      * by apply (io_step_pushes options B R _ _ _ _ _ _ _ Hio Hpi E).
      * destruct (wd_matching w) as [| |n c rest] eqn:Em; [done..|]. unfold pushes_overlap in Hap. rewrite Em in Hap.
        by apply (push_ok_kept B R _ _ _ _ _ _ _ n c Hio Hpi Hap E).
    + intros c [[a Ha] Hne]. split; [exists a; by apply HB|]. cbn. intros x m cmd ->. rewrite (Hnew c x m cmd eq_refl) in Ha. done.
  - pose proof Hio as (Hg & Ha & Hpc).
    destruct (matching_step_goes options B R _ _ event lg Hg Hmt Hpm) as (gw & pc & new & -> & Hg' & Hs & Hm' & Hpm' & Hsame & Hr).
    eexists _, B, (R ++ new). split; [done|]. split; [|by split].
    intros Hap'. split; cbn; [|done| |done| |done|exact Hap'].
    + split; [done|]. split; [|by apply (same_accounts_pc B (wd_gateway w))].
      intros c conn Hc. assert (Hl : (cn_account_id <$> gw_connections gw) !! c = Some (cn_account_id conn)).
      { rewrite list_lookup_fmap. unfold connection in Hc. by rewrite Hc. }
      rewrite Hs, list_lookup_fmap in Hl. destruct (gw_connections (wd_gateway w) !! c) as [conn0|] eqn:E; [|done]. injection Hl as <-.
      by apply (Ha c).
    + rewrite <- app_assoc, Hr. destruct (wd_matching w); [|exact Hlog..].
      cbn [reports_left] in Hlog. rewrite app_nil_r in Hlog. by rewrite Hlog, fmap_app, join_app; cbn; rewrite app_nil_r.
    + unfold pushes_overlap in Hap. destruct (wd_io w) as [| | | | | | | |n c x claim| | | | | | | | | | | | |]; try done. cbn in Hap |- *.
      destruct (in_push n) eqn:Hin; [|by apply push_ok_out]. cbn in Hap. rewrite (Hsame Hap). exact Hpi.
  - eexists _, B, R. split; [done|]. split; [|by split]. intros Hap'. split; cbn; try done.
    destruct Hio as (Hg & Ha & Hpc). split; [by apply (gw_ok_core B R (wd_gateway w))|]. split; [exact Ha|].
    by apply (same_accounts_pc B (wd_gateway w)); [by apply same_accounts_refl|].
Qed.
(** The last step of [schedule] that runs puts both threads inside
    [dirty_.try_push]. *)
Definition overlaps_in (w : World) (schedule : list Choice) : Prop :=
  exists before ch after w1 w2, schedule = before ++ ch :: after /\ world_run options w before = Some w1 /\
    world_move options w1 ch = Some w2 /\ io_in_push (wd_io w2) = true /\ matching_in_push (wd_matching w2) = true.
Lemma world_run_ok schedule : forall B R w, world_ok B R w ->
  match world_run options w schedule with
  | None => overlaps_in w schedule
  | Some w' => exists B' R', world_ok B' R' w' /\ (forall c a, B c = Some a -> B' c = Some a) /\
      (forall c, settled B w c -> settled B' w' c)
  end.
Proof.
  induction schedule as [|ch schedule IH]; intros B R w Hw; cbn [world_run]; [by exists B, R|].
  destruct (world_move_ok B R w ch Hw) as (w1 & B1 & R1 & E1 & Hw1 & HB1 & Hs1). unfold world_step. rewrite E1. cbn [mbind option_bind].
  destruct (pushes_overlap w1) eqn:Ho.
  { cbn. apply andb_true_iff in Ho as [Hi Hm]. by exists [], ch, schedule, w, w1. }
  cbn [mbind option_bind]. specialize (IH B1 R1 w1 (Hw1 eq_refl)). destruct (world_run options w1 schedule) as [w2|].
  - destruct IH as (B2 & R2 & Hw2 & HB2 & Hs2). exists B2, R2. split; [done|].
    split; intros c; [intros a Ha; by apply HB2, HB1|intros Hc; by apply Hs2, Hs1].
  - destruct IH as (before & ch' & after & w2 & w3 & -> & Hr & Hrest). exists (ch :: before), ch', after, w2, w3. split; [done|]. split; [|done].
    cbn. unfold world_step. rewrite E1. cbn. by rewrite Ho.
Qed.
End World.
