(* ===== verification/GatewayClaims.v ===== *)
(** * Properties of the order-entry gateway *)
From S2P Require Import Prelude Types ByteIO CommandCodec OrderEntryCodec TickLadder SideIndex PriceQueues MatchingBook BookSpec MatchingEngine EngineSpec EngineFacts Ledger LedgerSpec LedgerSim Venue OmsMirror SpscQueue GatewayReports OrderEntryClient Gateway GatewayThreads GatewayFacts GatewayRuns.

(** C10: a session's private stream.  Whatever clients send, whatever the
    network and the poller do, whatever the exchange emits and however the
    I/O and matching threads interleave, the run goes on with every step
    defined until, if ever, both threads are inside [dirty_.try_push] at once
    -- the two producers of a single-producer ring.  Up to there every session
    has one account for good: the bytes its socket has taken and those
    waiting in its buffer are whole encodings, in order, of a subsequence of
    that account's execution reports in event order, and of account-mismatch
    answers that name other accounts -- nothing of anyone else's; the client
    that reads these bytes, as many as have reached it and in chunks of any
    size, hears a prefix of exactly those messages; and every command the
    pipeline accepted from the session names its account. *)
Theorem sessions_private_and_ordered options schedule : go_outbound_queue_capacity options <= two63 ->
  exists w0, World_start = Some w0 /\
  match world_run options w0 schedule with
  | None => exists before ch after w w', schedule = before ++ ch :: after /\ world_run options w0 before = Some w /\
      world_move options w ch = Some w' /\ io_in_push (wd_io w') = true /\ matching_in_push (wd_matching w') = true
  | Some w =>
      forall c conn, connection (wd_gateway w) c = Some conn -> exists a tagged,
      (cn_account_id conn = None \/ cn_account_id conn = Some a) /\
      so_written (cn_socket conn) ++ bytes_left (cn_writer conn) = mjoin (OrderEntry.message_bytes <$> tagged.*2) /\
      reports_of tagged `sublist_of` reports_to a (wd_events w) /\
      Forall (fun t => t.1 = false -> foreign (Some a) t.2) tagged /\
      (forall client chunks future, Forall OrderEntry.message_wf tagged.*2 -> oc_read_buffer client = [] -> Forall chunk_ok chunks ->
         mjoin chunks ++ future = so_written (cn_socket conn) ++ bytes_left (cn_writer conn) ->
         (reader_loop client (ReadOk <$> chunks)).2 `prefix_of` tagged.*2) /\
      (forall command, (c, command) ∈ wd_submitted w -> command_account command = a) /\
      (forall schedule' w', cn_account_id conn = Some a -> world_run options w schedule' = Some w' ->
         exists conn', connection (wd_gateway w') c = Some conn' /\ cn_account_id conn' = Some a)
  end.
Proof.
  intros Hcap. destruct world_start_ok as (w0 & H0 & Hw0). exists w0. split; [done|].
  pose proof (world_run_ok options Hcap schedule _ _ w0 Hw0) as Hrun. destruct (world_run options w0 schedule) as [w|]; [|exact Hrun].
  destruct Hrun as (B & R & Hw & _).
  pose proof Hw as [(Hg & Ha & Hpc) Hmt Hlog Hsub _ _ _]. intros c conn Hc.
  destruct (conn_ok_of _ _ _ _ _ Hg Hc) as (out & so & tagged & [Q1 Q2 Q3 Q4 Q5] & [Hwire _]). pose proof (Ha c conn Hc) as Hacc.
  assert (Hsubc : forall command, (c, command) ∈ wd_submitted w -> B c = Some (command_account command)).
  { intros command Hin. rewrite Forall_forall in Hsub. by apply (Hsub _ Hin). }
  destruct (B c) as [a|] eqn:Hb.
  - exists a, tagged. split_and!.
    + destruct (wd_io w); auto. case_decide; auto.
    + done.
    + unfold reports_to. rewrite <- Hlog. change (_ <$> filter _ _) with (for_account a (R ++ reports_left (wd_matching w))).
      rewrite for_account_app. apply sublist_inserts_r. etrans; [|exact Q5]. by apply sublist_inserts_r.
    + exact Q4.
    + intros client chunks future Ht Hbuf Hch E. apply (reader_prefix client chunks future); try done. by rewrite E.
    + intros command Hin. by injection (Hsubc command Hin).
    + intros schedule' w' Hset Hrun'. pose proof (world_run_ok options Hcap schedule' B R w Hw) as Hrun2. rewrite Hrun' in Hrun2.
      destruct Hrun2 as (B2 & R2 & Hw2 & HB & Hs). destruct Hw2 as [(Hg2 & Ha2 & _) _ _ _ _ _ _].
      destruct (valid_lookup (wd_gateway w') c) as (conn' & Hc'); [apply (ok_bound _ _ _ Hg2); by rewrite (HB c a Hb)|].
      exists conn'. split; [done|]. rewrite (Ha2 c conn' Hc'). destruct (Hs c) as [_ Hne].
      { split; [by exists a|]. intros x m cmd E. rewrite E, Hset, decide_True in Hacc; done. }
      pose proof (HB c a Hb) as Hb2. destruct (wd_io w') as [| | | | | |c' x m cmd| | | | | | | | | | | | | | |]; try exact Hb2.
      rewrite decide_False; [exact Hb2|]. intros ->. by apply (Hne x m cmd).
  - exists 0, [].
    assert (tagged = []) as ->.
    { cbn in Q5. apply sublist_nil_r, app_eq_nil in Q5 as [Hr _].
      destruct tagged as [|[[] m] tagged]; [done|done|]. by apply Forall_cons in Q4 as [Hf _]; destruct (Hf eq_refl). }
    assert (Hn : cn_account_id conn = None) by (destruct (wd_io w); try done; by case_decide).
    split_and!; [by left|exact Hwire|apply sublist_nil_l|constructor| | |].
    + intros client chunks future Ht Hbuf Hch E. apply (reader_prefix client chunks future); try done. by rewrite E.
    + intros command Hin. by specialize (Hsubc command Hin).
    + intros schedule' w' Hset. by rewrite Hn in Hset.
Qed.

(** Session 0 trades for account 1, then asks in the name of account 2;
    session 1 belongs to account 2. *)
Definition demo_options : GatewayOptions :=
  {| go_outbound_queue_capacity := 4; go_pending_report_capacity := 4; go_writer_batch := 4; go_enable_io_metrics := true |}.
Definition asks : Answers :=
  {| an_event := EvWake; an_accept := AcWouldBlock; an_read := ReadWouldBlock; an_write := WriteWouldBlock; an_yes := true |}.
Definition ask_event (ev : IoEvent) : Choice :=
  ChIo {| an_event := ev; an_accept := AcWouldBlock; an_read := ReadWouldBlock; an_write := WriteWouldBlock; an_yes := true |}.
Definition ask_accept : Choice :=
  ChIo {| an_event := EvWake; an_accept := AcSocket true true; an_read := ReadWouldBlock; an_write := WriteWouldBlock; an_yes := true |}.
Definition ask_read (bytes : list byte) : Choice :=
  ChIo {| an_event := EvWake; an_accept := AcWouldBlock; an_read := ReadData bytes; an_write := WriteWouldBlock; an_yes := true |}.
Definition ask_write (n : nat) : Choice :=
  ChIo {| an_event := EvWake; an_accept := AcWouldBlock; an_read := ReadWouldBlock; an_write := Wrote n; an_yes := true |}.
Definition io (n : nat) : list Choice := replicate n (ChIo asks).
Definition demo_order (account_id : AccountId) (side : Side) : OrderEntry.Message :=
  OrderEntry.MsgNewOrder {| OrderEntry.no_account_id := account_id; OrderEntry.no_client_order_id := 1; OrderEntry.no_instrument_id := 7;
    OrderEntry.no_side := side; OrderEntry.no_price := 100; OrderEntry.no_quantity := 5; OrderEntry.no_order_type := Limit;
    OrderEntry.no_time_in_force := GTC |}.
Definition demo_send (c : nat) (m : OrderEntry.Message) (steps : nat) : list Choice :=
  [ask_event (EvSession c true false false); ask_read (OrderEntry.message_bytes m)] ++ io steps.
Definition demo_leg (account_id : AccountId) : TradeCounterparty :=
  {| tcp_account_id := account_id; tcp_client_order_id := 1; tcp_exchange_order_id := account_id; tcp_remaining_quantity := 0 |}.
Definition demo_trade : ExchangeEvent :=
  EvTradeExecuted {| te_event_sequence := 3; te_command_sequence := 2; te_instrument_id := 7; te_price := 100; te_quantity := 5;
    te_aggressor_side := Sell; te_buyer := demo_leg 1; te_seller := demo_leg 2 |}.
Definition demo_schedule : list Choice :=
  [ask_event EvListener; ask_accept; ask_accept] ++ io 1 ++ demo_send 0 (demo_order 1 Buy) 13 ++ demo_send 1 (demo_order 2 Sell) 13 ++
  demo_send 0 (demo_order 2 Buy) 6 ++ replicate 8 (ChMatching demo_trade Ledger_new) ++ [ask_event EvWake] ++ io 8 ++
  [ask_event (EvSession 0 false true false)] ++ replicate 7 (ask_write 1000).
Definition demo_world : option World := let* w := World_start in world_run demo_options w demo_schedule.
(** What session 0 reads: its mismatch answer and its fill. *)
Definition demo_reads : list OrderEntry.Message :=
  [OrderEntry.MsgRejected {| OrderEntry.rj_account_id := 2; OrderEntry.rj_client_order_id := 1; OrderEntry.rj_instrument_id := 7;
     OrderEntry.rj_reason := RejectReason.AccountMismatch |};
   OrderEntry.MsgTradeReport {| OrderEntry.tr_account_id := 1; OrderEntry.tr_client_order_id := 1; OrderEntry.tr_exchange_order_id := 1;
     OrderEntry.tr_instrument_id := 7; OrderEntry.tr_price := 100; OrderEntry.tr_quantity := 5; OrderEntry.tr_remaining_quantity := 0 |}].

Lemma sessions_private_and_ordered_witness :
  ((fun w => (so_written ∘ cn_socket <$> gw_connections (wd_gateway w), (wd_submitted w).*1)) <$> demo_world) =
    Some ([mjoin (OrderEntry.message_bytes <$> demo_reads); []], [0%nat; 1%nat]) /\
  exists w, demo_world = Some w /\ forall c conn, connection (wd_gateway w) c = Some conn -> exists a,
    cn_account_id conn = None \/ cn_account_id conn = Some a.
Proof.
  split; [vm_compute; reflexivity|].
  destruct (sessions_private_and_ordered demo_options demo_schedule) as (w0 & H0 & H); [vm_compute; discriminate|].
  assert (Hd : demo_world = world_run demo_options w0 demo_schedule) by (unfold demo_world; by rewrite H0).
  assert (Hs : bool_decide (is_Some demo_world) = true) by (vm_compute; reflexivity).
  rewrite <- Hd in H. clear Hd. revert Hs H. generalize demo_world. intros [w|] Hs H; [|discriminate].
  exists w. split; [done|]. intros c conn Hc. destruct (H c conn Hc) as (a & tagged & Ha & _). by exists a.
Defined.

(** And the exception can happen: session 0 has been drained since it bound;
    session 1 binds, and its notification loads [head_] just before the
    matching thread, reporting a fill to session 0, does. *)
Definition overlap_schedule : list Choice :=
  [ask_event EvListener; ask_accept; ask_accept] ++ io 1 ++ demo_send 0 (demo_order 1 Buy) 13 ++ [ask_event EvWake] ++ io 5 ++
  demo_send 1 (demo_order 2 Sell) 5 ++ replicate 5 (ChMatching demo_trade Ledger_new).
Example pushes_can_overlap :
  (let* w0 := World_start in let* w := world_run demo_options w0 overlap_schedule in
   let* w := world_move demo_options w (ChMatching demo_trade Ledger_new) in Some (pushes_overlap w)) = Some true.
Proof. vm_compute. reflexivity. Qed.

(** C11: the client's end of the connection is exact.  Whatever messages the
    gateway's bytes encode and however they are cut into chunks, the reader's
    sink has been given the messages that have arrived whole, once each and
    in order, and the bytes it still keeps are the part of the next one that
    has arrived; a send that succeeds puts the message's encoding whole behind
    what was written before, and one that fails a proper part of it. *)
Theorem client_stream_exact client ms chunks future : Forall OrderEntry.message_wf ms -> oc_read_buffer client = [] ->
  Forall chunk_ok chunks -> mjoin chunks ++ future = stream_of ms ->
  (let (client', heard) := reader_loop client (ReadOk <$> chunks) in
   exists later, ms = heard ++ later /\ mjoin chunks = stream_of heard ++ oc_read_buffer client' /\
     oc_written client' = oc_written client /\ oc_connected client' = oc_connected client /\
     match later with
     | [] => oc_read_buffer client' = []
     | m :: _ => (length (oc_read_buffer client') < length (OrderEntry.message_bytes m))%nat
     end) /\
  (forall m answers, exists rest,
     oc_written (send client m answers).1 ++ rest = oc_written client ++ OrderEntry.message_bytes m /\
     ((send client m answers).2 = true <-> rest = [])).
Proof.
  intros Hw Hb Hc E. split; [|intros m answers; apply send_taken].
  destruct (reader_hears chunks client future ms Hw) as [(later & H1 & H2) H3 H4 _]; [by rewrite Hb|done|by rewrite Hb|].
  rewrite Hb in H3. destruct (reader_loop client (ReadOk <$> chunks)) as [client' heard]. cbn [fst snd] in *.
  exists later. split_and!; try done; by rewrite H4.
Qed.
Lemma client_stream_exact_witness :
  (reader_loop OrderEntryClient_new (ReadOk <$> [take 5 (stream_of demo_reads); take 30 (drop 5 (stream_of demo_reads))])).2 = take 1 demo_reads /\
  exists later, demo_reads =
    (reader_loop OrderEntryClient_new (ReadOk <$> [take 5 (stream_of demo_reads); take 30 (drop 5 (stream_of demo_reads))])).2 ++ later.
Proof.
  split; [vm_compute; reflexivity|].
  destruct (client_stream_exact OrderEntryClient_new demo_reads [take 5 (stream_of demo_reads); take 30 (drop 5 (stream_of demo_reads))]
    (drop 35 (stream_of demo_reads))) as [H _].
  - unfold demo_reads. repeat constructor; vm_compute; (discriminate || reflexivity).
  - done.
  - repeat constructor; vm_compute; (discriminate || lia).
  - vm_compute. reflexivity.
  - destruct (reader_loop _ _) as [client' heard]. destruct H as (later & H & _). by exists later.
Defined.
